(* ===== verification/_CoqProject ===== *)
-Q . S2P
Prelude.v
Convertors.v
Values.v
Scan.v
Doubles.v
DateTime.v
TimeConvertors.v
TimeRange.v
MessageSorters.v
OrdMap.v
Field.v
FieldMap.v
DictData.v
DictXml.v
DictLoad.v
DictTables.v
DictContents.v
DictFuel.v
Message.v
RoundTrip.v
DictValidate.v
Parser.v
Layout.v
Wire.v
SessionID.v
TextMap.v
Settings.v
SettingsText.v
SocketSettings.v
Registry.v
MessageStore.v
FileStore.v
FileLog.v
SessionState.v
Provider.v
Session.v
SessionFactory.v
FactoryProps.v
SessionLogic.v
SessionExample.v
SessionDrain.v
SessionSequence.v
SessionRetransmit.v
SessionProps.v
Sockets.v
Monitor.v
MonitorProps.v
Connection.v
Engine.v
EngineProps.v
Triples.v
Reactor.v
Initiator.v
InitiatorProps.v
SessionResponder.v
SessionBox.v
InitiatorRuns.v
InitiatorPace.v
Delivery.v
Acceptor.v
AcceptorProps.v
AcceptorRuns.v
AcceptorLogon.v
Startup.v
Http.v
HttpAdmin.v
HttpProps.v
