(* ===== verification/Prelude.v ===== *)
(** * QuickFIX engine: verification library

    A model of the protocol engine of QuickFIX ([src/src/C++], paths below are
    relative to [src/]) with the theorems that make its parts correct. Stateful
    C++ objects are records and their methods functions from state to state;
    methods that throw return [result], an error monad over the exceptions of
    [src/C++/Exceptions.h]; the session is written in a monad of a state and
    exceptions. Definitions keep the names of the functions they model, all are
    executable, and the examples and witnesses evaluate them.

    ** The parts and their files

    Ground:
    - [Prelude] (this file): bytes, [std::string] searches, C++ integers with
      their wrap-around, [Exceptions.h], [result] with its notations and
      inversion tactics, generic lemmas.
    - [Values]: the field numbers and values the engine names, exception texts.
    - [Scan]: numbers as [scanf] and [atoi] read them.
    - [OrdMap], [TextMap]: [std::map] and [flat_map] with integer and text keys.
    - [Doubles]: the double precision arithmetic of the session's timers.

    Values ([FieldConvertors.h], [FieldTypes.h], [FieldTypes.cpp],
    [TimeRange.h], [TimeRange.cpp]):
    - [Convertors], [TimeConvertors]: text of integers, checksums, characters,
      booleans, timestamps, times and dates, and the syntax of doubles.
    - [DateTime]: calendar, clock, [time_t].
    - [TimeRange]: the daily and weekly schedule of a session.

    Messages ([MessageSorters.*], [Field.h], [FieldMap.*], [Group.*],
    [Message.*], [DataDictionary.*]):
    - [MessageSorters]: the order of a map's fields, with the position tables of
      group orders. [Field], [FieldMap]: sorted fields and nested groups.
      [Layout]: what a header keeps while fields are set in it.
    - [DictData]: the contents of a data dictionary and its look-ups; [DictXml]:
      loading one from a parsed document, with [DictLoad] (the fields, messages and
      groups it then has), [DictTables] (types, names, values, required flags),
      [DictContents] (the groups' own dictionaries) and [DictFuel] (loading ends);
      [DictValidate]: validation of a message against one or two dictionaries.
    - [Message]: encoding, decoding, validation of length and checksum;
      [RoundTrip]: encoding then decoding.

    Settings ([Dictionary.*], [Settings.*], [SessionSettings.*], [SessionFactory.*]):
    - [Settings]: the configuration file, its typed values, defaults and
      inheritance; [SettingsText]: reading and printing it.
    - [SessionFactory]: sessions made from settings, with their constructor and
      setters and the dictionaries they share; [FactoryProps]: its theorems.
    - [Registry]: the static tables of sessions, and what the life of a session
      object does to them.

    Connection and storage ([Parser.*], [SocketConnection.cpp], [SessionID.h],
    [MessageStore.*], [FileStore.*], [FileLog.*]):
    - [Parser]: the stream of received characters cut into messages, and the loop
      that hands them to the session. [Wire]: sender, stream, parser and decoder
      composed.
    - [SessionID]: session identifiers. [MessageStore]: the interface of a store
      as the class [MessageStore], what it promises as [StoreLaws], the memory
      store. [FileStore]: the store on files, over a model of the disk, as an
      implementation of the same interface. [FileLog]: the logs on files.

    The session ([SessionState.h], [Session.*], [Application.h],
    [DataDictionaryProvider.*]):
    - [SessionState], [Provider], [Session]: the state and every operation, from
      [next] with a received string to the store, the application and the
      responder. It uses all parts above: it decodes with [Message], validates with
      [DictValidate], asks [TimeRange] for the schedule, keeps its numbers and
      messages in any [MessageStore], and calls an [Application].
    - [SessionLogic]: two program logics for it ([keeps], invariants over any
      sequence of effects; [spec], exact results) with the tactic [keep] and the
      hint database [session]; [SessionExample], a concrete session.
    - [SessionDrain]: the queue of early messages; [SessionSequence]: an abstract
      machine of sequence numbers and the simulation; [SessionRetransmit]: the
      answer to a ResendRequest; [SessionProps]: theorems on any sequence of events.

    The single-threaded transport ([SocketMonitor_UNIX.*], [SocketConnection.*],
    [SocketConnector.*], [SocketServer.*], [SocketInitiator.*], [SocketAcceptor.*],
    [Initiator.*], [Acceptor.*], [PortSetting.h], [HostDetailsProvider.*]):
    - [Sockets]: the system's calls, with the descriptors that are open and the
      answers to come as state. [SocketSettings]: ports, options, hosts.
    - [Monitor]: the reactor, over any strategy that is a record of handlers;
      [MonitorProps]: what it does to descriptors, for a [Lawful] strategy.
    - [Connection]: the send queue of a connection. [Engine]: sessions, behind the
      class [SessionInterface], and connections on a heap, with the pointers between
      them; [EngineProps]: computations that keep the pointers valid, when sessions
      keep [SessionLaws]. [Triples]: rules for computations on the reactor's thread;
      [Reactor]: one pass keeps any invariant its handlers keep.
    - [Initiator]: connecting sessions; [InitiatorProps], [InitiatorRuns],
      [InitiatorPace]: its invariant, its runs, when it connects.
    - [Acceptor]: listening and the first message; [AcceptorProps], [AcceptorRuns],
      [AcceptorLogon]: its invariant, its runs and their end, how a connection gets
      its session. [Startup]: the sessions both start with, from their settings.
    - [SessionResponder], [SessionBox]: [Session] implements [SessionInterface] and
      keeps [SessionLaws]. [Delivery]: from the bytes of a socket to the calls on the
      session.

    The status page ([HttpMessage.*], [HttpParser.*], [HtmlBuilder.h],
    [HttpConnection.*], [HttpServer.cpp]):
    - [Http]: requests and responses as text. [HttpAdmin]: which requests may change a
      session, the pages and their changes, a connection; it works on the sessions of
      [SessionBox] through [Session]'s operations. [HttpProps]: its theorems.

    ** What the theorems show

    - Sequence numbers: every run of a session over a store that keeps the laws is a
      run of an abstract machine ([session_sequence]); application messages are
      delivered in strictly increasing order ([delivered_in_order]); a sent message
      is stored before it goes out, if messages are kept ([send_stores_first]); a number too low ends the
      session ([too_low_disconnects]); a resend covers the range asked for
      ([resend_covers]); draining ends and leaves nothing that could be taken
      ([next_terminates], [queue_drained], [queue_wellformed]).
    - Stores: the file store refines the abstract contents through restarts
      ([file_store_durable]) and storing a message succeeds or throws and loses
      nothing stored before ([set_stores_or_throws]); the memory store has the same laws. A backup of a log
      keeps what was logged ([backup_keeps]).
    - The stream: framed messages arrive whole, once and in order whatever the
      chunks ([stream_frames], [read_resumes]); with encoding and decoding
      of messages below eight megabytes, those read back without groups
      ([wire_delivery], [setString_toString], [toString_framing]), which ends
      ([setString_terminates]).
    - Validation: acceptance is an abstract notion of conformance, which
      includes how deep the code looks for required fields ([validate_accepts]), rejection names the first fault ([iterate_rejects]),
      enumerated values ([isFieldValue_spec]).
    - Dictionaries: a loaded dictionary answers as the document declares
      ([load_contents]); loading ends unless a component contains itself
      ([load_terminates]).
    - Maps: the container's invariant, look-up, order, lengths and sums
      ([container_invariant], [setField_getField], [findTag_correct],
      [sortFields_correct], [encoding_metrics], [position_correct], [less_total]).
    - Settings: a printed configuration is read back ([settings_print_read]) and a
      session inherits the defaults ([sections_inherit]); a created session is
      configured as they say ([created_as_configured]), a failed creation leaves
      nothing behind ([create_failure_clean]), nor does a transport whose sessions
      cannot all be made ([initialize_all_or_nothing]), sharing dictionaries is invisible
      ([sharing_invisible]), and the registry names the live sessions
      ([registry_live]).
    - Values and time: round trips and bounds of the convertors, the calendar and
      [time_t], schedules as sets of sessions ([weekly_sessions],
      [daily_sessions]).

    - The transport: for any sessions that keep their laws and whatever the system
      answers, descriptors are closed once and dropped sockets are reported once, before
      that ([drops_reported_once], [initiator_descriptors]); the acceptor's thread ends
      with nothing left, unless the end of a session throws ([acceptor_ends]); no pointer
      dangles and the transports' accounts are true ([initiator_sound],
      [acceptor_sound]); what is sent goes out in order ([sent_in_order]), what
      arrives reaches the session in order ([stream_reaches_session]); a connection
      gets a session only by a Logon it read ([only_logon_binds]); the sessions that
      are due, and no others, go through [doConnect] ([connect_due]).
    - The status page: only a POST of its own site changes a session
      ([changes_need_post]), requests are read as they were written
      ([request_roundtrip]), a connection ends ([connection_bounded]).

    Lemmas beside them record where the code departs from what it means to do
    (for instance [torn_header_loses_later], [trailing_gap_restarts],
    [skipped_bytes_counted_twice], [non_stop_reset_on_restart],
    [no_socket_pends], [outside_disconnect_leaks], [lost_listener_stays],
    [long_request_answered_twice], [link_leaves_attribute], [failed_rename_loses],
    [second_global_log_null]).

    ** Fuel and bounds

    Recursion that is not structural takes fuel; running out gives [OutOfFuel],
    which no C++ exception is confused with.
    - [Message.setString] and the group decoder: the length of the string, plus
      one, since each pass consumes characters ([setString_terminates]).
    - [Parser.readMessages]: the length of the buffer; each message takes some.
    - [Session.next] and [nextQueued]: the length of the queue plus two; each
      nested call takes a message out of it ([next_terminates]).
    - [resolveEnvVars]: the length of the value ([resolve_loop_fuel]).
    - [FileStore.read_offsets]: the length of the header file; each entry takes
      some. [write_loop] is structural in the results the system calls give.
    - [DictData.isFieldValue]: the length of the value, plus one.
    - [DictXml.readFromDocument]: the depth of components in each other, which the
      code does not bound either ([load_terminates], [self_component_diverges]).
    - [Monitor.block]: the caller bounds the reports of dropped sockets, and any bound
      above what can be reported is enough ([drops_reported_once]); [poll_loop] takes
      the number of answers the system has left.
    - [Engine.readMessages]: the length of the parser's buffer plus two; each pass
      that goes on takes some ([stream_reaches_session]).
    - [HttpAdmin.http_read_all]: the caller's bound; 2049 is enough, since every read
      but the last adds to a buffer of 2048 ([connection_bounded]). [Http]: the length
      of the request; each header and parameter takes some ([request_roundtrip]).
    - [Initiator.log_out], [Acceptor.a_log_out]: the caller's bound; the code bounds
      these loops by the clock.
    Integers are [Z] with the wrap-around of their width written where the code
    can reach it: the [int]s that add up lengths and bytes of fields, maps and
    messages wrap (where C++ leaves an overflow undefined), and theorems that need
    the exact sum bound the message ([sendable]: below 2^23 bytes); [OutOfFuel] also stands for a write outside the columns of a
    buffer in [TimeConvertors].

    ** Choices of the model

    - Memory: the arena of groups, references and moves are values; locks, threads
      and re-entrance from callbacks are left out: one operation runs at a time.
    - [std::sort] and the bounds of [std::lower_bound] are given by result (a stable
      insertion sort as the sorted containers need; the first position not less).
    - Cached metrics and orders are recomputed where the code recomputes them.
    - A double is the text it is accepted from; its value is computed by the
      vendored double-conversion library.
    - The clock is a stream of readings; local time is a parameter.
    - The disk of [FileStore]: opening and reading succeed, writes may be short,
      interrupted or fail; [fscanf] behaves as the C standard says.
    - [SessionFactory]: reading a dictionary file gives the same each time; stores,
      logs and the callback of the application are parameters.
    - [Session]: what an application does is a function of its own state. A message
      handed to [send] is a value: the numbers written into the caller's object are
      not seen by the caller.
    - The system under the transport answers from lists that are part of the state,
      so that theorems hold for any answers; a descriptor it gives is never one that
      is open. The pipe of signals is never full. What a session asks of its
      responder is carried out when the session's call has ended; a responder answers
      nothing the session looks at. Another thread may make a session send while the
      reactor is between two steps.

    ** Not modelled

    The threaded and the SSL transports ([ThreadedSocket*], [SSLSocket*]): threads that
    block in the system, and OpenSSL. Of the single-threaded one, [start], [stop], the log
    factory and the locks between threads; the
    monitor for Windows; the options set on sockets. The SQL stores and logs: queries
    of external databases. The screen log: output. Of the status page, the server's
    start and stop; [inet_pton] is a parameter. The vendored
    XML and number libraries, the generated message and field classes, the language
    bindings. Of the modelled files: [Message::toXML], settings of type double. *)
From Stdlib Require Export ZArith Ascii String Lia Sorted.
From stdpp Require Export base decidable option numbers list gmap.
From stdpp Require Import strings.

#[global] Open Scope Z_scope.

(** ** Characters and strings: [std::string] is a list of bytes. *)

Abbreviation str := (list ascii).

#[export] Instance ascii_eq_decision : EqDecision ascii := ascii_dec.

(** The code of a character, [0 .. 255] (the value of an [unsigned char]). *)
Definition code (c : ascii) : Z := Z.of_N (N_of_ascii c).

(** The character of a code. *)
Definition chr (z : Z) : ascii := ascii_of_N (Z.to_N z).

(** String literals. *)
Definition lit (s : string) : str := list_ascii_of_string s.

Definition SOH : ascii := "001"%char.
Definition NUL : ascii := "000"%char.

Lemma code_bounds c : 0 <= code c < 256.
Proof. unfold code. pose proof (N_ascii_bounded c). lia. Qed.

Lemma chr_code c : chr (code c) = c.
Proof. unfold chr, code. rewrite N2Z.id. apply ascii_N_embedding. Qed.

Lemma code_chr z : 0 <= z < 256 -> code (chr z) = z.
Proof.
  intros H. unfold code, chr. rewrite N_ascii_embedding by lia. lia.
Qed.

Lemma code_inj c d : code c = code d -> c = d.
Proof. intros H. rewrite <- (chr_code c), <- (chr_code d), H. done. Qed.

(** ** Fixed-width integers *)

(** [static_cast] to an unsigned, respectively a signed, [w]-bit integer. *)
Definition wrap_u (w x : Z) : Z := x mod 2 ^ w.
Definition wrap_s (w x : Z) : Z := (x + 2 ^ (w - 1)) mod 2 ^ w - 2 ^ (w - 1).

Definition u32 : Z -> Z := wrap_u 32.
Definition u64 : Z -> Z := wrap_u 64.
Definition i32 : Z -> Z := wrap_s 32.
Definition i64 : Z -> Z := wrap_s 64.

Lemma wrap_u_small w x : 0 <= x < 2 ^ w -> wrap_u w x = x.
Proof. intros H. apply Z.mod_small, H. Qed.

Lemma wrap_u_range w x : 0 <= w -> 0 <= wrap_u w x < 2 ^ w.
Proof. intros H. apply Z.mod_pos_bound. lia. Qed.

Lemma wrap_s_small w x : 0 < w -> - 2 ^ (w - 1) <= x < 2 ^ (w - 1) -> wrap_s w x = x.
Proof.
  intros Hw H. unfold wrap_s.
  assert (2 ^ w = 2 * 2 ^ (w - 1)) as E.
  { rewrite <- Z.pow_succ_r by lia. f_equal. lia. }
  rewrite Z.mod_small; lia.
Qed.

Lemma wrap_s_wrap_u w x : 0 <= w -> wrap_s w (wrap_u w x) = wrap_s w x.
Proof. intros H. unfold wrap_s, wrap_u. by rewrite Z.add_mod_idemp_l by lia. Qed.

Lemma u64_small x : 0 <= x < 2 ^ 64 -> u64 x = x.
Proof. apply wrap_u_small. Qed.

Lemma i32_small x : - 2 ^ 31 <= x < 2 ^ 31 -> i32 x = x.
Proof. intros H. apply wrap_s_small; simpl; lia. Qed.

(** Wrapping commutes with addition, so it can be deferred to the end of a sum. *)
Lemma i32_add_l a b : i32 (i32 a + b) = i32 (a + b).
Proof.
  unfold i32, wrap_s. f_equal.
  replace ((a + 2 ^ (32 - 1)) mod 2 ^ 32 - 2 ^ (32 - 1) + b + 2 ^ (32 - 1))
    with ((a + 2 ^ (32 - 1)) mod 2 ^ 32 + b) by lia.
  rewrite Z.add_mod_idemp_l by lia. f_equal. lia.
Qed.

Lemma i32_add_r a b : i32 (a + i32 b) = i32 (a + b).
Proof. by rewrite Z.add_comm, i32_add_l, Z.add_comm. Qed.

Lemma i32_idemp a : i32 (i32 a) = i32 a.
Proof. pose proof (i32_add_l a 0) as H. by rewrite !Z.add_0_r in H. Qed.

(** A sum kept in an [int] is the exact sum, wrapped. *)
Lemma fold_i32 {A} (f : A -> Z) l a :
  fold_left (fun result x => i32 (result + f x)) l (i32 a) = i32 (fold_left (fun result x => result + f x) l a).
Proof. revert a. induction l as [|x l IH]; intros a; simpl; [done|]. by rewrite i32_add_l. Qed.

(** ** Searching in strings: [std::string::find] *)

Fixpoint prefix_at (needle s : str) : bool :=
  match needle, s with
  | [], _ => true
  | _ :: _, [] => false
  | a :: needle', b :: s' => bool_decide (a = b) && prefix_at needle' s'
  end.

(** First position of [needle] in [s]; [None] is [std::string::npos]. *)
Fixpoint find (needle s : str) : option nat :=
  if prefix_at needle s then Some 0%nat
  else match s with
       | [] => None
       | _ :: s' => S <$> find needle s'
       end.

(** [s.find(needle, from)]. *)
Definition find_from (needle s : str) (from : nat) : option nat :=
  if (length s <? from)%nat then None
  else Nat.add from <$> find needle (drop from s).

(** [s.substr(pos, n)] for a [pos] inside the string. *)
Definition substr (s : str) (pos n : nat) : str := take n (drop pos s).

Lemma prefix_at_spec needle s : prefix_at needle s = true <-> exists rest, s = needle ++ rest.
Proof.
  revert s. induction needle as [|a needle IH]; intros s; simpl.
  - split; [eauto | done].
  - destruct s as [|b s]; simpl.
    + split; [done | intros [rest [=]]].
    + rewrite andb_true_iff, bool_decide_eq_true, IH. split.
      * intros [-> [rest ->]]. eauto.
      * intros [rest [= -> ->]]. eauto.
Qed.

Lemma prefix_at_app needle rest : prefix_at needle (needle ++ rest) = true.
Proof. apply prefix_at_spec. eauto. Qed.

(** [find] returns the first occurrence ... *)
Lemma find_Some needle s i :
  find needle s = Some i ->
  prefix_at needle (drop i s) = true /\
  forall j, (j < i)%nat -> prefix_at needle (drop j s) = false.
Proof.
  revert i. induction s as [|c s IH]; intros i; simpl.
  - destruct (prefix_at needle []) eqn:E; intros [= <-]. split; [done | lia].
  - destruct (prefix_at needle (c :: s)) eqn:E.
    + intros [= <-]. split; [done | lia].
    + destruct (find needle s) as [k|] eqn:F; simpl; intros [= <-].
      destruct (IH k eq_refl) as [H1 H2]. split; [done|].
      intros [|j] Hj; simpl; [done | apply H2; lia].
Qed.

(** ... and [npos] only when there is none. *)
Lemma find_None needle s :
  find needle s = None -> forall j, (j <= length s)%nat -> prefix_at needle (drop j s) = false.
Proof.
  induction s as [|c s IH]; simpl.
  - destruct (prefix_at needle []) eqn:E; intros [=] [|j] Hj; [done | lia].
  - destruct (prefix_at needle (c :: s)) eqn:E; [done|].
    destruct (find needle s) eqn:F; [done|]. intros _ [|j] Hj; simpl; [done|].
    apply IH; [done | lia].
Qed.

Lemma find_first needle s i :
  (i <= length s)%nat ->
  prefix_at needle (drop i s) = true ->
  (forall j, (j < i)%nat -> prefix_at needle (drop j s) = false) ->
  find needle s = Some i.
Proof.
  intros Hi Hp Hn. destruct (find needle s) as [k|] eqn:E.
  - destruct (find_Some _ _ _ E) as [Hk Hk'].
    destruct (Nat.lt_trichotomy i k) as [Hl | [-> | Hl]]; [|done|].
    + rewrite Hk' in Hp; done.
    + rewrite Hn in Hk; done.
  - rewrite (find_None _ _ E i Hi) in Hp. done.
Qed.

Lemma find_bound needle s i : find needle s = Some i -> (i + length needle <= length s)%nat.
Proof.
  intros E. destruct (find_Some _ _ _ E) as [H _].
  apply prefix_at_spec in H as [rest H].
  apply (f_equal length) in H. rewrite length_drop, length_app in H.
  assert (i <= length s)%nat; [|lia].
  revert i E H. induction s as [|c s IH]; intros i; simpl.
  - destruct (prefix_at needle []); intros [= <-]; simpl; lia.
  - destruct (prefix_at needle (c :: s)); [intros [= <-]; lia|].
    destruct (find needle s) as [k|]; simpl; intros [= <-].
    intros H. specialize (IH k eq_refl H). lia.
Qed.

Lemma find_from_Some needle s from i :
  find_from needle s from = Some i ->
  (from <= i)%nat /\ (i + length needle <= length s)%nat /\
  prefix_at needle (drop i s) = true /\
  forall j, (from <= j < i)%nat -> prefix_at needle (drop j s) = false.
Proof.
  unfold find_from. destruct (Nat.ltb_spec (length s) from); [done|].
  destruct (find needle (drop from s)) as [k|] eqn:E; simpl; intros [= <-].
  pose proof (find_bound _ _ _ E) as Hb. rewrite length_drop in Hb.
  destruct (find_Some _ _ _ E) as [H1 H2]. split_and!; [lia | lia | |].
  - rewrite drop_drop in H1. done.
  - intros j Hj. specialize (H2 (j - from)%nat). rewrite drop_drop in H2.
    replace (from + (j - from))%nat with j in H2 by lia. apply H2. lia.
Qed.

Lemma find_from_None needle s from :
  find_from needle s from = None ->
  forall j, (from <= j <= length s)%nat -> prefix_at needle (drop j s) = false.
Proof.
  unfold find_from. destruct (Nat.ltb_spec (length s) from); [intros; lia|].
  destruct (find needle (drop from s)) as [k|] eqn:E; simpl; [done|].
  intros _ j Hj. pose proof (find_None _ _ E (j - from)%nat) as H2.
  rewrite drop_drop, length_drop in H2.
  replace (from + (j - from))%nat with j in H2 by lia. apply H2. lia.
Qed.

Lemma find_from_first needle s from i :
  (from <= i <= length s)%nat ->
  prefix_at needle (drop i s) = true ->
  (forall j, (from <= j < i)%nat -> prefix_at needle (drop j s) = false) ->
  find_from needle s from = Some i.
Proof.
  intros Hi Hp Hn. destruct (find_from needle s from) as [k|] eqn:E.
  - destruct (find_from_Some _ _ _ _ E) as (Hk1 & _ & Hk & Hk').
    destruct (Nat.lt_trichotomy i k) as [Hl | [-> | Hl]]; [|done|].
    + rewrite Hk' in Hp; [done | lia].
    + rewrite Hn in Hk; [done | lia].
  - rewrite (find_from_None _ _ _ E i) in Hp by lia. done.
Qed.

(** A search may start later when the skipped positions hold no occurrence. *)
Lemma find_from_skip needle s a b :
  (a <= b)%nat ->
  needle <> [] ->
  (forall j, (a <= j < b)%nat -> prefix_at needle (drop j s) = false) ->
  find_from needle s a = find_from needle s b.
Proof.
  intros Hab Hne Hskip. destruct (find_from needle s a) as [i|] eqn:E.
  - destruct (find_from_Some _ _ _ _ E) as (H1 & H2 & H3 & H4).
    destruct (decide (i < b)%nat) as [Hlt|Hge].
    { rewrite Hskip in H3 by lia. done. }
    symmetry. apply find_from_first; [lia | done |].
    intros j Hj. apply H4. lia.
  - destruct (find_from needle s b) as [i|] eqn:E'; [|done].
    destruct (find_from_Some _ _ _ _ E') as (H1 & H2 & H3 & _).
    rewrite (find_from_None _ _ _ E i) in H3 by lia. done.
Qed.

(** The first occurrence of a character that a prefix does not have. *)
Lemma find_char c s rest : c ∉ s -> find [c] (s ++ c :: rest) = Some (length s).
Proof.
  induction s as [|d s IH]; intros Hn; simpl.
  - by rewrite bool_decide_eq_true_2.
  - apply not_elem_of_cons in Hn as [Hne Hn]. rewrite bool_decide_eq_false_2 by done. simpl. by rewrite IH.
Qed.

Lemma find_from_char c pre s rest : c ∉ s -> find_from [c] (pre ++ s ++ c :: rest) (length pre) = Some (length pre + length s)%nat.
Proof.
  intros Hn. unfold find_from. rewrite !length_app. destruct (Nat.ltb_spec (length pre + (length s + length (c :: rest))) (length pre)); [lia|].
  rewrite drop_app_length. by rewrite find_char.
Qed.

Lemma find_absent c s : c ∉ s -> find [c] s = None.
Proof.
  induction s as [|d s IH]; intros Hn; simpl; [done|]. apply not_elem_of_cons in Hn as [Hne Hn].
  rewrite bool_decide_eq_false_2 by done. simpl. by rewrite IH.
Qed.

Lemma substr_middle (pre s post : str) : substr (pre ++ s ++ post) (length pre) (length s) = s.
Proof. unfold substr. by rewrite drop_app_length, take_app_length. Qed.

(** What follows a string does not move the occurrences inside it. *)
Lemma prefix_at_mono needle s t : prefix_at needle s = true -> prefix_at needle (s ++ t) = true.
Proof. rewrite !prefix_at_spec. intros [rest ->]. exists (rest ++ t). by rewrite app_assoc. Qed.

Lemma prefix_at_inside needle s t :
  (length needle <= length s)%nat -> prefix_at needle (s ++ t) = prefix_at needle s.
Proof.
  intros Hl. destruct (prefix_at needle s) eqn:E; [by apply prefix_at_mono|].
  destruct (prefix_at needle (s ++ t)) eqn:E'; [|done]. apply prefix_at_spec in E' as [rest E'].
  assert (prefix_at needle s = true) as H; [|congruence]. apply prefix_at_spec. exists (drop (length needle) s).
  rewrite <- (take_drop (length needle) s) at 1. f_equal.
  apply (f_equal (take (length needle))) in E'. rewrite take_app_length in E'.
  rewrite take_app_le in E' by done. done.
Qed.

Lemma find_from_mono needle s t from i :
  find_from needle s from = Some i -> find_from needle (s ++ t) from = Some i.
Proof.
  intros E. destruct (find_from_Some _ _ _ _ E) as (H1 & H2 & H3 & H4).
  apply find_from_first; [rewrite length_app; lia | |].
  - rewrite drop_app_le by lia. by apply prefix_at_mono.
  - intros j Hj. rewrite drop_app_le, prefix_at_inside by (rewrite ?length_drop; lia). by apply H4.
Qed.

(** [std::string] order, on unsigned characters; [a >= b] is [negb (str_ltb a b)]. *)
Fixpoint str_ltb (a b : str) : bool :=
  match a, b with
  | _, [] => false
  | [], _ :: _ => true
  | x :: a, y :: b => if code x <? code y then true else if code y <? code x then false else str_ltb a b
  end.

(** ** Exceptions ([src/C++/Exceptions.h]) *)

(** One constructor per exception type; the arguments are the fields the code
    reads, [field] and [detail]. [OutOfFuel] is not an exception of the code:
    it marks a bounded loop of the model that ran out of steps; [Undefined] is
    not one either: it marks undefined behaviour of the C++ code. *)
Inductive exn :=
| DataDictionaryNotFound (version detail : str)
| FieldNotFound (field : Z) (detail : str)
| FieldConvertError (detail : str)
| MessageParseError (detail : str)
| InvalidMessage (detail : str)
| ConfigError (detail : str)
| RuntimeError (detail : str)
| InvalidTagNumber (field : Z) (detail : str)
| RequiredTagMissing (field : Z) (detail : str)
| TagNotDefinedForMessage (field : Z) (detail : str)
| NoTagValue (field : Z) (detail : str)
| IncorrectTagValue (field : Z) (detail : str)
| IncorrectDataFormat (field : Z) (detail : str)
| IncorrectMessageStructure (detail : str)
| DuplicateFieldNumber (detail : str)
| InvalidMessageType (detail : str)
| UnsupportedMessageType (detail : str)
| UnsupportedVersion (detail : str)
| TagOutOfOrder (field : Z) (detail : str)
| EmbeddedSOH (field : Z) (detail : str)
| OutOfOrderGroupMembers (field : Z) (detail : str)
| RepeatedTag (field : Z) (detail : str)
| RepeatingGroupCountMismatch (field : Z) (detail : str)
| DoNotSend (detail : str)
| RejectLogon (detail : str)
| SessionNotFound (detail : str)
| IOException (detail : str)
| SocketException (detail : str)
| SocketRecvFailed (detail : str)
| std_logic_error (text : str)
| std_runtime_error (text : str)
| OutOfFuel
| Undefined.

#[export] Instance exn_eq_dec : EqDecision exn.
Proof. solve_decision. Defined.

(** Exceptions a [catch (std::exception &)] catches: all of them. *)
Definition is_exception (e : exn) : bool := match e with OutOfFuel | Undefined => false | _ => true end.

(** ** The error monad: a value or an exception. *)

Inductive result (A : Type) :=
| Ok (a : A)
| Throw (e : exn).
Arguments Ok {A} a.
Arguments Throw {A} e.

#[export] Instance result_ret : MRet result := @Ok.
#[export] Instance result_bind : MBind result := fun A B f r =>
  match r with Ok a => f a | Throw e => Throw e end.
#[export] Instance result_fmap : FMap result := fun A B f r =>
  match r with Ok a => Ok (f a) | Throw e => Throw e end.

#[export] Instance result_eq_dec {A} `{EqDecision A} : EqDecision (result A).
Proof. solve_decision. Defined.

Definition is_Ok {A} (r : result A) : bool := match r with Ok _ => true | Throw _ => false end.

(** [if (!b) throw e;] *)
Definition guard_or (b : bool) (e : exn) : result unit := if b then Ok () else Throw e.

Definition of_option {A} (e : exn) (o : option A) : result A :=
  match o with Some a => Ok a | None => Throw e end.

Lemma result_bind_Ok {A B} (r : result A) (f : A -> result B) b :
  r ≫= f = Ok b <-> exists a, r = Ok a /\ f a = Ok b.
Proof. destruct r; simpl; naive_solver. Qed.

Lemma guard_or_Ok b e : guard_or b e = Ok () <-> b = true.
Proof. destruct b; naive_solver. Qed.

Lemma of_option_Ok {A} (e : exn) (o : option A) a : of_option e o = Ok a <-> o = Some a.
Proof. destruct o; naive_solver. Qed.

(** [for (x : l) f(x);], where the body may throw. *)
Section ForEach.
Context {A : Type} (f : A -> result unit).

Fixpoint for_each (l : list A) : result unit :=
  match l with
  | [] => Ok ()
  | x :: l => _ ← f x; for_each l
  end.

Lemma for_each_Ok l : for_each l = Ok () <-> Forall (fun x => f x = Ok ()) l.
Proof.
  induction l as [|x l IH]; simpl; [by split|]. rewrite Forall_cons, <- IH.
  destruct (f x) as [[]|]; simpl; [tauto|]. split; [done | by intros []].
Qed.

Lemma for_each_Throw l e :
  for_each l = Throw e <->
  exists l1 x l2, l = l1 ++ x :: l2 /\ Forall (fun y => f y = Ok ()) l1 /\ f x = Throw e.
Proof.
  induction l as [|x l IH]; simpl.
  - split; [done|]. intros ([] & ? & ? & ? & _); done.
  - destruct (f x) as [[]|e'] eqn:E; simpl.
    + rewrite IH. split.
      * intros (l1 & y & l2 & -> & ? & ?). exists (x :: l1), y, l2. split_and!; [done | by constructor | done].
      * intros ([|z l1] & y & l2 & [= -> ->] & H1 & H2); [congruence|]. apply Forall_cons in H1 as []. eauto 10.
    + split.
      * intros [= ->]. exists [], x, l. split_and!; [done | constructor | done].
      * intros ([|z l1] & y & l2 & [= -> ->] & H1 & H2); [congruence|]. apply Forall_cons in H1 as []. congruence.
Qed.
End ForEach.

(** ** Tactics *)

(** Splits a successful computation into its steps. *)
Ltac inv_result :=
  repeat match goal with
  | H : _ ≫= _ = Ok _ |- _ =>
      apply result_bind_Ok in H as (? & ? & H)
  | H : guard_or _ _ = Ok ?u |- _ => destruct u; apply guard_or_Ok in H
  | H : Ok _ = Ok _ |- _ => injection H as H
  | H : Throw _ = Ok _ |- _ => discriminate H
  end.

(** Case analysis on the first boolean test of the goal, with its meaning. *)
Ltac case_bool :=
  match goal with
  | |- context [if (?a <? ?b)%Z then _ else _] => destruct (Z.ltb_spec a b)
  | |- context [if (?a <=? ?b)%Z then _ else _] => destruct (Z.leb_spec a b)
  | |- context [if (?a =? ?b)%Z then _ else _] => destruct (Z.eqb_spec a b)
  | |- context [if (?a <? ?b)%nat then _ else _] => destruct (Nat.ltb_spec a b)
  | |- context [if (?a <=? ?b)%nat then _ else _] => destruct (Nat.leb_spec a b)
  | |- context [if bool_decide ?P then _ else _] => destruct (bool_decide_reflect P)
  end.

(** A closed decidable proposition, by evaluation. *)
Ltac by_compute := refine (bool_decide_eq_true_1 _ _); vm_compute; reflexivity.

(** A property of every integer of a range, checked by evaluation. *)
Fixpoint forall_range (lo : Z) (n : nat) (P : Z -> bool) : bool :=
  match n with
  | O => true
  | S n => P lo && forall_range (lo + 1) n P
  end.

Lemma forall_range_spec lo n P :
  forall_range lo n P = true -> forall z, lo <= z < lo + Z.of_nat n -> P z = true.
Proof.
  revert lo. induction n as [|n IH]; intros lo; cbn [forall_range]; [lia|].
  intros [H1 H2]%andb_true_iff z Hz. destruct (decide (z = lo)) as [->|]; [done|].
  apply (IH (lo + 1)); [done | lia].
Qed.
