(* ===== verification/Convertors.v ===== *)
(** * Integer, boolean and character convertors ([src/C++/FieldConvertors.h])

    [IntTConvertor<T>] for the three integer types of the engine, the decimal
    encoder [integer_to_string] that shares its digit-pair table, the symbol
    counter used to size buffers, and the checksum, double (syntax only),
    character and boolean convertors. A buffer that is too small is [None]:
    the code would write before its start. *)
From S2P Require Import Prelude.

(** ** The integer types *)

Record int_type := { it_width : Z; it_signed : bool; digits10 : nat }.

Definition int32_t : int_type := {| it_width := 32; it_signed := true; digits10 := 9 |}.
Definition int64_t : int_type := {| it_width := 64; it_signed := true; digits10 := 18 |}.
Definition uint64_t : int_type := {| it_width := 64; it_signed := false; digits10 := 19 |}.

Definition VALUE_MIN (T : int_type) : Z := if it_signed T then - 2 ^ (it_width T - 1) else 0.
Definition VALUE_MAX (T : int_type) : Z :=
  if it_signed T then 2 ^ (it_width T - 1) - 1 else 2 ^ it_width T - 1.
Definition OVERFLOW_MAX (T : int_type) : Z := VALUE_MAX T ÷ 10.

(** A conversion to [T]. *)
Definition to_T (T : int_type) (x : Z) : Z :=
  if it_signed T then wrap_s (it_width T) x else wrap_u (it_width T) x.

Definition in_T (T : int_type) (x : Z) : Prop := VALUE_MIN T <= x <= VALUE_MAX T.

(** The types the engine instantiates the template with. *)
Definition engine_type (T : int_type) : Prop := T = int32_t \/ T = int64_t \/ T = uint64_t.

Lemma engine_int32 : engine_type int32_t.
Proof. by left. Qed.
Lemma engine_int64 : engine_type int64_t.
Proof. by right; left. Qed.
Lemma engine_uint64 : engine_type uint64_t.
Proof. by right; right. Qed.

Create HintDb fix_types.
#[export] Hint Resolve engine_int32 engine_int64 engine_uint64 : fix_types.

Definition UNSIGNED_VALUE_OF (T : int_type) (x : Z) : Z :=
  if x <? 0 then wrap_u (it_width T) (- wrap_u (it_width T) x) else wrap_u (it_width T) x.

Definition IS_DIGIT (c : ascii) : bool := wrap_u 32 (code c - 48) <? 10.

(** ** [number_of_symbols_in] *)

Fixpoint number_of_symbols_loop (fuel : nat) (number symbols : Z) : Z * Z :=
  match fuel with
  | O => (number, symbols)
  | S fuel =>
      if 9999 <? number then number_of_symbols_loop fuel (number ÷ 10000) (symbols + 4)
      else (number, symbols)
  end.

Definition number_of_symbols_in (T : int_type) (value : Z) : Z :=
  let number := UNSIGNED_VALUE_OF T value in
  let '(number, symbols) := number_of_symbols_loop (S (Z.to_nat (Z.log2 number))) number 0 in
  let symbols :=
    if 99 <? number then (if 999 <? number then symbols + 4 else symbols + 3)
    else (if 9 <? number then symbols + 2 else symbols + 1) in
  if value <? 0 then symbols + 1 else symbols.

(** ** [integer_to_string]: digits are written from the end of the buffer *)

Definition digit_pairs : str :=
  Eval vm_compute in lit
   ("00010203040506070809" ++ "10111213141516171819" ++ "20212223242526272829" ++
    "30313233343536373839" ++ "40414243444546474849" ++ "50515253545556575859" ++
    "60616263646566676869" ++ "70717273747576777879" ++ "80818283848586878889" ++
    "90919293949596979899")%string.

Definition digit_pair (i : Z) : ascii := nth (Z.to_nat i) digit_pairs NUL.

Fixpoint integer_to_string_loop (fuel : nat) (number : Z) (p : str) : Z * str :=
  match fuel with
  | O => (number, p)
  | S fuel =>
      if 99 <? number then
        let pos := Z.rem number 100 in
        integer_to_string_loop fuel (number ÷ 100)
          (digit_pair (2 * pos) :: digit_pair (2 * pos + 1) :: p)
      else (number, p)
  end.

(** The characters from the returned pointer to the end of the buffer. *)
Definition integer_digits (number : Z) : str :=
  let '(number, p) := integer_to_string_loop (S (Z.to_nat (Z.log2 number))) number [] in
  if 9 <? number then digit_pair (2 * number) :: digit_pair (2 * number + 1) :: p
  else chr (48 + number) :: p.

Definition integer_chars (T : int_type) (t : Z) : str :=
  let p := integer_digits (UNSIGNED_VALUE_OF T t) in
  if t <? 0 then "-"%char :: p else p.

Definition integer_to_string (T : int_type) (len : nat) (t : Z) : option str :=
  let p := integer_chars T t in
  if (length p <=? len)%nat then Some p else None.

Definition integer_to_string_padded (T : int_type) (len : nat) (t : Z) (paddingChar : ascii) : option str :=
  p ← integer_to_string T len t;
  Some (replicate (len - length p) paddingChar ++ p).

(** [size_to_string], the same loop over a [size_t]. *)
Definition size_to_string (len : nat) (t : Z) : option str :=
  let p := integer_digits t in
  if (length p <=? len)%nat then Some p else None.

Definition clamp_of (value lowerBound upperBound : Z) : Z :=
  if value <? lowerBound then lowerBound
  else if upperBound <? value then upperBound else value.

(** ** [IntTConvertor<T>] *)

(** [convert(T)], into a buffer of [digits10 + 2] characters. *)
Definition IntT_to_string (T : int_type) (value : Z) : option str :=
  integer_to_string T (digits10 T + 2) value.

(** The [do ... while] over the digits. *)
Fixpoint convert_digits (T : int_type) (s : str) (x : Z) : option Z :=
  match s with
  | [] => Some x
  | ch :: s =>
      if OVERFLOW_MAX T <? x then None
      else
        let c := wrap_u 8 (code ch - 48) in
        if 9 <? c then None
        else
          let nx := wrap_u (it_width T) (10 * x + c) in
          if nx <? x then None else convert_digits T s nx
  end.

(** [convert(begin, end, T&)]: [None] is [false]. *)
Definition IntT_convert (T : int_type) (s : str) : option Z :=
  match s with
  | [] => None
  | ch :: rest =>
      let minus := bool_decide (ch = "-"%char) in
      if minus && negb (it_signed T) then None
      else
        let body := if minus then rest else s in
        match body with
        | [] => None
        | _ :: _ =>
            nx ← convert_digits T body 0;
            if minus then
              if UNSIGNED_VALUE_OF T (VALUE_MIN T) <? nx then None
              else Some (to_T T (wrap_u (it_width T) (- nx)))
            else if VALUE_MAX T <? nx then None
            else Some (to_T T nx)
        end
  end.

(** [convert(const std::string&)], which throws. *)
Definition IntT_of_string (T : int_type) (value : str) : result Z :=
  of_option (FieldConvertError value) (IntT_convert T value).

(** Total printing functions for the callers whose buffer is known to fit
    ([IntT_to_string_fits] below). *)
Definition IntConvertor_convert (value : Z) : str := integer_chars int32_t value.
Definition SEQNUM_convert (value : Z) : str := integer_chars uint64_t value.

(** ** [CheckSumConvertor] *)

Definition CheckSumConvertor_convert (value : Z) : result str :=
  if (255 <? value) || (value <? 0) then Throw (FieldConvertError [])
  else of_option OutOfFuel (integer_to_string_padded int32_t 3 value "0"%char).

Definition CheckSumConvertor_of_string (value : str) : result Z := IntT_of_string int32_t value.

(** ** [CharConvertor], [BoolConvertor] *)

Definition CharConvertor_convert (value : ascii) : str :=
  if bool_decide (value = NUL) then [] else [value].

Definition CharConvertor_of_string (value : str) : result ascii :=
  match value with [c] => Ok c | _ => Throw (FieldConvertError value) end.

Definition BoolConvertor_convert (value : bool) : str := if value then ["Y"%char] else ["N"%char].

Definition BoolConvertor_of_string (value : str) : result bool :=
  match value with
  | [c] => if bool_decide (c = "Y"%char) then Ok true
           else if bool_decide (c = "N"%char) then Ok false
           else Throw (FieldConvertError value)
  | _ => Throw (FieldConvertError value)
  end.

(** ** [DoubleConvertor::convert(string, double&)]: the syntax it accepts *)

(** [value.c_str()], up to the terminating null. *)
Fixpoint c_str (s : str) : str :=
  match s with
  | [] => []
  | c :: s => if bool_decide (c = NUL) then [] else c :: c_str s
  end.

Lemma c_str_no_null s : NUL ∉ s -> c_str s = s.
Proof.
  induction s as [|c s IH]; simpl; [done|]. rewrite not_elem_of_cons. intros [Hc Hs].
  by rewrite bool_decide_eq_false_2, IH by congruence.
Qed.

Fixpoint skip_digits (s : str) : str :=
  match s with
  | c :: rest => if IS_DIGIT c then skip_digits rest else s
  | [] => []
  end.

Definition at_digit (s : str) : bool := match s with c :: _ => IS_DIGIT c | [] => false end.

Definition DoubleConvertor_accepts (value : str) : bool :=
  match c_str value with
  | [] => false
  | c :: i =>
      let minus := bool_decide (c = "-"%char) in
      if minus && bool_decide (i = []) then false
      else
        let i := if minus then i else c :: i in
        let haveDigit := at_digit i in
        let i := skip_digits i in
        let '(haveDigit, i) :=
          match i with
          | d :: i' =>
              if bool_decide (d = "."%char) then
                if at_digit i' then (true, skip_digits i') else (haveDigit, i')
              else (haveDigit, i)
          | [] => (haveDigit, i)
          end in
        bool_decide (i = []) && haveDigit
  end.

(** The exception path of [convert(const std::string&)]; the value itself,
    computed by the bundled double-conversion library, is not modelled. *)
Definition DoubleConvertor_check (value : str) : result unit :=
  guard_or (DoubleConvertor_accepts value) (FieldConvertError value).

(** ** Reference: decimal notation *)

Definition digit_value (c : ascii) : Z := code c - 48.

(** Value of a digit string read after the digits of [acc]. *)
Definition dec_from (acc : Z) (s : str) : Z := fold_left (fun a c => 10 * a + digit_value c) s acc.
Definition dec (s : str) : Z := dec_from 0 s.

Definition all_digits (s : str) : bool := forallb IS_DIGIT s.

(** What a decimal integer means: an optional minus (signed types only) and at
    least one digit. *)
Definition decimal_value (signed : bool) (s : str) : option Z :=
  match s with
  | [] => None
  | ch :: rest =>
      if bool_decide (ch = "-"%char) then
        if signed && negb (bool_decide (rest = [])) && all_digits rest then Some (- dec rest) else None
      else if all_digits s then Some (dec s) else None
  end.

Definition in_range (T : int_type) (v : Z) : bool := (VALUE_MIN T <=? v) && (v <=? VALUE_MAX T).

(** ** Digits *)

Lemma IS_DIGIT_spec c : IS_DIGIT c = true <-> 48 <= code c <= 57.
Proof.
  unfold IS_DIGIT. rewrite Z.ltb_lt. pose proof (code_bounds c).
  unfold wrap_u. rewrite Zmod_eq_full by lia.
  destruct (decide (48 <= code c)).
  - rewrite Z.div_small by lia. lia.
  - replace ((code c - 48) / 2 ^ 32) with (-1).
    + lia.
    + apply Z.div_unique_pos with (code c - 48 + 2^32); lia.
Qed.

Lemma IS_DIGIT_chr n : 0 <= n <= 9 -> IS_DIGIT (chr (48 + n)) = true.
Proof. intros H. apply IS_DIGIT_spec. rewrite code_chr; lia. Qed.

Lemma digit_value_chr n : 0 <= n <= 9 -> digit_value (chr (48 + n)) = n.
Proof. intros H. unfold digit_value. rewrite code_chr; lia. Qed.

Lemma wrap8_digit c : (9 <? wrap_u 8 (code c - 48)) = negb (IS_DIGIT c).
Proof.
  pose proof (code_bounds c). unfold wrap_u.
  destruct (IS_DIGIT c) eqn:E; simpl.
  - apply IS_DIGIT_spec in E. rewrite Z.mod_small by lia. apply Z.ltb_ge. lia.
  - apply Z.ltb_lt. apply not_true_iff_false in E. rewrite IS_DIGIT_spec in E.
    destruct (decide (48 <= code c)).
    + rewrite Z.mod_small by lia. lia.
    + rewrite <- (Z.mod_add _ 1) by lia. rewrite Z.mod_small by lia. lia.
Qed.

Lemma wrap8_digit_value c : IS_DIGIT c = true -> wrap_u 8 (code c - 48) = digit_value c.
Proof.
  intros E. apply IS_DIGIT_spec in E. apply wrap_u_small. unfold digit_value. lia.
Qed.

Lemma digit_value_range c : IS_DIGIT c = true -> 0 <= digit_value c <= 9.
Proof. intros E. apply IS_DIGIT_spec in E. unfold digit_value. lia. Qed.

Lemma dec_from_app a s t : dec_from a (s ++ t) = dec_from (dec_from a s) t.
Proof. unfold dec_from. apply fold_left_app. Qed.

Lemma dec_from_eq a s : dec_from a s = a * 10 ^ Z.of_nat (length s) + dec s.
Proof.
  unfold dec. revert a. induction s as [|c s IH]; intros a; simpl length.
  - simpl. lia.
  - change (dec_from a (c :: s)) with (dec_from (10 * a + digit_value c) s).
    change (dec_from 0 (c :: s)) with (dec_from (10 * 0 + digit_value c) s).
    rewrite (IH (10 * a + _)), (IH (10 * 0 + _)).
    rewrite Nat2Z.inj_succ, Z.pow_succ_r by lia. ring.
Qed.

Lemma dec_from_ge a s : all_digits s = true -> 0 <= a -> a <= dec_from a s.
Proof.
  revert a. induction s as [|c s IH]; intros a H Ha; simpl in *; [unfold dec_from; simpl; lia|].
  apply andb_true_iff in H as [Hc Hs]. pose proof (digit_value_range _ Hc).
  change (dec_from a (c :: s)) with (dec_from (10 * a + digit_value c) s).
  specialize (IH (10 * a + digit_value c) Hs). lia.
Qed.

Lemma dec_snoc s c : dec (s ++ [c]) = 10 * dec s + digit_value c.
Proof. unfold dec. rewrite dec_from_app. done. Qed.

Lemma dec_app s t : dec (s ++ t) = dec s * 10 ^ Z.of_nat (length t) + dec t.
Proof. unfold dec at 1. by rewrite dec_from_app, dec_from_eq. Qed.

Lemma all_digits_app s t : all_digits (s ++ t) = all_digits s && all_digits t.
Proof. apply forallb_app. Qed.

Lemma digits_no c s : all_digits s = true -> IS_DIGIT c = false -> c ∉ s.
Proof.
  intros Hd Hc Hin. unfold all_digits in Hd. rewrite forallb_forall in Hd.
  apply list_elem_of_In in Hin. rewrite (Hd c Hin) in Hc. done.
Qed.

Lemma dec_bound s : all_digits s = true -> 0 <= dec s < 10 ^ Z.of_nat (length s).
Proof.
  induction s as [|c s IH] using rev_ind; [vm_compute; intuition congruence|].
  rewrite all_digits_app, dec_snoc, length_app. intros [Hs Hc]%andb_true_iff.
  simpl in Hc. rewrite andb_true_r in Hc. pose proof (digit_value_range _ Hc).
  specialize (IH Hs). rewrite Nat2Z.inj_add, Z.pow_add_r by lia. simpl. lia.
Qed.

(** ** The encoder against decimal notation *)

Lemma digit_pair_spec pos :
  0 <= pos < 100 ->
  digit_pair (2 * pos) = chr (48 + pos / 10) /\ digit_pair (2 * pos + 1) = chr (48 + pos mod 10).
Proof.
  intros H.
  assert (forall_range 0 100 (fun p =>
    bool_decide (digit_pair (2 * p) = chr (48 + p / 10)) &&
    bool_decide (digit_pair (2 * p + 1) = chr (48 + p mod 10))) = true) as HP by (vm_compute; reflexivity).
  pose proof (forall_range_spec _ _ _ HP pos ltac:(lia)) as E. simpl in E.
  apply andb_true_iff in E as [E1 E2]. apply bool_decide_eq_true in E1, E2. done.
Qed.

Lemma digit_pair_digits pos :
  0 <= pos < 100 ->
  let s := [digit_pair (2 * pos); digit_pair (2 * pos + 1)] in all_digits s = true /\ dec s = pos.
Proof.
  intros H s. subst s. destruct (digit_pair_spec pos H) as [-> ->].
  assert (0 <= pos / 10 <= 9) as H1 by (split; [apply Z.div_pos; lia | apply Z.lt_succ_r, Z.div_lt_upper_bound; lia]).
  assert (0 <= pos mod 10 <= 9) as H2 by (pose proof (Z.mod_pos_bound pos 10); lia).
  split.
  - unfold all_digits. simpl. rewrite !IS_DIGIT_chr by done. done.
  - unfold dec, dec_from. cbn [fold_left]. rewrite !digit_value_chr by done.
    pose proof (Z.div_mod pos 10). lia.
Qed.

Lemma log2_quot_100 n fuel :
  99 < n -> (Z.to_nat (Z.log2 n) < S fuel)%nat -> (Z.to_nat (Z.log2 (n ÷ 100)) < fuel)%nat.
Proof.
  intros H1 H2. rewrite Z.quot_div_nonneg by lia.
  assert (Z.log2 (n / 100) < Z.log2 n); [|pose proof (Z.log2_nonneg (n / 100)); lia].
  assert (0 < n / 100) by (apply Z.div_str_pos; lia).
  apply Z.log2_lt_pow2; [done|].
  pose proof (Z.log2_spec n ltac:(lia)) as [Hl Hu].
  apply Z.div_lt_upper_bound; [lia|]. rewrite Z.pow_succ_r in Hu by (apply Z.log2_nonneg). lia.
Qed.

Lemma integer_to_string_loop_spec fuel n p :
  0 <= n -> (Z.to_nat (Z.log2 n) < fuel)%nat ->
  exists n' q, integer_to_string_loop fuel n p = (n', q ++ p) /\
    0 <= n' <= 99 /\ all_digits q = true /\
    n = n' * 10 ^ Z.of_nat (length q) + dec q /\ (q <> [] -> 1 <= n').
Proof.
  revert n p. induction fuel as [|fuel IH]; intros n p Hn Hf; [lia|]. simpl.
  destruct (Z.ltb_spec 99 n).
  - set (pos := Z.rem n 100).
    assert (0 <= pos < 100) as Hpos by (apply Z.rem_bound_pos; lia).
    destruct (digit_pair_digits pos Hpos) as [Hd Hv].
    destruct (IH (n ÷ 100) (digit_pair (2 * pos) :: digit_pair (2 * pos + 1) :: p))
      as (n' & q & E & Hn' & Hq & Heq & Hpn).
    { apply Z.quot_pos; lia. }
    { apply log2_quot_100; lia. }
    rewrite Z.quot_div_nonneg in Heq by lia.
    exists n', (q ++ [digit_pair (2 * pos); digit_pair (2 * pos + 1)]).
    split_and!; [by rewrite E, <- app_assoc | lia | lia | | |].
    + by rewrite all_digits_app, Hq, Hd.
    + rewrite dec_app, Hv, length_app, Nat2Z.inj_add, Z.pow_add_r by lia.
      assert (n = 100 * (n / 100) + pos) as E2.
      { subst pos. rewrite Z.rem_mod_nonneg by lia. apply Z.div_mod. lia. }
      rewrite E2 at 1. rewrite Heq. cbn [length].
      change (10 ^ Z.of_nat 2) with 100. ring.
    + intros _. destruct q as [|c q]; [|apply Hpn; done].
      assert (0 < n / 100) by (apply Z.div_str_pos; lia). unfold dec in Heq. simpl in Heq. lia.
  - exists n, []. split_and!; [done | lia | lia | done | unfold dec; simpl; lia | done].
Qed.

(** The digits of [n]: its decimal notation, without leading zeros. *)
Lemma integer_digits_spec n :
  0 <= n ->
  all_digits (integer_digits n) = true /\ dec (integer_digits n) = n /\
  integer_digits n <> [] /\
  (0 < n -> 10 ^ (Z.of_nat (length (integer_digits n)) - 1) <= n).
Proof.
  intros Hn. unfold integer_digits.
  destruct (integer_to_string_loop_spec (S (Z.to_nat (Z.log2 n))) n []) as (n' & q & E & Hn' & Hq & Heq & Hp);
    [done | lia |].
  rewrite E, app_nil_r. pose proof (dec_bound _ Hq) as Hb.
  destruct (Z.ltb_spec 9 n').
  - destruct (digit_pair_digits n' ltac:(lia)) as [Hd Hv].
    split_and!; [| |done|].
    + change (_ :: _ :: q) with ([digit_pair (2 * n'); digit_pair (2 * n' + 1)] ++ q).
      by rewrite all_digits_app, Hd, Hq.
    + change (_ :: _ :: q) with ([digit_pair (2 * n'); digit_pair (2 * n' + 1)] ++ q).
      rewrite dec_app, Hv. lia.
    + intros _. simpl length. rewrite !Nat2Z.inj_succ.
      replace (Z.succ (Z.succ (Z.of_nat (length q))) - 1) with (Z.succ (Z.of_nat (length q))) by lia.
      rewrite Z.pow_succ_r by lia. nia.
  - split_and!; [| |done|].
    + unfold all_digits in *. simpl. rewrite Hq, IS_DIGIT_chr by lia. done.
    + change (chr (48 + n') :: q) with ([chr (48 + n')] ++ q).
      rewrite dec_app. unfold dec at 1, dec_from; cbn [fold_left].
      rewrite digit_value_chr by lia. lia.
    + intros Hpos. simpl length. rewrite Nat2Z.inj_succ.
      replace (Z.succ (Z.of_nat (length q)) - 1) with (Z.of_nat (length q)) by lia.
      destruct q as [|c q]; [simpl; lia|]. specialize (Hp ltac:(done)). nia.
Qed.

(** ** The decoder against decimal notation *)

(** Largest number the digit loop lets through. *)
Definition digits_limit (T : int_type) : Z := Z.min (10 * OVERFLOW_MAX T + 9) (2 ^ it_width T - 1).

(** The constants of the three types. *)
Record type_constants (T : int_type) (w : Z) (sg : bool) (lo hi over lim umin : Z) : Prop := {
  tc_width : 2 ^ it_width T = w;
  tc_signed : it_signed T = sg;
  tc_min : VALUE_MIN T = lo;
  tc_max : VALUE_MAX T = hi;
  tc_over : OVERFLOW_MAX T = over;
  tc_limit : digits_limit T = lim;
  tc_umin : UNSIGNED_VALUE_OF T (VALUE_MIN T) = umin
}.

Lemma engine_constants T :
  engine_type T ->
  type_constants T 4294967296 true (-2147483648) 2147483647 214748364 2147483649 2147483648 \/
  type_constants T 18446744073709551616 true (-9223372036854775808) 9223372036854775807
    922337203685477580 9223372036854775809 9223372036854775808 \/
  type_constants T 18446744073709551616 false 0 18446744073709551615
    1844674407370955161 18446744073709551615 0.
Proof.
  intros [-> | [-> | ->]]; [left | right; left | right; right]; split; reflexivity.
Qed.

(** Splits on the three types, with their constants as literals. *)
Ltac engine_cases H :=
  destruct (engine_constants _ H) as [[?HW ?HS ?Hlo ?Hhi ?HO ?HL ?HU] | [[?HW ?HS ?Hlo ?Hhi ?HO ?HL ?HU] | [?HW ?HS ?Hlo ?Hhi ?HO ?HL ?HU]]];
  unfold wrap_u in *; rewrite ?HW, ?HS, ?Hlo, ?Hhi, ?HO, ?HL, ?HU in *.

(** One step of the loop: either the next number passes both overflow checks
    unchanged, or it is beyond the limit and one of them fires. *)
Lemma convert_step T x d :
  engine_type T -> 0 <= x <= digits_limit T -> 0 <= d <= 9 ->
  let nx := 10 * x + d in
  (nx <= digits_limit T /\ wrap_u (it_width T) nx = nx /\ x <= OVERFLOW_MAX T) \/
  (digits_limit T < nx /\ (OVERFLOW_MAX T < x \/ wrap_u (it_width T) nx < x)).
Proof.
  intros HT Hx Hd nx. subst nx.
  destruct (decide (10 * x + d <= digits_limit T)); [left | right]; engine_cases HT.
  1-3: split_and!; [done | apply Z.mod_small; lia | lia].
  1-2: lia.
  split; [lia|]. destruct (decide (1844674407370955161 < x)); [by left | right].
  rewrite <- (Z.mod_add _ (-1)) by lia. rewrite Z.mod_small; lia.
Qed.

Lemma convert_digits_spec T s x :
  engine_type T -> 0 <= x <= digits_limit T ->
  convert_digits T s x =
    if all_digits s && (dec_from x s <=? digits_limit T) then Some (dec_from x s) else None.
Proof.
  intros HT. revert x. induction s as [|c s IH]; intros x Hx; simpl.
  - unfold dec_from; simpl. destruct (Z.leb_spec x (digits_limit T)); [done | lia].
  - rewrite wrap8_digit. destruct (IS_DIGIT c) eqn:Hc; simpl;
      [|by destruct (OVERFLOW_MAX T <? x)].
    rewrite wrap8_digit_value by done. pose proof (digit_value_range _ Hc) as Hd.
    change (dec_from x (c :: s)) with (dec_from (10 * x + digit_value c) s).
    destruct (convert_step T x (digit_value c) HT Hx Hd) as [(Hle & Hw & Ho) | [Hgt Hf]].
    + rewrite Hw. destruct (Z.ltb_spec (OVERFLOW_MAX T) x); [lia|].
      destruct (Z.ltb_spec (10 * x + digit_value c) x); [lia|]. apply IH. lia.
    + transitivity (@None Z).
      { destruct (Z.ltb_spec (OVERFLOW_MAX T) x); [done|].
        case_match; [done|]. apply Z.ltb_ge in H0. lia. }
      destruct (all_digits s) eqn:Hs; simpl; [|done].
      pose proof (dec_from_ge (10 * x + digit_value c) s Hs ltac:(lia)).
      destruct (Z.leb_spec (dec_from (10 * x + digit_value c) s) (digits_limit T)); [lia | done].
Qed.

Lemma to_T_small T v : engine_type T -> in_range T v = true -> to_T T v = v.
Proof.
  unfold in_range. rewrite andb_true_iff, !Z.leb_le. intros [-> | [-> | ->]] H.
  - apply wrap_s_small; [done|]. unfold VALUE_MIN, VALUE_MAX in H. simpl in *. lia.
  - apply wrap_s_small; [done|]. unfold VALUE_MIN, VALUE_MAX in H. simpl in *. lia.
  - apply wrap_u_small. unfold VALUE_MIN, VALUE_MAX in H. simpl in *. lia.
Qed.

Lemma to_T_wrap_u T x :
  engine_type T -> it_signed T = true -> in_range T x = true -> to_T T (wrap_u (it_width T) x) = x.
Proof.
  intros HT Hs Hx. rewrite <- (to_T_small T x HT Hx) at 2. unfold to_T. rewrite Hs.
  apply wrap_s_wrap_u. engine_cases HT; destruct HT as [-> | [-> | ->]]; done.
Qed.

Lemma convert_digits_dec T c s :
  engine_type T ->
  convert_digits T (c :: s) 0 =
    if all_digits (c :: s) && (dec (c :: s) <=? digits_limit T) then Some (dec (c :: s)) else None.
Proof. intros HT. apply convert_digits_spec; [done|]. engine_cases HT; lia. Qed.

Lemma UNSIGNED_VALUE_OF_abs T v : engine_type T -> in_range T v = true -> UNSIGNED_VALUE_OF T v = Z.abs v.
Proof.
  unfold in_range, UNSIGNED_VALUE_OF. rewrite andb_true_iff, !Z.leb_le. intros HT H.
  engine_cases HT; case_bool; try (rewrite Z.mod_small; lia);
    rewrite <- (Z.mod_add (- _) 1) by lia; rewrite <- (Z.mod_add v 1) by lia;
    rewrite (Z.mod_small (v + _)) by lia; rewrite Z.mod_small; lia.
Qed.

(** The encoded integer reads back as itself. *)
Lemma decimal_value_integer_chars T v :
  engine_type T -> in_range T v = true -> decimal_value (it_signed T) (integer_chars T v) = Some v.
Proof.
  intros HT Hr. unfold integer_chars. rewrite UNSIGNED_VALUE_OF_abs by done.
  destruct (integer_digits_spec (Z.abs v)) as (Hd & Hv & Hne & _); [lia|].
  unfold in_range in Hr. rewrite andb_true_iff, !Z.leb_le in Hr.
  destruct (Z.ltb_spec v 0).
  - assert (it_signed T = true) as -> by (engine_cases HT; lia). simpl.
    rewrite bool_decide_eq_false_2 by done. rewrite Hd, Hv. simpl. f_equal. lia.
  - destruct (integer_digits (Z.abs v)) as [|c s] eqn:E; [done|]. unfold decimal_value.
    rewrite bool_decide_eq_false_2.
    + rewrite Hd, Hv. f_equal. lia.
    + intros ->. done.
Qed.

(** Number of digits: the powers of ten around a number determine it. *)
Lemma pow10_length_unique n k l :
  0 <= k -> 0 <= l -> 10 ^ (k - 1) <= n < 10 ^ k -> 10 ^ (l - 1) <= n < 10 ^ l -> 0 < n -> k = l.
Proof.
  intros Hk Hl H1 H2 Hn.
  assert (forall a b, 0 <= a -> a < b -> 10 ^ a <= 10 ^ (b - 1)) as Hmono
    by (intros; apply Z.pow_le_mono_r; lia).
  destruct (Z.lt_trichotomy k l) as [L|[L|L]]; [|done|].
  - specialize (Hmono k l Hk L). lia.
  - specialize (Hmono l k Hl L). lia.
Qed.

Lemma integer_digits_length n :
  0 < n -> 10 ^ (Z.of_nat (length (integer_digits n)) - 1) <= n < 10 ^ Z.of_nat (length (integer_digits n)).
Proof.
  intros H. destruct (integer_digits_spec n) as (Hd & Hv & _ & Hp); [lia|].
  split; [auto|]. pose proof (dec_bound _ Hd). lia.
Qed.

Lemma number_of_symbols_loop_spec fuel n s :
  0 <= n -> (Z.to_nat (Z.log2 n) < fuel)%nat ->
  exists n' k, number_of_symbols_loop fuel n s = (n', s + k) /\
    0 <= k /\ 0 <= n' <= 9999 /\ n' = n / 10 ^ k /\ (0 < n -> 0 < n').
Proof.
  revert n s. induction fuel as [|fuel IH]; intros n s Hn Hf; [lia|]. simpl.
  destruct (Z.ltb_spec 9999 n).
  - rewrite Z.quot_div_nonneg by lia.
    assert (0 < n / 10000) by (apply Z.div_str_pos; lia).
    assert (Z.log2 (n / 10000) < Z.log2 n) as Hlog.
    { apply Z.log2_lt_pow2; [done|]. pose proof (Z.log2_spec n ltac:(lia)) as [_ Hu].
      apply Z.div_lt_upper_bound; [lia|]. rewrite Z.pow_succ_r in Hu by apply Z.log2_nonneg. lia. }
    destruct (IH (n / 10000) (s + 4)) as (n' & k & E & Hk & Hn' & Hq & Hpos); [lia | |].
    { pose proof (Z.log2_nonneg (n / 10000)). lia. }
    exists n', (4 + k). rewrite E. split_and!; [f_equal; lia | lia | lia | lia | | lia].
    rewrite Hq, Z.pow_add_r, <- Z.div_div by lia. done.
  - exists n, 0. split_and!; [f_equal; lia | lia | lia | lia | | done]. by rewrite Z.div_1_r.
Qed.

(** The counter agrees with the encoder. *)
Lemma number_of_symbols_spec n :
  0 <= n ->
  let '(n', s) := number_of_symbols_loop (S (Z.to_nat (Z.log2 n))) n 0 in
  (if 99 <? n' then (if 999 <? n' then s + 4 else s + 3) else (if 9 <? n' then s + 2 else s + 1)) =
  Z.of_nat (length (integer_digits n)).
Proof.
  intros Hn. destruct (decide (n = 0)) as [->|Hnz]; [vm_compute; reflexivity|].
  destruct (number_of_symbols_loop_spec (S (Z.to_nat (Z.log2 n))) n 0)
    as (n' & k & -> & Hk & Hn' & Hq & Hpos); [done | lia |]. rewrite Z.add_0_l.
  specialize (Hpos ltac:(lia)).
  assert (exists d, 1 <= d <= 4 /\ 10 ^ (d - 1) <= n' < 10 ^ d /\
    (if 99 <? n' then (if 999 <? n' then k + 4 else k + 3) else (if 9 <? n' then k + 2 else k + 1)) = k + d)
    as (d & Hd & Hb & ->).
  { repeat case_bool; [exists 4 | exists 3 | exists 2 | exists 1]; simpl; lia. }
  apply pow10_length_unique with n; [lia | lia | | apply integer_digits_length; lia | lia].
  pose proof (Z.div_mod n (10 ^ k) ltac:(lia)) as Hdm.
  pose proof (Z.mod_pos_bound n (10 ^ k) ltac:(lia)). rewrite <- Hq in Hdm.
  replace (k + d - 1) with (k + (d - 1)) by lia. rewrite !Z.pow_add_r by lia. nia.
Qed.

Lemma IntT_convert_eq T s :
  engine_type T ->
  IntT_convert T s =
    match decimal_value (it_signed T) s with
    | Some v => if in_range T v then Some v else None
    | None => None
    end.
Proof.
  intros HT. destruct s as [|ch rest]; [done|]. unfold IntT_convert, decimal_value.
  destruct (bool_decide_reflect (ch = "-"%char)) as [->|Hne]; cbn [andb].
  - destruct (it_signed T) eqn:Hsg; cbn [andb negb]; [|done].
    destruct rest as [|c rest]; [done|].
    rewrite (convert_digits_dec T c rest HT), bool_decide_eq_false_2 by done.
    destruct (all_digits (c :: rest)) eqn:Hd; cbn [andb negb]; [|done].
    pose proof (dec_bound _ Hd) as [Hb _]. set (n := dec (c :: rest)) in *.
    assert (UNSIGNED_VALUE_OF T (VALUE_MIN T) < n <-> in_range T (- n) = false) as Hmin.
    { rewrite <- not_true_iff_false. unfold in_range. rewrite andb_true_iff, !Z.leb_le.
      engine_cases HT; try congruence; lia. }
    assert (digits_limit T < n -> UNSIGNED_VALUE_OF T (VALUE_MIN T) < n) as Hlim by (engine_cases HT; lia).
    destruct (Z.leb_spec n (digits_limit T)); cbn [mbind option_bind].
    + case_bool; [by rewrite (proj1 Hmin)|].
      destruct (in_range T (- n)) eqn:Hr; [by rewrite to_T_wrap_u | lia].
    + by rewrite (proj1 Hmin) by auto.
  - rewrite (convert_digits_dec T ch rest HT).
    destruct (all_digits (ch :: rest)) eqn:Hd; cbn [andb]; [|done].
    pose proof (dec_bound _ Hd) as [Hb _]. set (n := dec (ch :: rest)) in *.
    assert (VALUE_MAX T < n <-> in_range T n = false) as Hmax.
    { rewrite <- not_true_iff_false. unfold in_range. rewrite andb_true_iff, !Z.leb_le.
      engine_cases HT; lia. }
    assert (digits_limit T < n -> VALUE_MAX T < n) as Hlim by (engine_cases HT; lia).
    destruct (Z.leb_spec n (digits_limit T)); cbn [mbind option_bind].
    + case_bool; [by rewrite (proj1 Hmax)|].
      destruct (in_range T n) eqn:Hr; [by rewrite to_T_small | lia].
    + by rewrite (proj1 Hmax) by auto.
Qed.

Lemma number_of_symbols_chars T v :
  engine_type T -> in_range T v = true ->
  number_of_symbols_in T v = Z.of_nat (length (integer_chars T v)).
Proof.
  intros HT Hr. unfold number_of_symbols_in, integer_chars.
  rewrite UNSIGNED_VALUE_OF_abs by done.
  pose proof (number_of_symbols_spec (Z.abs v) ltac:(lia)) as H.
  destruct (number_of_symbols_loop _ _ _) as [n' sy]. rewrite H.
  case_bool; simpl length; lia.
Qed.

(** Longest encodings: ten digits and a sign, nineteen and a sign, twenty. *)
Lemma integer_chars_length T v :
  engine_type T -> in_range T v = true -> (length (integer_chars T v) <= digits10 T + 2)%nat.
Proof.
  intros HT Hr. unfold integer_chars. rewrite UNSIGNED_VALUE_OF_abs by done.
  assert (forall n L, 0 <= n -> (1 <= L)%nat -> n < 10 ^ Z.of_nat L ->
          (length (integer_digits n) <= L)%nat) as Hlen.
  { intros n L Hn HL Hb. destruct (decide (n = 0)) as [->|]; [vm_compute length; lia|].
    pose proof (integer_digits_length n ltac:(lia)) as [Hlo _].
    destruct (le_lt_dec (length (integer_digits n)) L) as [|Hgt]; [done|].
    assert (10 ^ Z.of_nat L <= 10 ^ (Z.of_nat (length (integer_digits n)) - 1))
      by (apply Z.pow_le_mono_r; lia). lia. }
  unfold in_range in Hr. rewrite andb_true_iff, !Z.leb_le in Hr.
  destruct HT as [-> | [-> | ->]]; unfold VALUE_MIN, VALUE_MAX in Hr; simpl in Hr; simpl digits10.
  - specialize (Hlen (Z.abs v) 10%nat). simpl in Hlen. case_bool; simpl length; lia.
  - specialize (Hlen (Z.abs v) 19%nat). simpl in Hlen. case_bool; simpl length; lia.
  - specialize (Hlen (Z.abs v) 20%nat). simpl in Hlen. case_bool; simpl length; lia.
Qed.

Lemma integer_to_string_fits T len v :
  (length (integer_chars T v) <= len)%nat -> integer_to_string T len v = Some (integer_chars T v).
Proof. intros H. unfold integer_to_string. by case_bool; [|lia]. Qed.

(** Three digits for a byte, an exception for anything else. *)
Lemma CheckSumConvertor_eq v :
  (0 <= v <= 255 ->
   exists s, CheckSumConvertor_convert v = Ok s /\ length s = 3%nat /\ all_digits s = true /\
     dec s = v /\ CheckSumConvertor_of_string s = Ok v) /\
  (v < 0 \/ 255 < v -> CheckSumConvertor_convert v = Throw (FieldConvertError [])).
Proof.
  split.
  - intros H.
    assert (forall_range 0 256 (fun v =>
      match CheckSumConvertor_convert v with
      | Ok s => (length s =? 3)%nat && all_digits s && (dec s =? v) && bool_decide (CheckSumConvertor_of_string s = Ok v)
      | Throw _ => false
      end) = true) as HP by (vm_compute; reflexivity).
    pose proof (forall_range_spec _ _ _ HP v ltac:(lia)) as E. clear HP. cbn beta in E.
    destruct (CheckSumConvertor_convert v) as [s|]; [|done].
    rewrite !andb_true_iff, Nat.eqb_eq, Z.eqb_eq, bool_decide_eq_true in E.
    destruct E as [[[? ?] ?] ?]. exists s. done.
  - intros H. unfold CheckSumConvertor_convert.
    by replace ((255 <? v) || (v <? 0)) with true by lia.
Qed.

(** ** Properties *)

(** C40 Parsing an integer: [convert] accepts exactly the decimal numerals (a minus
    sign for a signed type only) whose value the type holds, and gives that value;
    the overflow tests on the unsigned accumulator miss nothing and refuse nothing
    in range. *)
Theorem IntT_convert_spec T s :
  engine_type T ->
  IntT_convert T s =
    match decimal_value (it_signed T) s with
    | Some v => if in_range T v then Some v else None
    | None => None
    end.
Proof. apply IntT_convert_eq. Qed.

Lemma IntT_convert_spec_witness :
  engine_type int32_t /\
  IntT_convert int32_t (lit "-2147483648") =
    match decimal_value (it_signed int32_t) (lit "-2147483648") with
    | Some v => if in_range int32_t v then Some v else None
    | None => None
    end.
Proof. split; [by left | apply (IntT_convert_spec int32_t (lit "-2147483648")); by left]. Defined.

(** Printing then parsing an integer of the type gives it back, and the digits
    fit the buffer of [digits10 + 2] characters, the minimum of the type included. *)
Theorem IntT_roundtrip T v :
  engine_type T -> in_range T v = true ->
  exists s, IntT_to_string T v = Some s /\ IntT_of_string T s = Ok v.
Proof.
  intros HT Hr. exists (integer_chars T v). split.
  - unfold IntT_to_string. rewrite integer_to_string_fits by (by apply integer_chars_length). done.
  - unfold IntT_of_string. rewrite IntT_convert_eq, decimal_value_integer_chars, Hr by done. done.
Qed.

Lemma IntT_roundtrip_witness :
  exists s, IntT_to_string int32_t (- 2 ^ 31) = Some s /\ IntT_of_string int32_t s = Ok (- 2 ^ 31).
Proof. apply (IntT_roundtrip int32_t (- 2 ^ 31)); [by left | reflexivity]. Defined.

(** [number_of_symbols_in] is exactly the number of characters printed: a buffer
    of that size is filled and not overrun. *)
Theorem number_of_symbols_exact T v :
  engine_type T -> in_range T v = true ->
  integer_to_string T (Z.to_nat (number_of_symbols_in T v)) v = Some (integer_chars T v) /\
  number_of_symbols_in T v = Z.of_nat (length (integer_chars T v)).
Proof.
  intros HT Hr. rewrite number_of_symbols_chars by done. split; [|done].
  apply integer_to_string_fits. lia.
Qed.

Lemma number_of_symbols_exact_witness :
  integer_to_string uint64_t (Z.to_nat (number_of_symbols_in uint64_t 18446744073709551615)) 18446744073709551615 =
    Some (integer_chars uint64_t 18446744073709551615) /\
  number_of_symbols_in uint64_t 18446744073709551615 =
    Z.of_nat (length (integer_chars uint64_t 18446744073709551615)).
Proof. apply (number_of_symbols_exact uint64_t 18446744073709551615); [by right; right | reflexivity]. Defined.

(** A checksum of 0 to 255 is printed as three digits of that value, which read
    back; any other value throws. *)
Theorem CheckSumConvertor_spec v :
  (0 <= v <= 255 ->
   exists s, CheckSumConvertor_convert v = Ok s /\ length s = 3%nat /\ all_digits s = true /\
     dec s = v /\ CheckSumConvertor_of_string s = Ok v) /\
  (v < 0 \/ 255 < v -> CheckSumConvertor_convert v = Throw (FieldConvertError [])).
Proof. apply CheckSumConvertor_eq. Qed.
