(* ===== verification/Values.v ===== *)
(** * Constants of the protocol and texts of the exceptions

    Field numbers and values ([FieldNumbers.h], [Values.h]) the engine's own code
    names, and what [Exception::what()] gives ([Exceptions.h]). *)
From S2P Require Import Prelude Convertors.

Module FIELD.
Definition BeginSeqNo : Z := 7.
Definition BeginString : Z := 8.
Definition BodyLength : Z := 9.
Definition CheckSum : Z := 10.
Definition EndSeqNo : Z := 16.
Definition MsgSeqNum : Z := 34.
Definition MsgType : Z := 35.
Definition NewSeqNo : Z := 36.
Definition PossDupFlag : Z := 43.
Definition RefSeqNum : Z := 45.
Definition SenderCompID : Z := 49.
Definition SenderSubID : Z := 50.
Definition SendingTime : Z := 52.
Definition TargetCompID : Z := 56.
Definition TargetSubID : Z := 57.
Definition Text : Z := 58.
Definition Signature : Z := 89.
Definition SecureDataLen : Z := 90.
Definition SecureData : Z := 91.
Definition SignatureLength : Z := 93.
Definition RawDataLength : Z := 95.
Definition RawData : Z := 96.
Definition PossResend : Z := 97.
Definition EncryptMethod : Z := 98.
Definition HeartBtInt : Z := 108.
Definition TestReqID : Z := 112.
Definition OnBehalfOfCompID : Z := 115.
Definition OnBehalfOfSubID : Z := 116.
Definition OrigSendingTime : Z := 122.
Definition GapFillFlag : Z := 123.
Definition DeliverToCompID : Z := 128.
Definition DeliverToSubID : Z := 129.
Definition ResetSeqNumFlag : Z := 141.
Definition SenderLocationID : Z := 142.
Definition TargetLocationID : Z := 143.
Definition OnBehalfOfLocationID : Z := 144.
Definition DeliverToLocationID : Z := 145.
Definition XmlDataLen : Z := 212.
Definition XmlData : Z := 213.
Definition MessageEncoding : Z := 347.
Definition LastMsgSeqNumProcessed : Z := 369.
Definition OnBehalfOfSendingTime : Z := 370.
Definition RefTagID : Z := 371.
Definition RefMsgType : Z := 372.
Definition SessionRejectReason : Z := 373.
Definition BusinessRejectReason : Z := 380.
Definition NoHops : Z := 627.
Definition NextExpectedMsgSeqNum : Z := 789.
Definition ApplVerID : Z := 1128.
Definition CstmApplVerID : Z := 1129.
Definition RefApplVerID : Z := 1130.
Definition DefaultApplVerID : Z := 1137.
Definition UserMin : Z := 5000.
End FIELD.

Definition BeginString_FIXT11 : str := lit "FIXT.1.1".
Definition BeginString_FIX50 : str := lit "FIX.5.0".
Definition BeginString_FIX44 : str := lit "FIX.4.4".
Definition BeginString_FIX43 : str := lit "FIX.4.3".
Definition BeginString_FIX42 : str := lit "FIX.4.2".
Definition BeginString_FIX41 : str := lit "FIX.4.1".
Definition BeginString_FIX40 : str := lit "FIX.4.0".
Definition ApplVerID_FIX40 : str := lit "2".
Definition ApplVerID_FIX41 : str := lit "3".
Definition ApplVerID_FIX42 : str := lit "4".
Definition ApplVerID_FIX43 : str := lit "5".
Definition ApplVerID_FIX44 : str := lit "6".
Definition ApplVerID_FIX50 : str := lit "7".
Definition ApplVerID_FIX50_SP1 : str := lit "8".
Definition ApplVerID_FIX50_SP2 : str := lit "9".
Definition MsgType_Heartbeat : str := lit "0".
Definition MsgType_TestRequest : str := lit "1".
Definition MsgType_ResendRequest : str := lit "2".
Definition MsgType_Reject : str := lit "3".
Definition MsgType_SequenceReset : str := lit "4".
Definition MsgType_Logout : str := lit "5".
Definition MsgType_Logon : str := lit "A".
Definition MsgType_BusinessMessageReject : str := lit "j".
Definition SessionRejectReason_INVALID_TAG_NUMBER_TEXT : str := lit "Invalid tag number".
Definition SessionRejectReason_REQUIRED_TAG_MISSING_TEXT : str := lit "Required tag missing".
Definition SessionRejectReason_TAG_NOT_DEFINED_FOR_THIS_MESSAGE_TYPE_TEXT : str := lit "Tag not defined for this message type".
Definition SessionRejectReason_UNDEFINED_TAG_TEXT : str := lit "Undefined Tag".
Definition SessionRejectReason_TAG_SPECIFIED_WITHOUT_A_VALUE_TEXT : str := lit "Tag specified without a value".
Definition SessionRejectReason_VALUE_IS_INCORRECT_TEXT : str := lit "Value is incorrect (out of range) for this tag".
Definition SessionRejectReason_INCORRECT_DATA_FORMAT_FOR_VALUE_TEXT : str := lit "Incorrect data format for value".
Definition SessionRejectReason_DECRYPTION_PROBLEM_TEXT : str := lit "Decryption problem".
Definition SessionRejectReason_SIGNATURE_PROBLEM_TEXT : str := lit "Signature problem".
Definition SessionRejectReason_COMPID_PROBLEM_TEXT : str := lit "CompID problem".
Definition SessionRejectReason_SENDINGTIME_ACCURACY_PROBLEM_TEXT : str := lit "SendingTime accuracy problem".
Definition SessionRejectReason_INVALID_MSGTYPE_TEXT : str := lit "Invalid MsgType".
Definition SessionRejectReason_TAG_APPEARS_MORE_THAN_ONCE_TEXT : str := lit "Tag appears more than once".
Definition SessionRejectReason_TAG_SPECIFIED_OUT_OF_REQUIRED_ORDER_TEXT : str := lit "Tag specified out of required order".
Definition SessionRejectReason_INCORRECT_NUMINGROUP_COUNT_FOR_REPEATING_GROUP_TEXT : str := lit "Incorrect NumInGroup count for repeating group".
Definition BusinessRejectReason_OTHER_TEXT : str := lit "Other".
Definition BusinessRejectReason_UNKNOWN_ID_TEXT : str := lit "Unknown ID".
Definition BusinessRejectReason_UNKNOWN_SECURITY_TEXT : str := lit "Unknown Security".
Definition BusinessRejectReason_UNSUPPORTED_MESSAGE_TYPE_TEXT : str := lit "Unsupported Message Type".
Definition BusinessRejectReason_APPLICATION_NOT_AVAILABLE_TEXT : str := lit "Application Not Available".
Definition BusinessRejectReason_CONDITIONALLY_REQUIRED_FIELD_MISSING_TEXT : str := lit "Conditionally Required Field Missing".
Definition BusinessRejectReason_NOT_AUTHORIZED_TEXT : str := lit "Not Authorized".
Definition BusinessRejectReason_DELIVER_TO_FIRM_NOT_AVAILABLE_AT_THIS_TIME_TEXT : str := lit "Deliver to firm not available at this time".

Definition BusinessRejectReason_OTHER : Z := 0.
Definition BusinessRejectReason_UNKNOWN_ID : Z := 1.
Definition BusinessRejectReason_UNKNOWN_SECURITY : Z := 2.
Definition BusinessRejectReason_UNSUPPORTED_MESSAGE_TYPE : Z := 3.
Definition BusinessRejectReason_APPLICATION_NOT_AVAILABLE : Z := 4.
Definition BusinessRejectReason_CONDITIONALLY_REQUIRED_FIELD_MISSING : Z := 5.
Definition BusinessRejectReason_NOT_AUTHORIZED : Z := 6.
Definition BusinessRejectReason_DELIVER_TO_FIRM_NOT_AVAILABLE_AT_THIS_TIME : Z := 7.
Definition SessionRejectReason_INVALID_TAG_NUMBER : Z := 0.
Definition SessionRejectReason_REQUIRED_TAG_MISSING : Z := 1.
Definition SessionRejectReason_TAG_NOT_DEFINED_FOR_THIS_MESSAGE_TYPE : Z := 2.
Definition SessionRejectReason_UNDEFINED_TAG : Z := 3.
Definition SessionRejectReason_TAG_SPECIFIED_WITHOUT_A_VALUE : Z := 4.
Definition SessionRejectReason_VALUE_IS_INCORRECT : Z := 5.
Definition SessionRejectReason_INCORRECT_DATA_FORMAT_FOR_VALUE : Z := 6.
Definition SessionRejectReason_DECRYPTION_PROBLEM : Z := 7.
Definition SessionRejectReason_SIGNATURE_PROBLEM : Z := 8.
Definition SessionRejectReason_COMPID_PROBLEM : Z := 9.
Definition SessionRejectReason_SENDINGTIME_ACCURACY_PROBLEM : Z := 10.
Definition SessionRejectReason_INVALID_MSGTYPE : Z := 11.
Definition SessionRejectReason_TAG_APPEARS_MORE_THAN_ONCE : Z := 13.
Definition SessionRejectReason_TAG_SPECIFIED_OUT_OF_REQUIRED_ORDER : Z := 14.
Definition SessionRejectReason_REPEATING_GROUP_FIELDS_OUT_OF_ORDER : Z := 15.
Definition SessionRejectReason_INCORRECT_NUMINGROUP_COUNT_FOR_REPEATING_GROUP : Z := 16.
Definition SessionRejectReason_NON_DATA_VALUE_INCLUDES_FIELD_DELIMITER : Z := 17.

(** ** Exceptions *)

(** [Exception(type, detail)]: the text of [what()]. *)
Definition what_of (type detail : str) : str :=
  match detail with [] => type | _ => type ++ lit ": " ++ detail end.

(** [std::to_string(field)]. *)
Definition to_string_int (field : Z) : str := IntConvertor_convert field.

(** [e.what()]. *)
Definition exn_what (e : exn) : str :=
  match e with
  | DataDictionaryNotFound _ d => what_of (lit "Could not find data dictionary") d
  | FieldNotFound f d => what_of (lit "Field not found: " ++ to_string_int f) d
  | FieldConvertError d => what_of (lit "Could not convert field") d
  | MessageParseError d => what_of (lit "Could not parse message") d
  | InvalidMessage d => what_of (lit "Invalid message") d
  | ConfigError d => what_of (lit "Configuration failed") d
  | RuntimeError d => what_of (lit "Runtime error") d
  | InvalidTagNumber f d => what_of (lit "Invalid tag number: " ++ to_string_int f) d
  | RequiredTagMissing f d => what_of (lit "Required tag missing: " ++ to_string_int f) d
  | TagNotDefinedForMessage f d => what_of (lit "Tag not defined for this message type: " ++ to_string_int f) d
  | NoTagValue f d => what_of (lit "Tag specified without a value: " ++ to_string_int f) d
  | IncorrectTagValue f d => what_of (lit "Value is incorrect (out of range) for this tag: " ++ to_string_int f) d
  | IncorrectDataFormat f d => what_of (lit "Incorrect data format for value with tag: " ++ to_string_int f) d
  | IncorrectMessageStructure d => what_of (lit "Incorrect message structure") d
  | DuplicateFieldNumber d => what_of (lit "Duplicate field number") d
  | InvalidMessageType d => what_of (lit "Invalid Message Type") d
  | UnsupportedMessageType d => what_of (lit "Unsupported Message Type") d
  | UnsupportedVersion d => what_of (lit "Unsupported Version") d
  | TagOutOfOrder _ d => what_of (lit "Tag specified out of required order") d
  | EmbeddedSOH _ d => what_of (lit "Embedded SOH") d
  | OutOfOrderGroupMembers _ d => what_of (lit "Out of order repeating group members") d
  | RepeatedTag _ d => what_of (lit "Repeated tag not part of repeating group") d
  | RepeatingGroupCountMismatch _ d => what_of (lit "Repeating group count mismatch") d
  | DoNotSend d => what_of (lit "Do Not Send Message") d
  | RejectLogon d => what_of (lit "Rejected Logon Attempt") d
  | SessionNotFound d => what_of (lit "Session Not Found") d
  | IOException d => what_of (lit "IO Error") d
  | SocketException d | SocketRecvFailed d => what_of (lit "Socket Error") d
  | std_logic_error t | std_runtime_error t => t
  | OutOfFuel | Undefined => []
  end.
