(* ===== verification/Scan.v ===== *)
(** * Reading numbers as the C library does

    The conversions of [scanf] and [atoi] of glibc on a 64-bit platform: white
    space, an optional sign, digits; numbers out of range saturate. *)
From S2P Require Import Prelude Convertors.

Definition isspace (c : ascii) : bool := (code c =? 32) || ((9 <=? code c) && (code c <=? 13)).

Fixpoint skip_space (s : str) : str :=
  match s with
  | c :: s' => if isspace c then skip_space s' else s
  | [] => []
  end.

Fixpoint scan_digits (s : str) : str * str :=
  match s with
  | c :: s' => if IS_DIGIT c then let '(d, rest) := scan_digits s' in (c :: d, rest) else ([], s)
  | [] => ([], [])
  end.

(** White space, a sign, digits: whether there is a minus, the number, the rest. *)
Definition scan_integer (s : str) : option (bool * Z * str) :=
  let s := skip_space s in
  let '(neg, s) := match s with
                   | c :: s' => if bool_decide (c = "-"%char) then (true, s')
                                else if bool_decide (c = "+"%char) then (false, s') else (false, s)
                   | [] => (false, [])
                   end in
  let '(d, rest) := scan_digits s in
  match d with
  | [] => None
  | _ => Some (neg, dec d, rest)
  end.

(** [%lu] and [%zu], [%ld], [%d]. *)
Definition scan_u64 (s : str) : option (Z * str) :=
  '(neg, v, rest) ← scan_integer s;
  Some (if 2 ^ 64 - 1 <? v then 2 ^ 64 - 1 else if (neg : bool) then u64 (- v) else v, rest).

Definition scan_i64 (s : str) : option (Z * str) :=
  '(neg, v, rest) ← scan_integer s;
  Some (Z.min (2 ^ 63 - 1) (Z.max (- 2 ^ 63) (if (neg : bool) then - v else v)), rest).

Definition scan_i32 (s : str) : option (Z * str) :=
  '(v, rest) ← scan_i64 s; Some (i32 v, rest).
