(* ===== verification/Doubles.v ===== *)
(** * IEEE 754 binary64 arithmetic

    The few [double] expressions of the engine (the weekday formula and the
    heartbeat timeouts), on the Standard Library's executable specification of
    floating point: 53 bits of precision, round to nearest even. *)
From Stdlib Require Import Floats.SpecFloat.
From S2P Require Import Prelude.

Abbreviation double := spec_float.

Definition d_mul : double -> double -> double := SFmul 53 1024.
Definition d_sub : double -> double -> double := SFsub 53 1024.
Definition d_add : double -> double -> double := SFadd 53 1024.
Definition d_leb : double -> double -> bool := SFleb.

(** [(double)z], exact for every [int]. *)
Definition d_of_Z (z : Z) : double := binary_normalize 53 1024 z 0 false.

(** The literal [n / d], rounded once as the compiler rounds it. *)
Definition d_lit (n d : Z) : double := SFdiv 53 1024 (d_of_Z n) (d_of_Z d).

(** [int(x)]: truncation toward zero. *)
Definition d_trunc (x : double) : Z :=
  match x with
  | S754_finite s m e =>
      let a := if 0 <=? e then Z.pos m * 2 ^ e else Z.pos m / 2 ^ (- e) in
      if s then - a else a
  | _ => 0
  end.
