(* ===== verification/DateTime.v ===== *)
(** * Dates and times ([src/C++/FieldTypes.h], [src/C++/FieldTypes.cpp])

    A [DateTime] is a Julian day number and nanoseconds since midnight. C++
    division and remainder truncate ([Z.quot], [Z.rem]); conversions to [int]
    wrap ([i32]). The derived classes only differ in what they clear. *)
From S2P Require Import Prelude Doubles.

Record DateTime := mkDateTime { m_date : Z; m_time : Z }.

#[export] Instance DateTime_eq_dec : EqDecision DateTime.
Proof. solve_decision. Defined.

Definition SECONDS_PER_DAY : Z := 86400.
Definition SECONDS_PER_HOUR : Z := 3600.
Definition SECONDS_PER_MIN : Z := 60.
Definition MINUTES_PER_HOUR : Z := 60.
Definition NANOS_PER_DAY : Z := 86400000000000.
Definition NANOS_PER_HOUR : Z := 3600000000000.
Definition NANOS_PER_MIN : Z := 60000000000.
Definition NANOS_PER_SEC : Z := 1000000000.
Definition JULIAN_19700101 : Z := 2440588.

(** [PRECISION_FACTOR[p]]; the switches of the code fall back to [9]. *)
Definition PRECISION_FACTOR : list Z :=
  [1000000000; 100000000; 10000000; 1000000; 100000; 10000; 1000; 100; 10; 1].
Definition precision_factor (p : Z) : Z :=
  if (0 <=? p) && (p <=? 9) then nth (Z.to_nat p) PRECISION_FACTOR 1 else 1.

(** ** Calendar *)

Definition julianDate (year month day : Z) : Z :=
  let a := (14 - month) ÷ 12 in
  let y := year + 4800 - a in
  let m := month + 12 * a - 3 in
  day + (153 * m + 2) ÷ 5 + y * 365 + y ÷ 4 - y ÷ 100 + y ÷ 400 - 32045.

Definition getYMD_of (jday : Z) : Z * Z * Z :=
  let a := jday + 32044 in
  let b := (4 * a + 3) ÷ 146097 in
  let c := a - (b * 146097) ÷ 4 in
  let d := (4 * c + 3) ÷ 1461 in
  let e := c - (1461 * d) ÷ 4 in
  let m := (5 * e + 2) ÷ 153 in
  (b * 100 + d - 4800 + m ÷ 10, m + 3 - 12 * (m ÷ 10), e - (153 * m + 2) ÷ 5 + 1).

Definition getYMD (t : DateTime) : Z * Z * Z := getYMD_of (m_date t).
Definition getYear (t : DateTime) : Z := fst (fst (getYMD t)).
Definition getMonth (t : DateTime) : Z := snd (fst (getYMD t)).
Definition getDay (t : DateTime) : Z := snd (getYMD t).
Definition getJulianDate (t : DateTime) : Z := m_date t.

(** [int(2.6 * m - 0.2)], in double precision. *)
Definition weekday_month_term (m : Z) : Z :=
  d_trunc (d_sub (d_mul (d_lit 26 10) (d_of_Z m)) (d_lit 2 10)).

Definition getWeekDay (t : DateTime) : Z :=
  let '(Y, M, D) := getYMD t in
  let m := if 3 <=? M then M - 2 else M + 10 in
  let Yprime := if 3 <=? M then Y else Y - 1 in
  let y := Z.rem Yprime 100 in
  let c := Yprime ÷ 100 in
  let wd := Z.rem (D + weekday_month_term m + y + y ÷ 4 + c ÷ 4 - 2 * c) 7 in
  1 + (if wd <? 0 then 7 + wd else wd).

(** ** Time of day *)

Definition makeHMS (hour minute second nanos : Z) : Z :=
  NANOS_PER_SEC * (SECONDS_PER_HOUR * hour + SECONDS_PER_MIN * minute + second) + nanos.

Definition convertToNanos (fraction precision : Z) : Z := i32 (fraction * precision_factor precision).

Definition getHour (t : DateTime) : Z := i32 (m_time t ÷ NANOS_PER_HOUR).
Definition getMinute (t : DateTime) : Z := Z.rem (m_time t ÷ NANOS_PER_MIN) MINUTES_PER_HOUR.
Definition getSecond (t : DateTime) : Z := Z.rem (m_time t ÷ NANOS_PER_SEC) SECONDS_PER_MIN.
Definition getNanosecond (t : DateTime) : Z := u64 (m_time t) mod NANOS_PER_SEC.
Definition getFraction (t : DateTime) (precision : Z) : Z := getNanosecond t ÷ precision_factor precision.
Definition getMillisecond (t : DateTime) : Z := getFraction t 3.
Definition getMicrosecond (t : DateTime) : Z := getFraction t 6.

Definition getHMS_fraction (t : DateTime) (precision : Z) : Z * Z * Z * Z :=
  let ticks := i32 (m_time t ÷ NANOS_PER_SEC) in
  (ticks ÷ SECONDS_PER_HOUR, Z.rem (ticks ÷ SECONDS_PER_MIN) MINUTES_PER_HOUR,
   Z.rem ticks SECONDS_PER_MIN, getFraction t precision).

Definition getHMS (t : DateTime) : Z * Z * Z * Z :=
  let ticks := i32 (m_time t ÷ NANOS_PER_SEC) in
  (ticks ÷ SECONDS_PER_HOUR, Z.rem (ticks ÷ SECONDS_PER_MIN) MINUTES_PER_HOUR,
   Z.rem ticks SECONDS_PER_MIN, getMillisecond t).

Definition getTimeT (t : DateTime) : Z :=
  SECONDS_PER_DAY * (m_date t - JULIAN_19700101) + m_time t ÷ NANOS_PER_SEC.

(** ** Constructors and setters *)

Definition DateTime_fraction (year month day hour minute second fraction precision : Z) : DateTime :=
  mkDateTime (julianDate year month day) (makeHMS hour minute second (convertToNanos fraction precision)).

Definition DateTime_millis (year month day hour minute second millis : Z) : DateTime :=
  mkDateTime (julianDate year month day) (makeHMS hour minute second (i32 (millis * precision_factor 3))).

Definition setYMD (t : DateTime) (year month day : Z) : DateTime :=
  mkDateTime (julianDate year month day) (m_time t).
Definition setHMS (t : DateTime) (hour minute second millis : Z) : DateTime :=
  mkDateTime (m_date t) (makeHMS hour minute second (i32 (millis * precision_factor 3))).
Definition setHMS_fraction (t : DateTime) (hour minute second fraction precision : Z) : DateTime :=
  mkDateTime (m_date t) (makeHMS hour minute second (convertToNanos fraction precision)).

Definition setHour (t : DateTime) (hour : Z) : DateTime :=
  let '(_, min, sec, millis) := getHMS t in setHMS t hour min sec millis.
Definition setMinute (t : DateTime) (min : Z) : DateTime :=
  let '(hour, _, sec, millis) := getHMS t in setHMS t hour min sec millis.
Definition setSecond (t : DateTime) (sec : Z) : DateTime :=
  let '(hour, min, _, millis) := getHMS t in setHMS t hour min sec millis.
Definition setMillisecond (t : DateTime) (millis : Z) : DateTime :=
  let '(hour, min, sec, _) := getHMS t in setHMS t hour min sec millis.
Definition setFraction (t : DateTime) (fraction precision : Z) : DateTime :=
  let '(hour, min, sec, _) := getHMS_fraction t 9 in setHMS_fraction t hour min sec fraction precision.
Definition setMicrosecond (t : DateTime) (micros : Z) : DateTime :=
  let '(hour, min, sec, _) := getHMS_fraction t 9 in setHMS_fraction t hour min sec micros 6.
Definition setNanosecond (t : DateTime) (nanos : Z) : DateTime :=
  let '(hour, min, sec, _) := getHMS_fraction t 9 in setHMS_fraction t hour min sec nanos 9.

Definition clearDate (t : DateTime) : DateTime := mkDateTime 0 (m_time t).
Definition clearTime (t : DateTime) : DateTime := mkDateTime (m_date t) 0.

(** The converting constructors of [UtcTimeOnly]/[LocalTimeOnly] and
    [UtcDate]/[LocalDate]. *)
Definition UtcTimeOnly_of (t : DateTime) : DateTime := clearDate t.
Definition UtcDate_of (t : DateTime) : DateTime := clearTime t.

(** [UtcTimeOnly(hour, minute, second, millisecond)] and with a precision. *)
Definition UtcTimeOnly_millis (hour minute second millis : Z) : DateTime :=
  setHMS (mkDateTime 0 0) hour minute second millis.
Definition UtcTimeOnly_fraction (hour minute second fraction precision : Z) : DateTime :=
  setHMS_fraction (mkDateTime 0 0) hour minute second fraction precision.

(** [UtcDate(date, month, year)]. *)
Definition UtcDate_ymd (date month year : Z) : DateTime := DateTime_millis year month date 0 0 0 0.

(** ** Arithmetic and order *)

(** [operator+=(int seconds)]. *)
Definition add_seconds (t : DateTime) (seconds : Z) : DateTime :=
  let daysToAdd := seconds ÷ SECONDS_PER_DAY in
  let secondsToAdd := Z.rem seconds SECONDS_PER_DAY in
  let date := m_date t + daysToAdd in
  let time := m_time t + secondsToAdd * NANOS_PER_SEC in
  if NANOS_PER_DAY <=? time then mkDateTime (date + 1) (Z.rem time NANOS_PER_DAY)
  else if time <? 0 then mkDateTime (date - 1) (time + NANOS_PER_DAY)
  else mkDateTime date time.

Definition dt_eq (lhs rhs : DateTime) : bool := (m_date lhs =? m_date rhs) && (m_time lhs =? m_time rhs).
Definition dt_lt (lhs rhs : DateTime) : bool :=
  if m_date lhs <? m_date rhs then true
  else if m_date rhs <? m_date lhs then false
  else m_time lhs <? m_time rhs.
Definition dt_gt (lhs rhs : DateTime) : bool := negb (dt_eq lhs rhs || dt_lt lhs rhs).
Definition dt_le (lhs rhs : DateTime) : bool := dt_eq lhs rhs || dt_lt lhs rhs.
Definition dt_ge (lhs rhs : DateTime) : bool := dt_eq lhs rhs || dt_gt lhs rhs.

(** [operator-], in seconds; each time of day is truncated first. *)
Definition dt_sub (lhs rhs : DateTime) : Z :=
  i32 (SECONDS_PER_DAY * (m_date lhs - m_date rhs)
       + i32 (m_time lhs ÷ NANOS_PER_SEC) - i32 (m_time rhs ÷ NANOS_PER_SEC)).

(** ** System time *)

Record tm := { tm_year : Z; tm_mon : Z; tm_mday : Z; tm_hour : Z; tm_min : Z; tm_sec : Z }.

Definition getTmUtc (t : DateTime) : tm :=
  let '(year, month, day) := getYMD t in
  let '(hour, minute, second, _) := getHMS t in
  {| tm_year := year - 1900; tm_mon := month - 1; tm_mday := day;
     tm_hour := hour; tm_min := minute; tm_sec := second |}.

Definition fromTm (t : tm) (millis : Z) : DateTime :=
  mkDateTime (julianDate (tm_year t + 1900) (tm_mon t + 1) (tm_mday t))
    (makeHMS (tm_hour t) (tm_min t) (tm_sec t) (i32 (millis * precision_factor 3))).

Definition fromTm_fraction (t : tm) (fraction precision : Z) : DateTime :=
  mkDateTime (julianDate (tm_year t + 1900) (tm_mon t + 1) (tm_mday t))
    (makeHMS (tm_hour t) (tm_min t) (tm_sec t) (convertToNanos fraction precision)).

Definition fromUtcSeconds (t nanos : Z) : DateTime :=
  let days := t ÷ SECONDS_PER_DAY in
  let seconds := Z.rem t SECONDS_PER_DAY in
  let '(seconds, days) := if seconds <? 0 then (seconds + SECONDS_PER_DAY, days - 1) else (seconds, days) in
  mkDateTime (i32 (JULIAN_19700101 + days)) (NANOS_PER_SEC * seconds + nanos).

Definition fromUtcTimeT (t millis : Z) : DateTime := fromUtcSeconds t (i32 (millis * precision_factor 3)).
Definition fromUtcTimeT_fraction (t fraction precision : Z) : DateTime :=
  fromUtcSeconds t (convertToNanos fraction precision).

(** [nowUtc], from the [timeval] that [gettimeofday] fills. *)
Definition nowUtc (tv_sec tv_usec : Z) : DateTime := fromUtcTimeT_fraction tv_sec tv_usec 6.

Section Local.
(** The C library's [localtime_r], behind [time_localtime] of Utility.cpp. *)
Variable time_localtime : Z -> tm.

Definition fromLocalTimeT (t millis : Z) : DateTime := fromTm (time_localtime t) millis.
Definition fromLocalTimeT_fraction (t fraction precision : Z) : DateTime :=
  fromTm_fraction (time_localtime t) fraction precision.
Definition nowLocal (tv_sec tv_usec : Z) : DateTime := fromLocalTimeT_fraction tv_sec tv_usec 6.
End Local.

(** ** Calendar arithmetic

    The day number of a March-based year: [b] centuries, [d] years of the
    century, [m] months (0 is March) and [e] days of the year. *)

Ltac div_lia := Z.quot_rem_to_equations; Z.div_mod_to_equations; nia.

Definition is_leap (year : Z) : bool :=
  (year mod 4 =? 0) && (negb (year mod 100 =? 0) || (year mod 400 =? 0)).

Definition days_in_month (year month : Z) : Z :=
  if month =? 2 then (if is_leap year then 29 else 28)
  else if (month =? 4) || (month =? 6) || (month =? 9) || (month =? 11) then 30 else 31.

Definition valid_date (year month day : Z) : Prop :=
  -4799 <= year /\ 1 <= month <= 12 /\ 1 <= day <= days_in_month year month.

(** Days before the March-based year [100 b + d], month [m]. *)
Definition march_days (b d : Z) : Z := 146097 * b / 4 + 1461 * d / 4.
Definition month_days (m : Z) : Z := (153 * m + 2) / 5.

Lemma julianDate_march year month day :
  0 <= year + 4800 - (if month <=? 2 then 1 else 0) -> 1 <= month <= 12 ->
  let a := if month <=? 2 then 1 else 0 in
  let y := year + 4800 - a in
  let m := month + 12 * a - 3 in
  julianDate year month day + 32044 = march_days (y / 100) (y mod 100) + month_days m + (day - 1)
  /\ 0 <= y /\ 0 <= m <= 11.
Proof.
  intros Hy Hm a y m.
  assert ((14 - month) ÷ 12 = a) as Ha by (subst a; case_bool; div_lia).
  assert (0 <= y) as Hy0 by done.
  assert (0 <= m <= 11) as Hm0 by (subst a y m; case_bool; lia).
  split; [|done]. unfold julianDate. rewrite Ha. fold y m.
  rewrite !Z.quot_div_nonneg by lia. unfold march_days, month_days.
  pose proof (Z.div_mod y 100 ltac:(lia)). pose proof (Z.mod_pos_bound y 100 ltac:(lia)).
  set (b := y / 100) in *. set (d := y mod 100) in *. clearbody b d.
  assert (y / 4 = 25 * b + d / 4) by (Z.div_mod_to_equations; lia).
  assert (y / 400 = b / 4) by (Z.div_mod_to_equations; lia).
  assert (146097 * b / 4 = 36524 * b + b / 4) by (Z.div_mod_to_equations; lia).
  assert (1461 * d / 4 = 365 * d + d / 4) by (Z.div_mod_to_equations; lia).
  lia.
Qed.

(** [getYMD] inverts that decomposition, when [e] is a day of the year. *)
Lemma getYMD_march b d m k :
  0 <= b -> 0 <= d < 100 -> 0 <= m <= 11 -> 0 <= k ->
  month_days m + k < month_days (m + 1) ->
  month_days m + k < 1461 * (d + 1) / 4 - 1461 * d / 4 ->
  march_days b d + month_days m + k < 146097 * (b + 1) / 4 ->
  getYMD_of (march_days b d + month_days m + k - 32044) =
    (100 * b + d - 4800 + (if 10 <=? m then 1 else 0), (if 10 <=? m then m - 9 else m + 3), k + 1).
Proof.
  intros Hb Hd Hm Hk H1 H2 H3. unfold getYMD_of, march_days in *.
  set (a := 146097 * b / 4 + 1461 * d / 4 + month_days m + k).
  replace (a - 32044 + 32044) with a by lia.
  assert (0 <= 146097 * b / 4) by (apply Z.div_pos; lia).
  assert (0 <= 1461 * d / 4) by (apply Z.div_pos; lia).
  assert (0 <= month_days m) by (apply Z.div_pos; lia).
  rewrite (Z.quot_div_nonneg (4 * a + 3)) by lia.
  assert ((4 * a + 3) / 146097 = b) as ->.
  { symmetry. apply Z.div_unique_pos with (4 * a + 3 - 146097 * b); [|lia].
    subst a. Z.div_mod_to_equations. lia. }
  rewrite (Z.quot_div_nonneg (b * 146097)) by lia. rewrite (Z.mul_comm b 146097).
  set (c := a - 146097 * b / 4). assert (c = 1461 * d / 4 + month_days m + k) as Hc by lia.
  rewrite (Z.quot_div_nonneg (4 * c + 3)) by lia.
  assert ((4 * c + 3) / 1461 = d) as ->.
  { symmetry. apply Z.div_unique_pos with (4 * c + 3 - 1461 * d); [|lia].
    Z.div_mod_to_equations. lia. }
  rewrite (Z.quot_div_nonneg (1461 * d)) by lia.
  replace (c - 1461 * d / 4) with (month_days m + k) by lia.
  rewrite (Z.quot_div_nonneg (5 * _ + 2)) by lia.
  assert ((5 * (month_days m + k) + 2) / 153 = m) as ->.
  { symmetry. apply Z.div_unique_pos with (5 * (month_days m + k) + 2 - 153 * m); [|lia].
    unfold month_days in *. Z.div_mod_to_equations. lia. }
  rewrite !Z.quot_div_nonneg by lia.
  replace (m / 10) with (if 10 <=? m then 1 else 0) by (case_bool; Z.div_mod_to_equations; lia).
  change ((153 * m + 2) / 5) with (month_days m).
  case_bool; (f_equal; [f_equal; lia | lia]).
Qed.

(** Every day number decomposes. *)
Lemma march_decompose a :
  0 <= a ->
  exists b d m k, a = march_days b d + month_days m + k /\
    0 <= b /\ 0 <= d < 100 /\ 0 <= m <= 11 /\ 0 <= k /\
    month_days m + k < month_days (m + 1) /\
    month_days m + k < 1461 * (d + 1) / 4 - 1461 * d / 4 /\
    march_days b d + month_days m + k < 146097 * (b + 1) / 4.
Proof.
  intros Ha. set (b := (4 * a + 3) / 146097). set (c := a - 146097 * b / 4).
  set (d := (4 * c + 3) / 1461). set (e := c - 1461 * d / 4).
  set (m := (5 * e + 2) / 153).
  assert (0 <= b /\ 0 <= c <= 36524 /\ a < 146097 * (b + 1) / 4) as (Hb & Hc & Hab)
    by (subst c b; Z.div_mod_to_equations; lia).
  assert (0 <= d < 100 /\ 0 <= e /\ c < 1461 * (d + 1) / 4) as (Hd & He & Hcd)
    by (clear Hab; clearbody c b; subst e d; Z.div_mod_to_equations; lia).
  assert (0 <= e <= 365) as He' by (clearbody c d; subst e; Z.div_mod_to_equations; lia).
  assert (0 <= m <= 11 /\ month_days m <= e < month_days (m + 1)) as [Hm Hme].
  { clearbody e. unfold month_days; subst m. Z.div_mod_to_equations. lia. }
  exists b, d, m, (e - month_days m). unfold march_days.
  repeat split; try lia.
Qed.

Lemma getYMD_julianDate a :
  0 <= a -> let '(y, m, d) := getYMD_of (a - 32044) in julianDate y m d = a - 32044.
Proof.
  intros Ha. destruct (march_decompose a Ha) as (b & d & m & k & -> & Hb & Hd & Hm & Hk & H1 & H2 & H3).
  rewrite getYMD_march by done.
  destruct (julianDate_march (100 * b + d - 4800 + (if 10 <=? m then 1 else 0))
    (if 10 <=? m then m - 9 else m + 3) (k + 1)) as [E _]; [repeat case_bool; lia | case_bool; lia |].
  assert (((if 10 <=? m then m - 9 else m + 3) <=? 2) = (10 <=? m)) as Hle.
  { apply eq_true_iff_eq. rewrite !Z.leb_le. case_bool; lia. }
  rewrite Hle in E.
  replace (100 * b + d - 4800 + (if 10 <=? m then 1 else 0) + 4800 - (if 10 <=? m then 1 else 0))
    with (d + b * 100) in E by lia.
  rewrite Z.div_add, Z.mod_add, Z.div_small, Z.mod_small, Z.add_0_l in E by lia.
  replace ((if 10 <=? m then m - 9 else m + 3) + 12 * (if 10 <=? m then 1 else 0) - 3)
    with m in E by (case_bool; lia).
  lia.
Qed.

(** A valid day stays inside its month, and within its year except for the
    29th of February of a leap year. *)
Lemma month_days_bound year month day :
  1 <= month <= 12 -> 1 <= day <= days_in_month year month ->
  let m := month + 12 * (if month <=? 2 then 1 else 0) - 3 in
  month_days m + (day - 1) < month_days (m + 1) /\
  (month_days m + (day - 1) <= 364 \/
   month_days m + (day - 1) = 365 /\ month = 2 /\ is_leap year = true).
Proof.
  intros Hm Hd m.
  assert (month = 1 \/ month = 2 \/ month = 3 \/ month = 4 \/ month = 5 \/ month = 6 \/ month = 7 \/
          month = 8 \/ month = 9 \/ month = 10 \/ month = 11 \/ month = 12) as Hc by lia.
  unfold days_in_month in Hd. destruct (is_leap year).
  all: repeat destruct Hc as [Hc|Hc]; subst month m; simpl in Hd;
    match goal with |- context [month_days ?x] => let v := eval vm_compute in (month_days x) in
      change (month_days x) with v end;
    match goal with |- context [month_days ?x] => let v := eval vm_compute in (month_days x) in
      change (month_days x) with v end; lia.
Qed.

Lemma is_leap_spec year :
  is_leap year = true <-> year mod 4 = 0 /\ (year mod 100 <> 0 \/ year mod 400 = 0).
Proof.
  unfold is_leap. rewrite andb_true_iff, orb_true_iff, negb_true_iff, !Z.eqb_eq, Z.eqb_neq. done.
Qed.

Lemma julianDate_getYMD year month day :
  valid_date year month day -> getYMD_of (julianDate year month day) = (year, month, day).
Proof.
  intros (Hy & Hm & Hd).
  destruct (julianDate_march year month day) as (E & Hy0 & Hm0); [case_bool; lia | done |].
  destruct (month_days_bound year month day Hm Hd) as [Hmonth Hyear].
  set (a := if month <=? 2 then 1 else 0) in *. set (y := year + 4800 - a) in *.
  set (m := month + 12 * a - 3) in *.
  replace (julianDate year month day) with
    (march_days (y / 100) (y mod 100) + month_days m + (day - 1) - 32044) by lia.
  assert ((10 <=? m) = (month <=? 2)) as Hle.
  { apply eq_true_iff_eq. rewrite !Z.leb_le. subst m a. case_bool; lia. }
  pose proof (Z.div_mod y 100 ltac:(lia)) as Hdm. pose proof (Z.mod_pos_bound y 100 ltac:(lia)) as Hmod.
  assert (month = 2 -> is_leap year = true ->
    (y mod 100 + 1) mod 4 = 0 /\ (y mod 100 = 99 -> (y / 100 + 1) mod 4 = 0)) as Hleap.
  { intros -> Hl. apply is_leap_spec in Hl. subst a. simpl in y.
    assert (y = year + 4799) as Hyy by lia. clearbody y. clear -Hl Hdm Hmod Hyy.
    set (b := y / 100) in *. set (d := y mod 100) in *. clearbody b d.
    Z.div_mod_to_equations. lia. }
  set (b := y / 100) in *. set (d := y mod 100) in *.
  assert (0 <= b) as Hb by (apply Z.div_pos; lia).
  assert (month_days m + (day - 1) < 1461 * (d + 1) / 4 - 1461 * d / 4 /\
    march_days b d + month_days m + (day - 1) < 146097 * (b + 1) / 4) as [H2 H3].
  { unfold march_days. clearbody b d m. clear -Hmod Hb Hyear Hleap.
    destruct Hyear as [Hyear | (He & Hf & Hl)].
    - split; Z.div_mod_to_equations; lia.
    - destruct (Hleap Hf Hl) as [L1 L2]. split; Z.div_mod_to_equations; lia. }
  rewrite getYMD_march by (done || lia).
  rewrite Hle. clearbody b d. subst m y a. clear -Hdm Hm. revert Hdm.
  case_bool; intros; (f_equal; [f_equal; lia | lia]).
Qed.

(** The weekday formula: day 0 of the Julian calendar is a Monday. *)
Lemma weekday_month_term_spec m : 1 <= m <= 12 -> weekday_month_term m = month_days (m - 1) - 28 * (m - 1) + 2.
Proof.
  intros H.
  assert (forall_range 1 12 (fun m =>
    weekday_month_term m =? month_days (m - 1) - 28 * (m - 1) + 2) = true) as HP by (vm_compute; reflexivity).
  pose proof (forall_range_spec _ _ _ HP m ltac:(lia)) as E. clear HP. by apply Z.eqb_eq.
Qed.

Lemma getWeekDay_spec t :
  1721120 <= m_date t -> getWeekDay t = (m_date t + 1) mod 7 + 1.
Proof.
  intros Ht. unfold getWeekDay, getYMD.
  destruct (march_decompose (m_date t + 32044)) as (b & d & m & k & E & Hb & Hd & Hm & Hk & H1 & H2 & H3); [lia|].
  replace (m_date t) with (march_days b d + month_days m + k - 32044) at 1 by lia.
  rewrite getYMD_march by done.
  assert (48 <= b) as Hb'.
  { unfold march_days, month_days in *. Z.div_mod_to_equations. lia. }
  set (mon := if 10 <=? m then m - 9 else m + 3).
  assert ((if 3 <=? mon then mon - 2 else mon + 10) = m + 1) as -> by (subst mon; repeat case_bool; lia).
  assert ((if 3 <=? mon then 100 * b + d - 4800 + (if 10 <=? m then 1 else 0)
           else 100 * b + d - 4800 + (if 10 <=? m then 1 else 0) - 1) = 100 * (b - 48) + d) as ->
    by (subst mon; repeat case_bool; lia).
  rewrite weekday_month_term_spec by lia. replace (m + 1 - 1) with m by lia.
  rewrite (Z.rem_mod_nonneg (100 * (b - 48) + d) 100), (Z.quot_div_nonneg (100 * (b - 48) + d) 100) by lia.
  replace ((100 * (b - 48) + d) mod 100) with d by (clear -Hd; Z.div_mod_to_equations; lia).
  replace ((100 * (b - 48) + d) / 100) with (b - 48) by (clear -Hd; Z.div_mod_to_equations; lia).
  rewrite !Z.quot_div_nonneg by lia.
  set (w := k + 1 + _ + d + d / 4 + (b - 48) / 4 - 2 * (b - 48)).
  assert (w mod 7 = (m_date t + 1) mod 7) as Hw.
  { unfold march_days in E. subst w. clear -E Hm. unfold month_days in *.
    assert (146097 * b / 4 = 36524 * b + b / 4) by (Z.div_mod_to_equations; lia).
    assert (1461 * d / 4 = 365 * d + d / 4) by (Z.div_mod_to_equations; lia).
    assert ((b - 48) / 4 = b / 4 - 12) by (Z.div_mod_to_equations; lia).

    Z.div_mod_to_equations. lia. }
  rewrite <- Hw. clearbody w. clear.
  rewrite (Z.rem_eq w 7), Z.mod_eq by lia.
  case_bool; Z.quot_rem_to_equations; Z.div_mod_to_equations; lia.
Qed.

(** ** Instants

    A well-formed [DateTime] has its time of day in [0, NANOS_PER_DAY); it then
    denotes one instant, [nanos_of], and the comparison operators compare
    instants. *)

Definition valid_time (t : DateTime) : Prop := 0 <= m_time t < NANOS_PER_DAY.

#[export] Instance valid_time_dec t : Decision (valid_time t).
Proof. unfold valid_time. apply _. Defined.

Definition nanos_of (t : DateTime) : Z := m_date t * NANOS_PER_DAY + m_time t.

(** Whole seconds of an instant. *)
Definition seconds_of (t : DateTime) : Z := m_date t * SECONDS_PER_DAY + m_time t / NANOS_PER_SEC.

Lemma dt_eq_spec a b : dt_eq a b = true <-> a = b.
Proof.
  unfold dt_eq. rewrite andb_true_iff, !Z.eqb_eq. destruct a, b; simpl.
  split; [intros [-> ->]; done | intros [= -> ->]; done].
Qed.

Lemma dt_lt_spec a b : valid_time a -> valid_time b -> dt_lt a b = (nanos_of a <? nanos_of b).
Proof.
  unfold valid_time, dt_lt, nanos_of, NANOS_PER_DAY. intros Ha Hb.
  apply eq_true_iff_eq. rewrite Z.ltb_lt. repeat case_bool; rewrite ?Z.ltb_lt; split; try done; try lia.
Qed.

Lemma dt_eq_nanos a b : valid_time a -> valid_time b -> dt_eq a b = (nanos_of a =? nanos_of b).
Proof.
  unfold valid_time, dt_eq, nanos_of, NANOS_PER_DAY. intros Ha Hb.
  apply eq_true_iff_eq. rewrite andb_true_iff, !Z.eqb_eq. lia.
Qed.

Lemma dt_gt_spec a b : valid_time a -> valid_time b -> dt_gt a b = (nanos_of b <? nanos_of a).
Proof. intros Ha Hb. unfold dt_gt. rewrite dt_eq_nanos, dt_lt_spec by done. lia. Qed.

Lemma dt_le_spec a b : valid_time a -> valid_time b -> dt_le a b = (nanos_of a <=? nanos_of b).
Proof. intros Ha Hb. unfold dt_le. rewrite dt_eq_nanos, dt_lt_spec by done. lia. Qed.

Lemma dt_ge_spec a b : valid_time a -> valid_time b -> dt_ge a b = (nanos_of b <=? nanos_of a).
Proof. intros Ha Hb. unfold dt_ge. rewrite dt_eq_nanos, dt_gt_spec by done. lia. Qed.

Lemma i32_seconds t : valid_time t -> i32 (m_time t ÷ NANOS_PER_SEC) = m_time t / NANOS_PER_SEC.
Proof.
  unfold valid_time, NANOS_PER_DAY, NANOS_PER_SEC. intros H.
  rewrite Z.quot_div_nonneg by lia. apply i32_small. Z.div_mod_to_equations. lia.
Qed.

Lemma dt_sub_spec a b :
  valid_time a -> valid_time b -> dt_sub a b = i32 (seconds_of a - seconds_of b).
Proof.
  intros Ha Hb. unfold dt_sub. rewrite !i32_seconds by done. f_equal. unfold seconds_of. lia.
Qed.

(** Broken-down time of day. *)
Lemma getHMS_spec t p :
  valid_time t -> 0 <= p <= 9 ->
  let s := m_time t / NANOS_PER_SEC in
  getHMS_fraction t p =
    (s / 3600, (s / 60) mod 60, s mod 60, (m_time t mod NANOS_PER_SEC) / precision_factor p).
Proof.
  intros Ht Hp s. unfold getHMS_fraction. rewrite i32_seconds by done. fold s.
  unfold valid_time in Ht.
  assert (0 <= s < 86400) as Hs by (subst s; unfold NANOS_PER_DAY, NANOS_PER_SEC in *; Z.div_mod_to_equations; lia).
  unfold SECONDS_PER_HOUR, SECONDS_PER_MIN, MINUTES_PER_HOUR, getFraction, getNanosecond.
  rewrite u64_small by (unfold NANOS_PER_DAY in *; lia).
  assert (0 < precision_factor p) as Hf.
  { unfold precision_factor. case_match; [|lia].
    assert (p = 0 \/ p = 1 \/ p = 2 \/ p = 3 \/ p = 4 \/ p = 5 \/ p = 6 \/ p = 7 \/ p = 8 \/ p = 9) as Hc by lia.
    by repeat destruct Hc as [->|Hc]; [..|subst p]. }
  pose proof (Z.mod_pos_bound (m_time t) NANOS_PER_SEC ltac:(done)).
  assert (0 <= s / 60) by (apply Z.div_pos; lia).
  rewrite !Z.quot_div_nonneg, !Z.rem_mod_nonneg by (rewrite ?Z.quot_div_nonneg by lia; lia). done.
Qed.

(** ** Properties *)

(** The calendar: for every Julian day number from year -4800 on, [getYMD] then
    [julianDate] is the identity, and for every valid Gregorian date, [julianDate]
    then [getYMD] is. *)
Theorem calendar_roundtrip :
  (forall jday, -32044 <= jday -> let '(y, m, d) := getYMD_of jday in julianDate y m d = jday) /\
  (forall year month day, valid_date year month day -> getYMD_of (julianDate year month day) = (year, month, day)).
Proof.
  split; [|apply julianDate_getYMD].
  intros jday H. pose proof (getYMD_julianDate (jday + 32044) ltac:(lia)) as E.
  by replace (jday + 32044 - 32044) with jday in E by lia.
Qed.

(** [getWeekDay], computed from year, month and day with a table of months, is
    the Julian day number modulo 7: it goes 1 to 7 and around. *)
Theorem weekday_cycle t :
  1721120 <= m_date t ->
  1 <= getWeekDay t <= 7 /\
  getWeekDay t = (m_date t + 1) mod 7 + 1 /\
  getWeekDay (mkDateTime (m_date t + 1) (m_time t)) = (if getWeekDay t =? 7 then 1 else getWeekDay t + 1).
Proof.
  intros H. rewrite !getWeekDay_spec by (simpl; lia). simpl.
  repeat split; try case_bool; Z.div_mod_to_equations; lia.
Qed.

Lemma weekday_cycle_witness :
  let t := mkDateTime (julianDate 2024 2 29) 0 in
  1 <= getWeekDay t <= 7 /\
  getWeekDay t = (m_date t + 1) mod 7 + 1 /\
  getWeekDay (mkDateTime (m_date t + 1) (m_time t)) = (if getWeekDay t =? 7 then 1 else getWeekDay t + 1).
Proof. apply (weekday_cycle (mkDateTime (julianDate 2024 2 29) 0)). by vm_compute. Defined.

(** [operator+=]: adding seconds, of either sign, to a valid time gives a valid
    time that many seconds away, the nanoseconds kept. *)
Theorem add_seconds_spec t s :
  valid_time t ->
  valid_time (add_seconds t s) /\
  nanos_of (add_seconds t s) = nanos_of t + s * NANOS_PER_SEC.
Proof.
  unfold valid_time, nanos_of, add_seconds, NANOS_PER_DAY, NANOS_PER_SEC, SECONDS_PER_DAY. intros H.
  pose proof (Z.quot_rem s 86400 ltac:(lia)) as Hs.
  pose proof (Z.rem_bound_abs s 86400 ltac:(lia)).
  set (q := s ÷ 86400) in *. set (r := Z.rem s 86400) in *. clearbody q r. subst s.
  repeat case_bool; simpl; try lia.
  all: rewrite Z.rem_mod_nonneg by lia.
  all: rewrite <- (Z.mod_add _ (-1)) by lia; rewrite Z.mod_small; lia.
Qed.

Lemma add_seconds_spec_witness :
  let t := mkDateTime (julianDate 2024 3 1) 5 in
  valid_time (add_seconds t (-86401)) /\
  nanos_of (add_seconds t (-86401)) = nanos_of t + -86401 * NANOS_PER_SEC.
Proof. apply (add_seconds_spec (mkDateTime (julianDate 2024 3 1) 5) (-86401)). by vm_compute. Defined.

(** A [time_t], before the epoch or after, with nanoseconds becomes a valid time
    that gives both back. *)
Theorem epoch_roundtrip t nanos :
  - 2 ^ 31 * 86400 <= t + 2440588 * 86400 < 2 ^ 31 * 86400 ->
  0 <= nanos < NANOS_PER_SEC ->
  let d := fromUtcSeconds t nanos in
  valid_time d /\ getTimeT d = t /\ getNanosecond d = nanos.
Proof.
  intros Ht Hn d. subst d.
  unfold fromUtcSeconds, SECONDS_PER_DAY, JULIAN_19700101, NANOS_PER_SEC, getTimeT, valid_time, NANOS_PER_DAY,
    getNanosecond, SECONDS_PER_DAY, JULIAN_19700101, NANOS_PER_SEC in *.
  pose proof (Z.quot_rem t 86400 ltac:(lia)) as Hs.
  pose proof (Z.rem_bound_abs t 86400 ltac:(lia)).
  set (q := t ÷ 86400) in *. set (r := Z.rem t 86400) in *. clearbody q r. subst t.
  assert (forall k s, 0 <= s < 86400 -> - 2 ^ 31 <= 2440588 + k < 2 ^ 31 ->
    86400 * q + r = 86400 * k + s ->
    (0 <= 1000000000 * s + nanos < 86400000000000) /\
    86400 * (i32 (2440588 + k) - 2440588) + (1000000000 * s + nanos) ÷ 1000000000 = 86400 * q + r /\
    u64 (1000000000 * s + nanos) mod 1000000000 = nanos) as Hgen.
  { intros k s Hs1 Hk E. rewrite i32_small, u64_small by lia.
    rewrite Z.quot_div_nonneg by lia. split_and!; [lia | lia | |]; Z.div_mod_to_equations; lia. }
  case_bool; simpl; apply Hgen; lia.
Qed.

Lemma epoch_roundtrip_witness :
  let d := fromUtcSeconds (-1) 999 in
  valid_time d /\ getTimeT d = -1 /\ getNanosecond d = 999.
Proof. apply (epoch_roundtrip (-1) 999); by vm_compute. Defined.
