(* ===== verification/TimeConvertors.v ===== *)
(** * Timestamp, time and date convertors ([src/C++/FieldConvertors.h])

    [UtcTimeStampConvertor], [UtcTimeOnlyConvertor] and [UtcDateConvertor]. A
    component that does not fit its columns is [OutOfFuel]: the code would
    write outside its columns. *)
From S2P Require Import Prelude Convertors DateTime.

(** ** Encoding *)

(** [integer_to_string_padded(p, n, v)] into exactly [n] columns. *)
Definition columns (n : nat) (v : Z) : result str :=
  of_option OutOfFuel (integer_to_string_padded int32_t n v "0"%char).

Definition UtcTimeStampConvertor_convert (value : DateTime) (precision : Z) : result str :=
  let precision := clamp_of precision 0 9 in
  let '(year, month, day) := getYMD value in
  let '(hour, minute, second, fraction) := getHMS_fraction value precision in
  y ← columns 4 year;
  mo ← columns 2 month;
  d ← columns 2 day;
  h ← columns 2 hour;
  mi ← columns 2 minute;
  s ← columns 2 second;
  let base := y ++ mo ++ d ++ ["-"%char] ++ h ++ [":"%char] ++ mi ++ [":"%char] ++ s in
  if precision =? 0 then Ok base
  else
    f ← columns (Z.to_nat precision) fraction;
    Ok (base ++ ["."%char] ++ f).

Definition UtcTimeOnlyConvertor_convert (value : DateTime) (precision : Z) : result str :=
  let precision := clamp_of precision 0 9 in
  let '(hour, minute, second, fraction) := getHMS_fraction value precision in
  h ← columns 2 hour;
  mi ← columns 2 minute;
  s ← columns 2 second;
  let base := h ++ [":"%char] ++ mi ++ [":"%char] ++ s in
  if precision =? 0 then Ok base
  else
    f ← columns (Z.to_nat precision) fraction;
    Ok (base ++ ["."%char] ++ f).

Definition UtcDateConvertor_convert (value : DateTime) : result str :=
  let '(year, month, day) := getYMD value in
  y ← columns 4 year;
  mo ← columns 2 month;
  d ← columns 2 day;
  Ok (y ++ mo ++ d).

(** ** Decoding *)

(** [value[i]]. *)
Definition at_ (value : str) (i : nat) : ascii := nth i value NUL.

(** The loop that checks [n] digits from position [i]. *)
Definition digits_at (value : str) (i n : nat) : bool := all_digits (substr value i n).

(** [n] digits read from position [i], as [10 * x + value[i++] - '0']. *)
Definition number_at (value : str) (i n : nat) : Z := dec (substr value i n).

(** The fraction loop, in [int] arithmetic. *)
Definition fraction_of (s : str) : Z :=
  fold_left (fun fraction ch => i32 (fraction * 10 + code ch - 48)) s 0.

Definition UtcTimeStampConvertor_of_string (value : str) : result DateTime :=
  let bad := FieldConvertError value in
  let length_ := length value in
  _ ← guard_or (negb ((length_ <? 17)%nat || (27 <? length_)%nat)) bad;
  _ ← guard_or (digits_at value 0 8) bad;
  _ ← guard_or (bool_decide (at_ value 8 = "-"%char)) bad;
  _ ← guard_or (digits_at value 9 2) bad;
  _ ← guard_or (bool_decide (at_ value 11 = ":"%char)) bad;
  _ ← guard_or (digits_at value 12 2) bad;
  _ ← guard_or (bool_decide (at_ value 14 = ":"%char)) bad;
  _ ← guard_or (digits_at value 15 2) bad;
  let year := number_at value 0 4 in
  let mon := number_at value 4 2 in
  _ ← guard_or (negb ((mon <? 1) || (12 <? mon))) bad;
  let mday := number_at value 6 2 in
  _ ← guard_or (negb ((mday <? 1) || (31 <? mday))) bad;
  let hour := number_at value 9 2 in
  _ ← guard_or (negb (23 <? hour)) bad;
  let min := number_at value 12 2 in
  _ ← guard_or (negb (59 <? min)) bad;
  let sec := number_at value 15 2 in
  _ ← guard_or (negb (60 <? sec)) bad;
  if (length_ =? 17)%nat then Ok (DateTime_millis year mon mday hour min sec 0)
  else
    _ ← guard_or (bool_decide (at_ value 17 = "."%char)) bad;
    _ ← guard_or (all_digits (drop 18 value)) bad;
    Ok (DateTime_fraction year mon mday hour min sec (fraction_of (drop 18 value))
          (Z.of_nat length_ - 17 - 1)).

Definition UtcTimeOnlyConvertor_of_string (value : str) : result DateTime :=
  let bad := FieldConvertError value in
  let length_ := length value in
  _ ← guard_or (negb ((length_ <? 8)%nat || (18 <? length_)%nat)) bad;
  _ ← guard_or (digits_at value 0 2) bad;
  _ ← guard_or (bool_decide (at_ value 2 = ":"%char)) bad;
  _ ← guard_or (digits_at value 3 2) bad;
  _ ← guard_or (bool_decide (at_ value 5 = ":"%char)) bad;
  _ ← guard_or (digits_at value 6 2) bad;
  let hour := number_at value 0 2 in
  _ ← guard_or (negb (23 <? hour)) bad;
  let min := number_at value 3 2 in
  _ ← guard_or (negb (59 <? min)) bad;
  let sec := number_at value 6 2 in
  _ ← guard_or (negb (60 <? sec)) bad;
  if (length_ =? 8)%nat then Ok (UtcTimeOnly_millis hour min sec 0)
  else
    _ ← guard_or (bool_decide (at_ value 8 = "."%char)) bad;
    _ ← guard_or (all_digits (drop 9 value)) bad;
    Ok (UtcTimeOnly_fraction hour min sec (fraction_of (drop 9 value)) (Z.of_nat length_ - 8 - 1)).

Definition UtcDateConvertor_of_string (value : str) : result DateTime :=
  let bad := FieldConvertError value in
  _ ← guard_or (length value =? 8)%nat bad;
  _ ← guard_or (digits_at value 0 8) bad;
  let year := number_at value 0 4 in
  let mon := number_at value 4 2 in
  _ ← guard_or (negb ((mon <? 1) || (12 <? mon))) bad;
  let mday := number_at value 6 2 in
  _ ← guard_or (negb ((mday <? 1) || (31 <? mday))) bad;
  Ok (UtcDate_ymd mday mon year).

(** ** Columns *)

Lemma replicate_zero_dec k s : dec (replicate k "0"%char ++ s) = dec s.
Proof. induction k as [|k IH]; [done|]. exact IH. Qed.

Lemma replicate_zero_digits k : all_digits (replicate k "0"%char) = true.
Proof. induction k; done. Qed.

Lemma in_range_int32 v : -2147483648 <= v <= 2147483647 -> in_range int32_t v = true.
Proof. intros H. apply andb_true_iff. rewrite !Z.leb_le. exact H. Qed.

Lemma integer_chars_nonneg v :
  0 <= v <= 2147483647 -> integer_chars int32_t v = integer_digits v.
Proof.
  intros H. unfold integer_chars.
  rewrite UNSIGNED_VALUE_OF_abs by first [apply engine_int32 | apply in_range_int32; lia].
  rewrite Z.abs_eq by lia. case_bool; [lia | done].
Qed.

Lemma integer_digits_short n v : (1 <= n)%nat -> 0 <= v < 10 ^ Z.of_nat n -> (length (integer_digits v) <= n)%nat.
Proof.
  intros Hn Hv. destruct (decide (v = 0)) as [->|]; [simpl; lia|].
  destruct (integer_digits_length v ltac:(lia)) as [Hlo _].
  destruct (le_lt_dec (length (integer_digits v)) n) as [|Hgt]; [done|].
  assert (10 ^ Z.of_nat n <= 10 ^ (Z.of_nat (length (integer_digits v)) - 1))
    by (apply Z.pow_le_mono_r; lia). lia.
Qed.

(** A number below [10^n] fills its [n] columns and reads back. *)
Lemma columns_spec n v :
  (1 <= n)%nat -> (n <= 9)%nat -> 0 <= v < 10 ^ Z.of_nat n ->
  exists s, columns n v = Ok s /\ length s = n /\ all_digits s = true /\ dec s = v.
Proof.
  intros Hn Hn9 Hv.
  assert (v <= 2147483647) as Hmax.
  { assert (10 ^ Z.of_nat n <= 1000000000); [|lia].
    change 1000000000 with (10 ^ 9). apply Z.pow_le_mono_r; lia. }
  destruct (integer_digits_spec v) as (Hd & Hval & _); [lia|].
  pose proof (integer_digits_short n v Hn Hv) as Hlen.
  unfold columns, integer_to_string_padded.
  rewrite integer_to_string_fits by (rewrite integer_chars_nonneg; [done | lia]).
  rewrite integer_chars_nonneg by lia.
  exists (replicate (n - length (integer_digits v)) "0"%char ++ integer_digits v).
  split_and!; [done | | |].
  - rewrite length_app, length_replicate. lia.
  - by rewrite all_digits_app, replicate_zero_digits, Hd.
  - by rewrite replicate_zero_dec.
Qed.

(** Splits a string of known length into its characters. *)
Ltac explode s H :=
  repeat (destruct s as [|? s]; [discriminate H|]; simpl in H; try injection H as H);
  destruct s; [|discriminate H]; try clear H.

Lemma fraction_of_dec s : all_digits s = true -> (length s <= 9)%nat -> fraction_of s = dec s.
Proof.
  induction s as [|c s IH] using rev_ind; [done|].
  intros Hd Hl. rewrite all_digits_app in Hd. apply andb_true_iff in Hd as [Hs Hc].
  rewrite length_app in Hl. simpl in Hl.
  rewrite dec_snoc. unfold fraction_of. rewrite fold_left_app. cbn [fold_left].
  fold (fraction_of s). rewrite IH by (done || lia).
  simpl in Hc. rewrite andb_true_r in Hc. pose proof (digit_value_range _ Hc).
  pose proof (dec_bound _ Hs) as Hb.
  assert (10 ^ Z.of_nat (length s) <= 10 ^ 8) by (apply Z.pow_le_mono_r; lia).
  change (10 ^ 8) with 100000000 in *. unfold digit_value in *.
  rewrite i32_small by lia. lia.
Qed.

Lemma clamp_of_range v lo hi : lo <= hi -> lo <= clamp_of v lo hi <= hi.
Proof. intros H. unfold clamp_of. repeat case_bool; lia. Qed.

Lemma precision_factor_pow p : 0 <= p <= 9 -> precision_factor p = 10 ^ (9 - p).
Proof.
  intros H.
  assert (p = 0 \/ p = 1 \/ p = 2 \/ p = 3 \/ p = 4 \/ p = 5 \/ p = 6 \/ p = 7 \/ p = 8 \/ p = 9) as Hc by lia.
  repeat destruct Hc as [->|Hc]; try done. by subst p.
Qed.

(** The precision [p] keeps of an instant. *)
Definition truncate (t : DateTime) (p : Z) : DateTime :=
  mkDateTime (m_date t) (m_time t - m_time t mod precision_factor p).

Lemma getYMD_valid t :
  -32044 <= m_date t -> let '(y, m, d) := getYMD t in 1 <= m <= 12 /\ 1 <= d <= 31 /\ julianDate y m d = m_date t.
Proof.
  intros H. unfold getYMD.
  pose proof (getYMD_julianDate (m_date t + 32044) ltac:(lia)) as E.
  replace (m_date t + 32044 - 32044) with (m_date t) in E by lia.
  destruct (march_decompose (m_date t + 32044)) as (b & d & m & k & E2 & Hb & Hd & Hm & Hk & H1 & H2 & H3); [lia|].
  replace (m_date t) with (march_days b d + month_days m + k - 32044) by lia.
  replace (m_date t) with (march_days b d + month_days m + k - 32044) in E by lia.
  rewrite getYMD_march in * by done. split_and!; [case_bool; lia | case_bool; lia | lia | | done].
  unfold month_days in H1. clear -H1. Z.div_mod_to_equations. lia.
Qed.

(** The time-of-day part of both formats. *)
Lemma time_of_day_fields t p :
  valid_time t -> 0 <= p <= 9 ->
  let s := m_time t / NANOS_PER_SEC in
  let f := (m_time t mod NANOS_PER_SEC) / precision_factor p in
  0 <= s / 3600 <= 23 /\ 0 <= (s / 60) mod 60 <= 59 /\ 0 <= s mod 60 <= 59 /\ 0 <= f < 10 ^ p /\
  makeHMS (s / 3600) ((s / 60) mod 60) (s mod 60) (f * precision_factor p) = m_time t - m_time t mod precision_factor p /\
  (p = 0 -> f = 0).
Proof.
  intros Ht Hp s f. unfold valid_time in Ht.
  assert (0 <= s < 86400) as Hs by (subst s; unfold NANOS_PER_DAY, NANOS_PER_SEC in *; Z.div_mod_to_equations; lia).
  assert (0 < precision_factor p /\ NANOS_PER_SEC = 10 ^ p * precision_factor p) as [Hf HN].
  { rewrite precision_factor_pow by done. rewrite <- Z.pow_add_r by lia.
    replace (p + (9 - p)) with 9 by lia. split; [lia | done]. }
  assert (0 < 10 ^ p) by lia.
  set (F := precision_factor p) in *. set (P := 10 ^ p) in *.
  assert (m_time t mod F = (m_time t mod NANOS_PER_SEC) mod F) as Hmod.
  { rewrite HN. symmetry. rewrite (Z.mul_comm P), Z.rem_mul_r, Z.add_mod by lia.
    rewrite Z.mul_comm, Z.mod_mul, Z.add_0_r, !Z.mod_mod by lia. done. }
  pose proof (Z.mod_pos_bound (m_time t) NANOS_PER_SEC ltac:(done)) as Hn.
  pose proof (Z.div_mod (m_time t) NANOS_PER_SEC ltac:(done)) as Hdm.
  pose proof (Z.div_mod (m_time t mod NANOS_PER_SEC) F ltac:(lia)) as Hdf.
  fold s in Hdm. fold f in Hdf. rewrite <- Hmod in Hdf.
  assert (0 <= f < P) as Hfb.
  { subst f. split; [apply Z.div_pos; lia|]. apply Z.div_lt_upper_bound; nia. }
  split_and!; try (Z.div_mod_to_equations; lia); [|].
  - unfold makeHMS, SECONDS_PER_HOUR, SECONDS_PER_MIN.
    assert (3600 * (s / 3600) + 60 * ((s / 60) mod 60) + s mod 60 = s) as ->
      by (clear -Hs; Z.div_mod_to_equations; lia). lia.
  - intros ->. subst P. lia.
Qed.

Lemma convertToNanos_small f p : 0 <= p <= 9 -> 0 <= f < 10 ^ p -> convertToNanos f p = f * precision_factor p.
Proof.
  intros Hp Hf. unfold convertToNanos. rewrite precision_factor_pow by done. apply i32_small.
  assert (10 ^ p * 10 ^ (9 - p) = 10 ^ 9) as E by (rewrite <- Z.pow_add_r by lia; f_equal; lia).
  change (10 ^ 9) with 1000000000 in E. nia.
Qed.

(** [number_at] and the checks on a string assembled from columns. *)
Ltac read_columns :=
  cbn [at_ nth number_at digits_at substr take drop app length Nat.ltb Nat.leb orb negb andb].

Lemma guard_true {A} b e (k : unit -> result A) : b = true -> (guard_or b e ≫= k) = k ().
Proof. by intros ->. Qed.

Ltac pass_guard tac := rewrite guard_true; [| tac].

Lemma timestamp_decode_head y mo d h mi s rest :
  length y = 4%nat -> length mo = 2%nat -> length d = 2%nat ->
  length h = 2%nat -> length mi = 2%nat -> length s = 2%nat ->
  all_digits y = true -> all_digits mo = true -> all_digits d = true ->
  all_digits h = true -> all_digits mi = true -> all_digits s = true ->
  let value := (y ++ mo ++ d ++ ["-"%char] ++ h ++ [":"%char] ++ mi ++ [":"%char] ++ s) ++ rest in
  digits_at value 0 8 = true /\ at_ value 8 = "-"%char /\ digits_at value 9 2 = true /\
  at_ value 11 = ":"%char /\ digits_at value 12 2 = true /\ at_ value 14 = ":"%char /\
  digits_at value 15 2 = true /\
  number_at value 0 4 = dec y /\ number_at value 4 2 = dec mo /\ number_at value 6 2 = dec d /\
  number_at value 9 2 = dec h /\ number_at value 12 2 = dec mi /\ number_at value 15 2 = dec s /\
  drop 17 value = rest /\ length value = (17 + length rest)%nat.
Proof.
  intros Ly Lmo Ld Lh Lmi Ls Dy Dmo Dd Dh Dmi Ds value. subst value.
  explode y Ly. explode mo Lmo. explode d Ld. explode h Lh. explode mi Lmi. explode s Ls.
  unfold digits_at, number_at, substr, at_. cbn [app drop take nth length].
  unfold all_digits in *. cbn [forallb] in *. rewrite !andb_true_r, ?andb_true_iff in *.
  destruct_and?. rewrite !drop_0. repeat split; done.
Qed.

Lemma DateTime_fraction_fields y mo d h mi s f p t :
  0 <= p <= 9 -> 0 <= f < 10 ^ p -> julianDate y mo d = m_date t ->
  makeHMS h mi s (f * precision_factor p) = m_time t - m_time t mod precision_factor p ->
  DateTime_fraction y mo d h mi s f p = truncate t p.
Proof.
  intros Hp Hf Hj Ht. unfold DateTime_fraction, truncate.
  by rewrite convertToNanos_small, Hj, Ht.
Qed.

Lemma DateTime_millis_zero y mo d h mi s : DateTime_millis y mo d h mi s 0 = DateTime_fraction y mo d h mi s 0 0.
Proof. done. Qed.

(** The text of a timestamp: its columns, and what [getYMD] and [getHMS] put in
    them. *)
Lemma timestamp_encode t p :
  valid_time t -> -32044 <= m_date t -> 0 <= getYear t <= 9999 -> 0 <= p <= 9 ->
  exists y mo d h mi s rest,
    UtcTimeStampConvertor_convert t p =
      Ok ((y ++ mo ++ d ++ ["-"%char] ++ h ++ [":"%char] ++ mi ++ [":"%char] ++ s) ++ rest) /\
    (length y = 4 /\ length mo = 2 /\ length d = 2 /\ length h = 2 /\ length mi = 2 /\ length s = 2)%nat /\
    all_digits y = true /\ all_digits mo = true /\ all_digits d = true /\
    all_digits h = true /\ all_digits mi = true /\ all_digits s = true /\
    1 <= dec mo <= 12 /\ 1 <= dec d <= 31 /\ dec h <= 23 /\ dec mi <= 59 /\ dec s <= 59 /\
    exists f, 0 <= f < 10 ^ p /\
      DateTime_fraction (dec y) (dec mo) (dec d) (dec h) (dec mi) (dec s) f p = truncate t p /\
      (p = 0 /\ rest = [] /\ f = 0 \/
       exists fs, 1 <= p /\ rest = "."%char :: fs /\ length fs = Z.to_nat p /\ all_digits fs = true /\ dec fs = f).
Proof.
  intros Ht Hd Hy Hp.
  unfold UtcTimeStampConvertor_convert.
  assert (clamp_of p 0 9 = p) as -> by (unfold clamp_of; repeat case_bool; lia).
  pose proof (getYMD_valid t Hd) as HYMD. unfold getYear in Hy.
  destruct (getYMD t) as [[yy mm] dd]. simpl in Hy. destruct HYMD as (Hm & Hdd & HJ).
  rewrite getHMS_spec by done.
  destruct (time_of_day_fields t p Ht Hp) as (Hh & Hmi & Hs & Hf & HT & H0).
  destruct (columns_spec 4 yy) as (y & -> & Ly & Dy & Vy); [lia | lia | lia |].
  destruct (columns_spec 2 mm) as (mo & -> & Lmo & Dmo & Vmo); [lia | lia | lia |].
  destruct (columns_spec 2 dd) as (d & -> & Ld & Dd & Vd); [lia | lia | lia |].
  destruct (columns_spec 2 (m_time t / NANOS_PER_SEC / 3600)) as (h & -> & Lh & Dh & Vh); [lia | lia | lia |].
  destruct (columns_spec 2 ((m_time t / NANOS_PER_SEC / 60) mod 60)) as (mi & -> & Lmi & Dmi & Vmi); [lia | lia | lia |].
  destruct (columns_spec 2 ((m_time t / NANOS_PER_SEC) mod 60)) as (s & -> & Ls & Ds & Vs); [lia | lia | lia |].
  set (f := (m_time t mod NANOS_PER_SEC) / precision_factor p) in *.
  cbn [mbind result_bind].
  assert (DateTime_fraction (dec y) (dec mo) (dec d) (dec h) (dec mi) (dec s) f p = truncate t p) as HF.
  { rewrite Vy, Vmo, Vd, Vh, Vmi, Vs. by apply DateTime_fraction_fields. }
  destruct (Z.eqb_spec p 0) as [E|E].
  - exists y, mo, d, h, mi, s, []. rewrite app_nil_r.
    split_and!; try done; try lia. exists f. auto 10.
  - destruct (columns_spec (Z.to_nat p) f) as (fs & -> & Lf & Df & Vf); [lia | lia | rewrite Z2Nat.id by lia; lia |].
    exists y, mo, d, h, mi, s, ("."%char :: fs).
    split_and!; try done; try lia. exists f. split_and!; [lia | lia | done |].
    right. exists fs. split_and!; done || lia.
Qed.

Lemma timestamp_decode_encode t p :
  valid_time t -> -32044 <= m_date t -> 0 <= getYear t <= 9999 ->
  UtcTimeStampConvertor_convert t p ≫= UtcTimeStampConvertor_of_string = Ok (truncate t (clamp_of p 0 9)).
Proof.
  intros Ht Hd Hy.
  assert (UtcTimeStampConvertor_convert t p = UtcTimeStampConvertor_convert t (clamp_of p 0 9)) as ->.
  { unfold UtcTimeStampConvertor_convert.
    assert (clamp_of (clamp_of p 0 9) 0 9 = clamp_of p 0 9) as -> by (unfold clamp_of; repeat case_bool; lia). done. }
  pose proof (clamp_of_range p 0 9 ltac:(lia)) as Hp. revert Hp. generalize (clamp_of p 0 9). clear p. intros p Hp.
  destruct (timestamp_encode t p Ht Hd Hy Hp)
    as (y & mo & d & h & mi & s & rest & -> & (Ly & Lmo & Ld & Lh & Lmi & Ls) & Dy & Dmo & Dd & Dh & Dmi & Ds &
        Rmo & Rd & Rh & Rmi & Rs & f & Hf & HT & Hrest).
  destruct (timestamp_decode_head y mo d h mi s rest Ly Lmo Ld Lh Lmi Ls Dy Dmo Dd Dh Dmi Ds)
    as (E1 & E2 & E3 & E4 & E5 & E6 & E7 & E8 & E9 & E10 & E11 & E12 & E13 & E14 & E15).
  cbn [mbind result_bind]. unfold UtcTimeStampConvertor_of_string.
  set (value := (y ++ _) ++ rest) in *.
  assert (length rest <= 10)%nat as Lr.
  { destruct Hrest as [(_ & -> & _) | (fs & ? & -> & Hl & _)]; simpl; lia. }
  rewrite E1, E2, E3, E4, E5, E6, E7, E8, E9, E10, E11, E12, E13.
  pass_guard ltac:(rewrite E15; apply negb_true_iff, orb_false_iff; rewrite !Nat.ltb_ge; lia).
  do 7 (pass_guard ltac:(done || by apply bool_decide_eq_true)).
  pass_guard ltac:(apply negb_true_iff, orb_false_iff; rewrite !Z.ltb_ge; lia).
  pass_guard ltac:(apply negb_true_iff, orb_false_iff; rewrite !Z.ltb_ge; lia).
  do 3 (pass_guard ltac:(apply negb_true_iff; rewrite Z.ltb_ge; lia)).
  rewrite E15.
  destruct Hrest as [(-> & -> & ->) | (fs & H1 & -> & Hl & Hdf & Hvf)].
  - simpl. by rewrite DateTime_millis_zero, HT.
  - replace ((17 + length ("."%char :: fs) =? 17)%nat) with false by (simpl; by destruct (length fs)).
    pose proof E14 as E14'. apply (f_equal (drop 1)) in E14'. rewrite drop_drop in E14'. simpl in E14'. rewrite drop_0 in E14'.
    assert (at_ value 17 = "."%char) as E16.
    { unfold at_. rewrite <- (take_drop 17 value), E14. rewrite app_nth2; rewrite length_take, E15; [|lia].
      replace (17 - _)%nat with 0%nat by lia. done. }
    rewrite E16. pass_guard ltac:(by apply bool_decide_eq_true).
    rewrite E14'. pass_guard ltac:(done).
    rewrite fraction_of_dec, Hvf by (done || lia).
    replace (Z.of_nat (17 + length ("."%char :: fs)) - 17 - 1) with p by (simpl length; lia).
    by rewrite HT.
Qed.

(** Without fraction digits, the text is 17 characters, none of them white
    space or null, and stays the same when the fraction is dropped. *)
Lemma timestamp_text t :
  valid_time t -> -32044 <= m_date t -> 0 <= getYear t <= 9999 ->
  exists s, UtcTimeStampConvertor_convert t 0 = Ok s /\ length s = 17%nat /\
    Forall (fun c => IS_DIGIT c = true \/ c = "-"%char \/ c = ":"%char) s /\
    UtcTimeStampConvertor_convert (truncate t 0) 0 = Ok s.
Proof.
  intros Ht Hd Hy.
  destruct (timestamp_encode t 0 Ht Hd Hy ltac:(lia))
    as (y & mo & d & h & mi & s & rest & E & (Ly & Lmo & Ld & Lh & Lmi & Ls) & Dy & Dmo & Dd & Dh & Dmi & Ds &
        _ & _ & _ & _ & _ & f & _ & _ & Hrest).
  destruct Hrest as [(_ & -> & _) | (fs & ? & _)]; [|lia]. rewrite app_nil_r in E. eexists. split_and!; [exact E | | |].
  - rewrite !length_app. simpl. lia.
  - assert (forall w, all_digits w = true -> Forall (fun c => IS_DIGIT c = true \/ c = "-"%char \/ c = ":"%char) w) as Hw.
    { intros w Hw. apply Forall_forall. intros c Hc. left. unfold all_digits in Hw. rewrite forallb_forall in Hw.
      apply Hw. by apply list_elem_of_In. }
    repeat apply Forall_app_2; auto; repeat constructor; auto.
  - rewrite <- E. unfold UtcTimeStampConvertor_convert.
    assert (getYMD (truncate t 0) = getYMD t) as -> by done.
    assert (valid_time (truncate t 0)) as Ht'.
    { unfold valid_time in *. cbn [m_time truncate]. change (precision_factor 0) with NANOS_PER_SEC.
      unfold NANOS_PER_DAY, NANOS_PER_SEC in *. Z.div_mod_to_equations. lia. }
    rewrite !getHMS_spec by (done || (unfold clamp_of; simpl; lia)).
    assert (m_time (truncate t 0) / NANOS_PER_SEC = m_time t / NANOS_PER_SEC) as ->.
    { cbn [m_time truncate]. change (precision_factor 0) with NANOS_PER_SEC. unfold NANOS_PER_SEC.
      Z.div_mod_to_equations. lia. }
    destruct (getYMD t) as [[? ?] ?]. done.
Qed.

(** A timestamp that is printed with a precision of 0 to 9 fractional digits
    (other values are clamped) and parsed back is the instant cut to that
    precision, for every Julian day whose year has four digits and every time of
    day. *)
Theorem timestamp_roundtrip t p :
  valid_time t -> -32044 <= m_date t -> 0 <= getYear t <= 9999 ->
  UtcTimeStampConvertor_convert t p ≫= UtcTimeStampConvertor_of_string = Ok (truncate t (clamp_of p 0 9)).
Proof. apply timestamp_decode_encode. Qed.

Lemma timestamp_roundtrip_witness :
  let t := DateTime_fraction 2024 2 29 23 59 58 987654321 9 in
  UtcTimeStampConvertor_convert t 3 ≫= UtcTimeStampConvertor_of_string = Ok (truncate t 3).
Proof.
  exact (timestamp_roundtrip (DateTime_fraction 2024 2 29 23 59 58 987654321 9) 3
    ltac:(unfold valid_time; vm_compute; split; [discriminate | reflexivity]) ltac:(vm_compute; discriminate)
    ltac:(vm_compute; split; discriminate)).
Defined.
