(* ===== verification/TimeRange.v ===== *)
(** * Session schedules ([src/C++/TimeRange.h], [src/C++/TimeRange.cpp])

    When a session is active: a daily range (both days negative) or a weekly
    one. [time_localtime] is the C library's [localtime_r]. *)
From S2P Require Import Prelude DateTime.

Record TimeRange := mkTimeRange {
  m_startTime : DateTime;
  m_endTime : DateTime;
  m_startDay : Z;
  m_endDay : Z;
  m_useLocalTime : bool }.

(** Both constructors. *)
Definition new_TimeRange (startTime endTime : DateTime) (startDay endDay : Z) (useLocalTime : bool) : TimeRange :=
  let collapse := (0 <? startDay) && (0 <? endDay) && (startDay =? endDay) && dt_gt endTime startTime in
  mkTimeRange (UtcTimeOnly_of startTime)
    (if collapse then UtcTimeOnly_of startTime else UtcTimeOnly_of endTime) startDay endDay useLocalTime.

Definition getRangeStartDate (time : DateTime) (startDay : Z) (startTime : DateTime) : Z :=
  if startDay <? getWeekDay time then getJulianDate time - getWeekDay time + startDay
  else if getWeekDay time <? startDay then getJulianDate time - getWeekDay time + startDay - 7
  else if dt_ge (UtcTimeOnly_of time) (UtcTimeOnly_of startTime) then getJulianDate time
  else getJulianDate time - 7.

Definition isInRange_daily (start end_ time : DateTime) : bool :=
  let timeOnly := UtcTimeOnly_of time in
  if dt_lt start end_ then dt_ge timeOnly start && dt_le timeOnly end_
  else dt_ge timeOnly start || dt_le timeOnly end_.

Definition isInRange_weekly (startTime endTime : DateTime) (startDay endDay : Z) (time : DateTime) (day : Z) : bool :=
  let timeOnly := UtcTimeOnly_of time in
  if startDay =? endDay then
    if negb (day =? startDay) then true else isInRange_daily startTime endTime time
  else if startDay <? endDay then
    if (day <? startDay) || (endDay <? day) then false
    else if (day =? startDay) && dt_lt timeOnly startTime then false
    else if (day =? endDay) && dt_gt timeOnly endTime then false
    else true
  else
    if (day <? startDay) && (endDay <? day) then false
    else if (day =? startDay) && dt_lt timeOnly startTime then false
    else if (day =? endDay) && dt_gt timeOnly endTime then false
    else true.

Definition isInSameRange_daily (start end_ time1 time2 : DateTime) : bool :=
  if negb (isInRange_daily start end_ time1) then false
  else if negb (isInRange_daily start end_ time2) then false
  else if dt_eq time1 time2 then true
  else if dt_lt start end_ || dt_eq start end_ then dt_eq (UtcDate_of time1) (UtcDate_of time2)
  else
    let sessionLength := i32 (SECONDS_PER_DAY - dt_sub start end_) in
    if dt_gt time1 time2 then
      let delta := dt_sub (UtcTimeOnly_of time2) start in
      let delta := if delta <? 0 then SECONDS_PER_DAY - Z.abs delta else delta in
      dt_sub time1 time2 <? sessionLength - delta
    else dt_sub time2 time1 <? sessionLength.

Definition isInSameRange_weekly (startTime endTime : DateTime) (startDay endDay : Z) (time1 time2 : DateTime) : bool :=
  if negb (isInRange_weekly startTime endTime startDay endDay time1 (getWeekDay time1)) then false
  else if negb (isInRange_weekly startTime endTime startDay endDay time2 (getWeekDay time2)) then false
  else if negb (startDay =? endDay) then
    getRangeStartDate time1 startDay startTime =? getRangeStartDate time2 startDay startTime
  else
    let day1 := getJulianDate time1 in
    let day2 := getJulianDate time2 in
    if (getJulianDate time1 =? getJulianDate time2) && (startDay =? getWeekDay time1) then
      let bothBeforeEndOfRange :=
        dt_le (UtcTimeOnly_of time1) (UtcTimeOnly_of endTime) && dt_le (UtcTimeOnly_of time2) (UtcTimeOnly_of endTime) in
      let bothAfterStartOfRange :=
        dt_ge (UtcTimeOnly_of time1) (UtcTimeOnly_of startTime) && dt_ge (UtcTimeOnly_of time2) (UtcTimeOnly_of startTime) in
      bothBeforeEndOfRange || bothAfterStartOfRange
    else if (day1 =? day2) && negb (startDay =? getWeekDay time1) then true
    else if 7 <? Z.abs (day1 - day2) then false
    else if Z.abs (day1 - day2) =? 7 then
      if negb (getWeekDay time1 =? startDay) then false
      else
        let '(earlierTime, laterTime) := if day1 <? day2 then (time1, time2) else (time2, time1) in
        dt_ge (UtcTimeOnly_of earlierTime) (UtcTimeOnly_of startTime) &&
        dt_le (UtcTimeOnly_of laterTime) (UtcTimeOnly_of endTime)
    else getRangeStartDate time1 startDay startTime =? getRangeStartDate time2 startDay startTime.

(** ** The methods *)

Definition isInRange_day (r : TimeRange) (dateTime : DateTime) (day : Z) : bool :=
  if (m_startDay r <? 0) && (m_endDay r <? 0) then isInRange_daily (m_startTime r) (m_endTime r) dateTime
  else isInRange_weekly (m_startTime r) (m_endTime r) (m_startDay r) (m_endDay r) dateTime day.

Definition isInSameRange_times (r : TimeRange) (time1 time2 : DateTime) : bool :=
  if (m_startDay r <? 0) && (m_endDay r <? 0) then isInSameRange_daily (m_startTime r) (m_endTime r) time1 time2
  else isInSameRange_weekly (m_startTime r) (m_endTime r) (m_startDay r) (m_endDay r) time1 time2.

Section Local.
Variable time_localtime : Z -> tm.

(** [LocalTimeStamp(dateTime.getTimeT())]. *)
Definition LocalTimeStamp_of (t : DateTime) : DateTime := fromLocalTimeT time_localtime (getTimeT t) 0.

(** [UtcTimeStamp(dateTime.getTimeT())]. *)
Definition UtcTimeStamp_of (t : DateTime) : DateTime := fromUtcTimeT (getTimeT t) 0.

(** [isInRange(const UtcTimeStamp &)]. *)
Definition isInRange (r : TimeRange) (dateTime : DateTime) : bool :=
  if m_useLocalTime r then
    let localDateTime := LocalTimeStamp_of dateTime in
    isInRange_day r localDateTime (getWeekDay localDateTime)
  else isInRange_day r dateTime (getWeekDay dateTime).

(** [isInRange(const LocalTimeStamp &)]. *)
Definition isInRange_local (r : TimeRange) (dateTime : DateTime) : bool :=
  if negb (m_useLocalTime r) then
    let utcDateTime := LocalTimeStamp_of dateTime in
    isInRange_day r utcDateTime (getWeekDay utcDateTime)
  else isInRange_day r dateTime (getWeekDay dateTime).

(** [isInSameRange(const UtcTimeStamp &, const UtcTimeStamp &)]. *)
Definition isInSameRange (r : TimeRange) (time1 time2 : DateTime) : bool :=
  if m_useLocalTime r then isInSameRange_times r (LocalTimeStamp_of time1) (LocalTimeStamp_of time2)
  else isInSameRange_times r time1 time2.

(** [isInSameRange(const LocalTimeStamp &, const LocalTimeStamp &)]. *)
Definition isInSameRange_local (r : TimeRange) (time1 time2 : DateTime) : bool :=
  if negb (m_useLocalTime r) then isInSameRange_times r (UtcTimeStamp_of time1) (UtcTimeStamp_of time2)
  else isInSameRange_times r time1 time2.
End Local.

(** ** Reference: the sessions of a schedule

    A schedule opens a session at [start] on every [session_day]; it closes
    [length] nanoseconds later. *)

Definition opening (start : DateTime) (r : Z) : Z := r * NANOS_PER_DAY + m_time start.

Definition contains (start : DateTime) (len : Z) (r : Z) (t : DateTime) : Prop :=
  opening start r <= nanos_of t <= opening start r + len.

(** A time of day. *)
Definition time_only (t : DateTime) : Prop := m_date t = 0 /\ valid_time t.

Definition weekly_length (start end_ : DateTime) (startDay endDay : Z) : Z :=
  (if startDay <? endDay then endDay - startDay else endDay - startDay + 7) * NANOS_PER_DAY + m_time end_ - m_time start.

Definition daily_length (start end_ : DateTime) : Z :=
  if m_time start <? m_time end_ then m_time end_ - m_time start
  else NANOS_PER_DAY + m_time end_ - m_time start.

(** The first Julian day on which [getWeekDay] is used in the proofs. *)
Definition after_year_zero (t : DateTime) : Prop := 1721120 <= m_date t.

#[export] Instance contains_dec start len r t : Decision (contains start len r t).
Proof. unfold contains. apply _. Defined.
#[export] Instance time_only_dec t : Decision (time_only t).
Proof. unfold time_only. apply _. Defined.
#[export] Instance after_year_zero_dec t : Decision (after_year_zero t).
Proof. unfold after_year_zero. apply _. Defined.

Lemma time_only_of t : valid_time t -> time_only (UtcTimeOnly_of t).
Proof. done. Qed.

Lemma nanos_of_time_only t : time_only t -> nanos_of t = m_time t.
Proof. unfold nanos_of. intros [-> _]. lia. Qed.

Lemma nanos_UtcTimeOnly t : nanos_of (UtcTimeOnly_of t) = m_time t.
Proof. unfold nanos_of, UtcTimeOnly_of, clearDate. simpl. lia. Qed.

(** Every comparison of the component, as a comparison of numbers. *)
Ltac compare_times :=
  repeat first
    [ rewrite dt_ge_spec in * by first [assumption | apply time_only_of; assumption]
    | rewrite dt_le_spec in * by first [assumption | apply time_only_of; assumption]
    | rewrite dt_lt_spec in * by first [assumption | apply time_only_of; assumption]
    | rewrite dt_gt_spec in * by first [assumption | apply time_only_of; assumption]
    | rewrite dt_eq_nanos in * by first [assumption | apply time_only_of; assumption] ];
  rewrite ?nanos_UtcTimeOnly in *.

Lemma isInRange_daily_eq start end_ time :
  time_only start -> time_only end_ -> valid_time time ->
  isInRange_daily start end_ time =
    if m_time start <? m_time end_ then (m_time start <=? m_time time) && (m_time time <=? m_time end_)
    else (m_time start <=? m_time time) || (m_time time <=? m_time end_).
Proof.
  intros Hs He Ht. unfold isInRange_daily. pose proof (proj2 Hs). pose proof (proj2 He).
  compare_times. by rewrite !nanos_of_time_only by done.
Qed.

(** ** Weekly schedules *)

(** The day of a Julian day number, as [getWeekDay] counts it: 1 is Sunday. *)
Definition weekday_of (jday : Z) : Z := (jday + 1) mod 7 + 1.

Lemma getWeekDay_of t : after_year_zero t -> getWeekDay t = weekday_of (m_date t).
Proof. apply getWeekDay_spec. Qed.

(** Unfolds instants into days and nanoseconds. *)
Ltac instants :=
  unfold contains, opening, nanos_of, weekly_length, daily_length, valid_time, getJulianDate, weekday_of, NANOS_PER_DAY in *.

Lemma getRangeStartDate_spec time startDay start :
  time_only start -> valid_time time -> after_year_zero time -> 1 <= startDay <= 7 ->
  let r := getRangeStartDate time startDay start in
  weekday_of r = startDay /\ opening start r <= nanos_of time < opening start (r + 7).
Proof.
  intros Hs Ht Ha Hd r. subst r. pose proof (proj2 Hs). unfold getRangeStartDate.
  rewrite getWeekDay_of by done. compare_times. instants.
  repeat case_bool; Z.div_mod_to_equations; lia.
Qed.

(** The sessions of a week do not overlap. *)
Lemma session_unique start startDay r1 r2 t :
  weekday_of r1 = startDay -> weekday_of r2 = startDay ->
  opening start r1 <= nanos_of t < opening start (r1 + 7) ->
  opening start r2 <= nanos_of t < opening start (r2 + 7) -> r1 = r2.
Proof. instants. intros. Z.div_mod_to_equations. lia. Qed.

Lemma weekly_length_bound start end_ startDay endDay :
  time_only start -> time_only end_ -> 1 <= startDay <= 7 -> 1 <= endDay <= 7 ->
  (startDay = endDay -> m_time end_ < m_time start) ->
  0 <= weekly_length start end_ startDay endDay < 7 * NANOS_PER_DAY.
Proof. intros [_ Hs] [_ He] Hd1 Hd2 Heq. instants. repeat case_bool; lia. Qed.

Lemma isInRange_weekly_eq start end_ startDay endDay time :
  time_only start -> time_only end_ -> valid_time time -> after_year_zero time ->
  1 <= startDay <= 7 -> 1 <= endDay <= 7 -> (startDay = endDay -> m_time end_ < m_time start) ->
  isInRange_weekly start end_ startDay endDay time (getWeekDay time) =
    (nanos_of time <=? opening start (getRangeStartDate time startDay start) + weekly_length start end_ startDay endDay).
Proof.
  intros Hs He Ht Ha Hd1 Hd2 Heq. pose proof (proj2 Hs). pose proof (proj2 He).
  apply eq_true_iff_eq. rewrite Z.leb_le. unfold isInRange_weekly, getRangeStartDate.
  rewrite isInRange_daily_eq, getWeekDay_of by done. compare_times.
  rewrite !(nanos_of_time_only start), !(nanos_of_time_only end_) by done.
  instants. set (w := (m_date time + 1) mod 7 + 1).
  assert (1 <= w <= 7) by (subst w; pose proof (Z.mod_pos_bound (m_date time + 1) 7); lia). clearbody w.
  destruct (Z.eqb_spec startDay endDay) as [E|E]; [specialize (Heq E) | clear Heq].
  all: destruct (Z.ltb_spec startDay endDay), (Z.ltb_spec w startDay), (Z.ltb_spec startDay w),
    (Z.eqb_spec w startDay); try lia.
  all: simpl; try (destruct (Z.ltb_spec endDay w), (Z.eqb_spec w endDay); try lia; simpl).
  all: repeat case_bool; rewrite ?orb_true_iff, ?andb_true_iff, ?Z.leb_le, ?Z.ltb_lt in *; lia.
Qed.

Lemma isInRange_weekly_session start end_ startDay endDay time :
  time_only start -> time_only end_ -> valid_time time -> after_year_zero time ->
  1 <= startDay <= 7 -> 1 <= endDay <= 7 -> (startDay = endDay -> m_time end_ < m_time start) ->
  isInRange_weekly start end_ startDay endDay time (getWeekDay time) = true <->
  contains start (weekly_length start end_ startDay endDay) (getRangeStartDate time startDay start) time.
Proof.
  intros Hs He Ht Ha Hd1 Hd2 Heq. rewrite isInRange_weekly_eq, Z.leb_le by done.
  pose proof (getRangeStartDate_spec time startDay start Hs Ht Ha Hd1) as [_ H]. unfold contains. lia.
Qed.

(** The session a time belongs to is the one [getRangeStartDate] finds. *)
Lemma contains_getRangeStartDate start end_ startDay endDay time r :
  time_only start -> time_only end_ -> valid_time time -> after_year_zero time ->
  1 <= startDay <= 7 -> 1 <= endDay <= 7 -> (startDay = endDay -> m_time end_ < m_time start) ->
  weekday_of r = startDay -> contains start (weekly_length start end_ startDay endDay) r time ->
  r = getRangeStartDate time startDay start.
Proof.
  intros Hs He Ht Ha Hd1 Hd2 Heq Hr Hc.
  pose proof (getRangeStartDate_spec time startDay start Hs Ht Ha Hd1) as [H1 H2].
  pose proof (weekly_length_bound start end_ startDay endDay Hs He Hd1 Hd2 Heq) as Hl.
  apply (session_unique start startDay r _ time); [done | done | | done].
  unfold contains in Hc. unfold opening in *. lia.
Qed.

(** Inside a session from [startDay] to [startDay], the weekday tells the first
    and last day from the others. *)
Lemma weekday_in_session start startDay endTime r t :
  time_only start -> endTime < m_time start -> valid_time t -> weekday_of r = startDay ->
  opening start r <= nanos_of t <= opening start r + (7 * NANOS_PER_DAY + endTime - m_time start) ->
  exists q, m_date t = r + q /\ 0 <= q <= 7 /\
    (startDay =? weekday_of (m_date t)) = ((q =? 0) || (q =? 7)).
Proof.
  intros [_ Hs] He Ht Hr Hc. exists (m_date t - r). split; [lia|].
  assert (0 <= m_date t - r <= 7) by (instants; lia). split; [done|].
  apply eq_true_iff_eq. rewrite orb_true_iff, !Z.eqb_eq. unfold weekday_of in *.
  clear Hc He. Z.div_mod_to_equations. lia.
Qed.

Lemma isInSameRange_weekly_eq start end_ startDay endDay t1 t2 :
  time_only start -> time_only end_ ->
  valid_time t1 -> after_year_zero t1 -> valid_time t2 -> after_year_zero t2 ->
  1 <= startDay <= 7 -> 1 <= endDay <= 7 -> (startDay = endDay -> m_time end_ < m_time start) ->
  isInSameRange_weekly start end_ startDay endDay t1 t2 =
    isInRange_weekly start end_ startDay endDay t1 (getWeekDay t1) &&
    isInRange_weekly start end_ startDay endDay t2 (getWeekDay t2) &&
    (getRangeStartDate t1 startDay start =? getRangeStartDate t2 startDay start).
Proof.
  intros Hs He Ht1 Ha1 Ht2 Ha2 Hd1 Hd2 Heq. unfold isInSameRange_weekly.
  destruct (isInRange_weekly start end_ startDay endDay t1 (getWeekDay t1)) eqn:R1; [|done].
  destruct (isInRange_weekly start end_ startDay endDay t2 (getWeekDay t2)) eqn:R2; [|done]. simpl.
  destruct (Z.eqb_spec startDay endDay) as [E|E]; [|done]. simpl.
  apply (isInRange_weekly_session start end_ startDay endDay t1 Hs He Ht1 Ha1 Hd1 Hd2 Heq) in R1.
  apply (isInRange_weekly_session start end_ startDay endDay t2 Hs He Ht2 Ha2 Hd1 Hd2 Heq) in R2.
  pose proof (getRangeStartDate_spec t1 startDay start Hs Ht1 Ha1 Hd1) as [D1 B1].
  pose proof (getRangeStartDate_spec t2 startDay start Hs Ht2 Ha2 Hd1) as [D2 B2].
  set (r1 := getRangeStartDate t1 startDay start) in *. set (r2 := getRangeStartDate t2 startDay start) in *.
  rewrite !getWeekDay_of by done. rewrite (Z.eqb_sym (weekday_of (m_date t1)) startDay).
  specialize (Heq E). subst endDay.
  pose proof (proj2 Hs). pose proof (proj2 He).
  apply eq_true_iff_eq. rewrite Z.eqb_eq. clearbody r1 r2.
  assert (weekly_length start end_ startDay startDay = 7 * NANOS_PER_DAY + m_time end_ - m_time start) as Hl.
  { unfold weekly_length. rewrite Z.ltb_irrefl. lia. }
  rewrite Hl in *. clear Hl.
  destruct (weekday_in_session start startDay _ r1 t1 Hs Heq Ht1 D1 R1) as (q1 & E1 & Q1 & ->).
  destruct (weekday_in_session start startDay _ r2 t2 Hs Heq Ht2 D2 R2) as (q2 & E2 & Q2 & _).
  assert (exists k, r1 = r2 + 7 * k) as [k ->].
  { exists ((r1 - r2) / 7). clear -D1 D2. instants. Z.div_mod_to_equations. lia. }
  compare_times. clear D1 D2. instants. simpl in *.
  destruct (Z.eqb_spec (m_date t1) (m_date t2)), (Z.eqb_spec q1 0), (Z.eqb_spec q1 7); try lia; simpl.
  all: repeat case_bool; compare_times; rewrite ?orb_true_iff, ?andb_true_iff, ?Z.leb_le; lia.
Qed.

(** [t] is in the session that opens on day [r]. *)
Definition weekly_session (start end_ : DateTime) (startDay endDay r : Z) (t : DateTime) : Prop :=
  weekday_of r = startDay /\ contains start (weekly_length start end_ startDay endDay) r t.

#[export] Instance weekly_session_dec start end_ startDay endDay r t :
  Decision (weekly_session start end_ startDay endDay r t).
Proof. unfold weekly_session. apply _. Defined.

(** In range and in the same range, where sessions do not touch. *)
Lemma weekly_iff start end_ startDay endDay t1 t2 :
  time_only start -> time_only end_ ->
  valid_time t1 -> after_year_zero t1 -> valid_time t2 -> after_year_zero t2 ->
  1 <= startDay <= 7 -> 1 <= endDay <= 7 -> (startDay = endDay -> m_time end_ < m_time start) ->
  let session := weekly_session start end_ startDay endDay in
  (isInRange_weekly start end_ startDay endDay t1 (getWeekDay t1) = true <-> exists r, session r t1) /\
  (isInSameRange_weekly start end_ startDay endDay t1 t2 = true <-> exists r, session r t1 /\ session r t2).
Proof.
  intros Hs He Ht1 Ha1 Ht2 Ha2 Hd1 Hd2 Heq session.
  rewrite isInSameRange_weekly_eq, !andb_true_iff, !isInRange_weekly_session, Z.eqb_eq by done.
  pose proof (getRangeStartDate_spec t1 startDay start Hs Ht1 Ha1 Hd1) as [D1 _].
  pose proof (fun t r => contains_getRangeStartDate start end_ startDay endDay t r Hs He) as Hu.
  split; (split; [intros H | intros [r H]]); subst session; unfold weekly_session in *.
  - eauto.
  - destruct H as [Hr Hc]. by rewrite <- (Hu t1 r).
  - destruct H as [[H1 H2] E]. rewrite <- E in H2. eauto 6.
  - destruct H as [[Hr Hc1] [_ Hc2]]. by rewrite <- (Hu t1 r), <- (Hu t2 r).
Qed.

(** *** A session of a whole week

    Where the session ends on its start day at its start time, one session begins
    when the one before ends, and that instant is in both. *)

Lemma isInRange_whole_week start end_ day time :
  time_only start -> time_only end_ -> valid_time time -> m_time end_ = m_time start ->
  isInRange_weekly start end_ day day time (getWeekDay time) = true.
Proof.
  intros Hs He Ht E. unfold isInRange_weekly. rewrite Z.eqb_refl. destruct (negb _); [done|].
  rewrite isInRange_daily_eq, E, Z.ltb_irrefl, orb_true_iff, !Z.leb_le by done. lia.
Qed.

Lemma whole_week_length start end_ day : m_time end_ = m_time start -> weekly_length start end_ day day = 7 * NANOS_PER_DAY.
Proof. intros E. unfold weekly_length. rewrite Z.ltb_irrefl, E. lia. Qed.

(** Two times of one week are in the same range, and times in the same range
    are in the week of the earlier one, or at its end. *)
Lemma isInSameRange_whole_week start end_ day t1 t2 (r1 := getRangeStartDate t1 day start) (r2 := getRangeStartDate t2 day start) :
  time_only start -> time_only end_ ->
  valid_time t1 -> after_year_zero t1 -> valid_time t2 -> after_year_zero t2 ->
  1 <= day <= 7 -> m_time end_ = m_time start ->
  (r1 = r2 -> isInSameRange_weekly start end_ day day t1 t2 = true) /\
  (isInSameRange_weekly start end_ day day t1 t2 = true ->
    contains start (7 * NANOS_PER_DAY) (Z.min r1 r2) t1 /\ contains start (7 * NANOS_PER_DAY) (Z.min r1 r2) t2).
Proof.
  intros Hs He Ht1 Ha1 Ht2 Ha2 Hd E. unfold isInSameRange_weekly. rewrite !isInRange_whole_week, Z.eqb_refl by done. simpl negb. cbn iota.
  pose proof (getRangeStartDate_spec t1 day start Hs Ht1 Ha1 Hd) as [D1 B1]. pose proof (getRangeStartDate_spec t2 day start Hs Ht2 Ha2 Hd) as [D2 B2].
  fold r1 in D1, B1 |- *. fold r2 in D2, B2 |- *. rewrite !getWeekDay_of by done. rewrite (Z.eqb_sym (weekday_of (m_date t1)) day).
  clearbody r1 r2. pose proof (proj2 Hs). pose proof (proj2 He).
  destruct (weekday_in_session start day (m_time start - 1) r1 t1 Hs ltac:(lia) Ht1 D1 ltac:(instants; lia)) as (q1 & E1 & Q1 & ->).
  destruct (weekday_in_session start day (m_time start - 1) r2 t2 Hs ltac:(lia) Ht2 D2 ltac:(instants; lia)) as (q2 & E2 & Q2 & _).
  assert (exists k, r1 = r2 + 7 * k) as [k ->].
  { exists ((r1 - r2) / 7). clear -D1 D2. instants. Z.div_mod_to_equations. lia. }
  compare_times. clear D1 D2. instants. simpl in *.
  destruct (Z.eqb_spec (m_date t1) (m_date t2)), (Z.eqb_spec q1 0), (Z.eqb_spec q1 7); try lia; simpl.
  all: repeat case_bool; compare_times; rewrite ?orb_true_iff, ?andb_true_iff, ?Z.leb_le; lia.
Qed.

(** *** Property *)

(** [t] comes before the next session opens. *)
Definition before_next (start : DateTime) (r : Z) (t : DateTime) : Prop := nanos_of t < opening start (r + 7).

#[export] Instance before_next_dec start r t : Decision (before_next start r t).
Proof. unfold before_next. apply _. Defined.

(** The constructor makes a session that would end later on its start day one of
    a whole week. *)
Lemma new_TimeRange_times st et startDay endDay local (r := new_TimeRange st et startDay endDay local) :
  time_only st -> time_only et -> 1 <= startDay <= 7 ->
  time_only (m_startTime r) /\ time_only (m_endTime r) /\ (startDay = endDay -> m_time (m_endTime r) <= m_time (m_startTime r)).
Proof.
  intros Hs He Hd. subst r. unfold new_TimeRange. cbn [m_startTime m_endTime].
  split_and!; [apply time_only_of, Hs | destruct (_ && _); [apply time_only_of, Hs | apply time_only_of, He]|].
  intros <-. rewrite (proj2 (Z.ltb_lt 0 startDay)), Z.eqb_refl by lia. cbn [andb]. destruct (dt_gt et st) eqn:E; [done|].
  pose proof (proj2 Hs). pose proof (proj2 He). compare_times. rewrite !nanos_of_time_only in E by done. cbn. lia.
Qed.

(** C39 A weekly schedule as sessions, whatever the constructor is given: a time is
    in range exactly when some session contains it, and two times are in the same
    range exactly when some session contains both, on every branch of
    [isInSameRange] (the same day, a week apart, and in between). In a schedule
    whose sessions last the whole week, which the constructor makes of one that ends
    on its start day at or after its start time, one session begins when the one before
    ends: two times that no later opening parts are in the same range, and times in
    the same range are in one session, ends included. *)
Theorem weekly_sessions st et startDay endDay local t1 t2 (r := new_TimeRange st et startDay endDay local) :
  time_only st -> time_only et ->
  valid_time t1 -> after_year_zero t1 -> valid_time t2 -> after_year_zero t2 ->
  1 <= startDay <= 7 -> 1 <= endDay <= 7 ->
  let session := weekly_session (m_startTime r) (m_endTime r) startDay endDay in
  let whole_week := startDay = endDay /\ m_time (m_endTime r) = m_time (m_startTime r) in
  (isInRange_day r t1 (getWeekDay t1) = true <-> exists d, session d t1) /\
  (~ whole_week -> isInSameRange_times r t1 t2 = true <-> exists d, session d t1 /\ session d t2) /\
  (whole_week ->
    ((exists d, (session d t1 /\ before_next (m_startTime r) d t1) /\ (session d t2 /\ before_next (m_startTime r) d t2)) -> isInSameRange_times r t1 t2 = true) /\
    (isInSameRange_times r t1 t2 = true -> exists d, session d t1 /\ session d t2)).
Proof.
  intros Hst Het Ht1 Ha1 Ht2 Ha2 Hd1 Hd2 session whole_week.
  destruct (new_TimeRange_times st et startDay endDay local Hst Het Hd1) as (Hs & He & Hle). fold r in Hs, He, Hle.
  unfold isInRange_day, isInSameRange_times. assert ((m_startDay r <? 0) && (m_endDay r <? 0) = false) as -> by (apply andb_false_iff; left; apply Z.ltb_ge; cbn; lia).
  change (m_startDay r) with startDay. change (m_endDay r) with endDay. clearbody r.
  set (start := m_startTime r) in *. set (end_ := m_endTime r) in *. clearbody start end_.
  assert (Decision whole_week) as [Hw|Hw] by (unfold whole_week; apply _).
  - destruct Hw as [E1 E2]. unfold whole_week. clear whole_week. subst endDay session. unfold weekly_session. rewrite (whole_week_length start end_ startDay E2).
    pose proof (getRangeStartDate_spec t1 startDay start Hs Ht1 Ha1 Hd1) as [D1 B1]. pose proof (getRangeStartDate_spec t2 startDay start Hs Ht2 Ha2 Hd1) as [D2 B2].
    destruct (isInSameRange_whole_week start end_ startDay t1 t2 Hs He Ht1 Ha1 Ht2 Ha2 Hd1 E2) as [S1 S2]. split_and!; [|tauto|intros _; split].
    + rewrite isInRange_whole_week by done. split; [intros _ | done]. eexists. split; [exact D1|]. unfold contains, opening in *. lia.
    + intros (d & [[W1 C1] N1] & [[_ C2] N2]). apply S1. unfold before_next, contains in *.
      transitivity d; [apply (session_unique start startDay _ _ t1) | apply (session_unique start startDay _ _ t2)]; done || lia.
    + intros [C1 C2]%S2. exists (Z.min (getRangeStartDate t1 startDay start) (getRangeStartDate t2 startDay start)).
      by destruct (Z.min_spec (getRangeStartDate t1 startDay start) (getRangeStartDate t2 startDay start)) as [[_ Em]|[_ Em]]; rewrite Em in *.
  - assert (startDay = endDay -> m_time end_ < m_time start) as Heq by (intros E; specialize (Hle E); unfold whole_week in Hw; assert (m_time end_ <> m_time start) by tauto; lia).
    destruct (weekly_iff start end_ startDay endDay t1 t2 Hs He Ht1 Ha1 Ht2 Ha2 Hd1 Hd2 Heq) as [R1 R2]. split_and!; [exact R1 | intros _; exact R2 | done].
Qed.

(** Monday 09:00 to Friday 17:00: Tuesday and Thursday of one week. And from
    Sunday to Sunday: a Saturday and the Sunday after. *)
Lemma weekly_sessions_witness :
  let start := UtcTimeOnly_millis 9 0 0 0 in
  let end_ := UtcTimeOnly_millis 17 0 0 0 in
  isInSameRange_times (new_TimeRange start end_ 2 6 false) (DateTime_millis 2024 3 5 12 0 0 0) (DateTime_millis 2024 3 7 12 0 0 0) = true /\
  isInSameRange_times (new_TimeRange start end_ 1 1 false) (DateTime_millis 2024 3 9 12 0 0 0) (DateTime_millis 2024 3 10 8 0 0 0) = true.
Proof.
  split.
  - destruct (weekly_sessions (UtcTimeOnly_millis 9 0 0 0) (UtcTimeOnly_millis 17 0 0 0) 2 6 false
             (DateTime_millis 2024 3 5 12 0 0 0) (DateTime_millis 2024 3 7 12 0 0 0)) as (_ & H & _); [by_compute || lia..|].
    apply H; [by intros [? _] | exists (m_date (DateTime_millis 2024 3 4 0 0 0 0)); by_compute].
  - destruct (weekly_sessions (UtcTimeOnly_millis 9 0 0 0) (UtcTimeOnly_millis 17 0 0 0) 1 1 false
             (DateTime_millis 2024 3 9 12 0 0 0) (DateTime_millis 2024 3 10 8 0 0 0)) as (_ & _ & H); [by_compute || lia..|].
    apply (H ltac:(by split; vm_compute)). exists (m_date (DateTime_millis 2024 3 3 0 0 0 0)). by_compute.
Defined.

(** ** Daily schedules *)

Lemma isInRange_daily_session start end_ t :
  time_only start -> time_only end_ -> valid_time t -> m_time start <> m_time end_ ->
  isInRange_daily start end_ t = true <->
  contains start (daily_length start end_) (if m_time start <=? m_time t then m_date t else m_date t - 1) t.
Proof.
  intros Hs He Ht Hne. rewrite isInRange_daily_eq by done. destruct Hs as [_ Hs], He as [_ He].
  instants. repeat case_bool; rewrite ?andb_true_iff, ?orb_true_iff, ?Z.leb_le; lia.
Qed.

(** The session of a time is unique. *)
Lemma daily_session_unique start end_ r t :
  time_only start -> time_only end_ -> valid_time t -> m_time start <> m_time end_ ->
  contains start (daily_length start end_) r t ->
  r = (if m_time start <=? m_time t then m_date t else m_date t - 1).
Proof.
  intros Hs He Ht Hne H. destruct Hs as [_ Hs], He as [_ He].
  instants. revert H. repeat case_bool; lia.
Qed.

(** A schedule is configured in whole seconds. *)
Definition whole_seconds (t : DateTime) : Prop := m_time t mod NANOS_PER_SEC = 0.

#[export] Instance whole_seconds_dec t : Decision (whole_seconds t).
Proof. unfold whole_seconds. apply _. Defined.

(** What [isInSameRange] compares for a range over midnight: the seconds left of
    the earlier time's session. *)
Lemma overnight_delta start end_ t1 t2 :
  time_only start -> time_only end_ -> whole_seconds start -> whole_seconds end_ ->
  valid_time t1 -> valid_time t2 -> m_time end_ < m_time start ->
  0 <= seconds_of t1 - seconds_of t2 < 2 ^ 31 ->
  let delta := dt_sub (UtcTimeOnly_of t2) start in
  let delta := if delta <? 0 then SECONDS_PER_DAY - Z.abs delta else delta in
  (dt_sub t1 t2 <? i32 (SECONDS_PER_DAY - dt_sub start end_) - delta) =
  (nanos_of t1 <? opening start (if m_time start <=? m_time t2 then m_date t2 else m_date t2 - 1)
                  + daily_length start end_).
Proof.
  intros [Ds Hs] [De He] Ws We Ht1 Ht2 Hlt Hb. cbv zeta.
  rewrite !dt_sub_spec by done.
  unfold seconds_of, UtcTimeOnly_of, clearDate, SECONDS_PER_DAY in *. simpl. rewrite Ds, De.
  unfold whole_seconds, NANOS_PER_SEC in *. instants.
  set (S1 := m_time t1 / 1000000000) in *. set (S2 := m_time t2 / 1000000000) in *.
  set (A := m_time start / 1000000000). set (B := m_time end_ / 1000000000).
  assert (m_time start = 1000000000 * A) as EA by (subst A; Z.div_mod_to_equations; lia).
  assert (m_time end_ = 1000000000 * B) as EB by (subst B; Z.div_mod_to_equations; lia).
  assert (1000000000 * S1 <= m_time t1 < 1000000000 * S1 + 1000000000) by (subst S1; Z.div_mod_to_equations; lia).
  assert (1000000000 * S2 <= m_time t2 < 1000000000 * S2 + 1000000000) by (subst S2; Z.div_mod_to_equations; lia).
  clearbody S1 S2 A B. rewrite EA, EB in *.
  rewrite !i32_small by (rewrite ?i32_small; lia).
  apply eq_true_iff_eq. rewrite !Z.ltb_lt. repeat case_bool; lia.
Qed.

(** The daily schedule as sessions, the second time not being later than the
    first: both are in the same range exactly when some session contains both
    and, for a session that runs over midnight, the later one is before its
    closing second or equal to the earlier one. *)
Theorem daily_sessions start end_ t1 t2 :
  time_only start -> time_only end_ -> whole_seconds start -> whole_seconds end_ ->
  valid_time t1 -> valid_time t2 -> m_time start <> m_time end_ ->
  nanos_of t2 <= nanos_of t1 -> seconds_of t1 - seconds_of t2 < 2 ^ 31 ->
  let len := daily_length start end_ in
  isInSameRange_daily start end_ t1 t2 = true <->
  exists r, contains start len r t1 /\ contains start len r t2 /\
    (m_time start < m_time end_ \/ t1 = t2 \/ nanos_of t1 < opening start r + len).
Proof.
  intros Hs He Ws We Ht1 Ht2 Hne Hle Hlt len. unfold isInSameRange_daily.
  pose proof (isInRange_daily_session start end_ t1 Hs He Ht1 Hne) as C1.
  pose proof (isInRange_daily_session start end_ t2 Hs He Ht2 Hne) as C2.
  pose proof (fun r => daily_session_unique start end_ r t1 Hs He Ht1 Hne) as U1.
  pose proof (fun r => daily_session_unique start end_ r t2 Hs He Ht2 Hne) as U2.
  fold len in C1, C2, U1, U2.
  destruct (isInRange_daily start end_ t1);
    [| split; [done|]; intros (r & H1 & _); apply C1; by rewrite <- (U1 _ H1)].
  destruct (isInRange_daily start end_ t2);
    [| split; [done|]; intros (r & _ & H2 & _); apply C2; by rewrite <- (U2 _ H2)].
  simpl. destruct C1 as [C1 _], C2 as [C2 _]. specialize (C1 eq_refl). specialize (C2 eq_refl).
  destruct (dt_eq t1 t2) eqn:E.
  { apply dt_eq_spec in E. subst t2. split; [intros _ | done]. eauto 6. }
  assert (t1 <> t2) as Hneq by (rewrite <- dt_eq_spec, E; done).
  assert (seconds_of t2 <= seconds_of t1) as Hsec.
  { unfold seconds_of, SECONDS_PER_DAY, NANOS_PER_SEC. clear -Hle Ht1 Ht2. instants. Z.div_mod_to_equations. lia. }
  pose proof (proj2 Hs) as Vs. pose proof (proj2 He) as Ve.
  rewrite dt_lt_spec, (dt_eq_nanos start end_), !nanos_of_time_only by done.
  destruct (Z.ltb_spec (m_time start) (m_time end_)) as [Hl|Hl]; simpl.
  - unfold dt_eq, UtcDate_of, clearTime. simpl. rewrite andb_true_r, Z.eqb_eq. split.
    + intros Ed. exists (m_date t1). split_and!; [| | by left].
      all: clear U1 U2; subst len; instants; repeat case_bool; revert C1 C2; repeat case_bool; lia.
    + intros (r & H1 & H2 & _). clear U1 U2 C1 C2. subst len. instants. revert H1 H2. case_bool; lia.
  - destruct (Z.eqb_spec (m_time start) (m_time end_)); [done|].
    rewrite dt_gt_spec by done.
    assert ((nanos_of t2 <? nanos_of t1) = true) as ->.
    { apply Z.ltb_lt. destruct (decide (nanos_of t2 = nanos_of t1)) as [E'|]; [|lia].
      rewrite dt_eq_nanos, Z.eqb_neq in E by done. lia. }
    rewrite overnight_delta by (done || lia). rewrite Z.ltb_lt. fold len. split.
    + intros H. eexists. split_and!; [| exact C2 | right; right; exact H].
      unfold contains in *. lia.
    + intros (r & H1 & H2 & Hr). rewrite <- (U2 _ H2). destruct Hr as [Hr|[Hr|Hr]]; [lia | done | done].
Qed.

(** 22:00 to 06:00; 23:00 and 05:00 of the next day. *)
Lemma daily_sessions_witness :
  isInSameRange_daily (UtcTimeOnly_millis 22 0 0 0) (UtcTimeOnly_millis 6 0 0 0)
    (DateTime_millis 2024 3 6 5 0 0 0) (DateTime_millis 2024 3 5 23 0 0 0) = true.
Proof.
  apply (daily_sessions (UtcTimeOnly_millis 22 0 0 0) (UtcTimeOnly_millis 6 0 0 0)
           (DateTime_millis 2024 3 6 5 0 0 0) (DateTime_millis 2024 3 5 23 0 0 0));
    first [by_compute | exists (m_date (DateTime_millis 2024 3 5 0 0 0 0)); by_compute].
Defined.

(** Outside of that case the two arguments are not interchangeable: with a range
    08:00 to 06:00, 05:00 and 09:00 of one day are in different sessions, and
    [isInSameRange] says so only when the later one comes first. *)
Lemma daily_same_range_asymmetric :
  let start := UtcTimeOnly_millis 8 0 0 0 in
  let end_ := UtcTimeOnly_millis 6 0 0 0 in
  let t1 := DateTime_millis 2024 3 5 5 0 0 0 in
  let t2 := DateTime_millis 2024 3 5 9 0 0 0 in
  isInSameRange_daily start end_ t2 t1 = false /\ isInSameRange_daily start end_ t1 t2 = true.
Proof. split; vm_compute; reflexivity. Qed.
