(* ===== verification/MessageSorters.v ===== *)
(** * Field orders ([src/C++/MessageSorters.h], [src/C++/MessageSorters.cpp])

    The comparators of header, trailer, body and repeating group fields, with
    both forms of a group's position table: the array indexed by field number
    and the open-addressed table of (field, position) pairs. *)
From S2P Require Import Prelude Values.

Definition header_position (field : Z) : Z :=
  if field =? FIELD.BeginString then 1
  else if field =? FIELD.BodyLength then 2
  else if field =? FIELD.MsgType then 3
  else 0.

Definition header_compare (x y : Z) : bool :=
  let orderedX := header_position x in
  let orderedY := header_position y in
  if negb (orderedX =? 0) && negb (orderedY =? 0) then orderedX <? orderedY
  else if negb (orderedX =? 0) then true
  else if negb (orderedY =? 0) then false
  else x <? y.

Definition trailer_position (field : Z) : Z :=
  if field =? FIELD.SignatureLength then 1
  else if field =? FIELD.Signature then 2
  else 0.

Definition trailer_compare (x y : Z) : bool :=
  if x =? FIELD.CheckSum then false
  else if y =? FIELD.CheckSum then true
  else
    let orderedX := trailer_position x in
    let orderedY := trailer_position y in
    if negb (orderedX =? 0) && negb (orderedY =? 0) then orderedX <? orderedY
    else if negb (orderedX =? 0) then true
    else if negb (orderedY =? 0) then false
    else x <? y.

(** [group_order::compare], on an array of positions. *)
Definition group_order_compare (x y : Z) (order : Z -> Z) (largest : Z) : bool :=
  if (x <=? largest) && (y <=? largest) then
    let iX := order x in
    let iY := order y in
    if (iX =? 0) && (iY =? 0) then x <? y
    else if iX =? 0 then false
    else if iY =? 0 then true
    else iX <? iY
  else if x <=? largest then true
  else if y <=? largest then false
  else x <? y.

(** ** Message orders *)

Inductive cmp_mode := header | trailer | normal | group.

#[export] Instance cmp_mode_eq_dec : EqDecision cmp_mode.
Proof. solve_decision. Defined.

Record message_order := mkMessageOrder {
  m_mode : cmp_mode;
  m_delim : Z;
  m_groupOrder : list Z;
  m_mask : Z }.

(** [message_order(cmp_mode mode)]. *)
Definition new_message_order (mode : cmp_mode) : message_order :=
  mkMessageOrder (if bool_decide (mode = group) then normal else mode) 0 [] 0.

(** [array[i]] and [array[i] = v], inside the array. *)
Definition get_at (array : list Z) (i : Z) : Z := nth (Z.to_nat i) array 0.
Definition set_at (array : list Z) (i v : Z) : list Z := <[Z.to_nat i := v]> array.

Definition slotOf (field : Z) : Z :=
  let product := u64 (u32 field * 0x9E3779B97F4A7C15) in
  u32 (Z.shiftr product 32).

(** The insertion loop: the first slot, from [slot] on, that is empty or holds
    [field]. The table is never full, so as many steps as slots are enough. *)
Fixpoint seek (fuel : nat) (table : list Z) (mask slot field : Z) : option Z :=
  match fuel with
  | O => None
  | S fuel =>
      if negb (get_at table (2 * slot) =? 0) && negb (get_at table (2 * slot) =? field)
      then seek fuel table mask (Z.land (slot + 1) mask) field
      else Some slot
  end.

(** [while (slots < 2 * size) slots *= 2;] *)
Fixpoint double_slots (fuel : nat) (slots size : Z) : Z :=
  match fuel with
  | O => slots
  | S fuel => if slots <? 2 * size then double_slots fuel (slots * 2) size else slots
  end.

(** The array of positions. *)
Fixpoint fill_array (positions : list Z) (order : list Z) (i : Z) : list Z :=
  match order with
  | [] => positions
  | field :: order =>
      fill_array (if 0 <? field then set_at positions field (i + 1) else positions) order (i + 1)
  end.

(** The table of pairs. *)
Fixpoint fill_table (table : list Z) (mask : Z) (order : list Z) (i : Z) : option (list Z) :=
  match order with
  | [] => Some table
  | field :: order =>
      if field <=? 0 then fill_table table mask order (i + 1)
      else
        slot ← seek (Z.to_nat (mask + 1)) table mask (Z.land (slotOf field) mask) field;
        fill_table (set_at (set_at table (2 * slot) field) (2 * slot + 1) (i + 1)) mask order (i + 1)
  end.

Definition largest_of (order : list Z) : Z := fold_left Z.max order 0.

(** [setOrder(order, size)] on a [message_order] of mode [group]; [None] would be
    an insertion that finds no slot. *)
Definition setOrder (order : list Z) : option message_order :=
  let size := Z.of_nat (length order) in
  if size <? 1 then Some (mkMessageOrder normal 0 [] 0)
  else
    let m_delim := nth 0 order 0 in
    let largest := largest_of order in
    let slots := double_slots (2 * length order) 4 size in
    if largest + 1 <=? 16 * slots then
      Some (mkMessageOrder group m_delim
        (fill_array (replicate (Z.to_nat (largest + 1)) 0) order 0) (Z.lnot largest))
    else
      let m_mask := slots - 1 in
      table ← fill_table (replicate (Z.to_nat (2 * slots)) 0) m_mask order 0;
      Some (mkMessageOrder group m_delim table m_mask).

(** [message_order(const int order[])] and [message_order(int first, ...)]: the
    fields before the first zero. *)
Fixpoint before_zero (order : list Z) : list Z :=
  match order with
  | [] => []
  | f :: order => if f =? 0 then [] else f :: before_zero order
  end.

Definition message_order_of (order : list Z) : option message_order := setOrder (before_zero order).

Fixpoint probe_loop (fuel : nat) (table : list Z) (mask slot field : Z) : option Z :=
  match fuel with
  | O => None
  | S fuel =>
      let key := get_at table (2 * slot) in
      if key =? field then Some (get_at table (2 * slot + 1))
      else if key =? 0 then Some 0
      else probe_loop fuel table mask (Z.land (slot + 1) mask) field
  end.

Definition probe (o : message_order) (field : Z) : option Z :=
  probe_loop (Z.to_nat (m_mask o + 1)) (m_groupOrder o) (m_mask o) (Z.land (slotOf field) (m_mask o)) field.

(** A probe that never ends has no position; [position_spec] shows that every
    order [setOrder] builds answers. *)
Definition position (o : message_order) (field : Z) : Z :=
  if m_mask o <? 0 then
    if u32 field <=? u32 (Z.lnot (m_mask o)) then get_at (m_groupOrder o) field else 0
  else default 0 (probe o field).

Definition groupCompare (o : message_order) (x y : Z) : bool :=
  let positionX := position o x in
  let positionY := position o y in
  if negb (positionX =? 0) && negb (positionY =? 0) then positionX <? positionY
  else if negb (positionX =? 0) then true
  else if negb (positionY =? 0) then false
  else x <? y.

(** [operator()(x, y)]. *)
Definition less (o : message_order) (x y : Z) : bool :=
  match m_mode o with
  | header => header_compare x y
  | trailer => trailer_compare x y
  | group => groupCompare o x y
  | normal => x <? y
  end.

(** [operator bool]. *)
Definition has_order (o : message_order) : bool := match m_groupOrder o with [] => false | _ => true end.

(** ** Reference: the position an order gives a field

    Counting from 1, the last place that names it; 0 when no place does. *)
Fixpoint last_position (order : list Z) (i : Z) (field : Z) : Z :=
  match order with
  | [] => 0
  | f :: order =>
      let later := last_position order (i + 1) field in
      if negb (later =? 0) then later else if (f =? field) && (0 <? f) then i + 1 else 0
  end.

Lemma last_position_range order i field :
  0 <= i -> last_position order i field = 0 \/ i < last_position order i field <= i + Z.of_nat (length order).
Proof.
  revert i. induction order as [|f order IH]; intros i Hi; simpl; [lia|].
  destruct (IH (i + 1)) as [-> | H]; [lia | simpl; case_match; lia |].
  destruct (Z.eqb_spec (last_position order (i + 1) field) 0); simpl; [lia | lia].
Qed.

Lemma last_position_app order f i field :
  0 <= i ->
  last_position (order ++ [f]) i field =
    if (f =? field) && (0 <? f) then i + Z.of_nat (length order) + 1 else last_position order i field.
Proof.
  revert i. induction order as [|g order IH]; intros i Hi; simpl.
  - destruct ((f =? field) && (0 <? f)); simpl; lia.
  - rewrite IH by lia. destruct ((f =? field) && (0 <? f)); [|done].
    destruct (Z.eqb_spec (i + 1 + Z.of_nat (length order) + 1) 0); simpl negb; cbn iota; lia.
Qed.

(** Two fields never share a position. *)
Lemma last_position_inj order i x y :
  0 <= i -> last_position order i x = last_position order i y -> last_position order i x <> 0 -> x = y.
Proof.
  revert i. induction order as [|f order IH]; intros i Hi; simpl; [done|].
  pose proof (last_position_range order (i + 1) x ltac:(lia)).
  pose proof (last_position_range order (i + 1) y ltac:(lia)).
  destruct (Z.eqb_spec (last_position order (i + 1) x) 0), (Z.eqb_spec (last_position order (i + 1) y) 0); simpl.
  - destruct (Z.eqb_spec f x), (Z.eqb_spec f y); simpl; destruct (0 <? f); lia.
  - destruct (_ && _); lia.
  - destruct (_ && _); lia.
  - intros E Hne. apply (IH (i + 1)); [lia | done | done].
Qed.

(** ** Open addressing *)

Lemma filter_Forall {A} (P : A -> Prop) `{forall x, Decision (P x)} (l : list A) :
  Forall P l -> filter P l = l.
Proof. induction 1 as [|x l Hx _ IH]; [done|]. by rewrite filter_cons_True, IH. Qed.

Lemma filter_split {A} (P Q R : A -> Prop) `{forall x, Decision (P x)} `{forall x, Decision (Q x)}
    `{forall x, Decision (R x)} (l : list A) :
  (forall x, x ∈ l -> Q x -> P x \/ R x) -> (length (filter Q l) <= length (filter P l) + length (filter R l))%nat.
Proof.
  induction l as [|x l IH]; intros Hq; [simpl; lia|].
  rewrite !filter_cons. pose proof (Hq x ltac:(left)) as Hx.
  assert (length (filter Q l) <= length (filter P l) + length (filter R l))%nat by (apply IH; intros; apply Hq; [by right | done]).
  repeat case_decide; simpl; tauto || lia.
Qed.

Lemma filter_eq_one (s : Z) (l : list Z) : NoDup l -> (length (filter (fun x => x = s) l) <= 1)%nat.
Proof.
  intros Hnd. induction Hnd as [|x l Hx Hnd IH]; [simpl; lia|].
  rewrite filter_cons. case_decide; [|done]. subst x. simpl.
  destruct (filter (fun x => x = s) l) as [|y l'] eqn:E; [simpl; lia|].
  assert (y ∈ filter (fun x => x = s) l) as Hy by (rewrite E; left).
  apply list_elem_of_filter in Hy as [-> Hy]. done.
Qed.

Lemma get_set_at table i j v :
  0 <= i < Z.of_nat (length table) -> 0 <= j ->
  get_at (set_at table i v) j = if i =? j then v else get_at table j.
Proof.
  intros Hi Hj. unfold get_at, set_at. rewrite !nth_lookup.
  destruct (Z.eqb_spec i j) as [->|].
  - by rewrite list_lookup_insert_eq by lia.
  - by rewrite list_lookup_insert_ne by lia.
Qed.

Lemma last_position_pos order i f : last_position order i f <> 0 -> 0 < f.
Proof.
  revert i. induction order as [|g order IH]; intros i; simpl; [done|].
  destruct (Z.eqb_spec (last_position order (i + 1) f) 0); simpl; [|intros; by apply (IH (i + 1))].
  destruct (Z.eqb_spec g f), (Z.ltb_spec 0 g); simpl; lia.
Qed.

Section Table.
(** [N] slots, a power of two. *)
Variable k : Z.
Hypothesis Hk : 0 <= k.
Let N : Z := 2 ^ k.
Let mask : Z := N - 1.

Lemma slots_pos : 0 < N.
Proof. unfold N. lia. Qed.

Lemma land_mask x : Z.land x mask = x mod N.
Proof. unfold mask, N. rewrite <- (Z.land_ones x k) by done. by rewrite Z.ones_equiv. Qed.

Definition stops (table : list Z) (field s : Z) : Prop :=
  get_at table (2 * s) = 0 \/ get_at table (2 * s) = field.

Lemma seek_step fuel table slot field :
  (stops table field slot /\ seek (S fuel) table mask slot field = Some slot) \/
  (~ stops table field slot /\ seek (S fuel) table mask slot field = seek fuel table mask ((slot + 1) mod N) field).
Proof.
  unfold stops. simpl. rewrite land_mask.
  destruct (Z.eqb_spec (get_at table (2 * slot)) 0), (Z.eqb_spec (get_at table (2 * slot)) field); simpl; tauto.
Qed.

(** [seek] stops at the first slot that ends it ... *)
Lemma seek_first table field d fuel slot :
  0 <= slot < N -> 0 <= d < Z.of_nat fuel ->
  stops table field ((slot + d) mod N) ->
  (forall e, 0 <= e < d -> ~ stops table field ((slot + e) mod N)) ->
  seek fuel table mask slot field = Some ((slot + d) mod N).
Proof.
  revert d slot. induction fuel as [|fuel IH]; intros d slot Hs Hd Hst Hno; [lia|].
  assert ((slot + 0) mod N = slot) as E0 by (rewrite Z.add_0_r; apply Z.mod_small; lia).
  destruct (seek_step fuel table slot field) as [[H ->] | [H ->]].
  - destruct (decide (d = 0)) as [->|]; [by rewrite E0|].
    exfalso. apply (Hno 0); [lia|]. by rewrite E0.
  - destruct (decide (d = 0)) as [->|]; [by rewrite E0 in Hst|].
    assert (forall e, ((slot + 1) mod N + e) mod N = (slot + (e + 1)) mod N) as E1.
    { intros e. rewrite Z.add_mod_idemp_l by (pose proof slots_pos; lia). f_equal. lia. }
    replace ((slot + d) mod N) with (((slot + 1) mod N + (d - 1)) mod N) in * by (rewrite E1; do 2 f_equal; lia).
    apply IH; [apply Z.mod_pos_bound, slots_pos | lia | done |].
    intros e He. rewrite E1. apply Hno. lia.
Qed.

(** ... and only there. *)
Lemma seek_Some table field fuel slot s :
  0 <= slot < N -> seek fuel table mask slot field = Some s ->
  stops table field s /\
  exists d, 0 <= d < Z.of_nat fuel /\ s = (slot + d) mod N /\
    forall e, 0 <= e < d -> ~ stops table field ((slot + e) mod N).
Proof.
  revert slot. induction fuel as [|fuel IH]; intros slot Hs; [done|].
  assert ((slot + 0) mod N = slot) as E0 by (rewrite Z.add_0_r; apply Z.mod_small; lia).
  destruct (seek_step fuel table slot field) as [[H ->] | [H ->]].
  - intros [= <-]. split; [done|]. exists 0. rewrite E0. split_and!; lia.
  - intros Hseek. destruct (IH _ (Z.mod_pos_bound _ _ slots_pos) Hseek) as (Hst & d & Hd & -> & Hno).
    assert (forall e, ((slot + 1) mod N + e) mod N = (slot + (e + 1)) mod N) as E1.
    { intros e. rewrite Z.add_mod_idemp_l by (pose proof slots_pos; lia). f_equal. lia. }
    split; [done|]. exists (d + 1). rewrite <- E1. split_and!; try lia.
    intros e He. destruct (decide (e = 0)) as [->|]; [by rewrite E0|].
    replace e with (e - 1 + 1) by lia. rewrite <- E1. apply Hno. lia.
Qed.

(** An empty slot anywhere is enough. *)
Lemma seek_total table field slot s :
  0 <= slot < N -> 0 <= s < N -> get_at table (2 * s) = 0 ->
  exists s', seek (Z.to_nat N) table mask slot field = Some s'.
Proof.
  intros Hs Hs' Hz. destruct (seek (Z.to_nat N) table mask slot field) eqn:E; [eauto|].
  exfalso.
  assert (forall fuel slot, 0 <= slot < N -> seek fuel table mask slot field = None ->
    forall e, 0 <= e < Z.of_nat fuel -> ~ stops table field ((slot + e) mod N)) as Hnone.
  { clear -Hk. intros fuel. induction fuel as [|fuel IH]; intros slot Hs; [lia|].
    destruct (seek_step fuel table slot field) as [[H ->] | [H ->]]; [done|].
    intros Hn e He. destruct (decide (e = 0)) as [->|].
    - by rewrite Z.add_0_r, Z.mod_small.
    - specialize (IH _ (Z.mod_pos_bound _ _ slots_pos) Hn (e - 1) ltac:(lia)).
      rewrite Z.add_mod_idemp_l in IH by (pose proof slots_pos; lia).
      by replace (slot + 1 + (e - 1)) with (slot + e) in IH by lia. }
  apply (Hnone _ _ Hs E ((s - slot) mod N)).
  - pose proof (Z.mod_pos_bound (s - slot) N slots_pos). lia.
  - left. rewrite Z.add_mod_idemp_r by (pose proof slots_pos; lia).
    replace (slot + (s - slot)) with s by lia. by rewrite Z.mod_small.
Qed.

(** [probe] reads the slot [seek] finds. *)
Lemma probe_loop_seek fuel table slot field :
  field <> 0 ->
  probe_loop fuel table mask slot field =
    (s ← seek fuel table mask slot field;
     Some (if get_at table (2 * s) =? field then get_at table (2 * s + 1) else 0)).
Proof.
  intros Hf. revert slot. induction fuel as [|fuel IH]; intros slot; simpl; [done|].
  destruct (Z.eqb_spec (get_at table (2 * slot)) field) as [E|E].
  - rewrite andb_false_r. simpl. by rewrite (proj2 (Z.eqb_eq _ _) E).
  - destruct (Z.eqb_spec (get_at table (2 * slot)) 0) as [E'|E']; simpl.
    + by rewrite (proj2 (Z.eqb_neq _ _) E).
    + apply IH.
Qed.

Definition home (field : Z) : Z := Z.land (slotOf field) mask.

Lemma home_bound field : 0 <= home field < N.
Proof. unfold home. rewrite land_mask. apply Z.mod_pos_bound, slots_pos. Qed.

(** The slots in use. *)
Definition used (table : list Z) : nat :=
  length (filter (fun s => get_at table (2 * s) <> 0) (seqZ 0 N)).

Lemma empty_slot table : (used table < Z.to_nat N)%nat -> exists s, 0 <= s < N /\ get_at table (2 * s) = 0.
Proof.
  unfold used. intros H. pose proof (length_seqZ 0 N) as HN.
  destruct (decide (Exists (fun s => get_at table (2 * s) = 0) (seqZ 0 N))) as [Hx|Hx].
  - apply Exists_exists in Hx as (s & Hs%elem_of_seqZ & E). exists s. split; [lia | done].
  - exfalso. rewrite filter_Forall in H; [lia|].
    apply Forall_forall. intros s Hs Hz. apply Hx, Exists_exists. eauto.
Qed.

(** ** Filling the table *)

Definition well_sized (table : list Z) : Prop := Z.of_nat (length table) = 2 * N.

Definition put (table : list Z) (s field v : Z) : list Z :=
  set_at (set_at table (2 * s) field) (2 * s + 1) v.

Lemma put_size table s field v : well_sized table -> well_sized (put table s field v).
Proof. unfold well_sized, put, set_at. by rewrite !length_insert. Qed.

Lemma put_key table s s' field v :
  well_sized table -> 0 <= s < N -> 0 <= s' < N ->
  get_at (put table s field v) (2 * s') = if s =? s' then field else get_at table (2 * s').
Proof.
  unfold well_sized, put. intros Hw Hs Hs'.
  rewrite get_set_at by (unfold set_at; rewrite ?length_insert; lia).
  destruct (Z.eqb_spec (2 * s + 1) (2 * s')); [lia|].
  rewrite get_set_at by lia. repeat case_bool; lia.
Qed.

Lemma put_value table s s' field v :
  well_sized table -> 0 <= s < N -> 0 <= s' < N ->
  get_at (put table s field v) (2 * s' + 1) = if s =? s' then v else get_at table (2 * s' + 1).
Proof.
  unfold well_sized, put. intros Hw Hs Hs'.
  rewrite get_set_at by (unfold set_at; rewrite ?length_insert; lia).
  destruct (Z.eqb_spec (2 * s + 1) (2 * s' + 1)), (Z.eqb_spec s s'); try lia.
  rewrite get_set_at by lia. case_bool; lia.
Qed.

Lemma used_put table s field v :
  well_sized table -> 0 <= s < N -> (used (put table s field v) <= S (used table))%nat.
Proof.
  intros Hw Hs. unfold used.
  pose proof (filter_split (fun x => get_at table (2 * x) <> 0) (fun x => get_at (put table s field v) (2 * x) <> 0)
    (fun x => x = s) (seqZ 0 N)) as H.
  pose proof (filter_eq_one s (seqZ 0 N) (NoDup_seqZ 0 N)).
  etransitivity; [apply H|lia].
  intros x Hb%elem_of_seqZ Hx. rewrite put_key in Hx by (done || lia). destruct (Z.eqb_spec s x); auto.
Qed.

(** The table holds the positions of the fields of [order]. *)
Record table_for (order : list Z) (table : list Z) : Prop := {
  tf_size : well_sized table;
  tf_used : (used table <= length order)%nat;
  tf_keys : forall s, 0 <= s < N -> get_at table (2 * s) <> 0 -> last_position order 0 (get_at table (2 * s)) <> 0;
  tf_find : forall f, last_position order 0 f <> 0 ->
    exists s, 0 <= s < N /\ seek (Z.to_nat N) table mask (home f) f = Some s /\
      get_at table (2 * s) = f /\ get_at table (2 * s + 1) = last_position order 0 f }.

Lemma table_for_empty : table_for [] (replicate (Z.to_nat (2 * N)) 0).
Proof.
  assert (forall i, get_at (replicate (Z.to_nat (2 * N)) 0) i = 0) as H0.
  { intros i. unfold get_at. rewrite nth_lookup.
    destruct (_ !! _) eqn:E; [|done]. by apply lookup_replicate in E as [-> _]. }
  split.
  - unfold well_sized. rewrite length_replicate. pose proof slots_pos. lia.
  - unfold used. generalize (seqZ 0 N). intros l.
    induction l as [|x l IH]; [done|]. rewrite filter_cons_False; [done|]. intros Hx. by apply Hx.
  - intros s _ Hs. by rewrite H0 in Hs.
  - done.
Qed.

Lemma seek_slot_bound fuel table slot field s :
  0 <= slot < N -> seek fuel table mask slot field = Some s -> 0 <= s < N.
Proof.
  intros Hs H. destruct (seek_Some _ _ _ _ _ Hs H) as (_ & d & _ & -> & _).
  apply Z.mod_pos_bound, slots_pos.
Qed.

Lemma table_for_step order table field :
  table_for order table -> 0 < field -> Z.of_nat (length order) < N ->
  exists s, seek (Z.to_nat N) table mask (home field) field = Some s /\
    table_for (order ++ [field]) (put table s field (Z.of_nat (length order) + 1)).
Proof.
  intros [Hw Hu Hkeys Hfind] Hf Hlen.
  destruct (empty_slot table) as (e & He & Ee); [lia|].
  destruct (seek_total table field (home field) e (home_bound field) He Ee) as [s Hs].
  exists s. split; [done|].
  pose proof (seek_slot_bound _ _ _ _ _ (home_bound field) Hs) as Hsb.
  destruct (seek_Some _ _ _ _ _ (home_bound field) Hs) as (Hstop & d & Hd & Esd & Hno).
  split.
  - by apply put_size.
  - rewrite length_app. simpl. pose proof (used_put table s field (Z.of_nat (length order) + 1) Hw Hsb). lia.
  - intros s' Hs'. rewrite put_key by done. rewrite last_position_app by lia. intros Hne.
    destruct (Z.eqb_spec s s').
    + rewrite Z.eqb_refl, (proj2 (Z.ltb_lt 0 field)) by done. simpl. lia.
    + specialize (Hkeys s' Hs' Hne). case_match; [lia | done].
  - intros f. rewrite last_position_app by lia.
    destruct (Z.eqb_spec field f) as [<-|Hff]; simpl.
    + rewrite (proj2 (Z.ltb_lt 0 field)) by done. intros _. exists s.
      rewrite put_key, put_value, Z.eqb_refl by done. split_and!; try done; try lia.
      rewrite Esd. apply seek_first; [apply home_bound | lia | |].
      * rewrite <- Esd. right. by rewrite put_key, Z.eqb_refl.
      * intros j Hj Hst. apply (Hno j Hj). unfold stops in *.
        rewrite put_key in Hst by (done || apply Z.mod_pos_bound, slots_pos).
        rewrite <- Esd in Hst. destruct (Z.eqb_spec s ((home field + j) mod N)) as [E|] in Hst; [|done].
        by rewrite <- E.
    + intros Hl. destruct (Hfind f Hl) as (sf & Hsf & Hseek & Hkey & Hval).
      pose proof (last_position_pos order 0 f Hl).
      assert (s <> sf) as Hne.
      { intros ->. destruct Hstop as [E|E]; rewrite Hkey in E; lia. }
      destruct (seek_Some _ _ _ _ _ (home_bound f) Hseek) as (Hstf & df & Hdf & Esf & Hnof).
      exists sf. rewrite put_key, put_value, (proj2 (Z.eqb_neq s sf)) by done. split_and!; try done; try lia.
      rewrite Esf. apply seek_first; [apply home_bound | lia | |].
      * rewrite <- Esf. right. by rewrite put_key, (proj2 (Z.eqb_neq s sf)).
      * intros j Hj Hst. apply (Hnof j Hj). unfold stops in *.
        rewrite put_key in Hst by (done || apply Z.mod_pos_bound, slots_pos).
        destruct (Z.eqb_spec s ((home f + j) mod N)) as [E|] in Hst; [|done].
        exfalso. destruct Hst; lia.
Qed.
End Table.

Lemma table_for_skip k order table field :
  table_for k order table -> field <= 0 -> table_for k (order ++ [field]) table.
Proof.
  intros [Hw Hu Hkeys Hfind] Hf.
  assert (forall f, last_position (order ++ [field]) 0 f = last_position order 0 f) as E.
  { intros f. rewrite last_position_app by lia. rewrite (proj2 (Z.ltb_ge 0 field)), andb_false_r by done. done. }
  split; [done | rewrite length_app; lia | |].
  - intros s Hs. rewrite E. by apply Hkeys.
  - intros f. rewrite E. apply Hfind.
Qed.

Lemma fill_table_spec k order pre table :
  0 <= k -> table_for k pre table -> Z.of_nat (length (pre ++ order)) < 2 ^ k ->
  exists table', fill_table table (2 ^ k - 1) order (Z.of_nat (length pre)) = Some table' /\
    table_for k (pre ++ order) table'.
Proof.
  intros Hk. revert pre table. induction order as [|field order IH]; intros pre table Ht Hl; simpl.
  - rewrite app_nil_r. eauto.
  - rewrite cons_middle, app_assoc in Hl |- *.
    replace (Z.of_nat (length pre) + 1) with (Z.of_nat (length (pre ++ [field]))) by (rewrite length_app; simpl; lia).
    destruct (Z.leb_spec field 0).
    + apply IH; [by apply table_for_skip | done].
    + destruct (table_for_step k Hk pre table field) as (s & Hs & Ht'); [done | done | rewrite !length_app in Hl; lia|].
      replace (2 ^ k - 1 + 1) with (2 ^ k) by lia. fold (home k field). rewrite Hs. simpl.
      apply IH; [|done]. rewrite length_app. unfold put in Ht'.
      by replace (Z.of_nat (length pre + length [field])) with (Z.of_nat (length pre) + 1) by (simpl; lia).
Qed.

Lemma double_slots_spec fuel k size :
  0 <= k -> 2 * size <= 2 ^ k + Z.of_nat fuel ->
  exists k', k <= k' /\ double_slots fuel (2 ^ k) size = 2 ^ k' /\ 2 * size <= 2 ^ k'.
Proof.
  revert k. induction fuel as [|fuel IH]; intros k Hk Hs; simpl.
  - exists k. split_and!; [lia | done | lia].
  - case_bool; [|exists k; split_and!; lia || done].
    replace (2 ^ k * 2) with (2 ^ (k + 1)) by (rewrite Z.pow_add_r by lia; lia).
    destruct (IH (k + 1)) as (k' & H1 & H2 & H3); [lia | | exists k'; split_and!; lia || done].
    rewrite Z.pow_add_r by lia. lia.
Qed.

(** ** The array form *)

Lemma fold_max_spec l a : a <= fold_left Z.max l a /\ Forall (fun f => f <= fold_left Z.max l a) l.
Proof.
  revert a. induction l as [|f l IH]; intros a; simpl; [split; [lia | constructor]|].
  destruct (IH (Z.max a f)) as [H1 H2]. split; [lia|]. constructor; [lia | done].
Qed.

Lemma fold_max_bound l a b : a < b -> Forall (fun f => f < b) l -> fold_left Z.max l a < b.
Proof.
  intros Ha Hl. revert a Ha. induction Hl as [|f l Hf _ IH]; intros a Ha; simpl; [done|]. apply IH. lia.
Qed.

Lemma fill_array_spec order positions i f :
  0 <= i -> 0 <= f < Z.of_nat (length positions) ->
  Forall (fun g => g < Z.of_nat (length positions)) order ->
  get_at (fill_array positions order i) f =
    if last_position order i f =? 0 then get_at positions f else last_position order i f.
Proof.
  intros Hi Hf Hall. revert positions i Hi Hf Hall.
  induction order as [|g order IH]; intros positions i Hi Hf Hall; simpl; [done|].
  apply Forall_cons in Hall as [Hg Hall].
  assert (length (if 0 <? g then set_at positions g (i + 1) else positions) = length positions) as El
    by (unfold set_at; case_bool; rewrite ?length_insert; done).
  rewrite IH by (rewrite ?El; done || lia).
  destruct (Z.eqb_spec (last_position order (i + 1) f) 0); simpl;
    [|by rewrite (proj2 (Z.eqb_neq _ _))].
  destruct (Z.ltb_spec 0 g).
  - rewrite get_set_at by lia. rewrite andb_true_r. destruct (Z.eqb_spec g f); [|done].
    by rewrite (proj2 (Z.eqb_neq _ _)) by lia.
  - by rewrite andb_false_r.
Qed.

Lemma last_position_above order i f : Forall (fun g => g < f) order -> last_position order i f = 0.
Proof.
  revert i. induction order as [|g order IH]; intros i H; simpl; [done|].
  apply Forall_cons in H as [Hg H]. rewrite IH by done. simpl.
  by destruct (Z.eqb_spec g f); [lia|].
Qed.

(** Field numbers are [int]s. *)
Definition int_field (f : Z) : Prop := - 2 ^ 31 <= f < 2 ^ 31.

#[export] Instance int_field_dec f : Decision (int_field f).
Proof. unfold int_field. apply _. Defined.

(** [setOrder] succeeds, and [position] is the reference, whichever form it chose. *)
Lemma position_eq order :
  order <> [] -> Forall int_field order ->
  exists o, setOrder order = Some o /\ m_mode o = group /\ 
    forall field, int_field field -> field <> 0 ->
      position o field = last_position order 0 field /\ (0 <= m_mask o -> is_Some (probe o field)).
Proof.
  intros Hne Hint. unfold setOrder.
  destruct (Z.ltb_spec (Z.of_nat (length order)) 1); [destruct order; simpl in *; [done | lia]|].
  destruct (double_slots_spec (2 * length order) 2 (Z.of_nat (length order))) as (k & Hk & Eslots & Hsize); [lia | lia|].
  change (2 ^ 2) with 4 in Eslots. rewrite Eslots. clear Eslots.
  pose proof (fold_max_spec order 0) as [Hl0 Hlall]. fold (largest_of order) in *.
  assert (largest_of order < 2 ^ 31) as Hl31.
  { apply fold_max_bound; [lia|]. eapply Forall_impl; [exact Hint|]. unfold int_field. simpl. lia. }
  set (largest := largest_of order) in *. clearbody largest.
  case_bool.
  - eexists. split; [done|]. split; [done|]. intros field Hfield Hnz. unfold position; simpl.
    unfold Z.lnot. split; [|lia].
    destruct (Z.ltb_spec (Z.pred (- largest)) 0); [|lia].
    replace (Z.pred (- Z.pred (- largest))) with largest by lia.
    unfold int_field in Hfield. unfold u32, wrap_u. rewrite (Z.mod_small largest) by lia.
    destruct (decide (0 <= field)).
    + rewrite Z.mod_small by lia. destruct (Z.leb_spec field largest).
      * assert (forall i, get_at (replicate (Z.to_nat (largest + 1)) 0) i = 0) as Hzero.
        { intros i. unfold get_at. rewrite nth_lookup.
          destruct (_ !! _) eqn:E; [|done]. by apply lookup_replicate in E as [-> _]. }
        rewrite fill_array_spec, Hzero; rewrite ?length_replicate; try lia.
        -- case_bool; done.
        -- eapply Forall_impl; [exact Hlall|]. simpl. lia.
      * symmetry. apply last_position_above. eapply Forall_impl; [exact Hlall|]. simpl. lia.
    + assert (field mod 2 ^ 32 = field + 2 ^ 32) as ->.
      { symmetry. apply Z.mod_unique_pos with (-1); lia. }
      destruct (Z.leb_spec (field + 2 ^ 32) largest); [lia|].
      destruct (Z.eq_dec (last_position order 0 field) 0) as [|Hx]; [done|].
      apply last_position_pos in Hx. lia.
  - destruct (fill_table_spec k order [] (replicate (Z.to_nat (2 * 2 ^ k)) 0)) as (table & Efill & Ht);
      [lia | by apply table_for_empty; lia | simpl; lia |].
    change (Z.of_nat (length [])) with 0 in Efill. rewrite Efill.
    simpl. eexists. split; [done|]. split; [done|]. intros field Hfield Hnz.
    unfold position, probe. simpl. 
    destruct (Z.ltb_spec (2 ^ k - 1) 0); [lia|].
    replace (2 ^ k - 1 + 1) with (2 ^ k) by lia. fold (home k field).
    rewrite probe_loop_seek by done.
    destruct Ht as [Hw Hu Hkeys Hfind]. simpl in *.
    destruct (Z.eq_dec (last_position order 0 field) 0) as [E0|E0].
    + destruct (empty_slot k ltac:(lia) table) as (e & He & Ee); [lia|].
      destruct (seek_total k ltac:(lia) table field (home k field) e (home_bound k ltac:(lia) field) He Ee) as [s Hs].
      rewrite Hs. simpl. split; [|eauto].
      pose proof (seek_slot_bound k ltac:(lia) _ _ _ _ _ (home_bound k ltac:(lia) field) Hs) as Hsb.
      destruct (Z.eqb_spec (get_at table (2 * s)) field) as [E|]; [|done].
      exfalso. apply (Hkeys s Hsb); rewrite E; done.
    + destruct (Hfind field E0) as (s & _ & -> & Hkey & Hval). simpl. rewrite Hkey, Z.eqb_refl, Hval. split; [done|eauto].
Qed.

(** ** Total orders *)

(** The comparators all rank: positive positions first, in order, then by
    number. *)
Definition ranked (p : Z -> Z) (x y : Z) : bool :=
  if negb (p x =? 0) && negb (p y =? 0) then p x <? p y
  else if negb (p x =? 0) then true
  else if negb (p y =? 0) then false
  else x <? y.

Definition injective_on (D : Z -> Prop) (p : Z -> Z) : Prop :=
  forall x y, D x -> D y -> p x = p y -> p x <> 0 -> x = y.

(** A strict total order on the fields of [D]. *)
Definition strict_total (D : Z -> Prop) (lt : Z -> Z -> bool) : Prop :=
  (forall x, D x -> lt x x = false) /\
  (forall x y z, D x -> D y -> D z -> lt x y = true -> lt y z = true -> lt x z = true) /\
  (forall x y, D x -> D y -> x <> y -> lt x y = true \/ lt y x = true).

Lemma ranked_total D p : injective_on D p -> strict_total D (ranked p).
Proof.
  intros Hinj. unfold ranked. split_and!.
  - intros x _. destruct (Z.eqb_spec (p x) 0); simpl; apply Z.ltb_irrefl.
  - intros x y z _ _ _.
    destruct (Z.eqb_spec (p x) 0), (Z.eqb_spec (p y) 0), (Z.eqb_spec (p z) 0); simpl; rewrite ?Z.ltb_lt; done || lia.
  - intros x y Hx Hy Hne. specialize (Hinj x y Hx Hy).
    destruct (Z.eqb_spec (p x) 0), (Z.eqb_spec (p y) 0); simpl; rewrite ?Z.ltb_lt; auto; lia.
Qed.

Lemma strict_total_ext D lt lt' :
  (forall x y, D x -> D y -> lt x y = lt' x y) -> strict_total D lt -> strict_total D lt'.
Proof.
  intros E (H1 & H2 & H3). split_and!.
  - intros x Hx. rewrite <- E by done. auto.
  - intros x y z Hx Hy Hz. rewrite <- !E by done. eauto.
  - intros x y Hx Hy. rewrite <- !E by done. auto.
Qed.

Lemma trailer_total D : strict_total D trailer_compare.
Proof.
  assert (injective_on D trailer_position) as Hinj.
  { intros x y _ _. unfold trailer_position. repeat case_bool; lia. }
  destruct (ranked_total D _ Hinj) as (H1 & H2 & H3).
  unfold strict_total, trailer_compare. fold (ranked trailer_position).
  assert (forall x y, (if x =? FIELD.CheckSum then false else if y =? FIELD.CheckSum then true else
    ranked trailer_position x y) = trailer_compare x y) as E by done.
  split_and!.
  - intros x Hx. case_bool; [done|]. by apply H1.
  - intros x y z Hx Hy Hz.
    destruct (Z.eqb_spec x FIELD.CheckSum), (Z.eqb_spec y FIELD.CheckSum), (Z.eqb_spec z FIELD.CheckSum); try done.
    by apply H2.
  - intros x y Hx Hy Hne.
    destruct (Z.eqb_spec x FIELD.CheckSum), (Z.eqb_spec y FIELD.CheckSum); subst; auto; try done. by apply H3.
Qed.

(** The orders a program can build. *)
Inductive built_order : message_order -> Prop :=
| built_mode mode : built_order (new_message_order mode)
| built_fields order o : Forall int_field order -> setOrder order = Some o -> built_order o.

(** The field numbers of messages. *)
Definition tag (f : Z) : Prop := 0 < f < 2 ^ 31.

#[export] Instance tag_dec f : Decision (tag f).
Proof. unfold tag. apply _. Defined.

Lemma tag_int_field f : tag f -> int_field f /\ f <> 0.
Proof. unfold tag, int_field. lia. Qed.

Lemma normal_total D : strict_total D Z.ltb.
Proof. split_and!; intros *; rewrite ?Z.ltb_lt, ?Z.ltb_irrefl; done || lia. Qed.

Lemma less_strict_total order : built_order order -> strict_total tag (less order).
Proof.
  intros [mode | fields o' Hint Hset].
  - destruct mode; unfold new_message_order, less; simpl; try apply normal_total; [|apply trailer_total].
    apply (ranked_total tag header_position).
    intros x y _ _. unfold header_position. repeat case_bool; lia.
  - destruct (decide (fields = [])) as [->|Hne].
    { injection Hset as <-. apply normal_total. }
    destruct (position_eq fields Hne Hint) as (o & Ho & Hm & Hp). rewrite Ho in Hset. injection Hset as <-.
    apply (strict_total_ext _ (ranked (last_position fields 0))).
    + intros x y [Hx Hx0]%tag_int_field [Hy Hy0]%tag_int_field. unfold less. rewrite Hm. unfold groupCompare.
      destruct (Hp x Hx Hx0) as [-> _], (Hp y Hy Hy0) as [-> _]. done.
    + apply ranked_total. intros x y _ _. apply last_position_inj. lia.
Qed.

(** C38 The position table: an order is built whatever its fields are, every
    lookup ends, in the array and in the open-addressed table alike, and gives
    the last place that names the field, 0 when none does; so the comparator is
    the one of the plain array of positions, [group_order::compare]. *)
Theorem position_correct order x y :
  order <> [] -> Forall int_field order -> tag x -> tag y ->
  exists o, setOrder order = Some o /\
    (0 <= m_mask o -> is_Some (probe o x)) /\
    position o x = last_position order 0 x /\
    groupCompare o x y = group_order_compare x y (last_position order 0) (largest_of order).
Proof.
  intros Hne Hint [Hx Hx0]%tag_int_field [Hy Hy0]%tag_int_field.
  destruct (position_eq order Hne Hint) as (o & -> & _ & Hp). exists o. split; [done|].
  destruct (Hp x Hx Hx0) as [Ex Hpx], (Hp y Hy Hy0) as [Ey _]. split; [done|]. split; [done|].
  unfold groupCompare, group_order_compare. rewrite Ex, Ey.
  pose proof (proj2 (fold_max_spec order 0)) as Hall. fold (largest_of order) in Hall.
  assert (forall f, largest_of order < f -> last_position order 0 f = 0) as Habove.
  { intros f Hf. apply last_position_above. eapply Forall_impl; [exact Hall|]. simpl. lia. }
  pose proof (Habove x). pose proof (Habove y).
  destruct (Z.leb_spec x (largest_of order)), (Z.leb_spec y (largest_of order)),
    (Z.eqb_spec (last_position order 0 x) 0), (Z.eqb_spec (last_position order 0 y) 0); simpl; done || lia.
Qed.

(** Three fields far apart: the table form. *)
Lemma position_correct_witness :
  exists o, setOrder [50000; 7; 453; 7] = Some o /\
    (0 <= m_mask o -> is_Some (probe o 7)) /\ position o 7 = 4 /\
    groupCompare o 7 50000 = group_order_compare 7 50000 (last_position [50000; 7; 453; 7] 0) 50000.
Proof. apply (position_correct [50000; 7; 453; 7] 7 50000); [done | by_compute | by_compute | by_compute]. Defined.

(** Every order a program can build, from a mode or from a list of fields, is a
    strict total order on field numbers. *)
Theorem less_total o x y z :
  built_order o -> tag x -> tag y -> tag z ->
  less o x x = false /\
  (less o x y = true -> less o y z = true -> less o x z = true) /\
  (x = y \/ less o x y = true \/ less o y x = true).
Proof.
  intros Ho Hx Hy Hz. destruct (less_strict_total o Ho) as (H1 & H2 & H3).
  split_and!; [by apply H1 | by apply H2 |]. destruct (decide (x = y)); auto.
Qed.

Lemma less_total_witness :
  less (new_message_order header) 49 49 = false /\
  (less (new_message_order header) 49 35 = true -> less (new_message_order header) 35 56 = true ->
   less (new_message_order header) 49 56 = true) /\
  (49 = 35 \/ less (new_message_order header) 49 35 = true \/ less (new_message_order header) 35 49 = true).
Proof. apply (less_total (new_message_order header) 49 35 56); [apply built_mode | by_compute ..]. Defined.

