(* ===== verification/OrdMap.v ===== *)
(** * Ordered maps: [std::map] and [std::flat_map] with integer keys

    A list of bindings in increasing key order; iteration is list order. *)
From S2P Require Import Prelude.

Section OrdMap.
Context {A : Type}.
Implicit Types (m : list (Z * A)) (k : Z).

(** [m.find(k)]; [None] is [end()]. *)
Fixpoint map_lookup k m : option A :=
  match m with
  | [] => None
  | (k', v) :: m => if k =? k' then Some v else map_lookup k m
  end.

(** [m[k] = v] (an [insert_or_assign]). *)
Fixpoint map_set k (v : A) m : list (Z * A) :=
  match m with
  | [] => [(k, v)]
  | (k', v') :: m =>
      if k =? k' then (k, v) :: m
      else if k <? k' then (k, v) :: (k', v') :: m
      else (k', v') :: map_set k v m
  end.

(** [m.erase(k)]. *)
Fixpoint map_erase k m : list (Z * A) :=
  match m with
  | [] => []
  | (k', v') :: m => if k =? k' then m else (k', v') :: map_erase k m
  end.

Definition keys m : list Z := map fst m.

(** Keys strictly increase. *)
Definition ordered m : Prop := StronglySorted Z.lt (keys m).

Lemma ordered_nil : ordered [].
Proof. constructor. Qed.

Lemma ordered_cons k v m : ordered ((k, v) :: m) <-> ordered m /\ Forall (fun k' => k < k') (keys m).
Proof.
  unfold ordered. simpl. split; [intros H; inversion H; auto | intros []; by constructor].
Qed.

Lemma map_lookup_below k m : Forall (fun k' => k < k') (keys m) -> map_lookup k m = None.
Proof.
  induction m as [|[k' v'] m IH]; simpl; [done|].
  intros [H1 H2]%Forall_cons. case_bool; [lia | by apply IH].
Qed.

Lemma keys_map_set k v m x : x ∈ keys (map_set k v m) <-> x = k \/ x ∈ keys m.
Proof.
  induction m as [|[k' v'] m IH]; simpl; [by rewrite list_elem_of_singleton, elem_of_nil; tauto|].
  repeat case_bool; simpl; rewrite ?elem_of_cons, ?IH; subst; tauto.
Qed.

Lemma ordered_set k v m : ordered m -> ordered (map_set k v m).
Proof.
  induction m as [|[k' v'] m IH]; simpl; intros H.
  - apply ordered_cons. split; [apply ordered_nil | constructor].
  - apply ordered_cons in H as [H1 H2]. destruct (Z.eqb_spec k k'); [|case_bool].
    + subst. by apply ordered_cons.
    + apply ordered_cons. split; [by apply ordered_cons|]. simpl. constructor; [done|].
      eapply Forall_impl; [exact H2|]. simpl. lia.
    + apply ordered_cons. split; [by apply IH|].
      apply Forall_forall. intros x Hx. apply keys_map_set in Hx as [->|Hx]; [lia|].
      rewrite Forall_forall in H2. by apply H2.
Qed.

Lemma keys_map_erase k m x : x ∈ keys (map_erase k m) -> x ∈ keys m.
Proof.
  induction m as [|[k' v'] m IH]; simpl; [done|].
  case_bool; simpl; rewrite ?elem_of_cons; tauto.
Qed.

Lemma ordered_erase k m : ordered m -> ordered (map_erase k m).
Proof.
  induction m as [|[k' v'] m IH]; simpl; [done|]. intros [H1 H2]%ordered_cons.
  case_bool; [done|]. apply ordered_cons. split; [by apply IH|].
  apply Forall_forall. intros x Hx%keys_map_erase. rewrite Forall_forall in H2. by apply H2.
Qed.

Lemma map_lookup_set k v m : ordered m -> map_lookup k (map_set k v m) = Some v.
Proof.
  induction m as [|[k' v'] m IH]; simpl; [by rewrite Z.eqb_refl|].
  intros [H1 H2]%ordered_cons.
  destruct (Z.eqb_spec k k'); [|case_bool]; simpl; rewrite ?Z.eqb_refl; try done.
  rewrite (proj2 (Z.eqb_neq k k')) by lia. by apply IH.
Qed.

Lemma map_lookup_set_ne k k' v m : k <> k' -> map_lookup k (map_set k' v m) = map_lookup k m.
Proof.
  intros Hne. induction m as [|[k1 v1] m IH]; simpl; [case_bool; done|].
  repeat case_bool; simpl; repeat case_bool; congruence || lia || done.
Qed.

Lemma map_lookup_erase k m : ordered m -> map_lookup k (map_erase k m) = None.
Proof.
  induction m as [|[k' v'] m IH]; simpl; [done|]. intros [H1 H2]%ordered_cons.
  case_bool.
  - subst. by apply map_lookup_below.
  - simpl. rewrite (proj2 (Z.eqb_neq k k')) by lia. by apply IH.
Qed.

Lemma map_lookup_erase_ne k k' m : k <> k' -> map_lookup k (map_erase k' m) = map_lookup k m.
Proof.
  intros Hne. induction m as [|[k1 v1] m IH]; simpl; [done|].
  repeat case_bool; simpl; repeat case_bool; congruence || lia || done.
Qed.

Lemma map_lookup_Some k v m : map_lookup k m = Some v -> (k, v) ∈ m.
Proof.
  induction m as [|[k' v'] m IH]; simpl; [done|]. case_bool.
  - intros [= ->]. subst. left.
  - intros H. right. by apply IH.
Qed.

Lemma map_lookup_keys k m : map_lookup k m <> None <-> k ∈ keys m.
Proof.
  induction m as [|[k' v'] m IH]; simpl; [by rewrite elem_of_nil|]. rewrite elem_of_cons, <- IH.
  case_bool; split; auto; naive_solver.
Qed.
End OrdMap.

#[export] Hint Resolve ordered_nil ordered_set ordered_erase : core.

Lemma map_lookup_fmap {A B} (f : A -> B) (k : Z) (m : list (Z * A)) :
  map_lookup k (map (fun '(k, v) => (k, f v)) m) = f <$> map_lookup k m.
Proof. induction m as [|[k' v'] m IH]; simpl; [done|]. by case_bool. Qed.

(** ** Sets of integers: [std::set<int>] *)

Definition set_insert (k : Z) (s : list (Z * unit)) : list (Z * unit) := map_set k () s.
Definition set_mem (k : Z) (s : list (Z * unit)) : bool :=
  match map_lookup k s with Some _ => true | None => false end.

(** ** Tables with string keys: [std::map<std::string, A>]

    Only looked up in what follows, so the order of the bindings is the one of
    the insertions. *)
Section StrMap.
Context {A : Type}.
Implicit Types (k : str) (m : list (str * A)).

Fixpoint str_lookup k m : option A :=
  match m with
  | [] => None
  | (k', v) :: m => if bool_decide (k = k') then Some v else str_lookup k m
  end.

Fixpoint str_set k (v : A) m : list (str * A) :=
  match m with
  | [] => [(k, v)]
  | (k', v') :: m => if bool_decide (k = k') then (k, v) :: m else (k', v') :: str_set k v m
  end.

Lemma str_lookup_set k v m : str_lookup k (str_set k v m) = Some v.
Proof.
  induction m as [|[k' v'] m IH]; simpl; [by rewrite bool_decide_eq_true_2|].
  case_bool_decide as E; simpl; [by rewrite bool_decide_eq_true_2|].
  by rewrite bool_decide_eq_false_2.
Qed.

Lemma str_lookup_set_ne k k' v m : k <> k' -> str_lookup k (str_set k' v m) = str_lookup k m.
Proof.
  intros Hne. induction m as [|[k1 v1] m IH]; simpl; [by rewrite bool_decide_eq_false_2|].
  case_bool_decide as E; simpl.
  - subst. by rewrite !bool_decide_eq_false_2.
  - by rewrite IH.
Qed.
End StrMap.

Definition str_insert (k : str) (s : list (str * unit)) : list (str * unit) := str_set k () s.
Definition str_mem (k : str) (s : list (str * unit)) : bool :=
  match str_lookup k s with Some _ => true | None => false end.
