(* ===== verification/Field.v ===== *)
(** * Fields ([src/C++/Field.h])

    A field is a tag, its value as text, and the cached length and checksum of
    its encoding; a cached length of zero means that nothing is cached. *)
From S2P Require Import Prelude Convertors.

Record field_metrics := mkMetrics { fm_length : Z; fm_checksum : Z }.

Definition no_metrics : field_metrics := mkMetrics 0 0.
Definition metrics_valid (m : field_metrics) : bool := 0 <? fm_length m.

Record FieldBase := mkFieldBase { m_tag : Z; m_string : str; m_metrics : field_metrics }.

#[export] Instance field_metrics_eq_dec : EqDecision field_metrics.
Proof. solve_decision. Defined.
#[export] Instance FieldBase_eq_dec : EqDecision FieldBase.
Proof. solve_decision. Defined.

(** [checksum += (unsigned char)c] over the bytes of a string: [checksum] is an
    [int], here and everywhere below at its 32 bits, wrapped around. *)
Definition add_bytes (checksum : Z) (s : str) : Z := fold_left (fun checksum c => i32 (checksum + code c)) s checksum.
Definition sum_bytes (s : str) : Z := add_bytes 0 s.

(** [calculateMetrics(start, end)]: of the text of a field. *)
Definition calculateMetrics_text (text : str) : field_metrics :=
  mkMetrics (i32 (Z.of_nat (length text))) (sum_bytes text).

(** The tag as the encoder writes it: [number_of_symbols_in] characters. *)
Definition tag_text (tag : Z) : str :=
  default [] (integer_to_string int32_t (Z.to_nat (number_of_symbols_in int32_t tag)) tag).

(** [calculateMetrics(tag, value)]: of "<tag>=<value><SOH>" without building it. *)
Definition calculateMetrics (tag : Z) (value : str) : field_metrics :=
  let tagLength := number_of_symbols_in int32_t tag in
  mkMetrics (i32 (tagLength + Z.of_nat (length value) + 2))
    (add_bytes (add_bytes (code "="%char + code SOH) (tag_text tag)) value).

(** [FieldBase(tag, string)]. *)
Definition Field (tag : Z) (string : str) : FieldBase := mkFieldBase tag string no_metrics.

(** The constructor used while decoding: [text] is the field as received. *)
Definition Field_decoded (tag : Z) (value text : str) : FieldBase :=
  mkFieldBase tag value (calculateMetrics_text text).

Definition setTag (f : FieldBase) (tag : Z) : FieldBase := mkFieldBase tag (m_string f) no_metrics.
Definition setString (f : FieldBase) (string : str) : FieldBase := mkFieldBase (m_tag f) string no_metrics.
Definition getTag (f : FieldBase) : Z := m_tag f.
Definition getString (f : FieldBase) : str := m_string f.

(** [calculate()]: fills the cache. *)
Definition calculate (f : FieldBase) : FieldBase :=
  if metrics_valid (m_metrics f) then f
  else mkFieldBase (m_tag f) (m_string f) (calculateMetrics (m_tag f) (m_string f)).

Definition getLength (f : FieldBase) : Z := fm_length (m_metrics (calculate f)).
Definition getTotal (f : FieldBase) : Z := fm_checksum (m_metrics (calculate f)).

(** [appendTo(result)]. *)
Definition appendTo (f : FieldBase) (result : str) : str :=
  result ++ tag_text (m_tag f) ++ ["="%char] ++ m_string f ++ [SOH].

Definition getFixString (f : FieldBase) : str := appendTo f [].

(** ** Typed values: [F::valueOf], which turns a [FieldConvertError] into an
    [IncorrectDataFormat]. *)
Definition valueOf {A} (convert : str -> result A) (f : FieldBase) : result A :=
  match convert (getString f) with
  | Throw (FieldConvertError _) => Throw (IncorrectDataFormat (getTag f) (getString f))
  | r => r
  end.

Definition CharField_valueOf : FieldBase -> result ascii := valueOf CharConvertor_of_string.
Definition IntField_valueOf : FieldBase -> result Z := valueOf (IntT_of_string int32_t).
Definition SeqNumField_valueOf : FieldBase -> result Z := valueOf (IntT_of_string uint64_t).
Definition BoolField_valueOf : FieldBase -> result bool := valueOf BoolConvertor_of_string.
Definition CheckSumField_valueOf : FieldBase -> result Z := valueOf CheckSumConvertor_of_string.

Definition IntField (tag value : Z) : FieldBase := Field tag (IntConvertor_convert value).
Definition SeqNumField (tag value : Z) : FieldBase := Field tag (SEQNUM_convert value).
Definition CharField (tag : Z) (value : ascii) : FieldBase := Field tag (CharConvertor_convert value).
Definition BoolField (tag : Z) (value : bool) : FieldBase := Field tag (BoolConvertor_convert value).
Definition CheckSumField (tag value : Z) : result FieldBase := Field tag <$> CheckSumConvertor_convert value.

(** ** Lemmas *)

(** The exact sum of the bytes of a string, which the code's [int] holds as
    long as it is below 2^31. *)
Definition byte_sum (s : str) : Z := fold_left (fun checksum c => checksum + code c) s 0.

Lemma byte_sum_from a s : fold_left (fun checksum c => checksum + code c) s a = a + byte_sum s.
Proof.
  unfold byte_sum. revert a. induction s as [|c s IH]; intros a; simpl; [lia|].
  rewrite IH, (IH (0 + code c)). lia.
Qed.

Lemma byte_sum_cons c s : byte_sum (c :: s) = code c + byte_sum s.
Proof. unfold byte_sum at 1. simpl. rewrite byte_sum_from. lia. Qed.

Lemma byte_sum_app s t : byte_sum (s ++ t) = byte_sum s + byte_sum t.
Proof. unfold byte_sum at 1. rewrite fold_left_app, byte_sum_from. done. Qed.

Lemma byte_sum_nonneg s : 0 <= byte_sum s.
Proof. induction s as [|c s IH]; [done|]. rewrite byte_sum_cons. pose proof (code_bounds c). lia. Qed.

Lemma byte_sum_bound s : byte_sum s <= 255 * Z.of_nat (length s).
Proof. induction s as [|c s IH]; [done|]. rewrite byte_sum_cons. pose proof (code_bounds c). simpl. lia. Qed.

Lemma add_bytes_eq a s : add_bytes (i32 a) s = i32 (a + byte_sum s).
Proof. unfold add_bytes. by rewrite fold_i32, byte_sum_from. Qed.

Lemma sum_bytes_eq s : sum_bytes s = i32 (byte_sum s).
Proof. apply (add_bytes_eq 0). Qed.

Lemma tag_text_chars tag : in_range int32_t tag = true -> tag_text tag = integer_chars int32_t tag.
Proof.
  intros H. unfold tag_text. rewrite number_of_symbols_chars by auto using engine_int32.
  by rewrite integer_to_string_fits by lia.
Qed.

(** The encoding of a field. *)
Lemma getFixString_eq f : getFixString f = tag_text (m_tag f) ++ ["="%char] ++ m_string f ++ [SOH].
Proof. done. Qed.

Lemma appendTo_eq f s : appendTo f s = s ++ getFixString f.
Proof. done. Qed.

(** The tag is an [int] and a cached metric is the one of the encoding. *)
Definition field_ok (f : FieldBase) : Prop :=
  in_range int32_t (m_tag f) = true /\
  (metrics_valid (m_metrics f) = true -> m_metrics f = calculateMetrics_text (getFixString f)).

#[export] Instance field_ok_dec f : Decision (field_ok f).
Proof. unfold field_ok. apply _. Defined.

Lemma calculateMetrics_eq tag value :
  in_range int32_t tag = true -> calculateMetrics tag value = calculateMetrics_text (getFixString (Field tag value)).
Proof.
  intros H. unfold calculateMetrics, calculateMetrics_text. rewrite getFixString_eq. simpl.
  rewrite number_of_symbols_chars, tag_text_chars by auto using engine_int32. f_equal.
  - f_equal. rewrite length_app. simpl. rewrite length_app. simpl. lia.
  - change (code "="%char + code SOH) with (i32 (code "="%char + code SOH)).
    rewrite !add_bytes_eq, sum_bytes_eq, byte_sum_app, byte_sum_cons, byte_sum_app, byte_sum_cons.
    change (byte_sum []) with 0. f_equal. lia.
Qed.

Lemma calculate_spec f : field_ok f -> m_metrics (calculate f) = calculateMetrics_text (getFixString f).
Proof.
  intros [Ht Hm]. unfold calculate. destruct (metrics_valid (m_metrics f)) eqn:E; [by apply Hm|].
  simpl. by rewrite calculateMetrics_eq.
Qed.

Lemma getLength_eq f : field_ok f -> getLength f = i32 (Z.of_nat (length (getFixString f))).
Proof. intros H. unfold getLength. by rewrite calculate_spec. Qed.

Lemma getTotal_eq f : field_ok f -> getTotal f = i32 (byte_sum (getFixString f)).
Proof. intros H. unfold getTotal. rewrite calculate_spec by done. apply sum_bytes_eq. Qed.

Lemma Field_ok tag value : in_range int32_t tag = true -> field_ok (Field tag value).
Proof. by split. Qed.

Lemma setString_ok f value : field_ok f -> field_ok (setString f value).
Proof. intros [H _]. by split. Qed.

#[export] Hint Resolve Field_ok setString_ok : core.
