(* ===== verification/FieldMap.v ===== *)
(** * Field maps ([src/C++/FieldMap.h], [src/C++/FieldMap.cpp], [src/C++/Group.cpp])

    An ordered collection of fields with its repeating groups, which are field
    maps again: the basis of the header, the body and the trailer of a message.
    The arena that places the groups is memory management and has no state
    here. [std::lower_bound], [std::upper_bound] and [std::sort] are stated by
    what they return on the ranges the code gives them. *)
From S2P Require Import Prelude Convertors Values OrdMap MessageSorters Field.

Inductive FieldMap := mkFieldMap {
  m_fields : list FieldBase;
  m_groups : list (Z * list FieldMap);
  m_order : message_order }.

Definition new_FieldMap (order : message_order) : FieldMap := mkFieldMap [] [] order.

Definition with_fields (m : FieldMap) (fields : list FieldBase) : FieldMap :=
  mkFieldMap fields (m_groups m) (m_order m).
Definition with_groups (m : FieldMap) (groups : list (Z * list FieldMap)) : FieldMap :=
  mkFieldMap (m_fields m) groups (m_order m).

(** ** Searching the fields *)

Fixpoint find_index {A} (p : A -> bool) (l : list A) : option nat :=
  match l with
  | [] => None
  | x :: l => if p x then Some 0%nat else S <$> find_index p l
  end.

(** The first position that satisfies [p], or the end. *)
Definition position_of {A} (p : A -> bool) (l : list A) : nat := default (length l) (find_index p l).

(** [std::lower_bound(begin, end, tag, sorter(m_order))] on a sorted range. *)
Definition lower_bound (o : message_order) (fields : list FieldBase) (tag : Z) : nat :=
  position_of (fun f => negb (less o (getTag f) tag)) fields.

(** [std::upper_bound]. *)
Definition upper_bound (o : message_order) (fields : list FieldBase) (tag : Z) : nat :=
  position_of (fun f => less o tag (getTag f)) fields.

(** [findTag], that is [lookup(begin, end, tag)]. *)
Definition findTag (m : FieldMap) (tag : Z) : option nat :=
  let fields := m_fields m in
  if (length fields <? 16)%nat then find_index (fun f => tag =? getTag f) fields
  else
    let i := lower_bound (m_order m) fields tag in
    match fields !! i with
    | Some f => if getTag f =? tag then Some i else None
    | None => None
    end.

Definition findPositionFor (m : FieldMap) (tag : Z) : nat :=
  let fields := m_fields m in
  match last fields with
  | None => 0%nat
  | Some lastField =>
      if less (m_order m) (getTag lastField) tag || (getTag lastField =? tag) then length fields
      else upper_bound (m_order m) fields tag
  end.

(** [reverse_find(tag)]: the last field with the tag. *)
Definition reverse_find (m : FieldMap) (tag : Z) : result FieldBase :=
  of_option (FieldNotFound tag []) (List.find (fun f => tag =? getTag f) (reverse (m_fields m))).

(** ** Fields *)

Definition insert_at {A} (i : nat) (x : A) (l : list A) : list A := take i l ++ x :: drop i l.
Definition erase_at {A} (i : nat) (l : list A) : list A := take i l ++ drop (S i) l.

Definition addField (m : FieldMap) (field : FieldBase) : FieldMap :=
  with_fields m (insert_at (findPositionFor m (getTag field)) field (m_fields m)).

Definition appendField (m : FieldMap) (field : FieldBase) : FieldMap :=
  with_fields m (m_fields m ++ [field]).

(** [setField(field, overwrite)]. *)
Definition setField_overwrite (m : FieldMap) (field : FieldBase) (overwrite : bool) : FieldMap :=
  if negb overwrite then addField m field
  else
    match findTag m (getTag field) with
    | None => addField m field
    | Some i => with_fields m (alter (fun f => setString f (getString field)) i (m_fields m))
    end.

Definition setField (m : FieldMap) (field : FieldBase) : FieldMap := setField_overwrite m field true.

(** [setField(tag, value)]. *)
Definition setField_tag (m : FieldMap) (tag : Z) (value : str) : FieldMap := setField m (Field tag value).

Definition getFieldIfSet (m : FieldMap) (tag : Z) : option FieldBase :=
  i ← findTag m tag; m_fields m !! i.

Definition getFieldRef (m : FieldMap) (tag : Z) : result FieldBase :=
  of_option (FieldNotFound tag []) (getFieldIfSet m tag).

(** [getField(tag)]. *)
Definition getField (m : FieldMap) (tag : Z) : result str := getString <$> getFieldRef m tag.

Definition isSetField (m : FieldMap) (tag : Z) : bool :=
  match findTag m tag with Some _ => true | None => false end.

(** ** Groups *)

Definition groupsOf (m : FieldMap) (tag : Z) : option (list FieldMap) := map_lookup tag (m_groups m).

(** [m_fields.erase(findTag(tag))], when the field is set. *)
Definition eraseField (m : FieldMap) (tag : Z) : option FieldMap :=
  i ← findTag m tag; Some (with_fields m (erase_at i (m_fields m))).

(** [removeGroup(tag)]: erases the groups, then calls [removeField], which
    finds no groups left. *)
Definition removeGroup (m : FieldMap) (tag : Z) : FieldMap :=
  match groupsOf m tag with
  | None => m
  | Some _ =>
      let m := with_groups m (map_erase tag (m_groups m)) in
      default m (eraseField m tag)
  end.

Definition removeField (m : FieldMap) (tag : Z) : FieldMap :=
  match eraseField m tag with
  | None => m
  | Some m => removeGroup m tag
  end.

(** [addGroupPtr(tag, group, setCount)] and [addGroup], which clones [group]. *)
Definition addGroupPtr (m : FieldMap) (tag : Z) (group : FieldMap) (setCount : bool) : FieldMap :=
  let groups := default [] (groupsOf m tag) ++ [group] in
  let m := with_groups m (map_set tag groups (m_groups m)) in
  if setCount then setField m (IntField tag (i32 (Z.of_nat (length groups)))) else m.

Definition addGroup (m : FieldMap) (tag : Z) (group : FieldMap) (setCount : bool) : FieldMap :=
  addGroupPtr m tag group setCount.

Definition replaceGroup (m : FieldMap) (num tag : Z) (group : FieldMap) : FieldMap :=
  match groupsOf m tag with
  | None => m
  | Some groups =>
      if num <=? 0 then m
      else if Z.of_nat (length groups) <? num then m
      else with_groups m (map_set tag (<[Z.to_nat (num - 1) := group]> groups) (m_groups m))
  end.

Definition getGroupRef (m : FieldMap) (num tag : Z) : result FieldMap :=
  match groupsOf m tag with
  | None => Throw (FieldNotFound tag [])
  | Some groups =>
      if num <=? 0 then Throw (FieldNotFound tag [])
      else of_option (FieldNotFound tag []) (groups !! Z.to_nat (num - 1))
  end.

(** [removeGroup(num, tag)]. *)
Definition removeGroup_num (m : FieldMap) (num tag : Z) : FieldMap :=
  match groupsOf m tag with
  | None => m
  | Some groups =>
      if num <=? 0 then m
      else if Z.of_nat (length groups) <? num then m
      else
        let groups := erase_at (Z.to_nat (num - 1)) groups in
        if (length groups =? 0)%nat then removeField (with_groups m (map_erase tag (m_groups m))) tag
        else
          setField (with_groups m (map_set tag groups (m_groups m)))
            (IntField tag (i32 (Z.of_nat (length groups))))
  end.

Definition groupCount (m : FieldMap) (tag : Z) : Z :=
  match groupsOf m tag with None => 0 | Some groups => Z.of_nat (length groups) end.
Definition hasGroup (m : FieldMap) (tag : Z) : bool :=
  match groupsOf m tag with None => false | Some _ => true end.
Definition hasGroup_num (m : FieldMap) (num tag : Z) : bool := num <=? i32 (groupCount m tag).

Definition clear (m : FieldMap) : FieldMap := mkFieldMap [] [] (m_order m).
Definition isEmpty (m : FieldMap) : bool := match m_fields m with [] => true | _ => false end.

(** ** Sorting *)

Fixpoint is_sorted (o : message_order) (fields : list FieldBase) : bool :=
  match fields with
  | [] => true
  | f :: rest =>
      match rest with
      | [] => true
      | g :: _ => negb (less o (getTag g) (getTag f)) && is_sorted o rest
      end
  end.

Fixpoint insert_sorted (o : message_order) (f : FieldBase) (fields : list FieldBase) : list FieldBase :=
  match fields with
  | [] => [f]
  | g :: rest => if less o (getTag g) (getTag f) then g :: insert_sorted o f rest else f :: fields
  end.

(** [std::sort]; fields with the same tag keep their order here. *)
Definition sort (o : message_order) (fields : list FieldBase) : list FieldBase :=
  foldr (insert_sorted o) [] fields.

Definition sortFields (m : FieldMap) : FieldMap :=
  if is_sorted (m_order m) (m_fields m) then m else with_fields m (sort (m_order m) (m_fields m)).

(** ** Encoding and its metrics *)

Fixpoint totalFields (m : FieldMap) : Z :=
  match m with
  | mkFieldMap fields groups _ =>
      Z.of_nat (length fields) +
      fold_right Z.add 0 (map (fun '(_, gs) => fold_right Z.add 0 (map totalFields gs)) groups)
  end.

(** What [calculateString(result)] appends to [result]. *)
Fixpoint calculateString (m : FieldMap) : str :=
  match m with
  | mkFieldMap fields groups _ =>
      let group_strings := map (fun '(tag, gs) => (tag, concat (map calculateString gs))) groups in
      concat (map (fun field =>
        appendTo field [] ++ default [] (map_lookup (getTag field) group_strings)) fields)
  end.

(** [result += ...] is an [int] addition, wrapped to its 32 bits. *)
Fixpoint calculateLength (m : FieldMap) (beginStringField bodyLengthField checkSumField : Z) : Z :=
  match m with
  | mkFieldMap fields groups _ =>
      let result := fold_left (fun result field =>
        let tag := getTag field in
        if negb (tag =? beginStringField) && negb (tag =? bodyLengthField) && negb (tag =? checkSumField)
        then i32 (result + getLength field) else result) fields 0 in
      fold_left (fun result '(_, gs) => fold_left (fun result g =>
        i32 (result + calculateLength g FIELD.BeginString FIELD.BodyLength FIELD.CheckSum)) gs result) groups result
  end.

Fixpoint calculateTotal (m : FieldMap) (checkSumField : Z) : Z :=
  match m with
  | mkFieldMap fields groups _ =>
      let result := fold_left (fun result field =>
        if negb (getTag field =? checkSumField) then i32 (result + getTotal field) else result) fields 0 in
      fold_left (fun result '(_, gs) => fold_left (fun result g =>
        i32 (result + calculateTotal g FIELD.CheckSum)) gs result) groups result
  end.

(** ** Group ([src/C++/Group.cpp]): a field map with the number of its count
    field and of its first field. *)

Record Group := mkGroup { g_map : FieldMap; g_field : Z; g_delim : Z }.

Definition Group_new (field delim : Z) : option Group :=
  order ← message_order_of [delim]; Some (mkGroup (new_FieldMap order) field delim).
Definition Group_with_order (field delim : Z) (order : message_order) : Group :=
  mkGroup (new_FieldMap order) field delim.

Definition Group_addGroup (g group : Group) : Group :=
  mkGroup (addGroup (g_map g) (g_field group) (g_map group) true) (g_field g) (g_delim g).
Definition Group_replaceGroup (g : Group) (num : Z) (group : Group) : Group :=
  mkGroup (replaceGroup (g_map g) (i32 num) (g_field group) (g_map group)) (g_field g) (g_delim g).
Definition Group_removeGroup (g group : Group) : Group :=
  mkGroup (removeGroup (g_map g) (g_field group)) (g_field g) (g_delim g).
Definition Group_hasGroup (g group : Group) : bool := hasGroup (g_map g) (g_field group).

(** ** Sorted fields *)

Definition sorted_by (o : message_order) (fields : list FieldBase) : Prop :=
  StronglySorted (fun f g => less o (getTag g) (getTag f) = false) fields.

Definition tags_ok (fields : list FieldBase) : Prop := Forall (fun f => tag (getTag f)) fields.

(** The first field with a tag. *)
Definition field_of (fields : list FieldBase) (t : Z) : option FieldBase :=
  List.find (fun f => t =? getTag f) fields.

Section Sorted.
Variable o : message_order.
Hypothesis Ho : built_order o.

Lemma less_irrefl x : tag x -> less o x x = false.
Proof. apply (less_strict_total o Ho). Qed.

Lemma less_trans x y z :
  tag x -> tag y -> tag z -> less o x y = true -> less o y z = true -> less o x z = true.
Proof. apply (less_strict_total o Ho). Qed.

Lemma less_total_tags x y : tag x -> tag y -> x <> y -> less o x y = true \/ less o y x = true.
Proof. apply (less_strict_total o Ho). Qed.

Lemma less_asym x y : tag x -> tag y -> less o x y = true -> less o y x = false.
Proof.
  intros Hx Hy H. destruct (less o y x) eqn:E; [|done].
  rewrite <- (less_irrefl x Hx). symmetry. by apply (less_trans x y x).
Qed.

Lemma not_less_trans x y z :
  tag x -> tag y -> tag z -> less o y x = false -> less o z y = false -> less o z x = false.
Proof.
  intros Hx Hy Hz H1 H2. destruct (less o z x) eqn:E; [|done].
  destruct (decide (x = y)) as [->|]; [congruence|].
  destruct (less_total_tags x y) as [Hxy|Hxy]; [done | done | done | | congruence].
  rewrite (less_trans z x y) in H2 by done. done.
Qed.

(** [findTag]'s binary search finds what the linear search finds. *)
Lemma lower_bound_find fields t :
  sorted_by o fields -> tags_ok fields -> tag t ->
  (match fields !! lower_bound o fields t with
   | Some f => if getTag f =? t then Some (lower_bound o fields t) else None
   | None => None
   end) = find_index (fun f => t =? getTag f) fields.
Proof.
  unfold lower_bound, position_of. induction fields as [|f fields IH]; intros Hs Ht Hx; simpl; [done|].
  inversion Hs as [|? ? Hs' Hf]; subst. apply Forall_cons in Ht as [Htf Ht].
  specialize (IH Hs' Ht Hx). destruct (less o (getTag f) t) eqn:E; simpl.
  - rewrite (proj2 (Z.eqb_neq t (getTag f))) by (intros ->; by rewrite less_irrefl in E).
    destruct (find_index (fun f0 => negb (less o (getTag f0) t)) fields) as [i|] eqn:Ei; simpl in *.
    + rewrite <- IH. destruct (fields !! i); [|done]. by case_bool.
    + rewrite <- IH. by destruct (fields !! length fields); [case_bool|].
  - rewrite (Z.eqb_sym t). destruct (Z.eqb_spec (getTag f) t) as [|Hne]; [done|].
    assert (find_index (fun f0 => t =? getTag f0) fields = None) as ->; [|done].
    assert (less o t (getTag f) = true) as Hlt.
    { destruct (less_total_tags t (getTag f)) as [|H]; [done | done | congruence | done | congruence]. }
    clear IH Hs Hs'. revert Ht Hf. induction fields as [|g fields IH]; [done|].
    intros [Htg Ht]%Forall_cons [Hg Hf]%Forall_cons. simpl.
    destruct (Z.eqb_spec t (getTag g)) as [->|]; [congruence|]. by rewrite IH.
Qed.

Lemma findTag_eq fields groups t :
  sorted_by o fields -> tags_ok fields -> tag t ->
  findTag (mkFieldMap fields groups o) t = find_index (fun f => t =? getTag f) fields.
Proof. intros Hs Ht Hx. unfold findTag. simpl. case_bool; [done|]. by apply lower_bound_find. Qed.

Lemma find_index_field fields t :
  (i ← find_index (fun f => t =? getTag f) fields; fields !! i) = field_of fields t.
Proof.
  induction fields as [|f fields IH]; simpl; [done|].
  case_bool; [done|]. rewrite <- IH. by destruct (find_index _ fields).
Qed.

Lemma getFieldIfSet_eq fields groups t :
  sorted_by o fields -> tags_ok fields -> tag t ->
  getFieldIfSet (mkFieldMap fields groups o) t = field_of fields t.
Proof. intros Hs Ht Hx. unfold getFieldIfSet. by rewrite findTag_eq, <- find_index_field. Qed.

(** ** Insertion *)

(** Insertion at the upper bound, one field at a time. *)
Fixpoint insert_upper (f : FieldBase) (fields : list FieldBase) : list FieldBase :=
  match fields with
  | [] => [f]
  | g :: rest => if less o (getTag f) (getTag g) then f :: fields else g :: insert_upper f rest
  end.

Lemma insert_at_upper f fields :
  insert_at (upper_bound o fields (getTag f)) f fields = insert_upper f fields.
Proof.
  unfold upper_bound, position_of, insert_at. induction fields as [|g fields IH]; simpl; [done|].
  destruct (less o (getTag f) (getTag g)); simpl; [done|].
  destruct (find_index _ fields) as [i|]; simpl in *; by rewrite IH.
Qed.

Lemma insert_upper_perm f fields : insert_upper f fields ≡ₚ f :: fields.
Proof.
  induction fields as [|g fields IH]; simpl; [done|].
  destruct (less _ _ _); [done|]. rewrite IH. constructor.
Qed.

Lemma insert_upper_last f fields :
  tag (getTag f) -> tags_ok fields ->
  Forall (fun g => less o (getTag f) (getTag g) = false) fields -> insert_upper f fields = fields ++ [f].
Proof.
  intros Hf Ht Hall. induction fields as [|g fields IH]; simpl; [done|].
  apply Forall_cons in Ht as [Htg Ht]. apply Forall_cons in Hall as [Hg Hall].
  rewrite Hg, IH by done. done.
Qed.

Lemma sorted_last fields g :
  sorted_by o fields -> tags_ok fields -> last fields = Some g ->
  Forall (fun f => less o (getTag g) (getTag f) = false) fields.
Proof.
  intros Hs Ht Hl. apply last_Some in Hl as [l' ->].
  induction l' as [|f l' IH]; simpl in *.
  - apply Forall_cons in Ht as [Htg _]. constructor; [by apply less_irrefl | constructor].
  - inversion Hs as [|? ? Hs' Hf]; subst. apply Forall_cons in Ht as [Htf Ht]. constructor.
    + rewrite Forall_forall in Hf. apply Hf, elem_of_app. right. left.
    + by apply IH.
Qed.

Lemma addField_eq fields groups f :
  sorted_by o fields -> tags_ok fields -> tag (getTag f) ->
  addField (mkFieldMap fields groups o) f = mkFieldMap (insert_upper f fields) groups o.
Proof.
  intros Hs Ht Hf. unfold addField, with_fields. simpl. f_equal. unfold findPositionFor. simpl.
  destruct (last fields) as [g|] eqn:El.
  - destruct (less o (getTag g) (getTag f) || (getTag g =? getTag f)) eqn:Eb; [|apply insert_at_upper].
    pose proof (sorted_last fields g Hs Ht El) as Hall.
    assert (tag (getTag g)) as Hg.
    { apply last_Some in El as [l' ->]. apply Forall_app in Ht as [_ Ht]. by apply Forall_cons in Ht as [Ht _]. }
    rewrite insert_upper_last; try done.
    + unfold insert_at. by rewrite take_ge, drop_ge by done.
    + clear El. induction Hall as [|h fields Hh Hall IH]; [constructor|].
      inversion Hs; subst. apply Forall_cons in Ht as [Hth Ht]. constructor; [|by apply IH].
      apply (not_less_trans (getTag h) (getTag g) (getTag f)); try done.
      apply orb_true_iff in Eb as [Eb|Eb]; [by apply less_asym|].
      apply Z.eqb_eq in Eb. rewrite Eb. by apply less_irrefl.
  - apply last_None in El as ->. done.
Qed.

Lemma insert_upper_tags f fields : tag (getTag f) -> tags_ok fields -> tags_ok (insert_upper f fields).
Proof. intros Hf Ht. unfold tags_ok. rewrite insert_upper_perm. by constructor. Qed.

Lemma insert_upper_sorted f fields :
  sorted_by o fields -> tags_ok fields -> tag (getTag f) -> sorted_by o (insert_upper f fields).
Proof.
  intros Hs Ht Hf. induction Hs as [|g fields Hs IH Hg]; simpl; [repeat constructor|].
  apply Forall_cons in Ht as [Htg Ht].
  destruct (less o (getTag f) (getTag g)) eqn:E.
  - constructor; [by constructor|]. constructor; [by apply less_asym|].
    rewrite Forall_forall in *. intros h Hh.
    apply (not_less_trans (getTag f) (getTag g) (getTag h));
      [done | done | | by apply less_asym | by apply Hg].
    by apply Ht.
  - constructor; [by apply IH|]. rewrite insert_upper_perm. by constructor.
Qed.

Lemma field_of_above fields t :
  tag t -> tags_ok fields -> Forall (fun g => less o t (getTag g) = true) fields -> field_of fields t = None.
Proof.
  intros Hx Ht Hall. induction Hall as [|g fields Hg _ IH]; [done|].
  apply Forall_cons in Ht as [Htg Ht]. simpl.
  destruct (Z.eqb_spec t (getTag g)) as [->|]; [by rewrite less_irrefl in Hg | by apply IH].
Qed.

Lemma field_of_insert f fields t :
  sorted_by o fields -> tags_ok fields -> tag (getTag f) -> tag t ->
  field_of (insert_upper f fields) t =
    if t =? getTag f then Some (default f (field_of fields t)) else field_of fields t.
Proof.
  intros Hs Ht Hf Hx. induction Hs as [|g fields Hs IH Hg]; simpl; [by case_bool|].
  pose proof Ht as Ht'. apply Forall_cons in Ht as [Htg Ht].
  destruct (less o (getTag f) (getTag g)) eqn:E; simpl.
  - destruct (Z.eqb_spec t (getTag f)) as [->|]; [|done].
    pose proof (field_of_above (g :: fields) (getTag f) Hf Ht') as Hn. simpl in Hn. rewrite Hn; [done|].
    constructor; [done|]. rewrite Forall_forall in *. intros h Hh.
    pose proof (Ht h Hh). specialize (Hg h Hh).
    destruct (decide (getTag g = getTag h)) as [<-|]; [done|].
    destruct (less_total_tags (getTag g) (getTag h)) as [|Hx']; [done | done | done | | congruence].
    by apply (less_trans _ (getTag g)).
  - rewrite IH by done. destruct (Z.eqb_spec t (getTag g)), (Z.eqb_spec t (getTag f)); done.
Qed.

(** ** Update in place and removal keep the order. *)

Definition same_tags (fields fields' : list FieldBase) : Prop := map getTag fields = map getTag fields'.

Lemma sorted_by_tags fields fields' : same_tags fields fields' -> sorted_by o fields -> sorted_by o fields'.
Proof.
  unfold same_tags. revert fields'. induction fields as [|f fields IH]; intros [|f' fields']; try done.
  simpl. intros [= E1 E2] Hs. inversion Hs as [|? ? Hs' Hf]; subst. constructor; [by apply IH|].
  apply Forall_forall. intros h Hh. rewrite Forall_forall in Hf.
  apply (list_elem_of_fmap_2 getTag) in Hh. unfold fmap in Hh.
  change (list_fmap _ _ getTag fields') with (map getTag fields') in Hh. rewrite <- E2 in Hh.
  apply (list_elem_of_fmap_1 getTag) in Hh as (h' & -> & Hh'). rewrite <- E1. by apply Hf.
Qed.

Lemma tags_ok_tags fields fields' : same_tags fields fields' -> tags_ok fields -> tags_ok fields'.
Proof.
  unfold same_tags, tags_ok. intros E H. apply Forall_map. rewrite <- E. by apply Forall_map.
Qed.
End Sorted.

Lemma alter_same_tags (h : FieldBase -> FieldBase) i fields :
  (forall f, getTag (h f) = getTag f) -> same_tags fields (alter h i fields).
Proof.
  intros Hh. unfold same_tags. revert i. induction fields as [|f fields IH]; intros [|i]; simpl; [done..| |].
  - by rewrite Hh.
  - f_equal. apply IH.
Qed.

Lemma field_of_alter (h : FieldBase -> FieldBase) fields t t' i :
  (forall f, getTag (h f) = getTag f) ->
  find_index (fun f => t =? getTag f) fields = Some i ->
  field_of (alter h i fields) t' = if t' =? t then h <$> field_of fields t' else field_of fields t'.
Proof.
  intros Hh. unfold field_of. revert i. induction fields as [|f fields IH]; intros i; simpl; [done|].
  destruct (Z.eqb_spec t (getTag f)) as [->|Hne].
  - intros [= <-]. simpl. rewrite Hh. by destruct (Z.eqb_spec t' (getTag f)).
  - destruct (find_index _ fields) as [k|] eqn:Ek; simpl; intros [= <-].
    change (alter h (S k) (f :: fields)) with (f :: alter h k fields). cbn [List.find].
    rewrite IH by done. destruct (Z.eqb_spec t' (getTag f)), (Z.eqb_spec t' t); congruence.
Qed.

Lemma sublist_sorted o fields fields' : sublist fields' fields -> sorted_by o fields -> sorted_by o fields'.
Proof.
  intros Hsub. induction Hsub as [|f l1 l2 Hsub IH|f l1 l2 Hsub IH]; intros Hs; [done| |].
  - inversion Hs as [|? ? Hs' Hf]; subst. constructor; [by apply IH|].
    rewrite Forall_forall in *. intros x Hx. apply Hf. by apply (elem_of_sublist l1).
  - inversion Hs; subst. by apply IH.
Qed.

Lemma erase_at_sublist {A} i (l : list A) : sublist (erase_at i l) l.
Proof.
  unfold erase_at. rewrite <- (take_drop i l) at 3. apply sublist_app; [done|].
  replace (S i) with (i + 1)%nat by lia. rewrite <- drop_drop. apply sublist_drop.
Qed.

(** ** Well-formed field maps *)

Section Induction.
Variable P : FieldMap -> Prop.
Hypothesis step : forall fields groups order,
  Forall (fun p => Forall P (snd p)) groups -> P (mkFieldMap fields groups order).

(** Induction over a field map and the groups inside it. *)
Fixpoint FieldMap_nested_ind (m : FieldMap) : P m :=
  match m with
  | mkFieldMap fields groups order =>
      step fields groups order
        ((fix on_groups (gs : list (Z * list FieldMap)) : Forall (fun p => Forall P (snd p)) gs :=
            match gs with
            | [] => @List.Forall_nil _ _
            | (t, l) :: gs =>
                @List.Forall_cons _ (fun p => Forall P (snd p)) (t, l) gs
                  ((fix on_list (l : list FieldMap) : Forall P l :=
                      match l with
                      | [] => @List.Forall_nil _ _
                      | x :: l => @List.Forall_cons _ _ x l (FieldMap_nested_ind x) (on_list l)
                      end) l) (on_groups gs)
            end) groups)
  end.
End Induction.

Definition fields_ok (o : message_order) (fields : list FieldBase) : Prop :=
  sorted_by o fields /\ tags_ok fields /\ Forall field_ok fields.

Definition all_of (ps : list Prop) : Prop := fold_right and True ps.

(** The order is one a program can build, the fields are in that order, have
    valid tags and correct cached metrics, and so on in every group. *)
Fixpoint wf (m : FieldMap) : Prop :=
  match m with
  | mkFieldMap fields groups o =>
      built_order o /\ fields_ok o fields /\ ordered groups /\
      all_of (map (fun '(t, gs) => tag t /\ gs <> [] /\ all_of (map wf gs)) groups)
  end.

Lemma all_of_Forall {A} (P : A -> Prop) (l : list A) : all_of (map P l) <-> Forall P l.
Proof. induction l as [|x l IH]; simpl; [by split|]. by rewrite IH, Forall_cons. Qed.

Definition group_ok (p : Z * list FieldMap) : Prop := tag (fst p) /\ snd p <> [] /\ Forall wf (snd p).

Lemma wf_eq m :
  wf m <-> built_order (m_order m) /\ fields_ok (m_order m) (m_fields m) /\ ordered (m_groups m) /\
           Forall group_ok (m_groups m).
Proof.
  destruct m as [fields groups o]. simpl. rewrite <- (all_of_Forall group_ok).
  assert (map (fun '(t, gs) => tag t /\ gs <> [] /\ all_of (map wf gs)) groups =
          map (fun p => tag (fst p) /\ snd p <> [] /\ all_of (map wf (snd p))) groups) as ->
    by (apply map_ext; by intros []).
  assert (forall gs, all_of (map (fun p => tag (fst p) /\ snd p <> [] /\ all_of (map wf (snd p))) gs) <->
                     all_of (map group_ok gs)) as ->; [|done].
  intros gs. rewrite !all_of_Forall. apply Forall_iff. intros p. unfold group_ok. by rewrite all_of_Forall.
Qed.

Lemma wf_new o : built_order o -> wf (new_FieldMap o).
Proof.
  intros H. apply wf_eq. simpl. split_and!; [done | | apply ordered_nil | constructor].
  split_and!; constructor.
Qed.

Lemma wf_with_fields m fields : wf m -> fields_ok (m_order m) fields -> wf (with_fields m fields).
Proof. rewrite !wf_eq. simpl. tauto. Qed.

Lemma wf_with_groups m groups : wf m -> ordered groups -> Forall group_ok groups -> wf (with_groups m groups).
Proof. rewrite !wf_eq. simpl. tauto. Qed.

Lemma wf_addField m f : wf m -> tag (getTag f) -> field_ok f -> wf (addField m f).
Proof.
  intros Hm Ht Hf. pose proof Hm as (Ho & (Hs & Htags & Hok) & _)%wf_eq.
  destruct m as [fields groups o]. cbn [m_order m_fields m_groups] in *. rewrite addField_eq by done.
  apply (wf_with_fields (mkFieldMap fields groups o)); [done|]. simpl. split_and!.
  - by apply insert_upper_sorted.
  - by apply insert_upper_tags.
  - rewrite insert_upper_perm. by constructor.
Qed.

Lemma Forall_alter_ok (i : nat) v fields :
  Forall field_ok fields -> Forall field_ok (alter (fun f => setString f v) i fields).
Proof. intros H. apply Forall_alter; [done|]. intros. by apply setString_ok. Qed.

Lemma wf_setField m f : wf m -> tag (getTag f) -> field_ok f -> wf (setField m f).
Proof.
  intros Hm Ht Hf. unfold setField, setField_overwrite. simpl.
  destruct (findTag m (getTag f)) as [i|]; [|by apply wf_addField].
  pose proof Hm as (Ho & (Hs & Htags & Hok) & _)%wf_eq. apply wf_with_fields; [done|].
  pose proof (alter_same_tags (fun f' => setString f' (getString f)) i (m_fields m) (fun _ => eq_refl)) as Hsame.
  split_and!.
  - by apply (sorted_by_tags _ (m_fields m)).
  - by apply (tags_ok_tags (m_fields m)).
  - by apply Forall_alter_ok.
Qed.

Lemma tag_in_range t : tag t -> in_range int32_t t = true.
Proof. intros H. apply andb_true_iff. unfold tag, VALUE_MIN, VALUE_MAX in *. simpl. rewrite !Z.leb_le. lia. Qed.

Lemma wf_setField_tag m t v : wf m -> tag t -> wf (setField m (Field t v)).
Proof. intros Hm Ht. apply wf_setField; [done | done |]. by apply Field_ok, tag_in_range. Qed.

Lemma Forall_sublist' {A} (P : A -> Prop) l l' : sublist l' l -> Forall P l -> Forall P l'.
Proof. rewrite !Forall_forall. intros Hsub H x Hx. apply H. by apply (elem_of_sublist l'). Qed.

Lemma wf_eraseField m t m' : wf m -> eraseField m t = Some m' -> wf m'.
Proof.
  intros Hm He. unfold eraseField in He. destruct (findTag m t) as [i|]; [|done].
  injection He as <-. pose proof Hm as (Ho & (Hs & Htags & Hok) & _)%wf_eq. apply wf_with_fields; [done|].
  pose proof (erase_at_sublist i (m_fields m)) as Hsub.
  split_and!; [by apply (sublist_sorted _ (m_fields m)) | |];
    by apply (Forall_sublist' _ (m_fields m)).
Qed.

Lemma Forall_map_set (P : Z * list FieldMap -> Prop) t gs groups :
  P (t, gs) -> Forall P groups -> Forall P (map_set t gs groups).
Proof.
  intros Hp. induction 1 as [|[t' gs'] groups Hp' Hall IH]; simpl; [by repeat constructor|].
  destruct (t =? t'); [by constructor|]. destruct (t <? t'); by repeat constructor.
Qed.

Lemma Forall_map_erase (P : Z * list FieldMap -> Prop) t groups : Forall P groups -> Forall P (map_erase t groups).
Proof.
  induction 1 as [|[t' gs] groups Hp Hall IH]; simpl; [constructor|]. destruct (t =? t'); [done | by constructor].
Qed.

Lemma wf_removeGroup m t : wf m -> wf (removeGroup m t).
Proof.
  intros Hm. unfold removeGroup. destruct (groupsOf m t); [|done].
  assert (wf (with_groups m (map_erase t (m_groups m)))) as Hm'.
  { pose proof Hm as (_ & _ & Hord & Hgs)%wf_eq. apply wf_with_groups; auto using Forall_map_erase. }
  destruct (eraseField _ t) eqn:E; [by eapply wf_eraseField | done].
Qed.

Lemma wf_removeField m t : wf m -> wf (removeField m t).
Proof.
  intros Hm. unfold removeField. destruct (eraseField m t) eqn:E; [|done].
  apply wf_removeGroup. by eapply wf_eraseField.
Qed.

Lemma wf_groupsOf m t gs : wf m -> groupsOf m t = Some gs -> group_ok (t, gs).
Proof.
  intros (_ & _ & _ & Hgs)%wf_eq H. apply map_lookup_Some in H.
  rewrite Forall_forall in Hgs. by apply Hgs.
Qed.

Lemma wf_set_groups m t gs : wf m -> tag t -> gs <> [] -> Forall wf gs ->
  wf (with_groups m (map_set t gs (m_groups m))).
Proof.
  intros Hm Ht Hne Hgs. pose proof Hm as (_ & _ & Hord & Hall)%wf_eq.
  apply wf_with_groups; [done | auto |]. by apply Forall_map_set.
Qed.

Lemma wf_addGroup m t g b : wf m -> tag t -> wf g -> wf (addGroup m t g b).
Proof.
  intros Hm Ht Hg. unfold addGroup, addGroupPtr.
  assert (wf (with_groups m (map_set t (default [] (groupsOf m t) ++ [g]) (m_groups m)))) as Hm'.
  { apply wf_set_groups; [done | done | by destruct (default [] (groupsOf m t)) |].
    apply Forall_app. split; [|by repeat constructor].
    destruct (groupsOf m t) as [gs|] eqn:E; simpl; [|constructor].
    by apply (wf_groupsOf m t gs) in E as (_ & _ & ?). }
  destruct b; [|done]. by apply wf_setField_tag.
Qed.

Lemma wf_replaceGroup m n t g : wf m -> wf g -> wf (replaceGroup m n t g).
Proof.
  intros Hm Hg. unfold replaceGroup. destruct (groupsOf m t) as [gs|] eqn:E; [|done].
  repeat case_bool; try done. apply (wf_groupsOf m t gs) in E as (Ht & Hne & Hgs); [|done]. simpl in *.
  apply wf_set_groups; [done | done | |by apply Forall_insert].
  intros H1. apply (f_equal length) in H1. rewrite length_insert in H1. by destruct gs.
Qed.

Lemma wf_removeGroup_num m n t : wf m -> wf (removeGroup_num m n t).
Proof.
  intros Hm. unfold removeGroup_num. destruct (groupsOf m t) as [gs|] eqn:E; [|done].
  repeat case_bool; try done. apply (wf_groupsOf m t gs) in E as (Ht & Hne & Hgs); [|done]. simpl in *.
  destruct (Nat.eqb_spec (length (erase_at (Z.to_nat (n - 1)) gs)) 0).
  - apply wf_removeField. pose proof Hm as (_ & _ & Hord & Hall)%wf_eq.
    apply wf_with_groups; auto using Forall_map_erase.
  - apply wf_setField_tag; [|done]. apply wf_set_groups; [done | done | |].
    + intros E'. by rewrite E' in *.
    + apply (Forall_sublist' _ gs); [apply erase_at_sublist | done].
Qed.

Lemma wf_clear m : wf m -> wf (clear m).
Proof. intros (Ho & _)%wf_eq. by apply wf_new. Qed.

(** ** Reading back *)

Lemma eta_FieldMap m : m = mkFieldMap (m_fields m) (m_groups m) (m_order m).
Proof. by destruct m. Qed.

Lemma getFieldIfSet_wf m t : wf m -> tag t -> getFieldIfSet m t = field_of (m_fields m) t.
Proof.
  intros (Ho & (Hs & Ht & _) & _)%wf_eq Hx. rewrite (eta_FieldMap m) at 1. by apply getFieldIfSet_eq.
Qed.

Lemma findTag_wf m t : wf m -> tag t -> findTag m t = find_index (fun f => t =? getTag f) (m_fields m).
Proof.
  intros (Ho & (Hs & Ht & _) & _)%wf_eq Hx. rewrite (eta_FieldMap m) at 1. by apply findTag_eq.
Qed.

Lemma find_index_None fields t :
  find_index (fun f => t =? getTag f) fields = None <-> field_of fields t = None.
Proof.
  induction fields as [|f fields IH]; simpl; [done|]. case_bool; [done|]. rewrite <- IH.
  by destruct (find_index _ fields).
Qed.

(** The fields [setField] leaves: the named one replaced or added. *)
Lemma field_of_setField m f t :
  wf m -> tag (getTag f) -> tag t ->
  field_of (m_fields (setField m f)) t =
    if t =? getTag f then
      Some (match field_of (m_fields m) t with Some g => setString g (getString f) | None => f end)
    else field_of (m_fields m) t.
Proof.
  intros Hm Hf Ht. unfold setField, setField_overwrite. cbn [negb].
  destruct (findTag m (getTag f)) as [i|] eqn:E; rewrite findTag_wf in E by done.
  - unfold with_fields. cbn [m_fields]. rewrite (field_of_alter _ _ (getTag f)) by done.
    destruct (Z.eqb_spec t (getTag f)) as [->|]; [|done].
    destruct (field_of (m_fields m) (getTag f)) eqn:Ef; [done|].
    apply find_index_None in Ef. congruence.
  - apply find_index_None in E. pose proof Hm as (Ho & (Hs & Htags & _) & _)%wf_eq.
    rewrite (eta_FieldMap m), addField_eq by done. cbn [m_fields]. rewrite field_of_insert by done.
    destruct (Z.eqb_spec t (getTag f)) as [->|]; [by rewrite E | done].
Qed.

Lemma field_of_tag fields t f : field_of fields t = Some f -> getTag f = t /\ f ∈ fields.
Proof.
  unfold field_of. intros H. apply List.find_some in H as [H1 H2].
  apply Z.eqb_eq in H2. split; [done|]. by apply list_elem_of_In.
Qed.

Lemma getField_setField m f t :
  wf m -> tag (getTag f) -> field_ok f -> tag t ->
  getField (setField m f) t = if t =? getTag f then Ok (getString f) else getField m t.
Proof.
  intros Hm Hf Hok Ht. unfold getField, getFieldRef.
  assert (wf (setField m f)) by (by apply wf_setField).
  rewrite !getFieldIfSet_wf, field_of_setField by done.
  destruct (Z.eqb_spec t (getTag f)) as [->|]; [|done].
  by destruct (field_of (m_fields m) (getTag f)).
Qed.

Lemma isSetField_wf m t : wf m -> tag t -> isSetField m t = match field_of (m_fields m) t with Some _ => true | None => false end.
Proof.
  intros Hm Ht. unfold isSetField. rewrite findTag_wf by done.
  destruct (find_index _ _) eqn:E, (field_of _ _) eqn:E'; try done.
  - apply find_index_None in E'. congruence.
  - apply find_index_None in E. congruence.
Qed.

(** ** Unique tags *)

Definition unique (m : FieldMap) : Prop := NoDup (map getTag (m_fields m)).

Lemma field_of_None fields t : field_of fields t = None <-> t ∉ map getTag fields.
Proof.
  induction fields as [|f fields IH]; simpl.
  - split; [intros _; apply not_elem_of_nil | done].
  - rewrite not_elem_of_cons, <- IH. case_bool; [|tauto]. split; [done | by intros []].
Qed.

Lemma unique_setField m f : wf m -> tag (getTag f) -> unique m -> unique (setField m f).
Proof.
  intros Hm Hf Hu. unfold setField, setField_overwrite. cbn [negb].
  destruct (findTag m (getTag f)) as [i|] eqn:E; rewrite findTag_wf in E by done.
  - unfold unique, with_fields. cbn [m_fields].
    by rewrite <- (alter_same_tags (fun f' => setString f' (getString f)) i (m_fields m)).
  - apply find_index_None, field_of_None in E. pose proof Hm as (Ho & (Hs & Htags & _) & _)%wf_eq.
    rewrite (eta_FieldMap m), addField_eq by done. unfold unique. cbn [m_fields].
    rewrite insert_upper_perm. simpl. by constructor.
Qed.

Lemma field_of_erase fields t t' i :
  find_index (fun f => t =? getTag f) fields = Some i -> NoDup (map getTag fields) ->
  field_of (erase_at i fields) t' = if t' =? t then None else field_of fields t'.
Proof.
  unfold field_of, erase_at. revert i. induction fields as [|f fields IH]; intros i; simpl; [done|].
  intros Hi [Hx Hn]%NoDup_cons. destruct (Z.eqb_spec t (getTag f)) as [->|Hne].
  - injection Hi as <-. simpl. rewrite drop_0.
    destruct (Z.eqb_spec t' (getTag f)) as [E|]; [|done]. rewrite E. by apply field_of_None.
  - destruct (find_index _ fields) as [k|] eqn:Ek; simpl in Hi; [|done]. injection Hi as <-. simpl.
    rewrite IH by done. destruct (Z.eqb_spec t' (getTag f)), (Z.eqb_spec t' t); congruence.
Qed.

Lemma eraseField_spec m t :
  wf m -> tag t -> unique m ->
  match eraseField m t with
  | None => field_of (m_fields m) t = None
  | Some m' => field_of (m_fields m) t <> None /\ unique m' /\ m_groups m' = m_groups m /\
      forall t', field_of (m_fields m') t' = if t' =? t then None else field_of (m_fields m) t'
  end.
Proof.
  intros Hm Ht Hu. unfold eraseField. rewrite findTag_wf by done.
  destruct (find_index _ (m_fields m)) as [i|] eqn:E; simpl.
  - split_and!.
    + intros Hn%find_index_None. congruence.
    + unfold unique in *. simpl. eapply sublist_NoDup; [exact Hu|].
      apply (fmap_sublist getTag), erase_at_sublist.
    + done.
    + intros t'. by apply field_of_erase.
  - by apply find_index_None.
Qed.

(** ** Group counts

    The fields name every tag once, and every group's tag holds its count. *)
Definition count_text (n : nat) : str := IntConvertor_convert (i32 (Z.of_nat n)).

Definition counted (m : FieldMap) : Prop :=
  unique m /\
  forall t gs, groupsOf m t = Some gs -> getString <$> field_of (m_fields m) t = Some (count_text (length gs)).

Lemma counted_new o : counted (new_FieldMap o).
Proof. split; [constructor | done]. Qed.

Lemma counted_setField m f :
  wf m -> tag (getTag f) -> counted m ->
  (forall gs, groupsOf m (getTag f) = Some gs -> getString f = count_text (length gs)) ->
  counted (setField m f).
Proof.
  intros Hm Hf [Hu Hc] Hgs. split; [by apply unique_setField|].
  assert (m_groups (setField m f) = m_groups m) as Eg.
  { unfold setField, setField_overwrite. cbn [negb]. by destruct (findTag m (getTag f)). }
  intros t gs. unfold groupsOf. rewrite Eg. fold (groupsOf m t). intros Hg.
  pose proof (wf_groupsOf m t gs Hm Hg) as (Ht & _). simpl in Ht.
  rewrite field_of_setField by done. destruct (Z.eqb_spec t (getTag f)) as [->|]; [|by apply Hc].
  rewrite <- (Hgs gs Hg). by destruct (field_of (m_fields m) (getTag f)).
Qed.

(** Writing a group list together with its count. *)
Lemma counted_set_groups m t gs :
  wf m -> tag t -> gs <> [] -> Forall wf gs -> counted m ->
  counted (setField (with_groups m (map_set t gs (m_groups m))) (IntField t (i32 (Z.of_nat (length gs))))).
Proof.
  intros Hm Ht Hne Hgs [Hu Hc].
  set (m' := with_groups m (map_set t gs (m_groups m))).
  assert (wf m') as Hm' by (by apply wf_set_groups).
  pose proof Hm as (_ & _ & Hord & _)%wf_eq.
  assert (forall t', groupsOf m' t' = if t' =? t then Some gs else groupsOf m t') as Eg.
  { intros t'. unfold groupsOf, m'. simpl. destruct (Z.eqb_spec t' t) as [->|].
    - by apply map_lookup_set.
    - by apply map_lookup_set_ne. }
  set (f := IntField t (i32 (Z.of_nat (length gs)))).
  assert (m_groups (setField m' f) = m_groups m') as Egs.
  { unfold setField, setField_overwrite. cbn [negb]. by destruct (findTag m' (getTag f)). }
  split; [by apply unique_setField|]. intros t' gs'. unfold groupsOf at 1. rewrite Egs. fold (groupsOf m' t').
  intros Hg. pose proof (wf_groupsOf m' t' gs' Hm' Hg) as (Ht' & _). simpl in Ht'.
  rewrite field_of_setField by done. rewrite Eg in Hg. subst f. simpl.
  destruct (Z.eqb_spec t' t) as [->|]; [|by apply Hc].
  injection Hg as <-. by destruct (field_of (m_fields m) t).
Qed.

Lemma counted_addGroup m t g : wf m -> tag t -> wf g -> counted m -> counted (addGroup m t g true).
Proof.
  intros Hm Ht Hg Hc. unfold addGroup, addGroupPtr. apply counted_set_groups; try done.
  - by destruct (default [] (groupsOf m t)).
  - apply Forall_app. split; [|by repeat constructor].
    destruct (groupsOf m t) as [gs|] eqn:E; simpl; [|constructor].
    by apply (wf_groupsOf m t gs) in E as (_ & _ & ?).
Qed.

(** Removing the groups and the count field of a tag. *)
Lemma counted_erase m t :
  wf m -> tag t -> counted m ->
  let m' := with_groups m (map_erase t (m_groups m)) in counted (default m' (eraseField m' t)).
Proof.
  intros Hm Ht [Hu Hc] m'. pose proof Hm as (_ & _ & Hord & Hall)%wf_eq.
  assert (wf m') as Hm' by (apply wf_with_groups; auto using Forall_map_erase).
  pose proof (eraseField_spec m' t Hm' Ht Hu) as He.
  assert (forall t' gs, groupsOf m' t' = Some gs -> t' <> t /\ groupsOf m t' = Some gs) as Eg.
  { unfold groupsOf, m'. simpl. intros t' gs H. destruct (decide (t' = t)) as [->|].
    - by rewrite map_lookup_erase in H.
    - by rewrite map_lookup_erase_ne in H. }
  destruct (eraseField m' t) as [m''|]; simpl.
  - destruct He as (_ & Hu' & Egs & Hf). split; [done|]. intros t' gs. unfold groupsOf. rewrite Egs.
    fold (groupsOf m' t'). intros [Hne Hg]%Eg. rewrite Hf, (proj2 (Z.eqb_neq t' t)) by done. by apply Hc.
  - split; [done|]. intros t' gs [Hne Hg]%Eg. by apply Hc.
Qed.

Lemma counted_removeGroup m t : wf m -> tag t -> counted m -> counted (removeGroup m t).
Proof.
  intros Hm Ht Hc. unfold removeGroup. destruct (groupsOf m t); [|done]. by apply counted_erase.
Qed.

Lemma removeField_eq m t :
  wf m -> tag t -> unique m -> removeField m t =
    let m' := with_groups m (map_erase t (m_groups m)) in
    match eraseField m t with Some _ => default m' (eraseField m' t) | None => m end.
Proof.
  intros Hm Ht Hu. unfold removeField, eraseField. 
  assert (findTag (with_groups m (map_erase t (m_groups m))) t = findTag m t) as -> by done.
  destruct (findTag m t) as [i|] eqn:E; [|done]. simpl.
  set (m1 := with_fields m (erase_at i (m_fields m))).
  assert (findTag (with_groups m1 (map_erase t (m_groups m1))) t = None) as Hnone.
  { assert (eraseField m t = Some m1) as He by (unfold eraseField; by rewrite E).
    pose proof (eraseField_spec m t Hm Ht Hu) as Hs. rewrite He in Hs. destruct Hs as (_ & _ & Eg & Hf).
    pose proof (wf_eraseField m t m1 Hm He) as Hm1. pose proof Hm1 as (_ & _ & Hord & Hall)%wf_eq.
    rewrite findTag_wf; [|apply wf_with_groups; auto using Forall_map_erase | done].
    simpl. apply find_index_None. specialize (Hf t). rewrite Z.eqb_refl in Hf. done. }
  unfold removeGroup, eraseField. rewrite Hnone. simpl.
  unfold groupsOf. change (m_groups m1) with (m_groups m).
  destruct (map_lookup t (m_groups m)) eqn:Eg; [done|].
  unfold with_groups. simpl. unfold m1, with_fields. f_equal.
  clear -Eg. symmetry. induction (m_groups m) as [|[t' gs] l IH]; simpl in *; [done|].
  destruct (Z.eqb_spec t t'); [done|]. by rewrite IH.
Qed.

Lemma counted_removeField m t : wf m -> tag t -> counted m -> counted (removeField m t).
Proof.
  intros Hm Ht Hc. rewrite removeField_eq by (done || apply Hc). cbn zeta.
  destruct (eraseField m t); [|done]. by apply counted_erase.
Qed.

Lemma counted_removeGroup_num m n t : wf m -> tag t -> counted m -> counted (removeGroup_num m n t).
Proof.
  intros Hm Ht Hc. unfold removeGroup_num. destruct (groupsOf m t) as [gs|] eqn:E; [|done].
  repeat case_bool; try done.
  apply (wf_groupsOf m t gs) in E as (_ & Hne & Hgs); [|done]. simpl in *.
  destruct (Nat.eqb_spec (length (erase_at (Z.to_nat (n - 1)) gs)) 0) as [|Hl].
  - pose proof Hm as (_ & _ & Hord & Hall)%wf_eq.
    assert (wf (with_groups m (map_erase t (m_groups m)))) as Hm' by (apply wf_with_groups; auto using Forall_map_erase).
    rewrite removeField_eq by (done || apply Hc). cbn zeta.
    change (m_groups (with_groups m (map_erase t (m_groups m)))) with (map_erase t (m_groups m)).
    assert (map_erase t (map_erase t (m_groups m)) = map_erase t (m_groups m)) as Eq.
    { pose proof (map_lookup_erase t (m_groups m) Hord) as Hn. clear -Hn.
      induction (map_erase t (m_groups m)) as [|[t' gs] l IH]; simpl in *; [done|].
      destruct (Z.eqb_spec t t'); [done|]. by rewrite IH. }
    rewrite Eq. pose proof (counted_erase m t Hm Ht Hc) as Hce. cbn zeta in Hce.
    change (with_groups (with_groups m (map_erase t (m_groups m))) (map_erase t (m_groups m)))
      with (with_groups m (map_erase t (m_groups m))).
    revert Hce. by destruct (eraseField (with_groups m (map_erase t (m_groups m))) t).
  - apply counted_set_groups; try done; [by intros E'; rewrite E' in Hl|].
    apply (Forall_sublist' _ gs); [apply erase_at_sublist | done].
Qed.

(** ** Sorting *)

Section Sort.
Variable o : message_order.
Hypothesis Ho : built_order o.

Lemma is_sorted_sorted fields : tags_ok fields -> is_sorted o fields = true -> sorted_by o fields.
Proof.
  induction fields as [|f fields IH]; intros Ht Hs; [constructor|].
  apply Forall_cons in Ht as [Hf Ht]. simpl in Hs.
  destruct fields as [|g fields]; [repeat constructor|].
  apply andb_true_iff in Hs as [Hfg%negb_true_iff Hs]. specialize (IH Ht Hs).
  constructor; [done|]. apply Forall_cons in Ht as [Hg Ht]. constructor; [done|].
  inversion IH as [|? ? _ Hall]; subst. rewrite Forall_forall in *. intros h Hh.
  apply (not_less_trans o Ho (getTag f) (getTag g) (getTag h)); auto.
Qed.

Lemma insert_sorted_perm f fields : insert_sorted o f fields ≡ₚ f :: fields.
Proof.
  induction fields as [|g fields IH]; simpl; [done|].
  destruct (less _ _ _); [|done]. rewrite IH. constructor.
Qed.

Lemma sort_perm fields : sort o fields ≡ₚ fields.
Proof. induction fields as [|f fields IH]; simpl; [done|]. by rewrite insert_sorted_perm, IH. Qed.

Lemma insert_sorted_sorted f fields :
  tag (getTag f) -> tags_ok fields -> sorted_by o fields -> sorted_by o (insert_sorted o f fields).
Proof.
  intros Hf Ht Hs. induction Hs as [|g fields Hs IH Hg]; simpl; [repeat constructor|].
  apply Forall_cons in Ht as [Htg Ht]. destruct (less o (getTag g) (getTag f)) eqn:E.
  - constructor; [by apply IH|]. rewrite insert_sorted_perm. constructor; [|done].
    by apply (less_asym o Ho).
  - constructor; [by constructor|]. constructor; [done|].
    rewrite Forall_forall in *. intros h Hh.
    apply (not_less_trans o Ho (getTag f) (getTag g) (getTag h)); auto.
Qed.

Lemma sort_sorted fields : tags_ok fields -> sorted_by o (sort o fields).
Proof.
  induction fields as [|f fields IH]; intros Ht; simpl; [constructor|].
  apply Forall_cons in Ht as [Hf Ht]. apply insert_sorted_sorted; [done | | by apply IH].
  unfold tags_ok. by rewrite sort_perm.
Qed.
End Sort.

Lemma sortFields_spec m :
  built_order (m_order m) -> tags_ok (m_fields m) ->
  sorted_by (m_order m) (m_fields (sortFields m)) /\ m_fields (sortFields m) ≡ₚ m_fields m /\
  m_groups (sortFields m) = m_groups m /\ m_order (sortFields m) = m_order m.
Proof.
  intros Ho Ht. unfold sortFields. destruct (is_sorted _ _) eqn:E; simpl; split_and!; try done.
  - by apply is_sorted_sorted.
  - by apply sort_sorted.
  - apply sort_perm.
Qed.

(** ** The metrics of the encoding *)

Definition Zsum (l : list Z) : Z := fold_right Z.add 0 l.

Lemma Zsum_map_add {A} (f g : A -> Z) l : Zsum (map (fun x => f x + g x) l) = Zsum (map f l) + Zsum (map g l).
Proof. induction l as [|x l IH]; simpl; [done|]. unfold Zsum in *. simpl. lia. Qed.

Lemma Zsum_map_ext {A} (f g : A -> Z) l : Forall (fun x => f x = g x) l -> Zsum (map f l) = Zsum (map g l).
Proof. unfold Zsum. induction 1 as [|x l E _ IH]; simpl; [done|]. by rewrite E, IH. Qed.

(** How many fields have a tag. *)
Definition tag_count (fields : list FieldBase) (t : Z) : Z :=
  Zsum (map (fun f => if getTag f =? t then 1 else 0) fields).

(** Every group is announced by exactly one field, and no field inside a group
    has the tag of a framing field. *)
Definition framing (t : Z) : bool :=
  (t =? FIELD.BeginString) || (t =? FIELD.BodyLength) || (t =? FIELD.CheckSum).

Fixpoint encodable (m : FieldMap) : Prop :=
  match m with
  | mkFieldMap fields groups _ =>
      Forall field_ok fields /\ ordered groups /\
      Forall (fun t => tag_count fields t = 1) (keys groups) /\
      all_of (map (fun '(_, gs) =>
        all_of (map (fun g => encodable g /\ Forall (fun f => framing (getTag f) = false) (m_fields g)) gs)) groups)
  end.

Definition body_fields (g : FieldMap) : Prop := Forall (fun f => framing (getTag f) = false) (m_fields g).

Lemma encodable_eq m :
  encodable m <-> Forall field_ok (m_fields m) /\ ordered (m_groups m) /\
    Forall (fun t => tag_count (m_fields m) t = 1) (keys (m_groups m)) /\
    Forall (fun p => Forall (fun g => encodable g /\ body_fields g) (snd p)) (m_groups m).
Proof.
  destruct m as [fields groups o]. simpl.
  assert (all_of (map (fun '(_, gs) => all_of (map (fun g => encodable g /\
    Forall (fun f => framing (getTag f) = false) (m_fields g)) gs)) groups) <->
    Forall (fun p => Forall (fun g => encodable g /\ body_fields g) (snd p)) groups) as ->; [|done].
  induction groups as [|[t gs] groups IH]; simpl; [by split|].
  by rewrite Forall_cons, IH, all_of_Forall.
Qed.

(** Summing over the fields what their tag maps to is summing over the map, when
    every key has one field. *)
Lemma Zsum_lookup {A} (h : A -> Z) (fields : list FieldBase) (m : list (Z * A)) :
  ordered m -> Forall (fun t => tag_count fields t = 1) (keys m) ->
  Zsum (map (fun f => match map_lookup (getTag f) m with Some v => h v | None => 0 end) fields) =
  Zsum (map (fun p => h (snd p)) m).
Proof.
  intros Hord Hc. induction m as [|[t v] m IH]; simpl.
  - clear. induction fields as [|f fields IH]; [done|]. exact IH.
  - apply ordered_cons in Hord as [Hord Hlt]. apply Forall_cons in Hc as [Hct Hc].
    unfold Zsum at 2. simpl. fold (Zsum (map (fun p => h (snd p)) m)). rewrite <- IH by done.
    transitivity (Zsum (map (fun f => (if getTag f =? t then 1 else 0) * h v +
      match map_lookup (getTag f) m with Some v => h v | None => 0 end) fields)).
    + apply Zsum_map_ext. apply Forall_forall. intros f _. destruct (Z.eqb_spec (getTag f) t) as [->|]; [|lia].
      rewrite map_lookup_below by done. lia.
    + rewrite Zsum_map_add. f_equal.
      assert (Zsum (map (fun f => (if getTag f =? t then 1 else 0) * h v) fields) = tag_count fields t * h v) as ->; [|simpl in Hct; rewrite Hct; lia].
      unfold tag_count. clear. induction fields as [|f fields IH]; [done|].
      unfold Zsum in *. simpl. rewrite IH. ring.
Qed.

Section Measure.
(** A measure of strings: its length, or the sum of its bytes. *)
Variable mu : str -> Z.
Hypothesis mu_nil : mu [] = 0.
Hypothesis mu_app : forall s t, mu (s ++ t) = mu s + mu t.

Lemma mu_concat l : mu (concat l) = Zsum (map mu l).
Proof. induction l as [|s l IH]; simpl; [done|]. rewrite mu_app, IH. done. Qed.

Lemma mu_calculateString m :
  encodable m ->
  mu (calculateString m) =
    Zsum (map (fun f => mu (getFixString f)) (m_fields m)) +
    Zsum (map (fun p => Zsum (map (fun g => mu (calculateString g)) (snd p))) (m_groups m)).
Proof.
  intros (_ & Hord & Hc & _)%encodable_eq. destruct m as [fields groups o]. simpl in *.
  rewrite mu_concat, map_map.
  rewrite <- (Zsum_lookup (fun gs => Zsum (map (fun g => mu (calculateString g)) gs)) fields groups) by done.
  rewrite <- Zsum_map_add. apply Zsum_map_ext. apply Forall_forall. intros f _.
  rewrite mu_app. f_equal. rewrite map_lookup_fmap.
  destruct (map_lookup (getTag f) groups) as [gs|]; simpl; [|done].
  by rewrite mu_concat, map_map.
Qed.
End Measure.

Definition len (s : str) : Z := Z.of_nat (length s).

Lemma len_app s t : len (s ++ t) = len s + len t.
Proof. unfold len. rewrite length_app. lia. Qed.

(** What the framing fields contribute. *)
Definition excluded (mu : str -> Z) (p : Z -> bool) (fields : list FieldBase) : Z :=
  Zsum (map (fun f => if p (getTag f) then mu (getFixString f) else 0) fields).

Lemma excluded_none mu p fields : Forall (fun f => p (getTag f) = false) fields -> excluded mu p fields = 0.
Proof. unfold excluded, Zsum. induction 1 as [|f fields E _ IH]; simpl; [done|]. by rewrite E. Qed.

Lemma excluded_weaken mu (p q : Z -> bool) fields :
  (forall t, q t = true -> p t = true) ->
  Forall (fun f => p (getTag f) = false) fields -> excluded mu q fields = 0.
Proof.
  intros Hpq H. apply excluded_none. eapply Forall_impl; [exact H|]. simpl. intros f Hf.
  destruct (q (getTag f)) eqn:E; [|done]. by rewrite Hpq in Hf.
Qed.

(** The exact length and byte sum that [calculateLength] and [calculateTotal]
    keep in an [int]. *)
Fixpoint length_sum (m : FieldMap) (b l c : Z) : Z :=
  match m with
  | mkFieldMap fields groups _ =>
      Zsum (map (fun field => let t := getTag field in
        if negb (t =? b) && negb (t =? l) && negb (t =? c) then len (getFixString field) else 0) fields) +
      Zsum (map (fun '(_, gs) => Zsum
        (map (fun g => length_sum g FIELD.BeginString FIELD.BodyLength FIELD.CheckSum) gs)) groups)
  end.

Fixpoint total_sum (m : FieldMap) (c : Z) : Z :=
  match m with
  | mkFieldMap fields groups _ =>
      Zsum (map (fun field => if negb (getTag field =? c) then byte_sum (getFixString field) else 0) fields) +
      Zsum (map (fun '(_, gs) => Zsum (map (fun g => total_sum g FIELD.CheckSum) gs)) groups)
  end.

(** Sums in an [int]: of the fields a test selects, and of groups. *)
Lemma fold_i32_if {A} (p : A -> bool) (f g : A -> Z) l a :
  Forall (fun x => f x = i32 (g x)) l ->
  fold_left (fun result x => if p x then i32 (result + f x) else result) l (i32 a) =
    i32 (a + Zsum (map (fun x => if p x then g x else 0) l)).
Proof.
  intros H. revert a. induction H as [|x l E _ IH]; intros a; simpl.
  - by rewrite Z.add_0_r.
  - destruct (p x).
    + rewrite E, i32_add_l, i32_add_r, IH. unfold Zsum. f_equal. simpl. lia.
    + rewrite IH. done.
Qed.

Lemma fold_i32_groups {A B} (f g : A -> Z) (l : list (B * list A)) a :
  Forall (fun p => Forall (fun x => f x = i32 (g x)) (snd p)) l ->
  fold_left (fun result '(_, gs) => fold_left (fun result x => i32 (result + f x)) gs result) l (i32 a) =
    i32 (a + Zsum (map (fun '(_, gs) => Zsum (map g gs)) l)).
Proof.
  intros H. revert a. induction H as [|[t gs] l E _ IH]; intros a; simpl.
  - by rewrite Z.add_0_r.
  - simpl in E. pose proof (fold_i32_if (fun _ => true) f g gs a E) as F. cbn in F. rewrite F, IH.
    change (map (fun x => g x) gs) with (map g gs). f_equal. simpl. lia.
Qed.

(** [calculateLength] and [calculateTotal] are the exact sums, wrapped. *)
Lemma calculateLength_i32 m b l c : encodable m -> calculateLength m b l c = i32 (length_sum m b l c).
Proof.
  revert b l c. induction m as [fields groups o IH] using FieldMap_nested_ind. intros b l c He.
  apply encodable_eq in He as (Hok & _ & _ & Hgs). cbn [m_fields m_groups] in *. cbn [calculateLength length_sum].
  cbv zeta. change 0 with (i32 0) at 1.
  rewrite (fold_i32_if _ getLength (fun f => len (getFixString f)) fields 0).
  - rewrite (fold_i32_groups _ (fun g => length_sum g FIELD.BeginString FIELD.BodyLength FIELD.CheckSum)); [done|].
    rewrite Forall_forall in *. intros p Hp. specialize (IH p Hp). specialize (Hgs p Hp).
    rewrite Forall_forall in *. intros g Hg. apply IH; [done|]. by apply Hgs.
  - eapply Forall_impl; [exact Hok|]. apply getLength_eq.
Qed.

Lemma calculateTotal_i32 m c : encodable m -> calculateTotal m c = i32 (total_sum m c).
Proof.
  revert c. induction m as [fields groups o IH] using FieldMap_nested_ind. intros c He.
  apply encodable_eq in He as (Hok & _ & _ & Hgs). cbn [m_fields m_groups] in *. cbn [calculateTotal total_sum].
  cbv zeta. change 0 with (i32 0) at 1.
  rewrite (fold_i32_if _ getTotal (fun f => byte_sum (getFixString f)) fields 0).
  - rewrite (fold_i32_groups _ (fun g => total_sum g FIELD.CheckSum)); [done|].
    rewrite Forall_forall in *. intros p Hp. specialize (IH p Hp). specialize (Hgs p Hp).
    rewrite Forall_forall in *. intros g Hg. apply IH; [done|]. by apply Hgs.
  - eapply Forall_impl; [exact Hok|]. apply getTotal_eq.
Qed.

Lemma length_sum_eq m b l c :
  encodable m ->
  length_sum m b l c + excluded len (fun t => (t =? b) || (t =? l) || (t =? c)) (m_fields m) =
    len (calculateString m).
Proof.
  revert b l c. induction m as [fields groups o IH] using FieldMap_nested_ind. intros b l c He.
  rewrite (mu_calculateString len eq_refl len_app) by done.
  apply encodable_eq in He as (Hok & _ & _ & Hgs). simpl in *.
  unfold excluded.
  match goal with |- ?A + ?B + ?C = ?D + ?E => assert (B = E) as ->; [|assert (A + C = D); [|lia]] end.
  - apply Zsum_map_ext. rewrite Forall_forall in *. intros [t gs] Hp. simpl.
    apply Zsum_map_ext. apply Forall_forall. intros g Hg.
    specialize (IH _ Hp). specialize (Hgs _ Hp). simpl in *. rewrite Forall_forall in *.
    destruct (Hgs g Hg) as [Heg Hbf]. rewrite <- (IH g Hg FIELD.BeginString FIELD.BodyLength FIELD.CheckSum Heg).
    rewrite excluded_none; [lia | exact Hbf].
  - rewrite <- Zsum_map_add. apply Zsum_map_ext. eapply Forall_impl; [exact Hok|]. simpl. intros f _.
    destruct (getTag f =? b), (getTag f =? l), (getTag f =? c); simpl; lia.
Qed.

Lemma total_sum_eq m c :
  encodable m ->
  total_sum m c + excluded byte_sum (fun t => t =? c) (m_fields m) = byte_sum (calculateString m).
Proof.
  revert c. induction m as [fields groups o IH] using FieldMap_nested_ind. intros c He.
  rewrite (mu_calculateString byte_sum eq_refl byte_sum_app) by done.
  apply encodable_eq in He as (Hok & _ & _ & Hgs). simpl in *. unfold excluded.
  match goal with |- ?A + ?B + ?C = ?D + ?E => assert (B = E) as ->; [|assert (A + C = D); [|lia]] end.
  - apply Zsum_map_ext. rewrite Forall_forall in *. intros [t gs] Hp. simpl.
    apply Zsum_map_ext. apply Forall_forall. intros g Hg.
    specialize (IH _ Hp). specialize (Hgs _ Hp). simpl in *. rewrite Forall_forall in *.
    destruct (Hgs g Hg) as [Heg Hbf]. rewrite <- (IH g Hg FIELD.CheckSum Heg).
    rewrite (excluded_weaken _ framing); [lia | | exact Hbf].
    intros t'. unfold framing. intros ->. by rewrite orb_true_r.
  - rewrite <- Zsum_map_add. apply Zsum_map_ext. eapply Forall_impl; [exact Hok|]. simpl. intros f _. destruct (getTag f =? c); simpl; lia.
Qed.

Lemma Zsum_acc a l : fold_right Z.add a l = a + Zsum l.
Proof. unfold Zsum. induction l as [|x l IH]; simpl; [lia|]. rewrite IH. lia. Qed.

Lemma Zsum_nonneg {A} (f : A -> Z) l : Forall (fun x => 0 <= f x) l -> 0 <= Zsum (map f l).
Proof. unfold Zsum. induction 1 as [|x l H _ IH]; simpl; lia. Qed.

Lemma length_sum_nonneg m b l c : 0 <= length_sum m b l c.
Proof.
  revert b l c. induction m as [fields groups o IH] using FieldMap_nested_ind. intros b l c. cbn [length_sum].
  apply Z.add_nonneg_nonneg; apply Zsum_nonneg.
  - apply Forall_true. intros f. cbv zeta. unfold len. case_match; lia.
  - eapply Forall_impl; [exact IH|]. intros [t gs] H. simpl in H. apply Zsum_nonneg.
    eapply Forall_impl; [exact H|]. auto.
Qed.

Lemma total_sum_nonneg m c : 0 <= total_sum m c.
Proof.
  revert c. induction m as [fields groups o IH] using FieldMap_nested_ind. intros c. cbn [total_sum].
  apply Z.add_nonneg_nonneg; apply Zsum_nonneg.
  - apply Forall_true. intros f. pose proof (byte_sum_nonneg (getFixString f)). case_match; lia.
  - eapply Forall_impl; [exact IH|]. intros [t gs] H. simpl in H. apply Zsum_nonneg.
    eapply Forall_impl; [exact H|]. auto.
Qed.

Lemma excluded_nonneg mu p fields : (forall s, 0 <= mu s) -> 0 <= excluded mu p fields.
Proof. intros Hmu. apply Zsum_nonneg, Forall_true. intros f. specialize (Hmu (getFixString f)). case_match; lia. Qed.

Lemma excluded_elem mu p fields f :
  (forall s, 0 <= mu s) -> f ∈ fields -> p (getTag f) = true -> mu (getFixString f) <= excluded mu p fields.
Proof.
  intros Hmu Hin Hp. apply list_elem_of_split in Hin as (l1 & l2 & ->).
  unfold excluded. rewrite map_app. simpl. rewrite Hp.
  pose proof (excluded_nonneg mu p l1 Hmu). pose proof (excluded_nonneg mu p l2 Hmu). unfold excluded, Zsum at 1. rewrite fold_right_app. simpl.
  rewrite Zsum_acc. unfold excluded, Zsum in *. lia.
Qed.

Lemma tag_count_unique fields t : NoDup (map getTag fields) -> t ∈ map getTag fields -> tag_count fields t = 1.
Proof.
  unfold tag_count, Zsum. induction fields as [|f fields IH]; simpl; [by intros _ ?%elem_of_nil|].
  intros [Hx Hn]%NoDup_cons [->|Hin]%elem_of_cons.
  - rewrite Z.eqb_refl. enough (fold_right Z.add 0 (map (fun g => if getTag g =? getTag f then 1 else 0) fields) = 0) by lia.
    clear -Hx. induction fields as [|g fields IH]; [done|]. simpl in *.
    apply not_elem_of_cons in Hx as [Hne Hx]. rewrite (proj2 (Z.eqb_neq _ _)) by done. by rewrite IH.
  - destruct (Z.eqb_spec (getTag f) t) as [<-|]; [done|]. rewrite IH; [lia | done | done].
Qed.

(** A counted map whose groups are encodable bodies is encodable. *)
Lemma counted_encodable m :
  wf m -> counted m -> Forall (fun p => Forall (fun g => encodable g /\ body_fields g) (snd p)) (m_groups m) ->
  encodable m.
Proof.
  intros Hm [Hu Hc] Hgs. pose proof Hm as (_ & (_ & _ & Hok) & Hord & _)%wf_eq.
  apply encodable_eq. split_and!; try done. apply Forall_forall. intros t Ht.
  apply tag_count_unique; [done|].
  apply map_lookup_keys in Ht. destruct (map_lookup t (m_groups m)) as [gs|] eqn:E; [|done].
  specialize (Hc t gs E). destruct (field_of (m_fields m) t) as [f|] eqn:Ef; [|done].
  destruct (field_of_tag _ _ _ Ef) as [<- Hin]. by apply list_elem_of_fmap_2.
Qed.

(** [removeField] leaves the fields [eraseField] leaves. *)
Lemma removeField_fields m t :
  wf m -> tag t -> unique m ->
  m_fields (removeField m t) = match eraseField m t with Some m' => m_fields m' | None => m_fields m end.
Proof.
  intros Hm Ht Hu. rewrite removeField_eq by done. cbv zeta. unfold eraseField.
  assert (findTag (with_groups m (map_erase t (m_groups m))) t = findTag m t) as -> by done.
  by destruct (findTag m t).
Qed.

(** ** Operations on a container

    Every operation that changes a map; [AppendFields] is what a decoder does:
    it appends field after field, then sorts. *)
Inductive container_op :=
  | SetField (f : FieldBase) (overwrite : bool)
  | RemoveField (t : Z)
  | AddGroup (t : Z) (g : FieldMap) (setCount : bool)
  | ReplaceGroup (n t : Z) (g : FieldMap)
  | RemoveGroup (t : Z)
  | RemoveGroup_num (n t : Z)
  | AppendFields (fs : list FieldBase)
  | Clear.

Definition apply_op (m : FieldMap) (op : container_op) : FieldMap :=
  match op with
  | SetField f overwrite => setField_overwrite m f overwrite
  | RemoveField t => removeField m t
  | AddGroup t g setCount => addGroup m t g setCount
  | ReplaceGroup n t g => replaceGroup m n t g
  | RemoveGroup t => removeGroup m t
  | RemoveGroup_num n t => removeGroup_num m n t
  | AppendFields fs => sortFields (fold_left appendField fs m)
  | Clear => clear m
  end.

Definition good_field (f : FieldBase) : Prop := tag (getTag f) /\ field_ok f.

Definition op_ok (op : container_op) : Prop :=
  match op with
  | SetField f _ => good_field f
  | RemoveField t | RemoveGroup t | RemoveGroup_num _ t => tag t
  | AddGroup t g _ | ReplaceGroup _ t g => tag t /\ wf g
  | AppendFields fs => Forall good_field fs
  | Clear => True
  end.

(** When an operation leaves each tag once and the counts of the groups true: a
    count field may only be set to the count, a field may be added beside
    another only if its tag is new, and a group may be added without setting its
    count only if the count field already has the new number. *)
Definition keeps_counts (m : FieldMap) (op : container_op) : Prop :=
  match op with
  | SetField f true => forall gs, groupsOf m (getTag f) = Some gs -> getString f = count_text (length gs)
  | SetField f false => isSetField m (getTag f) = false
  | AddGroup t _ false =>
      getString <$> field_of (m_fields m) t = Some (count_text (S (length (default [] (groupsOf m t)))))
  | AppendFields fs => NoDup (map getTag fs) /\ Forall (fun f => isSetField m (getTag f) = false) fs
  | _ => True
  end.

Lemma appendFields_eq fs m : fold_left appendField fs m = with_fields m (m_fields m ++ fs).
Proof.
  revert m. induction fs as [|f fs IH]; intros m; simpl.
  - rewrite app_nil_r. by destruct m.
  - rewrite IH. unfold appendField, with_fields. simpl. by rewrite <- app_assoc.
Qed.

Lemma wf_appendFields m fs : wf m -> Forall good_field fs -> wf (sortFields (with_fields m (m_fields m ++ fs))).
Proof.
  intros Hm Hfs. pose proof Hm as (Ho & (_ & Htags & Hok) & Hgs)%wf_eq.
  set (m' := with_fields m (m_fields m ++ fs)).
  assert (tags_ok (m_fields m')) as Ht'.
  { apply Forall_app. split; [done|]. eapply Forall_impl; [exact Hfs|]. by intros f []. }
  destruct (sortFields_spec m') as (Hs & Hp & Hg & Hord); [exact Ho | done |].
  apply wf_eq. rewrite Hg, Hord. split; [exact Ho|]. split; [|exact Hgs]. split; [exact Hs|]. split.
  - unfold tags_ok in *. by rewrite Hp.
  - rewrite Hp. apply Forall_app. split; [done|]. eapply Forall_impl; [exact Hfs|]. by intros f [].
Qed.

Lemma field_of_perm l l' t : l ≡ₚ l' -> NoDup (map getTag l) -> field_of l t = field_of l' t.
Proof.
  induction 1 as [|f l l' _ IH|f g l|l l' l'' H1 IH1 _ IH2]; simpl; intros Hn.
  - done.
  - apply NoDup_cons in Hn as [_ Hn]. case_bool; [done | by apply IH].
  - apply NoDup_cons in Hn as [Hn _]. apply not_elem_of_cons in Hn as [Hne _].
    destruct (Z.eqb_spec t (getTag f)), (Z.eqb_spec t (getTag g)); congruence.
  - rewrite IH1 by done. apply IH2. by rewrite <- H1.
Qed.

Lemma field_of_app l l' t :
  field_of (l ++ l') t = match field_of l t with Some f => Some f | None => field_of l' t end.
Proof. unfold field_of. induction l as [|f l IH]; simpl; [done|]. by case_bool. Qed.

Lemma counted_appendFields m fs :
  wf m -> counted m -> Forall good_field fs -> keeps_counts m (AppendFields fs) ->
  counted (sortFields (with_fields m (m_fields m ++ fs))).
Proof.
  intros Hm [Hu Hc] Hfs [Hn Hnew]. pose proof Hm as (Ho & (_ & Htags & _) & _)%wf_eq.
  set (m' := with_fields m (m_fields m ++ fs)).
  assert (tags_ok (m_fields m')) as Ht'.
  { apply Forall_app. split; [done|]. eapply Forall_impl; [exact Hfs|]. by intros f []. }
  destruct (sortFields_spec m') as (_ & Hp & Hg & _); [exact Ho | done |].
  assert (NoDup (map getTag (m_fields m'))) as Hn'.
  { simpl. rewrite map_app. apply NoDup_app. split_and!; [exact Hu | | exact Hn].
    intros t Ht (f & -> & Hf)%list_elem_of_fmap. rewrite Forall_forall in Hnew, Hfs.
    specialize (Hnew f Hf). rewrite isSetField_wf in Hnew by (done || by apply Hfs).
    destruct (field_of (m_fields m) (getTag f)) eqn:E; [done|]. by apply field_of_None in E. }
  split; [unfold unique; by rewrite Hp|]. intros t gs Hgs.
  unfold groupsOf in Hgs. rewrite Hg in Hgs. specialize (Hc t gs Hgs).
  rewrite <- (field_of_perm _ _ t (symmetry Hp) Hn'). unfold m'. simpl. rewrite field_of_app.
  by destruct (field_of (m_fields m) t).
Qed.

Lemma counted_replaceGroup m n t g : wf m -> counted m -> counted (replaceGroup m n t g).
Proof.
  intros Hm [Hu Hc]. unfold replaceGroup. destruct (groupsOf m t) as [gs|] eqn:E; [|done].
  repeat case_bool; try done. split; [done|]. intros t' gs'. unfold groupsOf. simpl.
  destruct (decide (t' = t)) as [->|].
  - pose proof Hm as (_ & _ & Hord & _)%wf_eq. rewrite map_lookup_set by done.
    intros [= <-]. rewrite length_insert. by apply Hc.
  - rewrite map_lookup_set_ne by done. apply Hc.
Qed.

Lemma counted_addGroup_uncounted m t g :
  wf m -> counted m -> keeps_counts m (AddGroup t g false) -> counted (addGroup m t g false).
Proof.
  intros Hm [Hu Hc] Hn. split; [done|]. intros t' gs'. unfold addGroup, addGroupPtr, groupsOf. simpl.
  pose proof Hm as (_ & _ & Hord & _)%wf_eq. destruct (decide (t' = t)) as [->|].
  - rewrite map_lookup_set by done. intros [= <-]. simpl in Hn. rewrite Hn, length_app. simpl.
    by rewrite Nat.add_1_r.
  - rewrite map_lookup_set_ne by done. apply Hc.
Qed.

Lemma setField_unset m f overwrite :
  isSetField m (getTag f) = false -> setField_overwrite m f overwrite = addField m f.
Proof. unfold isSetField, setField_overwrite. destruct overwrite; [|done]. simpl. by destruct (findTag _ _). Qed.

(** ** Properties *)

(** C36 The container invariant. Every operation on a well-formed map leaves it
    well-formed: fields in order with valid tags and true cached metrics, groups
    under their tags, at every depth. It also leaves each tag once and, for every
    repeating group, a count field with the number of its entries, unless it is one
    of the calls that can break this: [setField] of a count field to another number,
    a second field with the same tag ([setField] with [overwrite] false, [appendField]),
    or [addGroup] with [setCount] false and no field with the new count. *)
Theorem container_invariant m op :
  wf m -> op_ok op ->
  wf (apply_op m op) /\ (counted m -> keeps_counts m op -> counted (apply_op m op)).
Proof.
  intros Hm Hop. destruct op; simpl in Hop |- *; rewrite ?appendFields_eq.
  - destruct Hop as [Ht Hf]. destruct overwrite.
    + split; [by apply wf_setField|]. intros. by apply counted_setField.
    + split; [by apply wf_addField|]. intros Hc Hn. rewrite setField_unset by done.
      rewrite <- (setField_unset m f true) by done. apply counted_setField; try done.
      intros gs Hgs. pose proof (proj2 Hc _ _ Hgs) as E. rewrite isSetField_wf in Hn by done.
      by destruct (field_of _ _).
  - auto using wf_removeField, counted_removeField.
  - destruct Hop. split; [by apply wf_addGroup|]. intros Hc Hn. destruct setCount; [by apply counted_addGroup|].
    by apply counted_addGroup_uncounted.
  - destruct Hop. auto using wf_replaceGroup, counted_replaceGroup.
  - auto using wf_removeGroup, counted_removeGroup.
  - auto using wf_removeGroup_num, counted_removeGroup_num.
  - auto using wf_appendFields, counted_appendFields.
  - split; [by apply wf_clear|]. intros _ _. apply counted_new.
Qed.

Definition two_party : FieldMap :=
  setField_tag (setField_tag (new_FieldMap (new_message_order normal)) 448 (lit "A")) 447 (lit "D").

Lemma container_invariant_witness :
  let m := addGroup (new_FieldMap (new_message_order normal)) 453 two_party true in
  wf (addGroup m 453 two_party true) /\ counted (addGroup m 453 two_party true) /\
  getField (addGroup m 453 two_party true) 453 = Ok (lit "2").
Proof.
  set (e := new_FieldMap (new_message_order normal)).
  assert (wf e) as He by (apply wf_new, built_mode).
  assert (wf two_party) as Hp by (repeat apply wf_setField_tag; by_compute || done).
  assert (wf (addGroup e 453 two_party true)) as Hm by (apply wf_addGroup; by_compute || done).
  assert (counted (addGroup e 453 two_party true)) as Hc
    by (apply counted_addGroup; by_compute || done || apply counted_new).
  destruct (container_invariant (addGroup e 453 two_party true) (AddGroup 453 two_party true)) as [H1 H2];
    [done | by split; [by_compute|] |].
  split; [exact H1|]. split; [by apply H2 | vm_compute; reflexivity].
Defined.

(** Lookup: [findTag], a linear search below sixteen fields and a binary
    search by the map's own order from there on, always is the first position
    that holds the tag. *)
Theorem findTag_correct m t :
  wf m -> tag t -> findTag m t = find_index (fun f => t =? getTag f) (m_fields m).
Proof. apply findTag_wf. Qed.

Lemma findTag_correct_witness :
  findTag two_party 448 = find_index (fun f => 448 =? getTag f) (m_fields two_party).
Proof. apply (findTag_correct two_party 448); [repeat apply wf_setField_tag; by_compute || apply wf_new, built_mode | by_compute]. Defined.

(** Get after set: [setField] makes its own tag read as the new value, whether
    it replaces a field or inserts one, and leaves every other tag alone;
    [removeField] makes its tag read as [FieldNotFound], when every tag occurs
    once, and leaves every other tag alone. *)
Theorem setField_getField m f t :
  wf m -> unique m -> tag (getTag f) -> field_ok f -> tag t ->
  getField (setField m f) t = (if t =? getTag f then Ok (getString f) else getField m t) /\
  getField (removeField m (getTag f)) t = (if t =? getTag f then Throw (FieldNotFound t []) else getField m t).
Proof.
  intros Hm Hu Hf Hok Ht. split; [by apply getField_setField|].
  pose proof (eraseField_spec m (getTag f) Hm Hf Hu) as He.
  assert (wf (removeField m (getTag f))) as Hr by (by apply wf_removeField).
  unfold getField, getFieldRef. rewrite !getFieldIfSet_wf by done.
  rewrite removeField_fields by done. destruct (eraseField m (getTag f)) as [m1|] eqn:E.
  - destruct He as (_ & _ & _ & Hfields). rewrite Hfields. by case_bool.
  - case_bool; [|done]. subst t. by rewrite He.
Qed.

Lemma setField_getField_witness :
  getField (setField two_party (Field 448 (lit "B"))) 447 = Ok (lit "D") /\
  getField (removeField two_party 448) 447 = Ok (lit "D").
Proof.
  apply (setField_getField two_party (Field 448 (lit "B")) 447); try by_compute.
  repeat apply wf_setField_tag; by_compute || apply wf_new, built_mode.
Defined.

(** Sorting at the end of decoding: [sortFields] leaves the fields in the map's
    order, as a permutation of what was read, and touches nothing else. *)
Theorem sortFields_correct m :
  built_order (m_order m) -> tags_ok (m_fields m) ->
  sorted_by (m_order m) (m_fields (sortFields m)) /\ m_fields (sortFields m) ≡ₚ m_fields m /\
  m_groups (sortFields m) = m_groups m /\ m_order (sortFields m) = m_order m.
Proof. apply sortFields_spec. Qed.

Lemma sortFields_correct_witness :
  let m := mkFieldMap [Field 56 []; Field 35 []; Field 8 []; Field 9 []] [] (new_message_order header) in
  sorted_by (m_order m) (m_fields (sortFields m)) /\ m_fields (sortFields m) ≡ₚ m_fields m /\
  m_groups (sortFields m) = m_groups m /\ m_order (sortFields m) = m_order m.
Proof.
  apply (sortFields_correct (mkFieldMap [Field 56 []; Field 35 []; Field 8 []; Field 9 []] [] (new_message_order header)));
    [apply built_mode | by_compute].
Defined.

(** C37 The metrics of the encoding of an encodable map (every repeating group is
    announced by exactly one field, no field inside a group is a framing field,
    cached metrics are true): the [int] that [calculateLength] returns is the length of
    the encoded string without the three framing fields it skips, and the [int] that
    [calculateTotal] returns is the sum of its bytes without the checksum field,
    repeating groups at any depth included; each wrapped to 32 bits, so exact as long
    as it is below 2^31. *)
Theorem encoding_metrics m b l c :
  encodable m ->
  let length := len (calculateString m) - excluded len (fun t => (t =? b) || (t =? l) || (t =? c)) (m_fields m) in
  let total := byte_sum (calculateString m) - excluded byte_sum (fun t => t =? c) (m_fields m) in
  calculateLength m b l c = i32 length /\ calculateTotal m c = i32 total /\
  0 <= length /\ (length < 2 ^ 31 -> calculateLength m b l c = length) /\
  0 <= total /\ (total < 2 ^ 31 -> calculateTotal m c = total).
Proof.
  intros He length total. rewrite calculateLength_i32, calculateTotal_i32 by done.
  pose proof (length_sum_eq m b l c He). pose proof (total_sum_eq m c He).
  pose proof (length_sum_nonneg m b l c). pose proof (total_sum_nonneg m c).
  replace (length_sum m b l c) with length by lia. replace (total_sum m c) with total by lia.
  split_and!; try done; try lia; intros ?; apply i32_small; lia.
Qed.

Lemma encoding_metrics_witness :
  let m := addGroup (addGroup (new_FieldMap (new_message_order normal)) 453 two_party true) 453 two_party true in
  calculateLength m 8 9 10 = i32 (len (calculateString m) - 0) /\ len (calculateString m) = 30.
Proof.
  split; [|vm_compute; reflexivity].
  refine (proj1 (encoding_metrics
    (addGroup (addGroup (new_FieldMap (new_message_order normal)) 453 two_party true) 453 two_party true) 8 9 10 _)).
  apply encodable_eq. simpl. unfold body_fields. repeat (constructor || by_compute || done).
Defined.
