(* ===== verification/DictData.v ===== *)
(** * Data dictionaries: tables and lookups ([src/C++/DataDictionary.h])

    What a dictionary stores and how it is asked. The [std::map]s that are
    iterated are in key order; the orders of fields are rebuilt where the code
    caches them, so a dictionary is not extended here after its orders were
    read. A group's own dictionary is stored by value. *)
From S2P Require Import Prelude Convertors TimeConvertors OrdMap MessageSorters.

(** [TYPE::Type]. *)
Inductive FieldType :=
| Unknown | String_ | Char | Price | Int_ | Amt | Qty | Currency
| MultipleValueString | MultipleStringValue | MultipleCharValue | Exchange
| UtcTimeStamp | Boolean | LocalMktTime | LocalMktDate | Data | Float | PriceOffset
| MonthYear | DayOfMonth | UtcDate | UtcTimeOnly | NumInGroup | Percentage | SeqNum
| TagNum | Length_ | Country | TzTimeOnly | TzTimeStamp | XmlData | Language | Xid | XidRef.

#[export] Instance FieldType_eq_dec : EqDecision FieldType.
Proof. solve_decision. Defined.

Inductive DataDictionary := mkDict {
  m_hasVersion : bool;
  m_checkFieldsOutOfOrder : bool;
  m_checkFieldsHaveValues : bool;
  m_checkUserDefinedFields : bool;
  m_allowUnknownMessageFields : bool;
  m_storeMsgFieldsOrder : bool;
  m_beginString : str;
  m_messageFields : list (str * list (Z * unit));
  m_requiredFields : list (str * list (Z * unit));
  m_messages : list (str * unit);
  m_fieldSet : list (Z * unit);
  m_orderedFields : list Z;
  m_headerFields : list (Z * bool);
  m_trailerFields : list (Z * bool);
  m_fieldTypes : list (Z * FieldType);
  m_fieldValues : list (Z * list (str * unit));
  m_fieldNames : list (Z * str);
  m_names : list (str * Z);
  m_valueNames : list (Z * list (str * str));
  m_nameValues : list (Z * list (str * str));
  m_dataFields : list (Z * unit);
  m_headerOrderedFields : list Z;
  m_trailerOrderedFields : list Z;
  m_messageOrderedFields : list (str * list Z);
  m_groupDicts : list (Z * list (str * (Z * DataDictionary))) }.

(** Assignments to one member. *)
Definition set_hasVersion (v : bool) (d : DataDictionary) : DataDictionary :=
  let 'mkDict _ a1 a2 a3 a4 a5 a6 a7 a8 a9 a10 a11 a12 a13 a14 a15 a16 a17 a18 a19 a20 a21 a22 a23 a24 := d in
  mkDict v a1 a2 a3 a4 a5 a6 a7 a8 a9 a10 a11 a12 a13 a14 a15 a16 a17 a18 a19 a20 a21 a22 a23 a24.
Definition set_checkFieldsOutOfOrder (v : bool) (d : DataDictionary) : DataDictionary :=
  let 'mkDict a0 _ a2 a3 a4 a5 a6 a7 a8 a9 a10 a11 a12 a13 a14 a15 a16 a17 a18 a19 a20 a21 a22 a23 a24 := d in
  mkDict a0 v a2 a3 a4 a5 a6 a7 a8 a9 a10 a11 a12 a13 a14 a15 a16 a17 a18 a19 a20 a21 a22 a23 a24.
Definition set_checkFieldsHaveValues (v : bool) (d : DataDictionary) : DataDictionary :=
  let 'mkDict a0 a1 _ a3 a4 a5 a6 a7 a8 a9 a10 a11 a12 a13 a14 a15 a16 a17 a18 a19 a20 a21 a22 a23 a24 := d in
  mkDict a0 a1 v a3 a4 a5 a6 a7 a8 a9 a10 a11 a12 a13 a14 a15 a16 a17 a18 a19 a20 a21 a22 a23 a24.
Definition set_checkUserDefinedFields (v : bool) (d : DataDictionary) : DataDictionary :=
  let 'mkDict a0 a1 a2 _ a4 a5 a6 a7 a8 a9 a10 a11 a12 a13 a14 a15 a16 a17 a18 a19 a20 a21 a22 a23 a24 := d in
  mkDict a0 a1 a2 v a4 a5 a6 a7 a8 a9 a10 a11 a12 a13 a14 a15 a16 a17 a18 a19 a20 a21 a22 a23 a24.
Definition set_allowUnknownMessageFields (v : bool) (d : DataDictionary) : DataDictionary :=
  let 'mkDict a0 a1 a2 a3 _ a5 a6 a7 a8 a9 a10 a11 a12 a13 a14 a15 a16 a17 a18 a19 a20 a21 a22 a23 a24 := d in
  mkDict a0 a1 a2 a3 v a5 a6 a7 a8 a9 a10 a11 a12 a13 a14 a15 a16 a17 a18 a19 a20 a21 a22 a23 a24.
Definition set_storeMsgFieldsOrder (v : bool) (d : DataDictionary) : DataDictionary :=
  let 'mkDict a0 a1 a2 a3 a4 _ a6 a7 a8 a9 a10 a11 a12 a13 a14 a15 a16 a17 a18 a19 a20 a21 a22 a23 a24 := d in
  mkDict a0 a1 a2 a3 a4 v a6 a7 a8 a9 a10 a11 a12 a13 a14 a15 a16 a17 a18 a19 a20 a21 a22 a23 a24.
Definition set_beginString (v : str) (d : DataDictionary) : DataDictionary :=
  let 'mkDict a0 a1 a2 a3 a4 a5 _ a7 a8 a9 a10 a11 a12 a13 a14 a15 a16 a17 a18 a19 a20 a21 a22 a23 a24 := d in
  mkDict a0 a1 a2 a3 a4 a5 v a7 a8 a9 a10 a11 a12 a13 a14 a15 a16 a17 a18 a19 a20 a21 a22 a23 a24.
Definition set_messageFields (v : list (str * list (Z * unit))) (d : DataDictionary) : DataDictionary :=
  let 'mkDict a0 a1 a2 a3 a4 a5 a6 _ a8 a9 a10 a11 a12 a13 a14 a15 a16 a17 a18 a19 a20 a21 a22 a23 a24 := d in
  mkDict a0 a1 a2 a3 a4 a5 a6 v a8 a9 a10 a11 a12 a13 a14 a15 a16 a17 a18 a19 a20 a21 a22 a23 a24.
Definition set_requiredFields (v : list (str * list (Z * unit))) (d : DataDictionary) : DataDictionary :=
  let 'mkDict a0 a1 a2 a3 a4 a5 a6 a7 _ a9 a10 a11 a12 a13 a14 a15 a16 a17 a18 a19 a20 a21 a22 a23 a24 := d in
  mkDict a0 a1 a2 a3 a4 a5 a6 a7 v a9 a10 a11 a12 a13 a14 a15 a16 a17 a18 a19 a20 a21 a22 a23 a24.
Definition set_messages (v : list (str * unit)) (d : DataDictionary) : DataDictionary :=
  let 'mkDict a0 a1 a2 a3 a4 a5 a6 a7 a8 _ a10 a11 a12 a13 a14 a15 a16 a17 a18 a19 a20 a21 a22 a23 a24 := d in
  mkDict a0 a1 a2 a3 a4 a5 a6 a7 a8 v a10 a11 a12 a13 a14 a15 a16 a17 a18 a19 a20 a21 a22 a23 a24.
Definition set_fieldSet (v : list (Z * unit)) (d : DataDictionary) : DataDictionary :=
  let 'mkDict a0 a1 a2 a3 a4 a5 a6 a7 a8 a9 _ a11 a12 a13 a14 a15 a16 a17 a18 a19 a20 a21 a22 a23 a24 := d in
  mkDict a0 a1 a2 a3 a4 a5 a6 a7 a8 a9 v a11 a12 a13 a14 a15 a16 a17 a18 a19 a20 a21 a22 a23 a24.
Definition set_orderedFields (v : list Z) (d : DataDictionary) : DataDictionary :=
  let 'mkDict a0 a1 a2 a3 a4 a5 a6 a7 a8 a9 a10 _ a12 a13 a14 a15 a16 a17 a18 a19 a20 a21 a22 a23 a24 := d in
  mkDict a0 a1 a2 a3 a4 a5 a6 a7 a8 a9 a10 v a12 a13 a14 a15 a16 a17 a18 a19 a20 a21 a22 a23 a24.
Definition set_headerFields (v : list (Z * bool)) (d : DataDictionary) : DataDictionary :=
  let 'mkDict a0 a1 a2 a3 a4 a5 a6 a7 a8 a9 a10 a11 _ a13 a14 a15 a16 a17 a18 a19 a20 a21 a22 a23 a24 := d in
  mkDict a0 a1 a2 a3 a4 a5 a6 a7 a8 a9 a10 a11 v a13 a14 a15 a16 a17 a18 a19 a20 a21 a22 a23 a24.
Definition set_trailerFields (v : list (Z * bool)) (d : DataDictionary) : DataDictionary :=
  let 'mkDict a0 a1 a2 a3 a4 a5 a6 a7 a8 a9 a10 a11 a12 _ a14 a15 a16 a17 a18 a19 a20 a21 a22 a23 a24 := d in
  mkDict a0 a1 a2 a3 a4 a5 a6 a7 a8 a9 a10 a11 a12 v a14 a15 a16 a17 a18 a19 a20 a21 a22 a23 a24.
Definition set_fieldTypes (v : list (Z * FieldType)) (d : DataDictionary) : DataDictionary :=
  let 'mkDict a0 a1 a2 a3 a4 a5 a6 a7 a8 a9 a10 a11 a12 a13 _ a15 a16 a17 a18 a19 a20 a21 a22 a23 a24 := d in
  mkDict a0 a1 a2 a3 a4 a5 a6 a7 a8 a9 a10 a11 a12 a13 v a15 a16 a17 a18 a19 a20 a21 a22 a23 a24.
Definition set_fieldValues (v : list (Z * list (str * unit))) (d : DataDictionary) : DataDictionary :=
  let 'mkDict a0 a1 a2 a3 a4 a5 a6 a7 a8 a9 a10 a11 a12 a13 a14 _ a16 a17 a18 a19 a20 a21 a22 a23 a24 := d in
  mkDict a0 a1 a2 a3 a4 a5 a6 a7 a8 a9 a10 a11 a12 a13 a14 v a16 a17 a18 a19 a20 a21 a22 a23 a24.
Definition set_fieldNames (v : list (Z * str)) (d : DataDictionary) : DataDictionary :=
  let 'mkDict a0 a1 a2 a3 a4 a5 a6 a7 a8 a9 a10 a11 a12 a13 a14 a15 _ a17 a18 a19 a20 a21 a22 a23 a24 := d in
  mkDict a0 a1 a2 a3 a4 a5 a6 a7 a8 a9 a10 a11 a12 a13 a14 a15 v a17 a18 a19 a20 a21 a22 a23 a24.
Definition set_names (v : list (str * Z)) (d : DataDictionary) : DataDictionary :=
  let 'mkDict a0 a1 a2 a3 a4 a5 a6 a7 a8 a9 a10 a11 a12 a13 a14 a15 a16 _ a18 a19 a20 a21 a22 a23 a24 := d in
  mkDict a0 a1 a2 a3 a4 a5 a6 a7 a8 a9 a10 a11 a12 a13 a14 a15 a16 v a18 a19 a20 a21 a22 a23 a24.
Definition set_valueNames (v : list (Z * list (str * str))) (d : DataDictionary) : DataDictionary :=
  let 'mkDict a0 a1 a2 a3 a4 a5 a6 a7 a8 a9 a10 a11 a12 a13 a14 a15 a16 a17 _ a19 a20 a21 a22 a23 a24 := d in
  mkDict a0 a1 a2 a3 a4 a5 a6 a7 a8 a9 a10 a11 a12 a13 a14 a15 a16 a17 v a19 a20 a21 a22 a23 a24.
Definition set_nameValues (v : list (Z * list (str * str))) (d : DataDictionary) : DataDictionary :=
  let 'mkDict a0 a1 a2 a3 a4 a5 a6 a7 a8 a9 a10 a11 a12 a13 a14 a15 a16 a17 a18 _ a20 a21 a22 a23 a24 := d in
  mkDict a0 a1 a2 a3 a4 a5 a6 a7 a8 a9 a10 a11 a12 a13 a14 a15 a16 a17 a18 v a20 a21 a22 a23 a24.
Definition set_dataFields (v : list (Z * unit)) (d : DataDictionary) : DataDictionary :=
  let 'mkDict a0 a1 a2 a3 a4 a5 a6 a7 a8 a9 a10 a11 a12 a13 a14 a15 a16 a17 a18 a19 _ a21 a22 a23 a24 := d in
  mkDict a0 a1 a2 a3 a4 a5 a6 a7 a8 a9 a10 a11 a12 a13 a14 a15 a16 a17 a18 a19 v a21 a22 a23 a24.
Definition set_headerOrderedFields (v : list Z) (d : DataDictionary) : DataDictionary :=
  let 'mkDict a0 a1 a2 a3 a4 a5 a6 a7 a8 a9 a10 a11 a12 a13 a14 a15 a16 a17 a18 a19 a20 _ a22 a23 a24 := d in
  mkDict a0 a1 a2 a3 a4 a5 a6 a7 a8 a9 a10 a11 a12 a13 a14 a15 a16 a17 a18 a19 a20 v a22 a23 a24.
Definition set_trailerOrderedFields (v : list Z) (d : DataDictionary) : DataDictionary :=
  let 'mkDict a0 a1 a2 a3 a4 a5 a6 a7 a8 a9 a10 a11 a12 a13 a14 a15 a16 a17 a18 a19 a20 a21 _ a23 a24 := d in
  mkDict a0 a1 a2 a3 a4 a5 a6 a7 a8 a9 a10 a11 a12 a13 a14 a15 a16 a17 a18 a19 a20 a21 v a23 a24.
Definition set_messageOrderedFields (v : list (str * list Z)) (d : DataDictionary) : DataDictionary :=
  let 'mkDict a0 a1 a2 a3 a4 a5 a6 a7 a8 a9 a10 a11 a12 a13 a14 a15 a16 a17 a18 a19 a20 a21 a22 _ a24 := d in
  mkDict a0 a1 a2 a3 a4 a5 a6 a7 a8 a9 a10 a11 a12 a13 a14 a15 a16 a17 a18 a19 a20 a21 a22 v a24.
Definition set_groupDicts (v : list (Z * list (str * (Z * DataDictionary)))) (d : DataDictionary) : DataDictionary :=
  let 'mkDict a0 a1 a2 a3 a4 a5 a6 a7 a8 a9 a10 a11 a12 a13 a14 a15 a16 a17 a18 a19 a20 a21 a22 a23 _ := d in
  mkDict a0 a1 a2 a3 a4 a5 a6 a7 a8 a9 a10 a11 a12 a13 a14 a15 a16 a17 a18 a19 a20 a21 a22 a23 v.

(** [DataDictionary()]. *)
Definition new_DataDictionary : DataDictionary :=
  mkDict false true true true false false [] [] [] [] [] [] [] [] [] [] [] [] [] [] [] [] [] [] [].

(** ** Storage *)

Definition setVersion (beginString : str) (d : DataDictionary) : DataDictionary :=
  set_hasVersion true (set_beginString beginString d).

Definition dd_addField (field : Z) (d : DataDictionary) : DataDictionary :=
  set_orderedFields (m_orderedFields d ++ [field]) (set_fieldSet (set_insert field (m_fieldSet d)) d).

Definition addFieldName (field : Z) (name : str) (d : DataDictionary) : result DataDictionary :=
  match str_lookup name (m_names d) with
  | Some _ => Throw (ConfigError (lit "Field named " ++ name ++ lit " defined multiple times"))
  | None => Ok (set_fieldNames (map_set field name (m_fieldNames d)) (set_names (str_set name field (m_names d)) d))
  end.

Definition addValueName (field : Z) (value name : str) (d : DataDictionary) : DataDictionary :=
  let values := default [] (map_lookup field (m_valueNames d)) in
  let names := default [] (map_lookup field (m_nameValues d)) in
  set_valueNames (map_set field (str_set value name values) (m_valueNames d))
    (set_nameValues (map_set field (str_set name value names) (m_nameValues d)) d).

Definition addMsgType (msgType : str) (d : DataDictionary) : DataDictionary :=
  set_messages (str_insert msgType (m_messages d)) d.

Definition addMsgField (msgType : str) (field : Z) (d : DataDictionary) : DataDictionary :=
  let d :=
    if m_storeMsgFieldsOrder d then
      set_messageOrderedFields
        (str_set msgType (default [] (str_lookup msgType (m_messageOrderedFields d)) ++ [field])
           (m_messageOrderedFields d)) d
    else d in
  set_messageFields
    (str_set msgType (set_insert field (default [] (str_lookup msgType (m_messageFields d)))) (m_messageFields d)) d.

Definition addHeaderField (field : Z) (required : bool) (d : DataDictionary) : DataDictionary :=
  let d := if m_storeMsgFieldsOrder d then set_headerOrderedFields (m_headerOrderedFields d ++ [field]) d else d in
  set_headerFields (map_set field required (m_headerFields d)) d.

Definition addTrailerField (field : Z) (required : bool) (d : DataDictionary) : DataDictionary :=
  let d := if m_storeMsgFieldsOrder d then set_trailerOrderedFields (m_trailerOrderedFields d ++ [field]) d else d in
  set_trailerFields (map_set field required (m_trailerFields d)) d.

Definition addFieldType (field : Z) (type : FieldType) (d : DataDictionary) : DataDictionary :=
  let d := set_fieldTypes (map_set field type (m_fieldTypes d)) d in
  if bool_decide (type = Data) then set_dataFields (set_insert field (m_dataFields d)) d else d.

Definition addRequiredField (msgType : str) (field : Z) (d : DataDictionary) : DataDictionary :=
  set_requiredFields
    (str_set msgType (set_insert field (default [] (str_lookup msgType (m_requiredFields d)))) (m_requiredFields d)) d.

Definition addFieldValue (field : Z) (value : str) (d : DataDictionary) : DataDictionary :=
  set_fieldValues
    (map_set field (str_insert value (default [] (map_lookup field (m_fieldValues d)))) (m_fieldValues d)) d.

(** [addGroup] copies the group's dictionary and [adoptGroup] takes it over: here
    both store its value, with the version of the adopting dictionary. *)
Definition adoptGroup (msg : str) (field delim : Z) (group d : DataDictionary) : DataDictionary :=
  set_groupDicts
    (map_set field
       (str_set msg (delim, setVersion (m_beginString d) group) (default [] (map_lookup field (m_groupDicts d))))
       (m_groupDicts d)) d.

(** ** Lookups *)

Definition getFieldName (field : Z) (d : DataDictionary) : option str := map_lookup field (m_fieldNames d).
Definition getFieldTag (name : str) (d : DataDictionary) : option Z := str_lookup name (m_names d).
Definition getValueName (field : Z) (value : str) (d : DataDictionary) : option str :=
  values ← map_lookup field (m_valueNames d); str_lookup value values.
Definition getNameValue (field : Z) (name : str) (d : DataDictionary) : option str :=
  names ← map_lookup field (m_nameValues d); str_lookup name names.
Definition isField (field : Z) (d : DataDictionary) : bool := set_mem field (m_fieldSet d).
Definition isMsgType (msgType : str) (d : DataDictionary) : bool := str_mem msgType (m_messages d).
Definition isMsgField (msgType : str) (field : Z) (d : DataDictionary) : bool :=
  match str_lookup msgType (m_messageFields d) with Some fields => set_mem field fields | None => false end.
Definition dd_isHeaderField (field : Z) (d : DataDictionary) : bool :=
  match map_lookup field (m_headerFields d) with Some _ => true | None => false end.
Definition dd_isTrailerField (field : Z) (d : DataDictionary) : bool :=
  match map_lookup field (m_trailerFields d) with Some _ => true | None => false end.
Definition getFieldType (field : Z) (d : DataDictionary) : option FieldType := map_lookup field (m_fieldTypes d).
Definition isRequiredField (msgType : str) (field : Z) (d : DataDictionary) : bool :=
  match str_lookup msgType (m_requiredFields d) with Some fields => set_mem field fields | None => false end.
Definition hasFieldValue (field : Z) (d : DataDictionary) : bool :=
  match map_lookup field (m_fieldValues d) with Some _ => true | None => false end.
Definition isDataField (field : Z) (d : DataDictionary) : bool := set_mem field (m_dataFields d).
Definition isMultipleValueField (field : Z) (d : DataDictionary) : bool :=
  match map_lookup field (m_fieldTypes d) with
  | Some type => bool_decide (type = MultipleValueString) || bool_decide (type = MultipleCharValue)
                 || bool_decide (type = MultipleStringValue)
  | None => false
  end.

(** The [do ... while (endPos != npos)] loop over the values of a multiple value
    field; each step moves past one space, so [length value + 1] steps do. *)
Fixpoint isFieldValue_loop (fuel : nat) (values : list (str * unit)) (value : str) (startPos : nat) : bool :=
  match fuel with
  | O => false
  | S fuel =>
      match find_from [" "%char] value startPos with
      | Some endPos =>
          if str_mem (substr value startPos (endPos - startPos)) values
          then isFieldValue_loop fuel values value (S endPos)
          else false
      | None => str_mem (drop startPos value) values
      end
  end.

Definition isFieldValue (field : Z) (value : str) (d : DataDictionary) : bool :=
  match map_lookup field (m_fieldValues d) with
  | None => false
  | Some values =>
      if negb (isMultipleValueField field d) then str_mem value values
      else isFieldValue_loop (S (length value)) values value 0
  end.

Definition isGroup (msg : str) (field : Z) (d : DataDictionary) : bool :=
  match map_lookup field (m_groupDicts d) with
  | None => false
  | Some presenceMap => match str_lookup msg presenceMap with Some _ => true | None => false end
  end.

(** [getGroup(msg, field, delim, pDataDictionary)]: the delimiter and the
    dictionary of the group. *)
Definition getGroup (msg : str) (field : Z) (d : DataDictionary) : option (Z * DataDictionary) :=
  presenceMap ← map_lookup field (m_groupDicts d); str_lookup msg presenceMap.

(** ** Orders of fields *)

Definition order_of (fields : list Z) : message_order := default (new_message_order normal) (setOrder fields).

Definition getOrderedFields (d : DataDictionary) : message_order :=
  match m_orderedFields d with [] => new_message_order normal | fields => order_of fields end.

Definition getHeaderOrderedFields (d : DataDictionary) : result message_order :=
  match m_headerOrderedFields d with
  | [] => Throw (ConfigError (lit "<Header> does not have a stored message order"))
  | fields => Ok (order_of fields)
  end.

Definition getTrailerOrderedFields (d : DataDictionary) : result message_order :=
  match m_trailerOrderedFields d with
  | [] => Throw (ConfigError (lit "<Trailer> does not have a stored message order"))
  | fields => Ok (order_of fields)
  end.

Definition getMessageOrderedFields (msgType : str) (d : DataDictionary) : result message_order :=
  match str_lookup msgType (m_messageOrderedFields d) with
  | None => Throw (ConfigError (lit "<Message> " ++ msgType ++ lit " does not have a stored message order"))
  | Some fields =>
      Ok (match fields with [] => new_message_order normal | _ => order_of (before_zero fields) end)
  end.

(** ** Lemmas *)

(** The pieces of a string between spaces. *)
Fixpoint split_spaces (s : str) : list str :=
  match s with
  | [] => [[]]
  | c :: s =>
      match split_spaces s with
      | [] => []
      | w :: ws => if bool_decide (c = " "%char) then [] :: w :: ws else (c :: w) :: ws
      end
  end.

Lemma split_spaces_cons s : exists w ws, split_spaces s = w :: ws.
Proof.
  induction s as [|c s (w & ws & E)]; simpl; [eauto|]. rewrite E. case_bool_decide; eauto.
Qed.

Lemma find_space s :
  match find [" "%char] s with
  | Some i => split_spaces s = take i s :: split_spaces (drop (S i) s)
  | None => split_spaces s = [s]
  end.
Proof.
  induction s as [|c s IH]; [done|]. cbn [find prefix_at split_spaces]. rewrite andb_true_r.
  destruct (split_spaces_cons s) as (w & ws & E). case_bool_decide as Hc.
  - subst c. rewrite bool_decide_eq_true_2 by done. simpl. by rewrite drop_0, E.
  - rewrite E, bool_decide_eq_false_2 by congruence.
    destruct (find [" "%char] s) as [i|]; simpl; rewrite E in IH.
    + injection IH as -> ->. done.
    + injection IH as -> ->. done.
Qed.

Lemma isFieldValue_loop_spec fuel values value startPos :
  (startPos <= length value)%nat -> (length value - startPos < fuel)%nat ->
  isFieldValue_loop fuel values value startPos = forallb (fun w => str_mem w values) (split_spaces (drop startPos value)).
Proof.
  revert startPos. induction fuel as [|fuel IH]; intros startPos Hs Hf; [lia|].
  simpl. pose proof (find_space (drop startPos value)) as Hsp.
  unfold find_from. destruct (Nat.ltb_spec (length value) startPos); [lia|].
  destruct (find [" "%char] (drop startPos value)) as [i|] eqn:E; simpl.
  - pose proof (find_bound _ _ _ E) as Hb. rewrite length_drop in Hb. simpl in Hb.
    rewrite Hsp. simpl. unfold substr. replace (startPos + i - startPos)%nat with i by lia.
    rewrite drop_drop. replace (startPos + S i)%nat with (S (startPos + i)) by lia.
    destruct (str_mem _ _); [|done]. apply IH; lia.
  - rewrite Hsp. simpl. by rewrite andb_true_r.
Qed.

(** The orders a dictionary gives are orders a program can build. *)
Lemma order_of_built fields : Forall int_field fields -> built_order (order_of fields).
Proof.
  intros H. unfold order_of. destruct (decide (fields = [])) as [->|Hne]; [apply (built_mode normal)|].
  destruct (position_eq fields Hne H) as (o & E & _). rewrite E. simpl. by apply (built_fields fields).
Qed.

Lemma getOrderedFields_built d : Forall int_field (m_orderedFields d) -> built_order (getOrderedFields d).
Proof.
  intros H. unfold getOrderedFields. destruct (m_orderedFields d) eqn:E; [apply built_mode|].
  by apply order_of_built.
Qed.

(** ** Properties *)

(** A field with enumerated values accepts exactly its values; a multiple value
    field accepts exactly the strings whose space-separated parts all are. *)
Theorem isFieldValue_spec field value d values :
  map_lookup field (m_fieldValues d) = Some values ->
  isFieldValue field value d =
    if isMultipleValueField field d then forallb (fun w => str_mem w values) (split_spaces value)
    else str_mem value values.
Proof.
  intros E. unfold isFieldValue. rewrite E. destruct (isMultipleValueField field d); [|done]. simpl negb. cbn iota.
  rewrite isFieldValue_loop_spec by lia. by rewrite drop_0.
Qed.

Lemma isFieldValue_spec_witness :
  let d := addFieldValue 18 (lit "G") (addFieldValue 18 (lit "1") (addFieldType 18 MultipleValueString new_DataDictionary)) in
  isFieldValue 18 (lit "1 G 1") d = true /\ isFieldValue 18 (lit "1 X") d = false.
Proof.
  set (d := addFieldValue 18 (lit "G") (addFieldValue 18 (lit "1") (addFieldType 18 MultipleValueString new_DataDictionary))).
  split.
  - rewrite (isFieldValue_spec 18 (lit "1 G 1") d [(lit "1", ()); (lit "G", ())]) by reflexivity. vm_compute. reflexivity.
  - vm_compute. reflexivity.
Defined.
