(* ===== verification/DictXml.v ===== *)
(** * Loading a data dictionary ([src/C++/DataDictionary.cpp], [DOMDocument.h], [PUGIXML_DOMDocument.cpp])

    From the parsed document to the dictionary's tables. The parser is a library: a
    document is a tree of nodes, each with a name, attributes and children (a node
    of text has no name). The files are parsed elsewhere; here [load] is given what
    the parser returned. The caches that loading fills last are rebuilt where they
    are read ([DictData]). *)
From S2P Require Import Prelude Convertors Values Scan OrdMap DictData.

(** ** Documents *)

Inductive node := Node (n_name : str) (n_attributes : list (str * str)) (n_children : list node).

Definition n_name (n : node) : str := let 'Node name _ _ := n in name.
Definition n_attributes (n : node) : list (str * str) := let 'Node _ attributes _ := n in attributes.
Definition n_children (n : node) : list node := let 'Node _ _ children := n in children.

(** [getAttributes()->get(name, value)]: the first attribute with the name. *)
Definition attribute (name : str) (n : node) : option str := str_lookup name (n_attributes n).

Definition named (name : string) (n : node) : bool := bool_decide (n_name n = lit name).

(** The nodes an absolute path of names selects, in the order of the document. *)
Fixpoint select (path : list string) (nodes : list node) : list node :=
  match path with
  | [] => []
  | [name] => List.filter (named name) nodes
  | name :: path => flat_map (fun n => select path (n_children n)) (List.filter (named name) nodes)
  end.

(** [getNode(path)]: the first of them. *)
Definition getNode (path : list string) (doc : list node) : option node := head (select path doc).

(** ** Reading attributes *)

(** [attrs->get("required", required); required == "Y" || required == "y"]. *)
Definition isRequired (n : node) : bool :=
  match attribute (lit "required") n with
  | Some required => bool_decide (required = lit "Y") || bool_decide (required = lit "y")
  | None => false
  end.

Definition getAttribute (name error : str) (n : node) : result str := of_option (ConfigError error) (attribute name n).

(** [atoi]: white space, a sign, digits; 0 without digits. *)
Definition atoi (s : str) : Z := match scan_i32 (c_str s) with Some (v, _) => v | None => 0 end.

Definition XMLTypeToType (beginString type : str) : FieldType :=
  if str_ltb beginString (lit "FIX.4.2") && bool_decide (type = lit "CHAR") then String_
  else if bool_decide (type = lit "STRING") then String_
  else if bool_decide (type = lit "CHAR") then Char
  else if bool_decide (type = lit "PRICE") then Price
  else if bool_decide (type = lit "INT") then Int_
  else if bool_decide (type = lit "AMT") then Amt
  else if bool_decide (type = lit "QTY") then Qty
  else if bool_decide (type = lit "CURRENCY") then Currency
  else if bool_decide (type = lit "MULTIPLEVALUESTRING") then MultipleValueString
  else if bool_decide (type = lit "MULTIPLESTRINGVALUE") then MultipleStringValue
  else if bool_decide (type = lit "MULTIPLECHARVALUE") then MultipleCharValue
  else if bool_decide (type = lit "EXCHANGE") then Exchange
  else if bool_decide (type = lit "UTCTIMESTAMP") then UtcTimeStamp
  else if bool_decide (type = lit "BOOLEAN") then Boolean
  else if bool_decide (type = lit "LOCALMKTDATE") then LocalMktDate
  else if bool_decide (type = lit "DATA") then Data
  else if bool_decide (type = lit "FLOAT") then Float
  else if bool_decide (type = lit "PRICEOFFSET") then PriceOffset
  else if bool_decide (type = lit "MONTHYEAR") then MonthYear
  else if bool_decide (type = lit "DAYOFMONTH") then DayOfMonth
  else if bool_decide (type = lit "UTCDATE") then UtcDate
  else if bool_decide (type = lit "UTCDATEONLY") then UtcDate   (* [UtcDateOnly] *)
  else if bool_decide (type = lit "UTCTIMEONLY") then UtcTimeOnly
  else if bool_decide (type = lit "NUMINGROUP") then NumInGroup
  else if bool_decide (type = lit "PERCENTAGE") then Percentage
  else if bool_decide (type = lit "SEQNUM") then SeqNum
  else if bool_decide (type = lit "LENGTH") then Length_
  else if bool_decide (type = lit "COUNTRY") then Country
  else if bool_decide (type = lit "TIME") then UtcTimeStamp
  else Unknown.

(** A loop over nodes that changes a state and may throw. *)
Fixpoint each {A S} (f : A -> S -> result S) (l : list A) (s : S) : result S :=
  match l with
  | [] => Ok s
  | x :: l => s ← f x s; each f l s
  end.

(** ** Fields *)

Definition load_value (num : Z) (name : str) (n : node) (d : DataDictionary) : result DataDictionary :=
  if negb (named "value" n) then Ok d
  else
    enumeration ← getAttribute (lit "enum") (lit "<value> does not have enum attribute in field " ++ name) n;
    let d := addFieldValue num enumeration d in
    mret (match attribute (lit "description") n with
          | Some description => addValueName num enumeration description d
          | None => d
          end).

Definition load_field (n : node) (d : DataDictionary) : result DataDictionary :=
  if negb (named "field" n) then Ok d
  else
    name ← getAttribute (lit "name") (lit "<field> does not have a name attribute") n;
    number ← getAttribute (lit "number") (lit "<field> " ++ name ++ lit " does not have a number attribute") n;
    let num := atoi number in
    type ← getAttribute (lit "type") (lit "<field> " ++ name ++ lit " does not have a type attribute") n;
    let d := dd_addField num d in
    let d := addFieldType num (XMLTypeToType (m_beginString d) type) d in
    d ← addFieldName num name d;
    each (load_value num name) (n_children n) d.

Definition lookupXMLFieldNumber (name : str) (d : DataDictionary) : result Z :=
  of_option (ConfigError (lit "Field " ++ name ++ lit " not defined in fields section")) (str_lookup name (m_names d)).

(** [lookupXMLFieldNumber(pDoc, pNode)]. *)
Definition lookup_node_number (n : node) (d : DataDictionary) : result Z :=
  name ← getAttribute (lit "name") (lit "No name given to field") n;
  lookupXMLFieldNumber name d.

(** ** Components and groups *)

(** Of two components with a name, the first. *)
Definition index_component (n : node) (components : list (str * node)) : list (str * node) :=
  match attribute (lit "name") n with
  | Some name => if named "component" n then match str_lookup name components with
                                             | Some _ => components
                                             | None => str_set name n components
                                             end
                 else components
  | None => components
  end.

Definition indexComponents (fix_ : node) : list (str * node) :=
  fold_left (fun components section =>
      if named "components" section then fold_left (fun c n => index_component n c) (n_children section) components else components)
    (n_children fix_) [].

(** What loading a message changes: the dictionary whose method runs, and the
    dictionary [DD] given to it; [None] when they are the same object. *)
Record Loading := mkLoading { this : DataDictionary; DD : option DataDictionary }.

Definition on_this (f : DataDictionary -> DataDictionary) (s : Loading) : Loading := mkLoading (f (this s)) (DD s).
Definition on_DD (f : DataDictionary -> DataDictionary) (s : Loading) : Loading :=
  match DD s with
  | None => mkLoading (f (this s)) None
  | Some d => mkLoading (this s) (Some (f d))
  end.

(** A field or group among the members of a component; the first of them that is
    not 0 is kept. *)
Definition add_component_member (msgtype : str) (componentRequired : bool) (n : node) (firstField : Z) (s : Loading) : result (Z * Loading) :=
  if named "field" n || named "group" n then
    name ← getAttribute (lit "name") (lit "No name given to field") n;
    field ← lookupXMLFieldNumber name (this s);
    let firstField := if firstField =? 0 then field else firstField in
    let s := if isRequired n && componentRequired then on_this (addRequiredField msgtype field) s else s in
    mret (firstField, on_DD (addMsgField msgtype field) (on_DD (dd_addField field) s))
  else mret (firstField, s).

(** A field or group among the members of a group. *)
Definition add_group_member (msgtype : str) (groupRequired : bool) (n : node) (s : Loading) : result (Z * Loading) :=
  field ← lookup_node_number n (this s);
  let s := on_DD (dd_addField field) s in
  mret (field, if isRequired n && groupRequired then on_DD (addRequiredField msgtype field) s else s).

Section Components.
Context (components : list (str * node)).

(** A component may refer to components and hold groups, a group may hold both;
    [fuel] bounds their depth. *)
Fixpoint addXMLComponentFields (fuel : nat) (pNode : node) (msgtype : str) (componentRequired : bool) (s : Loading)
    : result (Z * Loading) :=
  match fuel with
  | O => Throw OutOfFuel
  | S fuel =>
      name ← getAttribute (lit "name") (lit "No name given to component") pNode;
      component ← of_option (ConfigError (lit "Component not found: " ++ name)) (str_lookup name components);
      each (fun n '(firstField, s) =>
          '(firstField, s) ← add_component_member msgtype componentRequired n firstField s;
          s ← (if named "component" n then snd <$> addXMLComponentFields fuel n msgtype (isRequired n) s else mret s);
          s ← (if named "group" n then addXMLGroup fuel n msgtype (isRequired n) s else mret s);
          mret (firstField, s))
        (n_children component) (0, s)
  end
with addXMLGroup (fuel : nat) (pNode : node) (msgtype : str) (groupRequired : bool) (s : Loading) : result Loading :=
  match fuel with
  | O => Throw OutOfFuel
  | S fuel =>
      name ← getAttribute (lit "name") (lit "No name given to group") pNode;
      group ← lookupXMLFieldNumber name (this s);
      (* [s] now with the group's own dictionary as [DD] *)
      '(delim, _, inner) ←
        each (fun n '(delim, field, s) =>
            '(field, s) ←
              (if named "field" n then add_group_member msgtype groupRequired n s
               else if named "component" n then addXMLComponentFields fuel n msgtype false s
               else if named "group" n then
                 '(field, s) ← add_group_member msgtype groupRequired n s;
                 s ← addXMLGroup fuel n msgtype (isRequired n) s;
                 mret (field, s)
               else mret (field, s));
            mret (if delim =? 0 then field else delim, field, s))
          (n_children pNode) (0, 0, mkLoading (this s) (Some new_DataDictionary));
      let s := mkLoading (this inner) (DD s) in
      match DD inner with
      | Some groupDD => mret (if delim =? 0 then s else on_DD (adoptGroup msgtype group delim groupDD) s)
      | None => Throw Undefined   (* there always is one *)
      end
  end.

(** ** Header, trailer, messages *)

(** A field or group of the header or the trailer. *)
Definition load_block_field (fuel : nat) (add : Z -> bool -> DataDictionary -> DataDictionary) (block : str) (n : node) (d : DataDictionary)
    : result DataDictionary :=
  d ← (if named "field" n || named "group" n then
         name ← getAttribute (lit "name") (lit "<field> does not have a name attribute") n;
         field ← lookupXMLFieldNumber name d;
         mret (add field (isRequired n) d)
       else mret d);
  if named "group" n then this <$> addXMLGroup fuel n block (isRequired n) (mkLoading d None) else mret d.

Definition load_message_field (fuel : nat) (msgtype : str) (n : node) (d : DataDictionary) : result DataDictionary :=
  d ← (if named "field" n || named "group" n then
         name ← getAttribute (lit "name") (lit "<field> does not have a name attribute") n;
         num ← lookupXMLFieldNumber name d;
         let d := addMsgField msgtype num d in
         mret (if isRequired n then addRequiredField msgtype num d else d)
       else if named "component" n then
         (fun r => this r.2) <$> addXMLComponentFields fuel n msgtype (isRequired n) (mkLoading d None)
       else mret d);
  if named "group" n then this <$> addXMLGroup fuel n msgtype (isRequired n) (mkLoading d None) else mret d.

Definition load_message (fuel : nat) (n : node) (d : DataDictionary) : result DataDictionary :=
  if negb (named "message" n) then Ok d
  else
    msgtype ← getAttribute (lit "msgtype") (lit "<message> does not have a msgtype attribute") n;
    let d := addMsgType msgtype d in
    let d := match attribute (lit "name") n with Some name => addValueName FIELD.MsgType msgtype name d | None => d end in
    each (load_message_field fuel msgtype) (n_children n) d.

Definition load_block (fuel : nat) (add : Z -> bool -> DataDictionary -> DataDictionary) (path : list string) (block missing empty : string)
    (doc : list node) (d : DataDictionary) : result DataDictionary :=
  n ← of_option (ConfigError (lit missing)) (getNode path doc);
  match n_children n with
  | [] => Throw (ConfigError (lit empty))
  | children => each (load_block_field fuel add (lit block)) children d
  end.
End Components.

(** ** The document *)

Definition load_version (fix_ : node) (d : DataDictionary) : result (str * str * DataDictionary) :=
  let type := default (lit "FIX") (attribute (lit "type") fix_) in
  _ ← guard_or (bool_decide (type ∈ [lit "FIX"; lit "FIXT"])) (ConfigError (lit "type attribute must be FIX or FIXT"));
  major ← getAttribute (lit "major") (lit "major attribute not found on <fix>") fix_;
  minor ← getAttribute (lit "minor") (lit "minor attribute not found on <fix>") fix_;
  mret (type, major, setVersion (type ++ lit "." ++ major ++ lit "." ++ minor) d).

Definition load_fields (doc : list node) (d : DataDictionary) : result DataDictionary :=
  n ← of_option (ConfigError (lit "<fields> section not found in data dictionary")) (getNode ["fix"; "fields"]%string doc);
  match n_children n with
  | [] => Throw (ConfigError (lit "No fields defined"))
  | children => each load_field children d
  end.

Definition load_messages (components : list (str * node)) (fuel : nat) (doc : list node) (d : DataDictionary) : result DataDictionary :=
  n ← of_option (ConfigError (lit "<messages> section not found in data dictionary")) (getNode ["fix"; "messages"]%string doc);
  match n_children n with
  | [] => Throw (ConfigError (lit "No messages defined"))
  | children => each (load_message components fuel) children d
  end.

(** [readFromDocument]. *)
Definition readFromDocument (fuel : nat) (doc : list node) (d : DataDictionary) : result DataDictionary :=
  fix_ ← of_option (ConfigError (lit "Could not parse data dictionary file, or no <fix> node found at root")) (getNode ["fix"%string] doc);
  '(type, major, d) ← load_version fix_ d;
  d ← load_fields doc d;
  let components := indexComponents fix_ in
  let blocks := bool_decide (type = lit "FIXT") || (bool_decide (type = lit "FIX") && str_ltb major (lit "5")) in
  d ← (if blocks then
         load_block components fuel addHeaderField ["fix"; "header"]%string "_header_" "<header> section not found in data dictionary"
           "No header fields defined" doc d
       else mret d);
  d ← (if blocks then
         load_block components fuel addTrailerField ["fix"; "trailer"]%string "_trailer_" "<trailer> section not found in data dictionary"
           "No trailer fields defined" doc d
       else mret d);
  load_messages components fuel doc d.

(** [DataDictionary(url, preserveMsgFldsOrder)], of the document the parser
    made of the file, if it could. *)
Definition DataDictionary_of_file (fuel : nat) (parse : str -> option (list node)) (url : str) (preserveMsgFldsOrder : bool)
    : result DataDictionary :=
  let d := set_storeMsgFieldsOrder preserveMsgFldsOrder new_DataDictionary in
  match parse url with
  | None => Throw (ConfigError (url ++ lit ": Could not parse data dictionary file"))
  | Some doc =>
      match readFromDocument fuel doc d with
      | Throw (ConfigError e) => Throw (ConfigError (url ++ lit ": " ++ exn_what (ConfigError e)))
      | r => r
      end
  end.

(** [DataDictionary(stream, preserveMsgFldsOrder)]. *)
Definition DataDictionary_of_stream (fuel : nat) (doc : option (list node)) (preserveMsgFldsOrder : bool) : result DataDictionary :=
  match doc with
  | None => Throw (ConfigError (lit "Could not parse data dictionary stream"))
  | Some doc => readFromDocument fuel doc (set_storeMsgFieldsOrder preserveMsgFldsOrder new_DataDictionary)
  end.

(** ** Parts of a document *)

Definition children_at (path : list string) (doc : list node) : list node :=
  match getNode path doc with Some n => n_children n | None => [] end.

Definition components_of (doc : list node) : list (str * node) :=
  match getNode ["fix"%string] doc with Some fix_ => indexComponents fix_ | None => [] end.

(** ** An example *)

Definition el (name : string) (attributes : list (string * string)) (children : list node) : node :=
  Node (lit name) (map (fun '(k, v) => (lit k, lit v)) attributes) children.
Definition el_field (name number type : string) : node := el "field" [("name", name); ("number", number); ("type", type)]%string [].
Definition el_ref (kind name required : string) : node := el kind [("name", name); ("required", required)]%string [].

(** An order with an optional component, which has a component it requires, and a
    group that starts with a component that starts with a component. *)
Definition ex_doc : list node :=
  [el "fix" [("type", "FIX"); ("major", "4"); ("minor", "4")]%string
    [el "header" [] [el_ref "field" "BeginString" "Y"];
     el "trailer" [] [el_ref "field" "CheckSum" "Y"];
     el "messages" [] [el "message" [("name", "Order"); ("msgtype", "D")]%string
        [el_ref "field" "Text" "Y"; el_ref "component" "Parties" "N";
         el "group" [("name", "NoLegs"); ("required", "N")]%string [el_ref "component" "Leg" "Y"; el_ref "field" "Text" "N"]]];
     el "components" [] [
        el "component" [("name", "Parties")]%string [el_ref "field" "PartyID" "Y"; el_ref "component" "Sub" "Y"];
        el "component" [("name", "Leg")]%string [el_ref "component" "Sub" "Y"];
        el "component" [("name", "Sub")]%string [el_ref "field" "SubID" "Y"]];
     el "fields" [] [el_field "BeginString" "8" "STRING"; el_field "CheckSum" "10" "STRING"; el_field "Text" "58" "STRING";
        el_field "PartyID" "448" "STRING"; el_field "SubID" "523" "STRING"; el_field "NoLegs" "555" "NUMINGROUP"]]]%string.

(** ** Lemmas *)

Lemma named_ne a b n : a <> b -> named a n = true -> named b n = false.
Proof.
  unfold named. intros Hne H%bool_decide_eq_true. apply bool_decide_eq_false. rewrite H. intros E. apply Hne.
  apply (f_equal string_of_list_ascii) in E. unfold lit in E. by rewrite !string_of_list_ascii_of_string in E.
Qed.

(** The component is optional and so is what it holds, but the component inside
    it makes its field required of every order. *)
Lemma nested_component_required :
  match readFromDocument 10 ex_doc new_DataDictionary with
  | Ok d => isRequiredField (lit "D") 448 d = false /\ isRequiredField (lit "D") 523 d = true
  | Throw _ => False
  end.
Proof. vm_compute. done. Qed.

(** A group begins with 523, but is delimited by the field after its components. *)
Lemma delimiter_skips_nested :
  match readFromDocument 10 ex_doc new_DataDictionary with
  | Ok d => fst <$> getGroup (lit "D") 555 d = Some 58 /\ (fun g => m_orderedFields g.2) <$> getGroup (lit "D") 555 d = Some [523; 58]
  | Throw _ => False
  end.
Proof. vm_compute. done. Qed.
