(* ===== verification/DictLoad.v ===== *)
(** * What a loaded dictionary holds

    A dictionary read from a document lists exactly the fields, the message types
    and the contents of messages the document gives, through any nesting of
    components and groups (the rest is in [DictTables] and [DictContents]). What a document gives is said by [declares], what a
    dictionary holds by [holds], both about one [fact] at a time. *)
From S2P Require Import Prelude Convertors Values Scan OrdMap DictData DictXml.

(** ** Sets in the tables *)

Lemma set_mem_insert k k' s : ordered s -> set_mem k (set_insert k' s) = true <-> k = k' \/ set_mem k s = true.
Proof.
  intros Hs. unfold set_mem, set_insert. destruct (decide (k = k')) as [->|Hne].
  - rewrite map_lookup_set by done. tauto.
  - rewrite map_lookup_set_ne by done. tauto.
Qed.

Lemma str_mem_insert k k' s : str_mem k (str_insert k' s) = true <-> k = k' \/ str_mem k s = true.
Proof.
  unfold str_mem, str_insert. destruct (decide (k = k')) as [->|Hne].
  - rewrite str_lookup_set. tauto.
  - rewrite str_lookup_set_ne by done. tauto.
Qed.

(** A table of sets: the sets of [m_messageFields] and [m_requiredFields]. *)
Definition table_mem (msgtype : str) (field : Z) (t : list (str * list (Z * unit))) : bool :=
  match str_lookup msgtype t with Some fields => set_mem field fields | None => false end.

Definition table_insert (msgtype : str) (field : Z) (t : list (str * list (Z * unit))) : list (str * list (Z * unit)) :=
  str_set msgtype (set_insert field (default [] (str_lookup msgtype t))) t.

Definition table_ok (t : list (str * list (Z * unit))) : Prop := forall msgtype l, str_lookup msgtype t = Some l -> ordered l.

Lemma table_mem_insert m m' f f' t :
  table_ok t -> table_mem m f (table_insert m' f' t) = true <-> (m = m' /\ f = f') \/ table_mem m f t = true.
Proof.
  intros Ht. unfold table_mem, table_insert. destruct (decide (m = m')) as [->|Hne].
  - rewrite str_lookup_set. specialize (Ht m'). destruct (str_lookup m' t) as [l|]; cbn [default].
    + rewrite set_mem_insert by by apply Ht. tauto.
    + rewrite set_mem_insert by done. assert (set_mem f [] = false) as -> by done. naive_solver.
  - rewrite str_lookup_set_ne by done. tauto.
Qed.

Lemma table_ok_insert m f t : table_ok t -> table_ok (table_insert m f t).
Proof.
  intros Ht m' l. unfold table_insert. destruct (decide (m' = m)) as [->|Hne]; [rewrite str_lookup_set | rewrite str_lookup_set_ne by done; apply Ht].
  intros [= <-]. apply ordered_set. specialize (Ht m). destruct (str_lookup m t); [by apply Ht | done].
Qed.

(** ** Facts *)

Inductive fact :=
| Named (name : str) (num : Z)
| HasField (num : Z)
| MessageType (msgtype : str)
| MessageField (msgtype : str) (num : Z)
| Required (msgtype : str) (num : Z)
| GroupOf (msgtype : str) (num : Z)
| HeaderField (num : Z)
| TrailerField (num : Z).

(** What the look-ups of a dictionary answer. *)
Definition holds (d : DataDictionary) (x : fact) : Prop :=
  match x with
  | Named name num => getFieldTag name d = Some num
  | HasField num => isField num d = true
  | MessageType msgtype => isMsgType msgtype d = true
  | MessageField msgtype num => isMsgField msgtype num d = true
  | Required msgtype num => isRequiredField msgtype num d = true
  | GroupOf msgtype num => isGroup msgtype num d = true
  | HeaderField num => dd_isHeaderField num d = true
  | TrailerField num => dd_isTrailerField num d = true
  end.

(** The sets and maps of a dictionary are ordered, and a name is that of a field. *)
Record tables_ok (d : DataDictionary) : Prop := {
  ok_fieldSet : ordered (m_fieldSet d);
  ok_headerFields : ordered (m_headerFields d);
  ok_trailerFields : ordered (m_trailerFields d);
  ok_groupDicts : ordered (m_groupDicts d);
  ok_messageFields : table_ok (m_messageFields d);
  ok_requiredFields : table_ok (m_requiredFields d)
}.

Lemma tables_ok_new flag : tables_ok (set_storeMsgFieldsOrder flag new_DataDictionary).
Proof. by split. Qed.

(** From [d] to [d'] the facts [P] were added, and nothing else changed. *)
Definition adds (P : fact -> Prop) (d d' : DataDictionary) : Prop :=
  tables_ok d -> tables_ok d' /\ forall x, holds d' x <-> holds d x \/ P x.

Lemma adds_refl d : adds (fun _ => False) d d.
Proof. intros Hd. split; [done|]. tauto. Qed.

Lemma adds_trans P Q d1 d2 d3 : adds P d1 d2 -> adds Q d2 d3 -> adds (fun x => P x \/ Q x) d1 d3.
Proof. intros H1 H2 Hd. destruct (H1 Hd) as [Hd2 E1]. destruct (H2 Hd2) as [Hd3 E2]. split; [done|]. intros x. rewrite E2, E1. tauto. Qed.

Lemma adds_iff P Q d d' : adds P d d' -> (forall x, P x <-> Q x) -> adds Q d d'.
Proof. intros H E Hd. destruct (H Hd) as [Hd' E']. split; [done|]. intros x. by rewrite E', E. Qed.

Lemma or_absurd (A B : Prop) : ~ B -> A <-> A \/ B.
Proof. tauto. Qed.

(** A fact an operation does not touch. *)
Ltac untouched := by apply or_absurd; intros [=].

(** Each operation adds its fact. *)
Lemma addMsgField_tables m f d : m_messageFields (addMsgField m f d) = table_insert m f (m_messageFields d).
Proof. unfold addMsgField. destruct d; simpl. by destruct m_storeMsgFieldsOrder. Qed.

Lemma adds_addMsgField m f d : adds (eq (MessageField m f)) d (addMsgField m f d).
Proof.
  intros [H1 H2 H3 H4 H5 H6]. pose proof (addMsgField_tables m f d) as E. split.
  - assert (table_ok (m_messageFields (addMsgField m f d))) by (rewrite E; by apply table_ok_insert).
    unfold addMsgField in *. destruct d as [? ? ? ? ? []]; by split.
  - assert (forall x, (forall m' f', x <> MessageField m' f') -> holds (addMsgField m f d) x <-> holds d x) as Hx.
    { unfold addMsgField. intros [] Hx; try (by destruct d as [? ? ? ? ? []]). by destruct (Hx msgtype num). }
    intros [| | |m' f'| | | |]; try (rewrite Hx by done; untouched).
    unfold holds, isMsgField. rewrite E. fold (table_mem m' f' (table_insert m f (m_messageFields d))).
    rewrite table_mem_insert by done. unfold table_mem. naive_solver.
Qed.

Lemma adds_addRequiredField m f d : adds (eq (Required m f)) d (addRequiredField m f d).
Proof.
  intros [H1 H2 H3 H4 H5 H6]. split.
  - destruct d; split; try done. by apply table_ok_insert.
  - intros [| | | |m' f'| | |]; try (destruct d; untouched).
    change (table_mem m' f' (m_requiredFields (addRequiredField m f d)) = true <-> table_mem m' f' (m_requiredFields d) = true \/ Required m f = Required m' f').
    assert (m_requiredFields (addRequiredField m f d) = table_insert m f (m_requiredFields d)) as -> by by destruct d.
    rewrite table_mem_insert by done. naive_solver.
Qed.

Lemma adds_addField f d : adds (eq (HasField f)) d (dd_addField f d).
Proof.
  intros [H1 H2 H3 H4 H5 H6]. split.
  - destruct d; split; try done. by apply ordered_set.
  - intros [|f'| | | | | |]; try (destruct d; untouched).
    unfold holds, isField. assert (m_fieldSet (dd_addField f d) = set_insert f (m_fieldSet d)) as -> by by destruct d.
    rewrite set_mem_insert by done. naive_solver.
Qed.

Lemma adds_addMsgType m d : adds (eq (MessageType m)) d (addMsgType m d).
Proof.
  intros [H1 H2 H3 H4 H5 H6]. split; [by destruct d|].
  intros [| |m'| | | | |]; try (destruct d; untouched).
  unfold holds, isMsgType. assert (m_messages (addMsgType m d) = str_insert m (m_messages d)) as -> by by destruct d.
  rewrite str_mem_insert. naive_solver.
Qed.

Lemma adds_adoptGroup m f delim g d : adds (eq (GroupOf m f)) d (adoptGroup m f delim g d).
Proof.
  intros [H1 H2 H3 H4 H5 H6]. split.
  - destruct d; split; try done. by apply ordered_set.
  - intros [| | | | |m' f'| |]; try (destruct d; untouched).
    unfold holds, isGroup.
    assert (m_groupDicts (adoptGroup m f delim g d) = map_set f (str_set m (delim, setVersion (m_beginString d) g) (default [] (map_lookup f (m_groupDicts d)))) (m_groupDicts d))
      as -> by by destruct d.
    destruct (decide (f' = f)) as [->|Hne]; [rewrite map_lookup_set by done | rewrite map_lookup_set_ne by done; naive_solver].
    destruct (decide (m' = m)) as [->|Hne]; [rewrite str_lookup_set; naive_solver | rewrite str_lookup_set_ne by done].
    destruct (map_lookup f (m_groupDicts d)); simpl; naive_solver.
Qed.

(** Maps from fields to whether they are required. *)
Lemma has_map_set (f f' : Z) (b : bool) m :
  ordered m ->
  match map_lookup f (map_set f' b m) with Some _ => true | None => false end = true <->
  match map_lookup f m with Some _ => true | None => false end = true \/ f' = f.
Proof. intros Hm. destruct (decide (f = f')) as [->|Hne]; [rewrite map_lookup_set by done | rewrite map_lookup_set_ne by done]; naive_solver. Qed.

Lemma adds_addHeaderField f b d : adds (eq (HeaderField f)) d (addHeaderField f b d).
Proof.
  intros [H1 H2 H3 H4 H5 H6]. split.
  - unfold addHeaderField. destruct d as [? ? ? ? ? []]; split; try done; by apply ordered_set.
  - intros [| | | | | |f'|]; try (unfold addHeaderField; destruct d as [? ? ? ? ? []]; untouched).
    unfold holds, dd_isHeaderField.
    assert (m_headerFields (addHeaderField f b d) = map_set f b (m_headerFields d)) as -> by (unfold addHeaderField; by destruct d as [? ? ? ? ? []]).
    rewrite has_map_set by done. naive_solver.
Qed.

Lemma adds_addTrailerField f b d : adds (eq (TrailerField f)) d (addTrailerField f b d).
Proof.
  intros [H1 H2 H3 H4 H5 H6]. split.
  - unfold addTrailerField. destruct d as [? ? ? ? ? []]; split; try done; by apply ordered_set.
  - intros [| | | | | | |f']; try (unfold addTrailerField; destruct d as [? ? ? ? ? []]; untouched).
    unfold holds, dd_isTrailerField.
    assert (m_trailerFields (addTrailerField f b d) = map_set f b (m_trailerFields d)) as -> by (unfold addTrailerField; by destruct d as [? ? ? ? ? []]).
    rewrite has_map_set by done. naive_solver.
Qed.

Lemma adds_addFieldName f name d d' : addFieldName f name d = Ok d' -> adds (eq (Named name f)) d d'.
Proof.
  unfold addFieldName. destruct (str_lookup name (m_names d)) eqn:E; [done|]. intros [= <-] [H1 H2 H3 H4 H5 H6]. split; [by destruct d|].
  intros [name' f'| | | | | | |]; try (destruct d; untouched).
  unfold holds, getFieldTag. assert (m_names (set_fieldNames (map_set f name (m_fieldNames d)) (set_names (str_set name f (m_names d)) d)) = str_set name f (m_names d))
    as -> by by destruct d.
  destruct (decide (name' = name)) as [->|Hne]; [rewrite str_lookup_set, E | rewrite str_lookup_set_ne by done]; naive_solver.
Qed.

(** The rest adds nothing the facts speak of. *)
Ltac untouched_by_any := match goal with |- _ <-> _ \/ False => apply or_absurd; exact id end.

Lemma adds_addFieldType f t d : adds (fun _ => False) d (addFieldType f t d).
Proof. intros []. unfold addFieldType. destruct (bool_decide (t = Data)), d; (split; [done|]); intros []; untouched_by_any. Qed.

Lemma adds_addFieldValue f v d : adds (fun _ => False) d (addFieldValue f v d).
Proof. intros []. destruct d. split; [done|]. intros []; untouched_by_any. Qed.

Lemma adds_addValueName f v name d : adds (fun _ => False) d (addValueName f v name d).
Proof. intros []. destruct d. split; [done|]. intros []; untouched_by_any. Qed.

Lemma adds_setVersion v d : adds (fun _ => False) d (setVersion v d).
Proof. intros []. destruct d. split; [done|]. intros []; untouched_by_any. Qed.

Create HintDb dictionary.
#[export] Hint Resolve adds_refl adds_addMsgField adds_addRequiredField adds_addField adds_addMsgType adds_adoptGroup adds_addHeaderField
  adds_addTrailerField adds_addFieldType adds_addFieldValue adds_addValueName adds_setVersion : dictionary.

(** ** Loops *)

Lemma each_ind {A S} (f : A -> S -> result S) (P : list A -> S -> Prop) :
  (forall l x s s', P l s -> f x s = Ok s' -> P (l ++ [x]) s') ->
  forall l s s', P [] s -> each f l s = Ok s' -> P l s'.
Proof.
  intros Hf. assert (forall l l0 s s', P l0 s -> each f l s = Ok s' -> P (l0 ++ l) s') as G.
  { induction l as [|x l IH]; intros l0 s s' H0; simpl; [intros [= <-]; by rewrite app_nil_r|].
    intros (s1 & E1 & E)%result_bind_Ok. rewrite (app_assoc l0 [x] l : l0 ++ x :: l = _). eapply IH; [|exact E]. by eapply Hf. }
  intros l s s' H0. by apply (G l []).
Qed.

(** A loop whose steps each add facts. *)
Lemma each_adds {A} (f : A -> DataDictionary -> result DataDictionary) (P : A -> fact -> Prop) :
  (forall x d d', f x d = Ok d' -> adds (P x) d d') ->
  forall l d d', each f l d = Ok d' -> adds (fun x => exists a, a ∈ l /\ P a x) d d'.
Proof.
  intros Hf l d d'. apply (each_ind f (fun l d' => adds (fun x => exists a, a ∈ l /\ P a x) d d')).
  - intros l0 a d1 d2 H1 H2%Hf. eapply adds_iff; [eapply adds_trans; [exact H1 | exact H2]|].
    intros x. split.
    + intros [(b & Hb & Hx)|Hx]; [exists b | exists a]; (split; [apply elem_of_app|done]); [by left | right; by apply list_elem_of_singleton].
    + intros (b & [Hb|Hb%list_elem_of_singleton]%elem_of_app & Hx); [left; by exists b | right; by subst].
  - eapply adds_iff; [apply adds_refl|]. intros x. split; [done|]. by intros (a & Ha%elem_of_nil & _).
Qed.

(** ** The fields section *)

(** A [<field>] with its name and number. *)
Definition field_node (name : str) (num : Z) (n : node) : Prop :=
  named "field" n = true /\ attribute (lit "name") n = Some name /\ exists number, attribute (lit "number") n = Some number /\ atoi number = num.

Definition field_facts (n : node) (x : fact) : Prop :=
  match x with
  | Named name num => field_node name num n
  | HasField num => exists name, field_node name num n
  | _ => False
  end.

Lemma load_values_adds num name l d d' : each (load_value num name) l d = Ok d' -> adds (fun _ => False) d d'.
Proof.
  intros H. eapply adds_iff; [eapply (each_adds _ (fun _ _ => False)); [|exact H]|].
  - clear. intros n d d'. unfold load_value. destruct (negb _); [intros [= <-]; auto with dictionary|].
    intros (v & _ & E)%result_bind_Ok. destruct (attribute (lit "description") n); injection E as <-; [|auto with dictionary].
    eapply adds_iff; [eapply adds_trans; [apply adds_addFieldValue | apply adds_addValueName]|]. intros x. cbn. tauto.
  - intros x. split; [|done]. by intros (? & ? & ?).
Qed.

Lemma load_field_adds n d d' : load_field n d = Ok d' -> adds (field_facts n) d d'.
Proof.
  unfold load_field. destruct (negb (named "field" n)) eqn:En.
  { apply negb_true_iff in En. intros [= <-]. eapply adds_iff; [apply adds_refl|]. intros x. split; [done|].
    destruct x; simpl; try done; [intros (E & _); congruence | intros (name & E & _); congruence]. }
  apply negb_false_iff in En. unfold getAttribute. intros (name & Hname & E)%result_bind_Ok. revert E.
  intros (number & Hnum & E)%result_bind_Ok. revert E. intros (type & _ & E)%result_bind_Ok. revert E.
  intros (d1 & H1 & H2)%result_bind_Ok.
  eapply adds_iff.
  - eapply adds_trans; [apply (adds_addField (atoi number))|]. eapply adds_trans; [apply adds_addFieldType|].
    eapply adds_trans; [by eapply adds_addFieldName | by eapply load_values_adds].
  - apply of_option_Ok in Hname, Hnum. intros x. unfold field_facts, field_node. split.
    + intros [<-|[[]|[<-|[]]]]; [exists name|]; split_and!; eauto.
    + destruct x as [name' num|num| | | | | |]; try done.
      * intros (_ & E & v & Ev & <-). naive_solver.
      * intros (name' & _ & E & v & Ev & <-). left. congruence.
Qed.

(** ** What a document says of messages *)

Fixpoint first_nonzero (l : list Z) : Z :=
  match l with
  | [] => 0
  | x :: l => if x =? 0 then first_nonzero l else x
  end.

Lemma first_nonzero_app l x : first_nonzero (l ++ [x]) = if first_nonzero l =? 0 then x else first_nonzero l.
Proof. induction l as [|y l IH]; simpl; [by case_bool|]. case_bool; [done|]. destruct (Z.eqb_spec y 0); lia. Qed.

Section Contents.
Context (names : str -> option Z) (components : list (str * node)).

(** The nodes that stand for a field of their own. *)
Definition is_member (n : node) : bool := named "field" n || named "group" n.

Definition number (n : node) : option Z := attribute (lit "name") n ≫= names.

(** The component a node refers to. *)
Definition component (n : node) : option node := attribute (lit "name") n ≫= fun name => str_lookup name components.

(** The number a member of a group contributes to the choice of the delimiter,
    and the delimiter: a component contributes its first own member, whatever is
    in the components it starts with. *)
Definition own_number (n : node) : Z := if is_member n then default 0 (number n) else 0.

Definition member_number (n : node) : Z :=
  if is_member n then default 0 (number n)
  else if named "component" n then match component n with Some c => first_nonzero (map own_number (n_children c)) | None => 0 end
  else 0.

Definition delimiter (members : list node) : Z := first_nonzero (map member_number members).

(** What members [l] of message [m] say. [own] says that they are members of the
    message itself and not of one of its groups; [demanded] that their required
    fields are required of the message. A component inside another is demanded
    as its own reference says, whatever the outer one is: the code does so. *)
Inductive says (m : str) : bool -> bool -> list node -> fact -> Prop :=
| says_field demanded l n num :
    n ∈ l -> is_member n = true -> number n = Some num -> says m true demanded l (MessageField m num)
| says_required own l n num :
    n ∈ l -> is_member n = true -> isRequired n = true -> number n = Some num -> says m own true l (Required m num)
| says_component own demanded l n c x :
    n ∈ l -> named "component" n = true -> component n = Some c -> says m own (isRequired n) (n_children c) x -> says m own demanded l x
| says_group own demanded l n x :
    n ∈ l -> named "group" n = true -> says_of_group m own n x -> says m own demanded l x
with says_of_group (m : str) : bool -> node -> fact -> Prop :=
| group_itself n num : number n = Some num -> delimiter (n_children n) <> 0 -> says_of_group m true n (GroupOf m num)
| group_component own n n' c x :
    n' ∈ n_children n -> named "component" n' = true -> component n' = Some c -> says m false false (n_children c) x ->
    says_of_group m own n x
| group_group own n n' x : n' ∈ n_children n -> named "group" n' = true -> says_of_group m false n' x -> says_of_group m own n x.

Lemma says_nil m own demanded x : ~ says m own demanded [] x.
Proof. intros H. inversion H as [? ? ? ? C|? ? ? ? C|? ? ? ? ? ? C|? ? ? ? ? C]; by apply elem_of_nil in C. Qed.

Lemma says_sub m own demanded l l' x : l ⊆ l' -> says m own demanded l x -> says m own demanded l' x.
Proof.
  intros Hl H. inversion H; subst; [eapply says_field | eapply says_required | eapply says_component | eapply says_group]; eauto.
Qed.

Lemma says_app m own demanded l1 l2 x :
  says m own demanded (l1 ++ l2) x <-> says m own demanded l1 x \/ says m own demanded l2 x.
Proof.
  split; [|intros [H|H]; (eapply says_sub; [|exact H]); set_solver].
  intros H. inversion H as [? ? n ? Hn|? ? n ? Hn|? ? ? n ? ? Hn|? ? ? n ? Hn]; subst; apply elem_of_app in Hn as [Hn|Hn];
    [> left; eapply says_field | right; eapply says_field | left; eapply says_required | right; eapply says_required
     | left; eapply says_component | right; eapply says_component | left; eapply says_group | right; eapply says_group]; eassumption.
Qed.

(** One member. *)
Lemma says_one m own demanded n x :
  says m own demanded [n] x <->
  (is_member n = true /\ exists num, number n = Some num /\
     ((own = true /\ x = MessageField m num) \/ (isRequired n = true /\ demanded = true /\ x = Required m num))) \/
  (named "component" n = true /\ exists c, component n = Some c /\ says m own (isRequired n) (n_children c) x) \/
  (named "group" n = true /\ says_of_group m own n x).
Proof.
  split.
  - intros H. inversion H as [? ? n' ? Hn|? ? n' ? Hn|? ? ? n' ? ? Hn|? ? ? n' ? Hn]; subst; apply list_elem_of_singleton in Hn as ->; naive_solver.
  - assert (n ∈ [n]) as Hn by by apply list_elem_of_singleton.
    intros [(H1 & num & H2 & [(-> & ->)|(H3 & -> & ->)])|[(H1 & c & H2 & H3)|(H1 & H2)]];
      [eapply says_field | eapply says_required | eapply says_component | eapply says_group]; eauto.
Qed.

(** ** Loading members *)

(** The dictionary has the numbers of the fields. *)
Record numbered (d : DataDictionary) : Prop := {
  numbered_ok : tables_ok d;
  numbered_names name : str_lookup name (m_names d) = names name;
  numbered_fields name num : names name = Some num -> isField num d = true
}.

(** [this] is also the dictionary that members are added to. *)
Definition own (s : Loading) : bool := match DD s with None => true | Some _ => false end.

(** From [s] to [s'], [this] learns the facts [P], none of them a name. *)
Definition loads (P : fact -> Prop) (s s' : Loading) : Prop :=
  numbered (this s) -> own s' = own s /\ numbered (this s') /\ forall x, holds (this s') x <-> holds (this s) x \/ P x.

Lemma loads_refl s : loads (fun _ => False) s s.
Proof. intros Hs. split_and!; [done..|]. tauto. Qed.

Lemma loads_trans P Q s1 s2 s3 : loads P s1 s2 -> loads Q s2 s3 -> loads (fun x => P x \/ Q x) s1 s3.
Proof.
  intros H1 H2 Hs. destruct (H1 Hs) as (O1 & N1 & E1). destruct (H2 N1) as (O2 & N2 & E2).
  split_and!; [congruence | done|]. intros x. rewrite E2, E1. tauto.
Qed.

(** The facts may be named otherwise, also by what is known already. *)
Lemma loads_iff P Q s s' :
  loads P s s' -> (numbered (this s) -> forall x, holds (this s) x \/ P x <-> holds (this s) x \/ Q x) -> loads Q s s'.
Proof. intros H E Hs. destruct (H Hs) as (O & N & E'). split_and!; [done..|]. intros x. by rewrite E', (E Hs). Qed.

Lemma numbered_adds P d d' : adds P d d' -> (forall name num, ~ P (Named name num)) -> numbered d -> numbered d'.
Proof.
  intros H HP [Hd Hn Hf]. destruct (H Hd) as [Hd' E]. split; [done | |].
  - intros name. rewrite <- Hn. pose proof (fun num => E (Named name num)) as Ename. simpl in Ename. unfold getFieldTag in Ename.
    specialize (HP name). destruct (str_lookup name (m_names d')) as [num|] eqn:E1.
    + symmetry. specialize (Ename num). specialize (HP num). tauto.
    + destruct (str_lookup name (m_names d)) as [num|]; [|done]. specialize (Ename num). naive_solver.
  - intros name num Hnum. pose proof (E (HasField num)) as Ef. simpl in Ef. apply Ef. left. by eapply Hf.
Qed.

(** An operation on [this], or on [DD], that adds a fact. *)
Lemma loads_on_this f x s :
  (forall d, adds (eq x) d (f d)) -> (forall name num, x <> Named name num) -> loads (eq x) s (on_this f s).
Proof.
  intros Hf Hx Hs. destruct s as [d dd]; simpl in *. split; [done|]. split; [by eapply numbered_adds|]. by apply Hf, Hs.
Qed.

Lemma loads_on_DD f x s :
  (forall d, adds (eq x) d (f d)) -> (forall name num, x <> Named name num) -> loads (fun y => own s = true /\ y = x) s (on_DD f s).
Proof.
  intros Hf Hx Hs. destruct s as [d [g|]]; simpl in *.
  - split_and!; [done..|]. intros y. naive_solver.
  - destruct (Hf d (numbered_ok _ Hs)) as [H1 H2]. split_and!; [done | by eapply numbered_adds|]. intros y. rewrite H2. naive_solver.
Qed.

Lemma number_lookup n name d : numbered d -> attribute (lit "name") n = Some name -> number n = str_lookup name (m_names d).
Proof. intros Hd Hn. unfold number. rewrite Hn. simpl. by rewrite (numbered_names _ Hd). Qed.

(** Nothing is learnt when members are added to the dictionary of a group. *)
Lemma loads_on_group f s : own s = false -> loads (fun _ => False) s (on_DD f s).
Proof. destruct s as [d [g|]]; [|done]. intros _ Hs. split_and!; [done..|]. simpl. tauto. Qed.

Lemma add_component_member_loads m demanded n first s first' s' :
  numbered (this s) -> add_component_member m demanded n first s = Ok (first', s') ->
  first' = (if first =? 0 then own_number n else first) /\
  loads (fun x => is_member n = true /\ exists num, number n = Some num /\
     ((own s = true /\ x = MessageField m num) \/ (isRequired n = true /\ demanded = true /\ x = Required m num))) s s'.
Proof.
  intros Hs. unfold add_component_member, own_number. fold (is_member n). destruct (is_member n) eqn:En.
  - unfold getAttribute, lookupXMLFieldNumber. intros (name & H0%of_option_Ok & H)%result_bind_Ok. revert H.
    intros (num & H1%of_option_Ok & H)%result_bind_Ok.
    pose proof (number_lookup n _ _ Hs H0) as Hn. rewrite H1 in Hn. rewrite Hn. injection H as <- <-. split; [done|].
    set (s1 := if isRequired n && demanded then _ else s).
    assert (loads (fun x => isRequired n = true /\ demanded = true /\ x = Required m num) s s1) as L1.
    { unfold s1. destruct (isRequired n && demanded) eqn:Er.
      - apply andb_true_iff in Er as [-> ->]. eapply loads_iff; [apply (loads_on_this (addRequiredField m num) (Required m num)); auto with dictionary; done|].
        intros _ x. split; (intros [?|?]; [by left | right]); [by subst | by destruct_and!].
      - apply andb_false_iff in Er. eapply loads_iff; [apply loads_refl|]. intros _ x.
        split; (intros [?|?]; [by left|]); [done | destruct_and!; destruct Er; congruence]. }
    destruct (L1 Hs) as (O1 & _).
    eapply loads_iff.
    + eapply loads_trans; [exact L1|]. eapply loads_trans; [apply (loads_on_DD (dd_addField num) (HasField num)) | apply (loads_on_DD (addMsgField m num) (MessageField m num))]; auto with dictionary; done.
    + intros _ x. assert (own (on_DD (dd_addField num) s1) = own s) as -> by (rewrite <- O1; by destruct s1 as [? []]). rewrite O1.
      assert (holds (this s) (HasField num)) as Hf by (eapply (numbered_fields _ Hs); rewrite <- (numbered_names _ Hs); exact H1).
      split.
      * intros [?|[?|[(_ & ->)|(? & ->)]]]; [by left | right; split; [done|]; exists num; tauto | by left | right; split; [done|]; exists num; tauto].
      * intros [?|(_ & num' & [= <-] & [(? & ->)|?])]; [by left | right; right; right; done | by right; left].
  - intros [= <- <-]. split; [by case_bool|]. eapply loads_iff; [apply loads_refl|]. intros _ x.
    split; (intros [?|?]; [by left|]); [done | destruct_and!; congruence].
Qed.

Lemma add_group_member_loads m demanded n s field s' :
  numbered (this s) -> own s = false -> add_group_member m demanded n s = Ok (field, s') ->
  number n = Some field /\ own s' = false /\ this s' = this s.
Proof.
  intros Hs Ho. unfold add_group_member, lookup_node_number, getAttribute, lookupXMLFieldNumber.
  intros (num & (name & H0%of_option_Ok & H1%of_option_Ok)%result_bind_Ok & H)%result_bind_Ok.
  injection H as <- <-. split; [|destruct s as [? []]; [by destruct (_ && _)|done]].
  by erewrite number_lookup.
Qed.

(** What a member of a group says. *)
Definition group_member_says (m : str) (n : node) (x : fact) : Prop :=
  (named "component" n = true /\ exists c, component n = Some c /\ says m false false (n_children c) x) \/
  (named "group" n = true /\ says_of_group m false n x).

Lemma says_of_group_iff m own n x :
  says_of_group m own n x <->
  (own = true /\ exists num, number n = Some num /\ delimiter (n_children n) <> 0 /\ x = GroupOf m num) \/
  exists n', n' ∈ n_children n /\ group_member_says m n' x.
Proof.
  split.
  - intros H. inversion H; subst; [left; eauto | right | right]; (eexists; split; [done|]); [left | right]; eauto.
  - intros [(-> & num & H1 & H2 & ->)|(n' & H1 & [(H2 & c & H3 & H4)|(H2 & H3)])];
      [by apply group_itself | by eapply group_component | by eapply group_group].
Qed.

(** One member more of a component, of a group. *)
Lemma says_snoc m own demanded l n P x :
  (says m own demanded [n] x <-> P) -> says m own demanded (l ++ [n]) x <-> says m own demanded l x \/ P.
Proof. intros <-. apply says_app. Qed.

(** The steps of the two loops, given what their recursive calls learn. *)
Section Steps.
Context (fuel : nat).
Hypothesis IHc : forall n m demanded s r s',
  numbered (this s) -> addXMLComponentFields components fuel n m demanded s = Ok (r, s') ->
  exists c, component n = Some c /\ r = first_nonzero (map own_number (n_children c)) /\ loads (says m (own s) demanded (n_children c)) s s'.
Hypothesis IHg : forall n m demanded s s',
  numbered (this s) -> addXMLGroup components fuel n m demanded s = Ok s' -> loads (says_of_group m (own s) n) s s'.

Lemma component_step m demanded n first s first' s' :
  numbered (this s) ->
  ('(firstField, s) ← add_component_member m demanded n first s;
   s ← (if named "component" n then snd <$> addXMLComponentFields components fuel n m (isRequired n) s else mret s);
   s ← (if named "group" n then addXMLGroup components fuel n m (isRequired n) s else mret s);
   mret (firstField, s)) = Ok (first', s') ->
  first' = (if first =? 0 then own_number n else first) /\ loads (says m (own s) demanded [n]) s s'.
Proof.
  intros Hs. intros ([first1 s1] & H1 & H)%result_bind_Ok. revert H. intros (s2 & H2 & H)%result_bind_Ok. revert H.
  intros (s3 & H3 & [= <- <-])%result_bind_Ok.
  destruct (add_component_member_loads _ _ _ _ _ _ _ Hs H1) as [-> L1]. split; [done|]. destruct (L1 Hs) as (O1 & N1 & _).
  assert (loads (fun x => named "component" n = true /\ exists c, component n = Some c /\ says m (own s) (isRequired n) (n_children c) x) s1 s2) as L2.
  { destruct (named "component" n).
    - destruct (addXMLComponentFields _ _ _ _ _ _) as [[r s2']|] eqn:E; [|done]. injection H2 as <-.
      apply IHc in E as (c & Ec & _ & L); [|done]. rewrite O1 in L. eapply loads_iff; [exact L|]. intros _ x.
      split; (intros [?|Hx]; [by left | right]); [eauto | destruct Hx as (_ & c' & Ec' & Hx); congruence].
    - injection H2 as <-. eapply loads_iff; [apply loads_refl|]. intros _ x. naive_solver. }
  destruct (L2 N1) as (O2 & N2 & _).
  assert (loads (fun x => named "group" n = true /\ says_of_group m (own s) n x) s2 s3) as L3.
  { destruct (named "group" n).
    - apply IHg in H3; [|done]. rewrite O2, O1 in H3. eapply loads_iff; [exact H3|]. intros _ x. tauto.
    - injection H3 as <-. eapply loads_iff; [apply loads_refl|]. intros _ x. split; (intros [?|?]; [by left|]); [done | by destruct_and!]. }
  eapply loads_iff; [eapply loads_trans; [exact L1 | eapply loads_trans; [exact L2 | exact L3]]|].
  intros _ x. rewrite says_one. tauto.
Qed.

Lemma group_step m demanded n delim field s delim' field' s' :
  numbered (this s) -> own s = false ->
  ('(field, s) ←
     (if named "field" n then add_group_member m demanded n s
      else if named "component" n then addXMLComponentFields components fuel n m false s
      else if named "group" n then
        '(field, s) ← add_group_member m demanded n s;
        s ← addXMLGroup components fuel n m (isRequired n) s;
        mret (field, s)
      else mret (field, s));
   mret (if delim =? 0 then field else delim, field, s)) = Ok (delim', field', s') ->
  (field' = member_number n \/ (field' = field /\ member_number n = 0)) /\ delim' = (if delim =? 0 then field' else delim) /\
  loads (group_member_says m n) s s'.
Proof.
  intros Hs Ho. intros ([field1 s1] & H1 & [= <- <- <-])%result_bind_Ok. unfold member_number, is_member, group_member_says.
  destruct (named "field" n) eqn:E1.
  { rewrite (named_ne "field" "component" n ltac:(done) E1), (named_ne "field" "group" n ltac:(done) E1).
    destruct (add_group_member_loads _ _ _ _ _ _ Hs Ho H1) as (-> & O1 & T1). split_and!; [by left | done|].
    intros _. rewrite O1, Ho, T1. split_and!; [done..|]. naive_solver. }
  destruct (named "component" n) eqn:E2.
  { rewrite (named_ne "component" "group" n ltac:(done) E2). apply IHc in H1 as (c & Ec & -> & L); [|done]. rewrite Ec, Ho in *.
    split_and!; [by left | done|]. eapply loads_iff; [exact L|]. intros _ x. naive_solver. }
  destruct (named "group" n) eqn:E3.
  { apply result_bind_Ok in H1 as ([field2 s2] & H1 & (s3 & H2 & [= <- <-])%result_bind_Ok).
    destruct (add_group_member_loads _ _ _ _ _ _ Hs Ho H1) as (-> & O1 & T1). split_and!; [by left | done|].
    apply IHg in H2; [|by rewrite T1]. rewrite O1 in H2. intros _. destruct (H2 ltac:(by rewrite T1)) as (O2 & N2 & E). rewrite T1 in E.
    split_and!; [congruence | done|]. intros x. rewrite E. naive_solver. }
  injection H1 as <- <-. split_and!; [by right | done|]. eapply loads_iff; [apply loads_refl|]. intros _ x. naive_solver.
Qed.
End Steps.

(** Components and groups say what is declared, at any depth. *)
Lemma members_load fuel :
  (forall n m demanded s r s',
    numbered (this s) -> addXMLComponentFields components fuel n m demanded s = Ok (r, s') ->
    exists c, component n = Some c /\ r = first_nonzero (map own_number (n_children c)) /\ loads (says m (own s) demanded (n_children c)) s s') /\
  (forall n m demanded s s',
    numbered (this s) -> addXMLGroup components fuel n m demanded s = Ok s' -> loads (says_of_group m (own s) n) s s').
Proof.
  induction fuel as [|fuel [IHc IHg]]; [done|]. split.
  - intros n m demanded s r s' Hs. cbn [addXMLComponentFields]. unfold getAttribute.
    intros (name & Hname%of_option_Ok & H)%result_bind_Ok. revert H. intros (c & Hc%of_option_Ok & H)%result_bind_Ok.
    exists c. assert (component n = Some c) as Ec by (unfold component; rewrite Hname; exact Hc). split; [done|].
    change r with (r, s').1. change s' with (r, s').2 at 2.
    revert H. apply (each_ind _ (fun l st => st.1 = first_nonzero (map own_number l) /\ loads (says m (own s) demanded l) s st.2)).
    + intros l x [first s1] [first' s2] [H1 H2] H3. simpl in H1, H2 |- *. destruct (H2 Hs) as (O1 & N1 & _).
      apply (component_step fuel IHc IHg) in H3 as [-> L]; [|done]. split.
      * rewrite map_app. cbn [map]. rewrite first_nonzero_app. by rewrite H1.
      * rewrite O1 in L. eapply loads_iff; [eapply loads_trans; [exact H2 | exact L]|]. intros _ y. rewrite says_app. tauto.
    + split; [done|]. eapply loads_iff; [apply loads_refl|]. intros _ x. split; (intros [?|Hx]; [by left|]); [done | by apply says_nil in Hx].
  - intros n m demanded s s' Hs. cbn [addXMLGroup]. unfold getAttribute, lookupXMLFieldNumber.
    intros (name & Hname%of_option_Ok & H)%result_bind_Ok. revert H. intros (num & Hnum%of_option_Ok & H)%result_bind_Ok. revert H.
    intros ([[delim field] inner] & Hloop & H)%result_bind_Ok.
    pose proof (number_lookup n _ _ Hs Hname) as Hn. rewrite Hnum in Hn.
    set (s0 := mkLoading (this s) (Some new_DataDictionary)) in Hloop.
    eapply (each_ind _ (fun l st => (st.1.1 = delimiter l /\ (st.1.1 = 0 -> st.1.2 = 0)) /\ loads (fun x => exists n', n' ∈ l /\ group_member_says m n' x) s0 st.2))
      in Hloop as [[Hdelim _] L].
    + destruct (L Hs) as (O & N & E). simpl in Hdelim, O, N, E. destruct (DD inner) as [g|] eqn:Eg; [|done]. injection H as <-.
      assert (own (mkLoading (this inner) (DD s)) = own s) as O' by done.
      assert (loads (fun x => exists n', n' ∈ n_children n /\ group_member_says m n' x) s (mkLoading (this inner) (DD s))) as L1 by (intros _; by split_and!).
      assert (loads (fun x => own s = true /\ delimiter (n_children n) <> 0 /\ x = GroupOf m num) (mkLoading (this inner) (DD s))
        (if delim =? 0 then mkLoading (this inner) (DD s) else on_DD (adoptGroup m num delim g) (mkLoading (this inner) (DD s)))) as L2.
      { rewrite Hdelim. case_bool.
        - eapply loads_iff; [apply loads_refl|]. intros _ x. naive_solver.
        - eapply loads_iff; [apply (loads_on_DD _ (GroupOf m num)); auto with dictionary; done|]. intros _ x. rewrite O'. naive_solver. }
      eapply loads_iff; [eapply loads_trans; [exact L1 | exact L2]|]. intros _ x. rewrite says_of_group_iff, Hn.
      split; [intros [?|[?|?]]; [auto | auto | right; left; naive_solver] | intros [?|[(? & ? & [= <-] & ?)|?]]; auto].
    + intros l x [[delim1 field1] s1] [[delim2 field2] s2] [[H1 H2] H3] H4. cbn [fst snd] in *. destruct (H3 Hs) as (O1 & N1 & _).
      apply (group_step fuel IHc IHg) in H4 as (Hf & -> & L); [|done..]. split; [split|].
      * unfold delimiter. rewrite map_app. cbn [map]. rewrite first_nonzero_app. fold (delimiter l). rewrite <- H1.
        case_bool; [|done]. destruct Hf as [->|[-> ->]]; [done | auto].
      * case_bool; [done | lia].
      * eapply loads_iff; [eapply loads_trans; [exact H3 | exact L]|]. intros _ y. setoid_rewrite elem_of_app. setoid_rewrite list_elem_of_singleton. naive_solver.
    + split; [done|]. eapply loads_iff; [apply loads_refl|]. intros _ x. split; (intros [?|Hx]; [by left|]); [done | by destruct Hx as (? & ?%elem_of_nil & _)].
Qed.

(** ** Sections of the document *)

(** The dictionary on its own. *)
Definition learns (P : fact -> Prop) (d d' : DataDictionary) : Prop :=
  numbered d -> numbered d' /\ forall x, holds d' x <-> holds d x \/ P x.

Lemma learns_refl d : learns (fun _ => False) d d.
Proof. intros Hd. split; [done|]. tauto. Qed.

Lemma learns_trans P Q d1 d2 d3 : learns P d1 d2 -> learns Q d2 d3 -> learns (fun x => P x \/ Q x) d1 d3.
Proof. intros H1 H2 Hd. destruct (H1 Hd) as [N1 E1]. destruct (H2 N1) as [N2 E2]. split; [done|]. intros x. rewrite E2, E1. tauto. Qed.

Lemma learns_iff P Q d d' : learns P d d' -> (forall x, P x <-> Q x) -> learns Q d d'.
Proof. intros H E Hd. destruct (H Hd) as [N E']. split; [done|]. intros x. by rewrite E', E. Qed.

Lemma learns_loads P d s' : loads P (mkLoading d None) s' -> learns P d (this s').
Proof. intros H Hd. by destruct (H Hd) as (_ & ? & ?). Qed.

Lemma learns_adds P d d' : adds P d d' -> (forall name num, ~ P (Named name num)) -> learns P d d'.
Proof. intros H HP Hd. split; [by eapply numbered_adds|]. by apply H, Hd. Qed.

Lemma each_learns {A} (f : A -> DataDictionary -> result DataDictionary) (P : A -> fact -> Prop) :
  (forall x d d', numbered d -> f x d = Ok d' -> learns (P x) d d') ->
  forall l d d', each f l d = Ok d' -> learns (fun x => exists a, a ∈ l /\ P a x) d d'.
Proof.
  intros Hf l d d'. apply (each_ind f (fun l d' => learns (fun x => exists a, a ∈ l /\ P a x) d d')).
  - intros l0 a d1 d2 H1 H2 Hd. destruct (H1 Hd) as [N1 E1]. destruct (Hf _ _ _ N1 H2 N1) as [N2 E2]. split; [done|].
    intros x. rewrite E2, E1. setoid_rewrite elem_of_app. setoid_rewrite list_elem_of_singleton. naive_solver.
  - eapply learns_iff; [apply learns_refl|]. intros x. split; [done|]. by intros (a & Ha%elem_of_nil & _).
Qed.

Lemma group_learns fuel n m demanded d d' :
  numbered d -> this <$> addXMLGroup components fuel n m demanded (mkLoading d None) = Ok d' -> learns (says_of_group m true n) d d'.
Proof.
  intros Hd. destruct (addXMLGroup _ _ _ _ _ _) as [s'|] eqn:E; [|done]. intros [= <-].
  apply learns_loads. by apply (proj2 (members_load fuel)) in E.
Qed.

(** A field, group or component of a message. *)
Lemma message_field_learns fuel m n d d' :
  numbered d -> load_message_field components fuel m n d = Ok d' -> learns (says m true true [n]) d d'.
Proof.
  intros Hd. unfold load_message_field. intros (d1 & H1 & H2)%result_bind_Ok.
  assert (learns (fun x => named "group" n = true /\ says_of_group m true n x) d1 d') as L2.
  { intros N1. destruct (named "group" n).
    - apply group_learns in H2; [|done]. apply (learns_iff _ _ _ _ H2); [|done]. tauto.
    - injection H2 as <-. apply (learns_iff _ _ _ _ (learns_refl _)); [|done]. intros x. split; [done|]. by intros [? _]. }
  fold (is_member n) in H1. destruct (is_member n) eqn:En.
  - unfold getAttribute, lookupXMLFieldNumber in H1. apply result_bind_Ok in H1 as (name & H3%of_option_Ok & H1).
    apply result_bind_Ok in H1 as (num & H4%of_option_Ok & [= <-]).
    pose proof (number_lookup n _ _ Hd H3) as Hn. rewrite H4 in Hn.
    assert (named "component" n = false) as Ec.
    { unfold is_member in En. apply orb_true_iff in En as [En|En]; [apply (named_ne "field") | apply (named_ne "group")]; done. }
    assert (learns (fun x => x = MessageField m num \/ (isRequired n = true /\ x = Required m num)) d
              (if isRequired n then addRequiredField m num (addMsgField m num d) else addMsgField m num d)) as L1.
    { pose proof (learns_adds _ _ _ (adds_addMsgField m num d) ltac:(done)) as L. destruct (isRequired n).
      - eapply learns_iff; [eapply learns_trans; [exact L | apply learns_adds; [apply adds_addRequiredField | done]]|].
        intros x. split; [intros [<-|<-]; auto | intros [->|[_ ->]]; auto].
      - eapply learns_iff; [exact L|]. intros x. split; [intros <-; auto | intros [->|[? _]]; done]. }
    eapply learns_iff; [eapply learns_trans; [exact L1 | exact L2]|]. intros x. rewrite says_one, En, Ec, Hn. clear. split.
    + intros [[->|[? ->]]|?]; [left; split; [done|]; exists num; auto.. | auto].
    + intros [(_ & ? & [= <-] & [[_ ->]|(? & _ & ->)])|[[? _]|?]]; [auto.. | done | auto].
  - destruct (named "component" n) eqn:Ec.
    + destruct (addXMLComponentFields _ _ _ _ _ _) as [[r s1]|] eqn:E; [|done]. injection H1 as <-.
      apply (proj1 (members_load fuel)) in E as (c & Hc & _ & L); [|done]. apply learns_loads in L.
      eapply learns_iff; [eapply learns_trans; [exact L | exact L2]|]. intros x. rewrite says_one, En, Ec, Hc. clear.
      split.
      * intros [H|H]; [right; left; split; [done|]; by exists c | by right; right].
      * intros [[? _]|[(_ & ? & [= <-] & H)|H]]; [done | by left | by right].
    + injection H1 as <-. eapply learns_iff; [exact L2|]. intros x. rewrite says_one, En, Ec. clear.
      split; [auto | intros [[? _]|[[? _]|?]]; done].
Qed.

Lemma says_each m own demanded l x : says m own demanded l x <-> exists a, a ∈ l /\ says m own demanded [a] x.
Proof.
  induction l as [|a l IH]; [split; [intros ?%says_nil; done | intros (? & ?%elem_of_nil & _); done]|].
  change (a :: l) with ([a] ++ l). rewrite says_app, IH. setoid_rewrite elem_of_app. setoid_rewrite list_elem_of_singleton. naive_solver.
Qed.

(** A message. *)
Definition message_says (n : node) (x : fact) : Prop :=
  named "message" n = true /\ exists m, attribute (lit "msgtype") n = Some m /\
    (x = MessageType m \/ says m true true (n_children n) x).

Lemma message_learns fuel n d d' : load_message components fuel n d = Ok d' -> learns (message_says n) d d'.
Proof.
  unfold load_message, message_says. destruct (named "message" n); simpl negb; cbn iota.
  2: { intros [= <-]. eapply learns_iff; [apply learns_refl|]. naive_solver. }
  unfold getAttribute. intros (m & Hm%of_option_Ok & H)%result_bind_Ok.
  pose proof (learns_adds _ _ _ (adds_addMsgType m d) ltac:(done)) as L1.
  assert (forall d1, learns (fun _ => False) d1 (match attribute (lit "name") n with Some name => addValueName FIELD.MsgType m name d1 | None => d1 end)) as L2
    by (intros d1; destruct (attribute (lit "name") n); [apply learns_adds; [apply adds_addValueName | tauto] | apply learns_refl]).
  apply (each_learns _ (fun n => says m true true [n])) in H; [|intros ? ? ?; apply message_field_learns].
  eapply learns_iff; [eapply learns_trans; [exact L1 | eapply learns_trans; [apply L2 | exact H]]|].
  intros x. rewrite Hm, <- says_each. split; [intros [<-|[[]|?]]; eauto | intros (_ & ? & [= <-] & [->|?]); auto].
Qed.

(** The header and the trailer. *)
Definition block_says (F : Z -> fact) (block : str) (n : node) (x : fact) : Prop :=
  (is_member n = true /\ exists num, number n = Some num /\ x = F num) \/ (named "group" n = true /\ says_of_group block true n x).

Lemma block_learns fuel add F path block missing empty doc d d' :
  (forall f b d, adds (eq (F f)) d (add f b d)) -> (forall f name num, F f <> Named name num) ->
  load_block components fuel add path block missing empty doc d = Ok d' ->
  learns (fun x => exists p n, getNode path doc = Some p /\ n ∈ n_children p /\ block_says F (lit block) n x) d d'.
Proof.
  intros Hadd HF. unfold load_block. intros (p & Hp%of_option_Ok & H)%result_bind_Ok.
  assert (each (load_block_field components fuel add (lit block)) (n_children p) d = Ok d') as E by (by destruct (n_children p)).
  eapply learns_iff; [eapply (each_learns _ (block_says F (lit block))); [|exact E]|].
  2: { intros x. rewrite Hp. naive_solver. }
  clear H E Hp. intros n d1 d2 Hd. unfold load_block_field. fold (is_member n). intros (d3 & H1 & H2)%result_bind_Ok.
  refine (learns_trans (fun x => is_member n = true /\ exists num, number n = Some num /\ x = F num)
            (fun x => named "group" n = true /\ says_of_group (lit block) true n x) d1 d3 d2 _ _).
  - destruct (is_member n).
    + unfold getAttribute, lookupXMLFieldNumber in H1. apply result_bind_Ok in H1 as (name & H3%of_option_Ok & H1).
      apply result_bind_Ok in H1 as (num & H4%of_option_Ok & [= <-]). pose proof (number_lookup n _ _ Hd H3) as Hn. rewrite H4 in Hn.
      eapply learns_iff; [apply learns_adds; [apply (Hadd num) | apply HF]|]. intros x. rewrite Hn.
      split; [intros <-; eauto | intros (_ & ? & [= <-] & ->); done].
    + injection H1 as <-. eapply learns_iff; [apply learns_refl|]. intros x. split; [done | by intros [? _]].
  - intros N1. destruct (named "group" n).
    + apply group_learns in H2; [|done]. apply (learns_iff _ _ _ _ H2); [|done]. tauto.
    + injection H2 as <-. apply (learns_iff _ _ _ _ (learns_refl _)); [|done]. intros x. split; [done | by intros [? _]].
Qed.
End Contents.

(** ** The whole document *)

(** The number a field is declared with. *)
Definition node_number (name : str) (n : node) : option Z :=
  if named "field" n && bool_decide (attribute (lit "name") n = Some name) then atoi <$> attribute (lit "number") n else None.

Definition field_number (fields : list node) (name : str) : option Z := head (omap (node_number name) fields).

Lemma node_number_Some name n num : node_number name n = Some num <-> field_node name num n.
Proof.
  unfold node_number, field_node. destruct (named "field" n); simpl; [|split; [done | by intros [? _]]].
  case_bool_decide as E; [|split; [done | by intros (_ & ? & _)]].
  rewrite fmap_Some. split; [intros (? & -> & ->); eauto 10 | intros (_ & _ & ? & ? & <-); eauto].
Qed.

Lemma field_number_Some fields name num : field_number fields name = Some num -> exists n, n ∈ fields /\ field_node name num n.
Proof.
  unfold field_number. intros H. assert (num ∈ omap (node_number name) fields) as (n & Hn & E)%list_elem_of_omap
    by (destruct (omap _ _); [done | injection H as ->; left]).
  exists n. by rewrite <- node_number_Some.
Qed.

Lemma field_number_is_Some fields name n num : n ∈ fields -> field_node name num n -> is_Some (field_number fields name).
Proof.
  intros Hn E%node_number_Some. unfold field_number. assert (num ∈ omap (node_number name) fields) as H by (apply list_elem_of_omap; eauto).
  destruct (omap _ _); [by apply elem_of_nil in H | eauto].
Qed.

(** FIX before version 5, and the transports of FIXT, have their own header. *)
Definition own_blocks (doc : list node) : Prop :=
  exists fix_ major, getNode ["fix"%string] doc = Some fix_ /\ attribute (lit "major") fix_ = Some major /\
    let type := default (lit "FIX") (attribute (lit "type") fix_) in
    type = lit "FIXT" \/ (type = lit "FIX" /\ str_ltb major (lit "5") = true).

(** What a document declares. *)
Inductive declares (doc : list node) : fact -> Prop :=
| declares_name name num n :
    n ∈ children_at ["fix"; "fields"]%string doc -> field_node name num n -> declares doc (Named name num)
| declares_field name num n :
    n ∈ children_at ["fix"; "fields"]%string doc -> field_node name num n -> declares doc (HasField num)
| declares_message n x :
    n ∈ children_at ["fix"; "messages"]%string doc ->
    message_says (field_number (children_at ["fix"; "fields"]%string doc)) (components_of doc) n x -> declares doc x
| declares_header n x :
    own_blocks doc -> n ∈ children_at ["fix"; "header"]%string doc ->
    block_says (field_number (children_at ["fix"; "fields"]%string doc)) (components_of doc) HeaderField (lit "_header_") n x -> declares doc x
| declares_trailer n x :
    own_blocks doc -> n ∈ children_at ["fix"; "trailer"]%string doc ->
    block_says (field_number (children_at ["fix"; "fields"]%string doc)) (components_of doc) TrailerField (lit "_trailer_") n x -> declares doc x.

(** Before anything is read no fact holds. *)
Lemma holds_nothing flag v x : ~ holds (setVersion v (set_storeMsgFieldsOrder flag new_DataDictionary)) x.
Proof. by destruct x. Qed.

Lemma load_fields_adds doc d d' :
  load_fields doc d = Ok d' -> adds (fun x => exists n, n ∈ children_at ["fix"; "fields"]%string doc /\ field_facts n x) d d'.
Proof.
  unfold load_fields, children_at. intros (p & Hp%of_option_Ok & H)%result_bind_Ok. rewrite Hp.
  assert (each load_field (n_children p) d = Ok d') as E by (by destruct (n_children p)).
  eapply (each_adds _ field_facts); [intros ? ? ?; apply load_field_adds | exact E].
Qed.

Lemma load_fields_numbered doc d d' :
  tables_ok d -> (forall x, ~ holds d x) -> load_fields doc d = Ok d' -> numbered (field_number (children_at ["fix"; "fields"]%string doc)) d'.
Proof.
  intros Hd Hnew H%load_fields_adds. destruct (H Hd) as [Hd' E]. set (fields := children_at _ doc) in *.
  assert (forall name num, str_lookup name (m_names d') = Some num <-> exists n, n ∈ fields /\ field_node name num n) as En.
  { intros name num. specialize (E (Named name num)). specialize (Hnew (Named name num)). simpl in *. unfold getFieldTag in *. tauto. }
  split; [done | |].
  - intros name. destruct (field_number fields name) as [num|] eqn:Ef.
    + apply En. by apply field_number_Some.
    + destruct (str_lookup name (m_names d')) as [num|] eqn:El; [|done]. apply En in El as (n & Hn & Hf).
      destruct (field_number_is_Some _ _ _ _ Hn Hf). congruence.
  - intros name num (n & Hn & Hf)%field_number_Some. apply (E (HasField num)). right. exists n. split; [done|]. by exists name.
Qed.

Lemma load_version_Ok fix_ d type major d' :
  load_version fix_ d = Ok (type, major, d') ->
  type = default (lit "FIX") (attribute (lit "type") fix_) /\ attribute (lit "major") fix_ = Some major /\ exists v, d' = setVersion v d.
Proof.
  unfold load_version, getAttribute. intros ([] & _ & (major' & Hmajor%of_option_Ok & (minor & _ & H)%result_bind_Ok)%result_bind_Ok)%result_bind_Ok.
  unfold mret, result_ret in H. set (t := default _ _) in *. set (v := t ++ _) in H. clearbody t v. injection H as <- <- <-. eauto.
Qed.

Lemma own_blocks_iff doc fix_ type major :
  getNode ["fix"%string] doc = Some fix_ -> type = default (lit "FIX") (attribute (lit "type") fix_) -> attribute (lit "major") fix_ = Some major ->
  bool_decide (type = lit "FIXT") || (bool_decide (type = lit "FIX") && str_ltb major (lit "5")) = true <-> own_blocks doc.
Proof.
  intros Hfix Htype Hmajor. rewrite orb_true_iff, andb_true_iff, !bool_decide_eq_true. unfold own_blocks. rewrite Hfix. split.
  - intros Hb. exists fix_, major. by rewrite <- Htype.
  - intros (? & ? & [= <-] & E & Hb). rewrite Hmajor in E. injection E as <-. by rewrite <- Htype in Hb.
Qed.

Lemma guarded_block_learns names components fuel add F path block missing empty doc b B d d' :
  (forall f b d, adds (eq (F f)) d (add f b d)) -> (forall f name num, F f <> Named name num) -> (b = true <-> B) ->
  (if b then load_block components fuel add path block missing empty doc d else mret d) = Ok d' ->
  learns names (fun x => B /\ exists n, n ∈ children_at path doc /\ block_says names components F (lit block) n x) d d'.
Proof.
  intros Hadd HF Hb H. destruct b.
  - apply (block_learns names components _ _ F) in H; [|done..]. eapply learns_iff; [exact H|]. intros x. unfold children_at. split.
    + intros (p & n & -> & ?). split; [by apply Hb | eauto].
    + intros [_ (n & Hn & ?)]. destruct (getNode path doc) as [p|]; [eauto | by apply elem_of_nil in Hn].
  - injection H as <-. eapply learns_iff; [apply learns_refl|]. intros x. split; [done|]. by intros [HB%Hb _].
Qed.

Lemma messages_learns names components fuel doc d d' :
  load_messages components fuel doc d = Ok d' ->
  learns names (fun x => exists n, n ∈ children_at ["fix"; "messages"]%string doc /\ message_says names components n x) d d'.
Proof.
  unfold load_messages, children_at. intros (p & Hp%of_option_Ok & H)%result_bind_Ok. rewrite Hp.
  assert (each (load_message components fuel) (n_children p) d = Ok d') as E by (by destruct (n_children p)).
  eapply (each_learns names _ (message_says names components)); [intros ? ? ? _; apply message_learns | exact E].
Qed.

(** The declarations, section by section. *)
Lemma declares_iff doc names components x :
  names = field_number (children_at ["fix"; "fields"]%string doc) -> components = components_of doc ->
  declares doc x <->
  (exists n, n ∈ children_at ["fix"; "fields"]%string doc /\ field_facts n x) \/
  (own_blocks doc /\ exists n, n ∈ children_at ["fix"; "header"]%string doc /\ block_says names components HeaderField (lit "_header_") n x) \/
  (own_blocks doc /\ exists n, n ∈ children_at ["fix"; "trailer"]%string doc /\ block_says names components TrailerField (lit "_trailer_") n x) \/
  (exists n, n ∈ children_at ["fix"; "messages"]%string doc /\ message_says names components n x).
Proof.
  intros -> ->. split.
  - intros H. inversion H; subst; [left; eauto | left; eexists; split; [done|]; by eexists | right; right; right; eauto | right; left; eauto | right; right; left; eauto].
  - intros [(n & Hn & Hx)|[(Hb & n & Hn & Hx)|[(Hb & n & Hn & Hx)|(n & Hn & Hx)]]].
    + destruct x; simpl in Hx; try done; [by eapply declares_name | destruct Hx; by eapply declares_field].
    + by eapply declares_header.
    + by eapply declares_trailer.
    + by eapply declares_message.
Qed.

(** A loaded dictionary answers every look-up as the document declares. *)
Lemma load_facts fuel doc flag d :
  readFromDocument fuel doc (set_storeMsgFieldsOrder flag new_DataDictionary) = Ok d -> forall x, holds d x <-> declares doc x.
Proof.
  unfold readFromDocument. intros (fix_ & Hfix%of_option_Ok & H)%result_bind_Ok. revert H.
  intros ([[type major] d0] & (Htype & Hmajor & v & ->)%load_version_Ok & H)%result_bind_Ok. revert H.
  intros (d1 & H1 & H)%result_bind_Ok. revert H. intros (d2 & H2 & H)%result_bind_Ok. revert H. intros (d3 & H3 & H4)%result_bind_Ok x.
  pose proof (own_blocks_iff _ _ _ _ Hfix Htype Hmajor) as Hb.
  destruct (adds_setVersion v _ (tables_ok_new flag)) as [Ht _].
  pose proof (load_fields_numbered _ _ _ Ht (holds_nothing flag v) H1) as N1. set (names := field_number _) in N1.
  destruct (load_fields_adds _ _ _ H1 Ht) as [_ E1].
  apply (guarded_block_learns names _ _ _ HeaderField _ _ _ _ _ _ _ _ _ adds_addHeaderField ltac:(done) Hb) in H2. destruct (H2 N1) as [N2 E2].
  apply (guarded_block_learns names _ _ _ TrailerField _ _ _ _ _ _ _ _ _ adds_addTrailerField ltac:(done) Hb) in H3. destruct (H3 N2) as [N3 E3].
  apply (messages_learns names) in H4. destruct (H4 N3) as [_ E4].
  rewrite (declares_iff doc names (indexComponents fix_)); [|done | unfold components_of; by rewrite Hfix].
  rewrite E4, E3, E2, E1. pose proof (holds_nothing flag v x). tauto.
Qed.
