(* ===== verification/DictTables.v ===== *)
(** * What a loaded dictionary says of fields and their values

    The tables where a later entry takes the place of an earlier one: the name and
    the type of a field, the names of its values, and whether the fields of the
    header and the trailer are required. With [DictLoad], the whole of what a file
    gives a dictionary. *)
From S2P Require Import Prelude Convertors Values Scan OrdMap DictData DictXml DictLoad.

(** ** Loading members leaves the tables alone *)

(** A relation that every change holds which loading a component or a group makes. *)
Section Steady.
Context (R : relation DataDictionary) `{!PreOrder R}.
Context (HR : forall m f d, R d (addRequiredField m f d)) (HM : forall m f d, R d (addMsgField m f d)).
Context (HF : forall f d, R d (dd_addField f d)) (HG : forall m f delim g d, R d (adoptGroup m f delim g d)).
Context (components : list (str * node)).

Lemma each_relates {A} (f : A -> DataDictionary -> result DataDictionary) l d d' :
  (forall x d d', f x d = Ok d' -> R d d') -> each f l d = Ok d' -> R d d'.
Proof.
  intros Hf. apply (each_ind f (fun _ d' => R d d')); [|done]. intros ? x d1 d2 H1 H2%Hf. by etrans.
Qed.

Lemma on_this_relates f s : (forall d, R d (f d)) -> R (this s) (this (on_this f s)).
Proof. intros Hf. by destruct s. Qed.

Lemma on_DD_relates f s : (forall d, R d (f d)) -> R (this s) (this (on_DD f s)).
Proof. intros Hf. by destruct s as [d [g|]]. Qed.

Lemma component_member_relates m b n first s r s' : add_component_member m b n first s = Ok (r, s') -> R (this s) (this s').
Proof using Type*.
  unfold add_component_member. destruct (_ || _); [|by intros [= _ <-]].
  intros (? & _ & (field & _ & [= _ <-])%result_bind_Ok)%result_bind_Ok. set (s1 := if isRequired n && b then _ else s).
  trans (this s1); [unfold s1; destruct (_ && _); [by apply on_this_relates | done]|].
  trans (this (on_DD (dd_addField field) s1)); by apply on_DD_relates.
Qed.

Lemma group_member_relates m b n s r s' : add_group_member m b n s = Ok (r, s') -> R (this s) (this s').
Proof using Type*.
  unfold add_group_member. intros (field & _ & [= _ <-])%result_bind_Ok. set (s1 := on_DD _ s).
  trans (this s1); [by apply on_DD_relates|]. destruct (_ && _); [by apply on_DD_relates | done].
Qed.

Lemma members_relate fuel :
  (forall n m b s r s', addXMLComponentFields components fuel n m b s = Ok (r, s') -> R (this s) (this s')) /\
  (forall n m b s s', addXMLGroup components fuel n m b s = Ok s' -> R (this s) (this s')).
Proof using Type*.
  induction fuel as [|fuel [IHc IHg]]; [done|]. split.
  - intros n m b s r s'. cbn [addXMLComponentFields]. intros (? & _ & (c & _ & H)%result_bind_Ok)%result_bind_Ok.
    change s' with (r, s').2. revert H. apply (each_ind _ (fun _ st => R (this s) (this st.2))); [|done].
    intros _ n1 [first s1] [r1 s2] H1 H. trans (this s1); [exact H1|]. clear H1.
    apply result_bind_Ok in H as ([r2 s3] & H1%component_member_relates & (s4 & H2 & (s5 & H3 & [= <- <-])%result_bind_Ok)%result_bind_Ok).
    trans (this s3); [done|]. trans (this s4).
    + destruct (named "component" n1); [|by injection H2 as <-]. destruct (addXMLComponentFields _ _ _ _ _ _) as [[]|] eqn:E; [|done]. injection H2 as <-. by eapply IHc.
    + destruct (named "group" n1); [by eapply IHg | by injection H3 as <-].
  - intros n m b s s'. cbn [addXMLGroup]. intros (? & _ & (group & _ & ([[delim field] inner] & Hl & H)%result_bind_Ok)%result_bind_Ok)%result_bind_Ok.
    trans (this inner).
    + change inner with (delim, field, inner).2. revert Hl. apply (each_ind _ (fun _ st => R (this s) (this st.2))); [|done].
      intros _ n1 [[delim1 field1] s1] [[delim2 field2] s2] H1 ([field3 s3] & H2 & [= _ _ <-])%result_bind_Ok. trans (this s1); [exact H1|].
      destruct (named "field" n1); [by eapply group_member_relates|]. destruct (named "component" n1); [by eapply IHc|].
      destruct (named "group" n1); [|by injection H2 as _ <-].
      apply result_bind_Ok in H2 as ([field4 s4] & H2%group_member_relates & (s5 & H3 & [= _ <-])%result_bind_Ok). trans (this s4); [done | by eapply IHg].
    + destruct (DD inner); [|done]. injection H as <-. destruct (delim =? 0); [done|]. by apply (on_DD_relates _ (mkLoading (this inner) (DD s))).
Qed.

Lemma group_relates fuel n m b d d' : this <$> addXMLGroup components fuel n m b (mkLoading d None) = Ok d' -> R d d'.
Proof using Type*. destruct (addXMLGroup _ _ _ _ _ _) as [s|] eqn:E; [|done]. intros [= <-]. by apply (proj2 (members_relate fuel)) in E. Qed.

(** A field, group or component of a message. *)
Lemma message_field_relates fuel m n d d' : load_message_field components fuel m n d = Ok d' -> R d d'.
Proof using Type*.
  unfold load_message_field. intros (d1 & H1 & H2)%result_bind_Ok. trans d1; [|destruct (named "group" n); [by eapply group_relates | by injection H2 as <-]].
  destruct (_ || _).
  - apply result_bind_Ok in H1 as (? & _ & (num & _ & [= <-])%result_bind_Ok). trans (addMsgField m num d); [done|]. by destruct (isRequired n).
  - destruct (named "component" n); [|by injection H1 as <-]. destruct (addXMLComponentFields _ _ _ _ _ _) as [[r s]|] eqn:E; [|done]. injection H1 as <-.
    by apply (proj1 (members_relate fuel)) in E.
Qed.
End Steady.

(** ** Tables whose last entry counts *)

Inductive query :=
| TypeOf (num : Z)
| NameOf (num : Z)
| IsData (num : Z)
| HasValue (num : Z) (value : str)
| ValueName (num : Z) (value : str)
| NameValue (num : Z) (name : str)
| HeaderFlag (num : Z)
| TrailerFlag (num : Z).

Definition answer (q : query) : Type :=
  match q with
  | TypeOf _ => FieldType
  | NameOf _ | ValueName _ _ | NameValue _ _ => str
  | IsData _ | HasValue _ _ => unit
  | HeaderFlag _ | TrailerFlag _ => bool
  end.

(** What a dictionary answers. *)
Definition look (q : query) (d : DataDictionary) : option (answer q) :=
  match q return option (answer q) with
  | TypeOf num => getFieldType num d
  | NameOf num => getFieldName num d
  | IsData num => map_lookup num (m_dataFields d)
  | HasValue num value => values ← map_lookup num (m_fieldValues d); str_lookup value values
  | ValueName num value => getValueName num value d
  | NameValue num name => getNameValue num name d
  | HeaderFlag num => map_lookup num (m_headerFields d)
  | TrailerFlag num => map_lookup num (m_trailerFields d)
  end.

Definition entries : Type := forall q, list (answer q).

(** The last entry, or else what there was. *)
Definition now {X} (l : list X) (old : option X) : option X := match last l with Some x => Some x | None => old end.

Lemma now_app {X} (l1 l2 : list X) old : now (l1 ++ l2) old = now l2 (now l1 old).
Proof. unfold now. rewrite last_app. by destruct (last l2). Qed.

Record sorted (d : DataDictionary) : Prop := {
  sorted_types : ordered (m_fieldTypes d);
  sorted_names : ordered (m_fieldNames d);
  sorted_data : ordered (m_dataFields d);
  sorted_values : ordered (m_fieldValues d);
  sorted_valueNames : ordered (m_valueNames d);
  sorted_nameValues : ordered (m_nameValues d);
  sorted_header : ordered (m_headerFields d);
  sorted_trailer : ordered (m_trailerFields d)
}.

(** From [d] to [d'] the entries were made. *)
Definition writes (g : entries) (d d' : DataDictionary) : Prop :=
  sorted d -> sorted d' /\ m_beginString d' = m_beginString d /\ forall q, look q d' = now (g q) (look q d).

Definition none : entries := fun _ => [].

#[export] Instance writes_none_preorder : PreOrder (writes none).
Proof.
  split; [by intros d H|]. intros d1 d2 d3 H1 H2 H. destruct (H1 H) as (H' & V1 & E1). destruct (H2 H') as (H'' & V2 & E2).
  split_and!; [done | congruence|]. intros q. by rewrite E2, E1.
Qed.

Lemma writes_trans g1 g2 d1 d2 d3 : writes g1 d1 d2 -> writes g2 d2 d3 -> writes (fun q => g1 q ++ g2 q) d1 d3.
Proof.
  intros H1 H2 H. destruct (H1 H) as (H' & V1 & E1). destruct (H2 H') as (H'' & V2 & E2).
  split_and!; [done | congruence|]. intros q. by rewrite now_app, E2, E1.
Qed.

Lemma writes_ext g1 g2 d d' : writes g1 d d' -> (forall q, g1 q = g2 q) -> writes g2 d d'.
Proof. intros H E Hd. destruct (H Hd) as (? & ? & Eq). split_and!; [done..|]. intros q. by rewrite <- E. Qed.

(** Nothing but the entries of the fields and of the values. *)
Ltac writes_nothing := intros []; split_and!; [by split | done | by intros []].

Lemma writes_addRequiredField m f d : writes none d (addRequiredField m f d).
Proof. destruct d. writes_nothing. Qed.
Lemma writes_addMsgField m f d : writes none d (addMsgField m f d).
Proof. unfold addMsgField. destruct d as [? ? ? ? ? []]; writes_nothing. Qed.
Lemma writes_addField f d : writes none d (dd_addField f d).
Proof. destruct d. writes_nothing. Qed.
Lemma writes_adoptGroup m f delim g d : writes none d (adoptGroup m f delim g d).
Proof. destruct d. writes_nothing. Qed.
Lemma writes_addMsgType m d : writes none d (addMsgType m d).
Proof. destruct d. writes_nothing. Qed.

(** An entry for a field, in a table by fields. *)
Definition at_num {X} (num num' : Z) (x : X) : list X := if decide (num = num') then [x] else [].

Lemma lookup_at_num {X} (m : list (Z * X)) num num' x :
  ordered m -> map_lookup num (map_set num' x m) = now (at_num num num' x) (map_lookup num m).
Proof.
  intros Hm. unfold now, at_num. case_decide; [subst; by rewrite map_lookup_set | by rewrite map_lookup_set_ne].
Qed.

(** In a table by fields and texts. *)
Lemma lookup_at_text {X} (m : list (Z * list (str * X))) num num' (s s' : str) x :
  ordered m ->
  (l ← map_lookup num (map_set num' (str_set s' x (default [] (map_lookup num' m))) m); str_lookup s l) =
  now (if decide (num = num' /\ s = s') then [x] else []) (l ← map_lookup num m; str_lookup s l).
Proof.
  intros Hm. unfold now. destruct (decide (num = num')) as [->|Hne].
  - rewrite map_lookup_set by done. cbn [mbind option_bind]. destruct (decide (s = s')) as [->|Hs].
    + rewrite str_lookup_set. by rewrite decide_True.
    + rewrite str_lookup_set_ne, decide_False by naive_solver. simpl. by destruct (map_lookup num' m).
  - rewrite map_lookup_set_ne, decide_False by naive_solver. done.
Qed.

Definition type_entry (num : Z) (type : FieldType) : entries := fun q =>
  match q return list (answer q) with
  | TypeOf num' => at_num num' num type
  | IsData num' => if decide (type = Data) then at_num num' num () else []
  | _ => []
  end.

Lemma writes_addFieldType num type d : writes (type_entry num type) d (addFieldType num type d).
Proof.
  intros []. unfold addFieldType. split_and!.
  - destruct (bool_decide _), d; split; try done; by apply ordered_set.
  - by destruct (bool_decide _), d.
  - intros []; try (by destruct (bool_decide _), d).
    + cbn [look type_entry]. unfold getFieldType. rewrite <- lookup_at_num by done. by destruct (bool_decide _), d.
    + cbn [look type_entry]. destruct (decide (type = Data)) as [->|]; [|rewrite bool_decide_eq_false_2 by done; by destruct d].
      rewrite <- lookup_at_num by done. by destruct d.
Qed.

Definition name_entry (num : Z) (name : str) : entries := fun q =>
  match q return list (answer q) with NameOf num' => at_num num' num name | _ => [] end.

Lemma writes_addFieldName num name d d' : addFieldName num name d = Ok d' -> writes (name_entry num name) d d'.
Proof.
  unfold addFieldName. destruct (str_lookup name (m_names d)); [done|]. intros [= <-] []. split_and!.
  - destruct d; split; try done; by apply ordered_set.
  - by destruct d.
  - intros []; try (by destruct d). cbn [look name_entry]. unfold getFieldName. rewrite <- lookup_at_num by done. by destruct d.
Qed.

Definition value_entry (num : Z) (value : str) : entries := fun q =>
  match q return list (answer q) with HasValue num' value' => if decide (num' = num /\ value' = value) then [()] else [] | _ => [] end.

Lemma writes_addFieldValue num value d : writes (value_entry num value) d (addFieldValue num value d).
Proof.
  intros []. split_and!.
  - destruct d; split; try done; by apply ordered_set.
  - by destruct d.
  - intros []; try (by destruct d). cbn [look value_entry]. rewrite <- lookup_at_text by done. by destruct d.
Qed.

Definition value_name_entry (num : Z) (value name : str) : entries := fun q =>
  match q return list (answer q) with
  | ValueName num' value' => if decide (num' = num /\ value' = value) then [name] else []
  | NameValue num' name' => if decide (num' = num /\ name' = name) then [value] else []
  | _ => []
  end.

Lemma writes_addValueName num value name d : writes (value_name_entry num value name) d (addValueName num value name d).
Proof.
  intros []. split_and!.
  - destruct d; split; try done; by apply ordered_set.
  - by destruct d.
  - intros []; try (by destruct d); cbn [look value_name_entry]; unfold getValueName, getNameValue; rewrite <- lookup_at_text by done; by destruct d.
Qed.

Definition header_entry (num : Z) (required : bool) : entries := fun q =>
  match q return list (answer q) with HeaderFlag num' => at_num num' num required | _ => [] end.
Definition trailer_entry (num : Z) (required : bool) : entries := fun q =>
  match q return list (answer q) with TrailerFlag num' => at_num num' num required | _ => [] end.

Lemma writes_addHeaderField num required d : writes (header_entry num required) d (addHeaderField num required d).
Proof.
  intros []. unfold addHeaderField. split_and!.
  - destruct d as [? ? ? ? ? []]; split; try done; by apply ordered_set.
  - by destruct d as [? ? ? ? ? []].
  - intros []; try (by destruct d as [? ? ? ? ? []]). cbn [look header_entry]. rewrite <- lookup_at_num by done. by destruct d as [? ? ? ? ? []].
Qed.

Lemma writes_addTrailerField num required d : writes (trailer_entry num required) d (addTrailerField num required d).
Proof.
  intros []. unfold addTrailerField. split_and!.
  - destruct d as [? ? ? ? ? []]; split; try done; by apply ordered_set.
  - by destruct d as [? ? ? ? ? []].
  - intros []; try (by destruct d as [? ? ? ? ? []]). cbn [look trailer_entry]. rewrite <- lookup_at_num by done. by destruct d as [? ? ? ? ? []].
Qed.

#[export] Hint Resolve writes_addRequiredField writes_addMsgField writes_addField writes_adoptGroup writes_addMsgType : dictionary.

(** A loop whose steps each make entries, while [P] holds. *)
Lemma each_writes {A} (P : DataDictionary -> Prop) (f : A -> DataDictionary -> result DataDictionary) (g : A -> entries) l d d' :
  (forall x d d', P d -> f x d = Ok d' -> P d' /\ writes (g x) d d') -> P d -> each f l d = Ok d' ->
  P d' /\ writes (fun q => flat_map (fun x => g x q) l) d d'.
Proof.
  intros Hf HP. apply (each_ind f (fun l d' => P d' /\ writes (fun q => flat_map (fun x => g x q) l) d d')).
  - intros l0 x d1 d2 [P1 H1] [P2 H2]%Hf; [|done]. split; [done|]. eapply writes_ext; [eapply writes_trans; [exact H1 | exact H2]|].
    intros q. by rewrite flat_map_app, (app_nil_r (g x q) : flat_map _ [x] = _).
  - split; [done|]. apply (reflexivity (R := writes none)).
Qed.

(** ** What the nodes enter *)

Definition text_of_attribute (name : string) (n : node) : list str := option_list (attribute (lit name) n).

(** The number of a [<field>]. *)
Definition declared_number (n : node) : Z := default 0 (atoi <$> attribute (lit "number") n).

(** A [<value>] of a field: the value and its name, where it has one. *)
Definition value_entries (num : Z) (n : node) : entries := fun q =>
  if named "value" n then
    match attribute (lit "enum") n with
    | Some value => value_entry num value q ++
        match attribute (lit "description") n with Some name => value_name_entry num value name q | None => [] end
    | None => []
    end
  else [].

(** A [<field>]; [version] is that of the dictionary, which changes what a type is
    called. *)
Definition field_entries (version : str) (n : node) : entries := fun q =>
  if named "field" n then
    match attribute (lit "name") n, attribute (lit "type") n with
    | Some name, Some type =>
        type_entry (declared_number n) (XMLTypeToType version type) q ++ name_entry (declared_number n) name q ++
        flat_map (fun v => value_entries (declared_number n) v q) (n_children n)
    | _, _ => []
    end
  else [].

(** A [<message>] names its type as a value of MsgType. *)
Definition message_entries (n : node) : entries := fun q =>
  if named "message" n then
    match attribute (lit "msgtype") n, attribute (lit "name") n with
    | Some m, Some name => value_name_entry FIELD.MsgType m name q
    | _, _ => []
    end
  else [].

(** A field or a group of the header or the trailer. *)
Definition block_entries (names : str -> option Z) (entry : Z -> bool -> entries) (n : node) : entries := fun q =>
  if is_member n then match number names n with Some num => entry num (isRequired n) q | None => [] end else [].

Lemma load_value_writes num name n d d' : load_value num name n d = Ok d' -> writes (value_entries num n) d d'.
Proof.
  unfold load_value, value_entries. destruct (named "value" n); cbn [negb]; [|intros [= <-]; apply (reflexivity (R := writes none))].
  unfold getAttribute. intros (value & ->%of_option_Ok & H)%result_bind_Ok.
  destruct (attribute (lit "description") n) as [description|]; injection H as <-.
  - apply (writes_trans (value_entry num value) (value_name_entry num value description) _ _ _ (writes_addFieldValue _ _ _)), writes_addValueName.
  - apply (writes_trans (value_entry num value) none _ _ _ (writes_addFieldValue _ _ _)). apply (reflexivity (R := writes none)).
Qed.

Lemma load_field_writes version n d d' :
  sorted d /\ m_beginString d = version -> load_field n d = Ok d' ->
  (sorted d' /\ m_beginString d' = version) /\ writes (field_entries version n) d d'.
Proof.
  intros [Hs Hv] H. cut (writes (field_entries version n) d d'); [intros Hw; destruct (Hw Hs) as (? & ? & _); split; [split; congruence|done]|].
  revert H. unfold load_field, field_entries. destruct (named "field" n); cbn [negb]; [|intros [= <-]; apply (reflexivity (R := writes none))].
  unfold getAttribute. intros (name & Hname%of_option_Ok & H)%result_bind_Ok. revert H. intros (number & Hnum%of_option_Ok & H)%result_bind_Ok. revert H.
  intros (type & Htype%of_option_Ok & H)%result_bind_Ok. revert H. intros (d1 & H1%writes_addFieldName & H2)%result_bind_Ok.
  unfold declared_number. rewrite Hname, Htype, Hnum. cbn [fmap option_fmap option_map default].
  apply (writes_ext (fun q => none q ++ type_entry (atoi number) (XMLTypeToType version type) q ++ name_entry (atoi number) name q ++
    flat_map (fun v => value_entries (atoi number) v q) (n_children n))); [|done].
  eapply writes_trans; [apply writes_addField|].
  eapply writes_trans; [assert (XMLTypeToType version type = XMLTypeToType (m_beginString (dd_addField (atoi number) d)) type) as -> by (rewrite <- Hv; by destruct d); apply writes_addFieldType|].
  eapply writes_trans; [exact H1|].
  by apply (each_writes (fun _ => True) _ (fun v => value_entries (atoi number) v)) in H2 as [_ ?]; [|intros ? ? ? _ ?%load_value_writes|].
Qed.

Lemma load_fields_writes version doc d d' :
  sorted d -> m_beginString d = version -> load_fields doc d = Ok d' ->
  writes (fun q => flat_map (fun n => field_entries version n q) (children_at ["fix"; "fields"]%string doc)) d d'.
Proof.
  intros Hs Hv. unfold load_fields, children_at. intros (p & Hp%of_option_Ok & H)%result_bind_Ok. rewrite Hp.
  assert (each load_field (n_children p) d = Ok d') as E by (by destruct (n_children p)).
  eapply (each_writes (fun d => sorted d /\ m_beginString d = version) _ (field_entries version)) in E as [_ ?]; [done | apply load_field_writes | done].
Qed.

(** The fields section has no groups. *)
Definition same_groups (d d' : DataDictionary) : Prop := m_groupDicts d = m_groupDicts d'.

#[export] Instance same_groups_preorder : PreOrder same_groups.
Proof. split; [done|]. intros d1 d2 d3. apply eq_trans. Qed.

Lemma load_fields_groups doc d d' : load_fields doc d = Ok d' -> m_groupDicts d' = m_groupDicts d.
Proof.
  unfold load_fields. intros (p & _ & H)%result_bind_Ok.
  assert (each load_field (n_children p) d = Ok d') as E by (by destruct (n_children p)). symmetry. change (same_groups d d'). revert E.
  apply (each_relates same_groups). clear. intros n d d'. unfold load_field. destruct (negb _); [by intros [= <-]|].
  intros (name & _ & H)%result_bind_Ok. revert H. intros (number & _ & H)%result_bind_Ok. revert H. intros (type & _ & H)%result_bind_Ok. revert H.
  intros (d1 & H1 & H2)%result_bind_Ok. trans d1.
  - unfold addFieldName in H1. destruct (str_lookup name _); [done|]. injection H1 as <-. unfold addFieldType. by destruct d, (bool_decide _).
  - revert H2. apply (each_relates same_groups). clear. intros n d d'. unfold load_value. destruct (negb _); [by intros [= <-]|].
    intros (value & _ & H)%result_bind_Ok. destruct (attribute (lit "description") n); injection H as <-; by destruct d.
Qed.

Section Blocks.
Context (names : str -> option Z) (components : list (str * node)).

(** The numbers of the fields are in the dictionary. *)
Definition knows (d : DataDictionary) : Prop := forall name, str_lookup name (m_names d) = names name.

(** What loading members keeps. *)
Definition keeps (d d' : DataDictionary) : Prop := writes none d d' /\ m_names d' = m_names d.

#[export] Instance keeps_preorder : PreOrder keeps.
Proof. split; [by split|]. intros d1 d2 d3 [] []. split; [by etrans | congruence]. Qed.

Lemma keeps_knows d d' : keeps d d' -> knows d -> knows d'.
Proof. intros [_ E] Hd name. by rewrite E. Qed.

Lemma keeps_addRequiredField m f d : keeps d (addRequiredField m f d).
Proof. split; [auto with dictionary | by destruct d]. Qed.
Lemma keeps_addMsgField m f d : keeps d (addMsgField m f d).
Proof. split; [auto with dictionary | unfold addMsgField; by destruct d as [? ? ? ? ? []]]. Qed.
Lemma keeps_addField f d : keeps d (dd_addField f d).
Proof. split; [auto with dictionary | by destruct d]. Qed.
Lemma keeps_adoptGroup m f delim g d : keeps d (adoptGroup m f delim g d).
Proof. split; [auto with dictionary | by destruct d]. Qed.

Lemma load_block_field_writes fuel add entry block n d d' :
  (forall f b d, writes (entry f b) d (add f b d) /\ m_names (add f b d) = m_names d) ->
  knows d -> load_block_field components fuel add block n d = Ok d' -> knows d' /\ writes (block_entries names entry n) d d'.
Proof.
  intros Hadd Hd. unfold load_block_field. intros (d1 & H1 & H2)%result_bind_Ok.
  assert (keeps d1 d') as H3.
  { destruct (named "group" n); [|by injection H2 as <-].
    apply (group_relates keeps keeps_addRequiredField keeps_addMsgField keeps_addField keeps_adoptGroup) in H2. done. }
  cut (m_names d1 = m_names d /\ writes (block_entries names entry n) d d1).
  { intros [E Hw]. split; [eapply keeps_knows; [exact H3|]; intros name; by rewrite E|].
    eapply writes_ext; [eapply writes_trans; [exact Hw | apply H3]|]. intros q. apply app_nil_r. }
  unfold block_entries. fold (is_member n) in H1. destruct (is_member n); [|injection H1 as <-; split; [done | apply (reflexivity (R := writes none))]].
  apply result_bind_Ok in H1 as (name & Hname%of_option_Ok & (num & Hnum%of_option_Ok & [= <-])%result_bind_Ok).
  unfold number. rewrite Hname. cbn [mbind option_bind]. rewrite <- Hd, Hnum. split; apply Hadd.
Qed.

Lemma load_block_writes fuel add entry path block missing empty doc d d' :
  (forall f b d, writes (entry f b) d (add f b d) /\ m_names (add f b d) = m_names d) ->
  knows d -> load_block components fuel add path block missing empty doc d = Ok d' ->
  knows d' /\ writes (fun q => flat_map (fun n => block_entries names entry n q) (children_at path doc)) d d'.
Proof.
  intros Hadd Hd. unfold load_block, children_at. intros (p & Hp%of_option_Ok & H)%result_bind_Ok. rewrite Hp.
  assert (each (load_block_field components fuel add (lit block)) (n_children p) d = Ok d') as E by (by destruct (n_children p)).
  eapply (each_writes knows _ (block_entries names entry)) in E; [done | intros ? ? ?; by apply load_block_field_writes | done].
Qed.

Lemma load_message_writes fuel n d d' : load_message components fuel n d = Ok d' -> writes (message_entries n) d d'.
Proof.
  unfold load_message, message_entries. destruct (named "message" n); cbn [negb]; [|intros [= <-]; apply (reflexivity (R := writes none))].
  unfold getAttribute. intros (m & ->%of_option_Ok & H)%result_bind_Ok.
  apply (each_relates keeps) in H as [H _].
  2: { intros ? ? ?. apply (message_field_relates keeps keeps_addRequiredField keeps_addMsgField keeps_addField keeps_adoptGroup). }
  destruct (attribute (lit "name") n) as [name|]; (eapply writes_ext; [eapply (writes_trans _ none); [|exact H]|intros q; apply app_nil_r]).
  - apply (writes_trans none (value_name_entry FIELD.MsgType m name) d (addMsgType m d)); [apply writes_addMsgType | apply writes_addValueName].
  - apply writes_addMsgType.
Qed.

Lemma load_messages_writes fuel doc d d' :
  load_messages components fuel doc d = Ok d' ->
  writes (fun q => flat_map (fun n => message_entries n q) (children_at ["fix"; "messages"]%string doc)) d d'.
Proof.
  unfold load_messages, children_at. intros (p & Hp%of_option_Ok & H)%result_bind_Ok. rewrite Hp.
  assert (each (load_message components fuel) (n_children p) d = Ok d') as E by (by destruct (n_children p)).
  eapply (each_writes (fun _ => True) _ message_entries) in E as [_ ?]; [done | intros ? ? ? _ ?%load_message_writes; done | done].
Qed.
End Blocks.
