(* ===== verification/DictContents.v ===== *)
(** * What a loaded dictionary holds, with the dictionaries of its groups

    Each group of a loaded dictionary is one the document declares, and has a
    dictionary of its own: its fields in order, those required of an entry, and
    the groups inside it, at any depth. With [DictLoad] and [DictTables], what
    the look-ups of a dictionary read from a file answer. *)
From S2P Require Import Prelude Convertors Values Scan OrdMap DictData DictXml DictLoad DictTables.

Section Groups.
Context (names : str -> option Z) (components : list (str * node)).
Abbreviation number := (number names).
Abbreviation component := (component components).
Abbreviation delimiter := (delimiter names components).
Abbreviation numbered := (numbered names).

(** ** What is said of a group *)

(** The nodes of a list and of the components they refer to. *)
Inductive occurs : list node -> node -> Prop :=
| occurs_here l n : n ∈ l -> occurs l n
| occurs_component l n c n' : n ∈ l -> named "component" n = true -> component n = Some c -> occurs (n_children c) n' -> occurs l n'.

(** The numbers of the fields and groups of a list, in order, those of a
    component in its place. *)
Inductive sequence : list node -> list Z -> Prop :=
| sequence_nil : sequence [] []
| sequence_member n l num zs : is_member n = true -> number n = Some num -> sequence l zs -> sequence (n :: l) (num :: zs)
| sequence_component n l c ys zs :
    named "component" n = true -> component n = Some c -> sequence (n_children c) ys -> sequence l zs -> sequence (n :: l) (ys ++ zs)
| sequence_other n l zs : is_member n = false -> named "component" n = false -> sequence l zs -> sequence (n :: l) zs.

(** A group that can be told apart from the fields after it. *)
Definition opens (m : str) (n : node) (num : Z) (x : fact) : Prop :=
  named "group" n = true /\ delimiter (n_children n) <> 0 /\ x = GroupOf m num.

(** What the members [l] of a component enter in the dictionary of a group. *)
Definition component_enters (m : str) (l : list node) (x : fact) : Prop :=
  exists n num, occurs l n /\ is_member n = true /\ number n = Some num /\ (x = HasField num \/ x = MessageField m num \/ opens m n num x).

(** What its own members [l] enter: those it requires are required of an entry
    when the group is. *)
Definition group_enters (m : str) (demanded : bool) (l : list node) (x : fact) : Prop :=
  exists n, n ∈ l /\
    ((is_member n = true /\ exists num, number n = Some num /\
        (x = HasField num \/ (isRequired n = true /\ demanded = true /\ x = Required m num) \/ opens m n num x)) \/
     (named "component" n = true /\ exists c, component n = Some c /\ component_enters m (n_children c) x)).

(** [g] is the dictionary of the group [n] in message [m], and [delim] its
    delimiter; [member_group]: the group [num] is one of the members [l]. *)
Inductive is_group (m : str) : node -> Z -> DataDictionary -> Prop :=
| is_group_intro n g :
    delimiter (n_children n) <> 0 ->
    (forall x, holds g x <-> group_enters m (isRequired n) (n_children n) x) ->
    sequence (n_children n) (m_orderedFields g) ->
    (forall m' num delim' g', getGroup m' num g = Some (delim', g') -> m' = m /\ member_group m (n_children n) num delim' g') ->
    is_group m n (delimiter (n_children n)) g
with member_group (m : str) : list node -> Z -> Z -> DataDictionary -> Prop :=
| member_group_intro l n num delim g :
    occurs l n -> named "group" n = true -> number n = Some num -> is_group m n delim g -> member_group m l num delim g.

(** The groups of a dictionary are among the groups [P]. *)
Definition groups_from (P : str -> node -> Prop) (d : DataDictionary) : Prop :=
  forall m num delim g, getGroup m num d = Some (delim, g) -> exists n, P m n /\ number n = Some num /\ is_group m n delim g.

Lemma occurs_nil n : ~ occurs [] n.
Proof. intros H. inversion H as [? ? C|? ? ? ? C]; by apply elem_of_nil in C. Qed.

Lemma occurs_app l1 l2 n : occurs (l1 ++ l2) n <-> occurs l1 n \/ occurs l2 n.
Proof.
  split.
  - intros H. inversion H as [? ? C|? ? ? ? C]; subst; apply elem_of_app in C as [C|C];
      [left; by apply occurs_here | right; by apply occurs_here | left; by eapply occurs_component | right; by eapply occurs_component].
  - intros [H|H]; (inversion H; subst; [apply occurs_here | eapply occurs_component]); eauto; set_solver.
Qed.

Lemma occurs_one n n' :
  occurs [n] n' <-> n' = n \/ (named "component" n = true /\ exists c, component n = Some c /\ occurs (n_children c) n').
Proof.
  split.
  - intros H. inversion H as [? ? C|? ? ? ? C]; subst; apply list_elem_of_singleton in C as ->; eauto.
  - assert (n ∈ [n]) by by apply list_elem_of_singleton. intros [->|(? & c & ? & ?)]; [by apply occurs_here | by eapply occurs_component].
Qed.

Lemma sequence_app l1 l2 zs1 zs2 : sequence l1 zs1 -> sequence l2 zs2 -> sequence (l1 ++ l2) (zs1 ++ zs2).
Proof.
  intros H1 H2. induction H1; simpl; [done | by apply sequence_member | rewrite <- app_assoc; by eapply sequence_component | by apply sequence_other].
Qed.

Lemma sequence_one n num : is_member n = true -> number n = Some num -> sequence [n] [num].
Proof. intros. apply sequence_member; [done..|]. apply sequence_nil. Qed.

Lemma groups_from_mono P Q d : (forall m n, P m n -> Q m n) -> groups_from P d -> groups_from Q d.
Proof. intros H Hd m num delim g Hg. destruct (Hd _ _ _ _ Hg) as (n & ? & ?). eauto. Qed.

(** The version of a group's dictionary is that of the one it is in. *)
Lemma holds_setVersion v d x : holds (setVersion v d) x <-> holds d x.
Proof. destruct d, x; done. Qed.

Lemma is_group_setVersion m n delim g v : is_group m n delim g -> is_group m n delim (setVersion v g).
Proof.
  intros [n' g' H1 H2 H3 H4]. constructor; [done | intros x; by rewrite holds_setVersion | by destruct g' |].
  intros m' num delim' e Hg. apply H4. by destruct g'.
Qed.

Lemma groups_from_adopt P m num delim g d n :
  ordered (m_groupDicts d) -> number n = Some num -> is_group m n delim g -> groups_from P d ->
  groups_from (fun m' n' => P m' n' \/ (m' = m /\ n' = n)) (adoptGroup m num delim g d).
Proof.
  intros Ho Hn Hg Hd m' num' delim' g'. unfold getGroup.
  assert (m_groupDicts (adoptGroup m num delim g d) = map_set num (str_set m (delim, setVersion (m_beginString d) g) (default [] (map_lookup num (m_groupDicts d)))) (m_groupDicts d))
    as -> by by destruct d.
  destruct (decide (num' = num)) as [->|Hne].
  - rewrite map_lookup_set by done. cbn [mbind option_bind]. destruct (decide (m' = m)) as [->|Hm].
    + rewrite str_lookup_set. intros [= <- <-]. exists n. split_and!; [by right | done | by apply is_group_setVersion].
    + rewrite str_lookup_set_ne by done. intros H. destruct (Hd m' num delim' g') as (n' & ? & ? & ?); [|by exists n'; auto].
      unfold getGroup. by destruct (map_lookup num (m_groupDicts d)).
  - rewrite map_lookup_set_ne by done. intros H. destruct (Hd m' num' delim' g') as (n' & ? & ? & ?); [done|]. by exists n'; auto.
Qed.

(** ** Loading *)

(** The dictionary that members are added to. *)
Definition target (s : Loading) : DataDictionary := match DD s with Some g => g | None => this s end.

(** From [s] to [s'] the dictionary the members are added to gets the groups [G]
    and, when it is that of a group, the facts [E] and the fields of [l]. *)
Definition gains (m : str) (E : fact -> Prop) (G : node -> Prop) (l : list node) (s s' : Loading) : Prop :=
  numbered (this s) -> tables_ok (target s) ->
  (own s' = own s /\ numbered (this s') /\ tables_ok (target s')) /\
  (forall P, groups_from P (target s) -> groups_from (fun m' n => P m' n \/ (m' = m /\ G n)) (target s')) /\
  (own s = false -> m_groupDicts (this s') = m_groupDicts (this s) /\ (forall x, holds (target s') x <-> holds (target s) x \/ E x) /\
     exists zs, sequence l zs /\ m_orderedFields (target s') = m_orderedFields (target s) ++ zs).

Definition nothing {X} (_ : X) : Prop := False.

Lemma gains_refl m s : gains m nothing nothing [] s s.
Proof.
  intros H1 H2. split_and!; [done..| |].
  - intros P. apply groups_from_mono. auto.
  - intros _. split_and!; [done | by unfold nothing; intuition | exists []; split; [constructor | by rewrite app_nil_r]].
Qed.

Lemma gains_trans m E1 E2 G1 G2 l1 l2 s1 s2 s3 :
  gains m E1 G1 l1 s1 s2 -> gains m E2 G2 l2 s2 s3 -> gains m (fun x => E1 x \/ E2 x) (fun n => G1 n \/ G2 n) (l1 ++ l2) s1 s3.
Proof.
  intros H1 H2 Hn Ht. destruct (H1 Hn Ht) as ((O1 & N1 & T1) & P1 & D1). destruct (H2 N1 T1) as ((O2 & N2 & T2) & P2 & D2).
  split_and!; [congruence | done | done | |].
  - intros P HP. eapply groups_from_mono; [|apply P2, P1, HP]. simpl. tauto.
  - intros Ho. destruct (D1 Ho) as (G1' & F1 & zs1 & S1 & L1). destruct (D2 ltac:(congruence)) as (G2' & F2 & zs2 & S2 & L2).
    split_and!; [congruence | intros x; rewrite F2, F1; tauto|]. exists (zs1 ++ zs2). split; [by apply sequence_app|]. by rewrite L2, L1, app_assoc.
Qed.

Lemma gains_iff m E E' G G' l s s' :
  gains m E G l s s' -> (forall x, E x <-> E' x) -> (forall n, G n -> G' n) -> gains m E' G' l s s'.
Proof.
  intros H HE HG Hn Ht. destruct (H Hn Ht) as (A & P1 & D). split_and!; [apply A.. | |].
  - intros P HP. eapply groups_from_mono; [|apply P1, HP]. simpl. intros ? ? [?|[? ?]]; auto.
  - intros Ho. destruct (D Ho) as (? & F & ?). split_and!; [done | intros x; by rewrite F, HE | done].
Qed.

(** A change of the dictionary members are added to. *)
Lemma gains_on_DD m f x G l zs s :
  (forall d, adds (eq x) d (f d)) -> (forall name num, x <> Named name num) ->
  (forall P d, tables_ok d -> groups_from P d -> groups_from (fun m' n => P m' n \/ (m' = m /\ G n)) (f d)) ->
  sequence l zs -> (forall d, m_orderedFields (f d) = m_orderedFields d ++ zs) ->
  gains m (eq x) G l s (on_DD f s).
Proof.
  intros Hf Hx HG Hl Ho Hn Ht. destruct s as [d [g|]]; unfold target in *; cbn [this DD on_DD own] in *.
  - destruct (Hf g Ht) as [Ht' E]. split_and!; [done..| |]; [intros P HP; by apply HG|]. intros _. split_and!; [done | done|]. by exists zs.
  - destruct (Hf d Ht) as [Ht' E]. split_and!; [done | by eapply numbered_adds | done | |done]. intros P HP. by apply HG.
Qed.

(** The groups stay where a change leaves them. *)
Lemma groups_from_same m P d d' : m_groupDicts d' = m_groupDicts d -> groups_from P d -> groups_from (fun m' n => P m' n \/ (m' = m /\ nothing n)) d'.
Proof. intros E H m' num delim g. unfold getGroup. rewrite E. intros (n & ? & ? & ?)%H. by exists n; auto. Qed.

Lemma gains_field m num n s :
  is_member n = true -> number n = Some num -> gains m (eq (HasField num)) nothing [n] s (on_DD (dd_addField num) s).
Proof.
  intros H1 H2. apply (gains_on_DD _ _ _ _ _ [num]); [auto with dictionary | done | | by apply sequence_one | by intros []].
  intros P d _. apply groups_from_same. by destruct d.
Qed.

Lemma gains_message_field m num s : gains m (eq (MessageField m num)) nothing [] s (on_DD (addMsgField m num) s).
Proof.
  apply (gains_on_DD _ _ _ _ _ []); [auto with dictionary | done | | constructor |].
  - intros P d _. apply groups_from_same. unfold addMsgField. by destruct d as [? ? ? ? ? []].
  - intros d. rewrite app_nil_r. unfold addMsgField. by destruct d as [? ? ? ? ? []].
Qed.

Lemma gains_required m num s : gains m (eq (Required m num)) nothing [] s (on_DD (addRequiredField m num) s).
Proof.
  apply (gains_on_DD _ _ _ _ _ []); [auto with dictionary | done | | constructor | intros d; rewrite app_nil_r; by destruct d].
  intros P d _. apply groups_from_same. by destruct d.
Qed.

Lemma gains_group m num n delim g s :
  number n = Some num -> is_group m n delim g -> gains m (eq (GroupOf m num)) (eq n) [] s (on_DD (adoptGroup m num delim g) s).
Proof.
  intros H1 H2. apply (gains_on_DD _ _ _ _ _ []); [auto with dictionary | done | | constructor | intros d; rewrite app_nil_r; by destruct d].
  intros P d Hd HP. eapply groups_from_mono; [|by apply groups_from_adopt; [apply Hd|..]]. simpl. intros ? ? [?|[? ->]]; auto.
Qed.

(** What is required by a component is required of the message, also inside a
    group. *)
Lemma gains_on_this m num s : gains m nothing nothing [] s (on_this (addRequiredField m num) s).
Proof.
  intros Hn Ht. pose proof (numbered_adds _ _ _ _ (adds_addRequiredField m num (this s)) ltac:(done) Hn) as Hn'.
  assert (m_groupDicts (addRequiredField m num (this s)) = m_groupDicts (this s)) as Eg by by destruct (this s).
  destruct s as [d [g|]]; unfold target in *; cbn [this DD on_this own] in *; split_and!; try done.
  - intros P. apply groups_from_mono. auto.
  - intros _. split_and!; [done | unfold nothing; intuition | exists []; split; [constructor | by rewrite app_nil_r]].
  - apply Hn'.
  - intros P. by apply groups_from_same.
Qed.

(** *** Members *)

Definition is_group_node (n n' : node) : Prop := named "group" n' = true /\ n' = n.

Lemma is_group_of_member n : named "group" n = true -> is_member n = true.
Proof. unfold is_member. intros ->. apply orb_true_r. Qed.

(** A field or a group of a component, without the dictionary of the group. *)
Lemma add_component_member_gains m demanded n first s first' s' :
  numbered (this s) -> add_component_member m demanded n first s = Ok (first', s') -> is_member n = true ->
  exists num, number n = Some num /\ gains m (fun x => x = HasField num \/ x = MessageField m num) nothing [n] s s'.
Proof.
  intros Hs. unfold add_component_member. fold (is_member n). intros H Hm. rewrite Hm in H. unfold getAttribute, lookupXMLFieldNumber in H.
  apply result_bind_Ok in H as (name & H0%of_option_Ok & (num & H1%of_option_Ok & [= _ <-])%result_bind_Ok).
  pose proof (number_lookup names n _ _ Hs H0) as Hn. rewrite H1 in Hn. exists num. split; [done|].
  eapply gains_iff; [eapply (gains_trans m nothing _ nothing _ [] [n]); [|eapply (gains_trans m _ _ _ _ [n] []); [by apply gains_field | apply gains_message_field]]| |].
  - destruct (_ && _); [apply gains_on_this | apply gains_refl].
  - intros x. split; [intros [[]|[<-|<-]]; auto | intros [->| ->]; auto].
  - unfold nothing. tauto.
Qed.

(** A field or a group of a group. *)
Lemma add_group_member_gains m demanded n s field s' :
  numbered (this s) -> add_group_member m demanded n s = Ok (field, s') -> is_member n = true ->
  number n = Some field /\
  gains m (fun x => x = HasField field \/ (isRequired n = true /\ demanded = true /\ x = Required m field)) nothing [n] s s'.
Proof.
  intros Hs H Hm. unfold add_group_member, lookup_node_number, getAttribute, lookupXMLFieldNumber in H.
  apply result_bind_Ok in H as (num & (name & H0%of_option_Ok & H1%of_option_Ok)%result_bind_Ok & [= <- <-]).
  pose proof (number_lookup names n _ _ Hs H0) as Hn. rewrite H1 in Hn. split; [done|].
  eapply gains_iff; [eapply (gains_trans m _ (fun x => isRequired n = true /\ demanded = true /\ x = Required m num) _ nothing [n] []); [by apply gains_field|]| |].
  - destruct (isRequired n && demanded) eqn:E.
    + apply andb_true_iff in E as [-> ->]. eapply gains_iff; [apply gains_required | | done]. intros x. split; [intros <-; auto | by intros (_ & _ & ->)].
    + apply andb_false_iff in E. eapply gains_iff; [apply gains_refl | | done]. intros x. split; [intros [] | intros (? & ? & _); destruct E; congruence].
  - intros x. split; [intros [<-|?]; auto | intros [->|?]; auto].
  - unfold nothing. tauto.
Qed.

(** The groups among members. *)
Definition groups_in (l : list node) (n : node) : Prop := occurs l n /\ named "group" n = true.

Lemma groups_in_one n n' :
  groups_in [n] n' <-> (named "group" n = true /\ n' = n) \/ (named "component" n = true /\ exists c, component n = Some c /\ groups_in (n_children c) n').
Proof. unfold groups_in. rewrite occurs_one. naive_solver. Qed.

Lemma groups_in_app l1 l2 n : groups_in (l1 ++ l2) n <-> groups_in l1 n \/ groups_in l2 n.
Proof. unfold groups_in. rewrite occurs_app. tauto. Qed.

Lemma component_enters_one m n x :
  component_enters m [n] x <->
  (is_member n = true /\ exists num, number n = Some num /\ (x = HasField num \/ x = MessageField m num \/ opens m n num x)) \/
  (named "component" n = true /\ exists c, component n = Some c /\ component_enters m (n_children c) x).
Proof.
  unfold component_enters. split.
  - intros (n' & num & [->|(? & c & ? & ?)]%occurs_one & Hx); [left | right; split; [done|]; exists c; split; [done|]; by exists n', num].
    destruct Hx as (? & ? & ?). eauto.
  - intros [(H1 & num & H2 & H3)|(H1 & c & H2 & n' & num & H3 & H4)].
    + exists n, num. split; [apply occurs_one; by left | done].
    + exists n', num. split; [apply occurs_one; right; eauto | done].
Qed.

Lemma component_enters_app m l1 l2 x : component_enters m (l1 ++ l2) x <-> component_enters m l1 x \/ component_enters m l2 x.
Proof. unfold component_enters. setoid_rewrite occurs_app. naive_solver. Qed.

Lemma group_enters_one m demanded n x :
  group_enters m demanded [n] x <->
  (is_member n = true /\ exists num, number n = Some num /\
     (x = HasField num \/ (isRequired n = true /\ demanded = true /\ x = Required m num) \/ opens m n num x)) \/
  (named "component" n = true /\ exists c, component n = Some c /\ component_enters m (n_children c) x).
Proof. unfold group_enters. setoid_rewrite list_elem_of_singleton. naive_solver. Qed.

Lemma group_enters_app m demanded l1 l2 x : group_enters m demanded (l1 ++ l2) x <-> group_enters m demanded l1 x \/ group_enters m demanded l2 x.
Proof. unfold group_enters. setoid_rewrite elem_of_app. naive_solver. Qed.

(** The same fields in another list. *)
Lemma gains_seq m E G l l' s s' : gains m E G l s s' -> (forall zs, sequence l zs -> sequence l' zs) -> gains m E G l' s s'.
Proof.
  intros H Hl Hn Ht. destruct (H Hn Ht) as (A & B & D). split_and!; [apply A.. | exact B |].
  intros Ho. destruct (D Ho) as (? & ? & zs & ? & ?). split_and!; [done..|]. exists zs. auto.
Qed.

Section Steps.
Context (fuel : nat).
Hypothesis IHc : forall n m demanded s r s',
  numbered (this s) -> addXMLComponentFields components fuel n m demanded s = Ok (r, s') ->
  exists c, component n = Some c /\ gains m (component_enters m (n_children c)) (groups_in (n_children c)) (n_children c) s s'.
Hypothesis IHg : forall n m s s',
  numbered (this s) -> addXMLGroup components fuel n m (isRequired n) s = Ok s' -> named "group" n = true ->
  exists num, number n = Some num /\ gains m (opens m n num) (eq n) [] s s'.

Lemma numbered_after m E G l s s' : gains m E G l s s' -> numbered (this s) -> tables_ok (target s) -> numbered (this s') /\ own s' = own s.
Proof. intros H Hn Ht. destruct (H Hn Ht) as ((? & ? & _) & _). done. Qed.

(** A step that needs what was gained before it. *)
Lemma gains_then m E1 E2 G1 G2 l1 l2 s1 s2 s3 :
  gains m E1 G1 l1 s1 s2 -> (numbered (this s2) -> gains m E2 G2 l2 s2 s3) ->
  gains m (fun x => E1 x \/ E2 x) (fun n => G1 n \/ G2 n) (l1 ++ l2) s1 s3.
Proof.
  intros H1 H2 Hn Ht. destruct (H1 Hn Ht) as ((_ & N & _) & _). exact (gains_trans _ _ _ _ _ _ _ _ _ _ H1 (H2 N) Hn Ht).
Qed.

Lemma component_step_gains m demanded n first s first' s' :
  numbered (this s) ->
  ('(firstField, s) ← add_component_member m demanded n first s;
   s ← (if named "component" n then snd <$> addXMLComponentFields components fuel n m (isRequired n) s else mret s);
   s ← (if named "group" n then addXMLGroup components fuel n m (isRequired n) s else mret s);
   mret (firstField, s)) = Ok (first', s') ->
  gains m (component_enters m [n]) (groups_in [n]) [n] s s'.
Proof.
  intros Hs. intros ([first1 s1] & H1 & H)%result_bind_Ok. revert H. intros (s2 & H2 & H)%result_bind_Ok. revert H.
  intros (s3 & H3 & [= _ <-])%result_bind_Ok. destruct (is_member n) eqn:Hm.
  - destruct (add_component_member_gains _ _ _ _ _ _ _ Hs H1 Hm) as (num & Hn & L1).
    assert (named "component" n = false) as Ec.
    { unfold is_member in Hm. apply orb_true_iff in Hm as [Hm|Hm]; [apply (named_ne "field") | apply (named_ne "group")]; done. }
    rewrite Ec in H2. injection H2 as <-. destruct (named "group" n) eqn:Eg.
    + eapply gains_iff; [eapply (gains_then m _ (opens m n num) _ (eq n) [n] []); [exact L1|]| |].
      * intros N1. destruct (IHg _ _ _ _ N1 H3 Eg) as (num' & Hn' & L). rewrite Hn in Hn'. by injection Hn' as <-.
      * intros x. rewrite component_enters_one, Hm, Ec, Hn. naive_solver.
      * intros n'. rewrite groups_in_one. intros [[]|<-]. auto.
    + injection H3 as <-. eapply gains_iff; [exact L1 | | by intros ? []].
      intros x. rewrite component_enters_one, Hm, Ec, Hn. unfold opens. rewrite Eg. naive_solver.
  - assert (s1 = s) as -> by (unfold add_component_member in H1; fold (is_member n) in H1; rewrite Hm in H1; by injection H1 as _ <-).
    assert (named "group" n = false) as Eg by (unfold is_member in Hm; by apply orb_false_iff in Hm as [_ ?]). rewrite Eg in H3. injection H3 as <-.
    destruct (named "component" n) eqn:Ec.
    + destruct (addXMLComponentFields _ _ _ _ _ _) as [[r s4]|] eqn:E; [|done]. injection H2 as <-. apply IHc in E as (c & Hc & L); [|done].
      eapply gains_iff; [eapply gains_seq; [exact L|] | |].
      * intros zs Hz. rewrite <- (app_nil_r zs). eapply sequence_component; [done | exact Hc | done | constructor].
      * intros x. rewrite component_enters_one, Hm, Ec, Hc. naive_solver.
      * intros n'. rewrite groups_in_one. eauto.
    + injection H2 as <-. eapply gains_iff; [eapply gains_seq; [apply gains_refl|] | | by intros ? []].
      * intros zs Hz. by apply sequence_other.
      * intros x. rewrite component_enters_one, Hm, Ec. unfold nothing. naive_solver.
Qed.

Lemma group_step_gains m demanded n delim field s delim' field' s' :
  numbered (this s) -> own s = false ->
  ('(field, s) ←
     (if named "field" n then add_group_member m demanded n s
      else if named "component" n then addXMLComponentFields components fuel n m false s
      else if named "group" n then
        '(field, s) ← add_group_member m demanded n s;
        s ← addXMLGroup components fuel n m (isRequired n) s;
        mret (field, s)
      else mret (field, s));
   mret (if delim =? 0 then field else delim, field, s)) = Ok (delim', field', s') ->
  gains m (group_enters m demanded [n]) (groups_in [n]) [n] s s'.
Proof.
  intros Hs Ho. intros ([field1 s1] & H1 & [= _ _ <-])%result_bind_Ok. destruct (named "field" n) eqn:E1.
  { pose proof (named_ne "field" "component" n ltac:(done) E1) as E2. pose proof (named_ne "field" "group" n ltac:(done) E1) as E3.
    assert (is_member n = true) as Hm by (unfold is_member; by rewrite E1). destruct (add_group_member_gains _ _ _ _ _ _ Hs H1 Hm) as [Hn L].
    eapply gains_iff; [exact L | | by intros ? []]. intros x. rewrite group_enters_one, Hm, E2, Hn. unfold opens. rewrite E3. naive_solver. }
  destruct (named "component" n) eqn:E2.
  { pose proof (named_ne "component" "group" n ltac:(done) E2) as E3. assert (is_member n = false) as Hm by (unfold is_member; by rewrite E1, E3).
    apply IHc in H1 as (c & Hc & L); [|done]. eapply gains_iff; [eapply gains_seq; [exact L|] | |].
    - intros zs Hz. rewrite <- (app_nil_r zs). eapply sequence_component; [done | exact Hc | done | constructor].
    - intros x. rewrite group_enters_one, Hm, E2, Hc. naive_solver.
    - intros n'. rewrite groups_in_one. eauto. }
  destruct (named "group" n) eqn:E3.
  { pose proof (is_group_of_member _ E3) as Hm. apply result_bind_Ok in H1 as ([field2 s2] & H1 & (s3 & H2 & [= _ <-])%result_bind_Ok).
    destruct (add_group_member_gains _ _ _ _ _ _ Hs H1 Hm) as [Hn L].
    eapply gains_iff; [eapply (gains_then m _ (opens m n field2) _ (eq n) [n] []); [exact L|]| |].
    - intros N1. destruct (IHg _ _ _ _ N1 H2 E3) as (num' & Hn' & L'). rewrite Hn in Hn'. by injection Hn' as <-.
    - intros x. rewrite group_enters_one, Hm, E2, Hn. naive_solver.
    - intros n'. rewrite groups_in_one. intros [[]|<-]. auto. }
  injection H1 as _ <-. assert (is_member n = false) as Hm by (unfold is_member; by rewrite E1, E3).
  eapply gains_iff; [eapply gains_seq; [apply gains_refl|] | | by intros ? []].
  - intros zs Hz. by apply sequence_other.
  - intros x. rewrite group_enters_one, Hm, E2. unfold nothing. naive_solver.
Qed.
End Steps.

(** A group, given the dictionary its members made. *)
Lemma group_gains m n num demanded s inner g delim :
  number n = Some num -> named "group" n = true -> delim = delimiter (n_children n) -> demanded = isRequired n -> DD inner = Some g ->
  gains m (group_enters m demanded (n_children n)) (groups_in (n_children n)) (n_children n) (mkLoading (this s) (Some new_DataDictionary)) inner ->
  gains m (opens m n num) (eq n) [] s
    (if delim =? 0 then mkLoading (this inner) (DD s) else on_DD (adoptGroup m num delim g) (mkLoading (this inner) (DD s))).
Proof.
  intros Hn Hg -> -> Ei L Hs Ht. destruct (L Hs ltac:(by split)) as ((_ & Ni & Ti) & Pi & Di). destruct (Di eq_refl) as (Gi & Fi & zs & S1 & S2).
  unfold target in Pi, Fi, S2. rewrite Ei in Pi, Fi, S2. cbn [DD this] in *.
  assert (gains m nothing nothing [] s (mkLoading (this inner) (DD s))) as L1.
  { intros _ _. destruct s as [d [g0|]]; unfold target in *; cbn [this DD own] in *; split_and!; try done.
    - intros P. apply groups_from_mono. auto.
    - intros _. split_and!; [done | unfold nothing; intuition | exists []; split; [constructor | by rewrite app_nil_r]].
    - apply Ni.
    - intros P. by apply groups_from_same. }
  destruct (Z.eqb_spec (delimiter (n_children n)) 0) as [E0|E0].
  - refine (gains_iff _ _ _ _ _ _ _ _ L1 _ _ Hs Ht); [|by intros ? []]. unfold opens, nothing. naive_solver.
  - refine (gains_iff _ _ _ _ _ _ _ _ (gains_trans _ _ _ _ _ _ _ _ _ _ L1 (gains_group m num n (delimiter (n_children n)) g _ Hn _)) _ _ Hs Ht).
    + constructor; [done | intros x; rewrite Fi; split; [intros [Hx|?]; [by destruct x | done] | by right] | by rewrite S2 |].
      intros m' num' delim' g' Hg'. destruct (Pi (fun _ _ => False) ltac:(by intros ? ? ? ?) _ _ _ _ Hg') as (n' & [[]|[-> [Ho Hn']]] & ? & ?).
      split; [done|]. by eapply member_group_intro.
    + intros x. unfold opens, nothing. naive_solver.
    + unfold nothing. intros n' [[]|?]. done.
Qed.

(** Components and groups enter what they declare, at any depth. *)
Lemma members_gain fuel :
  (forall n m demanded s r s',
    numbered (this s) -> addXMLComponentFields components fuel n m demanded s = Ok (r, s') ->
    exists c, component n = Some c /\ gains m (component_enters m (n_children c)) (groups_in (n_children c)) (n_children c) s s') /\
  (forall n m s s',
    numbered (this s) -> addXMLGroup components fuel n m (isRequired n) s = Ok s' -> named "group" n = true ->
    exists num, number n = Some num /\ gains m (opens m n num) (eq n) [] s s').
Proof.
  induction fuel as [|fuel [IHc IHg]]; [done|]. split.
  - intros n m demanded s r s' Hs. cbn [addXMLComponentFields]. unfold getAttribute.
    intros (name & Hname%of_option_Ok & H)%result_bind_Ok. revert H. intros (c & Hc%of_option_Ok & H)%result_bind_Ok.
    exists c. split; [unfold DictLoad.component; rewrite Hname; exact Hc|]. change s' with (r, s').2.
    revert H. apply (each_ind _ (fun l st => gains m (component_enters m l) (groups_in l) l s st.2)).
    + intros l x [first s1] [first' s2] H1 H2. cbn [snd] in *.
      eapply gains_iff; [eapply gains_then; [exact H1 | intros N1; by eapply (component_step_gains fuel IHc IHg)]| |].
      * intros y. by rewrite component_enters_app.
      * intros n'. by rewrite groups_in_app.
    + eapply gains_iff; [apply gains_refl | | by intros ? []]. intros x. split; [done | by intros (n' & num & ?%occurs_nil & _)].
  - intros n m s s' Hs. cbn [addXMLGroup]. unfold getAttribute, lookupXMLFieldNumber.
    intros (name & Hname%of_option_Ok & H)%result_bind_Ok. revert H. intros (num & Hnum%of_option_Ok & H)%result_bind_Ok. revert H.
    intros ([[delim field] inner] & Hloop & H)%result_bind_Ok Hg.
    pose proof (number_lookup names n _ _ Hs Hname) as Hn. rewrite Hnum in Hn. exists num. split; [done|].
    set (s0 := mkLoading (this s) (Some new_DataDictionary)) in Hloop.
    eapply (each_ind _ (fun l st => (st.1.1 = delimiter l /\ (st.1.1 = 0 -> st.1.2 = 0)) /\ (own st.2 = false /\ numbered (this st.2)) /\
      gains m (group_enters m (isRequired n) l) (groups_in l) l s0 st.2)) in Hloop as ([Hdelim _] & _ & L).
    + cbn [fst snd] in *. destruct (DD inner) as [g|] eqn:Eg; [|done]. injection H as <-. by eapply group_gains.
    + intros l x [[delim1 field1] s1] [[delim2 field2] s2] ([H1 H2] & [O1 N1] & L1) H4. cbn [fst snd] in *.
      pose proof (group_step names components fuel (proj1 (members_load names components fuel)) (proj2 (members_load names components fuel))
        m (isRequired n) x delim1 field1 s1 delim2 field2 s2 N1 O1 H4) as (Hf & -> & Lx).
      pose proof (group_step_gains fuel IHc IHg m (isRequired n) x delim1 field1 s1 _ field2 s2 N1 O1 H4) as L2.
      destruct (Lx N1) as (O2 & N2 & _). split_and!; [| | by rewrite O2 | done |].
      * unfold DictLoad.delimiter. rewrite map_app. cbn [map]. rewrite first_nonzero_app. fold (delimiter l). rewrite <- H1.
        case_bool; [|done]. destruct Hf as [->|[-> ->]]; [done | auto].
      * case_bool; [done | lia].
      * eapply gains_iff; [eapply gains_trans; [exact L1 | exact L2]| |].
        { intros y. by rewrite group_enters_app. }
        { intros n'. by rewrite groups_in_app. }
    + split_and!; [done..|]. eapply gains_iff; [apply gains_refl | | by intros ? []]. intros x. split; [done | by intros (n' & ?%elem_of_nil & _)].
Qed.

(** ** Sections of the document *)

(** From [d] to [d'] the groups [P] are entered. *)
Definition grows (P : str -> node -> Prop) (d d' : DataDictionary) : Prop :=
  numbered d -> numbered d' /\ forall Q, groups_from Q d -> groups_from (fun m n => Q m n \/ P m n) d'.

Definition none_of (_ : str) (_ : node) : Prop := False.

Lemma grows_refl d : grows none_of d d.
Proof. intros Hd. split; [done|]. intros Q. apply groups_from_mono. auto. Qed.

Lemma grows_trans P1 P2 d1 d2 d3 : grows P1 d1 d2 -> grows P2 d2 d3 -> grows (fun m n => P1 m n \/ P2 m n) d1 d3.
Proof.
  intros H1 H2 Hd. destruct (H1 Hd) as [N1 G1]. destruct (H2 N1) as [N2 G2]. split; [done|].
  intros Q HQ. eapply groups_from_mono; [|apply G2, G1, HQ]. simpl. tauto.
Qed.

Lemma grows_mono P1 P2 d d' : grows P1 d d' -> (forall m n, P1 m n -> P2 m n) -> grows P2 d d'.
Proof.
  intros H HP Hd. destruct (H Hd) as [N G]. split; [done|]. intros Q HQ. eapply groups_from_mono; [|apply G, HQ]. simpl. intros ? ? [?|?]; auto.
Qed.

(** A change that leaves the groups alone. *)
Lemma grows_same P x d d' : adds x d d' -> (forall name num, ~ x (Named name num)) -> m_groupDicts d' = m_groupDicts d -> grows P d d'.
Proof.
  intros H Hx E Hd. split; [by eapply numbered_adds|]. intros Q HQ m num delim g. unfold getGroup. rewrite E. intros (n & ? & ? & ?)%HQ. by exists n; auto.
Qed.

Lemma grows_gains m E G l d s' : gains m E G l (mkLoading d None) s' -> grows (fun m' n => m' = m /\ G n) d (this s').
Proof.
  intros H Hd. destruct (H Hd (numbered_ok _ _ Hd)) as ((O & N & T) & P & _). split; [done|]. unfold own, target in *.
  destruct s' as [d' [g|]]; [done|exact P].
Qed.

Lemma each_grows {A} (f : A -> DataDictionary -> result DataDictionary) (P : A -> str -> node -> Prop) l d d' :
  (forall x d d', numbered d -> f x d = Ok d' -> grows (P x) d d') -> each f l d = Ok d' -> grows (fun m n => exists a, a ∈ l /\ P a m n) d d'.
Proof.
  intros Hf. apply (each_ind f (fun l d' => grows (fun m n => exists a, a ∈ l /\ P a m n) d d')).
  - intros l0 a d1 d2 H1 H2 Hd. destruct (H1 Hd) as [N1 _]. refine (grows_mono _ _ _ _ (grows_trans _ _ _ _ _ H1 (Hf _ _ _ N1 H2)) _ Hd).
    intros m n. setoid_rewrite elem_of_app. setoid_rewrite list_elem_of_singleton. naive_solver.
  - eapply grows_mono; [apply grows_refl|]. intros ? ? [].
Qed.

Lemma group_grows fuel n m d d' :
  numbered d -> this <$> addXMLGroup components fuel n m (isRequired n) (mkLoading d None) = Ok d' -> named "group" n = true ->
  grows (fun m' n' => m' = m /\ n' = n) d d'.
Proof.
  intros Hd H Hg. destruct (addXMLGroup _ _ _ _ _ _) as [s'|] eqn:E; [|done]. injection H as <-.
  apply (proj2 (members_gain fuel)) in E as (num & _ & L); [|done..]. apply grows_gains in L. eapply grows_mono; [exact L|]. simpl. intros ? ? [? <-]. done.
Qed.

Lemma message_field_grows fuel m n d d' :
  numbered d -> load_message_field components fuel m n d = Ok d' -> grows (fun m' n' => m' = m /\ groups_in [n] n') d d'.
Proof.
  intros Hd. unfold load_message_field. intros (d1 & H1 & H2)%result_bind_Ok. fold (is_member n) in H1.
  assert (grows (fun m' n' => m' = m /\ named "component" n = true /\ exists c, component n = Some c /\ groups_in (n_children c) n') d d1) as L1.
  { destruct (is_member n).
    - apply result_bind_Ok in H1 as (? & _ & (num & _ & [= <-])%result_bind_Ok).
      assert (forall P, grows P d (addMsgField m num d)) as L
        by (intros P; eapply grows_same; [apply adds_addMsgField | done | unfold addMsgField; by destruct d as [? ? ? ? ? []]]).
      destruct (isRequired n); [|apply L]. eapply grows_mono; [eapply grows_trans; [apply (L none_of)|eapply grows_same; [apply adds_addRequiredField | done | by destruct (addMsgField m num d)]]|].
      intros ? ? [[]|H]. exact H.
    - destruct (named "component" n) eqn:Ec; [|injection H1 as <-; eapply grows_mono; [apply grows_refl | intros ? ? []]].
      destruct (addXMLComponentFields _ _ _ _ _ _) as [[r s1]|] eqn:E; [|done]. injection H1 as <-.
      apply (proj1 (members_gain fuel)) in E as (c & Hc & L); [|done]. apply grows_gains in L. eapply grows_mono; [exact L|]. simpl. intros ? ? [? ?]. eauto. }
  intros _. destruct (L1 Hd) as [N1 _]. assert (grows (fun m' n' => m' = m /\ named "group" n = true /\ n' = n) d1 d') as L2.
  { destruct (named "group" n) eqn:Eg; [|injection H2 as <-; eapply grows_mono; [apply grows_refl | intros ? ? []]].
    apply group_grows in H2; [|done..]. eapply grows_mono; [exact H2|]. simpl. tauto. }
  refine (grows_mono _ _ _ _ (grows_trans _ _ _ _ _ L1 L2) _ Hd). intros m' n'. rewrite groups_in_one. simpl. tauto.
Qed.

Lemma groups_in_each l n : groups_in l n <-> exists a, a ∈ l /\ groups_in [a] n.
Proof.
  induction l as [|a l IH].
  - split; [by intros [?%occurs_nil _] | by intros (? & ?%elem_of_nil & _)].
  - change (a :: l) with ([a] ++ l). rewrite groups_in_app, IH. setoid_rewrite elem_of_app. setoid_rewrite list_elem_of_singleton. naive_solver.
Qed.

(** The groups of a message. *)
Definition message_groups (n : node) (m : str) (n' : node) : Prop :=
  named "message" n = true /\ attribute (lit "msgtype") n = Some m /\ groups_in (n_children n) n'.

Lemma message_grows fuel n d d' : numbered d -> load_message components fuel n d = Ok d' -> grows (message_groups n) d d'.
Proof.
  intros Hd. unfold load_message, message_groups. destruct (named "message" n); cbn [negb].
  2: { intros [= <-]. eapply grows_mono; [apply grows_refl | intros ? ? []]. }
  unfold getAttribute. intros (m & Hm%of_option_Ok & H)%result_bind_Ok.
  assert (grows none_of d (addMsgType m d)) as L1 by (eapply grows_same; [apply adds_addMsgType | done | by destruct d]).
  set (d1 := addMsgType m d) in *.
  assert (forall name, grows none_of d1 (addValueName FIELD.MsgType m name d1)) as L2
    by (intros name; eapply grows_same; [apply adds_addValueName | tauto | by destruct d1]).
  assert (grows none_of d1 (match attribute (lit "name") n with Some name => addValueName FIELD.MsgType m name d1 | None => d1 end)) as L3
    by (destruct (attribute (lit "name") n); [apply L2 | apply grows_refl]).
  apply (each_grows _ (fun n m' n' => m' = m /\ groups_in [n] n')) in H; [|intros ? ? ?; apply message_field_grows].
  eapply grows_mono; [eapply grows_trans; [exact L1 | eapply grows_trans; [exact L3 | exact H]]|].
  intros m' n' [[]|[[]|(a & Ha & -> & Hn')]]. split_and!; [done | done|]. apply groups_in_each. eauto.
Qed.

Lemma messages_grow fuel doc d d' :
  load_messages components fuel doc d = Ok d' ->
  grows (fun m n' => exists n, n ∈ children_at ["fix"; "messages"]%string doc /\ message_groups n m n') d d'.
Proof.
  unfold load_messages, children_at. intros (p & Hp%of_option_Ok & H)%result_bind_Ok. rewrite Hp.
  assert (each (load_message components fuel) (n_children p) d = Ok d') as E by (by destruct (n_children p)).
  eapply (each_grows _ message_groups); [intros ? ? ?; apply message_grows | exact E].
Qed.

(** The groups of the header or the trailer; a component there is not read. *)
Lemma block_grows fuel add F path block missing empty doc d d' :
  (forall f b d, adds (eq (F f)) d (add f b d)) -> (forall f name num, F f <> Named name num) -> (forall f b d, m_groupDicts (add f b d) = m_groupDicts d) ->
  load_block components fuel add path block missing empty doc d = Ok d' ->
  grows (fun m n => m = lit block /\ n ∈ children_at path doc /\ named "group" n = true) d d'.
Proof.
  intros Hadd HF HG. unfold load_block, children_at. intros (p & Hp%of_option_Ok & H)%result_bind_Ok. rewrite Hp.
  assert (each (load_block_field components fuel add (lit block)) (n_children p) d = Ok d') as E by (by destruct (n_children p)).
  eapply grows_mono; [eapply (each_grows _ (fun n m n' => m = lit block /\ named "group" n = true /\ n' = n)); [|exact E]|].
  2: { intros m n (a & Ha & -> & ? & ->). done. }
  clear H E Hp. intros n d1 d2 Hd. unfold load_block_field. intros (d3 & H1 & H2)%result_bind_Ok.
  assert (grows none_of d1 d3) as L1.
  { destruct (named "field" n || named "group" n); [|injection H1 as <-; apply grows_refl].
    apply result_bind_Ok in H1 as (? & _ & (num & _ & [= <-])%result_bind_Ok). eapply grows_same; [apply Hadd | apply HF | apply HG]. }
  destruct (L1 Hd) as [N1 _]. destruct (named "group" n) eqn:Eg.
  - apply group_grows in H2; [|done..]. eapply grows_mono; [eapply grows_trans; [exact L1 | exact H2]|]. intros ? ? [[]|[-> ->]]. done.
  - injection H2 as <-. eapply grows_mono; [exact L1|]. intros ? ? [].
Qed.
End Groups.

(** ** The whole document *)

Section Document.
Context (doc : list node).
Abbreviation fields := (children_at ["fix"; "fields"]%string doc).
Abbreviation messages := (children_at ["fix"; "messages"]%string doc).
Abbreviation header := (children_at ["fix"; "header"]%string doc).
Abbreviation trailer := (children_at ["fix"; "trailer"]%string doc).
Abbreviation names := (field_number fields).
Abbreviation components := (components_of doc).

(** The groups the document declares, of each message, the header and the
    trailer. *)
Inductive declares_group : str -> node -> Prop :=
| declares_message_group msg m n : msg ∈ messages -> message_groups components msg m n -> declares_group m n
| declares_header_group n : own_blocks doc -> n ∈ header -> named "group" n = true -> declares_group (lit "_header_") n
| declares_trailer_group n : own_blocks doc -> n ∈ trailer -> named "group" n = true -> declares_group (lit "_trailer_") n.

Definition attribute_of_fix (name default_ : string) : str :=
  match getNode ["fix"%string] doc with Some fix_ => default (lit default_) (attribute (lit name) fix_) | None => [] end.

(** The version of FIX: the type, the major and the minor number. *)
Definition version : str := attribute_of_fix "type" "FIX" ++ lit "." ++ attribute_of_fix "major" "" ++ lit "." ++ attribute_of_fix "minor" "".

(** [own_blocks]. *)
Definition has_blocks : bool :=
  bool_decide (attribute_of_fix "type" "FIX" = lit "FIXT") ||
  (bool_decide (attribute_of_fix "type" "FIX" = lit "FIX") && str_ltb (attribute_of_fix "major" "") (lit "5")).

(** What the document enters for a query, in its order. *)
Definition gives : entries := fun q =>
  flat_map (fun n => field_entries version n q) fields ++
  (if has_blocks then flat_map (fun n => block_entries names header_entry n q) header else []) ++
  (if has_blocks then flat_map (fun n => block_entries names trailer_entry n q) trailer else []) ++
  flat_map (fun n => message_entries n q) messages.

Lemma load_version_version fix_ d type major d' :
  getNode ["fix"%string] doc = Some fix_ -> load_version fix_ d = Ok (type, major, d') ->
  d' = setVersion version d /\ bool_decide (type = lit "FIXT") || (bool_decide (type = lit "FIX") && str_ltb major (lit "5")) = has_blocks.
Proof.
  intros Hfix. unfold has_blocks, version, attribute_of_fix. rewrite Hfix. unfold load_version, getAttribute.
  intros ([] & _ & (major' & Hmajor%of_option_Ok & (minor & Hminor%of_option_Ok & H)%result_bind_Ok)%result_bind_Ok)%result_bind_Ok.
  rewrite Hmajor, Hminor.
  unfold mret, result_ret in H. by injection H as <- <- <-.
Qed.

(** A section that is read when [b]. *)
Lemma guarded_block_writes fuel add entry path block missing empty (b : bool) d d' :
  (forall f b d, writes (entry f b) d (add f b d) /\ m_names (add f b d) = m_names d) -> knows names d ->
  (if b then load_block components fuel add path block missing empty doc d else mret d) = Ok d' ->
  knows names d' /\ writes (fun q => if b then flat_map (fun n => block_entries names entry n q) (children_at path doc) else []) d d'.
Proof.
  intros Hadd Hd. destruct b; [by apply load_block_writes|]. intros [= <-]. split; [done|]. apply (reflexivity (R := writes none)).
Qed.

Lemma guarded_block_grows fuel add (F : Z -> fact) path block missing empty (b : bool) B d d' :
  (forall f b d, adds (eq (F f)) d (add f b d)) -> (forall f name num, F f <> Named name num) -> (forall f b d, m_groupDicts (add f b d) = m_groupDicts d) ->
  (b = true <-> B) -> (if b then load_block components fuel add path block missing empty doc d else mret d) = Ok d' ->
  grows names components (fun m n => B /\ m = lit block /\ n ∈ children_at path doc /\ named "group" n = true) d d'.
Proof.
  intros H1 H2 H3 Hb H. destruct b.
  - eapply grows_mono; [by eapply (block_grows names components _ _ F)|]. intros m n ?. split; [by apply Hb | done].
  - injection H as <-. eapply grows_mono; [apply grows_refl|]. intros ? ? [].
Qed.

(** The dictionary after the version, the fields, the header, the trailer and the
    messages were read. *)
Record stages (fuel : nat) (flag : bool) (d1 d2 d3 d : DataDictionary) : Prop := {
  stage_fields : load_fields doc (setVersion version (set_storeMsgFieldsOrder flag new_DataDictionary)) = Ok d1;
  stage_header : (if has_blocks then load_block components fuel addHeaderField ["fix"; "header"]%string "_header_"
    "<header> section not found in data dictionary" "No header fields defined" doc d1 else mret d1) = Ok d2;
  stage_trailer : (if has_blocks then load_block components fuel addTrailerField ["fix"; "trailer"]%string "_trailer_"
    "<trailer> section not found in data dictionary" "No trailer fields defined" doc d2 else mret d2) = Ok d3;
  stage_messages : load_messages components fuel doc d3 = Ok d;
  stage_blocks : has_blocks = true <-> own_blocks doc
}.

Lemma load_stages fuel flag d :
  readFromDocument fuel doc (set_storeMsgFieldsOrder flag new_DataDictionary) = Ok d -> exists d1 d2 d3, stages fuel flag d1 d2 d3 d.
Proof.
  unfold readFromDocument. intros (fix_ & Hfix%of_option_Ok & H)%result_bind_Ok. revert H.
  intros ([[type major] d0] & Hv & H)%result_bind_Ok. revert H.
  pose proof (load_version_Ok _ _ _ _ _ Hv) as (Htype & Hmajor & _).
  pose proof (own_blocks_iff _ _ _ _ Hfix Htype Hmajor) as Hb. apply (load_version_version _ _ _ _ _ Hfix) in Hv as [-> Hblocks]. rewrite Hblocks in Hb |- *.
  assert (indexComponents fix_ = components) as -> by (unfold components_of; by rewrite Hfix).
  intros (d1 & H1 & H)%result_bind_Ok. revert H. intros (d2 & H2 & H)%result_bind_Ok. revert H. intros (d3 & H3 & H4)%result_bind_Ok.
  by exists d1, d2, d3.
Qed.

Lemma stages_numbered fuel flag d1 d2 d3 d : stages fuel flag d1 d2 d3 d -> numbered names d1.
Proof.
  intros []. destruct (adds_setVersion version _ (tables_ok_new flag)) as [Ht _].
  exact (load_fields_numbered _ _ _ Ht (holds_nothing flag version) stage_fields0).
Qed.

Lemma stages_look fuel flag d1 d2 d3 d : stages fuel flag d1 d2 d3 d -> m_beginString d = version /\ forall q, look q d = last (gives q).
Proof.
  intros H. pose proof (numbered_names _ _ (stages_numbered _ _ _ _ _ _ H)) as N1. destruct H as [H1 H2 H3 H4 _].
  set (d0 := setVersion version _) in H1. assert (sorted d0) as S0 by by split. pose proof (load_fields_writes version doc d0 d1 S0 eq_refl H1) as W1.
  apply (guarded_block_writes _ _ header_entry) in H2 as [N2 W2]; [|intros f b d'; split; [apply writes_addHeaderField | unfold addHeaderField; by destruct d' as [? ? ? ? ? []]] | done].
  apply (guarded_block_writes _ _ trailer_entry) in H3 as [N3 W3]; [|intros f b d'; split; [apply writes_addTrailerField | unfold addTrailerField; by destruct d' as [? ? ? ? ? []]] | done].
  apply load_messages_writes in H4 as W4.
  destruct (writes_trans _ _ _ _ _ W1 (writes_trans _ _ _ _ _ W2 (writes_trans _ _ _ _ _ W3 W4)) S0) as (_ & Hv & E).
  split; [done|]. intros q. rewrite E. unfold now. assert (look q d0 = None) as -> by by destruct q. fold (gives q). by destruct (last (gives q)).
Qed.

Lemma stages_groups fuel flag d1 d2 d3 d : stages fuel flag d1 d2 d3 d -> groups_from names components declares_group d.
Proof.
  intros H. pose proof (stages_numbered _ _ _ _ _ _ H) as N1. destruct H as [H1 H2 H3 H4 Hb].
  assert (groups_from names components none_of d1) as G1.
  { pose proof (load_fields_groups _ _ _ H1) as E. intros m num delim g. unfold getGroup. by rewrite E. }
  apply (guarded_block_grows _ _ HeaderField _ _ _ _ _ _ _ _ adds_addHeaderField ltac:(done)
    ltac:(intros ? ? ?; unfold addHeaderField; by destruct d0 as [? ? ? ? ? []]) Hb) in H2.
  apply (guarded_block_grows _ _ TrailerField _ _ _ _ _ _ _ _ adds_addTrailerField ltac:(done)
    ltac:(intros ? ? ?; unfold addTrailerField; by destruct d0 as [? ? ? ? ? []]) Hb) in H3.
  apply (messages_grow names) in H4. destruct (grows_trans _ _ _ _ _ _ _ H2 (grows_trans _ _ _ _ _ _ _ H3 H4) N1) as [_ G].
  eapply groups_from_mono; [|apply G, G1]. unfold none_of. intros m n [[]|[(? & -> & ? & ?)|[(? & -> & ? & ?)|(n' & ? & ?)]]].
  - by apply declares_header_group.
  - by apply declares_trailer_group.
  - by eapply declares_message_group.
Qed.
End Document.

(** ** Properties *)


