(* ===== verification/DictFuel.v ===== *)
(** * Loading ends

    Loading a dictionary follows references from component to component, inside
    groups too. It ends when no component contains itself, however deep the
    document; and does not when one does. *)
From S2P Require Import Prelude Convertors Values Scan OrdMap DictData DictXml.

(** ** Results that did not run out of fuel *)

Definition fuelled {A} (r : result A) : Prop := r <> Throw OutOfFuel.

Lemma fuelled_Ok {A} (a : A) : fuelled (Ok a).
Proof. done. Qed.

Lemma fuelled_bind {A B} (r : result A) (f : A -> result B) : fuelled r -> (forall a, r = Ok a -> fuelled (f a)) -> fuelled (r ≫= f).
Proof. unfold fuelled. intros Hr Hf. destruct r as [a|e]; simpl; [by apply Hf | congruence]. Qed.

Lemma fuelled_fmap {A B} (r : result A) (f : A -> B) : fuelled r -> fuelled (f <$> r).
Proof. unfold fuelled. destruct r; simpl; congruence. Qed.

Lemma fuelled_of_option {A} e (o : option A) : e <> OutOfFuel -> fuelled (of_option e o).
Proof. unfold fuelled. destruct o; simpl; congruence. Qed.

Lemma fuelled_getAttribute name error n : fuelled (getAttribute name error n).
Proof. by apply fuelled_of_option. Qed.

Lemma fuelled_lookup name d : fuelled (lookupXMLFieldNumber name d).
Proof. by apply fuelled_of_option. Qed.

Lemma fuelled_if {A} (b : bool) (r r' : result A) : (b = true -> fuelled r) -> fuelled r' -> fuelled (if b then r else r').
Proof. destruct b; auto. Qed.

Lemma fuelled_each {A S} (f : A -> S -> result S) l s : (forall x s, x ∈ l -> fuelled (f x s)) -> fuelled (each f l s).
Proof.
  revert s. induction l as [|x l IH]; intros s Hf; [done|]. simpl. apply fuelled_bind; [apply Hf; left|].
  intros s' _. apply IH. intros y s'' Hy. apply Hf. by right.
Qed.

Create HintDb fuelled.
#[export] Hint Resolve fuelled_Ok fuelled_fmap fuelled_getAttribute fuelled_lookup fuelled_each : fuelled.

(** The steps of a computation, one after another. *)
Ltac fuelled_steps :=
  repeat match goal with
  | |- fuelled (_ ≫= _) => apply fuelled_bind; [auto with fuelled | intros ? _]
  | |- fuelled (let '(_, _) := ?p in _) => destruct p
  | |- fuelled (mret _) => done
  end.

Lemma fuelled_component_member m b n first s : fuelled (add_component_member m b n first s).
Proof. unfold add_component_member. destruct (_ || _); [|done]. fuelled_steps. Qed.

Lemma fuelled_group_member m b n s : fuelled (add_group_member m b n s).
Proof. unfold add_group_member, lookup_node_number. apply fuelled_bind; [fuelled_steps; auto with fuelled | by intros ? _]. Qed.

#[export] Hint Resolve fuelled_component_member fuelled_group_member : fuelled.

(** ** References *)

(** The components a node refers to, itself or from inside a group. *)
Fixpoint references (n : node) : list str :=
  let 'Node _ _ children := n in
  if named "component" n then match attribute (lit "name") n with Some name => [name] | None => [] end
  else if named "group" n then List.concat (List.map references children)
  else [].

Definition references_of (l : list node) : list str := List.concat (List.map references l).

Lemma references_of_in a (l : list node) : a ∈ references_of l <-> exists n, n ∈ l /\ a ∈ references n.
Proof.
  unfold references_of. induction l as [|n l IH]; simpl; [split; [intros ?%elem_of_nil; done | by intros (? & ?%elem_of_nil & _)]|].
  rewrite elem_of_app, IH. setoid_rewrite elem_of_cons. naive_solver.
Qed.

(** The component named [b] contains the one named [a]. *)
Definition contains (components : list (str * node)) (a b : str) : Prop :=
  exists c, str_lookup b components = Some c /\ a ∈ references_of (n_children c).

Definition acyclic (components : list (str * node)) : Prop := well_founded (contains components).

(** Induction on trees. *)
Lemma node_tree_ind (P : node -> Prop) : (forall name attrs l, Forall P l -> P (Node name attrs l)) -> forall n, P n.
Proof.
  intros H. fix rec 1. intros [name attrs l]. apply H. induction l as [|n l IH]; constructor; [apply rec | exact IH].
Qed.

(** ** Enough fuel *)

Section Enough.
Context (components : list (str * node)).

(** [F] or more is enough for a component of the name, for a group, for whatever a
    node starts. *)
Definition enough_component (F : nat) (name : str) : Prop :=
  forall fuel n m b s, (F <= fuel)%nat -> attribute (lit "name") n = Some name -> fuelled (addXMLComponentFields components fuel n m b s).

Definition enough_group (F : nat) (n : node) : Prop :=
  forall fuel m b s, (F <= fuel)%nat -> fuelled (addXMLGroup components fuel n m b s).

Definition enough (F : nat) (n : node) : Prop :=
  (named "component" n = true -> forall fuel m b s, (F <= fuel)%nat -> fuelled (addXMLComponentFields components fuel n m b s)) /\
  (named "group" n = true -> enough_group F n).

Lemma enough_mono F F' n : (F <= F')%nat -> enough F n -> enough F' n.
Proof. intros HF [H1 H2]. split; [intros Hn fuel m b s ?; apply H1 | intros Hn fuel m b s ?; apply H2]; lia || done. Qed.

Lemma enough_all (l : list node) : (forall n, n ∈ l -> exists F, enough F n) -> exists F, forall n, n ∈ l -> enough F n.
Proof.
  induction l as [|n l IH]; intros H; [exists 0%nat; by intros n ?%elem_of_nil|].
  destruct (H n) as [F1 H1]; [left|]. destruct IH as [F2 H2]; [intros n' ?; apply H; by right|].
  exists (Nat.max F1 F2). intros n' [->|Hn]%elem_of_cons; [eapply enough_mono; [|exact H1] | eapply enough_mono; [|by apply H2]]; lia.
Qed.

(** The members of a component, of a group. *)
Lemma component_step_fuelled F m b (l : list node) s0 fuel :
  (forall n, n ∈ l -> enough F n) -> (F <= fuel)%nat ->
  fuelled (each (fun n '(firstField, s) =>
          '(firstField, s) ← add_component_member m b n firstField s;
          s ← (if named "component" n then snd <$> addXMLComponentFields components fuel n m (isRequired n) s else mret s);
          s ← (if named "group" n then addXMLGroup components fuel n m (isRequired n) s else mret s);
          mret (firstField, s)) l s0).
Proof.
  intros HF Hfuel. apply fuelled_each. intros n [first s] Hn. destruct (HF n Hn) as [Hc Hg].
  apply fuelled_bind; [auto with fuelled|]. intros [first1 s1] _.
  apply fuelled_bind; [apply fuelled_if; [intros E; apply fuelled_fmap; by apply Hc | done]|]. intros s2 _.
  apply fuelled_bind; [apply fuelled_if; [intros E; by apply Hg | done]|]. done.
Qed.

Lemma group_step_fuelled F m b (l : list node) s0 fuel :
  (forall n, n ∈ l -> enough F n) -> (F <= fuel)%nat ->
  fuelled (each (fun n '(delim, field, s) =>
            '(field, s) ←
              (if named "field" n then add_group_member m b n s
               else if named "component" n then addXMLComponentFields components fuel n m false s
               else if named "group" n then
                 '(field, s) ← add_group_member m b n s;
                 s ← addXMLGroup components fuel n m (isRequired n) s;
                 mret (field, s)
               else mret (field, s));
            mret (if delim =? 0 then field else delim, field, s)) l s0).
Proof.
  intros HF Hfuel. apply fuelled_each. intros n [[delim field] s] Hn. destruct (HF n Hn) as [Hc Hg].
  apply fuelled_bind; [|by intros [] _].
  apply fuelled_if; [auto with fuelled|]. apply fuelled_if; [intros E; by apply Hc|]. apply fuelled_if; [|done]. intros E.
  apply fuelled_bind; [auto with fuelled|]. intros [field1 s1] _. apply fuelled_bind; [by apply Hg | done].
Qed.

Lemma enough_group_members F n : (forall n', n' ∈ n_children n -> enough F n') -> enough_group (S F) n.
Proof.
  intros HF [|fuel] m b s Hfuel; [lia|]. cbn [addXMLGroup].
  apply fuelled_bind; [auto with fuelled|]. intros name _. apply fuelled_bind; [auto with fuelled|]. intros num _.
  apply fuelled_bind; [apply (group_step_fuelled F); [done | lia]|]. intros [[delim field] inner] _. by destruct (DD inner).
Qed.

Lemma enough_component_members F name c :
  str_lookup name components = Some c -> (forall n, n ∈ n_children c -> enough F n) -> enough_component (S F) name.
Proof.
  intros Hc HF [|fuel] n m b s Hfuel Hn; [lia|]. cbn [addXMLComponentFields]. unfold getAttribute. rewrite Hn. simpl mbind. rewrite Hc.
  apply (component_step_fuelled F); [done | lia].
Qed.

Lemma enough_undefined name : str_lookup name components = None -> enough_component 1 name.
Proof. intros Hc [|fuel] n m b s Hfuel Hn; [lia|]. cbn [addXMLComponentFields]. unfold getAttribute. rewrite Hn. simpl mbind. by rewrite Hc. Qed.

(** A node, when its references have enough. *)
Lemma enough_node n : (forall name, name ∈ references n -> exists F, enough_component F name) -> exists F, enough F n.
Proof.
  induction n as [name attrs l IH] using node_tree_ind. intros H. cbn [references] in H.
  destruct (named "component" (Node name attrs l)) eqn:Ec.
  - assert (exists F, forall fuel m b s, (F <= fuel)%nat -> fuelled (addXMLComponentFields components fuel (Node name attrs l) m b s)) as [F HF].
    { destruct (attribute (lit "name") (Node name attrs l)) as [ref|] eqn:Eref.
      - destruct (H ref) as [F HF]; [by apply list_elem_of_singleton|]. exists F. intros fuel m b s ?. by apply HF.
      - exists 1%nat. intros [|fuel] m b s ?; [lia|]. cbn [addXMLComponentFields]. unfold getAttribute. by rewrite Eref. }
    exists F. split; [done|]. intros Eg. by rewrite (named_ne "component" "group" _ ltac:(done) Ec) in Eg.
  - destruct (named "group" (Node name attrs l)) eqn:Eg; [|exists 0%nat; split; congruence].
    destruct (enough_all l) as [F HF].
    + intros n' Hn'. rewrite Forall_forall in IH. apply IH; [done|]. intros ref Href. apply H.
      apply references_of_in. eauto.
    + exists (S F). split; [congruence|]. intros _. by apply enough_group_members.
Qed.

Lemma enough_reference name : Acc (contains components) name -> exists F, enough_component F name.
Proof.
  induction 1 as [name _ IH]. destruct (str_lookup name components) as [c|] eqn:Ec; [|exists 1%nat; by apply enough_undefined].
  destruct (enough_all (n_children c)) as [F HF]; [|exists (S F); by eapply enough_component_members].
  intros n Hn. apply enough_node. intros ref Href. apply IH. exists c. split; [done|]. apply references_of_in. eauto.
Qed.

Lemma enough_nodes (l : list node) : acyclic components -> exists F, forall n, n ∈ l -> enough F n.
Proof. intros H. apply enough_all. intros n _. apply enough_node. intros ref _. apply enough_reference, H. Qed.
End Enough.

(** ** Loading a document *)

Lemma fuelled_load_value num name n d : fuelled (load_value num name n d).
Proof. unfold load_value. apply fuelled_if; [done|]. apply fuelled_bind; [auto with fuelled | done]. Qed.

Lemma fuelled_addFieldName num name d : fuelled (addFieldName num name d).
Proof. unfold addFieldName. by destruct (str_lookup name (m_names d)). Qed.

Lemma fuelled_load_field n d : fuelled (load_field n d).
Proof.
  unfold load_field. apply fuelled_if; [done|]. do 3 (apply fuelled_bind; [auto with fuelled|]; intros ? _).
  apply fuelled_bind; [apply fuelled_addFieldName|]. intros d1 _. apply fuelled_each. intros ? ? _. apply fuelled_load_value.
Qed.

Section Document.
Context (components : list (str * node)) (F fuel : nat).
Hypothesis (Hfuel : (F <= fuel)%nat).

Lemma fuelled_group n m b d : named "group" n = true -> enough components F n -> fuelled (this <$> addXMLGroup components fuel n m b (mkLoading d None)).
Proof. intros Hn [_ H]. apply fuelled_fmap. by apply H. Qed.

Lemma fuelled_block_field add block n d : enough components F n -> fuelled (load_block_field components fuel add block n d).
Proof.
  intros H. unfold load_block_field. apply fuelled_bind.
  - apply fuelled_if; [intros _|done]. fuelled_steps.
  - intros d1 _. apply fuelled_if; [intros Hn; by apply fuelled_group | done].
Qed.

Lemma fuelled_message_field m n d : enough components F n -> fuelled (load_message_field components fuel m n d).
Proof.
  intros H. unfold load_message_field. apply fuelled_bind.
  - apply fuelled_if; [intros _; fuelled_steps|]. apply fuelled_if; [|done]. intros Hn. apply fuelled_fmap. by apply H.
  - intros d1 _. apply fuelled_if; [intros Hn; by apply fuelled_group | done].
Qed.

Lemma fuelled_message n d : (forall n', n' ∈ n_children n -> enough components F n') -> fuelled (load_message components fuel n d).
Proof.
  intros H. unfold load_message. apply fuelled_if; [done|]. apply fuelled_bind; [auto with fuelled|]. intros m _.
  apply fuelled_each. intros n' d' Hn'. apply fuelled_message_field. by apply H.
Qed.

Lemma fuelled_block add path block missing empty doc d :
  (forall p n, getNode path doc = Some p -> n ∈ n_children p -> enough components F n) ->
  fuelled (load_block components fuel add path block missing empty doc d).
Proof.
  intros H. unfold load_block. apply fuelled_bind; [by apply fuelled_of_option|]. intros p Hp.
  apply of_option_Ok in Hp.
  specialize (H p). destruct (n_children p) as [|n l]; [done|]. apply fuelled_each. intros n' d' Hn'. apply fuelled_block_field. by apply H.
Qed.
End Document.

(** The nodes that are loaded with their references. *)
Definition loaded_nodes (doc : list node) : list node :=
  children_at ["fix"; "header"]%string doc ++ children_at ["fix"; "trailer"]%string doc ++
  List.concat (List.map n_children (children_at ["fix"; "messages"]%string doc)).

Lemma fuelled_readFromDocument F fuel doc d :
  (F <= fuel)%nat -> (forall n, n ∈ loaded_nodes doc -> enough (components_of doc) F n) -> fuelled (readFromDocument fuel doc d).
Proof.
  intros Hfuel HF. unfold readFromDocument. apply fuelled_bind; [by apply fuelled_of_option|]. intros fix_ Hfix%of_option_Ok.
  assert (components_of doc = indexComponents fix_) as Ec by (unfold components_of; by rewrite Hfix).
  rewrite Ec in HF. unfold loaded_nodes, children_at in HF. setoid_rewrite elem_of_app in HF. setoid_rewrite elem_of_app in HF.
  apply fuelled_bind.
  { unfold load_version. apply fuelled_bind; [unfold guard_or; by destruct (bool_decide _)|]. intros [] _. fuelled_steps. }
  intros [[type major] d0] _. apply fuelled_bind.
  { unfold load_fields. apply fuelled_bind; [by apply fuelled_of_option|]. intros p _. destruct (n_children p) as [|n l]; [done|].
    apply fuelled_each. intros ? ? _. apply fuelled_load_field. }
  intros d1 _. apply fuelled_bind.
  { apply fuelled_if; [intros _|done]. apply (fuelled_block _ F); [done|]. intros p n Hp Hn. apply HF. left. by rewrite Hp. }
  intros d2 _. apply fuelled_bind.
  { apply fuelled_if; [intros _|done]. apply (fuelled_block _ F); [done|]. intros p n Hp Hn. apply HF. right. left. by rewrite Hp. }
  intros d3 _. unfold load_messages. apply fuelled_bind; [by apply fuelled_of_option|]. intros p Hp%of_option_Ok.
  rewrite Hp in HF. destruct (n_children p) as [|n l]; [done|]. apply fuelled_each. intros m d' Hm.
  apply (fuelled_message _ F); [done|]. intros n' Hn'. apply HF. right. right. apply list_elem_of_In, in_concat.
  exists (n_children m). split; [apply in_map | ]; by apply list_elem_of_In.
Qed.

(** A component that starts with itself is expanded for ever. *)
Lemma self_component_diverges components name c n rest fuel m b s :
  str_lookup name components = Some c -> n_children c = n :: rest -> named "component" n = true -> attribute (lit "name") n = Some name ->
  addXMLComponentFields components fuel n m b s = Throw OutOfFuel.
Proof.
  intros Hc Hl Hn Hname. revert b s. induction fuel as [|fuel IH]; intros b s; [done|]. cbn [addXMLComponentFields]. unfold getAttribute.
  rewrite Hname. simpl mbind. rewrite Hc. simpl mbind. rewrite Hl. cbn [each].
  assert (forall first, add_component_member m b n first s = Ok (first, s)) as ->.
  { intros first. unfold add_component_member. destruct (named "field" n) eqn:E1; [by rewrite (named_ne "field" "component" n ltac:(done) E1) in Hn|].
    destruct (named "group" n) eqn:E2; [by rewrite (named_ne "group" "component" n ltac:(done) E2) in Hn | done]. }
  simpl mbind. rewrite Hn. by rewrite IH.
Qed.

(** References that go down in rank do not return. *)
Lemma ranked_acyclic components (rank : str -> nat) :
  Forall (fun '(b, c) => Forall (fun a => (rank a < rank b)%nat) (references_of (n_children c))) components -> acyclic components.
Proof.
  intros H. apply (wf_projected lt rank); [|apply lt_wf]. intros a b (c & Hc & Ha).
  assert ((b, c) ∈ components) as Hin.
  { clear H. induction components as [|[k v] l IH]; [done|]. simpl in Hc. case_bool_decide; [injection Hc as ->; subst; left | right; by apply IH]. }
  rewrite Forall_forall in H. specialize (H _ Hin). simpl in H. rewrite Forall_forall in H. by apply H.
Qed.

(** ** Properties *)

(** C18 Loading a document whose components do not contain themselves ends: some
    depth of calls is enough, for any dictionary. *)
Theorem load_terminates doc :
  acyclic (components_of doc) -> exists F, forall fuel d, (F <= fuel)%nat -> readFromDocument fuel doc d <> Throw OutOfFuel.
Proof.
  intros H. destruct (enough_nodes (components_of doc) (loaded_nodes doc) H) as [F HF]. exists F. intros fuel d Hfuel.
  by apply (fuelled_readFromDocument F).
Qed.

Lemma load_terminates_witness :
  acyclic (components_of ex_doc) /\ exists F, forall fuel d, (F <= fuel)%nat -> readFromDocument fuel ex_doc d <> Throw OutOfFuel.
Proof.
  assert (acyclic (components_of ex_doc)) as H.
  { apply (ranked_acyclic _ (fun name => if bool_decide (name = lit "Sub") then 0%nat else 1%nat)). vm_compute. repeat constructor. }
  split; [exact H | exact (load_terminates ex_doc H)].
Defined.
