(* ===== verification/Message.v ===== *)
(** * Messages ([src/C++/Message.h], [src/C++/Message.cpp])

    A message is a header, a body and a trailer, each a field map, with what
    decoding notes about its structure. Decoding threads the message, the
    position in the string and the dictionaries; a dictionary pointer is an
    option. *)
From S2P Require Import Prelude Convertors Values OrdMap MessageSorters Field FieldMap DictData.

Record Message := mkMessage {
  m_header : FieldMap;
  m_body : FieldMap;
  m_trailer : FieldMap;
  m_validStructure : bool;
  m_invalidTag : Z;
  m_embeddedSOHTag : Z;
  m_outOfOrderGroupTag : Z;
  m_embeddedSOHSkippedLength : Z;
  m_embeddedSOHSkippedChecksum : Z }.

Definition Message_ordered (headerOrder trailerOrder order : message_order) : Message :=
  mkMessage (new_FieldMap headerOrder) (new_FieldMap order) (new_FieldMap trailerOrder) true 0 0 0 0 0.

(** [Message()]. *)
Definition new_Message : Message :=
  Message_ordered (new_message_order header) (new_message_order trailer) (new_message_order normal).

Definition with_header (m : Message) (h : FieldMap) : Message :=
  mkMessage h (m_body m) (m_trailer m) (m_validStructure m) (m_invalidTag m) (m_embeddedSOHTag m)
    (m_outOfOrderGroupTag m) (m_embeddedSOHSkippedLength m) (m_embeddedSOHSkippedChecksum m).
Definition with_body (m : Message) (b : FieldMap) : Message :=
  mkMessage (m_header m) b (m_trailer m) (m_validStructure m) (m_invalidTag m) (m_embeddedSOHTag m)
    (m_outOfOrderGroupTag m) (m_embeddedSOHSkippedLength m) (m_embeddedSOHSkippedChecksum m).
Definition with_trailer (m : Message) (t : FieldMap) : Message :=
  mkMessage (m_header m) (m_body m) t (m_validStructure m) (m_invalidTag m) (m_embeddedSOHTag m)
    (m_outOfOrderGroupTag m) (m_embeddedSOHSkippedLength m) (m_embeddedSOHSkippedChecksum m).

(** [m_tag = field (when still 0), m_validStructure = false]. *)
Definition structure_fault (m : Message) (tag : Z) : Message :=
  mkMessage (m_header m) (m_body m) (m_trailer m) false (if m_invalidTag m =? 0 then tag else m_invalidTag m)
    (m_embeddedSOHTag m) (m_outOfOrderGroupTag m) (m_embeddedSOHSkippedLength m) (m_embeddedSOHSkippedChecksum m).

Definition note_outOfOrderGroup (m : Message) (tag : Z) : Message :=
  mkMessage (m_header m) (m_body m) (m_trailer m) (m_validStructure m) (m_invalidTag m) (m_embeddedSOHTag m)
    (if m_outOfOrderGroupTag m =? 0 then tag else m_outOfOrderGroupTag m)
    (m_embeddedSOHSkippedLength m) (m_embeddedSOHSkippedChecksum m).

(** The bytes [validate] has to account for: those of an orphan token, one after
    the other, and the difference between a field as received and as written. *)
Definition with_skipped (m : Message) (length checksum : Z) : Message :=
  mkMessage (m_header m) (m_body m) (m_trailer m) (m_validStructure m) (m_invalidTag m) (m_embeddedSOHTag m)
    (m_outOfOrderGroupTag m) length checksum.
Definition add_orphan (m : Message) (length : nat) (bytes : str) : Message :=
  with_skipped m (i32 (m_embeddedSOHSkippedLength m + i32 (Z.of_nat length)))
    (add_bytes (m_embeddedSOHSkippedChecksum m) bytes).
Definition add_skipped (m : Message) (length checksum : Z) : Message :=
  with_skipped m (i32 (m_embeddedSOHSkippedLength m + length)) (i32 (m_embeddedSOHSkippedChecksum m + checksum)).

Definition note_embeddedSOH (m : Message) (precedingTag : Z) : Message :=
  mkMessage (m_header m) (m_body m) (m_trailer m) (m_validStructure m) (m_invalidTag m)
    (if m_embeddedSOHTag m =? 0 then precedingTag else m_embeddedSOHTag m)
    (m_outOfOrderGroupTag m) (m_embeddedSOHSkippedLength m) (m_embeddedSOHSkippedChecksum m).

(** [Message::clear()]. *)
Definition clearMessage (m : Message) : Message :=
  mkMessage (clear (m_header m)) (clear (m_body m)) (clear (m_trailer m)) true 0 0 0 0 0.

Definition isEmptyMessage (m : Message) : bool := isEmpty (m_header m) && isEmpty (m_body m) && isEmpty (m_trailer m).

(** ** Classification *)

Definition header_tags : list Z :=
  [FIELD.BeginString; FIELD.BodyLength; FIELD.MsgType; FIELD.SenderCompID; FIELD.TargetCompID;
   FIELD.OnBehalfOfCompID; FIELD.DeliverToCompID; FIELD.SecureDataLen; FIELD.MsgSeqNum; FIELD.SenderSubID;
   FIELD.SenderLocationID; FIELD.TargetSubID; FIELD.TargetLocationID; FIELD.OnBehalfOfSubID;
   FIELD.OnBehalfOfLocationID; FIELD.DeliverToSubID; FIELD.DeliverToLocationID; FIELD.PossDupFlag;
   FIELD.PossResend; FIELD.SendingTime; FIELD.OrigSendingTime; FIELD.XmlDataLen; FIELD.XmlData;
   FIELD.MessageEncoding; FIELD.LastMsgSeqNumProcessed; FIELD.OnBehalfOfSendingTime; FIELD.ApplVerID;
   FIELD.CstmApplVerID; FIELD.NoHops].

Definition trailer_tags : list Z := [FIELD.SignatureLength; FIELD.Signature; FIELD.CheckSum].

Definition isHeaderField (field : Z) (pD : option DataDictionary) : bool :=
  if existsb (Z.eqb field) header_tags then true
  else match pD with Some d => dd_isHeaderField field d | None => false end.

Definition isTrailerField (field : Z) (pD : option DataDictionary) : bool :=
  if existsb (Z.eqb field) trailer_tags then true
  else match pD with Some d => dd_isTrailerField field d | None => false end.

(** [strchr("0A12345", msgType[0]) != 0]: [strchr] also finds the terminating
    NUL. *)
Definition isAdminMsgType (msgType : str) : bool :=
  match msgType with
  | [c] => existsb (fun d => bool_decide (c = d)) (lit "0A12345" ++ [NUL])
  | _ => false
  end.

Definition isAdmin (m : Message) : bool :=
  match getFieldIfSet (m_header m) FIELD.MsgType with Some f => isAdminMsgType (getString f) | None => false end.
Definition isApp (m : Message) : bool :=
  match getFieldIfSet (m_header m) FIELD.MsgType with Some f => negb (isAdminMsgType (getString f)) | None => false end.

Definition toApplVerID (value : str) : str :=
  if bool_decide (value = BeginString_FIX40) then ApplVerID_FIX40
  else if bool_decide (value = BeginString_FIX41) then ApplVerID_FIX41
  else if bool_decide (value = BeginString_FIX42) then ApplVerID_FIX42
  else if bool_decide (value = BeginString_FIX43) then ApplVerID_FIX43
  else if bool_decide (value = BeginString_FIX44) then ApplVerID_FIX44
  else if bool_decide (value = BeginString_FIX50) then ApplVerID_FIX50
  else if bool_decide (value = lit "FIX.5.0SP1") then ApplVerID_FIX50_SP1
  else if bool_decide (value = lit "FIX.5.0SP2") then ApplVerID_FIX50_SP2
  else value.

Definition toBeginString (applVerID : str) : str :=
  if bool_decide (applVerID = ApplVerID_FIX40) then BeginString_FIX40
  else if bool_decide (applVerID = ApplVerID_FIX41) then BeginString_FIX41
  else if bool_decide (applVerID = ApplVerID_FIX42) then BeginString_FIX42
  else if bool_decide (applVerID = ApplVerID_FIX43) then BeginString_FIX43
  else if bool_decide (applVerID = ApplVerID_FIX44) then BeginString_FIX44
  else if bool_decide (applVerID = ApplVerID_FIX50) then BeginString_FIX50
  else if bool_decide (applVerID = ApplVerID_FIX50_SP1) then BeginString_FIX50
  else if bool_decide (applVerID = ApplVerID_FIX50_SP2) then BeginString_FIX50
  else [].

(** [identifyType(message)]. *)
Definition identifyType (message : str) : result str :=
  match find (SOH :: lit "35=") message with
  | None => Throw (MessageParseError [])
  | Some pos =>
      let startValue := (pos + 4)%nat in
      match find_from [SOH] message startValue with
      | None => Throw (MessageParseError [])
      | Some soh => Ok (substr message startValue (soh - startValue))
      end
  end.

(** ** Encoding *)

Definition bodyLength (m : Message) (beginStringField bodyLengthField checkSumField : Z) : Z :=
  i32 (i32 (calculateLength (m_header m) beginStringField bodyLengthField checkSumField +
            calculateLength (m_body m) beginStringField bodyLengthField checkSumField) +
       calculateLength (m_trailer m) beginStringField bodyLengthField checkSumField).

Definition checkSum (m : Message) (checkSumField : Z) : Z :=
  Z.rem (i32 (i32 (calculateTotal (m_header m) checkSumField + calculateTotal (m_body m) checkSumField) +
              calculateTotal (m_trailer m) checkSumField)) 256.

(** [toString(str, ...)]: the string, and the message whose (mutable) header and
    trailer now hold the body length and the checksum. *)
Definition toString (m : Message) (beginStringField bodyLengthField checkSumField : Z) : result (str * Message) :=
  let length := bodyLength m beginStringField bodyLengthField checkSumField in
  let m := with_header m (setField (m_header m) (IntField bodyLengthField (i32 (u64 length)))) in
  sum ← CheckSumField checkSumField (checkSum m checkSumField);
  let m := with_trailer m (setField (m_trailer m) sum) in
  Ok (calculateString (m_header m) ++ calculateString (m_body m) ++ calculateString (m_trailer m), m).

(** [toString()]. *)
Definition toString_default (m : Message) : result (str * Message) :=
  toString m FIELD.BeginString FIELD.BodyLength FIELD.CheckSum.

(** ** Decoding *)

(** [IsDataField]; asking the same dictionary twice changes nothing. *)
Definition IsDataField (field : Z) (pSessionDD pAppDD : option DataDictionary) : bool :=
  match pSessionDD with Some d => isDataField field d | None => false end ||
  match pAppDD with Some d => isDataField field d | None => false end.

(** Where a data field's value ends: what its length field says. *)
Definition data_soh (m : Message) (string : str) (valueStart : nat) (field : Z)
    (pSessionDD : option DataDictionary) (pGroup : option FieldMap) : result nat :=
  let lenField := if field =? FIELD.Signature then FIELD.SignatureLength else field - 1 in
  let location :=
    match pGroup with
    | Some g => g
    | None =>
        if isHeaderField lenField pSessionDD then m_header m
        else if isTrailerField lenField pSessionDD then m_trailer m
        else m_body m
    end in
  match reverse_find location lenField with
  | Throw _ =>
      Throw (InvalidMessage (lit "Data length field " ++ IntConvertor_convert lenField ++
                             lit " was not found for data field " ++ IntConvertor_convert field))
  | Ok fieldLength =>
      match IntT_of_string int32_t (getString fieldLength) with
      | Throw e =>
          Throw (InvalidMessage (lit "Unable to determine SOH for data field " ++ IntConvertor_convert field ++
                                 lit ": " ++ exn_what e))
      | Ok dataLen =>
          if (dataLen <? 0) || (Z.of_nat (length string) <? Z.of_nat valueStart + dataLen)
          then Throw (InvalidMessage (lit "RawDataLength exceeds message boundary"))
          else Ok (valueStart + Z.to_nat dataLen)%nat
      end
  end.

(** [std::string]'s characters with the terminating NUL after them: what the
    iterator at [end()] is over. *)
Definition raw_bytes (string : str) : str := string ++ [NUL].

(** [extractField(string, pos, ...)]: the field, the new position and what the
    message notes. Every pass but the last steps over an orphan token, so as
    many passes as characters are enough. *)
Fixpoint extractField_loop (fuel : nat) (m : Message) (string : str) (pos : nat)
    (pSessionDD pAppDD : option DataDictionary) (pGroup : option FieldMap) (precedingTag : Z)
    : result (FieldBase * nat * Message) :=
  match fuel with
  | O => Throw OutOfFuel
  | S fuel =>
      match find_from [SOH] string pos with
      | None => Throw (InvalidMessage (lit "SOH not found at end of field"))
      | Some fieldEnd =>
          match find (lit "=") (substr string pos (fieldEnd - pos)) with
          | None =>
              let m := note_embeddedSOH m precedingTag in
              let orphanEnd := S fieldEnd in
              let m := add_orphan m (orphanEnd - pos) (substr string pos (orphanEnd - pos)) in
              if (length string <=? orphanEnd)%nat then Throw (InvalidMessage (lit "SOH not found at end of field"))
              else extractField_loop fuel m string orphanEnd pSessionDD pAppDD pGroup precedingTag
          | Some equalOffset =>
              let tagText := substr string pos equalOffset in
              match IntT_convert int32_t tagText with
              | None => Throw (InvalidMessage (lit "Field tag is invalid: " ++ tagText))
              | Some field =>
                  let valueStart := (pos + equalOffset + 1)%nat in
                  soh ← (if IsDataField field pSessionDD pAppDD
                         then data_soh m string valueStart field pSessionDD pGroup
                         else Ok fieldEnd);
                  let tagEnd := S soh in
                  let value := substr string valueStart (soh - valueStart) in
                  let received := Field_decoded field value (substr (raw_bytes string) pos (tagEnd - pos)) in
                  if (bool_decide (head tagText = Some "0"%char) && (1 <? equalOffset)%nat)
                     || bool_decide (head tagText = Some "-"%char)
                  then
                    let canonical := calculate (Field field value) in
                    let m := add_skipped m (i32 (getLength received - getLength canonical))
                                           (i32 (getTotal received - getTotal canonical)) in
                    Ok (canonical, tagEnd, m)
                  else Ok (received, tagEnd, m)
              end
          end
      end
  end.

Definition extractField (m : Message) (string : str) (pos : nat) (pSessionDD pAppDD : option DataDictionary)
    (pGroup : option FieldMap) (precedingTag : Z) : result (FieldBase * nat * Message) :=
  extractField_loop (S (length string)) m string pos pSessionDD pAppDD pGroup precedingTag.

(** [setGroup(msg, field, string, pos, map, dataDictionary)]: reads the groups
    that follow their count field into [map]. Every pass consumes at least one
    character, or ends. *)
Section SetGroup.
Variables (msg string : str).

(** One call of [setGroup], which looks the group up ... *)
Definition setGroup_with
    (loop : Message -> nat -> FieldMap -> Z -> Z -> DataDictionary -> DataDictionary -> option FieldMap ->
            Z -> bool -> Z -> result (nat * FieldMap * Message))
    (m : Message) (field : Z) (pos : nat) (map : FieldMap) (dd : DataDictionary)
    : result (nat * FieldMap * Message) :=
  match getGroup msg field dd with
  | None => Ok (pos, map, m)
  | Some (delim, pDD) => loop m pos map field delim dd pDD None field true 0
  end.

(** ... and its [while (pos < string.size())] loop. A group that is still open
    when the string ends is dropped. *)
Fixpoint setGroup_loop (fuel : nat) (m : Message) (pos : nat) (map : FieldMap) (group delim : Z)
    (dd pDD : DataDictionary) (pGroup : option FieldMap) (precedingTag : Z) (firstMember : bool)
    (outOfOrderCandidate : Z) : result (nat * FieldMap * Message) :=
  match fuel with
  | O => Throw OutOfFuel
  | S fuel =>
      if (length string <=? pos)%nat then Ok (pos, map, m)
      else
        let oldPos := pos in
        '(field, pos, m) ← extractField m string pos (Some dd) (Some dd) pGroup precedingTag;
        let precedingTag := getTag field in
        let groupField := isField (getTag field) pDD in
        let '(outOfOrderCandidate, m) :=
          if firstMember then
            (if negb (getTag field =? delim) && groupField then getTag field else outOfOrderCandidate, m)
          else if negb (outOfOrderCandidate =? 0) && (getTag field =? delim) then
            (0, note_outOfOrderGroup m outOfOrderCandidate)
          else (outOfOrderCandidate, m) in
        let close map := match pGroup with Some g => addGroupPtr map group g false | None => map end in
        if (getTag field =? delim) ||
           (groupField && match pGroup with None => true | Some g => isSetField g (getTag field) end)
        then
          let map := close map in
          let g := addField (new_FieldMap (getOrderedFields pDD)) field in
          '(pos, g, m) ← setGroup_with (setGroup_loop fuel) m (getTag field) pos g pDD;
          setGroup_loop fuel m pos map group delim dd pDD (Some g) precedingTag false outOfOrderCandidate
        else if negb groupField then Ok (oldPos, close map, m)
        else
          match pGroup with
          | None => Ok (pos, map, m)
          | Some g =>
              let g := addField g field in
              '(pos, g, m) ← setGroup_with (setGroup_loop fuel) m (getTag field) pos g pDD;
              setGroup_loop fuel m pos map group delim dd pDD (Some g) precedingTag false outOfOrderCandidate
          end
  end.

Definition setGroup (m : Message) (field : Z) (pos : nat) (map : FieldMap) (dd : DataDictionary) :=
  setGroup_with (setGroup_loop (S (length string))) m field pos map dd.
End SetGroup.

Inductive field_type := header_type | body_type | trailer_type.

#[export] Instance field_type_eq_dec : EqDecision field_type.
Proof. solve_decision. Defined.

Definition headerOrder : list Z := [FIELD.BeginString; FIELD.BodyLength; FIELD.MsgType].

(** What the decoding loop carries from one field to the next. *)
Record decoding := mkDecoding {
  d_message : Message;
  d_pos : nat;
  d_count : nat;
  d_msgType : str;
  d_type : field_type;
  d_appDD : option DataDictionary;
  d_precedingTag : Z }.

(** One pass of the loop of [setString]. *)
Definition decode_field (string : str) (doValidation : bool) (pSessionDD : option DataDictionary) (d : decoding)
    : result decoding :=
  '(field, pos, m) ← extractField (d_message d) string (d_pos d) pSessionDD (d_appDD d) None (d_precedingTag d);
  let tag := getTag field in
  let inOrder := match headerOrder !! d_count d with Some h => h =? tag | None => true end in
  let count := if (d_count d <? 3)%nat then S (d_count d) else d_count d in
  _ ← guard_or (inOrder || negb doValidation) (InvalidMessage (lit "Header fields out of order"));
  if isHeaderField tag pSessionDD then
    let m := if bool_decide (d_type d = header_type) then m else structure_fault m tag in
    let '(msgType, appDD) :=
      if tag =? FIELD.MsgType
      then (getString field, if isAdminMsgType (getString field) then pSessionDD else d_appDD d)
      else (d_msgType d, d_appDD d) in
    let m := with_header m (appendField (m_header m) field) in
    match pSessionDD with
    | None => Ok (mkDecoding m pos count msgType (d_type d) appDD tag)
    | Some dd =>
        '(pos, h, m) ← setGroup (lit "_header_") string m tag pos (m_header m) dd;
        Ok (mkDecoding (with_header m h) pos count msgType (d_type d) appDD tag)
    end
  else if isTrailerField tag pSessionDD then
    let m := with_trailer m (appendField (m_trailer m) field) in
    match pSessionDD with
    | None => Ok (mkDecoding m pos count (d_msgType d) trailer_type (d_appDD d) tag)
    | Some dd =>
        '(pos, t, m) ← setGroup (lit "_trailer_") string m tag pos (m_trailer m) dd;
        Ok (mkDecoding (with_trailer m t) pos count (d_msgType d) trailer_type (d_appDD d) tag)
    end
  else
    let m := if bool_decide (d_type d = trailer_type) then structure_fault m tag else m in
    let m := with_body m (appendField (m_body m) field) in
    match d_appDD d with
    | None => Ok (mkDecoding m pos count (d_msgType d) body_type (d_appDD d) tag)
    | Some dd =>
        '(pos, b, m) ← setGroup (d_msgType d) string m tag pos (m_body m) dd;
        Ok (mkDecoding (with_body m b) pos count (d_msgType d) body_type (d_appDD d) tag)
    end.

Fixpoint decode_loop (fuel : nat) (string : str) (doValidation : bool) (pSessionDD : option DataDictionary)
    (d : decoding) : result decoding :=
  match fuel with
  | O => Throw OutOfFuel
  | S fuel =>
      if (length string <=? d_pos d)%nat then Ok d
      else
        d ← decode_field string doValidation pSessionDD d;
        decode_loop fuel string doValidation pSessionDD d
  end.

(** [FIELD_GET_REF(map, F)] for an [int] field. *)
Definition get_int (map : FieldMap) (tag : Z) : result Z := f ← getFieldRef map tag; IntField_valueOf f.

Definition validate_name (field : Z) : str := if field =? FIELD.BodyLength then lit "BodyLength" else lit "CheckSum".

(** [validate()]. *)
Definition validate (m : Message) : result unit :=
  let body :=
    expected ← get_int (m_header m) FIELD.BodyLength;
    let expectedLength := u64 expected in
    let receivedLength :=
      u64 (u64 (bodyLength m FIELD.BeginString FIELD.BodyLength FIELD.CheckSum) + u64 (m_embeddedSOHSkippedLength m)) in
    _ ← guard_or (expectedLength =? receivedLength)
          (InvalidMessage (lit "Expected BodyLength=" ++ integer_chars uint64_t expectedLength ++
                           lit ", Received BodyLength=" ++ integer_chars uint64_t receivedLength));
    expectedChecksum ← get_int (m_trailer m) FIELD.CheckSum;
    let receivedChecksum := Z.rem (i32 (checkSum m FIELD.CheckSum + m_embeddedSOHSkippedChecksum m)) 256 in
    guard_or (expectedChecksum =? receivedChecksum)
      (InvalidMessage (lit "Expected CheckSum=" ++ IntConvertor_convert expectedChecksum ++
                       lit ", Received CheckSum=" ++ IntConvertor_convert receivedChecksum)) in
  match body with
  | Throw (FieldNotFound field _) => Throw (InvalidMessage (validate_name field ++ lit " is missing"))
  | Throw (IncorrectDataFormat field detail) =>
      Throw (InvalidMessage (validate_name field ++ lit " has wrong format: " ++ detail))
  | r => r
  end.

(** [setString(string, doValidation, pSessionDD, pAppDD)]. *)
Definition setString (m : Message) (string : str) (doValidation : bool)
    (pSessionDD pAppDD : option DataDictionary) : result Message :=
  d ← decode_loop (S (length string)) string doValidation pSessionDD
        (mkDecoding (clearMessage m) 0 0 [] header_type pAppDD 0);
  let m := d_message d in
  let m := with_trailer (with_body (with_header m (sortFields (m_header m))) (sortFields (m_body m)))
             (sortFields (m_trailer m)) in
  _ ← (if doValidation then validate m else Ok ());
  Ok m.

(** [setStringHeader(string)]: the result, and the message. *)
Fixpoint header_loop (fuel : nat) (string : str) (m : Message) (pos count : nat) : result (bool * Message) :=
  match fuel with
  | O => Throw OutOfFuel
  | S fuel =>
      if (length string <=? pos)%nat then Ok (true, with_header m (sortFields (m_header m)))
      else
        '(field, pos, m) ← extractField m string pos None None None 0;
        let inOrder := match headerOrder !! count with Some h => h =? getTag field | None => true end in
        let count := if (count <? 3)%nat then S count else count in
        if negb inOrder then Ok (false, m)
        else if isHeaderField (getTag field) None then
          header_loop fuel string (with_header m (appendField (m_header m) field)) pos count
        else Ok (true, with_header m (sortFields (m_header m)))
  end.

Definition setStringHeader (m : Message) (string : str) : result (bool * Message) :=
  header_loop (S (length string)) string (clearMessage m) 0 0.

(** The constructors from a string. *)
Definition Message_of_string (string : str) (pSessionDD pAppDD : option DataDictionary) (doValidation : bool)
    : result Message :=
  setString new_Message string doValidation pSessionDD pAppDD.

(** [Message(headerOrder, trailerOrder, order, string, sessionDD, appDD, validate)]. *)
Definition Message_of_string_ordered (hdr trl order : message_order) (string : str)
    (sessionDD appDD : DataDictionary) (doValidation : bool) : result Message :=
  '(_, m) ← setStringHeader (Message_ordered hdr trl order) string;
  if isAdmin m then setString m string doValidation (Some sessionDD) (Some sessionDD)
  else setString m string doValidation (Some sessionDD) (Some appDD).

(** ** Routing *)

(** [if (header.getFieldIfSet(from) && value not empty) m_header.setField(to)]. *)
Definition route (source dest : FieldMap) (from to_ : Z) : FieldMap :=
  match getFieldIfSet source from with
  | Some f => match getString f with [] => dest | v => setField dest (Field to_ v) end
  | None => dest
  end.

(** Copies [from], with its cached metrics when the tag is the same object. *)
Definition route_same (source dest : FieldMap) (from : Z) : FieldMap :=
  match getFieldIfSet source from with
  | Some f => match getString f with [] => dest | _ => setField dest f end
  | None => dest
  end.

Definition reverseRoute (m : Message) (source : FieldMap) : Message :=
  let h := m_header m in
  let h := removeField h FIELD.BeginString in
  let h := removeField h FIELD.SenderCompID in
  let h := removeField h FIELD.TargetCompID in
  let h :=
    match getFieldIfSet source FIELD.BeginString with
    | None => h
    | Some beginString =>
        let h := route_same source h FIELD.BeginString in
        let h := removeField h FIELD.OnBehalfOfLocationID in
        let h := removeField h FIELD.DeliverToLocationID in
        if negb (str_ltb (getString beginString) BeginString_FIX41) then
          let h := route source h FIELD.OnBehalfOfLocationID FIELD.DeliverToLocationID in
          route source h FIELD.DeliverToLocationID FIELD.OnBehalfOfLocationID
        else h
    end in
  let h := route source h FIELD.SenderCompID FIELD.TargetCompID in
  let h := route source h FIELD.TargetCompID FIELD.SenderCompID in
  let h := removeField h FIELD.OnBehalfOfCompID in
  let h := removeField h FIELD.OnBehalfOfSubID in
  let h := removeField h FIELD.DeliverToCompID in
  let h := removeField h FIELD.DeliverToSubID in
  let h := route source h FIELD.OnBehalfOfCompID FIELD.DeliverToCompID in
  let h := route source h FIELD.OnBehalfOfSubID FIELD.DeliverToSubID in
  let h := route source h FIELD.DeliverToCompID FIELD.OnBehalfOfCompID in
  let h := route source h FIELD.DeliverToSubID FIELD.OnBehalfOfSubID in
  with_header m h.

(** ** Decoding ends

    Every pass consumes characters, so the fuel of each loop is enough. *)

Definition not_out_of_fuel {A} (r : result A) : Prop := r <> Throw OutOfFuel.

Lemma data_soh_result m string vs field dd g :
  (exists e, data_soh m string vs field dd g = Throw (InvalidMessage e)) \/
  (exists n, data_soh m string vs field dd g = Ok n /\ (vs <= n)%nat).
Proof.
  unfold data_soh. cbv zeta.
  destruct (reverse_find _ _) as [f|e]; [|eauto].
  destruct (IntT_of_string int32_t (getString f)) as [n|e]; [|eauto].
  destruct ((n <? 0) || _); [eauto|]. right. eexists. split; [done | lia].
Qed.

Lemma find_bound_range needle s i : find needle s = Some i -> needle <> [] -> (i < length s)%nat.
Proof. intros H Hne. apply find_bound in H. destruct needle; [done | simpl in H; lia]. Qed.

Lemma extractField_loop_spec fuel m string pos sdd add g prec :
  (length string - pos < fuel)%nat ->
  match extractField_loop fuel m string pos sdd add g prec with
  | Ok (_, pos', _) => (pos < pos')%nat
  | Throw e => e <> OutOfFuel
  end.
Proof.
  revert m pos. induction fuel as [|fuel IH]; intros m pos Hf; [lia|]. cbn [extractField_loop]. cbv zeta.
  destruct (find_from [SOH] string pos) as [fe|] eqn:E; [|done].
  apply find_from_Some in E as (Hfe & Hle & _). simpl in Hle.
  destruct (find (lit "=") (substr string pos (fe - pos))) as [eo|] eqn:Ee.
  - destruct (IntT_convert _ _) as [field|]; [|done].
    assert (eo < fe - pos)%nat as Heo.
    { apply (find_bound_range (lit "=")) in Ee; [|done]. unfold substr in Ee. rewrite length_take, length_drop in Ee. lia. }
    assert (exists r, (if IsDataField field sdd add then data_soh m string (pos + eo + 1) field sdd g else Ok fe) = r /\
      ((exists e, r = Throw (InvalidMessage e)) \/ exists n, r = Ok n /\ (pos < n)%nat)) as (r & -> & Hr).
    { eexists. split; [done|]. destruct (IsDataField field sdd add).
      - destruct (data_soh_result m string (pos + eo + 1) field sdd g) as [|(n & -> & Hn)]; [auto|].
        right. eexists. split; [done | lia].
      - right. eexists. split; [done | lia]. }
    destruct Hr as [[e ->] | (n & -> & Hn)]; cbn [mbind result_bind]; [done|].
    destruct (_ || _); lia.
  - destruct (Nat.leb_spec (length string) (S fe)); [done|].
    specialize (IH (add_orphan (note_embeddedSOH m prec) (S fe - pos) (substr string pos (S fe - pos)))
      (S fe) ltac:(lia)).
    destruct (extractField_loop _ _ _ _ _ _ _ _) as [[[f p] m']|]; [lia | done].
Qed.

Lemma extractField_spec m string pos sdd add g prec :
  match extractField m string pos sdd add g prec with
  | Ok (_, pos', _) => (pos < pos')%nat
  | Throw e => e <> OutOfFuel
  end.
Proof. apply extractField_loop_spec. lia. Qed.

Lemma setGroup_loop_spec msg string fuel m pos map group delim dd pDD g prec first cand :
  (length string - pos < fuel)%nat ->
  match setGroup_loop msg string fuel m pos map group delim dd pDD g prec first cand with
  | Ok (pos', _, _) => (pos <= pos')%nat
  | Throw e => e <> OutOfFuel
  end.
Proof.
  revert m pos map group delim dd pDD g prec first cand.
  induction fuel as [|fuel IH]; intros m pos map group delim dd pDD g prec first cand Hf; [lia|]. simpl.
  destruct (Nat.leb_spec (length string) pos); [done|].
  pose proof (extractField_spec m string pos (Some dd) (Some dd) g prec) as Hx.
  destruct (extractField m string pos (Some dd) (Some dd) g prec) as [[[field p] m1]|e]; [|done]. simpl.
  match goal with |- context [let '(_, _) := ?x in _] => destruct x as [cand' m2] end.
  assert (forall m (t : Z) (mp mp' : FieldMap) d prec' cand'',
    match
      '(pos, g, m) ← setGroup_with msg (setGroup_loop msg string fuel) m t p mp d;
      setGroup_loop msg string fuel m pos mp' group delim dd pDD (Some g) prec' false cand''
    with
    | Ok (pos', _, _) => (pos <= pos')%nat
    | Throw e => e <> OutOfFuel
    end) as Hrec; [|].
  { intros m3 t mp mp' d prec' cand''. unfold setGroup_with.
    destruct (getGroup msg t d) as [[dl pd]|]; simpl.
    - specialize (IH m3 p mp t dl d pd None t true 0 ltac:(lia)) as H1.
      destruct (setGroup_loop msg string fuel m3 p mp t dl d pd None t true 0) as [[[p2 g2] m4]|]; [|done]. simpl.
      specialize (IH m4 p2 mp' group delim dd pDD (Some g2) prec' false cand'' ltac:(lia)) as H2.
      destruct (setGroup_loop _ _ _ _ _ _ _ _ _ _ _ _ _ _) as [[[p3 g3] m5]|]; [lia | done].
    - specialize (IH m3 p mp' group delim dd pDD (Some mp) prec' false cand'' ltac:(lia)) as H2.
      destruct (setGroup_loop _ _ _ _ _ _ _ _ _ _ _ _ _ _) as [[[p3 g3] m5]|]; [lia | done]. }
  destruct (_ || _); [apply Hrec|]. destruct (isField (getTag field) pDD); simpl; [|done].
  destruct g as [g|]; [apply Hrec | lia].
Qed.

Lemma setGroup_spec msg string m field pos map dd :
  match setGroup msg string m field pos map dd with
  | Ok (pos', _, _) => (pos <= pos')%nat
  | Throw e => e <> OutOfFuel
  end.
Proof.
  unfold setGroup, setGroup_with. destruct (getGroup msg field dd) as [[dl pd]|]; [|done].
  apply setGroup_loop_spec. lia.
Qed.

Lemma decode_field_spec string v sdd d :
  match decode_field string v sdd d with
  | Ok d' => (d_pos d < d_pos d')%nat
  | Throw e => e <> OutOfFuel
  end.
Proof.
  unfold decode_field. pose proof (extractField_spec (d_message d) string (d_pos d) sdd (d_appDD d) None (d_precedingTag d)) as Hx.
  destruct (extractField _ _ _ _ _ _ _) as [[[field p] m]|e]; [|done]. simpl.
  destruct (guard_or _ _) as [[]|e] eqn:Eg; simpl;
    [|unfold guard_or in Eg; destruct (_ || _); [done | by injection Eg as <-]].
  assert (forall msg m tag mp dd, exists r : result (nat * FieldMap * Message), setGroup msg string m tag p mp dd = r /\ match r with Ok (pos', _, _) => (p <= pos')%nat | Throw e => e <> OutOfFuel end) as Hg.
  { intros. eexists. split; [done|]. apply setGroup_spec. }
  destruct (isHeaderField _ _); [|destruct (isTrailerField _ _)].
  - destruct (if getTag field =? FIELD.MsgType then _ else _) as [mt add].
    destruct sdd as [dd|]; [|exact Hx].
    match goal with |- context [setGroup ?a ?b ?c ?d ?e ?f ?g] => destruct (Hg a c d f g) as (r & -> & Hr) end.
    destruct r as [[[p' h] m']|]; simpl in *; [lia | done].
  - destruct sdd as [dd|]; [|exact Hx].
    match goal with |- context [setGroup ?a ?b ?c ?d ?e ?f ?g] => destruct (Hg a c d f g) as (r & -> & Hr) end.
    destruct r as [[[p' h] m']|]; simpl in *; [lia | done].
  - destruct (d_appDD d) as [dd|]; [|exact Hx].
    match goal with |- context [setGroup ?a ?b ?c ?d ?e ?f ?g] => destruct (Hg a c d f g) as (r & -> & Hr) end.
    destruct r as [[[p' h] m']|]; simpl in *; [lia | done].
Qed.

Lemma decode_loop_ends fuel string v sdd d :
  (length string - d_pos d < fuel)%nat -> decode_loop fuel string v sdd d <> Throw OutOfFuel.
Proof.
  revert d. induction fuel as [|fuel IH]; intros d Hf; [lia|]. simpl.
  destruct (Nat.leb_spec (length string) (d_pos d)); [done|].
  pose proof (decode_field_spec string v sdd d) as Hd.
  destruct (decode_field string v sdd d) as [d'|e]; simpl; [|by intros [= ->]].
  apply IH. lia.
Qed.

Lemma valueOf_not_fuel {A} (convert : str -> result A) f :
  convert (getString f) <> Throw OutOfFuel -> valueOf convert f <> Throw OutOfFuel.
Proof. unfold valueOf. by destruct (convert (getString f)) as [|[]]. Qed.

Lemma get_int_not_fuel map tag : get_int map tag <> Throw OutOfFuel.
Proof.
  unfold get_int, getFieldRef. destruct (getFieldIfSet map tag) as [f|]; simpl; [|done].
  apply valueOf_not_fuel. unfold IntT_of_string. by destruct (IntT_convert _ _).
Qed.

Lemma validate_not_fuel m : validate m <> Throw OutOfFuel.
Proof.
  unfold validate. pose proof (get_int_not_fuel (m_header m) FIELD.BodyLength) as H1.
  pose proof (get_int_not_fuel (m_trailer m) FIELD.CheckSum) as H2.
  destruct (get_int (m_header m) FIELD.BodyLength) as [x|[]]; simpl; try done.
  unfold guard_or at 1. destruct (_ =? _); simpl; [|done].
  destruct (get_int (m_trailer m) FIELD.CheckSum) as [y|[]]; simpl; try done.
  unfold guard_or. by destruct (_ =? _).
Qed.

(** ** The framing of an encoded message *)

Lemma getFixString_Field f : getFixString f = getFixString (Field (getTag f) (getString f)).
Proof. done. Qed.

(** In the header's order, fields 8 and 9 come first. *)
Lemma header_prefix fields f8 f9 :
  sorted_by (new_message_order header) fields -> tags_ok fields -> NoDup (map getTag fields) ->
  field_of fields FIELD.BeginString = Some f8 -> field_of fields FIELD.BodyLength = Some f9 ->
  exists rest, fields = f8 :: f9 :: rest /\
    Forall (fun f => getTag f <> FIELD.BeginString /\ getTag f <> FIELD.BodyLength) rest.
Proof.
  intros Hs Ht Hn H8 H9. apply field_of_tag in H8 as H8'. apply field_of_tag in H9 as H9'.
  destruct H8' as [T8 I8], H9' as [T9 I9].
  assert (forall x, header_compare 8 x = negb (x =? 8)) as C8.
  { intros x. unfold header_compare, header_position, FIELD.BeginString, FIELD.BodyLength, FIELD.MsgType. simpl.
    destruct (Z.eqb_spec x 8) as [->|]; [done|]. destruct (Z.eqb_spec x 9) as [->|]; [done|].
    by destruct (Z.eqb_spec x 35) as [->|]. }
  assert (forall x, x <> 8 -> header_compare 9 x = negb (x =? 9)) as C9.
  { intros x Hx. unfold header_compare, header_position, FIELD.BeginString, FIELD.BodyLength, FIELD.MsgType. simpl.
    destruct (Z.eqb_spec x 8) as [->|]; [done|]. destruct (Z.eqb_spec x 9) as [->|]; [done|].
    by destruct (Z.eqb_spec x 35) as [->|]. }
  unfold FIELD.BeginString, FIELD.BodyLength in *.
  destruct fields as [|f fields]; [by apply elem_of_nil in I8|].
  inversion Hs as [|? ? Hs' Hf]; subst. simpl in Hn. apply NoDup_cons in Hn as [Nf Hn].
  rewrite Forall_forall in Hf. unfold less in Hf. simpl in Hf.
  assert (f = f8) as ->.
  { apply elem_of_cons in I8 as [->|I8]; [done|]. exfalso. specialize (Hf f8 I8). rewrite T8, C8 in Hf.
    apply negb_false_iff, Z.eqb_eq in Hf. apply Nf. rewrite Hf, <- T8. by apply list_elem_of_fmap_2. }
  apply elem_of_cons in I9 as [->|I9]; [congruence|].
  destruct fields as [|g fields]; [by apply elem_of_nil in I9|].
  inversion Hs' as [|? ? Hs'' Hg]; subst. simpl in Hn. apply NoDup_cons in Hn as [Ng Hn].
  rewrite Forall_forall in Hg. unfold less in Hg. simpl in Hg.
  assert (getTag g <> 8) as G8.
  { intros E. apply Nf. rewrite T8, <- E. simpl. left. }
  assert (g = f9) as ->.
  { apply elem_of_cons in I9 as [->|I9]; [done|]. exfalso. specialize (Hg f9 I9). rewrite T9, C9 in Hg by done.
    apply negb_false_iff, Z.eqb_eq in Hg. apply Ng. rewrite Hg, <- T9. by apply list_elem_of_fmap_2. }
  exists fields. split; [done|]. apply Forall_forall. intros x Hx.
  apply (list_elem_of_fmap_2 getTag) in Hx. split; intros E; rewrite E in Hx.
  - apply Nf. rewrite T8. right. exact Hx.
  - apply Ng. rewrite T9. exact Hx.
Qed.

(** In the trailer's order, the checksum comes last. *)
Lemma trailer_suffix fields f10 :
  sorted_by (new_message_order trailer) fields -> tags_ok fields -> NoDup (map getTag fields) ->
  field_of fields FIELD.CheckSum = Some f10 ->
  exists init, fields = init ++ [f10] /\ Forall (fun f => getTag f <> FIELD.CheckSum) init.
Proof.
  intros Hs Ht Hn H10. apply field_of_tag in H10 as [T10 I10].
  destruct (last fields) as [g|] eqn:El; [|apply last_None in El; subst; by apply elem_of_nil in I10].
  pose proof (sorted_last _ (built_mode trailer) fields g Hs Ht El) as Hall.
  apply last_Some in El as [init ->]. exists init.
  rewrite map_app in Hn. apply NoDup_app in Hn as (_ & Hd & _).
  assert (f10 = g) as ->.
  { apply elem_of_app in I10 as [I10|I10]; [|by apply list_elem_of_singleton in I10].
    exfalso. rewrite Forall_forall in Hall. pose proof (Hall f10 ltac:(apply elem_of_app; by left)) as E.
    unfold less in E. simpl in E. unfold trailer_compare in E. rewrite T10 in E. rewrite Z.eqb_refl in E.
    destruct (Z.eqb_spec (getTag g) FIELD.CheckSum) as [Eg|]; [|done].
    apply (Hd (getTag f10)); [by apply list_elem_of_fmap_2|]. rewrite T10, <- Eg. simpl. left. }
  split; [done|]. apply Forall_forall. intros x Hx E.
  apply (Hd (getTag x)); [by apply list_elem_of_fmap_2|]. rewrite E, <- T10. simpl. left.
Qed.

(** The string of some of the fields of a map. *)
Definition strings_of (m : FieldMap) (fields : list FieldBase) : str :=
  calculateString (mkFieldMap fields (m_groups m) (m_order m)).

Lemma strings_of_app m l1 l2 : strings_of m (l1 ++ l2) = strings_of m l1 ++ strings_of m l2.
Proof. unfold strings_of. cbn [calculateString m_groups]. by rewrite map_app, concat_app. Qed.

Lemma strings_of_single m f : groupsOf m (getTag f) = None -> strings_of m [f] = getFixString f.
Proof.
  intros H. unfold strings_of. cbn [calculateString m_groups map concat]. rewrite app_nil_r.
  rewrite map_lookup_fmap. unfold groupsOf in H. rewrite H. simpl. by rewrite app_nil_r.
Qed.

Lemma strings_of_all m : strings_of m (m_fields m) = calculateString m.
Proof. by destruct m. Qed.

(** Setting a field that a sum skips does not change the sum. *)
Lemma Zsum_skip (w : FieldBase -> Z) m f :
  (forall g, getTag g = getTag f -> w g = 0) -> wf m -> tag (getTag f) ->
  Zsum (map w (m_fields (setField m f))) = Zsum (map w (m_fields m)).
Proof.
  intros Hw Hm Hf. unfold setField, setField_overwrite. cbn [negb].
  destruct (findTag m (getTag f)) as [i|] eqn:E.
  - rewrite findTag_wf in E by done. unfold with_fields. cbn [m_fields]. revert i E.
    induction (m_fields m) as [|g fields IH]; intros i; simpl; [done|].
    destruct (Z.eqb_spec (getTag f) (getTag g)) as [Eg|].
    + intros [= <-]. unfold Zsum. simpl. rewrite !Hw; done.
    + destruct (find_index _ fields) as [k|]; simpl; intros [= <-].
      change (alter (fun f0 => Field.setString f0 (getString f)) (S k) (g :: fields))
        with (g :: alter (fun f0 => Field.setString f0 (getString f)) k fields).
      unfold Zsum in *. simpl. rewrite (IH k eq_refl). done.
  - pose proof Hm as (Ho & (Hs & Ht & _) & _)%wf_eq.
    rewrite (eta_FieldMap m) at 1. rewrite addField_eq by done. cbn [m_fields].
    clear Hs Ht E. induction (m_fields m) as [|g fields IH]; simpl.
    + unfold Zsum. simpl. by rewrite Hw.
    + destruct (less _ _ _); unfold Zsum in *; simpl; [by rewrite (Hw f)|]. by rewrite IH.
Qed.

Lemma setField_groups m f : m_groups (setField m f) = m_groups m.
Proof. unfold setField, setField_overwrite. cbn [negb]. by destruct (findTag m (getTag f)). Qed.

Lemma setField_order m f : m_order (setField m f) = m_order m.
Proof. unfold setField, setField_overwrite. cbn [negb]. by destruct (findTag m (getTag f)). Qed.

Lemma length_sum_unfold m b l c :
  length_sum m b l c =
    Zsum (map (fun field => if negb (getTag field =? b) && negb (getTag field =? l) && negb (getTag field =? c)
                            then len (getFixString field) else 0) (m_fields m)) +
    Zsum (map (fun '(_, gs) => Zsum (map (fun g => length_sum g FIELD.BeginString FIELD.BodyLength FIELD.CheckSum) gs))
           (m_groups m)).
Proof. by destruct m. Qed.

Lemma total_sum_unfold m c :
  total_sum m c =
    Zsum (map (fun field => if negb (getTag field =? c) then byte_sum (getFixString field) else 0) (m_fields m)) +
    Zsum (map (fun '(_, gs) => Zsum (map (fun g => total_sum g FIELD.CheckSum) gs)) (m_groups m)).
Proof. by destruct m. Qed.

Lemma length_sum_setField m f b l c :
  wf m -> tag (getTag f) -> getTag f = b \/ getTag f = l \/ getTag f = c ->
  length_sum (setField m f) b l c = length_sum m b l c.
Proof.
  intros Hm Hf Ht. rewrite !length_sum_unfold, setField_groups. f_equal.
  apply Zsum_skip; [|done|done]. intros g ->.
  destruct Ht as [->|[->| ->]]; rewrite Z.eqb_refl; simpl; by rewrite ?andb_false_r.
Qed.

Lemma total_sum_setField m f : wf m -> tag (getTag f) -> total_sum (setField m f) (getTag f) = total_sum m (getTag f).
Proof.
  intros Hm Hf. rewrite !total_sum_unfold, setField_groups. f_equal.
  apply Zsum_skip; [|done|done]. intros g ->. by rewrite Z.eqb_refl.
Qed.

(** A message that is ready to be encoded: the usual orders, well-formed and
    counted maps, a BeginString, framing fields only where they belong, and less
    than eight megabytes, so that the sum of its bytes fits an [int]. *)
Record sendable (m : Message) : Prop := {
  sd_wf_h : wf (m_header m);
  sd_wf_b : wf (m_body m);
  sd_wf_t : wf (m_trailer m);
  sd_order_h : m_order (m_header m) = new_message_order header;
  sd_order_t : m_order (m_trailer m) = new_message_order trailer;
  sd_counted_h : counted (m_header m);
  sd_counted_b : counted (m_body m);
  sd_counted_t : counted (m_trailer m);
  sd_groups : forall f, f = m_header m \/ f = m_body m \/ f = m_trailer m ->
    Forall (fun p => framing (fst p) = false /\ Forall (fun g => encodable g /\ body_fields g) (snd p)) (m_groups f);
  sd_begin : isSetField (m_header m) FIELD.BeginString = true;
  sd_header_sum : isSetField (m_header m) FIELD.CheckSum = false;
  sd_body : body_fields (m_body m);
  sd_trailer : Forall (fun f => getTag f <> FIELD.BeginString /\ getTag f <> FIELD.BodyLength) (m_fields (m_trailer m));
  sd_size : len (calculateString (m_header m)) + len (calculateString (m_body m)) + len (calculateString (m_trailer m)) <
              2 ^ 23 }.

Lemma groupsOf_framing m t :
  Forall (fun p => framing (fst p) = false /\ Forall (fun g => encodable g /\ body_fields g) (snd p)) (m_groups m) ->
  framing t = true -> groupsOf m t = None.
Proof.
  intros H Ht. unfold groupsOf. destruct (map_lookup t (m_groups m)) as [gs|] eqn:E; [|done].
  apply map_lookup_Some in E. rewrite Forall_forall in H. destruct (H _ E) as [Hf _]. simpl in Hf. congruence.
Qed.

Lemma groups_encodable m :
  Forall (fun p => framing (fst p) = false /\ Forall (fun g => encodable g /\ body_fields g) (snd p)) (m_groups m) ->
  Forall (fun p => Forall (fun g => encodable g /\ body_fields g) (snd p)) (m_groups m).
Proof. intros H. eapply Forall_impl; [exact H|]. simpl. tauto. Qed.

(** Setting a framing field keeps a map encodable. *)
Lemma encodable_setField m f :
  wf m -> counted m ->
  Forall (fun p => framing (fst p) = false /\ Forall (fun g => encodable g /\ body_fields g) (snd p)) (m_groups m) ->
  tag (getTag f) -> field_ok f -> framing (getTag f) = true -> encodable (setField m f).
Proof.
  intros Hm Hc Hg Hf Hok Hfr. apply counted_encodable.
  - by apply wf_setField.
  - apply counted_setField; try done. intros gs E. rewrite groupsOf_framing in E; done.
  - rewrite setField_groups. by apply groups_encodable.
Qed.

Lemma field_of_not_set m t : wf m -> tag t -> isSetField m t = false -> Forall (fun f => getTag f <> t) (m_fields m).
Proof.
  intros Hm Ht H. rewrite isSetField_wf in H by done. destruct (field_of _ _) eqn:E; [done|].
  apply field_of_None in E. apply Forall_forall. intros f Hf <-. apply E. by apply list_elem_of_fmap_2.
Qed.

Lemma len_nonneg s : 0 <= len s.
Proof. unfold len. lia. Qed.

(** The header: its two framing fields, then what [calculateLength] counts. *)
Lemma header_layout h n :
  wf h -> m_order h = new_message_order header -> counted h ->
  Forall (fun p => framing (fst p) = false /\ Forall (fun g => encodable g /\ body_fields g) (snd p)) (m_groups h) ->
  isSetField h FIELD.BeginString = true -> isSetField h FIELD.CheckSum = false ->
  let h' := setField h (IntField FIELD.BodyLength n) in
  exists begin rest,
    calculateString h' = getFixString (Field FIELD.BeginString begin) ++
                         getFixString (Field FIELD.BodyLength (IntConvertor_convert n)) ++ rest /\
    len rest = length_sum h FIELD.BeginString FIELD.BodyLength FIELD.CheckSum /\
    total_sum h' FIELD.CheckSum = byte_sum (calculateString h') /\
    getString <$> field_of (m_fields h) FIELD.BeginString = Some begin /\
    len (getFixString (Field FIELD.BeginString begin)) + len rest <= len (calculateString h).
Proof.
  intros Hm Ho Hc Hg H8 H10 h'.
  set (f9 := IntField FIELD.BodyLength n) in *.
  assert (tag (getTag f9)) as T9 by by_compute.
  assert (field_ok f9) as O9 by (apply Field_ok; reflexivity).
  pose proof (wf_setField h f9 Hm T9 O9) as Hm'. fold h' in Hm'.
  pose proof (unique_setField h f9 Hm T9 (proj1 Hc)) as Hu'. fold h' in Hu'.
  pose proof Hm' as (_ & (Hs' & Ht' & Hok') & _)%wf_eq. 
  assert (m_order h' = new_message_order header) as Ho' by (unfold h'; by rewrite setField_order).
  rewrite Ho' in Hs'.
  rewrite isSetField_wf in H8 by (done || by_compute).
  destruct (field_of (m_fields h) FIELD.BeginString) as [f8|] eqn:E8; [|done]. clear H8.
  assert (field_of (m_fields h') FIELD.BeginString = Some f8) as E8'.
  { unfold h'. rewrite field_of_setField by (done || by_compute). exact E8. }
  assert (exists g9, field_of (m_fields h') FIELD.BodyLength = Some g9 /\
    getFixString g9 = getFixString (Field FIELD.BodyLength (IntConvertor_convert n))) as (g9 & E9 & S9).
  { unfold h'. rewrite field_of_setField by (done || by_compute). simpl.
    eexists. split; [done|]. destruct (field_of (m_fields h) FIELD.BodyLength) as [g|] eqn:Eg; [|done].
    apply field_of_tag in Eg as [Eg _]. unfold Field.setString, getFixString, appendTo. simpl. unfold getTag in Eg. by rewrite Eg. }
  destruct (header_prefix _ f8 g9 Hs' Ht' Hu' E8' E9) as (rest & Hfields & Hrest).
  assert (m_groups h' = m_groups h) as Egr by (unfold h'; apply setField_groups).
  assert (encodable h') as He.
  { unfold h'. by apply encodable_setField. }
  exists (getString f8), (strings_of h' rest).
  pose proof (field_of_tag _ _ _ E8') as [T8 _]. pose proof (field_of_tag _ _ _ E9) as [Tg9 _].
  assert (forall t, framing t = true -> groupsOf h' t = None) as Hng.
  { intros t Ht. apply groupsOf_framing; [by rewrite Egr | done]. }
  assert (calculateString h' = getFixString (Field FIELD.BeginString (getString f8)) ++
    getFixString (Field FIELD.BodyLength (IntConvertor_convert n)) ++ strings_of h' rest) as Estr.
  { rewrite <- strings_of_all, Hfields.
    change (f8 :: g9 :: rest) with ([f8] ++ [g9] ++ rest). rewrite !strings_of_app.
    rewrite !strings_of_single by (rewrite ?T8, ?Tg9; by apply Hng). rewrite S9.
    rewrite (getFixString_Field f8), T8. done. }
  split; [done|].
  assert (Forall (fun f => getTag f <> FIELD.CheckSum) (m_fields h')) as N10.
  { apply field_of_not_set; [done | by_compute |].
    rewrite isSetField_wf in * by (done || by_compute). unfold h'.
    rewrite field_of_setField by (done || by_compute). exact H10. }
  assert (len (strings_of h' rest) = length_sum h FIELD.BeginString FIELD.BodyLength FIELD.CheckSum) as Elen.
  { rewrite <- (length_sum_setField h f9) by (done || tauto). fold h'.
    pose proof (length_sum_eq h' FIELD.BeginString FIELD.BodyLength FIELD.CheckSum He) as HL.
    rewrite Estr, !len_app in HL. rewrite Hfields in HL. unfold excluded, Zsum in HL. cbn [map fold_right] in HL.
    rewrite T8, Tg9 in HL. rewrite !Z.eqb_refl, ?orb_true_r in HL. cbn [orb] in HL.
    rewrite S9, (getFixString_Field f8), T8 in HL.
    fold (Zsum (map (fun f => if (getTag f =? FIELD.BeginString) || (getTag f =? FIELD.BodyLength) ||
      (getTag f =? FIELD.CheckSum) then len (getFixString f) else 0) rest)) in HL.
    fold (excluded len (fun t => (t =? FIELD.BeginString) || (t =? FIELD.BodyLength) || (t =? FIELD.CheckSum)) rest) in HL.
    rewrite excluded_none in HL; [lia|].
    rewrite Hfields in N10. apply Forall_cons in N10 as [_ N10]. apply Forall_cons in N10 as [_ N10].
    rewrite Forall_forall in *. intros f Hf. destruct (Hrest f Hf) as [A B]. specialize (N10 f Hf).
    rewrite !(proj2 (Z.eqb_neq _ _)) by done. done. }
  split_and!; [done | | done |].
  - rewrite <- (total_sum_eq h' FIELD.CheckSum He). rewrite excluded_none; [lia|].
    eapply Forall_impl; [exact N10|]. simpl. intros f Hf. by apply Z.eqb_neq.
  - rewrite Elen, <- (length_sum_eq h FIELD.BeginString FIELD.BodyLength FIELD.CheckSum) by (apply counted_encodable; auto using groups_encodable).
    apply field_of_tag in E8 as [T8' Hin].
    pose proof (excluded_elem len (fun t => (t =? FIELD.BeginString) || (t =? FIELD.BodyLength) || (t =? FIELD.CheckSum))
      (m_fields h) f8 len_nonneg Hin) as Hb.
    rewrite (getFixString_Field f8), T8 in Hb. specialize (Hb eq_refl). lia.
Qed.

(** The trailer: what [calculateLength] counts, then the checksum. *)
Lemma trailer_layout t v :
  wf t -> m_order t = new_message_order trailer -> counted t ->
  Forall (fun p => framing (fst p) = false /\ Forall (fun g => encodable g /\ body_fields g) (snd p)) (m_groups t) ->
  Forall (fun f => getTag f <> FIELD.BeginString /\ getTag f <> FIELD.BodyLength) (m_fields t) ->
  let t' := setField t (Field FIELD.CheckSum v) in
  exists rest,
    calculateString t' = rest ++ getFixString (Field FIELD.CheckSum v) /\
    len rest = length_sum t FIELD.BeginString FIELD.BodyLength FIELD.CheckSum /\
    total_sum t FIELD.CheckSum = byte_sum rest.
Proof.
  intros Hm Ho Hc Hg Hn t'. set (f10 := Field FIELD.CheckSum v) in *.
  assert (tag (getTag f10)) as T10 by by_compute.
  assert (field_ok f10) as O10 by (apply Field_ok; reflexivity).
  pose proof (wf_setField t f10 Hm T10 O10) as Hm'. fold t' in Hm'.
  pose proof (unique_setField t f10 Hm T10 (proj1 Hc)) as Hu'. fold t' in Hu'.
  pose proof Hm' as (_ & (Hs' & Ht' & _) & _)%wf_eq.
  assert (m_order t' = new_message_order trailer) as Ho' by (unfold t'; by rewrite setField_order).
  rewrite Ho' in Hs'.
  assert (exists g10, field_of (m_fields t') FIELD.CheckSum = Some g10 /\ getFixString g10 = getFixString f10) as (g10 & E10 & S10).
  { unfold t'. rewrite field_of_setField by (done || by_compute). simpl.
    eexists. split; [done|]. destruct (field_of (m_fields t) FIELD.CheckSum) as [g|] eqn:Eg; [|done].
    apply field_of_tag in Eg as [Eg _]. unfold Field.setString, getFixString, appendTo. simpl. unfold getTag in Eg. by rewrite Eg. }
  destruct (trailer_suffix _ g10 Hs' Ht' Hu' E10) as (init & Hfields & Hinit).
  assert (m_groups t' = m_groups t) as Egr by (unfold t'; apply setField_groups).
  assert (encodable t') as He by (unfold t'; by apply encodable_setField).
  pose proof (field_of_tag _ _ _ E10) as [Tg _].
  exists (strings_of t' init).
  assert (calculateString t' = strings_of t' init ++ getFixString f10) as Estr.
  { rewrite <- strings_of_all, Hfields, strings_of_app. rewrite (strings_of_single t' g10); [by rewrite S10|].
    rewrite Tg. apply groupsOf_framing; [by rewrite Egr | done]. }
  split; [done|].
  assert (Forall (fun f => getTag f <> FIELD.BeginString /\ getTag f <> FIELD.BodyLength) init) as Hi.
  { apply Forall_forall. intros f Hf.
    assert (exists f0, f0 ∈ m_fields t /\ getTag f0 = getTag f) as (f0 & Hf0 & E0).
    { destruct (decide (getTag f = FIELD.CheckSum)) as [E|E]; [rewrite Forall_forall in Hinit; by destruct (Hinit f Hf)|].
      assert (field_of (m_fields t') (getTag f) <> None) as Hs.
      { rewrite field_of_None. intros Hx. apply Hx. apply list_elem_of_fmap_2. rewrite Hfields. apply elem_of_app. by left. }
      assert (tag (getTag f)) as Htf.
      { unfold tags_ok in Ht'. rewrite Hfields in Ht'. apply Forall_app in Ht' as [Ht' _]. rewrite Forall_forall in Ht'. by apply Ht'. }
      unfold t' in Hs. rewrite field_of_setField in Hs by done.
      rewrite (proj2 (Z.eqb_neq _ _)) in Hs by done.
      destruct (field_of (m_fields t) (getTag f)) as [f0|] eqn:Ef; [|done].
      apply field_of_tag in Ef as [Ef Hin]. eauto. }
    rewrite Forall_forall in Hn. rewrite <- E0. by apply Hn. }
  split.
  - rewrite <- (length_sum_setField t f10) by (done || tauto). fold t'.
    pose proof (length_sum_eq t' FIELD.BeginString FIELD.BodyLength FIELD.CheckSum He) as HL.
    rewrite Estr, len_app, Hfields in HL. unfold excluded in HL. rewrite map_app in HL. unfold Zsum in HL.
    rewrite fold_right_app in HL. cbn [map fold_right] in HL. rewrite Tg, Z.eqb_refl, orb_true_r, S10 in HL.
    rewrite Zsum_acc in HL.
    fold (excluded len (fun t => (t =? FIELD.BeginString) || (t =? FIELD.BodyLength) || (t =? FIELD.CheckSum)) init) in HL.
    rewrite excluded_none in HL; [lia|].
    rewrite Forall_forall in *. intros f Hf. destruct (Hi f Hf) as [A B]. specialize (Hinit f Hf).
    rewrite !(proj2 (Z.eqb_neq _ _)) by done. done.
  - pose proof (total_sum_setField t f10 Hm T10) as E. change (getTag f10) with FIELD.CheckSum in E.
    rewrite <- E. fold t'. pose proof (total_sum_eq t' FIELD.CheckSum He) as HL.
    rewrite Estr, byte_sum_app, Hfields in HL. unfold excluded in HL. rewrite map_app in HL. unfold Zsum in HL.
    rewrite fold_right_app in HL. cbn [map fold_right] in HL. rewrite Tg, Z.eqb_refl, S10 in HL.
    rewrite Zsum_acc in HL. fold (excluded byte_sum (fun t => t =? FIELD.CheckSum) init) in HL.
    rewrite excluded_none in HL; [lia|].
    eapply Forall_impl; [exact Hinit|]. simpl. intros f Hf. by apply Z.eqb_neq.
Qed.

Lemma body_layout b :
  wf b -> counted b ->
  Forall (fun p => framing (fst p) = false /\ Forall (fun g => encodable g /\ body_fields g) (snd p)) (m_groups b) ->
  body_fields b ->
  len (calculateString b) = length_sum b FIELD.BeginString FIELD.BodyLength FIELD.CheckSum /\
  total_sum b FIELD.CheckSum = byte_sum (calculateString b).
Proof.
  intros Hm Hc Hg Hb. assert (encodable b) as He by (apply counted_encodable; auto using groups_encodable).
  rewrite <- (length_sum_eq b FIELD.BeginString FIELD.BodyLength FIELD.CheckSum He).
  rewrite <- (total_sum_eq b FIELD.CheckSum He). split.
  - rewrite excluded_none; [lia | exact Hb].
  - rewrite (excluded_weaken _ framing); [lia | | exact Hb]. intros t. unfold framing. intros ->. by rewrite orb_true_r.
Qed.

(** The sum of the bytes of a sendable message stays far below 2^31. *)
Lemma sendable_encodable m f :
  sendable m -> f = m_header m \/ f = m_body m \/ f = m_trailer m -> encodable f.
Proof.
  intros Hm Hf. pose proof (sd_groups m Hm f Hf) as Hg. destruct Hm.
  destruct Hf as [->|[->| ->]]; apply counted_encodable; auto using groups_encodable.
Qed.

Lemma BodyLength_field_bound n :
  0 <= n < 2 ^ 31 -> len (getFixString (Field FIELD.BodyLength (IntConvertor_convert n))) <= 14.
Proof.
  intros Hb. assert (in_range int32_t n = true) as Hn.
  { apply andb_true_iff. unfold VALUE_MIN, VALUE_MAX. simpl. rewrite !Z.leb_le. lia. }
  rewrite getFixString_eq. cbn [Field m_tag m_string]. change (tag_text FIELD.BodyLength) with (lit "9").
  rewrite !len_app. unfold IntConvertor_convert. pose proof (integer_chars_length int32_t n engine_int32 Hn) as H.
  change (digits10 int32_t + 2)%nat with 11%nat in H. unfold len. simpl. lia.
Qed.

Lemma length_sum_bound m b l c : encodable m -> length_sum m b l c <= len (calculateString m).
Proof.
  intros He. rewrite <- (length_sum_eq m b l c He).
  pose proof (excluded_nonneg len (fun t => (t =? b) || (t =? l) || (t =? c)) (m_fields m) len_nonneg). lia.
Qed.

Lemma i32_sum3 a b c : i32 (i32 (i32 a + i32 b) + i32 c) = i32 (a + b + c).
Proof. by rewrite i32_add_r, (i32_add_l a), i32_add_r, i32_add_l. Qed.

Lemma sendable_bodyLength m :
  sendable m ->
  bodyLength m FIELD.BeginString FIELD.BodyLength FIELD.CheckSum =
    length_sum (m_header m) FIELD.BeginString FIELD.BodyLength FIELD.CheckSum +
    length_sum (m_body m) FIELD.BeginString FIELD.BodyLength FIELD.CheckSum +
    length_sum (m_trailer m) FIELD.BeginString FIELD.BodyLength FIELD.CheckSum /\
  0 <= bodyLength m FIELD.BeginString FIELD.BodyLength FIELD.CheckSum < 2 ^ 23.
Proof.
  intros Hm. pose proof (sd_size m Hm) as Hsize. pose proof (sendable_encodable m (m_header m) Hm ltac:(tauto)) as Eh.
  pose proof (sendable_encodable m (m_body m) Hm ltac:(tauto)) as Eb.
  pose proof (sendable_encodable m (m_trailer m) Hm ltac:(tauto)) as Et.
  unfold bodyLength. rewrite !calculateLength_i32, i32_sum3 by done.
  repeat match goal with |- context [length_sum ?m ?b ?l ?c] =>
    pose proof (length_sum_bound m b l c ltac:(done)); pose proof (length_sum_nonneg m b l c);
    generalize dependent (length_sum m b l c); intros end.
  rewrite i32_small by lia. lia.
Qed.

Lemma checkSum_exact m c total :
  encodable (m_header m) -> encodable (m_body m) -> encodable (m_trailer m) ->
  total = total_sum (m_header m) c + total_sum (m_body m) c + total_sum (m_trailer m) c -> total < 2 ^ 31 ->
  checkSum m c = total mod 256.
Proof.
  intros Eh Eb Et -> Hs. unfold checkSum.
  rewrite !calculateTotal_i32, i32_sum3 by done.
  pose proof (total_sum_nonneg (m_header m) c). pose proof (total_sum_nonneg (m_body m) c).
  pose proof (total_sum_nonneg (m_trailer m) c). rewrite i32_small by lia. apply Z.rem_mod_nonneg; lia.
Qed.

Lemma toString_layout m :
  sendable m ->
  exists begin mid cks m',
    let n := len mid in
    let head := getFixString (Field FIELD.BeginString begin) ++
                getFixString (Field FIELD.BodyLength (IntConvertor_convert n)) ++ mid in
    toString_default m = Ok (head ++ getFixString (Field FIELD.CheckSum cks), m') /\
    length cks = 3%nat /\ all_digits cks = true /\ dec cks = byte_sum head mod 256 /\
    n = bodyLength m FIELD.BeginString FIELD.BodyLength FIELD.CheckSum /\
    m_header m' = setField (m_header m) (IntField FIELD.BodyLength n) /\
    m_body m' = m_body m /\
    m_trailer m' = setField (m_trailer m) (Field FIELD.CheckSum cks) /\
    CheckSumConvertor_of_string cks = Ok (byte_sum head mod 256) /\
    checkSum m' FIELD.CheckSum = byte_sum head mod 256 /\
    getString <$> field_of (m_fields (m_header m)) FIELD.BeginString = Some begin.
Proof.
  intros Hs. pose proof (sendable_bodyLength m Hs) as [En0 Hn0].
  pose proof (fun f => sendable_encodable m f Hs) as Henc. pose proof Hs as Hm.
  destruct Hm as [Wh Wb Wt Oh Ot Ch Cb Ct Hgs H8 H10 Hb Ht Hsize].
  set (n := bodyLength m FIELD.BeginString FIELD.BodyLength FIELD.CheckSum) in *.
  destruct (header_layout (m_header m) n Wh Oh Ch (Hgs _ (or_introl eq_refl)) H8 H10) as (begin & rh & Eh & Lh & Sh & E8b & Bh).
  destruct (body_layout (m_body m) Wb Cb (Hgs _ (or_intror (or_introl eq_refl))) Hb) as [Lb Sb].
  pose proof (trailer_layout (m_trailer m)) as HT.
  set (h' := setField (m_header m) (IntField FIELD.BodyLength n)) in *.
  pose proof (fun v => HT v Wt Ot Ct (Hgs _ (or_intror (or_intror eq_refl))) Ht) as HT'. clear HT. cbv zeta in HT'.
  destruct (HT' []) as (rt0 & _ & Lt & St).
  assert (n = len rh + len (calculateString (m_body m)) + len rt0) as En.
  { rewrite Lh, Lb, Lt. done. }
  assert (i32 (u64 n) = n) as Ei by (rewrite u64_small, i32_small; lia).
  set (total := byte_sum (calculateString h') + byte_sum (calculateString (m_body m)) + total_sum (m_trailer m) FIELD.CheckSum).
  assert (total < 2 ^ 31) as Htot.
  { unfold total. rewrite St, Eh, !byte_sum_app.
    pose proof (BodyLength_field_bound n ltac:(lia)).
    pose proof (length_sum_bound (m_trailer m) FIELD.BeginString FIELD.BodyLength FIELD.CheckSum ltac:(apply Henc; auto)).
    pose proof (byte_sum_bound (getFixString (Field FIELD.BeginString begin))).
    pose proof (byte_sum_bound (getFixString (Field FIELD.BodyLength (IntConvertor_convert n)))).
    pose proof (byte_sum_bound rh). pose proof (byte_sum_bound (calculateString (m_body m))).
    pose proof (byte_sum_bound rt0). unfold len in *. lia. }
  assert (encodable h' /\ encodable (m_body m) /\ encodable (m_trailer m)) as (Ench & Encb & Enct).
  { split_and!; [|by apply Henc; auto..].
    apply (encodable_setField (m_header m) _ Wh Ch (Hgs _ (or_introl eq_refl))); [by_compute | by apply Field_ok | done]. }
  assert (0 <= total mod 256 <= 255) as Hmod by (pose proof (Z.mod_pos_bound total 256); lia).
  destruct (proj1 (CheckSumConvertor_eq (total mod 256)) Hmod) as (cks & Ecks & L3 & D3 & V3 & P3).
  destruct (HT' cks) as (rt & Et & Lt' & St').
  exists begin, (rh ++ calculateString (m_body m) ++ rt), cks,
    (with_trailer (with_header m h') (setField (m_trailer m) (Field FIELD.CheckSum cks))).
  assert (len (rh ++ calculateString (m_body m) ++ rt) = n) as Emid.
  { rewrite !len_app, En. lia. }
  rewrite Emid. 
  assert (byte_sum (getFixString (Field FIELD.BeginString begin) ++
    getFixString (Field FIELD.BodyLength (IntConvertor_convert n)) ++ rh ++ calculateString (m_body m) ++ rt) = total) as Esum.
  { unfold total. rewrite Eh, St'. rewrite !byte_sum_app. lia. }
  cbv zeta. rewrite Esum. split_and!; try done; cycle 1.
  { pose proof (total_sum_setField (m_trailer m) (Field FIELD.CheckSum cks) Wt ltac:(by_compute)) as E10.
    apply checkSum_exact; cbn [m_header m_body m_trailer with_header with_trailer]; try done.
    - apply (encodable_setField (m_trailer m) _ Wt Ct (Hgs _ (or_intror (or_intror eq_refl)))); [by_compute | by apply Field_ok | done].
    - cbn [Field getTag Field.m_tag] in E10. rewrite E10, Sh, Sb. done. }
  unfold toString_default, toString. fold n. rewrite Ei. fold h'.
  rewrite (checkSum_exact _ FIELD.CheckSum total); cbn [m_header m_body m_trailer with_header]; try done;
    [|by rewrite Sh, Sb].
  unfold CheckSumField. rewrite Ecks. cbn [fmap result_fmap mbind result_bind].
  cbn [m_header m_body m_trailer with_header with_trailer]. do 2 f_equal. rewrite Eh, Et, <- !app_assoc. done.
Qed.

(** ** Properties *)

(** C33 The framing of an encoded message: BeginString, BodyLength, the rest, and
    CheckSum last; BodyLength is the number of bytes after its own field and
    before the CheckSum field, and CheckSum is three digits with the sum of all
    bytes before it modulo 256, whatever groups the message has. The message is
    below eight megabytes ([sendable]), so the [int]s that count its bytes and add
    them up do not wrap around. *)
Theorem toString_framing m :
  sendable m ->
  exists begin mid cks m',
    let head := getFixString (Field FIELD.BeginString begin) ++
                getFixString (Field FIELD.BodyLength (IntConvertor_convert (len mid))) ++ mid in
    toString_default m = Ok (head ++ getFixString (Field FIELD.CheckSum cks), m') /\
    length cks = 3%nat /\ all_digits cks = true /\ dec cks = byte_sum head mod 256.
Proof.
  intros Hm. destruct (toString_layout m Hm) as (begin & mid & cks & m' & H1 & H2 & H3 & H4 & _).
  exists begin, mid, cks, m'. done.
Qed.

(** C34 Decoding a string ends: every pass of its loops consumes characters. *)
Theorem setString_terminates m string doValidation pSessionDD pAppDD :
  setString m string doValidation pSessionDD pAppDD <> Throw OutOfFuel.
Proof.
  unfold setString.
  pose proof (decode_loop_ends (S (length string)) string doValidation pSessionDD
    (mkDecoding (clearMessage m) 0 0 [] header_type pAppDD 0) ltac:(simpl; lia)) as H.
  destruct (decode_loop _ _ _ _ _) as [d|e]; simpl; [|congruence].
  match goal with |- context [validate ?m] => pose proof (validate_not_fuel m) as Hv; destruct doValidation end; [|done].
  destruct (validate _) as [|e]; simpl in *; congruence.
Qed.

(** A small order, as an application builds it. *)
Definition sample_header : FieldMap :=
  setField_tag (setField_tag (setField_tag (new_FieldMap (new_message_order header)) 49 (lit "CLIENT")) 35 (lit "D"))
    8 (lit "FIX.4.4").
Definition sample_body : FieldMap :=
  addGroup (setField_tag (new_FieldMap (new_message_order normal)) 55 (lit "MSFT")) 453 two_party true.
Definition sample : Message := with_body (with_header new_Message sample_header) sample_body.

Lemma two_party_ok : wf two_party /\ encodable two_party /\ body_fields two_party.
Proof.
  assert (wf two_party) as Hw by (repeat apply wf_setField_tag; by_compute || apply wf_new, built_mode).
  split; [done|]. split; [|unfold body_fields; by_compute].
  apply encodable_eq. simpl. repeat (constructor || by_compute || done).
Qed.

Lemma counted_setField_tag m t v : wf m -> tag t -> counted m -> groupsOf m t = None -> counted (setField_tag m t v).
Proof. intros Hm Ht Hc Hg. apply counted_setField; try done. intros gs E. simpl in E. congruence. Qed.

Lemma sample_sendable : sendable sample.
Proof.
  pose proof two_party_ok as (Hp & Ep & Bp).
  assert (forall mode, wf (new_FieldMap (new_message_order mode))) as Hnew by (intros; apply wf_new, built_mode).
  assert (wf sample_header) as Wh by (repeat apply wf_setField_tag; by_compute || apply Hnew).
  assert (counted sample_header) as Ch
    by (repeat (apply counted_setField_tag || apply wf_setField_tag); by_compute || apply Hnew || apply counted_new).
  assert (wf (setField_tag (new_FieldMap (new_message_order normal)) 55 (lit "MSFT"))) as W55
    by (apply wf_setField_tag; by_compute || apply Hnew).
  split; try done.
  - apply wf_addGroup; done || by_compute.
  - apply Hnew.
  - apply counted_addGroup; try (done || by_compute).
    apply counted_setField_tag; by_compute || apply Hnew || apply counted_new.
  - apply counted_new.
  - intros f [->|[->| ->]]; [constructor | | constructor].
    assert (m_groups (m_body sample) = [(453, [two_party])]) as -> by reflexivity.
    constructor; [|constructor]. simpl. split; [reflexivity|]. by constructor.
  - unfold body_fields. by_compute.
Qed.

Lemma toString_framing_witness :
  exists begin mid cks m',
    let head := getFixString (Field FIELD.BeginString begin) ++
                getFixString (Field FIELD.BodyLength (IntConvertor_convert (len mid))) ++ mid in
    toString_default sample = Ok (head ++ getFixString (Field FIELD.CheckSum cks), m') /\
    length cks = 3%nat /\ all_digits cks = true /\ dec cks = byte_sum head mod 256.
Proof. exact (toString_framing sample sample_sendable). Defined.

(** ** Bytes that are stepped over while a group is read

    A dictionary with the group 453 of message D. *)
Definition sample_dictionary : DataDictionary :=
  adoptGroup (lit "D") 453 448 (dd_addField 447 (dd_addField 448 new_DataDictionary)) new_DataDictionary.

Definition pipes (s : string) : str := map (fun c => if bool_decide (c = "|"%char) then SOH else c) (lit s).

(** A correctly framed message whose field 58 has a leading zero is accepted
    without the dictionary; with it, the field is read twice (once to end the
    group, then again), its extra byte is counted twice, and the message is
    rejected. *)
Lemma skipped_bytes_counted_twice :
  let s := pipes "8=FIX.4.4|9=29|35=D|453=1|448=A|447=D|058=x|10=139|" in
  is_Ok (Message_of_string s None None true) = true /\
  Message_of_string s (Some sample_dictionary) (Some sample_dictionary) true =
    Throw (InvalidMessage (lit "Expected BodyLength=29, Received BodyLength=30")).
Proof. split; vm_compute; reflexivity. Qed.

(** A data field may run to the end of the string: no SOH is required after it, and
    the terminating NUL is counted as its last byte. *)
Lemma data_field_past_the_end :
  let m := with_body new_Message (setField_tag (m_body new_Message) 95 (lit "3")) in
  (f ← extractField m (pipes "96=a|c") 0 None (Some (addFieldType 96 Data new_DataDictionary)) None 0;
   let '(field, pos, _) := f in Ok (getString field, pos, getLength field)) = Ok (pipes "a|c", 7%nat, 7).
Proof. vm_compute. reflexivity. Qed.

(** A group that is still open when the string ends is lost, its count is not. *)
Lemma open_group_dropped :
  (m ← Message_of_string (pipes "8=FIX.4.4|9=20|35=D|453=1|448=A|447=D|") (Some sample_dictionary)
         (Some sample_dictionary) false;
   Ok (groupCount (m_body m) 453, isSetField (m_body m) 453)) = Ok (0, true).
Proof. vm_compute. reflexivity. Qed.

(** A MsgType of one NUL character counts as an administrative message. *)
Lemma nul_MsgType_is_admin : isAdminMsgType [NUL] = true.
Proof. reflexivity. Qed.
