(* ===== verification/RoundTrip.v ===== *)
(** * Encoding and decoding a message are inverse

    A message without repeating groups, encoded by [toString] and decoded by
    [setString] without a dictionary, comes back with the same fields, and
    [validate] accepts it. *)
From S2P Require Import Prelude Convertors Values OrdMap MessageSorters Field FieldMap DictData Message.

(** ** One field *)

Lemma tag_text_facts t :
  tag t ->
  exists c s, tag_text t = c :: s /\ all_digits (c :: s) = true /\ IntT_convert int32_t (tag_text t) = Some t /\
    ((bool_decide (head (tag_text t) = Some "0"%char) && (1 <? length (tag_text t))%nat)
     || bool_decide (head (tag_text t) = Some "-"%char)) = false.
Proof.
  intros Ht. pose proof (tag_in_range t Ht) as Hr. unfold tag in Ht.
  rewrite tag_text_chars by done.
  assert (integer_chars int32_t t = integer_digits t) as E.
  { unfold integer_chars. rewrite UNSIGNED_VALUE_OF_abs by auto using engine_int32.
    rewrite Z.abs_eq by lia. case_bool; [lia | done]. }
  assert (IntT_convert int32_t (integer_chars int32_t t) = Some t) as Hc.
  { rewrite IntT_convert_eq, decimal_value_integer_chars, Hr by auto using engine_int32. done. }
  rewrite E in *. destruct (integer_digits_spec t) as (Hd & Hv & Hne & Hp); [lia|].
  destruct (integer_digits t) as [|c s] eqn:Es; [done|]. exists c, s. split_and!; try done.
  simpl head. apply orb_false_iff. split.
  - apply andb_false_iff. destruct s as [|c' s]; [by right|]. left. apply bool_decide_eq_false_2. intros [= ->].
    specialize (Hp ltac:(lia)). change ("0"%char :: c' :: s) with (["0"%char] ++ c' :: s) in Hv.
    rewrite dec_app in Hv. change (dec ["0"%char]) with 0 in Hv.
    simpl in Hd. pose proof (dec_bound (c' :: s) ltac:(simpl; by destruct (IS_DIGIT "0"%char))) as Hb.
    replace (Z.of_nat (length ("0"%char :: c' :: s)) - 1) with (Z.of_nat (length (c' :: s))) in Hp by (simpl length; lia).
    lia.
  - apply bool_decide_eq_false_2. intros [= ->]. done.
Qed.

(** A field as it comes back from its encoding. *)
Definition decoded (f : FieldBase) : FieldBase := Field_decoded (getTag f) (getString f) (getFixString f).

Definition plain_field (f : FieldBase) : Prop := tag (getTag f) /\ SOH ∉ getString f.

Lemma extractField_encoded m pre f post prec :
  plain_field f ->
  extractField m (pre ++ getFixString f ++ post) (length pre) None None None prec =
    Ok (decoded f, (length pre + length (getFixString f))%nat, m).
Proof.
  intros [Ht Hv]. destruct f as [t v mt]. simpl in Ht, Hv. unfold extractField. cbn [extractField_loop].
  destruct (tag_text_facts t Ht) as (c & s & Etag & Hd & Hconv & Hlead).
  unfold getFixString, appendTo. cbn [Field.m_tag m_string app].
  assert (SOH ∉ tag_text t ++ "="%char :: v) as Hsoh.
  { rewrite Etag. apply not_elem_of_app. split; [by apply digits_no|]. by apply not_elem_of_cons. }
  replace (pre ++ (tag_text t ++ "="%char :: v ++ [SOH]) ++ post) with (pre ++ (tag_text t ++ "="%char :: v) ++ SOH :: post)
    by (rewrite <- !app_assoc; simpl; by rewrite <- app_assoc).
  rewrite find_from_char by done. cbv zeta.
  replace (length pre + length (tag_text t ++ "="%char :: v) - length pre)%nat with (length (tag_text t ++ "="%char :: v)) by lia.
  rewrite substr_middle. change (lit "=") with ["="%char].
  rewrite find_char by (rewrite Etag; by apply digits_no).
  replace (pre ++ (tag_text t ++ "="%char :: v) ++ SOH :: post) with (pre ++ tag_text t ++ "="%char :: v ++ SOH :: post)
    by (by rewrite <- app_assoc).
  rewrite (substr_middle pre (tag_text t)), Hconv. cbn [IsDataField orb mbind result_bind]. rewrite Hlead.
  unfold decoded. cbn [getTag getString Field.m_tag m_string].
  assert (length (tag_text t ++ "="%char :: v) = length (tag_text t) + 1 + length v)%nat as El.
  { rewrite length_app. simpl. lia. }
  rewrite El. do 2 f_equal.
  - f_equal; [|rewrite !length_app; simpl; rewrite length_app; simpl; lia].
    unfold Field_decoded. f_equal; [|f_equal].
    + replace (length pre + (length (tag_text t) + 1 + length v) - (length pre + length (tag_text t) + 1))%nat with (length v) by lia.
      replace (length pre + length (tag_text t) + 1)%nat with (length (pre ++ tag_text t ++ ["="%char]))
        by (rewrite !length_app; simpl; lia).
      replace (pre ++ tag_text t ++ "="%char :: v ++ SOH :: post) with ((pre ++ tag_text t ++ ["="%char]) ++ v ++ SOH :: post)
        by (rewrite <- !app_assoc; done).
      by rewrite substr_middle.
    + unfold raw_bytes.
      replace (S (length pre + (length (tag_text t) + 1 + length v)) - length pre)%nat
        with (length (tag_text t ++ "="%char :: v ++ [SOH])) by (rewrite !length_app; simpl; rewrite length_app; simpl; lia).
      replace ((pre ++ tag_text t ++ "="%char :: v ++ SOH :: post) ++ [NUL])
        with (pre ++ (tag_text t ++ "="%char :: v ++ [SOH]) ++ post ++ [NUL]); [apply substr_middle|].
      rewrite <- !app_assoc. simpl. rewrite <- !app_assoc. simpl. done.
Qed.

(** ** A list of fields *)

Definition encoded (l : list FieldBase) : str := concat (map getFixString l).

(** Where decoding without a dictionary puts a field. *)
Definition place (d : decoding) (f : FieldBase) : decoding :=
  let t := getTag f in
  let m := d_message d in
  let pos := (d_pos d + length (getFixString f))%nat in
  let count := if (d_count d <? 3)%nat then S (d_count d) else d_count d in
  if isHeaderField t None then
    let m := if bool_decide (d_type d = header_type) then m else structure_fault m t in
    mkDecoding (with_header m (appendField (m_header m) (decoded f))) pos count
      (if t =? FIELD.MsgType then getString f else d_msgType d) (d_type d) None t
  else if isTrailerField t None then
    mkDecoding (with_trailer m (appendField (m_trailer m) (decoded f))) pos count (d_msgType d) trailer_type None t
  else
    let m := if bool_decide (d_type d = trailer_type) then structure_fault m t else m in
    mkDecoding (with_body m (appendField (m_body m) (decoded f))) pos count (d_msgType d) body_type None t.

Lemma decode_field_encoded pre f post d :
  plain_field f -> d_pos d = length pre -> d_appDD d = None ->
  match headerOrder !! d_count d with Some h => h =? getTag f | None => true end = true ->
  decode_field (pre ++ getFixString f ++ post) true None d = Ok (place d f).
Proof.
  intros Hf Hpos Hdd Hord. unfold decode_field. rewrite Hpos, Hdd, extractField_encoded by done.
  cbn [mbind result_bind]. change (getTag (decoded f)) with (getTag f). change (getString (decoded f)) with (getString f).
  rewrite Hord. cbn [orb guard_or mbind result_bind]. unfold place. rewrite Hpos.
  destruct (isHeaderField (getTag f) None).
  - destruct (getTag f =? FIELD.MsgType); [|done]. by destruct (isAdminMsgType (getString f)).
  - by destruct (isTrailerField (getTag f) None).
Qed.

(** The first three fields are the ones [headerOrder] names. *)
Fixpoint in_header_order (count : nat) (l : list FieldBase) : Prop :=
  match l with
  | [] => True
  | f :: l =>
      match headerOrder !! count with Some h => h =? getTag f | None => true end = true /\
      in_header_order (if (count <? 3)%nat then S count else count) l
  end.

Lemma getFixString_length f : (1 <= length (getFixString f))%nat.
Proof. unfold getFixString, appendTo. rewrite !length_app. cbn [length]. lia. Qed.

Lemma place_fields d f :
  d_appDD (place d f) = None /\ d_pos (place d f) = (d_pos d + length (getFixString f))%nat /\
  d_count (place d f) = (if (d_count d <? 3)%nat then S (d_count d) else d_count d).
Proof. unfold place. destruct (isHeaderField _ _); [done|]. by destruct (isTrailerField _ _). Qed.

Lemma decode_loop_encoded l pre d fuel :
  Forall plain_field l -> d_pos d = length pre -> d_appDD d = None -> in_header_order (d_count d) l ->
  (length (encoded l) < fuel)%nat ->
  decode_loop fuel (pre ++ encoded l) true None d = Ok (fold_left place l d).
Proof.
  revert pre d fuel. induction l as [|f l IH]; intros pre d fuel Hl Hpos Hdd Hord Hf.
  - destruct fuel as [|fuel]; [simpl in Hf; lia|]. simpl. rewrite app_nil_r, Hpos, Nat.leb_refl. done.
  - apply Forall_cons in Hl as [Hpf Hl]. destruct Hord as [Ho Hord].
    unfold encoded in *. cbn [map concat] in *. rewrite length_app in Hf.
    pose proof (getFixString_length f). destruct fuel as [|fuel]; [lia|].
    cbn [decode_loop]. rewrite Hpos.
    destruct (Nat.leb_spec (length (pre ++ getFixString f ++ concat (map getFixString l))) (length pre)) as [Hle|_].
    { rewrite !length_app in Hle. lia. }
    rewrite decode_field_encoded by done. cbn [mbind result_bind fold_left].
    destruct (place_fields d f) as (P1 & P2 & P3).
    rewrite app_assoc. apply IH; try done.
    + by rewrite P2, Hpos, length_app.
    + by rewrite P3.
    + lia.
Qed.

(** ** Header, body, trailer *)

Definition is_header (f : FieldBase) : Prop := isHeaderField (getTag f) None = true.
Definition is_trailer (f : FieldBase) : Prop :=
  isHeaderField (getTag f) None = false /\ isTrailerField (getTag f) None = true.
Definition is_body (f : FieldBase) : Prop :=
  isHeaderField (getTag f) None = false /\ isTrailerField (getTag f) None = false.

Definition add_fields (m : FieldMap) (l : list FieldBase) : FieldMap := with_fields m (m_fields m ++ map decoded l).

Lemma add_fields_cons m f l : add_fields (appendField m (decoded f)) l = add_fields m (f :: l).
Proof. unfold add_fields, appendField, with_fields. simpl. by rewrite <- app_assoc. Qed.

Lemma add_fields_nil m : add_fields m [] = m.
Proof. unfold add_fields, with_fields. rewrite app_nil_r. by destruct m. Qed.

Lemma place_header l d :
  Forall is_header l -> d_type d = header_type ->
  let d' := fold_left place l d in
  d_message d' = with_header (d_message d) (add_fields (m_header (d_message d)) l) /\ d_type d' = header_type.
Proof.
  intros Hl. revert d. induction Hl as [|f l Hf _ IH]; intros d Ht; simpl.
  - rewrite add_fields_nil. by destruct d as [[]].
  - assert (d_type (place d f) = header_type) as Ht' by (unfold place; rewrite Hf; exact Ht).
    destruct (IH (place d f) Ht') as [H1 H2]. split; [|exact H2]. rewrite H1.
    unfold place. rewrite Hf. cbn [d_message m_header with_header].
    rewrite bool_decide_eq_true_2 by done. by rewrite add_fields_cons.
Qed.

Lemma place_body l d :
  Forall is_body l -> d_type d <> trailer_type ->
  let d' := fold_left place l d in
  d_message d' = with_body (d_message d) (add_fields (m_body (d_message d)) l) /\ d_type d' <> trailer_type.
Proof.
  intros Hl. revert d. induction Hl as [|f l [Hf Hf'] _ IH]; intros d Ht; simpl.
  - rewrite add_fields_nil. by destruct d as [[]].
  - assert (d_type (place d f) <> trailer_type) as Ht' by (unfold place; by rewrite Hf, Hf').
    destruct (IH (place d f) Ht') as [H1 H2]. split; [|exact H2]. rewrite H1.
    unfold place. rewrite Hf, Hf'. cbn [d_message m_body with_body].
    rewrite bool_decide_eq_false_2 by done. by rewrite add_fields_cons.
Qed.

Lemma place_trailer l d :
  Forall is_trailer l ->
  d_message (fold_left place l d) = with_trailer (d_message d) (add_fields (m_trailer (d_message d)) l).
Proof.
  intros Hl. revert d. induction Hl as [|f l [Hf Hf'] _ IH]; intros d; simpl.
  - rewrite add_fields_nil. by destruct d as [[]].
  - rewrite IH. unfold place. rewrite Hf, Hf'. cbn [d_message m_trailer with_trailer]. by rewrite add_fields_cons.
Qed.

(** ** Sorting and measuring what was read *)

Lemma sorted_is_sorted o fields : sorted_by o fields -> is_sorted o fields = true.
Proof.
  induction 1 as [|f fields _ IH Hf]; [done|]. cbn [is_sorted]. destruct fields as [|g fields]; [done|].
  apply Forall_cons in Hf as [Hf _]. by rewrite Hf, IH.
Qed.

Lemma decoded_tags l : same_tags l (map decoded l).
Proof. unfold same_tags. rewrite map_map. done. Qed.

Lemma sort_decoded o l : sorted_by o l -> sortFields (mkFieldMap (map decoded l) [] o) = mkFieldMap (map decoded l) [] o.
Proof.
  intros Hs. unfold sortFields. cbn [m_order m_fields].
  rewrite sorted_is_sorted; [done|]. by apply (sorted_by_tags o l); [apply decoded_tags|].
Qed.

Lemma decoded_ok f : in_range int32_t (getTag f) = true -> field_ok (decoded f).
Proof. intros H. split; [done|]. intros _. done. Qed.

Lemma getLength_decoded f : field_ok f -> getLength (decoded f) = getLength f.
Proof. intros H. rewrite !getLength_eq; [done | done | by apply decoded_ok, H]. Qed.

Lemma getTotal_decoded f : field_ok f -> getTotal (decoded f) = getTotal f.
Proof. intros H. rewrite !getTotal_eq; [done | done | by apply decoded_ok, H]. Qed.

Lemma fold_ext {A B} (f g : B -> A -> B) l b :
  Forall (fun x => forall b, f b x = g b x) l -> fold_left f l b = fold_left g l b.
Proof. intros H. revert b. induction H as [|x l E _ IH]; intros b; simpl; [done|]. by rewrite E, IH. Qed.

Lemma fold_left_map {A B C} (f : C -> B -> C) (h : A -> B) l c :
  fold_left f (map h l) c = fold_left (fun c x => f c (h x)) l c.
Proof. revert c. induction l as [|x l IH]; intros c; simpl; [done|]. apply IH. Qed.

Lemma calculateLength_decoded o l b bl c :
  Forall field_ok l ->
  calculateLength (mkFieldMap (map decoded l) [] o) b bl c = calculateLength (mkFieldMap l [] o) b bl c.
Proof.
  intros Hl. cbn [calculateLength fold_left]. rewrite fold_left_map. apply fold_ext.
  eapply Forall_impl; [exact Hl|]. cbv beta. intros f Hf result. rewrite getLength_decoded by done. done.
Qed.

Lemma calculateTotal_decoded o l c :
  Forall field_ok l -> calculateTotal (mkFieldMap (map decoded l) [] o) c = calculateTotal (mkFieldMap l [] o) c.
Proof.
  intros Hl. cbn [calculateTotal fold_left]. rewrite fold_left_map. apply fold_ext.
  eapply Forall_impl; [exact Hl|]. cbv beta. intros f Hf result. rewrite getTotal_decoded by done. done.
Qed.

Lemma field_of_decoded l t : field_of (map decoded l) t = decoded <$> field_of l t.
Proof.
  induction l as [|f l IH]; [done|]. simpl. change (getTag (decoded f)) with (getTag f). by case_bool.
Qed.

Lemma calculateString_plain m : m_groups m = [] -> calculateString m = encoded (m_fields m).
Proof.
  destruct m as [fields groups o]. simpl. intros ->. simpl. unfold encoded. f_equal.
  apply map_ext. intros f. by rewrite app_nil_r.
Qed.

Lemma encoded_app l1 l2 : encoded (l1 ++ l2) = encoded l1 ++ encoded l2.
Proof. unfold encoded. by rewrite map_app, concat_app. Qed.

(** ** What can be read back *)

(** What can be read back without a dictionary: no groups, no SOH in a value, and
    every field in the part of the message its tag belongs to. *)
Record plain (m : Message) : Prop := {
  pl_groups : m_groups (m_header m) = [] /\ m_groups (m_body m) = [] /\ m_groups (m_trailer m) = [];
  pl_header : Forall (fun f => plain_field f /\ is_header f) (m_fields (m_header m));
  pl_body : Forall (fun f => plain_field f /\ is_body f) (m_fields (m_body m));
  pl_trailer : Forall (fun f => plain_field f /\ is_trailer f) (m_fields (m_trailer m));
  pl_type : isSetField (m_header m) FIELD.MsgType = true }.

(** Tags and values. *)
Definition contents (m : FieldMap) : list (Z * str) := map (fun f => (getTag f, getString f)) (m_fields m).

Lemma contents_decoded o l : contents (mkFieldMap (map decoded l) [] o) = map (fun f => (getTag f, getString f)) l.
Proof. unfold contents. simpl. by rewrite map_map. Qed.

Lemma Forall_setField (P : Z -> str -> Prop) m f :
  wf m -> tag (getTag f) -> P (getTag f) (getString f) ->
  Forall (fun g => P (getTag g) (getString g)) (m_fields m) ->
  Forall (fun g => P (getTag g) (getString g)) (m_fields (setField m f)).
Proof.
  intros Hm Hf Hp Hall. unfold setField, setField_overwrite. cbn [negb].
  destruct (findTag m (getTag f)) as [i|] eqn:E; rewrite findTag_wf in E by done.
  - unfold with_fields. cbn [m_fields]. revert i E. induction Hall as [|g fields Hg Hall IH]; intros i; simpl; [done|].
    destruct (Z.eqb_spec (getTag f) (getTag g)) as [Eg|].
    + intros [= <-]. constructor; [|done]. simpl. unfold getTag in Eg at 2. by rewrite <- Eg.
    + destruct (find_index _ fields) as [k|]; simpl; intros [= <-]. constructor; [done|]. by apply (IH k).
  - pose proof Hm as (Ho & (Hs & Ht & _) & _)%wf_eq.
    rewrite (eta_FieldMap m), addField_eq by done. cbn [m_fields]. rewrite insert_upper_perm. by constructor.
Qed.

(** MsgType is third. *)
Lemma header_third h f35 :
  sorted_by (new_message_order header) h -> NoDup (map getTag h) ->
  field_of h FIELD.MsgType = Some f35 ->
  Forall (fun f => getTag f <> FIELD.BeginString /\ getTag f <> FIELD.BodyLength) h ->
  exists rest, h = f35 :: rest.
Proof.
  intros Hs Hn H35 Hno. apply field_of_tag in H35 as [T35 I35].
  destruct h as [|f h]; [by apply elem_of_nil in I35|]. exists h. f_equal.
  apply elem_of_cons in I35 as [->|I35]; [done|]. exfalso.
  inversion Hs as [|? ? _ Hf]; subst. rewrite Forall_forall in Hf. specialize (Hf f35 I35).
  apply Forall_cons in Hno as [[N8 N9] _]. simpl in Hn. apply NoDup_cons in Hn as [Nf _].
  unfold less in Hf. simpl in Hf. unfold header_compare, header_position in Hf. rewrite T35 in Hf. simpl in Hf.
  rewrite (proj2 (Z.eqb_neq (getTag f) FIELD.BeginString)), (proj2 (Z.eqb_neq (getTag f) FIELD.BodyLength)) in Hf by done.
  destruct (Z.eqb_spec (getTag f) FIELD.MsgType) as [E|]; [|done].
  apply Nf. rewrite E, <- T35. by apply list_elem_of_fmap_2.
Qed.

Lemma in_header_order_rest l count : (3 <= count)%nat -> in_header_order count l.
Proof.
  intros Hc. revert count Hc. induction l as [|f l IH]; intros count Hc; simpl; [done|]. split.
  - unfold headerOrder. rewrite lookup_ge_None_2 by (simpl; lia). done.
  - apply IH. destruct (count <? 3)%nat; lia.
Qed.

Lemma toString_string m b l c s m' :
  toString m b l c = Ok (s, m') ->
  s = calculateString (m_header m') ++ calculateString (m_body m') ++ calculateString (m_trailer m').
Proof.
  unfold toString. destruct (CheckSumField _ _) as [f|]; simpl; [|done]. by intros [= <- <-].
Qed.

Lemma not_SOH_digits s : all_digits s = true -> SOH ∉ s.
Proof. intros H. by apply digits_no. Qed.

Lemma IntConvertor_digits n : 0 <= n < 2 ^ 31 -> all_digits (IntConvertor_convert n) = true.
Proof.
  intros Hn. unfold IntConvertor_convert, integer_chars. rewrite UNSIGNED_VALUE_OF_abs;
    [|apply engine_int32 | apply andb_true_iff; unfold VALUE_MIN, VALUE_MAX; simpl; rewrite !Z.leb_le; lia].
  case_bool; [lia|]. apply integer_digits_spec. lia.
Qed.

(** The header of an encoded message starts with its three framing fields. *)
Lemma encoded_header m n :
  sendable m -> isSetField (m_header m) FIELD.MsgType = true ->
  exists f8 f9 f35 rest,
    m_fields (setField (m_header m) (IntField FIELD.BodyLength n)) = f8 :: f9 :: f35 :: rest /\
    getTag f8 = FIELD.BeginString /\ getTag f9 = FIELD.BodyLength /\ getTag f35 = FIELD.MsgType /\
    field_of (m_fields (m_header m)) FIELD.BeginString = Some f8 /\ getString f9 = IntConvertor_convert n.
Proof.
  intros [Wh _ _ Oh _ Ch _ _ _ H8 _ _ _ _] P35. set (f9 := IntField FIELD.BodyLength n).
  assert (tag (getTag f9)) as T9 by by_compute.
  pose proof (wf_setField (m_header m) f9 Wh T9 ltac:(by apply Field_ok)) as Wh'.
  pose proof (unique_setField (m_header m) f9 Wh T9 (proj1 Ch)) as Uh'. unfold unique in Uh'.
  pose proof Wh' as (_ & (Hs' & Ht' & _) & _)%wf_eq. rewrite setField_order, Oh in Hs'.
  set (hl := m_fields (setField (m_header m) f9)) in *.
  assert (forall t, tag t -> t <> FIELD.BodyLength -> isSetField (m_header m) t = true ->
    exists f, field_of (m_fields (m_header m)) t = Some f /\ field_of hl t = Some f) as Hset.
  { intros t Htt Hne Hs. rewrite isSetField_wf in Hs by done. unfold hl. rewrite field_of_setField by done.
    change (getTag f9) with FIELD.BodyLength. rewrite (proj2 (Z.eqb_neq t FIELD.BodyLength)) by done.
    destruct (field_of (m_fields (m_header m)) t); [eauto | done]. }
  destruct (Hset FIELD.BeginString) as (f8 & M8 & E8); [by_compute | done | done |].
  destruct (Hset FIELD.MsgType) as (f35 & _ & E35); [by_compute | done | done |].
  assert (exists g9, field_of hl FIELD.BodyLength = Some g9 /\ getString g9 = IntConvertor_convert n) as (g9 & E9 & V9).
  { unfold hl. rewrite field_of_setField by (done || by_compute). change (getTag f9) with FIELD.BodyLength.
    rewrite Z.eqb_refl. destruct (field_of (m_fields (m_header m)) FIELD.BodyLength); by eexists. }
  destruct (header_prefix hl f8 g9 Hs' Ht' Uh' E8 E9) as (rest & Ehl & Hrest).
  pose proof (field_of_tag _ _ _ E8) as [T8 _]. pose proof (field_of_tag _ _ _ E9) as [Tg9 _].
  pose proof (field_of_tag _ _ _ E35) as [T35 _].
  rewrite Ehl in Hs', Uh', E35. inversion Hs' as [|? ? Hs1 _]; subst. inversion Hs1 as [|? ? Hs2 _]; subst.
  simpl in Uh'. apply NoDup_cons in Uh' as [_ Uh']. apply NoDup_cons in Uh' as [_ Uh'].
  simpl in E35. rewrite T8, Tg9 in E35. simpl in E35.
  destruct (header_third rest f35 Hs2 Uh' E35 Hrest) as [rest' ->].
  exists f8, g9, f35, rest'. done.
Qed.

(** The fields of the encoded message: plain, in their places, in header order. *)
Lemma encoded_message_fields m m' n cks :
  sendable m -> plain m -> 0 <= n < 2 ^ 31 ->
  m_header m' = setField (m_header m) (IntField FIELD.BodyLength n) -> m_body m' = m_body m ->
  m_trailer m' = setField (m_trailer m) (Field FIELD.CheckSum cks) -> all_digits cks = true ->
  let hl := m_fields (m_header m') in let bl := m_fields (m_body m') in let tl := m_fields (m_trailer m') in
  Forall plain_field (hl ++ bl ++ tl) /\ Forall is_header hl /\ Forall is_body bl /\ Forall is_trailer tl /\
  in_header_order 0 (hl ++ bl ++ tl).
Proof.
  intros Hm0 [(Gh & Gb & Gt) Ph Pb Pt P35] Hn Eh Eb Et Dc hl bl tl.
  pose proof Hm0 as [Wh Wb Wt Oh Ot Ch Cb Ct Hgs H8 H10 Hb Ht Hsize].
  set (f9 := IntField FIELD.BodyLength n) in *. set (f10 := Field FIELD.CheckSum cks) in *.
  assert (tag (getTag f9)) as T9 by by_compute. assert (tag (getTag f10)) as T10 by by_compute.
  assert (Forall (fun f => plain_field f /\ is_header f) hl) as Hhl.
  { unfold hl. rewrite Eh. apply (Forall_setField (fun t v => (tag t /\ SOH ∉ v) /\ isHeaderField t None = true)); try done.
    split; [split; [done|] | done]. apply not_SOH_digits. by apply IntConvertor_digits. }
  assert (Forall (fun f => plain_field f /\ is_trailer f) tl) as Htl.
  { unfold tl. rewrite Et.
    apply (Forall_setField (fun t v => (tag t /\ SOH ∉ v) /\ isHeaderField t None = false /\ isTrailerField t None = true)); try done.
    split; [split; [done|] | done]. by apply not_SOH_digits. }
  assert (Forall (fun f => plain_field f /\ is_body f) bl) as Hbl by (unfold bl; by rewrite Eb).
  split_and!.
  - rewrite !Forall_app. split_and!; (eapply Forall_impl; [eassumption|]); simpl; tauto.
  - eapply Forall_impl; [exact Hhl|]. simpl. tauto.
  - eapply Forall_impl; [exact Hbl|]. simpl. tauto.
  - eapply Forall_impl; [exact Htl|]. simpl. tauto.
  - unfold hl. rewrite Eh. unfold f9. destruct (encoded_header m n Hm0 P35) as (f8 & g9 & f35 & rest & -> & T8 & T9' & T35 & _).
    cbn [app in_header_order]. unfold headerOrder. simpl lookup. rewrite T8, T9', T35.
    split_and!; try done. apply in_header_order_rest. simpl. lia.
Qed.

(** The message the loop leaves, with its maps sorted. *)
Lemma decoded_message m0 hl bl tl :
  Forall is_header hl -> Forall is_body bl -> Forall is_trailer tl ->
  d_message (fold_left place (hl ++ bl ++ tl) (mkDecoding (clearMessage m0) 0 0 [] header_type None 0)) =
    mkMessage (mkFieldMap (map decoded hl) [] (m_order (m_header m0))) (mkFieldMap (map decoded bl) [] (m_order (m_body m0)))
      (mkFieldMap (map decoded tl) [] (m_order (m_trailer m0))) true 0 0 0 0 0.
Proof.
  intros Hh Hb Ht. rewrite !fold_left_app.
  destruct (place_header hl (mkDecoding (clearMessage m0) 0 0 [] header_type None 0) Hh eq_refl) as [E1 T1].
  set (d1 := fold_left place hl _) in *.
  destruct (place_body bl d1 Hb ltac:(by rewrite T1)) as [E2 T2].
  set (d2 := fold_left place bl d1) in *.
  rewrite (place_trailer tl d2 Ht), E2, E1. done.
Qed.

(** An integer field reads back from a decoded map. *)
Lemma get_int_decoded o l t f v :
  built_order o -> sorted_by o l -> tags_ok l -> tag t -> field_of l t = Some f ->
  IntT_of_string int32_t (getString f) = Ok v -> get_int (mkFieldMap (map decoded l) [] o) t = Ok v.
Proof.
  intros Ho Hs Ht Htag Hf Hv. unfold get_int, getFieldRef.
  rewrite getFieldIfSet_eq; [| done | | | done].
  - rewrite field_of_decoded, Hf. simpl. unfold IntField_valueOf, valueOf.
    change (getString (decoded f)) with (getString f). by rewrite Hv.
  - by apply (sorted_by_tags _ l); [apply decoded_tags|].
  - by apply (tags_ok_tags l); [apply decoded_tags|].
Qed.

Lemma IntT_of_string_chars n : 0 <= n < 2 ^ 31 -> IntT_of_string int32_t (IntConvertor_convert n) = Ok n.
Proof.
  intros Hn. assert (in_range int32_t n = true) as Hr.
  { apply andb_true_iff. unfold VALUE_MIN, VALUE_MAX. simpl. rewrite !Z.leb_le. lia. }
  unfold IntT_of_string, IntConvertor_convert.
  by rewrite IntT_convert_eq, decimal_value_integer_chars, Hr by auto using engine_int32.
Qed.

(** Validation of what was read, from what was written. *)
Lemma decoded_validates m n ck oh ob ot :
  wf (m_header m) -> wf (m_body m) -> wf (m_trailer m) ->
  m_order (m_header m) = oh -> m_order (m_body m) = ob -> m_order (m_trailer m) = ot ->
  m_groups (m_header m) = [] -> m_groups (m_body m) = [] -> m_groups (m_trailer m) = [] ->
  getField (m_header m) FIELD.BodyLength = Ok (IntConvertor_convert n) -> 0 <= n < 2 ^ 31 ->
  (exists cks, getField (m_trailer m) FIELD.CheckSum = Ok cks /\ CheckSumConvertor_of_string cks = Ok ck) ->
  bodyLength m FIELD.BeginString FIELD.BodyLength FIELD.CheckSum = n -> checkSum m FIELD.CheckSum = ck ->
  0 <= ck < 256 ->
  validate (mkMessage (mkFieldMap (map decoded (m_fields (m_header m))) [] oh)
                      (mkFieldMap (map decoded (m_fields (m_body m))) [] ob)
                      (mkFieldMap (map decoded (m_fields (m_trailer m))) [] ot) true 0 0 0 0 0) = Ok ().
Proof.
  intros Wh Wb Wt <- <- <- Gh Gb Gt E9 Hn (cks & E10 & Eck) Hlen Hsum Hck.
  pose proof Wh as (Hoh & (Sh & Th & Fh) & _)%wf_eq. pose proof Wb as (Hob & (Sb & Tb & Fb) & _)%wf_eq.
  pose proof Wt as (Hot & (St & Tt & Ft) & _)%wf_eq.
  unfold getField, getFieldRef in E9, E10. rewrite getFieldIfSet_wf in E9, E10 by (done || by_compute).
  destruct (field_of (m_fields (m_header m)) FIELD.BodyLength) as [f9|] eqn:F9; [|done].
  destruct (field_of (m_fields (m_trailer m)) FIELD.CheckSum) as [f10|] eqn:F10; [|done].
  simpl in E9, E10. injection E9 as E9. injection E10 as E10.
  assert (forall x l, m_groups x = [] -> Forall field_ok (m_fields x) -> m_fields x = l ->
    calculateLength (mkFieldMap (map decoded l) [] (m_order x)) FIELD.BeginString FIELD.BodyLength FIELD.CheckSum =
    calculateLength x FIELD.BeginString FIELD.BodyLength FIELD.CheckSum /\
    calculateTotal (mkFieldMap (map decoded l) [] (m_order x)) FIELD.CheckSum = calculateTotal x FIELD.CheckSum) as Hcalc.
  { intros x l Hg Hok <-. rewrite calculateLength_decoded, calculateTotal_decoded by done. destruct x. simpl in *. by subst. }
  destruct (Hcalc _ _ Gh Fh eq_refl) as [Lh Ch], (Hcalc _ _ Gb Fb eq_refl) as [Lb Cb], (Hcalc _ _ Gt Ft eq_refl) as [Lt Ct].
  set (md := mkMessage _ _ _ true 0 0 0 0 0).
  assert (bodyLength md FIELD.BeginString FIELD.BodyLength FIELD.CheckSum = n) as Hn'.
  { unfold bodyLength, md. cbn [m_header m_body m_trailer]. rewrite Lh, Lb, Lt. exact Hlen. }
  assert (checkSum md FIELD.CheckSum = ck) as Hck'.
  { unfold checkSum, md. cbn [m_header m_body m_trailer]. rewrite Ch, Cb, Ct. exact Hsum. }
  assert (IntT_of_string int32_t (getString f9) = Ok n) as V9 by (rewrite E9; by apply IntT_of_string_chars).
  assert (IntT_of_string int32_t (getString f10) = Ok ck) as V10 by (rewrite E10; exact Eck).
  assert (tag FIELD.BodyLength) as T9 by by_compute. assert (tag FIELD.CheckSum) as T10 by by_compute.
  assert (get_int (m_header md) FIELD.BodyLength = Ok n) as G9 by exact (get_int_decoded _ _ FIELD.BodyLength f9 n Hoh Sh Th T9 F9 V9).
  assert (get_int (m_trailer md) FIELD.CheckSum = Ok ck) as G10 by exact (get_int_decoded _ _ FIELD.CheckSum f10 ck Hot St Tt T10 F10 V10).
  unfold validate. rewrite G9. cbn [mbind result_bind]. rewrite Hn', G10.
  replace (m_embeddedSOHSkippedLength md) with 0 by done. replace (m_embeddedSOHSkippedChecksum md) with 0 by done.
  rewrite Hck'. change (u64 0) with 0. rewrite !Z.add_0_r, !(u64_small n), Z.eqb_refl by lia.
  cbn [guard_or mbind result_bind]. rewrite (i32_small ck), Z.rem_small, Z.eqb_refl by lia. done.
Qed.

(** The framing fields do not count towards the body length. *)
Lemma toString_bodyLength m m' n cks :
  sendable m ->
  m_header m' = setField (m_header m) (IntField FIELD.BodyLength n) -> m_body m' = m_body m ->
  m_trailer m' = setField (m_trailer m) (Field FIELD.CheckSum cks) ->
  bodyLength m' FIELD.BeginString FIELD.BodyLength FIELD.CheckSum =
    bodyLength m FIELD.BeginString FIELD.BodyLength FIELD.CheckSum.
Proof.
  intros Hm Eh Eb Et. pose proof (fun f => sendable_encodable m f Hm) as Henc.
  destruct Hm as [Wh Wb Wt _ _ Ch Cb Ct Hgs _ _ _ _ _]. unfold bodyLength. rewrite Eh, Eb, Et.
  rewrite !calculateLength_i32; try (apply Henc; tauto).
  - rewrite !length_sum_setField by (done || by_compute || tauto). done.
  - apply (encodable_setField (m_trailer m) _ Wt Ct (Hgs _ (or_intror (or_intror eq_refl)))); [by_compute | by apply Field_ok | done].
  - apply (encodable_setField (m_header m) _ Wh Ch (Hgs _ (or_introl eq_refl))); [by_compute | by apply Field_ok | done].
Qed.

(** Encoding, then decoding. *)
Lemma decode_encode m m0 :
  sendable m -> plain m ->
  m_order (m_header m0) = m_order (m_header m) -> m_order (m_body m0) = m_order (m_body m) ->
  m_order (m_trailer m0) = m_order (m_trailer m) ->
  exists s m' m'',
    toString_default m = Ok (s, m') /\ setString m0 s true None None = Ok m'' /\
    contents (m_header m'') = contents (m_header m') /\ contents (m_body m'') = contents (m_body m) /\
    contents (m_trailer m'') = contents (m_trailer m') /\ m_validStructure m'' = true.
Proof.
  intros Hm Hp Oh0 Ob0 Ot0.
  destruct (toString_layout m Hm) as (begin & mid & cks & m' & Es & L3 & D3 & V3 & En & Eh & Eb & Et & Pc & Ec & _).
  pose proof (toString_string _ _ _ _ _ _ Es) as Estr.
  assert (0 <= len mid < 2 ^ 31) as Hn by (rewrite En; pose proof (sendable_bodyLength m Hm); lia).
  destruct (encoded_message_fields m m' (len mid) cks Hm Hp Hn Eh Eb Et D3) as (Hplain & Hh & Hb & Ht & Hord).
  destruct Hp as [(Gh & Gb & Gt) _ _ _ _]. pose proof Hm as [Wh Wb Wt _ _ _ _ _ _ _ _ _ _ _].
  assert (m_groups (m_header m') = []) as Gh' by (rewrite Eh, setField_groups; exact Gh).
  assert (m_groups (m_body m') = []) as Gb' by (rewrite Eb; exact Gb).
  assert (m_groups (m_trailer m') = []) as Gt' by (rewrite Et, setField_groups; exact Gt).
  assert (wf (m_header m')) as Wh' by (rewrite Eh; by apply wf_setField_tag; [|by_compute]).
  assert (wf (m_body m')) as Wb' by (by rewrite Eb).
  assert (wf (m_trailer m')) as Wt' by (rewrite Et; by apply wf_setField_tag; [|by_compute]).
  assert (m_order (m_header m0) = m_order (m_header m')) as Oh' by (by rewrite Oh0, Eh, setField_order).
  assert (m_order (m_body m0) = m_order (m_body m')) as Ob' by (by rewrite Ob0, Eb).
  assert (m_order (m_trailer m0) = m_order (m_trailer m')) as Ot' by (by rewrite Ot0, Et, setField_order).
  rewrite !calculateString_plain, <- !encoded_app in Estr by done.
  eexists _, m', _. split; [exact Es|]. split.
  { rewrite Estr. unfold setString.
    pose proof (decode_loop_encoded _ [] (mkDecoding (clearMessage m0) 0 0 [] header_type None 0)
      _ Hplain eq_refl eq_refl Hord (Nat.lt_succ_diag_r _)) as Hdec.
    cbn [app] in Hdec. rewrite Hdec. clear Hdec. cbn [mbind result_bind]. rewrite decoded_message by done.
    cbn [m_header m_body m_trailer with_header with_body with_trailer].
    rewrite Oh', Ob', Ot', !sort_decoded.
    2-4: by eapply wf_eq.
    unfold with_trailer, with_body, with_header. cbn.
    rewrite (decoded_validates m' (len mid) (checkSum m' FIELD.CheckSum)); try done.
    - rewrite Eh. rewrite getField_setField by (done || by_compute). done.
    - eexists. rewrite Et. rewrite getField_setField by (done || by_compute). split; [done|]. rewrite Ec. exact Pc.
    - by rewrite En, <- (toString_bodyLength m m' (len mid) cks Hm).
    - rewrite Ec. apply Z.mod_pos_bound. done. }
  cbn [m_header m_body m_trailer m_validStructure]. rewrite !contents_decoded. split_and!; [done | by rewrite Eb | done | done].
Qed.

(** ** Properties *)

(** C21 Encode, then decode: a sendable message (less than eight megabytes, so that the
    sums of bytes are exact) without groups whose values hold no SOH is read back, by any
    message with the same orders, without a dictionary and with validation of length and
    checksum, as the same fields with the same values in the same places. *)
Theorem setString_toString m m0 :
  sendable m -> plain m ->
  m_order (m_header m0) = m_order (m_header m) -> m_order (m_body m0) = m_order (m_body m) ->
  m_order (m_trailer m0) = m_order (m_trailer m) ->
  exists s m' m'',
    toString_default m = Ok (s, m') /\ setString m0 s true None None = Ok m'' /\
    contents (m_header m'') = contents (m_header m') /\ contents (m_body m'') = contents (m_body m) /\
    contents (m_trailer m'') = contents (m_trailer m') /\ m_validStructure m'' = true.
Proof. apply decode_encode. Qed.

(** The same order without its group. *)
Definition plain_body : FieldMap := setField_tag (new_FieldMap (new_message_order normal)) 55 (lit "MSFT").
Definition plain_sample : Message := with_body (with_header new_Message sample_header) plain_body.

Lemma plain_sample_sendable : sendable plain_sample.
Proof.
  pose proof sample_sendable as [Wh _ Wt Oh _ Ch _ _ _ _ _ _ Ht _].
  assert (forall mode, wf (new_FieldMap (new_message_order mode))) as Hnew by (intros; apply wf_new, built_mode).
  split; try done.
  - apply wf_setField_tag; by_compute || apply Hnew.
  - apply counted_setField_tag; by_compute || apply Hnew || apply counted_new.
  - apply counted_new.
  - intros f [->|[->| ->]]; constructor.
  - unfold body_fields. by_compute.
Qed.

Lemma plain_sample_plain : plain plain_sample.
Proof.
  split.
  - done.
  - repeat constructor; by_compute.
  - repeat constructor; by_compute.
  - constructor.
  - reflexivity.
Qed.

Lemma setString_toString_witness :
  exists s m' m'',
    toString_default plain_sample = Ok (s, m') /\ setString new_Message s true None None = Ok m'' /\
    contents (m_header m'') = contents (m_header m') /\ contents (m_body m'') = contents (m_body plain_sample) /\
    contents (m_trailer m'') = contents (m_trailer m') /\ m_validStructure m'' = true.
Proof. exact (setString_toString plain_sample new_Message plain_sample_sendable plain_sample_plain eq_refl eq_refl eq_refl). Defined.
