(* ===== verification/DictValidate.v ===== *)
(** * Validation of a message against data dictionaries
    ([src/C++/DataDictionary.h], [src/C++/DataDictionary.cpp])

    The static [validate], the walk over a map's fields [iterate], and the
    checks they call. A check returns normally or throws; the checks read the
    dictionary and the message and change neither. *)
From S2P Require Import Prelude Convertors TimeConvertors Values OrdMap MessageSorters Field FieldMap DictData Message.

(** ** The checks *)

Definition checkMsgType (msgType : str) (d : DataDictionary) : result unit :=
  guard_or (isMsgType msgType d) (InvalidMessageType []).

Definition shouldCheckTag (field : FieldBase) (d : DataDictionary) : bool :=
  if m_allowUnknownMessageFields d && (getTag field <? FIELD.UserMin) then false
  else if negb (m_checkUserDefinedFields d) && (FIELD.UserMin <=? getTag field) then false
  else true.

Definition checkValidTagNumber (field : FieldBase) (d : DataDictionary) : result unit :=
  guard_or (isField (getTag field) d) (InvalidTagNumber (getTag field) []).

(** The result of a conversion, discarded. *)
Definition discard {A} (r : result A) : result unit := (fun _ => ()) <$> r.

(** The convertor of each type; [StringConvertor] accepts everything. *)
Definition convertor_of (type : FieldType) (value : str) : result unit :=
  match type with
  | Char => discard (CharConvertor_of_string value)
  | Price | Amt | Qty | Float | PriceOffset | Percentage => DoubleConvertor_check value
  | Int_ | NumInGroup | TagNum | Length_ => discard (IntT_of_string int32_t value)
  | SeqNum => discard (IntT_of_string uint64_t value)
  | UtcTimeStamp => discard (UtcTimeStampConvertor_of_string value)
  | UtcDate => discard (UtcDateConvertor_of_string value)
  | UtcTimeOnly => discard (UtcTimeOnlyConvertor_of_string value)
  | Boolean => discard (BoolConvertor_of_string value)
  | String_ | Currency | MultipleValueString | MultipleStringValue | MultipleCharValue | Exchange
  | LocalMktTime | LocalMktDate | Data | MonthYear | DayOfMonth | Country | TzTimeOnly | TzTimeStamp
  | XmlData | Language | Xid | XidRef | Unknown => Ok ()
  end.

Definition checkValidFormat (field : FieldBase) (d : DataDictionary) : result unit :=
  match convertor_of (default Unknown (getFieldType (getTag field) d)) (getString field) with
  | Throw (FieldConvertError _) => Throw (IncorrectDataFormat (getTag field) (getString field))
  | r => r
  end.

Definition checkValue (field : FieldBase) (d : DataDictionary) : result unit :=
  if negb (hasFieldValue (getTag field) d) then Ok ()
  else guard_or (isFieldValue (getTag field) (getString field) d) (IncorrectTagValue (getTag field) []).

Definition checkHasValue (field : FieldBase) (d : DataDictionary) : result unit :=
  guard_or (negb (m_checkFieldsHaveValues d && bool_decide (getString field = []))) (NoTagValue (getTag field) []).

Definition checkIsInMessage (field : FieldBase) (msgType : str) (d : DataDictionary) : result unit :=
  guard_or (isMsgField msgType (getTag field) d) (TagNotDefinedForMessage (getTag field) []).

Definition checkGroupCount (field : FieldBase) (fieldMap : FieldMap) (msgType : str) (d : DataDictionary) : result unit :=
  let fieldNum := getTag field in
  if isGroup msgType fieldNum d then
    count ← IntT_of_string int32_t (getString field);
    guard_or (i32 (groupCount fieldMap fieldNum) =? count) (RepeatingGroupCountMismatch fieldNum [])
  else Ok ()
.

(** [if (NBF.second == true && !map.isSetField(NBF.first)) throw ...]. *)
Definition checkRequiredIn (map : FieldMap) (NBF : Z * bool) : result unit :=
  guard_or (negb (snd NBF && negb (isSetField map (fst NBF)))) (RequiredTagMissing (fst NBF) []).

(** The recursion is on the body, whose groups it enters with their own
    dictionaries; an entry of a group is its own header and trailer. *)
Fixpoint checkHasRequired (body : FieldMap) (header trailer : FieldMap) (msgType : str) (d : DataDictionary)
    {struct body} : result unit :=
  _ ← for_each (checkRequiredIn header) (m_headerFields d);
  _ ← for_each (checkRequiredIn trailer) (m_trailerFields d);
  match str_lookup msgType (m_requiredFields d) with
  | None => Ok ()
  | Some fields =>
      _ ← for_each (fun '(F, _) => guard_or (isSetField body F) (RequiredTagMissing F [])) fields;
      match body with
      | mkFieldMap _ groups _ =>
          for_each (fun '(field, entries) =>
            match getGroup msgType field d with
            | Some (_, DD) => for_each (fun entry => checkHasRequired entry entry entry msgType DD) entries
            | None => Ok ()
            end) groups
      end
  end.

(** ** [iterate] *)

(** The checks of one field, after the test for a repeated tag. *)
Definition check_field (map : FieldMap) (msgType : str) (d : DataDictionary) (field : FieldBase) : result unit :=
  _ ← checkHasValue field d;
  _ ← (if m_hasVersion d then _ ← checkValidFormat field d; checkValue field d else Ok ());
  if bool_decide (m_beginString d <> []) && shouldCheckTag field d then
    _ ← checkValidTagNumber field d;
    if negb (isHeaderField (getTag field) (Some d)) && negb (isTrailerField (getTag field) (Some d)) then
      _ ← checkIsInMessage field msgType d;
      checkGroupCount field map msgType d
    else Ok ()
  else Ok ().

(** The loop; [lastField] is [None] at [map.begin()]. *)
Fixpoint iterate_loop (map : FieldMap) (msgType : str) (d : DataDictionary) (lastField : option Z)
    (fields : list FieldBase) : result unit :=
  match fields with
  | [] => Ok ()
  | field :: fields =>
      _ ← match lastField with
          | Some last => guard_or (negb (getTag field =? last)) (RepeatedTag last [])
          | None => Ok ()
          end;
      _ ← check_field map msgType d field;
      iterate_loop map msgType d (Some (getTag field)) fields
  end.

Definition iterate (map : FieldMap) (msgType : str) (d : DataDictionary) : result unit :=
  iterate_loop map msgType d None (m_fields map).

(** ** [validate] *)

Definition on_dictionary (pD : option DataDictionary) (f : DataDictionary -> result unit) : result unit :=
  match pD with Some d => f d | None => Ok () end.

Definition checks_order (pD : option DataDictionary) : bool :=
  match pD with Some d => m_checkFieldsOutOfOrder d | None => false end.

Definition dd_validate (message : Message) (pSessionDD pAppDD : option DataDictionary) : result unit :=
  beginString ← getField (m_header message) FIELD.BeginString;
  msgType ← getField (m_header message) FIELD.MsgType;
  _ ← on_dictionary pSessionDD (fun d =>
        guard_or (negb (m_hasVersion d && bool_decide (m_beginString d <> beginString))) (UnsupportedVersion []));
  _ ← guard_or (m_outOfOrderGroupTag message =? 0) (OutOfOrderGroupMembers (m_outOfOrderGroupTag message) []);
  _ ← guard_or (m_embeddedSOHTag message =? 0) (EmbeddedSOH (m_embeddedSOHTag message) []);
  _ ← (if checks_order pSessionDD || checks_order pAppDD
       then guard_or (m_validStructure message) (TagOutOfOrder (m_invalidTag message) []) else Ok ());
  _ ← on_dictionary pAppDD (fun d =>
        if m_hasVersion d then
          _ ← checkMsgType msgType d;
          checkHasRequired (m_body message) (m_header message) (m_trailer message) msgType d
        else Ok ());
  _ ← on_dictionary pSessionDD (fun d =>
        _ ← iterate (m_header message) msgType d;
        iterate (m_trailer message) msgType d);
  on_dictionary pAppDD (iterate (m_body message) msgType).

(** [validate(message, bodyOnly)]. *)
Definition dd_validate_bodyOnly (message : Message) (bodyOnly : bool) (d : DataDictionary) : result unit :=
  dd_validate message (if bodyOnly then None else Some d) (Some d).

(** ** What is accepted *)

Section Spec.
Variables (msgType : str) (d : DataDictionary) (map : FieldMap).

(** The tag of the field is checked against the dictionary. *)
Definition tag_checked (f : FieldBase) : Prop := m_beginString d <> [] /\ shouldCheckTag f d = true.

Definition is_body_tag (f : FieldBase) : Prop :=
  isHeaderField (getTag f) (Some d) = false /\ isTrailerField (getTag f) (Some d) = false.

(** A field conforms: it has a value where values are required, the value has
    the format of its type and is one of its enumerated values, the tag is
    known and belongs to the message, and a count is the number of entries. *)
Record field_valid (f : FieldBase) : Prop := {
  fv_value : m_checkFieldsHaveValues d = true -> getString f <> [];
  fv_format : m_hasVersion d = true ->
    convertor_of (default Unknown (getFieldType (getTag f) d)) (getString f) = Ok ();
  fv_enum : m_hasVersion d = true -> hasFieldValue (getTag f) d = true ->
    isFieldValue (getTag f) (getString f) d = true;
  fv_known : tag_checked f -> isField (getTag f) d = true;
  fv_defined : tag_checked f -> is_body_tag f -> isMsgField msgType (getTag f) d = true;
  fv_count : tag_checked f -> is_body_tag f -> isGroup msgType (getTag f) d = true ->
    IntT_of_string int32_t (getString f) = Ok (i32 (groupCount map (getTag f))) }.

Lemma checkValidFormat_Ok f :
  checkValidFormat f d = Ok () <->
  convertor_of (default Unknown (getFieldType (getTag f) d)) (getString f) = Ok ().
Proof. unfold checkValidFormat. by destruct (convertor_of _ _) as [|[]]. Qed.

Lemma checkValue_Ok f :
  checkValue f d = Ok () <-> (hasFieldValue (getTag f) d = true -> isFieldValue (getTag f) (getString f) d = true).
Proof.
  unfold checkValue. destruct (hasFieldValue _ _); simpl; [|done]. rewrite guard_or_Ok.
  split; [done | by intros H; apply H].
Qed.

Lemma checkHasValue_Ok f : checkHasValue f d = Ok () <-> (m_checkFieldsHaveValues d = true -> getString f <> []).
Proof.
  unfold checkHasValue. rewrite guard_or_Ok. destruct (m_checkFieldsHaveValues d); simpl; [|done].
  rewrite negb_true_iff, bool_decide_eq_false. split; [done | by intros H; apply H].
Qed.

Lemma checkGroupCount_Ok f :
  checkGroupCount f map msgType d = Ok () <->
  (isGroup msgType (getTag f) d = true -> IntT_of_string int32_t (getString f) = Ok (i32 (groupCount map (getTag f)))).
Proof.
  unfold checkGroupCount. destruct (isGroup _ _ _); [|done].
  destruct (IntT_of_string _ _) as [n|e]; cbn [mbind result_bind].
  - rewrite guard_or_Ok, Z.eqb_eq. split; [by intros -> | intros H; injection (H eq_refl); done].
  - split; [done|]. intros H. discriminate (H eq_refl).
Qed.

Lemma bind_unit_Ok (r s : result unit) : (_ ← r; s) = Ok () <-> r = Ok () /\ s = Ok ().
Proof. destruct r as [[]|]; simpl; [tauto|]. split; [done | by intros []]. Qed.

Lemma check_field_Ok f : check_field map msgType d f = Ok () <-> field_valid f.
Proof.
  unfold check_field. rewrite !bind_unit_Ok, checkHasValue_Ok.
  assert ((if m_hasVersion d then _ ← checkValidFormat f d; checkValue f d else Ok ()) = Ok () <->
          (m_hasVersion d = true ->
           convertor_of (default Unknown (getFieldType (getTag f) d)) (getString f) = Ok () /\
           (hasFieldValue (getTag f) d = true -> isFieldValue (getTag f) (getString f) d = true))) as ->.
  { destruct (m_hasVersion d); [|done]. rewrite bind_unit_Ok, checkValidFormat_Ok, checkValue_Ok.
    split; [done | by intros H; apply H]. }
  assert (bool_decide (m_beginString d <> []) && shouldCheckTag f d = true <-> tag_checked f) as Htag.
  { unfold tag_checked. by rewrite andb_true_iff, bool_decide_eq_true. }
  assert (negb (isHeaderField (getTag f) (Some d)) && negb (isTrailerField (getTag f) (Some d)) = true <->
          is_body_tag f) as Hbody.
  { unfold is_body_tag. by rewrite andb_true_iff, !negb_true_iff. }
  destruct (bool_decide (m_beginString d <> []) && shouldCheckTag f d).
  - rewrite bind_unit_Ok. unfold checkValidTagNumber. rewrite guard_or_Ok.
    assert (tag_checked f) as Ht by (by apply Htag).
    destruct (negb _ && negb _).
    + rewrite bind_unit_Ok. unfold checkIsInMessage. rewrite guard_or_Ok, checkGroupCount_Ok.
      assert (is_body_tag f) as Hb by (by apply Hbody).
      split; [intros (? & H & ? & ? & ?); split; try done; intros E; by destruct (H E) |].
      intros []. split_and!; auto.
    + assert (~ is_body_tag f) as Hb by (intros H; by apply Hbody in H).
      split; [intros (? & H & ? & _); split; try done; intros E; by destruct (H E) |].
      intros []. split_and!; auto.
  - assert (~ tag_checked f) as Ht by (intros H; by apply Htag in H).
    split; [intros (? & H & _); split; try done; intros E; by destruct (H E) |].
    intros []. split_and!; auto.
Qed.

(** No field repeats the tag of the one before it. *)
Fixpoint no_repeat (lastField : option Z) (fields : list FieldBase) : Prop :=
  match fields with
  | [] => True
  | f :: fields => lastField <> Some (getTag f) /\ no_repeat (Some (getTag f)) fields
  end.

Lemma iterate_loop_Ok lastField fields :
  iterate_loop map msgType d lastField fields = Ok () <-> no_repeat lastField fields /\ Forall field_valid fields.
Proof.
  revert lastField. induction fields as [|f fields IH]; intros lastField; simpl; [by split|].
  rewrite !bind_unit_Ok, check_field_Ok, IH, Forall_cons.
  assert (match lastField with
          | Some last => guard_or (negb (getTag f =? last)) (RepeatedTag last [])
          | None => Ok ()
          end = Ok () <-> lastField <> Some (getTag f)) as ->; [|tauto].
  destruct lastField as [last|]; [|done]. rewrite guard_or_Ok, negb_true_iff, Z.eqb_neq. split; congruence.
Qed.
End Spec.

Lemma less_of_not o x y :
  built_order o -> tag x -> tag y -> x <> y -> less o y x = false -> less o x y = true.
Proof. intros Ho Hx Hy Hne H. destruct (less_total_tags o Ho x y Hx Hy Hne); congruence. Qed.

(** In a sorted map equal tags are neighbours. *)
Lemma no_repeat_sorted o fields :
  built_order o -> sorted_by o fields -> tags_ok fields ->
  (no_repeat None fields <-> NoDup (map getTag fields)).
Proof.
  intros Ho Hs Ht. split.
  - induction fields as [|f fields IH]; simpl; [constructor|]. intros [_ Hn].
    inversion Hs as [|? ? Hs' Hf]; subst. inversion Ht as [|? ? Tf Ht']; subst.
    assert (Forall (fun g => less o (getTag f) (getTag g) = true) fields) as Hless.
    { destruct fields as [|g fields]; [constructor|]. destruct Hn as [Hne Hn].
      inversion Hs' as [|? ? _ Hg]; subst. inversion Ht' as [|? ? Tg Ht'']; subst.
      apply Forall_cons in Hf as [Hfg _].
      assert (less o (getTag f) (getTag g) = true) as Hlt by (apply less_of_not; try done; congruence).
      constructor; [done|]. rewrite Forall_forall in Hg, Ht'' |- *. intros h Hh.
      destruct (decide (getTag g = getTag h)) as [<-|Hgh]; [done|].
      apply (less_trans o Ho _ (getTag g)); try done; [by apply Ht''|].
      apply less_of_not; try done; [by apply Ht'' | by apply Hg]. }
    apply NoDup_cons. split.
    + intros (g & E & Hg)%list_elem_of_fmap. rewrite Forall_forall in Hless. specialize (Hless g Hg).
      rewrite E, less_irrefl in Hless; [done | done |]. rewrite <- E. done.
    + apply IH; try done. destruct fields; [done|]. simpl in *. split; [done | apply Hn].
  - assert (forall last, (forall f, last = Some (getTag f) -> f ∈ fields -> False) -> NoDup (map getTag fields) ->
      no_repeat last fields) as H; [|by apply H].
    clear Hs Ht. induction fields as [|f fields IH]; intros last Hl; simpl; [done|].
    intros [Hf Hn]%NoDup_cons. split.
    + intros ->. apply (Hl f eq_refl). by left.
    + apply IH; [|done]. intros g [= E] Hg. apply Hf. rewrite E. by apply list_elem_of_fmap_2.
Qed.

(** The fields of a map conform. *)
Definition map_valid (map : FieldMap) (msgType : str) (d : DataDictionary) : Prop :=
  NoDup (List.map getTag (m_fields map)) /\ Forall (field_valid msgType d map) (m_fields map).

Lemma iterate_Ok map msgType d : wf map -> (iterate map msgType d = Ok () <-> map_valid map msgType d).
Proof.
  intros (Ho & (Hs & Ht & _) & _)%wf_eq. unfold iterate, map_valid. rewrite iterate_loop_Ok.
  by rewrite (no_repeat_sorted (m_order map)).
Qed.

(** ** Required fields *)

(** An entry of a group of [b], with the dictionary the group is checked against.
    A dictionary that requires nothing of the message type is not looked into
    any further. *)
Inductive entry_of (msgType : str) (d : DataDictionary) (b : FieldMap) : DataDictionary -> FieldMap -> Prop :=
| entry_here required field delim DD entries entry :
    str_lookup msgType (m_requiredFields d) = Some required ->
    (field, entries) ∈ m_groups b -> getGroup msgType field d = Some (delim, DD) -> entry ∈ entries ->
    entry_of msgType d b DD entry.

(** Entries at any depth. *)
Inductive inside (msgType : str) : DataDictionary -> FieldMap -> DataDictionary -> FieldMap -> Prop :=
| inside_one d b DD entry : entry_of msgType d b DD entry -> inside msgType d b DD entry
| inside_more d b DD entry d' b' :
    entry_of msgType d b DD entry -> inside msgType DD entry d' b' -> inside msgType d b d' b'.

(** The same without that condition: every entry at every depth. *)
Inductive group_entry (msgType : str) (d : DataDictionary) (b : FieldMap) : DataDictionary -> FieldMap -> Prop :=
| group_entry_here field delim DD entries entry :
    (field, entries) ∈ m_groups b -> getGroup msgType field d = Some (delim, DD) -> entry ∈ entries ->
    group_entry msgType d b DD entry.

Inductive within (msgType : str) : DataDictionary -> FieldMap -> DataDictionary -> FieldMap -> Prop :=
| within_one d b DD entry : group_entry msgType d b DD entry -> within msgType d b DD entry
| within_more d b DD entry d' b' :
    group_entry msgType d b DD entry -> within msgType DD entry d' b' -> within msgType d b d' b'.

(** A dictionary requires some field of a message type, and so does the dictionary of
    every entry. *)
Definition demands (msgType : str) (d : DataDictionary) : Prop := is_Some (str_lookup msgType (m_requiredFields d)).
Definition demanding (msgType : str) (d : DataDictionary) (b : FieldMap) : Prop :=
  demands msgType d /\ forall d' b', within msgType d b d' b' -> demands msgType d'.

Lemma inside_within msgType d b d' b' : inside msgType d b d' b' -> within msgType d b d' b'.
Proof.
  induction 1 as [d b DD entry []|d b DD entry d' b' [] _ IH]; [apply within_one | eapply within_more; [|exact IH]];
    by eapply group_entry_here.
Qed.

Lemma within_inside msgType d b d' b' : demanding msgType d b -> within msgType d b d' b' -> inside msgType d b d' b'.
Proof.
  intros [Hd Hall] Hw. induction Hw as [d b DD entry He|d b DD entry d' b' He Hw IH]; destruct Hd as [required Hr];
    pose proof He as He0; destruct He as [field delim DD entries entry Hin Hg Hen].
  - apply inside_one. by eapply entry_here.
  - eapply inside_more; [by eapply entry_here|]. apply IH; [by eapply Hall, within_one|].
    intros d2 b2 Hw2. eapply Hall. by eapply within_more.
Qed.

(** The required fields of one level are set. *)
Definition required_set (msgType : str) (d : DataDictionary) (header body trailer : FieldMap) : Prop :=
  (forall F, (F, true) ∈ m_headerFields d -> isSetField header F = true) /\
  (forall F, (F, true) ∈ m_trailerFields d -> isSetField trailer F = true) /\
  (forall F, isRequiredField msgType F d = true -> isSetField body F = true).

Lemma checkRequiredIn_Ok map l :
  for_each (checkRequiredIn map) l = Ok () <-> (forall F, (F, true) ∈ l -> isSetField map F = true).
Proof.
  rewrite for_each_Ok, Forall_forall. split.
  - intros H F HF. specialize (H _ HF). unfold checkRequiredIn in H. apply guard_or_Ok in H. simpl in H.
    by destruct (isSetField map F).
  - intros H [F b] HF. unfold checkRequiredIn. apply guard_or_Ok. simpl. destruct b; [|done].
    by rewrite (H F HF).
Qed.

Lemma required_fields_Ok body msgType d fields :
  str_lookup msgType (m_requiredFields d) = Some fields ->
  for_each (fun '(F, _) => guard_or (isSetField body F) (RequiredTagMissing F [])) fields = Ok () <->
  (forall F, isRequiredField msgType F d = true -> isSetField body F = true).
Proof.
  intros E. unfold isRequiredField. rewrite E, for_each_Ok, Forall_forall. unfold set_mem. split.
  - intros H F HF. destruct (map_lookup F fields) as [u|] eqn:EF; [|done]. apply map_lookup_Some in EF.
    specialize (H _ EF). by apply guard_or_Ok in H.
  - intros H [F u] HF. apply guard_or_Ok, H.
    assert (map_lookup F fields <> None) as HN
      by (apply map_lookup_keys; by apply (list_elem_of_fmap_2 fst fields (F, u))).
    by destruct (map_lookup F fields).
Qed.

(** The recursive call, over the groups. *)
Lemma checkHasRequired_eq body header trailer msgType d :
  checkHasRequired body header trailer msgType d = Ok () <->
  required_set msgType d header body trailer /\
  (forall DD entry, entry_of msgType d body DD entry -> checkHasRequired entry entry entry msgType DD = Ok ()).
Proof.
  unfold required_set. destruct body as [fields groups o]. cbn [checkHasRequired].
  rewrite !bind_unit_Ok, !checkRequiredIn_Ok.
  destruct (str_lookup msgType (m_requiredFields d)) as [required|] eqn:E.
  - rewrite bind_unit_Ok, (required_fields_Ok _ _ _ _ E).
    assert (for_each (fun '(field, entries) =>
              match getGroup msgType field d with
              | Some (_, DD) => for_each (fun entry => checkHasRequired entry entry entry msgType DD) entries
              | None => Ok ()
              end) groups = Ok () <->
            (forall DD entry, entry_of msgType d (mkFieldMap fields groups o) DD entry ->
               checkHasRequired entry entry entry msgType DD = Ok ())) as ->; [|tauto].
    rewrite for_each_Ok, Forall_forall. split.
    + intros H DD entry [r field delim DD' entries entry' _ Hin Hg He]. specialize (H _ Hin). simpl in H.
      rewrite Hg, for_each_Ok, Forall_forall in H. by apply H.
    + intros H [field entries] Hin. destruct (getGroup msgType field d) as [[delim DD]|] eqn:Hg; [|done].
      apply for_each_Ok, Forall_forall. intros entry He. apply H. by eapply entry_here.
  - split; [|tauto]. intros (H1 & H2 & _). split_and!; try done.
    + unfold isRequiredField. by rewrite E.
    + intros DD entry []. congruence.
Qed.

(** The abstract reading of [checkHasRequired]. *)
Definition all_required (msgType : str) (d : DataDictionary) (header body trailer : FieldMap) : Prop :=
  required_set msgType d header body trailer /\
  forall d' b', inside msgType d body d' b' -> required_set msgType d' b' b' b'.

(** The required fields of every level are set. *)
Definition complete (msgType : str) (d : DataDictionary) (header body trailer : FieldMap) : Prop :=
  required_set msgType d header body trailer /\
  forall d' b', within msgType d body d' b' -> required_set msgType d' b' b' b'.

Lemma all_required_complete msgType d header body trailer :
  (complete msgType d header body trailer -> all_required msgType d header body trailer) /\
  (demanding msgType d body -> all_required msgType d header body trailer -> complete msgType d header body trailer).
Proof.
  split; [intros [H1 H2] | intros Hd [H1 H2]]; (split; [done|]); intros d' b' H.
  - by apply H2, inside_within.
  - by apply H2, within_inside.
Qed.

Lemma checkHasRequired_Ok body header trailer msgType d :
  checkHasRequired body header trailer msgType d = Ok () <-> all_required msgType d header body trailer.
Proof.
  unfold all_required. rewrite checkHasRequired_eq.
  assert ((forall DD entry, entry_of msgType d body DD entry -> checkHasRequired entry entry entry msgType DD = Ok ()) <->
          (forall d' b', inside msgType d body d' b' -> required_set msgType d' b' b' b')) as ->; [|done].
  split.
  - intros H d' b' Hin. induction Hin as [d b DD entry He | d b DD entry d' b' He Hin IH].
    + apply H, checkHasRequired_eq in He. apply He.
    + apply IH. apply H, checkHasRequired_eq in He. apply He.
  - revert d. induction body as [fields groups o IH] using FieldMap_nested_ind. intros d H DD entry He.
    apply checkHasRequired_eq. split; [apply H; by constructor|].
    inversion He as [r field delim DD' entries entry' _ Hin _ Hen]; subst.
    rewrite Forall_forall in IH. specialize (IH _ Hin). rewrite Forall_forall in IH. apply (IH _ Hen).
    intros d' b' Hi. apply H. by eapply inside_more.
Qed.

Lemma on_dictionary_Ok pD f : on_dictionary pD f = Ok () <-> (forall d, pD = Some d -> f d = Ok ()).
Proof. destruct pD as [d|]; simpl; [|done]. split; [by intros H ? [= <-] | by intros H; apply H]. Qed.

Lemma impl_iff (P Q R : Prop) : (P -> (Q <-> R)) -> ((P -> Q) <-> (P -> R)).
Proof. tauto. Qed.

Lemma and_iff_compat (P Q R S : Prop) : (P <-> R) -> (Q <-> S) -> (P /\ Q <-> R /\ S).
Proof. tauto. Qed.

Lemma forall_iff {A} (P Q : A -> Prop) : (forall x, P x <-> Q x) -> ((forall x, P x) <-> (forall x, Q x)).
Proof. intros H. split; intros G x; by apply H. Qed.

Lemma version_Ok s begin :
  guard_or (negb (m_hasVersion s && bool_decide (m_beginString s <> begin))) (UnsupportedVersion []) = Ok () <->
  (m_hasVersion s = true -> m_beginString s = begin).
Proof.
  rewrite guard_or_Ok. destruct (m_hasVersion s); simpl; [|done]. rewrite negb_true_iff, bool_decide_eq_false.
  split; [|tauto]. intros H _. by destruct (decide (m_beginString s = begin)).
Qed.

Lemma structure_Ok m pSessionDD pAppDD :
  (if checks_order pSessionDD || checks_order pAppDD
   then guard_or (m_validStructure m) (TagOutOfOrder (m_invalidTag m) []) else Ok ()) = Ok () <->
  (forall d, pSessionDD = Some d \/ pAppDD = Some d -> m_checkFieldsOutOfOrder d = true -> m_validStructure m = true).
Proof.
  assert (checks_order pSessionDD || checks_order pAppDD = true <->
          exists d, (pSessionDD = Some d \/ pAppDD = Some d) /\ m_checkFieldsOutOfOrder d = true) as Hc.
  { unfold checks_order. rewrite orb_true_iff. split.
    - destruct pSessionDD, pAppDD; intros []; eauto; done.
    - intros (d & [->| ->] & H); auto. }
  destruct (checks_order pSessionDD || checks_order pAppDD).
  - rewrite guard_or_Ok. destruct (proj1 Hc eq_refl) as (d & Hd & Ho). split; [done|]. intros H. by apply (H d).
  - split; [|done]. intros _ d Hd Ho. exfalso. apply Bool.diff_false_true, Hc. eauto.
Qed.

(** ** Properties *)


(** ** Rejections *)

(** What an exception of [iterate] says of the field at fault, [before] being the
    fields checked before it. *)
Definition fault (msgType : str) (d : DataDictionary) (map : FieldMap) (before : list FieldBase) (f : FieldBase)
    (e : exn) : Prop :=
  match e with
  | RepeatedTag t [] => t = getTag f /\ getTag <$> last before = Some t
  | NoTagValue t [] => t = getTag f /\ getString f = [] /\ m_checkFieldsHaveValues d = true
  | IncorrectDataFormat t v =>
      t = getTag f /\ v = getString f /\ m_hasVersion d = true /\
      convertor_of (default Unknown (getFieldType t d)) v = Throw (FieldConvertError v)
  | IncorrectTagValue t [] =>
      t = getTag f /\ m_hasVersion d = true /\ hasFieldValue t d = true /\ isFieldValue t (getString f) d = false
  | InvalidTagNumber t [] => t = getTag f /\ tag_checked d f /\ isField t d = false
  | TagNotDefinedForMessage t [] =>
      t = getTag f /\ tag_checked d f /\ is_body_tag d f /\ isMsgField msgType t d = false
  | RepeatingGroupCountMismatch t [] =>
      t = getTag f /\ isGroup msgType t d = true /\
      exists n, IntT_of_string int32_t (getString f) = Ok n /\ n <> i32 (groupCount map t)
  | FieldConvertError v =>
      v = getString f /\ isGroup msgType (getTag f) d = true /\ IntT_convert int32_t v = None
  | _ => False
  end.

Lemma guard_or_Throw b e e' : guard_or b e = Throw e' <-> b = false /\ e' = e.
Proof. destruct b; simpl; split; naive_solver. Qed.

Lemma bind_unit_Throw (r s : result unit) e : (_ ← r; s) = Throw e <-> r = Throw e \/ (r = Ok () /\ s = Throw e).
Proof. destruct r as [[]|]; simpl; naive_solver. Qed.

Lemma IntT_of_string_Throw T s e :
  IntT_of_string T s = Throw e <-> IntT_convert T s = None /\ e = FieldConvertError s.
Proof. unfold IntT_of_string. destruct (IntT_convert T s); simpl; split; naive_solver. Qed.

(** Every convertor throws [FieldConvertError] of the value, or nothing. *)
Definition converts {A} (value : str) (r : result A) : Prop :=
  match r with Ok _ => True | Throw e => e = FieldConvertError value end.

Lemma converts_guard {A} value b (k : result A) :
  converts value k -> converts value (_ ← guard_or b (FieldConvertError value); k).
Proof. by destruct b. Qed.

Lemma converts_discard {A} value (r : result A) : converts value r -> converts value (discard r).
Proof. by destruct r. Qed.

Lemma convertor_of_converts type value : converts value (convertor_of type value).
Proof.
  destruct type; try exact I; unfold convertor_of; try apply converts_discard;
    unfold IntT_of_string, DoubleConvertor_check, UtcTimeStampConvertor_of_string, UtcTimeOnlyConvertor_of_string,
      UtcDateConvertor_of_string; cbv zeta;
    try (by destruct (IntT_convert _ _)); try (by destruct (DoubleConvertor_accepts _)).
  all: repeat (apply converts_guard || case_match; try exact I).
  - by destruct value as [|c [|]].
  - destruct value as [|c [|]]; try done. unfold BoolConvertor_of_string. by repeat case_bool.
Qed.

Lemma check_field_Throw map msgType d f before e :
  check_field map msgType d f = Throw e -> fault msgType d map before f e.
Proof.
  unfold check_field. rewrite bind_unit_Throw. unfold checkHasValue at 1. rewrite guard_or_Throw.
  intros [[H ->]|[_ H]].
  { simpl. apply negb_false_iff, andb_true_iff in H as [? ?%bool_decide_eq_true]. done. }
  apply bind_unit_Throw in H as [H|[_ H]].
  { destruct (m_hasVersion d) eqn:Hv; [|done]. apply bind_unit_Throw in H as [H|[_ H]].
    - unfold checkValidFormat in H. pose proof (convertor_of_converts (default Unknown (getFieldType (getTag f) d)) (getString f)) as Hc.
      destruct (convertor_of _ _) as [|e'] eqn:Ec; [done|]. simpl in Hc. subst e'. injection H as <-. done.
    - unfold checkValue in H. destruct (hasFieldValue _ _) eqn:Eh; [|done]. simpl in H.
      apply guard_or_Throw in H as [H ->]. done. }
  destruct (bool_decide (m_beginString d <> []) && shouldCheckTag f d) eqn:Ht; [|done].
  assert (tag_checked d f) as Htag by (apply andb_true_iff in Ht as [?%bool_decide_eq_true ?]; by split).
  apply bind_unit_Throw in H as [[H ->]%guard_or_Throw|[_ H]]; [done|].
  destruct (negb _ && negb _) eqn:Hb; [|done].
  assert (is_body_tag d f) as Hbody by (apply andb_true_iff in Hb as [?%negb_true_iff ?%negb_true_iff]; by split).
  apply bind_unit_Throw in H as [[H ->]%guard_or_Throw|[_ H]]; [done|].
  unfold checkGroupCount in H. destruct (isGroup _ _ _) eqn:Hg; [|done].
  destruct (IntT_of_string _ _) as [n|e'] eqn:En; cbn [mbind result_bind] in H.
  - apply guard_or_Throw in H as [H%Z.eqb_neq ->]. simpl. split_and!; [done | done |]. exists n. done.
  - injection H as <-. apply IntT_of_string_Throw in En as [En ->]. done.
Qed.

Lemma iterate_loop_Throw map msgType d before fields e :
  iterate_loop map msgType d (getTag <$> last before) fields = Throw e ->
  exists l1 f l2, fields = l1 ++ f :: l2 /\ Forall (field_valid msgType d map) l1 /\
    fault msgType d map (before ++ l1) f e.
Proof.
  revert before. induction fields as [|f fields IH]; intros before; cbn [iterate_loop]; [done|].
  intros [H|[_ H]]%bind_unit_Throw.
  { exists [], f, fields. rewrite app_nil_r. split_and!; [done | constructor |].
    destruct (last before) as [g|] eqn:El; simpl in H; [|done]. apply guard_or_Throw in H as [H ->].
    apply negb_false_iff, Z.eqb_eq in H. simpl. rewrite El. simpl. by rewrite H. }
  apply bind_unit_Throw in H as [H|[Hf H]].
  { exists [], f, fields. split_and!; [done | constructor | by eapply check_field_Throw]. }
  destruct (IH (before ++ [f])) as (l1 & g & l2 & -> & Hl1 & Hfault); [by rewrite last_snoc|].
  exists (f :: l1), g, l2. split_and!; [done | constructor; [by apply check_field_Ok | done] |].
  by rewrite <- app_assoc in Hfault.
Qed.

(** C20 Rejection: when [iterate] throws, the fields before some field conform and
    the exception names that field's tag and its fault; nothing but the eight
    exceptions of [fault] is thrown. *)
Theorem iterate_rejects map msgType d e :
  iterate map msgType d = Throw e ->
  exists l1 f l2, m_fields map = l1 ++ f :: l2 /\ Forall (field_valid msgType d map) l1 /\
    fault msgType d map l1 f e.
Proof. intros H. by apply (iterate_loop_Throw map msgType d []) in H. Qed.

(** A dictionary for message D: the party group 453 and the enumerated side 54. *)
Definition order_dictionary : DataDictionary :=
  let party := addRequiredField (lit "D") 448 (addMsgField (lit "D") 447 (addMsgField (lit "D") 448
                 (dd_addField 447 (dd_addField 448 new_DataDictionary)))) in
  let d := setVersion BeginString_FIX44 (addMsgType (lit "D") new_DataDictionary) in
  let d := fold_right dd_addField d [8; 9; 35; 49; 10; 55; 54; 453] in
  let d := addFieldType 453 NumInGroup (addFieldValue 54 (lit "1") (addFieldValue 54 (lit "2") d)) in
  let d := fold_right (addMsgField (lit "D")) d [55; 54; 453] in
  adoptGroup (lit "D") 453 448 party (addHeaderField 49 true (addRequiredField (lit "D") 55 d)).

Definition bad_side : FieldMap := setField_tag sample_body 54 (lit "7").

Lemma iterate_rejects_witness :
  exists l1 f l2, m_fields bad_side = l1 ++ f :: l2 /\
    Forall (field_valid (lit "D") order_dictionary bad_side) l1 /\
    fault (lit "D") order_dictionary bad_side l1 f (IncorrectTagValue 54 []).
Proof. apply (iterate_rejects bad_side (lit "D") order_dictionary (IncorrectTagValue 54 [])). vm_compute. reflexivity. Defined.

(** The order's dictionary and the one of its group both require a field. *)
Lemma sample_demanding : demanding (lit "D") order_dictionary (m_body sample).
Proof.
  split; [eexists; vm_compute; reflexivity|]. intros d' b' Hw.
  assert (forall d b field delim DD entries entry, m_groups b = [(453, [two_party])] -> (field, entries) ∈ m_groups b ->
            getGroup (lit "D") field d = Some (delim, DD) -> entry ∈ entries -> field = 453 /\ entry = two_party) as Hone.
  { intros d b field delim DD entries entry -> Hin _ Hen. apply list_elem_of_singleton in Hin. injection Hin as -> ->.
    by apply list_elem_of_singleton in Hen as ->. }
  inversion Hw as [d b DD entry He|d b DD entry d2 b2 He Hw2]; subst; destruct He as [field delim DD' entries entry' Hin Hg Hen];
    destruct (Hone _ (m_body sample) _ _ _ _ _ eq_refl Hin Hg Hen) as [-> ->]; vm_compute in Hg; injection Hg as <- <-.
  - eexists. vm_compute. reflexivity.
  - exfalso. inversion Hw2 as [d b DD entry He|d b DD entry d2 b2 He Hw3]; subst; destruct He as [? ? ? ? ? Hin2]; by apply elem_of_nil in Hin2.
Qed.


(** The required fields of a group's entries are looked at only when the message
    type itself has required fields: an entry without its required field is
    accepted in a message without any. *)
Lemma entry_requirements_skipped :
  let party := addRequiredField (lit "D") 448 new_DataDictionary in
  let d := adoptGroup (lit "D") 453 448 party (setVersion BeginString_FIX44 new_DataDictionary) in
  let entry := setField_tag (new_FieldMap (new_message_order normal)) 447 (lit "D") in
  let body := addGroup (new_FieldMap (new_message_order normal)) 453 entry true in
  let empty := new_FieldMap (new_message_order normal) in
  checkHasRequired body empty empty (lit "D") d = Ok () /\
  checkHasRequired (setField_tag body 55 (lit "A")) empty empty (lit "D") (addRequiredField (lit "D") 55 d) =
    Throw (RequiredTagMissing 448 []).
Proof. split; vm_compute; reflexivity. Qed.
