(* ===== verification/Parser.v ===== *)
(** * The stream parser ([src/C++/Parser.h], [src/C++/Parser.cpp])

    A buffer of received characters, cut into messages at the length each
    message announces. A call returns the next parser and what the call gives:
    [Ok (Some message)], [Ok None] for false, or the exception; the parser
    changes in the three cases. The connection's read loop
    ([src/C++/SocketConnection.cpp]) is modelled for one chunk of received data. *)
From S2P Require Import Prelude Convertors.

Definition MAX_MESSAGE_SIZE : Z := 8 * 1024 * 1024.

Record Parser := mkParser { m_buffer : str; m_lengthSearchFrom : nat }.

Definition new_Parser : Parser := mkParser [] 0.

(** The needle of the length field. *)
Definition length_header : str := SOH :: lit "9=".
Definition checksum_header : str := SOH :: lit "10=".

(** [extractLength(length, pos, buffer, searchFrom)]: the value [length] is left
    with, and the new [pos] when it returns true. *)
Definition extractLength (length_ : Z) (buffer : str) (searchFrom : nat) : Z * result (option nat) :=
  match buffer with
  | [] => (length_, Ok None)
  | _ =>
      match find_from length_header buffer searchFrom with
      | None => (length_, Ok None)
      | Some startPos =>
          let startPos := (startPos + 3)%nat in
          match find_from [SOH] buffer startPos with
          | None => (length_, Ok None)
          | Some endPos =>
              match IntT_of_string int32_t (substr buffer startPos (endPos - startPos)) with
              | Throw _ => (length_, Throw (MessageParseError []))
              | Ok length_ =>
                  if length_ <? 0 then (length_, Throw (MessageParseError []))
                  else (length_, Ok (Some (endPos + 1)%nat))
              end
          end
      end
  end.

(** [readFixMessage] once a [8=] is at the front; [pos] is where it was found. *)
Definition read_front (pos : nat) (p : Parser) : Parser * result (option str) :=
  let buffer := m_buffer p in
  match extractLength 0 buffer (m_lengthSearchFrom p) with
  | (length_, Throw e) => (mkParser (if 0 <? length_ then drop (pos + Z.to_nat length_) buffer else []) 0, Throw e)
  | (length_, Ok (Some pos)) =>
      let pos := (pos + Z.to_nat length_)%nat in
      if (length buffer <? pos)%nat then (mkParser buffer 0, Ok None)
      else
        match find_from checksum_header buffer (pos - 1) with
        | None => (mkParser buffer 0, Ok None)
        | Some pos =>
            match find_from [SOH] buffer (pos + 4) with
            | None => (mkParser buffer 0, Ok None)
            | Some pos => (mkParser (drop (pos + 1) buffer) 0, Ok (Some (take (pos + 1) buffer)))
            end
        end
  | (_, Ok None) =>
      match find_from length_header buffer (m_lengthSearchFrom p) with
      | Some header => (mkParser buffer header, Ok None)
      | None => (mkParser buffer (if (2 <? length buffer)%nat then length buffer - 2 else 0), Ok None)
      end
  end.

Definition readFixMessage (p : Parser) : Parser * result (option str) :=
  let buffer := m_buffer p in
  if (length buffer <? 2)%nat then (p, Ok None)
  else
    match find (lit "8=") buffer with
    | None => (mkParser (if (1 <? length buffer)%nat then drop (length buffer - 1) buffer else buffer) 0, Ok None)
    | Some pos => read_front pos (if (0 <? pos)%nat then mkParser (drop pos buffer) 0 else p)
    end.

Definition addToStream (s : str) (p : Parser) : result Parser :=
  if MAX_MESSAGE_SIZE <? Z.of_nat (length (m_buffer p)) + Z.of_nat (length s)
  then Throw (MessageParseError (lit "Message size exceeds maximum allowed"))
  else Ok (mkParser (m_buffer p ++ s) (m_lengthSearchFrom p)).

(** ** The connection *)

(** [SocketConnection::readMessage(msg)]: the parse error is swallowed, the result
    is true, and [msg] keeps what it held. *)
Definition readMessage (p : Parser) (msg : str) : Parser * (bool * str) :=
  match readFixMessage p with
  | (p, Ok (Some s)) => (p, (true, s))
  | (p, Ok None) => (p, (false, msg))
  | (p, Throw _) => (p, (true, msg))
  end.

(** [SocketConnection::readMessages]: the strings handed to the session. *)
Fixpoint readMessages_loop (fuel : nat) (p : Parser) (message : str) : list str * Parser :=
  match fuel with
  | O => ([], p)
  | S fuel =>
      match readMessage p message with
      | (p, (true, message)) =>
          let '(more, p) := readMessages_loop fuel p message in (message :: more, p)
      | (p, (false, _)) => ([], p)
      end
  end.

(** A pass that continues has emptied the buffer or removed a message from it. *)
Definition readMessages (p : Parser) : list str * Parser := readMessages_loop (S (length (m_buffer p))) p [].

(** [readFromSocket] of one chunk, then [readMessages]. *)
Definition receive (p : Parser) (chunk : str) : result (list str * Parser) :=
  p ← addToStream chunk p; Ok (readMessages p).

Fixpoint receive_all (p : Parser) (chunks : list str) : result (list str * Parser) :=
  match chunks with
  | [] => Ok ([], p)
  | chunk :: chunks =>
      '(first, p) ← receive p chunk;
      '(rest, p) ← receive_all p chunks;
      Ok (first ++ rest, p)
  end.

(** ** Resuming the search for the length field *)

(** Nothing before [m_lengthSearchFrom] starts a length field, now or after more
    characters arrive. *)
Definition searched (p : Parser) : Prop :=
  m_lengthSearchFrom p = 0%nat \/
  ((m_lengthSearchFrom p + 2 <= length (m_buffer p))%nat /\
   forall j, (j < m_lengthSearchFrom p)%nat -> prefix_at length_header (drop j (m_buffer p)) = false).

(** The same buffer, searched from its front. *)
Definition from_scratch (p : Parser) : Parser := mkParser (m_buffer p) 0.

Lemma searched_find p :
  searched p -> find_from length_header (m_buffer p) (m_lengthSearchFrom p) = find_from length_header (m_buffer p) 0.
Proof.
  intros [->|[_ H]]; [done|]. symmetry. apply find_from_skip; [lia | done |]. intros j Hj. apply H. lia.
Qed.

Lemma extractLength_scratch l p :
  searched p -> extractLength l (m_buffer p) (m_lengthSearchFrom p) = extractLength l (m_buffer p) 0.
Proof. intros H. unfold extractLength. by rewrite (searched_find p H). Qed.

Lemma read_front_scratch pos p : searched p -> read_front pos p = read_front pos (from_scratch p).
Proof.
  intros H. unfold read_front. cbn [from_scratch m_buffer m_lengthSearchFrom].
  by rewrite extractLength_scratch, searched_find.
Qed.

Lemma readFixMessage_scratch p :
  searched p -> readFixMessage p =
    if (length (m_buffer p) <? 2)%nat then (p, Ok None) else readFixMessage (from_scratch p).
Proof.
  intros H. unfold readFixMessage. cbn [from_scratch m_buffer]. destruct (length (m_buffer p) <? 2)%nat; [done|].
  destruct (find _ (m_buffer p)) as [pos|]; [|done]. destruct (0 <? pos)%nat; [done|]. by apply read_front_scratch.
Qed.

Lemma searched_front pos p : searched p -> searched (fst (read_front pos p)).
Proof.
  intros H. unfold read_front.
  destruct (extractLength _ _ _) as [l [[q|]|e]] eqn:E; [| |by left].
  - repeat case_match; by left.
  - destruct (find_from length_header (m_buffer p) (m_lengthSearchFrom p)) as [h|] eqn:Eh.
    + rewrite searched_find in Eh by done. destruct (find_from_Some _ _ _ _ Eh) as (_ & Hl & _ & Hn).
      right. split; simpl; [|intros; apply Hn; lia]. change (length length_header) with 3%nat in Hl. lia.
    + rewrite searched_find in Eh by done. destruct (Nat.ltb_spec 2 (length (m_buffer p))); [|by left].
      right. simpl. split; [lia|]. intros j Hj. apply (find_from_None _ _ _ Eh). lia.
Qed.

Lemma searched_read p : searched p -> searched (fst (readFixMessage p)).
Proof.
  intros H. unfold readFixMessage. destruct (_ <? _)%nat; [done|].
  destruct (find _ _) as [pos|]; [|by left]. apply searched_front. destruct (0 <? pos)%nat; [by left | done].
Qed.

Lemma searched_add s p p' : searched p -> addToStream s p = Ok p' -> searched p'.
Proof.
  intros H. unfold addToStream. case_bool; [done|]. intros [= <-]. destruct H as [H|[Hl H]]; [by left|]. right.
  cbn [m_buffer m_lengthSearchFrom]. rewrite length_app. split; [lia|]. intros j Hj. rewrite drop_app_le by lia.
  rewrite prefix_at_inside by (change (length length_header) with 3%nat; rewrite length_drop; lia). by apply H.
Qed.

(** The parsers a program can reach. *)
Inductive reachable : Parser -> Prop :=
| reach_new : reachable new_Parser
| reach_add s p p' : reachable p -> addToStream s p = Ok p' -> reachable p'
| reach_read p : reachable p -> reachable (fst (readFixMessage p)).

Lemma reachable_searched p : reachable p -> searched p.
Proof. induction 1; [by left | by eapply searched_add | by apply searched_read]. Qed.

(** ** A read takes from the front *)

Lemma read_front_drops pos p :
  exists k, m_buffer (fst (read_front pos p)) = drop k (m_buffer p) /\
    (forall s, snd (read_front pos p) = Ok (Some s) -> s = take k (m_buffer p) /\ (0 < k <= length (m_buffer p))%nat) /\
    (snd (read_front pos p) = Ok None -> k = 0%nat) /\
    (forall e, snd (read_front pos p) = Throw e -> (length (m_buffer p) <= k)%nat /\ e = MessageParseError []).
Proof.
  unfold read_front. destruct (extractLength 0 (m_buffer p) (m_lengthSearchFrom p)) as [l [[q|]|e]] eqn:E.
  - destruct (_ <? _)%nat; [by exists 0%nat|]. destruct (find_from checksum_header _ _) as [c|]; [|by exists 0%nat].
    destruct (find_from [SOH] _ (c + 4)) as [z|] eqn:Ez; [|by exists 0%nat]. exists (z + 1)%nat. simpl.
    apply find_from_Some in Ez as (_ & Hb & _). simpl in Hb. split_and!; try done. intros s [= <-]. split; [done | lia].
  - destruct (find_from _ _ _); by exists 0%nat.
  - exists (length (m_buffer p)). simpl. unfold extractLength in E.
    assert ((if 0 <? l then drop (pos + Z.to_nat l) (m_buffer p) else []) = drop (length (m_buffer p)) (m_buffer p) /\
            e = MessageParseError []) as [-> ->].
    { destruct (m_buffer p) as [|c b]; [done|]. destruct (find_from length_header _ _); [|done].
      destruct (find_from [SOH] _ _); [|done]. destruct (IntT_of_string _ _) as [m|].
      - destruct (m <? 0) eqn:En; [|done]. injection E as <- <-.
        destruct (Z.ltb_spec 0 m); [apply Z.ltb_lt in En; lia|]. by rewrite drop_all.
      - injection E as <- <-. by rewrite drop_all. }
    split_and!; try done. by intros e [= <-].
Qed.

Lemma readFixMessage_drops p :
  exists k, m_buffer (fst (readFixMessage p)) = drop k (m_buffer p) /\
    (forall s, snd (readFixMessage p) = Ok (Some s) ->
       exists g, (g < k <= length (m_buffer p))%nat /\ s = substr (m_buffer p) g (k - g)) /\
    (forall e, snd (readFixMessage p) = Throw e -> (0 < length (m_buffer p) <= k)%nat /\ e = MessageParseError []).
Proof.
  unfold readFixMessage. destruct (Nat.ltb_spec (length (m_buffer p)) 2); [by exists 0%nat|].
  destruct (find _ (m_buffer p)) as [pos|] eqn:Ep.
  2: { destruct (1 <? _)%nat; [by eexists|]. by exists 0%nat. }
  apply find_bound in Ep. simpl in Ep.
  set (q := if (0 <? pos)%nat then mkParser (drop pos (m_buffer p)) 0 else p).
  assert (m_buffer q = drop pos (m_buffer p)) as Eq by (unfold q; destruct pos; simpl; by rewrite ?drop_0).
  destruct (read_front_drops pos q) as (k & H1 & H2 & _ & H4). rewrite Eq in H1, H2, H4.
  rewrite drop_drop in H1. rewrite length_drop in H2, H4. exists (pos + k)%nat. split_and!; [done | |].
  - intros s Hs. destruct (H2 s Hs) as [-> ?]. exists pos. split; [lia|].
    unfold substr. by replace (pos + k - pos)%nat with k by lia.
  - intros e He. destruct (H4 e He). split; [lia | done].
Qed.

Lemma reachable_bound p : reachable p -> Z.of_nat (length (m_buffer p)) <= MAX_MESSAGE_SIZE.
Proof.
  induction 1 as [|s p p' _ IH H|p _ IH]; [unfold MAX_MESSAGE_SIZE; simpl; lia| |].
  - revert H. unfold addToStream. case_bool; [done|]. intros [= <-]. simpl. rewrite length_app. lia.
  - destruct (readFixMessage_drops p) as (k & -> & _). rewrite length_drop. lia.
Qed.

(** ** Framed messages *)

(** What a sender frames: the length announced is that of the characters from
    after the length field to the checksum field. *)
Definition frame (begin digits body cks : str) : str :=
  lit "8=" ++ begin ++ length_header ++ digits ++ [SOH] ++ body ++ [SOH] ++ lit "10=" ++ cks ++ [SOH].

Inductive framed : str -> Prop :=
| framed_intro begin digits body cks :
    SOH ∉ begin -> SOH ∉ digits -> SOH ∉ cks ->
    IntT_convert int32_t digits = Some (Z.of_nat (length body) + 1) ->
    framed (frame begin digits body cks).

(** Its characters up to the end of the length field. *)
Definition frame_head (begin digits : str) : str := lit "8=" ++ begin ++ length_header ++ digits ++ [SOH].

Lemma frame_head_eq begin digits body cks :
  frame begin digits body cks = frame_head begin digits ++ body ++ checksum_header ++ cks ++ [SOH].
Proof. unfold frame, frame_head, checksum_header, length_header. by rewrite <- !app_assoc. Qed.

Lemma find_header begin rest :
  SOH ∉ begin -> find_from length_header (lit "8=" ++ begin ++ length_header ++ rest) 0 = Some (2 + length begin)%nat.
Proof.
  intros Hb. apply find_from_first; [rewrite !length_app; simpl; lia | |].
  - rewrite app_assoc, drop_app_length'; [apply prefix_at_app | by rewrite length_app].
  - intros j Hj. destruct (lookup_lt_is_Some_2 (lit "8=" ++ begin) j) as [c Hc]; [rewrite length_app; simpl; lia|].
    assert (c <> SOH) as Hne.
    { intros ->. apply list_elem_of_lookup_2 in Hc. apply elem_of_app in Hc as [Hc|]; [|done].
      revert Hc. change (SOH ∉ lit "8="). by_compute. }
    rewrite app_assoc. rewrite drop_app_le by (rewrite length_app; simpl; lia). rewrite (drop_S _ c j Hc).
    cbn [app prefix_at length_header]. by rewrite bool_decide_eq_false_2.
Qed.

Lemma extract_frame l begin digits (body : str) rest :
  SOH ∉ begin -> SOH ∉ digits -> IntT_convert int32_t digits = Some (Z.of_nat (length body) + 1) ->
  extractLength l (frame_head begin digits ++ rest) 0 =
    (Z.of_nat (length body) + 1, Ok (Some (length (frame_head begin digits)))).
Proof.
  intros Hb Hd Hn. unfold extractLength.
  assert (frame_head begin digits ++ rest = lit "8=" ++ begin ++ length_header ++ digits ++ SOH :: rest) as E
    by (unfold frame_head; by rewrite <- !app_assoc).
  rewrite E at 1. cbn [app lit list_ascii_of_string]. rewrite E. rewrite find_header by done.
  assert (lit "8=" ++ begin ++ length_header ++ digits ++ SOH :: rest =
          (lit "8=" ++ begin ++ length_header) ++ digits ++ SOH :: rest) as -> by (by rewrite <- !app_assoc).
  replace (2 + length begin + 3)%nat with (length (lit "8=" ++ begin ++ length_header)) by (rewrite !length_app; simpl; lia).
  rewrite find_from_char by done.
  replace (length (lit "8=" ++ begin ++ length_header) + length digits - length (lit "8=" ++ begin ++ length_header))%nat
    with (length digits) by lia.
  rewrite substr_middle. unfold IntT_of_string. rewrite Hn. cbn [of_option].
  destruct (Z.ltb_spec (Z.of_nat (length body) + 1) 0); [lia|]. do 3 f_equal.
  unfold frame_head. rewrite !length_app. simpl. lia.
Qed.

Lemma find_front s : find (lit "8=") (lit "8=" ++ s) = Some 0%nat.
Proof. done. Qed.

(** A whole frame at the front is read, and only it is removed. *)
Lemma read_framed m rest :
  framed m -> readFixMessage (mkParser (m ++ rest) 0) = (mkParser rest 0, Ok (Some m)).
Proof.
  intros [begin digits body cks Hb Hd Hc Hn]. rewrite frame_head_eq.
  set (h := frame_head begin digits).
  assert (exists s, h = lit "8=" ++ s) as [s Hs] by (by eexists).
  unfold readFixMessage. cbn [m_buffer].
  assert (find (lit "8=") ((h ++ body ++ checksum_header ++ cks ++ [SOH]) ++ rest) = Some 0%nat) as ->.
  { rewrite Hs, <- !app_assoc. apply find_front. }
  destruct (Nat.ltb_spec (length ((h ++ body ++ checksum_header ++ cks ++ [SOH]) ++ rest)) 2) as [Hl|_].
  { rewrite !length_app in Hl. simpl in Hl. lia. }
  change (0 <? 0)%nat with false. cbn iota. unfold read_front. cbn [m_buffer m_lengthSearchFrom].
  rewrite <- !app_assoc. unfold h at 1. rewrite (extract_frame 0 begin digits body) by done. fold h.
  set (b := h ++ body ++ checksum_header ++ cks ++ [SOH] ++ rest).
  assert (b = (h ++ body) ++ checksum_header ++ (cks ++ SOH :: rest)) as Eb by (unfold b; by rewrite <- !app_assoc).
  replace (length h + Z.to_nat (Z.of_nat (length body) + 1))%nat with (length (h ++ body) + 1)%nat
    by (rewrite length_app; lia).
  destruct (Nat.ltb_spec (length b) (length (h ++ body) + 1)) as [Hl|_].
  { rewrite Eb, !length_app in Hl. simpl in Hl. lia. }
  replace (length (h ++ body) + 1 - 1)%nat with (length (h ++ body)) by lia.
  assert (find_from checksum_header b (length (h ++ body)) = Some (length (h ++ body))) as ->.
  { apply find_from_first; [rewrite Eb, !length_app; lia | | intros; lia].
    rewrite Eb, drop_app_length. apply prefix_at_app. }
  assert (b = ((h ++ body) ++ checksum_header) ++ cks ++ SOH :: rest) as Eb2 by (by rewrite Eb, <- !app_assoc).
  replace (length (h ++ body) + 4)%nat with (length ((h ++ body) ++ checksum_header))
    by (rewrite (length_app _ checksum_header); done).
  rewrite Eb2 at 1. rewrite find_from_char by done. rewrite Eb2.
  assert (((h ++ body) ++ checksum_header) ++ cks ++ SOH :: rest =
          ((h ++ body) ++ checksum_header ++ cks ++ [SOH]) ++ rest) as -> by (by rewrite <- !app_assoc).
  rewrite take_app_length', drop_app_length'
    by (rewrite !length_app; simpl; lia). by rewrite <- !app_assoc.
Qed.

(** ** Growing the buffer *)

Lemma extractLength_mono l t u from r :
  extractLength l t from = r -> snd r <> Ok None -> extractLength l (t ++ u) from = r.
Proof.
  intros <- Hr. unfold extractLength in *. destruct t as [|c t]; [done|]. cbn [app].
  change (c :: t ++ u) with ((c :: t) ++ u).
  destruct (find_from length_header (c :: t) from) as [h|] eqn:Eh; [|done].
  rewrite (find_from_mono _ _ u _ _ Eh).
  destruct (find_from [SOH] (c :: t) (h + 3)) as [z|] eqn:Ez; [|done].
  rewrite (find_from_mono _ _ u _ _ Ez).
  apply find_from_Some in Ez as (Hz1 & Hz2 & _). simpl length in Hz2.
  unfold substr. rewrite drop_app_le by (simpl length; lia).
  rewrite take_app_le by (rewrite length_drop; simpl length; lia). done.
Qed.

(** A result that is not false does not depend on what follows. *)
Lemma readFixMessage_mono t u :
  find (lit "8=") t = Some 0%nat ->
  snd (readFixMessage (mkParser t 0)) <> Ok None ->
  snd (readFixMessage (mkParser (t ++ u) 0)) = snd (readFixMessage (mkParser t 0)).
Proof.
  intros Hf. pose proof (find_bound _ _ _ Hf) as Hl. simpl in Hl.
  assert (find (lit "8=") (t ++ u) = Some 0%nat) as Hf'.
  { pose proof (find_from_mono (lit "8=") t u 0 0) as H. unfold find_from in H. rewrite !drop_0, Hf in H.
    simpl in H. destruct (find _ (t ++ u)); simpl in H; by apply H. }
  unfold readFixMessage. cbn [m_buffer]. rewrite Hf, Hf', length_app.
  destruct (Nat.ltb_spec (length t) 2); [lia|]. destruct (Nat.ltb_spec (length t + length u) 2); [lia|].
  change (0 <? 0)%nat with false. cbn iota. unfold read_front. cbn [m_buffer m_lengthSearchFrom].
  destruct (extractLength 0 t 0) as [l r] eqn:E. pose proof (extractLength_mono 0 t u 0 _ E) as Hm. simpl in Hm.
  destruct r as [[q|]|e].
  - rewrite Hm by done. destruct (Nat.ltb_spec (length t) (q + Z.to_nat l)); [done|]. rewrite length_app.
    destruct (Nat.ltb_spec (length t + length u) (q + Z.to_nat l)); [lia|].
    destruct (find_from checksum_header t _) as [c|] eqn:Ec; [|done]. rewrite (find_from_mono _ _ u _ _ Ec).
    destruct (find_from [SOH] t (c + 4)) as [z|] eqn:Ez; [|done]. rewrite (find_from_mono _ _ u _ _ Ez).
    intros _. simpl. apply find_from_Some in Ez as (_ & Hz & _). simpl in Hz. by rewrite take_app_le by lia.
  - destruct (find_from _ t 0); done.
  - rewrite Hm by done. done.
Qed.

(** A part of a frame is kept until the rest arrives. *)
Lemma read_partial t u :
  framed (t ++ u) -> u <> [] ->
  snd (readFixMessage (mkParser t 0)) = Ok None /\ m_buffer (fst (readFixMessage (mkParser t 0))) = t.
Proof.
  intros Hm Hu. pose proof (read_framed _ [] Hm) as Hread. rewrite app_nil_r in Hread.
  destruct (Nat.ltb_spec (length t) 2) as [Hl|Hl].
  { unfold readFixMessage. cbn [m_buffer]. destruct (Nat.ltb_spec (length t) 2); [done | lia]. }
  assert (find (lit "8=") t = Some 0%nat) as Hf.
  { apply find_first; [lia | | intros; lia]. rewrite drop_0.
    rewrite <- (prefix_at_inside _ t u) by done. inversion Hm. unfold frame. apply prefix_at_app. }
  assert (snd (readFixMessage (mkParser t 0)) = Ok None) as Hn.
  { destruct (decide (snd (readFixMessage (mkParser t 0)) = Ok None)) as [|Hn]; [done|].
    pose proof (readFixMessage_mono t u Hf Hn) as H. rewrite Hread in H. simpl in H.
    destruct (readFixMessage_drops (mkParser t 0)) as (k & _ & Hk & _). symmetry in H. destruct (Hk _ H) as (g & Hg & Eg).
    apply (f_equal length) in Eg. unfold substr in Eg. rewrite length_take, length_drop, length_app in Eg.
    simpl in Eg, Hg. destruct u; [done|]. simpl in Eg. lia. }
  split; [done|]. revert Hn. unfold readFixMessage. cbn [m_buffer]. rewrite Hf.
  destruct (Nat.ltb_spec (length t) 2); [lia|]. change (0 <? 0)%nat with false. cbn iota. intros Hn.
  destruct (read_front_drops 0 (mkParser t 0)) as (k & -> & _ & Hk & _). by rewrite (Hk Hn).
Qed.

(** ** A stream of frames *)

(** The start of a frame, or nothing. *)
Definition partial (t : str) : Prop := t = [] \/ exists u, u <> [] /\ framed (t ++ u).

Lemma framed_long m : framed m -> (2 <= length m)%nat.
Proof. intros []. unfold frame. rewrite length_app. simpl. lia. Qed.

Lemma read_searched_framed p m rest :
  searched p -> m_buffer p = m ++ rest -> framed m -> readFixMessage p = (mkParser rest 0, Ok (Some m)).
Proof.
  intros Hp E Hm. rewrite readFixMessage_scratch by done. unfold from_scratch. rewrite E, length_app.
  pose proof (framed_long m Hm). destruct (Nat.ltb_spec (length m + length rest) 2); [lia|]. by apply read_framed.
Qed.

Lemma read_searched_partial p :
  searched p -> partial (m_buffer p) ->
  exists p', readFixMessage p = (p', Ok None) /\ m_buffer p' = m_buffer p /\ searched p'.
Proof.
  intros Hp Ht. pose proof (searched_read p Hp) as Hs. rewrite readFixMessage_scratch in * by done.
  destruct (Nat.ltb_spec (length (m_buffer p)) 2); [by exists p|].
  destruct Ht as [E|(u & Hu & Hf)]; [rewrite E in *; simpl in *; lia|].
  destruct (read_partial _ _ Hf Hu) as [H1 H2]. unfold from_scratch in *.
  destruct (readFixMessage (mkParser (m_buffer p) 0)) as [p' r]. simpl in *. subst r. by exists p'.
Qed.

Lemma readMessages_frames fuel p ms t message :
  searched p -> m_buffer p = concat ms ++ t -> Forall framed ms -> partial t -> (length ms < fuel)%nat ->
  exists p', readMessages_loop fuel p message = (ms, p') /\ m_buffer p' = t /\ searched p'.
Proof.
  revert p ms message. induction fuel as [|fuel IH]; intros p ms message Hp E Hms Ht Hf; [lia|].
  cbn [readMessages_loop]. unfold readMessage. destruct ms as [|m ms].
  - simpl in E. destruct (read_searched_partial p Hp) as (p' & -> & E' & Hp'); [by rewrite E|].
    exists p'. split_and!; [done | congruence | done].
  - apply Forall_cons in Hms as [Hm Hms]. simpl in E. rewrite <- app_assoc in E.
    rewrite (read_searched_framed p m (concat ms ++ t)) by done.
    destruct (IH (mkParser (concat ms ++ t) 0) ms m) as (p' & -> & H1 & H2); try done; [by left | simpl in Hf; lia |].
    by exists p'.
Qed.

Lemma concat_frames_length ms : Forall framed ms -> (length ms <= length (concat ms))%nat.
Proof.
  induction 1 as [|m ms Hm _ IH]; simpl; [lia|]. rewrite length_app. pose proof (framed_long m Hm). lia.
Qed.

(** A prefix of a stream of frames is some frames and a part of the next one. *)
Lemma prefix_frames s rest ms :
  Forall framed ms -> s ++ rest = concat ms ->
  exists ms1 ms2 t, ms = ms1 ++ ms2 /\ s = concat ms1 ++ t /\ t ++ rest = concat ms2 /\ partial t /\
    (t = [] \/ exists m, m ∈ ms /\ (length t < length m)%nat).
Proof.
  intros Hms. revert s. induction Hms as [|m ms Hm Hms IH]; intros s E; simpl in E.
  - apply app_eq_nil in E as [-> ->]. exists [], [], []. split_and!; try done; by left.
  - destruct (decide (length s < length m)%nat) as [Hl|Hl].
    + assert (m = s ++ drop (length s) m) as Em.
      { rewrite <- (take_drop (length s) m) at 1. f_equal. apply (f_equal (take (length s))) in E.
        rewrite take_app_length in E. rewrite take_app_le in E by lia. done. }
      exists [], (m :: ms), s. split_and!; try done.
      * right. exists (drop (length s) m). rewrite <- Em. split; [|done]. intros En.
        apply (f_equal length) in En. rewrite length_drop in En. simpl in En. lia.
      * right. exists m. split; [by left | done].
    + assert (s = m ++ drop (length m) s) as Es.
      { rewrite <- (take_drop (length m) s) at 1. f_equal. apply (f_equal (take (length m))) in E.
        rewrite take_app_length in E. rewrite take_app_le in E by lia. done. }
      rewrite Es, <- app_assoc in E. apply app_inv_head in E.
      destruct (IH _ E) as (ms1 & ms2 & t & -> & H1 & H2 & H3 & H4).
      exists (m :: ms1), ms2, t. split_and!; try done.
      * rewrite Es, H1. simpl. by rewrite app_assoc.
      * destruct H4 as [|(m' & Hin & ?)]; [by left|]. right. exists m'. split; [by right | done].
Qed.

Lemma receive_all_frames chunks p ms :
  searched p -> Forall framed ms -> m_buffer p ++ concat chunks = concat ms -> partial (m_buffer p) ->
  (m_buffer p = [] \/ exists m, m ∈ ms /\ (length (m_buffer p) < length m)%nat) ->
  Forall (fun m => Forall (fun c => Z.of_nat (length m) + Z.of_nat (length c) <= MAX_MESSAGE_SIZE) chunks) ms ->
  exists p', receive_all p chunks = Ok (ms, p') /\ m_buffer p' = [].
Proof.
  revert p ms. induction chunks as [|c chunks IH]; intros p ms Hp Hms E Hpart Hsmall Hsize.
  - simpl in E. rewrite app_nil_r in E. exists p. simpl.
    assert (ms = []) as ->; [|by rewrite E].
    destruct ms as [|m ms]; [done|]. exfalso. apply Forall_cons in Hms as [Hm Hms]. pose proof (framed_long m Hm) as Hl.
    destruct Hpart as [E0|(u & Hu & Hf)]; [rewrite E0 in E; destruct m; simpl in *; [lia | done]|].
    destruct (read_partial _ _ Hf Hu) as [Hnone _]. rewrite E in Hnone. simpl in Hnone.
    by rewrite read_framed in Hnone.
  - cbn [receive_all receive]. simpl concat in E. rewrite app_assoc in E.
    assert (addToStream c p = Ok (mkParser (m_buffer p ++ c) (m_lengthSearchFrom p))) as Hadd.
    { unfold addToStream. destruct (Z.ltb_spec MAX_MESSAGE_SIZE (Z.of_nat (length (m_buffer p)) + Z.of_nat (length c))) as [Hbig|]; [|done].
      exfalso. rewrite Forall_forall in Hsize. destruct Hsmall as [E0|(m & Hin & Hl)].
      - rewrite E0 in Hbig, E. simpl in Hbig, E. destruct ms as [|m ms].
        + apply app_eq_nil in E as [-> _]. simpl in Hbig. unfold MAX_MESSAGE_SIZE in Hbig. lia.
        + specialize (Hsize m ltac:(by left)). apply Forall_cons in Hsize as [? _]. lia.
      - specialize (Hsize m Hin). apply Forall_cons in Hsize as [? _]. lia. }
    unfold receive. rewrite Hadd. cbn [mbind result_bind].
    destruct (prefix_frames _ _ _ Hms E) as (ms1 & ms2 & t & -> & E1 & E2 & Ht & Hlt).
    apply Forall_app in Hms as [Hms1 Hms2]. unfold readMessages.
    destruct (readMessages_frames (S (length (m_buffer p ++ c))) (mkParser (m_buffer p ++ c) (m_lengthSearchFrom p)) ms1 t [])
      as (p1 & H1 & H2 & H3); try done.
    { by apply (searched_add c p). }
    { pose proof (concat_frames_length ms1 Hms1). rewrite E1, length_app. lia. }
    cbn [m_buffer]. rewrite H1. cbn [mbind result_bind].
    destruct (IH p1 ms2) as (p' & Hr & He); try done.
    + by rewrite H2.
    + by rewrite H2.
    + rewrite H2. destruct ms2 as [|m2 ms2].
      { apply app_eq_nil in E2 as [-> _]. by left. }
      destruct Ht as [->|(u & Hu & Hf)]; [by left|]. right. exists m2. split; [by left|].
      destruct (decide (length t < length m2)%nat) as [|Hge]; [done|]. exfalso.
      assert (t = m2 ++ drop (length m2) t) as Et.
      { rewrite <- (take_drop (length m2) t) at 1. f_equal. simpl in E2. apply (f_equal (take (length m2))) in E2.
        rewrite take_app_length in E2. rewrite take_app_le in E2 by lia. done. }
      destruct (read_partial _ _ Hf Hu) as [Hnone _]. apply Forall_cons in Hms2 as [Hm2 _].
      rewrite Et, read_framed in Hnone by done. done.
    + apply Forall_app in Hsize as [_ Hsize]. eapply Forall_impl; [exact Hsize|]. simpl. intros m Hm. by apply Forall_cons in Hm as [].
    + rewrite Hr. cbn [mbind result_bind]. by exists p'.
Qed.

(** ** Properties *)

(** C13 The stream is cut where it was framed: whatever the chunks a stream of
    framed messages arrives in, a message split anywhere or several in one chunk,
    the messages are handed over in order, each once, and nothing is left. *)
Theorem stream_frames ms chunks :
  Forall framed ms -> concat chunks = concat ms ->
  Forall (fun m => Forall (fun c => Z.of_nat (length m) + Z.of_nat (length c) <= MAX_MESSAGE_SIZE) chunks) ms ->
  exists p, receive_all new_Parser chunks = Ok (ms, p) /\ m_buffer p = [].
Proof. intros Hms E Hsize. apply receive_all_frames; try done; by left. Qed.

(** C14 Resuming the search is only an optimisation: a parser a program can reach
    gives what it would give searching from the front of its buffer, and leaves
    the same buffer; the buffer never exceeds [MAX_MESSAGE_SIZE]; a message
    given is a part of the buffer, which loses at least that; and an exception
    is [MessageParseError] and empties the buffer. *)
Theorem read_resumes p :
  reachable p ->
  let '(p', r) := readFixMessage p in
  snd (readFixMessage (from_scratch p)) = r /\ m_buffer (fst (readFixMessage (from_scratch p))) = m_buffer p' /\
  Z.of_nat (length (m_buffer p')) <= MAX_MESSAGE_SIZE /\
  match r with
  | Ok (Some s) => exists g k, m_buffer p' = drop k (m_buffer p) /\ (g < k <= length (m_buffer p))%nat /\
                     s = substr (m_buffer p) g (k - g)
  | Ok None => True
  | Throw e => e = MessageParseError [] /\ m_buffer p' = []
  end.
Proof.
  intros Hp. pose proof (reachable_bound _ (reach_read p Hp)) as Hb. pose proof (reachable_searched p Hp) as Hs.
  destruct (readFixMessage_drops p) as (k & Hk & Hsome & Hthrow).
  pose proof (readFixMessage_scratch p Hs) as Hsc.
  destruct (readFixMessage p) as [p' r]. simpl in *.
  assert ((p', r) = readFixMessage (from_scratch p) \/
          (p' = p /\ r = Ok None /\ readFixMessage (from_scratch p) = (from_scratch p, Ok None))) as Hcase.
  { unfold readFixMessage at 2. cbn [from_scratch m_buffer]. destruct (_ <? 2)%nat; [right | by left].
    injection Hsc as -> ->. done. }
  assert (snd (readFixMessage (from_scratch p)) = r /\ m_buffer (fst (readFixMessage (from_scratch p))) = m_buffer p')
    as [? ?] by (destruct Hcase as [<-|(-> & -> & ->)]; done).
  split_and!; try done. destruct r as [[s|]|e]; [|done|].
  - destruct (Hsome s eq_refl) as (g & ? & ?). by exists g, k.
  - destruct (Hthrow e eq_refl) as [? ->]. split; [done|]. rewrite Hk. apply drop_ge. lia.
Qed.

Lemma framed_FIX : framed (frame (lit "FIX.4.2") (lit "12") (lit "35=A" ++ SOH :: lit "108=30") (lit "026")).
Proof. apply framed_intro; by_compute. Qed.

(** Two messages, the first cut in its checksum. *)
Lemma stream_frames_witness :
  let m := frame (lit "FIX.4.2") (lit "12") (lit "35=A" ++ SOH :: lit "108=30") (lit "026") in
  exists p, receive_all new_Parser [take 30 m; drop 30 m ++ m] = Ok ([m; m], p) /\ m_buffer p = [].
Proof.
  set (m := frame _ _ _ _).
  apply (stream_frames [m; m] [take 30 m; drop 30 m ++ m]).
  - constructor; [apply framed_FIX | constructor; [apply framed_FIX | constructor]].
  - vm_compute. reflexivity.
  - repeat constructor; by_compute.
Defined.

Lemma read_resumes_witness :
  let p := mkParser (lit "8=FIX.4.2") 7 in
  snd (readFixMessage (from_scratch p)) = snd (readFixMessage p).
Proof.
  assert (addToStream (lit "8=FIX.4.2") new_Parser = Ok (mkParser (lit "8=FIX.4.2") 0)) as E by reflexivity.
  pose proof (reach_read _ (reach_add _ _ _ reach_new E)) as H.
  assert (fst (readFixMessage (mkParser (lit "8=FIX.4.2") 0)) = mkParser (lit "8=FIX.4.2") 7) as E2 by reflexivity.
  rewrite E2 in H. intros p. pose proof (read_resumes p H) as Hr.
  destruct (readFixMessage p) as [p' r]. destruct Hr as [Hr _]. exact Hr.
Defined.

(** The connection's [readMessage] reports a parse error as success with the
    string unchanged: after a good message, the session is handed that message
    again. *)
Lemma parse_error_redelivers :
  let m := frame (lit "FIX.4.2") (lit "12") (lit "35=A" ++ SOH :: lit "108=30") (lit "026") in
  exists p, receive new_Parser (m ++ lit "8=FIX.4.2" ++ length_header ++ lit "x" ++ [SOH]) = Ok ([m; m], p).
Proof. eexists. vm_compute. reflexivity. Qed.
