(* ===== verification/Layout.v ===== *)
(** * The layout of a field map

    What looking a field up relies on: the fields are in the map's order and have
    valid tags. It says nothing of groups or cached metrics, so it holds of a
    header whatever values were put in it. Setting, removing and routing fields
    keep it; the session's reading of what it wrote in a header rests on it. *)
From S2P Require Import Prelude Convertors Values MessageSorters OrdMap Field FieldMap DictData Message.

Definition laid_out (m : FieldMap) : Prop :=
  built_order (m_order m) /\ sorted_by (m_order m) (m_fields m) /\ tags_ok (m_fields m).

Lemma laid_out_new o : built_order o -> laid_out (new_FieldMap o).
Proof. intros H. split_and!; [done | constructor | constructor]. Qed.

Lemma laid_out_wf m : wf m -> laid_out m.
Proof. by intros (Ho & (Hs & Ht & _) & _)%wf_eq. Qed.

Lemma laid_out_find m t : laid_out m -> tag t -> findTag m t = find_index (fun f => t =? getTag f) (m_fields m).
Proof. intros (Ho & Hs & Ht) Htag. rewrite (eta_FieldMap m). by apply findTag_eq. Qed.

Lemma laid_out_get m t : laid_out m -> tag t -> getFieldIfSet m t = field_of (m_fields m) t.
Proof. intros (Ho & Hs & Ht) Htag. rewrite (eta_FieldMap m). by apply getFieldIfSet_eq. Qed.

Lemma laid_out_setField m f : tag (getTag f) -> laid_out m -> laid_out (setField m f).
Proof.
  intros Hf Hm. pose proof Hm as (Ho & Hs & Ht). unfold setField, setField_overwrite. cbn [negb].
  destruct (findTag m (getTag f)) as [i|].
  - pose proof (alter_same_tags (fun g => Field.setString g (getString f)) i (m_fields m) (fun _ => eq_refl)) as Hsame.
    split_and!; [done | by apply (sorted_by_tags _ (m_fields m)) | by apply (tags_ok_tags (m_fields m))].
  - rewrite (eta_FieldMap m), addField_eq by done. split_and!; cbn [m_order m_fields].
    + done.
    + by apply insert_upper_sorted.
    + by apply insert_upper_tags.
Qed.

Lemma laid_out_eraseField m t m' : laid_out m -> eraseField m t = Some m' -> laid_out m'.
Proof.
  intros (Ho & Hs & Ht) He. unfold eraseField in He. destruct (findTag m t) as [i|]; [|done]. injection He as <-.
  pose proof (erase_at_sublist i (m_fields m)) as Hsub.
  split_and!; [done | by apply (sublist_sorted _ (m_fields m)) | by apply (Forall_sublist' _ (m_fields m))].
Qed.

Lemma laid_out_removeField m t : laid_out m -> laid_out (removeField m t).
Proof.
  intros Hm. unfold removeField. destruct (eraseField m t) as [m1|] eqn:E; [|done].
  apply laid_out_eraseField in E; [|done]. unfold removeGroup. destruct (groupsOf m1 t); [|done].
  assert (laid_out (with_groups m1 (map_erase t (m_groups m1)))) as H1 by done.
  destruct (eraseField _ t) eqn:E'; [by eapply laid_out_eraseField | done].
Qed.

(** A field read back after a field was set. *)
Lemma laid_out_get_set m f t :
  laid_out m -> tag (getTag f) -> tag t ->
  option_map getString (getFieldIfSet (setField m f) t) =
    if t =? getTag f then Some (getString f) else option_map getString (getFieldIfSet m t).
Proof.
  intros Hm Hf Ht. rewrite !laid_out_get by (done || by apply laid_out_setField).
  pose proof Hm as (Ho & Hs & Htags). unfold setField, setField_overwrite. cbn [negb].
  destruct (findTag m (getTag f)) as [i|] eqn:E; rewrite laid_out_find in E by done.
  - unfold with_fields. cbn [m_fields]. rewrite (field_of_alter _ _ (getTag f)) by done.
    destruct (Z.eqb_spec t (getTag f)) as [->|]; [|done].
    destruct (field_of (m_fields m) (getTag f)) eqn:Ef; [done|]. apply find_index_None in Ef. congruence.
  - apply find_index_None in E. rewrite (eta_FieldMap m), addField_eq by done. cbn [m_fields].
    rewrite field_of_insert by done. destruct (Z.eqb_spec t (getTag f)) as [->|]; [by rewrite E | done].
Qed.

(** ** Messages *)

(** The text a field of the header has. *)
Definition header_text (t : Z) (m : Message) : option str := option_map getString (getFieldIfSet (m_header m) t).

Definition header_ok (m : Message) : Prop := laid_out (m_header m).

Lemma header_ok_new : header_ok new_Message.
Proof. apply laid_out_new, built_mode. Qed.

Lemma getFieldIfSet_tag m t f : getFieldIfSet m t = Some f -> getTag f = t.
Proof.
  unfold getFieldIfSet, findTag. intros H. destruct (_ <? _)%nat.
  - rewrite find_index_field in H. by apply field_of_tag in H as [? _].
  - destruct (m_fields m !! _) as [g|] eqn:E; [|done]. destruct (Z.eqb_spec (getTag g) t); [|done].
    simpl in H. rewrite E in H. by injection H as <-.
Qed.

Lemma laid_out_route source dest from to_ : tag to_ -> laid_out dest -> laid_out (route source dest from to_).
Proof.
  intros Ht Hd. unfold route. destruct (getFieldIfSet source from) as [f|]; [|done].
  destruct (getString f); [done|]. by apply laid_out_setField.
Qed.

Lemma laid_out_route_same source dest from : tag from -> laid_out dest -> laid_out (route_same source dest from).
Proof.
  intros Ht Hd. unfold route_same. destruct (getFieldIfSet source from) as [f|] eqn:E; [|done].
  destruct (getString f); [done|]. apply laid_out_setField; [|done]. by rewrite (getFieldIfSet_tag _ _ _ E).
Qed.

Lemma header_ok_reverseRoute m source : header_ok m -> header_ok (reverseRoute m source).
Proof.
  intros Hm. unfold reverseRoute, header_ok. cbv zeta. cbn [m_header with_header].
  assert (forall h, laid_out h -> laid_out
    match getFieldIfSet source FIELD.BeginString with
    | Some beginString =>
        if negb (str_ltb (getString beginString) BeginString_FIX41)
        then
         route source
           (route source
              (removeField
                 (removeField (route_same source h FIELD.BeginString) FIELD.OnBehalfOfLocationID)
                 FIELD.DeliverToLocationID) FIELD.OnBehalfOfLocationID FIELD.DeliverToLocationID)
           FIELD.DeliverToLocationID FIELD.OnBehalfOfLocationID
        else
         removeField
           (removeField (route_same source h FIELD.BeginString) FIELD.OnBehalfOfLocationID)
           FIELD.DeliverToLocationID
    | None => h
    end) as Hbegin.
  { intros h Hh. destruct (getFieldIfSet source FIELD.BeginString); [|done].
    assert (laid_out (removeField (removeField (route_same source h FIELD.BeginString) FIELD.OnBehalfOfLocationID)
                        FIELD.DeliverToLocationID)).
    { do 2 apply laid_out_removeField. by apply laid_out_route_same. }
    destruct (negb _); [|done]. apply laid_out_route; [done|]. by apply laid_out_route. }
  repeat first [apply laid_out_route; [done|] | apply laid_out_removeField | apply Hbegin].
  done.
Qed.

(** Encoding only sets the body length and the checksum. *)
Lemma toString_default_header m s m' t :
  header_ok m -> tag t -> t <> FIELD.BodyLength -> toString_default m = Ok (s, m') ->
  header_text t m' = header_text t m.
Proof.
  intros Hm Ht Hne H. unfold toString_default, toString in H. cbv zeta in H.
  apply result_bind_Ok in H as (sum & _ & H). injection H as _ <-.
  unfold header_text. cbn [m_header with_trailer with_header]. rewrite laid_out_get_set by done.
  by rewrite (proj2 (Z.eqb_neq _ _)).
Qed.
