(* ===== verification/Wire.v ===== *)
(** * From one end of the connection to the other

    Messages are encoded, their bytes arrive in chunks of any size, the parser
    cuts the stream and each string is decoded: what the sender built is what
    the receiver reads. The composition of [Message], [RoundTrip] and [Parser]. *)
From S2P Require Import Prelude Convertors Values OrdMap MessageSorters Field FieldMap DictData Message RoundTrip Parser.

(** The encoding of a message without groups is a frame. *)
Lemma encoded_last l : l <> [] -> exists s, encoded l = s ++ [SOH].
Proof.
  intros Hl. destruct (exists_last Hl) as (init & f & ->).
  exists (encoded init ++ tag_text (getTag f) ++ ["="%char] ++ getString f).
  rewrite encoded_app. unfold encoded at 2. simpl concat. rewrite app_nil_r, getFixString_eq, <- !app_assoc. done.
Qed.

Lemma encoded_cons f l : encoded (f :: l) = getFixString f ++ encoded l.
Proof. done. Qed.

(** The trailer ends with the checksum. *)
Lemma trailer_fields m cks :
  sendable m ->
  exists init f, getTag f = FIELD.CheckSum /\ getString f = cks /\
      m_fields (setField (m_trailer m) (Field FIELD.CheckSum cks)) = init ++ [f].
Proof.
  intros [_ _ Wt _ Ot _ _ Ct _ _ _ _ _ _]. set (f10 := Field FIELD.CheckSum cks).
  assert (tag (getTag f10)) as T10 by by_compute.
  pose proof (wf_setField (m_trailer m) f10 Wt T10 ltac:(by apply Field_ok)) as Wt'.
  pose proof (unique_setField (m_trailer m) f10 Wt T10 (proj1 Ct)) as Ut'. unfold unique in Ut'.
  pose proof Wt' as (_ & (Hs' & Ht' & _) & _)%wf_eq. rewrite setField_order, Ot in Hs'.
  assert (exists g, field_of (m_fields (setField (m_trailer m) f10)) FIELD.CheckSum = Some g /\ getString g = cks) as (g & E & V).
  { rewrite field_of_setField by done. change (getTag f10) with FIELD.CheckSum. rewrite Z.eqb_refl.
    destruct (field_of (m_fields (m_trailer m)) FIELD.CheckSum); by eexists. }
  destruct (trailer_suffix _ g Hs' Ht' Ut' E) as (init & Einit & _). exists init, g.
  split_and!; [by apply field_of_tag in E as [] | done | done].
Qed.

Lemma sendable_framed m s m' :
  sendable m -> plain m -> toString_default m = Ok (s, m') -> framed s.
Proof.
  intros Hm Hp Es0.
  destruct (toString_layout m Hm) as (begin & mid & cks & m1 & Es & L3 & D3 & V3 & En & Eh & Eb & Et & _ & _ & E8).
  assert (m1 = m') as -> by congruence.
  assert (s = (getFixString (Field FIELD.BeginString begin) ++
               getFixString (Field FIELD.BodyLength (IntConvertor_convert (len mid))) ++ mid) ++
              getFixString (Field FIELD.CheckSum cks)) as Es' by congruence.
  clear Es. rename Es' into Es. pose proof (toString_string _ _ _ _ _ _ Es0) as Estr.
  assert (0 <= len mid < 2 ^ 31) as Hn by (rewrite En; pose proof (sendable_bodyLength m Hm); lia).
  destruct (encoded_message_fields m m' (len mid) cks Hm Hp Hn Eh Eb Et D3) as (Hplain & _ & _ & _ & Hord).
  destruct Hp as [(Gh & Gb & Gt) _ _ _ P35].
  rewrite !calculateString_plain, <- !encoded_app in Estr by (rewrite ?Eh, ?Eb, ?Et, ?setField_groups; done).
  destruct (encoded_header m (len mid) Hm P35) as (f8 & f9 & f35 & rest & Ehl & T8 & T9 & T35 & M8 & V9).
  rewrite <- Eh in Ehl. rewrite M8 in E8. injection E8 as E8.
  destruct (trailer_fields m cks Hm) as (init & f10 & T10 & V10 & Etl). rewrite <- Et in Etl.
  rewrite Ehl, Etl in *.
  set (l := f35 :: rest ++ m_fields (m_body m') ++ init) in *.
  assert ((f8 :: f9 :: f35 :: rest) ++ m_fields (m_body m') ++ init ++ [f10] = f8 :: f9 :: l ++ [f10]) as El.
  { unfold l. by rewrite <- !app_comm_cons, <- !app_assoc. }
  rewrite El in Estr, Hplain. rewrite !encoded_cons, encoded_app, encoded_cons in Estr.
  change (encoded []) with (@nil ascii) in Estr. rewrite app_nil_r in Estr.
  assert (getFixString f8 = getFixString (Field FIELD.BeginString begin)) as F8 by (by rewrite getFixString_Field, T8, E8).
  assert (getFixString f9 = getFixString (Field FIELD.BodyLength (IntConvertor_convert (len mid)))) as F9
    by (by rewrite getFixString_Field, T9, V9).
  assert (getFixString f10 = getFixString (Field FIELD.CheckSum cks)) as F10 by (by rewrite getFixString_Field, T10, V10).
  rewrite <- F8, <- F9, <- F10, Estr, <- !app_assoc in Es. 
  apply app_inv_head, app_inv_head, app_inv_tail in Es. 
  destruct (encoded_last l) as [mid' Emid]; [done|]. rewrite Emid in Es.
  apply Forall_cons in Hplain as [[_ P8] _].
  assert (len mid = Z.of_nat (length mid') + 1) as Elen by (rewrite <- Es; unfold len; rewrite length_app; simpl; lia).
  rewrite Estr, F9, F10, Emid, !getFixString_eq. rewrite Elen in Hn |- *. 
  change (m_tag f8) with (getTag f8). rewrite T8.
  assert (IntT_of_string int32_t (IntConvertor_convert (Z.of_nat (length mid') + 1)) = Ok (Z.of_nat (length mid') + 1)) as Hi
    by (by apply IntT_of_string_chars).
  match goal with |- framed ?s =>
    replace s with (frame (m_string f8) (IntConvertor_convert (Z.of_nat (length mid') + 1)) mid' cks) end.
  - apply framed_intro; [done | | by apply not_SOH_digits |].
    + apply not_SOH_digits. by apply IntConvertor_digits.
    + unfold IntT_of_string in Hi. destruct (IntT_convert _ _); simpl in Hi; congruence.
  - unfold frame, length_header. cbn [Field m_tag m_string].
    change (tag_text FIELD.BeginString) with (lit "8"). change (tag_text FIELD.BodyLength) with (lit "9").
    change (tag_text FIELD.CheckSum) with (lit "10").
    by repeat (rewrite <- app_assoc || rewrite <- app_comm_cons || cbn [app lit list_ascii_of_string]).
Qed.

(** ** Properties *)

(** What the receiver has of a message: its fields with their values, in their
    parts of the message. *)
Definition received (sent encoded : Message) (m : Message) : Prop :=
  contents (m_header m) = contents (m_header encoded) /\ contents (m_body m) = contents (m_body sent) /\
  contents (m_trailer m) = contents (m_trailer encoded) /\ m_validStructure m = true.

(** One message on its way. *)
Definition sent_as (m : Message) (s : str) : Prop :=
  sendable m /\ plain m /\ m_order (m_body m) = new_message_order normal /\
  exists m', toString_default m = Ok (s, m').

Lemma sent_as_framed m s : sent_as m s -> framed s.
Proof. intros (H1 & H2 & _ & m' & E). by apply (sendable_framed m s m'). Qed.

Lemma sent_as_received m s :
  sent_as m s -> exists m' m'', toString_default m = Ok (s, m') /\ Message_of_string s None None true = Ok m'' /\ received m m' m''.
Proof.
  intros (H1 & H2 & Ho & m' & E). exists m'.
  destruct (decode_encode m new_Message H1 H2) as (s0 & m0 & m'' & E0 & E1 & E2); try done.
  { by rewrite (sd_order_h m H1). }
  { by rewrite (sd_order_t m H1). }
  assert (s0 = s /\ m0 = m') as [-> ->] by (by split; congruence).
  exists m''. done.
Qed.

(** C12 Delivery: messages without groups and with no SOH in a value, ready to be sent
    ([sendable]: fields in their places, less than eight megabytes), are encoded one
    after the other; the bytes arrive in any chunks, as long as no chunk and message
    together exceed what the parser buffers; and the receiver's parser hands over one
    string per message, in order, each of which decodes without a dictionary, with
    validation, to the fields that were sent. *)
Theorem wire_delivery ms ss chunks :
  Forall2 sent_as ms ss -> concat chunks = concat ss ->
  Forall (fun s => Forall (fun c => Z.of_nat (length s) + Z.of_nat (length c) <= MAX_MESSAGE_SIZE) chunks) ss ->
  exists p, receive_all new_Parser chunks = Ok (ss, p) /\ m_buffer p = [] /\
    Forall2 (fun m s => exists m' m'', toString_default m = Ok (s, m') /\ Message_of_string s None None true = Ok m'' /\
                          received m m' m'') ms ss.
Proof.
  intros Hms E Hsize.
  assert (Forall framed ss) as Hf by (clear E Hsize; induction Hms; constructor; [by eapply sent_as_framed | done]).
  destruct (receive_all_frames chunks new_Parser ss) as (p & Hr & Hb); try done; [by left | by left | by left |].
  exists p. split_and!; [done | done |].
  eapply Forall2_impl; [exact Hms|]. apply sent_as_received.
Qed.

(** The sample order, twice, in chunks of five characters. *)
Fixpoint cut (fuel n : nat) (s : str) : list str :=
  match fuel, s with
  | S fuel, _ :: _ => take n s :: cut fuel n (drop n s)
  | _, _ => []
  end.

Definition plain_encoded : str := match toString_default plain_sample with Ok (s, _) => s | Throw _ => [] end.

Lemma plain_sample_sent : sent_as plain_sample plain_encoded.
Proof.
  split_and!; [apply plain_sample_sendable | apply plain_sample_plain | reflexivity |].
  eexists. vm_compute. reflexivity.
Qed.

Lemma wire_delivery_witness :
  exists p, receive_all new_Parser (cut 100 5 (plain_encoded ++ plain_encoded)) = Ok ([plain_encoded; plain_encoded], p) /\
    m_buffer p = [] /\
    Forall2 (fun m s => exists m' m'', toString_default m = Ok (s, m') /\ Message_of_string s None None true = Ok m'' /\
                          received m m' m'') [plain_sample; plain_sample] [plain_encoded; plain_encoded].
Proof.
  assert (Forall2 sent_as [plain_sample; plain_sample] [plain_encoded; plain_encoded]) as H1
    by (apply List.Forall2_cons; [exact plain_sample_sent|]; apply List.Forall2_cons; [exact plain_sample_sent|]; apply List.Forall2_nil).
  assert (concat (cut 100 5 (plain_encoded ++ plain_encoded)) = concat [plain_encoded; plain_encoded]) as H2
    by (vm_compute; reflexivity).
  assert (Forall (fun s => Forall (fun c => Z.of_nat (length s) + Z.of_nat (length c) <= MAX_MESSAGE_SIZE)
            (cut 100 5 (plain_encoded ++ plain_encoded))) [plain_encoded; plain_encoded]) as H3 by by_compute.
  exact (wire_delivery _ _ _ H1 H2 H3).
Defined.
