(* ===== verification/SessionID.v ===== *)
(** * Session identifiers ([src/C++/SessionID.h])

    The three fields that name a session, its qualifier, and the string the
    comparisons use, computed once. *)
From S2P Require Import Prelude.

Record SessionID := mkSessionID {
  m_beginString : str;
  m_senderCompID : str;
  m_targetCompID : str;
  m_sessionQualifier : str;
  m_isFIXT : bool;
  m_frozenString : str
}.

#[export] Instance SessionID_eq_dec : EqDecision SessionID.
Proof. solve_decision. Defined.

(** [toString(std::string&)]. *)
Definition sid_text (beginString senderCompID targetCompID qualifier : str) : str :=
  beginString ++ lit ":" ++ senderCompID ++ lit "->" ++ targetCompID ++
  match qualifier with [] => [] | _ => lit ":" ++ qualifier end.

Definition default_SessionID : SessionID := mkSessionID [] [] [] [] false (sid_text [] [] [] []).

Definition new_SessionID (beginString senderCompID targetCompID sessionQualifier : str) : SessionID :=
  mkSessionID beginString senderCompID targetCompID sessionQualifier
    (bool_decide (substr beginString 0 4 = lit "FIXT"))
    (sid_text beginString senderCompID targetCompID sessionQualifier).

Definition sid_toString (s : SessionID) : str := m_frozenString s.

(** [s.find_last_of(c)]. *)
Fixpoint find_last_of (c : ascii) (s : str) : option nat :=
  match s with
  | [] => None
  | d :: s =>
      match find_last_of c s with
      | Some i => Some (S i)
      | None => if bool_decide (c = d) then Some 0%nat else None
      end
  end.

(** [s.substr(pos, n)] where [n] is a difference of positions, an unsigned
    number. *)
Definition substr_size (s : str) (pos : nat) (n : Z) : str :=
  take (Z.to_nat (Z.min (u64 n) (Z.of_nat (length s)))) (drop pos s).

Definition sid_fromString (string : str) (s : SessionID) : SessionID :=
  match find (lit ":") string, find (lit "->") string, find_last_of ":"%char string with
  | Some first, Some second, Some third =>
      let beginString := substr string 0 first in
      let senderCompID := substr_size string (first + 1) (Z.of_nat second - Z.of_nat first - 1) in
      let '(targetCompID, qualifier) :=
        if (first =? third)%nat then (drop (second + 2) string, [])
        else (substr_size string (second + 2) (Z.of_nat third - Z.of_nat second - 2), drop (third + 1) string) in
      mkSessionID beginString senderCompID targetCompID qualifier (m_isFIXT s)
        (sid_text beginString senderCompID targetCompID qualifier)
  | _, _, _ => s
  end.

Definition sid_lt (lhs rhs : SessionID) : bool := str_ltb (m_frozenString lhs) (m_frozenString rhs).
Definition sid_eq (lhs rhs : SessionID) : bool := bool_decide (m_frozenString lhs = m_frozenString rhs).
Definition sid_ne (lhs rhs : SessionID) : bool := negb (sid_eq lhs rhs).

(** [operator~], the counterparty's identifier. *)
Definition sid_reverse (s : SessionID) : SessionID :=
  new_SessionID (m_beginString s) (m_targetCompID s) (m_senderCompID s) (m_sessionQualifier s).

(** ** The string gives the parts back *)

Lemma find_last_of_None c s : find_last_of c s = None <-> c ∉ s.
Proof.
  induction s as [|d s IH]; simpl; [by split; [intros _ ?%elem_of_nil|]|]. rewrite not_elem_of_cons.
  destruct (find_last_of c s); [naive_solver|]. case_bool_decide; naive_solver.
Qed.

Lemma find_last_of_app c s t : c ∉ t -> find_last_of c (s ++ c :: t) = Some (length s).
Proof.
  intros Hn. induction s as [|d s IH]; simpl; [|by rewrite IH].
  apply find_last_of_None in Hn as ->. by rewrite bool_decide_eq_true_2.
Qed.

Lemma substr_size_middle (pre s post : str) n :
  Z.of_nat (length (pre ++ s ++ post)) < 2 ^ 64 -> n = Z.of_nat (length s) ->
  substr_size (pre ++ s ++ post) (length pre) n = s.
Proof.
  intros Hl ->. unfold substr_size. rewrite drop_app_length, u64_small by (rewrite !length_app in Hl; lia).
  rewrite Z.min_l, Nat2Z.id by (rewrite !length_app; lia). by rewrite take_app_length.
Qed.

Definition arrow : str := lit "->".

(** No arrow starts in a part that holds none, even before an arrow. *)
Lemma find_arrow s rest : find arrow s = None -> find arrow (s ++ arrow ++ rest) = Some (length s).
Proof.
  induction s as [|c s IH]; [done|]. intros E.
  assert (prefix_at arrow (c :: s) = false /\ find arrow s = None) as [E1 E2].
  { cbn [find] in E. destruct (prefix_at arrow (c :: s)); [done|]. by destruct (find arrow s). }
  change ((c :: s) ++ arrow ++ rest) with (c :: (s ++ arrow ++ rest)). cbn [find].
  assert (prefix_at arrow (c :: s ++ arrow ++ rest) = false) as ->; [|by rewrite IH].
  destruct s as [|d s]; [by destruct c as [[] [] [] [] [] [] [] []]|]. simpl in E1 |- *.
  destruct (bool_decide ("-"%char = c)); [|done]. simpl in *. by destruct (bool_decide (">"%char = d)).
Qed.

(** The texts the string of which can be taken apart again. *)
Record separable (beginString senderCompID targetCompID qualifier : str) : Prop := {
  sep_begin : ":"%char ∉ beginString;
  sep_arrow : find arrow (beginString ++ lit ":" ++ senderCompID) = None;
  sep_colons : qualifier = [] -> ":"%char ∉ senderCompID ++ arrow ++ targetCompID;
  sep_qualifier : ":"%char ∉ qualifier;
  sep_length : Z.of_nat (length (sid_text beginString senderCompID targetCompID qualifier)) < 2 ^ 64
}.

Lemma fromString_toString b s t q id :
  separable b s t q ->
  sid_fromString (sid_text b s t q) id = mkSessionID b s t q (m_isFIXT id) (sid_text b s t q).
Proof.
  intros [Hb Ha Hc Hq Hl]. unfold sid_fromString.
  set (text := sid_text b s t q) in *.
  set (tail := match q with [] => [] | _ => lit ":" ++ q end).
  assert (text = b ++ ":"%char :: (s ++ arrow ++ t ++ tail)) as E1 by done.
  assert (text = (b ++ lit ":" ++ s) ++ arrow ++ (t ++ tail)) as E2 by (rewrite E1, <- !app_assoc; done).
  assert (text = (b ++ lit ":") ++ s ++ (arrow ++ t ++ tail)) as E3 by (rewrite E1, <- app_assoc; done).
  assert (text = (b ++ lit ":" ++ s ++ arrow) ++ t ++ tail) as E4 by (rewrite E2, <- !app_assoc; done).
  assert (find (lit ":") text = Some (length b)) as -> by (rewrite E1; by apply find_char).
  assert (find (lit "->") text = Some (length (b ++ lit ":" ++ s))) as -> by (rewrite E2; by apply find_arrow).
  assert (substr text 0 (length b) = b) as -> by (rewrite E1; unfold substr; by rewrite drop_0, take_app_length).
  assert (substr_size text (length b + 1) (Z.of_nat (length (b ++ lit ":" ++ s)) - Z.of_nat (length b) - 1) = s) as ->.
  { rewrite E3 in Hl |- *. replace (length b + 1)%nat with (length (b ++ lit ":")) by (by rewrite length_app).
    apply substr_size_middle; [done|].
    rewrite !length_app. simpl. lia. }
  destruct q as [|c q]; cbn [tail] in *; subst tail.
  - rewrite app_nil_r in E1, E4.
    assert (find_last_of ":"%char text = Some (length b)) as -> by (rewrite E1; apply find_last_of_app, Hc; reflexivity).
    rewrite Nat.eqb_refl. assert (drop (length (b ++ lit ":" ++ s) + 2) text = t) as ->; [|done].
    rewrite E4. apply drop_app_length'. rewrite !length_app. simpl. lia.
  - assert (text = (b ++ lit ":" ++ s ++ arrow ++ t) ++ ":"%char :: c :: q) as E5 by (rewrite E4, <- !app_assoc; done).
    assert (find_last_of ":"%char text = Some (length (b ++ lit ":" ++ s ++ arrow ++ t))) as ->
      by (rewrite E5; by apply find_last_of_app).
    rewrite (proj2 (Nat.eqb_neq _ _)) by (rewrite !length_app; simpl; lia).
    assert (substr_size text (length (b ++ lit ":" ++ s) + 2)
      (Z.of_nat (length (b ++ lit ":" ++ s ++ arrow ++ t)) - Z.of_nat (length (b ++ lit ":" ++ s)) - 2) = t) as ->.
    { rewrite E4 in Hl |- *. replace (length (b ++ lit ":" ++ s) + 2)%nat with (length (b ++ lit ":" ++ s ++ arrow))
        by (rewrite !length_app; simpl; lia).
      apply substr_size_middle; [done|]. rewrite !length_app. simpl. lia. }
    assert (drop (length (b ++ lit ":" ++ s ++ arrow ++ t) + 1) text = c :: q) as ->; [|done].
    rewrite E5, (app_assoc _ [":"%char] (c :: q) : _ ++ ":"%char :: c :: q = _).
    apply drop_app_length'. by rewrite (length_app _ [":"%char]).
Qed.

(** Two identifiers may share a string, and compare equal. *)
Lemma sid_eq_ambiguous :
  sid_eq (new_SessionID (lit "FIX.4.2") (lit "A") (lit "B:C") []) (new_SessionID (lit "FIX.4.2") (lit "A") (lit "B") (lit "C")) = true.
Proof. reflexivity. Qed.

(** [fromString] leaves [m_isFIXT] as it was, false for a default identifier. *)
Lemma fromString_not_FIXT :
  m_isFIXT (sid_fromString (lit "FIXT.1.1:A->B") default_SessionID) = false /\
  m_isFIXT (new_SessionID (lit "FIXT.1.1") (lit "A") (lit "B") []) = true.
Proof. by split. Qed.
