(* ===== verification/TextMap.v ===== *)
(** * Ordered maps with text keys: [std::map<K, A>]

    For a key type ordered by a text it carries: [std::string] itself, or a
    [SessionID] by its string. Bindings are in increasing order of the texts, and
    iteration is list order. [m[k] = v] of a key that is there keeps the old key
    object. *)
From S2P Require Import Prelude.

(** ** The order of [std::string] *)

Lemma str_ltb_irrefl a : str_ltb a a = false.
Proof. induction a as [|c a IH]; [done|]. simpl. by rewrite Z.ltb_irrefl. Qed.

Lemma str_ltb_nil_r a : str_ltb a [] = false.
Proof. by destruct a. Qed.

Lemma str_ltb_trans a b c : str_ltb a b = true -> str_ltb b c = true -> str_ltb a c = true.
Proof.
  revert b c. induction a as [|x a IH]; intros [|y b] [|z c]; simpl; try done.
  intros H1 H2. specialize (IH b c).
  destruct (Z.ltb_spec (code x) (code y)), (Z.ltb_spec (code y) (code x)),
    (Z.ltb_spec (code y) (code z)), (Z.ltb_spec (code z) (code y)),
    (Z.ltb_spec (code x) (code z)), (Z.ltb_spec (code z) (code x)); try done; try lia; auto.
Qed.

Lemma str_ltb_total a b : str_ltb a b = true \/ a = b \/ str_ltb b a = true.
Proof.
  revert b. induction a as [|x a IH]; intros [|y b]; simpl; auto.
  destruct (Z.ltb_spec (code x) (code y)), (Z.ltb_spec (code y) (code x)); auto.
  assert (x = y) as ->; [|destruct (IH b) as [?|[->|?]]; auto].
  rewrite <- (chr_code x), <- (chr_code y). f_equal. lia.
Qed.

(** ** The maps *)

Section TextMap.
Context {K A : Type} (text : K -> str).
Implicit Types (k : K) (m : list (K * A)).

(** [m.find(k)]; [None] is [end()]. *)
Fixpoint tm_find k m : option A :=
  match m with
  | [] => None
  | (k', v) :: m => if bool_decide (text k = text k') then Some v else tm_find k m
  end.

(** [m[k] = v]. *)
Fixpoint tm_set k (v : A) m : list (K * A) :=
  match m with
  | [] => [(k, v)]
  | (k', v') :: m =>
      if bool_decide (text k = text k') then (k', v) :: m
      else if str_ltb (text k) (text k') then (k, v) :: (k', v') :: m
      else (k', v') :: tm_set k v m
  end.

Definition tm_has k m : bool := match tm_find k m with Some _ => true | None => false end.

(** [m.erase(k)]. *)
Fixpoint tm_erase k m : list (K * A) :=
  match m with
  | [] => []
  | (k', v) :: m => if bool_decide (text k = text k') then m else (k', v) :: tm_erase k m
  end.

(** Texts strictly increase. *)
Fixpoint tm_ordered m : Prop :=
  match m with
  | [] => True
  | (k, _) :: m => Forall (fun p => str_ltb (text k) (text p.1) = true) m /\ tm_ordered m
  end.

Lemma tm_find_below k m : Forall (fun p => str_ltb (text k) (text p.1) = true) m -> tm_find k m = None.
Proof.
  induction m as [|[k' v] m IH]; [done|]. intros [H1 H2]%Forall_cons. simpl in *.
  rewrite bool_decide_eq_false_2; [by apply IH|]. intros E. by rewrite E, str_ltb_irrefl in H1.
Qed.

Lemma tm_set_in k v m p : p ∈ tm_set k v m -> p ∈ m \/ (text p.1 = text k /\ p.2 = v).
Proof.
  induction m as [|[k' v'] m IH]; simpl; [intros ->%list_elem_of_singleton; auto|].
  case_bool_decide; [|destruct (str_ltb _ _)]; rewrite ?elem_of_cons; intros [->|H']; simpl; auto.
  destruct (IH H') as [?|?]; auto.
Qed.

Lemma tm_set_new k v m p : tm_find k m = None -> p ∈ tm_set k v m -> p ∈ m \/ p = (k, v).
Proof.
  induction m as [|[k' v'] m IH]; simpl; [intros _ ->%list_elem_of_singleton; auto|].
  case_bool_decide; [done|]. intros E. destruct (str_ltb _ _); rewrite !elem_of_cons; intros [->|H']; auto.
  destruct (IH E H') as [?|?]; auto.
Qed.

Lemma tm_ordered_set k v m : tm_ordered m -> tm_ordered (tm_set k v m).
Proof.
  induction m as [|[k' v'] m IH]; simpl; [by split|]. intros [H1 H2].
  case_bool_decide as E; [done|]. destruct (str_ltb (text k) (text k')) eqn:L; simpl.
  - split; [|done]. constructor; [done|]. eapply Forall_impl; [exact H1|]. intros p Hp. by eapply str_ltb_trans.
  - split; [|by apply IH]. apply Forall_forall. intros p Hp%tm_set_in.
    rewrite Forall_forall in H1. destruct Hp as [Hp|[E' _]]; [by apply H1|]. rewrite E'.
    destruct (str_ltb_total (text k) (text k')) as [?|[?|?]]; congruence.
Qed.

Lemma tm_find_set k v m : tm_ordered m -> tm_find k (tm_set k v m) = Some v.
Proof.
  induction m as [|[k' v'] m IH]; simpl; intros H; [by rewrite bool_decide_eq_true_2|].
  destruct H as [H1 H2]. case_bool_decide as E; simpl; [by rewrite bool_decide_eq_true_2|].
  destruct (str_ltb (text k) (text k')); simpl; [by rewrite bool_decide_eq_true_2|].
  rewrite bool_decide_eq_false_2 by done. by apply IH.
Qed.

Lemma tm_find_set_ne k k' v m : text k <> text k' -> tm_find k (tm_set k' v m) = tm_find k m.
Proof.
  intros Hne. induction m as [|[k1 v1] m IH]; simpl; [by rewrite bool_decide_eq_false_2|].
  case_bool_decide as E; simpl; [by rewrite !bool_decide_eq_false_2 by congruence|].
  destruct (str_ltb (text k') (text k1)); simpl; [by rewrite (bool_decide_eq_false_2 (text k = text k'))|].
  by rewrite IH.
Qed.

Lemma tm_find_Some k v m : tm_find k m = Some v -> exists k', text k' = text k /\ (k', v) ∈ m.
Proof.
  induction m as [|[k' v'] m IH]; simpl; [done|]. case_bool_decide as E.
  - intros [= ->]. exists k'. split; [done | left].
  - intros (k1 & ? & ?)%IH. exists k1. split; [done | by right].
Qed.

Lemma tm_find_in k v m : tm_ordered m -> (k, v) ∈ m -> tm_find k m = Some v.
Proof.
  induction m as [|[k' v'] m IH]; simpl; [by intros _ ?%elem_of_nil|]. intros [H1 H2] [[= -> ->]|Hin]%elem_of_cons.
  - by rewrite bool_decide_eq_true_2.
  - rewrite bool_decide_eq_false_2; [by apply IH|]. intros E. rewrite Forall_forall in H1.
    specialize (H1 _ Hin). simpl in H1. by rewrite E, str_ltb_irrefl in H1.
Qed.

Lemma tm_find_text k k' m : text k = text k' -> tm_find k m = tm_find k' m.
Proof. intros E. induction m as [|[k1 v] m IH]; [done|]. simpl. by rewrite E, IH. Qed.

Lemma tm_find_has k m : tm_has k m = true <-> is_Some (tm_find k m).
Proof. unfold tm_has. destruct (tm_find k m); [split; [by eexists | done]|]. split; [done | by intros [? ?]]. Qed.

Lemma tm_erase_in k m p : p ∈ tm_erase k m -> p ∈ m.
Proof.
  induction m as [|[k' v] m IH]; simpl; [done|]. case_bool_decide; rewrite !elem_of_cons; [auto|]. intros [?|?]; auto.
Qed.

Lemma tm_ordered_erase k m : tm_ordered m -> tm_ordered (tm_erase k m).
Proof.
  induction m as [|[k' v] m IH]; simpl; [done|]. intros [H1 H2]. case_bool_decide; [done|].
  split; [|by apply IH]. apply Forall_forall. intros p Hp%tm_erase_in. rewrite Forall_forall in H1. by apply H1.
Qed.

Lemma tm_find_erase k m : tm_ordered m -> tm_find k (tm_erase k m) = None.
Proof.
  induction m as [|[k' v] m IH]; simpl; [done|]. intros [H1 H2]. case_bool_decide as E.
  - rewrite (tm_find_text k k') by done. by apply tm_find_below.
  - simpl. rewrite bool_decide_eq_false_2 by done. by apply IH.
Qed.

Lemma tm_find_erase_ne k k' m : text k <> text k' -> tm_find k (tm_erase k' m) = tm_find k m.
Proof.
  intros Hne. induction m as [|[k1 v] m IH]; simpl; [done|]. case_bool_decide as E; simpl; [|by rewrite IH].
  by rewrite (bool_decide_eq_false_2 (text k = text k1)) by congruence.
Qed.

(** Erasing a key that was just added gives the map back. *)
Lemma tm_erase_set k v m : tm_find k m = None -> tm_erase k (tm_set k v m) = m.
Proof.
  induction m as [|[k' v'] m IH]; simpl; [by rewrite bool_decide_eq_true_2|]. case_bool_decide as E; [done|]. intros Hf.
  destruct (str_ltb _ _); simpl; [by rewrite bool_decide_eq_true_2|]. by rewrite bool_decide_eq_false_2, IH.
Qed.

(** A key larger than all others goes to the end. *)
Lemma tm_set_last k v m :
  Forall (fun p => str_ltb (text p.1) (text k) = true) m -> tm_set k v m = m ++ [(k, v)].
Proof.
  induction m as [|[k' v'] m IH]; [done|]. intros [H1 H2]%Forall_cons. simpl in *.
  rewrite bool_decide_eq_false_2 by (intros E; by rewrite E, str_ltb_irrefl in H1).
  destruct (str_ltb (text k) (text k')) eqn:E; [|by rewrite IH].
  pose proof (str_ltb_trans _ _ _ H1 E) as C. by rewrite str_ltb_irrefl in C.
Qed.

Lemma tm_ordered_app m1 m2 :
  tm_ordered (m1 ++ m2) -> tm_ordered m1 /\ tm_ordered m2 /\
    Forall (fun p => Forall (fun q => str_ltb (text p.1) (text q.1) = true) m2) m1.
Proof.
  induction m1 as [|[k v] m1 IH]; simpl; [done|]. intros [H1 (H2 & H3 & H4)%IH].
  apply Forall_app in H1 as [H1 H1']. split_and!; auto.
Qed.

(** Setting the bindings of an ordered map one after the other builds it again. *)
Lemma tm_set_all m : tm_ordered m -> fold_left (fun acc p => tm_set p.1 p.2 acc) m [] = m.
Proof.
  induction m as [|[k v] m IH] using rev_ind; [done|]. intros (H1 & _ & H3)%tm_ordered_app.
  rewrite fold_left_app. simpl. rewrite (IH H1). apply tm_set_last.
  eapply Forall_impl; [exact H3|]. simpl. by intros ? [? _]%Forall_cons.
Qed.

Lemma tm_ordered_filter f m : tm_ordered m -> tm_ordered (List.filter f m).
Proof.
  induction m as [|[k v] m IH]; [done|]. intros [H1 H2]. simpl. destruct (f (k, v)); [|by apply IH].
  split; [|by apply IH]. apply Forall_forall. intros q Hq. rewrite Forall_forall in H1. apply H1.
  apply list_elem_of_In in Hq. apply filter_In in Hq as [Hq _]. by apply list_elem_of_In.
Qed.

Lemma tm_find_filter f k m :
  tm_ordered m -> (forall k' v, (k', v) ∈ m -> text k' = text k -> k' = k) ->
  tm_find k (List.filter f m) =
    match tm_find k m with Some v => if f (k, v) then Some v else None | None => None end.
Proof.
  induction m as [|[k' v'] m IH]; [done|]. intros [H1 H2] Hk. simpl.
  assert (forall k'' v, (k'', v) ∈ m -> text k'' = text k -> k'' = k) as Hk' by (intros k1 v1 ?; apply (Hk k1 v1); by right).
  specialize (IH H2 Hk'). case_bool_decide as E.
  - pose proof (Hk k' v' ltac:(left) (eq_sym E)) as ->. destruct (f (k, v')); simpl; [by rewrite bool_decide_eq_true_2|].
    by rewrite IH, tm_find_below.
  - destruct (f (k', v')); simpl; [by rewrite bool_decide_eq_false_2|]. done.
Qed.
End TextMap.

(** Two maps of strings with the same bindings are the same. *)
Lemma tm_ext {A} (m1 m2 : list (str * A)) :
  tm_ordered id m1 -> tm_ordered id m2 -> (forall k, tm_find id k m1 = tm_find id k m2) -> m1 = m2.
Proof.
  revert m2. induction m1 as [|[k1 v1] m1 IH]; intros [|[k2 v2] m2] H1 H2 E; [done| | |].
  - specialize (E k2). simpl in E. by rewrite bool_decide_eq_true_2 in E.
  - specialize (E k1). simpl in E. by rewrite bool_decide_eq_true_2 in E.
  - destruct H1 as [H1 H1'], H2 as [H2 H2'].
    assert (k1 = k2) as <-.
    { destruct (str_ltb_total k1 k2) as [L|[->|L]]; [|done|].
      - assert (tm_find id k1 ((k2, v2) :: m2) = None) as N; [|by rewrite <- E in N; simpl in N; rewrite bool_decide_eq_true_2 in N].
        apply tm_find_below. constructor; [done|]. eapply Forall_impl; [exact H2|]. intros p. by apply str_ltb_trans.
      - assert (tm_find id k2 ((k1, v1) :: m1) = None) as N; [|by rewrite E in N; simpl in N; rewrite bool_decide_eq_true_2 in N].
        apply tm_find_below. constructor; [done|]. eapply Forall_impl; [exact H1|]. intros p. by apply str_ltb_trans. }
    assert (v1 = v2) as <- by (specialize (E k1); simpl in E; rewrite !bool_decide_eq_true_2 in E by done; congruence).
    f_equal. apply IH; [done..|]. intros k. specialize (E k). simpl in E. case_bool_decide as D; [|done].
    unfold id in D. subst k. by rewrite !tm_find_below.
Qed.

#[export] Hint Resolve tm_ordered_set tm_ordered_erase : core.
