(* ===== verification/Settings.v ===== *)
(** * Settings ([src/C++/Dictionary.h], [Dictionary.cpp], [Settings.h], [Settings.cpp], [SessionSettings.h], [SessionSettings.cpp])

    A configuration file is a list of sections of keys and values. The section
    DEFAULT gives values to every section SESSION, and each of these becomes the
    settings of one session. [getenv] is the C library's, a parameter. Values of
    type double ([getDouble], [setDouble]) are not modelled. *)
From S2P Require Import Prelude Convertors Values SessionID TextMap.

(** ** Strings ([Utility.cpp]) *)

(** [toupper] and [tolower] of the C locale. *)
Definition toupper (c : ascii) : ascii := if (97 <=? code c) && (code c <=? 122) then chr (code c - 32) else c.
Definition tolower (c : ascii) : ascii := if (65 <=? code c) && (code c <=? 90) then chr (code c + 32) else c.

Definition string_toUpper (value : str) : str := map toupper value.
Definition string_toLower (value : str) : str := map tolower value.

(** Space, tab, carriage return, line feed. *)
Definition is_blank (c : ascii) : bool := bool_decide (c ∈ [" "; "009"; "013"; "010"]%char).

Fixpoint drop_blank (s : str) : str :=
  match s with
  | [] => []
  | c :: rest => if is_blank c then drop_blank rest else s
  end.

(** From the first to the last character that is not blank; a string of blanks
    is returned as it is. *)
Definition string_strip (value : str) : str :=
  match drop_blank value with
  | [] => value
  | rest => rev (drop_blank (rev rest))
  end.

(** ** Dictionary *)

Record Dictionary := mkDictionary { m_data : list (str * str); m_name : str }.

Definition new_Dictionary (name : str) : Dictionary := mkDictionary [] name.
Definition default_Dictionary : Dictionary := mkDictionary [] [].

Definition dict_size (d : Dictionary) : nat := length (m_data d).

Definition dict_has (d : Dictionary) (key : str) : bool := tm_has id (string_toUpper key) (m_data d).

Definition getString (d : Dictionary) (key : str) (capitalize : bool) : result str :=
  result ← of_option (ConfigError (key ++ lit " not defined")) (tm_find id (string_toUpper key) (m_data d));
  mret (if capitalize then map toupper result else result).

(** [catch (FieldConvertError &)] of the typed getters. *)
Definition illegal_value {A} (d : Dictionary) (key : str) (r : result A) : result A :=
  match r with
  | Throw (FieldConvertError _) =>
      value ← getString d key false;
      Throw (ConfigError (lit "Illegal value " ++ value ++ lit " for " ++ key))
  | _ => r
  end.

Definition getInt (d : Dictionary) (key : str) : result Z :=
  illegal_value d key (value ← getString d key false; IntT_of_string int32_t value).

Definition getBool (d : Dictionary) (key : str) : result bool :=
  illegal_value d key (value ← getString d key false; BoolConvertor_of_string value).

(** The first two letters name the day; a value that names none is -1. *)
Definition getDay (d : Dictionary) (key : str) : result Z :=
  illegal_value d key (
    value ← getString d key false;
    _ ← guard_or (negb (length value <? 2)%nat) (FieldConvertError []);
    let abbr := map tolower (substr value 0 2) in
    mret (if bool_decide (abbr = lit "su") then 1
          else if bool_decide (abbr = lit "mo") then 2
          else if bool_decide (abbr = lit "tu") then 3
          else if bool_decide (abbr = lit "we") then 4
          else if bool_decide (abbr = lit "th") then 5
          else if bool_decide (abbr = lit "fr") then 6
          else if bool_decide (abbr = lit "sa") then 7
          else -1)).

Definition numericKeys : list str :=
  map lit ["HEARTBTINT"; "MAXLATENCY"; "LOGONTIMEOUT"; "LOGOUTTIMEOUT"; "RECONNECTINTERVAL"; "SOCKETCONNECTPORT"]%string.

Definition set_data (d : Dictionary) (key value : str) : Dictionary :=
  mkDictionary (tm_set id key value (m_data d)) (m_name d).

Definition setString (d : Dictionary) (key value : str) : result Dictionary :=
  let upperKey := string_strip (string_toUpper key) in
  let strippedVal := string_strip value in
  if bool_decide (upperKey ∈ numericKeys) && negb (all_digits strippedVal)
  then Throw (ConfigError (lit "Expected numeric value for: " ++ upperKey))
  else Ok (set_data d upperKey strippedVal).

Definition setInt (d : Dictionary) (key : str) (value : Z) : Dictionary :=
  set_data d (string_strip (string_toUpper key)) (IntConvertor_convert value).

Definition setBool (d : Dictionary) (key : str) (value : bool) : Dictionary :=
  set_data d (string_strip (string_toUpper key)) (BoolConvertor_convert value).

Definition setDay (d : Dictionary) (key : str) (value : Z) : result Dictionary :=
  match value with
  | 1 => setString d key (lit "SU")
  | 2 => setString d key (lit "MO")
  | 3 => setString d key (lit "TU")
  | 4 => setString d key (lit "WE")
  | 5 => setString d key (lit "TH")
  | 6 => setString d key (lit "FR")
  | 7 => setString d key (lit "SA")
  | _ => Ok d
  end.

Definition merge_one (d : Dictionary) (p : str * str) : Dictionary :=
  match tm_find id p.1 (m_data d) with
  | None => set_data d p.1 p.2
  | Some _ => d
  end.

Definition merge (d toMerge : Dictionary) : Dictionary := fold_left merge_one (m_data toMerge) d.

(** ** Lines *)

Definition isComment (line : str) : bool :=
  match line with [] => false | c :: _ => bool_decide (c = "#"%char) end.

Definition isSection (line : str) : bool :=
  match line with
  | [] => false
  | c :: _ => bool_decide (c = "["%char) && bool_decide (last line = Some "]"%char)
  end.

(** [std::string(line, 1, line.size() - 2)]: of a line of one bracket, which is not a
    section, the size wraps. *)
Definition splitSection (line : str) : str := string_strip (substr_size line 1 (Z.of_nat (length line) - 2)).

Definition isKeyValue (line : str) : bool := bool_decide ("="%char ∈ line).

Definition splitKeyValue (line : str) : str * str :=
  match find (lit "=") line with
  | Some equals => (substr line 0 equals, drop (equals + 1) line)
  | None => (line, line)   (* [npos + 1] is 0 *)
  end.

(** ** Environment variables in a value *)

Section Environment.
Context (getenv : str -> option str).

(** The characters that end a name; [strchr] finds the terminating null of its
    set as well. *)
Definition ends_name (c : ascii) : bool :=
  bool_decide (c ∈ lit " /:;,.='?#+*()[]{}$&%" ++ ["034"; "009"; "010"; NUL]%char).

(** The name that starts with [c], goes on in [s], the character that ends it
    and what is left after that; [None] when the end of the string ended it. *)
Fixpoint scan_name (c : ascii) (s : str) : str * ascii * option str :=
  match s with
  | [] => ([c], NUL, None)
  | d :: s =>
      if ends_name d then ([c], d, Some s)
      else let '(varName, e, rest) := scan_name d s in (c :: varName, e, rest)
  end.

Definition escaped (c : ascii) : ascii :=
  if bool_decide (c = "t"%char) then "009"%char
  else if bool_decide (c = "r"%char) then "013"%char
  else if bool_decide (c = "n"%char) then "010"%char
  else c.

(** Where the copying goes on after a name. *)
Definition after_name (inBraces : bool) (e : ascii) (rest : option str) : str :=
  match rest with
  | None => []
  | Some rest => if inBraces && (bool_decide (e = ")"%char) || bool_decide (e = "}"%char)) then rest else e :: rest
  end.

Definition variable (varName : str) : str :=
  match getenv (c_str varName) with Some value => value | None => [] end.

Fixpoint resolve_loop (fuel : nat) (s : str) : str :=
  match fuel with
  | O => []
  | S fuel =>
      match s with
      | [] => []
      | [c] => [c]
      | c :: (d :: t) as s' =>
          if bool_decide (c = "\"%char) then escaped d :: resolve_loop fuel t
          else if bool_decide (c = "$"%char) then
            let inBraces := bool_decide (d = "("%char) || bool_decide (d = "{"%char) in
            (* the character the name starts with, and what follows it *)
            match (if inBraces then t else s') with
            | [] => []
            | [_] => []
            | c :: rest =>
                let '(varName, e, rest) := scan_name c rest in
                variable varName ++ resolve_loop fuel (after_name inBraces e rest)
            end
          else c :: resolve_loop fuel s'
      end
  end.

Definition resolveEnvVars (s : str) : str := resolve_loop (length s) s.

(** ** Settings *)

(** [while (stream.getline(buffer, sizeof(buffer)))]: the lines it gives. [room]
    is how many characters the buffer still takes and [acc] those in it, last
    first. A line the buffer has no room for fails the stream and ends the loop,
    and so does the end of the stream when nothing was read before it. *)
Fixpoint getlines (room : nat) (acc : str) (s : str) : list str :=
  match s with
  | [] => match acc with [] => [] | _ => [rev acc] end
  | c :: s =>
      if bool_decide (c = "010"%char) then rev acc :: getlines 1023 [] s
      else match room with O => [] | S room => getlines room (c :: acc) s end
  end.

(** The sections and the one being read. *)
Definition Sections : Type := list Dictionary * option nat.

Definition read_line (resolve : bool) (s : Sections) (buffer : str) : result Sections :=
  let '(sections, section) := s in
  let line := string_strip (c_str buffer) in
  if isComment line then Ok s
  else if isSection line then Ok (sections ++ [new_Dictionary (splitSection line)], Some (length sections))
  else if isKeyValue line then
    match section with
    | None => Ok s
    | Some i =>
        let '(key, value) := splitKeyValue line in
        d ← of_option Undefined (sections !! i);
        d ← setString d key (if resolve then resolveEnvVars value else value);
        mret (<[i := d]> sections, Some i)
    end
  else Ok s.

Fixpoint read_lines (resolve : bool) (s : Sections) (lines : list str) : result Sections :=
  match lines with
  | [] => Ok s
  | line :: lines => s ← read_line resolve s line; read_lines resolve s lines
  end.

(** [stream >> settings]. *)
Definition read_Settings (resolve : bool) (stream : str) (sections : list Dictionary) : result (list Dictionary) :=
  fst <$> read_lines resolve (sections, None) (getlines 1023 [] stream).

(** [Settings::get]. *)
Definition settings_get (sections : list Dictionary) (name : str) : list Dictionary :=
  List.filter (fun d => bool_decide (m_name d = name)) sections.

(** ** SessionSettings *)

Record SessionSettings := mkSessionSettings {
  m_settings : list (SessionID * Dictionary);
  m_defaults : Dictionary;
  m_resolveEnvVars : bool
}.

Definition new_SessionSettings (resolve : bool) : SessionSettings := mkSessionSettings [] default_Dictionary resolve.

Definition BEGINSTRING : str := lit "BeginString".
Definition SENDERCOMPID : str := lit "SenderCompID".
Definition TARGETCOMPID : str := lit "TargetCompID".
Definition SESSION_QUALIFIER : str := lit "SessionQualifier".
Definition CONNECTION_TYPE : str := lit "ConnectionType".

Definition settings_has (s : SessionSettings) (sessionID : SessionID) : bool := tm_has m_frozenString sessionID (m_settings s).

Definition settings_of (s : SessionSettings) (sessionID : SessionID) : result Dictionary :=
  of_option (ConfigError (lit "Session not found")) (tm_find m_frozenString sessionID (m_settings s)).

(** [SessionSettings::validate]. *)
Definition validate_settings (dictionary : Dictionary) : result unit :=
  beginString ← getString dictionary BEGINSTRING false;
  _ ← guard_or (bool_decide (beginString ∈ [BeginString_FIX40; BeginString_FIX41; BeginString_FIX42; BeginString_FIX43;
                                            BeginString_FIX44; BeginString_FIXT11]))
        (ConfigError (BEGINSTRING ++ lit " must be FIX.4.0 to FIX.4.4 or FIXT.1.1"));
  connectionType ← getString dictionary CONNECTION_TYPE false;
  guard_or (bool_decide (connectionType ∈ [lit "initiator"; lit "acceptor"]))
    (ConfigError (CONNECTION_TYPE ++ lit " must be 'initiator' or 'acceptor'")).

(** [set(sessionID, settings)]. *)
Definition set_session (s : SessionSettings) (sessionID : SessionID) (settings : Dictionary) : result SessionSettings :=
  _ ← guard_or (negb (settings_has s sessionID)) (ConfigError (lit "Duplicate Session " ++ sid_toString sessionID));
  settings ← setString settings BEGINSTRING (m_beginString sessionID);
  settings ← setString settings SENDERCOMPID (m_senderCompID sessionID);
  settings ← setString settings TARGETCOMPID (m_targetCompID sessionID);
  let settings := merge settings (m_defaults s) in
  _ ← validate_settings settings;
  mret (mkSessionSettings (tm_set m_frozenString sessionID settings (m_settings s)) (m_defaults s) (m_resolveEnvVars s)).

(** [set(defaults)]. *)
Definition set_defaults (s : SessionSettings) (defaults : Dictionary) : SessionSettings :=
  mkSessionSettings (map (fun '(id, d) => (id, merge d defaults)) (m_settings s)) defaults (m_resolveEnvVars s).

Definition getSessions (s : SessionSettings) : list SessionID :=
  map fst (fold_left (fun result p => if tm_has m_frozenString p.1 result then result else tm_set m_frozenString p.1 () result)
             (m_settings s) []).

(** The identifier the settings of a section name. *)
Definition read_SessionID (dict : Dictionary) : result SessionID :=
  beginString ← getString dict BEGINSTRING false;
  senderCompID ← getString dict SENDERCOMPID false;
  targetCompID ← getString dict TARGETCOMPID false;
  sessionQualifier ← (if dict_has dict SESSION_QUALIFIER then getString dict SESSION_QUALIFIER false else mret []);
  mret (new_SessionID beginString senderCompID targetCompID sessionQualifier).

Definition read_session (def : Dictionary) (s : SessionSettings) (section : Dictionary) : result SessionSettings :=
  let dict := merge section def in
  sessionID ← read_SessionID dict;
  set_session s sessionID dict.

Fixpoint read_sessions (def : Dictionary) (s : SessionSettings) (sections : list Dictionary) : result SessionSettings :=
  match sections with
  | [] => Ok s
  | section :: sections => s ← read_session def s section; read_sessions def s sections
  end.

(** [stream >> sessionSettings]. *)
Definition read_SessionSettings (stream : str) (s : SessionSettings) : result SessionSettings :=
  settings ← read_Settings (m_resolveEnvVars s) stream [];
  let def := match settings_get settings (lit "DEFAULT") with [] => default_Dictionary | d :: _ => d end in
  read_sessions def (set_defaults s def) (settings_get settings (lit "SESSION")).
End Environment.

Definition endl : str := ["010"%char].

Definition print_entry (p : str * str) : str := p.1 ++ lit "=" ++ p.2 ++ endl.

(** The entry is what the default says. *)
Definition is_default (defaults : Dictionary) (p : str * str) : bool :=
  dict_has defaults p.1 &&
  match getString defaults p.1 false with Ok v => bool_decide (v = p.2) | Throw _ => false end.

Definition print_session (defaults section : Dictionary) : str :=
  lit "[SESSION]" ++ endl ++
  if (dict_size section =? 0)%nat then []
  else concat (map print_entry (List.filter (fun p => negb (is_default defaults p)) (m_data section))) ++ endl.

(** [stream << sessionSettings]. *)
Definition print_SessionSettings (s : SessionSettings) : str :=
  (if (dict_size (m_defaults s) =? 0)%nat then []
   else lit "[DEFAULT]" ++ endl ++ concat (map print_entry (m_data (m_defaults s))) ++ endl) ++
  concat (map (fun id => match settings_of s id with
                         | Ok section => print_session (m_defaults s) section
                         | Throw _ => [] end) (getSessions s)).
