(* ===== verification/SettingsText.v ===== *)
(** * Settings, read and printed

    What reading a configuration gives, and that printing settings and reading the
    text again gives the same settings. *)
From S2P Require Import Prelude Convertors Values SessionID TextMap Settings.

(** ** Stripping *)

(** No blank at either end. *)
Definition tight (s : str) : Prop :=
  (forall c, head s = Some c -> is_blank c = false) /\ (forall c, last s = Some c -> is_blank c = false).

Lemma drop_blank_spec s :
  exists pre, s = pre ++ drop_blank s /\ Forall (fun c => is_blank c = true) pre /\
    (forall c, head (drop_blank s) = Some c -> is_blank c = false).
Proof.
  induction s as [|c s (pre & E & Hp & Hh)]; simpl; [by exists []|].
  destruct (is_blank c) eqn:B; [|exists []; split_and!; [done | constructor | simpl; congruence]].
  exists (c :: pre). split_and!; [by rewrite E at 1 | by constructor | done].
Qed.

Lemma drop_blank_tight s : (forall c, head s = Some c -> is_blank c = false) -> drop_blank s = s.
Proof. destruct s as [|c s]; simpl; [done|]. intros H. by rewrite (H c eq_refl). Qed.

Lemma string_strip_tight s : tight s -> string_strip s = s.
Proof.
  intros [H1 H2]. unfold string_strip. rewrite drop_blank_tight by done. destruct s as [|c s]; [done|].
  rewrite drop_blank_tight, rev_involutive; [done|]. intros d Hd. apply H2.
  rewrite <- (rev_involutive (c :: s)). destruct (rev (c :: s)) as [|e t]; simpl in *; [done|].
  by rewrite last_snoc.
Qed.

(** Of a string that does not start with a blank, stripping only cuts blanks
    behind. *)
Lemma string_strip_front s :
  (forall c, head s = Some c -> is_blank c = false) ->
  exists post, s = string_strip s ++ post /\ Forall (fun c => is_blank c = true) post /\ tight (string_strip s).
Proof.
  intros H1. unfold string_strip. rewrite drop_blank_tight by done.
  destruct s as [|c s]; [exists []; split_and!; [done | constructor | done]|].
  destruct (drop_blank_spec (rev (c :: s))) as (pre & E & Hp & Hh). exists (rev pre).
  set (t := drop_blank (rev (c :: s))) in *.
  assert (c :: s = rev t ++ rev pre) as E' by (by rewrite <- rev_app_distr, <- E, rev_involutive).
  split_and!; [done | by apply Forall_rev |]. split.
  - intros d Hd. destruct (rev t) as [|e u] eqn:Et; [done|]. simpl in *. apply H1. congruence.
  - intros d Hd. apply Hh. rewrite <- (rev_involutive t). destruct (rev t) as [|u e] eqn:Et using rev_ind; [done|].
    rewrite last_snoc in Hd. by rewrite rev_app_distr.
Qed.

Lemma string_strip_back s :
  (forall c, last s = Some c -> is_blank c = false) ->
  exists pre, s = pre ++ string_strip s /\ Forall (fun c => is_blank c = true) pre /\ tight (string_strip s).
Proof.
  intros H1. unfold string_strip. destruct (drop_blank_spec s) as (pre & E & Hp & Hh).
  destruct (drop_blank s) as [|c t] eqn:Ed.
  - exists []. split_and!; [done | constructor |]. rewrite app_nil_r in E. subst pre. split; [|done].
    destruct s as [|c s] using rev_ind; [done|]. specialize (H1 c (last_snoc _ _)). apply Forall_app in Hp as [_ Hp].
    inversion_clear Hp. congruence.
  - assert (forall d, last (c :: t) = Some d -> is_blank d = false) as Hl.
    { intros d Hd. apply H1. rewrite E, last_app, Hd. done. }
    exists pre. rewrite drop_blank_tight, rev_involutive; [done|].
    intros d Hd. apply Hl. rewrite <- (rev_involutive (c :: t)). destruct (rev (c :: t)); simpl in *; [done|]. by rewrite last_snoc.
Qed.

(** Any string strips to a tight one, but for a string of blanks. *)
Lemma string_strip_cases s :
  (Forall (fun c => is_blank c = true) s /\ string_strip s = s) \/
  (tight (string_strip s) /\ exists pre post, s = pre ++ string_strip s ++ post).
Proof.
  destruct (drop_blank_spec s) as (pre & E & Hp & Hh). destruct (drop_blank s) as [|c t] eqn:Ed.
  - left. rewrite app_nil_r in E. unfold string_strip. rewrite Ed. by rewrite E.
  - right. destruct (string_strip_front (c :: t) Hh) as (post & E2 & _ & Ht).
    assert (string_strip s = string_strip (c :: t)) as ->.
    { unfold string_strip. by rewrite Ed, (drop_blank_tight (c :: t)). }
    split; [done|]. exists pre, post. rewrite E at 1. by f_equal.
Qed.

(** ** Capitals *)

Lemma toupper_idem c : toupper (toupper c) = toupper c.
Proof. destruct c as [[] [] [] [] [] [] [] []]; reflexivity. Qed.

Lemma string_toUpper_idem s : string_toUpper (string_toUpper s) = string_toUpper s.
Proof. unfold string_toUpper. rewrite map_map. apply map_ext, toupper_idem. Qed.

Lemma is_blank_toupper c : is_blank (toupper c) = is_blank c.
Proof. destruct c as [[] [] [] [] [] [] [] []]; reflexivity. Qed.

(** The characters that matter in a line are not letters. *)
Lemma toupper_fixed c d : d ∈ ["#"; "["; "]"; "="; "010"; NUL]%char -> toupper c = d -> c = d.
Proof.
  intros Hd. rewrite !elem_of_cons in Hd. destruct_or? Hd; try (by apply elem_of_nil in Hd); subst d;
    destruct c as [[] [] [] [] [] [] [] []]; by intros [=].
Qed.

Ltac upper_char E := apply toupper_fixed in E; [|rewrite !elem_of_cons; tauto].

(** ** Entries of a dictionary *)

(** What [setString] leaves of a line: it can be printed as a line that reads
    as the same key and value. *)
Record entry_ok (p : str * str) : Prop := {
  entry_key : "="%char ∉ p.1;
  entry_upper : string_toUpper p.1 = p.1;
  entry_tight_key : tight p.1;
  entry_tight_value : tight p.2;
  entry_chars : Forall (fun c => c <> "010"%char /\ c <> NUL) (p.1 ++ p.2);
  entry_length : (length p.1 + length p.2 <= 1022)%nat;
  entry_numeric : p.1 ∈ numericKeys -> all_digits p.2 = true;
  entry_comment : head p.1 <> Some "#"%char;
  entry_section : ~ (head p.1 = Some "["%char /\ last p.2 = Some "]"%char)
}.

Definition dict_ok (d : Dictionary) : Prop := tm_ordered id (m_data d) /\ Forall entry_ok (m_data d).

Lemma dict_ok_new name : dict_ok (new_Dictionary name).
Proof. by split. Qed.

Lemma dict_ok_set d k v : dict_ok d -> entry_ok (k, v) -> dict_ok (set_data d k v).
Proof.
  intros [H1 H2] H. split; [by apply tm_ordered_set|]. apply Forall_forall. intros [k' v'] Hp.
  apply tm_set_in in Hp as [Hp|[E1 E2]]; [rewrite Forall_forall in H2; by apply H2|]. simpl in *. unfold id in E1. by subst.
Qed.

Lemma entry_of d k v : dict_ok d -> tm_find id k (m_data d) = Some v -> entry_ok (k, v).
Proof.
  intros [_ H] (k' & E & Hin)%tm_find_Some. unfold id in E. subst k'. rewrite Forall_forall in H. by apply H.
Qed.

Lemma setString_entry d k v : entry_ok (k, v) -> setString d k v = Ok (set_data d k v).
Proof.
  intros [_ Hu Hk Hv _ _ Hn _ _]. unfold setString. simpl in *. rewrite Hu, !string_strip_tight by done.
  case_bool_decide; [|done]. by rewrite Hn.
Qed.

(** Merging keeps what is there and adds what is not. *)
Lemma merge_data_find l d k :
  tm_ordered id (m_data d) ->
  tm_ordered id (m_data (fold_left merge_one l d)) /\
  tm_find id k (m_data (fold_left merge_one l d)) =
    match tm_find id k (m_data d) with Some v => Some v | None => tm_find id k l end.
Proof.
  revert d. induction l as [|[k' v'] l IH]; intros d Hd; simpl; [split; [done|]; by destruct (tm_find id k (m_data d))|].
  unfold merge_one at 2 4. simpl. destruct (tm_find id k' (m_data d)) as [v|] eqn:E.
  - destruct (IH d Hd) as [H1 H2]. split; [done|]. rewrite H2. destruct (tm_find id k (m_data d)) eqn:E'; [done|].
    rewrite bool_decide_eq_false_2; [done|]. unfold id. intros ->. congruence.
  - destruct (IH (set_data d k' v')) as [H1 H2]; [by apply tm_ordered_set|]. split; [done|]. rewrite H2. simpl.
    case_bool_decide as Hk.
    + unfold id in Hk. subst k'. by rewrite tm_find_set, E.
    + by rewrite tm_find_set_ne.
Qed.

Lemma merge_find d t k :
  tm_ordered id (m_data d) ->
  tm_find id k (m_data (merge d t)) = match tm_find id k (m_data d) with Some v => Some v | None => tm_find id k (m_data t) end.
Proof. intros H. by apply merge_data_find. Qed.

Lemma merge_ordered d t : tm_ordered id (m_data d) -> tm_ordered id (m_data (merge d t)).
Proof. intros H. apply (merge_data_find (m_data t) d [] H). Qed.

Lemma merge_name d t : m_name (merge d t) = m_name d.
Proof.
  unfold merge. revert d. induction (m_data t) as [|p l IH]; intros d; [done|]. simpl. rewrite IH. unfold merge_one.
  by destruct (tm_find id p.1 (m_data d)).
Qed.

Lemma merge_ok d t : dict_ok d -> dict_ok t -> dict_ok (merge d t).
Proof.
  intros Hd [_ Ht]. unfold merge. revert d Hd. induction Ht as [|[k v] l Hp Hl IH]; intros d Hd; [done|]. simpl. apply IH.
  unfold merge_one. destruct (tm_find id _ _); [done|]. by apply dict_ok_set.
Qed.

Lemma dict_eq d1 d2 :
  tm_ordered id (m_data d1) -> tm_ordered id (m_data d2) -> m_name d1 = m_name d2 ->
  (forall k, tm_find id k (m_data d1) = tm_find id k (m_data d2)) -> d1 = d2.
Proof. destruct d1, d2. simpl. intros H1 H2 -> E. f_equal. by apply tm_ext. Qed.

(** Setting a key to what it is changes nothing. *)
Lemma set_data_same d k v : dict_ok d -> tm_find id k (m_data d) = Some v -> set_data d k v = d.
Proof.
  intros [Hd _] E. apply dict_eq; simpl; auto. intros k'. destruct (decide (k' = k)) as [->|Hne].
  - by rewrite tm_find_set.
  - by rewrite tm_find_set_ne.
Qed.

(** Merging defaults that are there changes nothing. *)
Lemma merge_same d t :
  dict_ok d -> (forall k, tm_find id k (m_data t) <> None -> tm_find id k (m_data d) <> None) -> merge d t = d.
Proof.
  intros [Hd _] H. apply dict_eq; [by apply merge_ordered | done | apply merge_name |]. intros k.
  rewrite merge_find by done. specialize (H k). destruct (tm_find id k (m_data d)); [done|].
  destruct (tm_find id k (m_data t)); [|done]. by destruct H.
Qed.

(** ** Reading a line *)

Lemma find_equals (k v : str) : "="%char ∉ k -> find (lit "=") (k ++ "="%char :: v) = Some (length k).
Proof. apply find_char. Qed.

Lemma c_str_sub s : exists post, s = c_str s ++ post /\ NUL ∉ c_str s.
Proof.
  induction s as [|c s (post & E & H)]; simpl; [exists []; split; [done | apply not_elem_of_nil]|].
  case_bool_decide as Hc; [exists (c :: s); split; [done | apply not_elem_of_nil]|].
  exists post. split; [simpl; by f_equal|]. by apply not_elem_of_cons.
Qed.

Lemma isSection_iff c l : isSection (c :: l) = true <-> c = "["%char /\ last (c :: l) = Some "]"%char.
Proof. unfold isSection. by rewrite andb_true_iff, !bool_decide_eq_true. Qed.

(** A key and a value, around the first equals sign of a stripped line. *)
Lemma splitKeyValue_ok line key value d d' :
  tight line -> isComment line = false -> isSection line = false -> "="%char ∈ line ->
  Forall (fun c => c <> "010"%char /\ c <> NUL) line -> (length line <= 1023)%nat ->
  splitKeyValue line = (key, value) -> setString d key value = Ok d' ->
  exists k v, d' = set_data d k v /\ entry_ok (k, v).
Proof.
  intros [Hh Hl] Hcom Hsec Heq Hch Hlen E Hset. unfold splitKeyValue in E.
  apply list_elem_of_split_l in Heq as (k0 & v0 & -> & Hk0).
  rewrite find_equals in E by done. injection E as <- <-. unfold substr in Hset. rewrite drop_0, take_app_length in Hset.
  assert (drop (length k0 + 1) (k0 ++ "="%char :: v0) = v0) as Hd.
  { rewrite (app_assoc k0 ["="%char] v0 : k0 ++ "="%char :: v0 = _). apply drop_app_length'. by rewrite length_app. }
  rewrite Hd in Hset. unfold setString in Hset. set (k := string_strip (string_toUpper k0)) in *. set (v := string_strip v0) in *.
  exists k, v.
  destruct (string_strip_front (string_toUpper k0)) as (kpost & Ek & _ & Hkt).
  { intros c. destruct k0 as [|c0 k0]; [done|]. intros [= <-]. rewrite is_blank_toupper. by apply Hh. }
  destruct (string_strip_back v0) as (vpre & Ev & _ & Hvt).
  { intros c Hc. apply Hl. by rewrite last_app, last_cons, Hc. }
  fold k in Ek, Hkt. fold v in Ev, Hvt.
  assert (forall c, c ∈ k -> exists c0, c0 ∈ k0 /\ c = toupper c0) as Hin.
  { intros c Hc. assert (c ∈ string_toUpper k0) as Hu by (rewrite Ek; apply elem_of_app; by left).
    apply list_elem_of_In, in_map_iff in Hu as (c0 & <- & H0). exists c0. split; [by apply list_elem_of_In | done]. }
  assert (forall c, head k = Some c -> exists c0, head k0 = Some c0 /\ c = toupper c0) as Hhead.
  { intros c Hc. destruct k0 as [|c0 k0']; simpl in *; [by destruct k|]. exists c0. split; [done|].
    destruct k; simpl in *; congruence. }
  destruct (bool_decide (k ∈ numericKeys) && negb (all_digits v)) eqn:En; [done|]. injection Hset as <-. split; [done|].
  rewrite Forall_app, Forall_cons in Hch. destruct Hch as (Hc1 & _ & Hc2). rewrite Forall_forall in Hc1, Hc2.
  constructor; simpl.
  - intros (c0 & Hc & E)%Hin. symmetry in E. upper_char E. by subst c0.
  - assert (string_toUpper (string_toUpper k0) = string_toUpper k0) as Hu by apply string_toUpper_idem.
    rewrite Ek in Hu. unfold string_toUpper in Hu at 1. rewrite map_app in Hu. apply app_inj_1 in Hu; [tauto | apply length_map].
  - done.
  - done.
  - apply Forall_app. split; apply Forall_forall; intros c Hc.
    + apply Hin in Hc as (c0 & Hc & ->). destruct (Hc1 _ Hc).
      split; intros E; by upper_char E.
    + apply Hc2. rewrite Ev. apply elem_of_app. by right.
  - apply (f_equal length) in Ek, Ev. rewrite length_app in Ek, Ev, Hlen. unfold string_toUpper in Ek. rewrite length_map in Ek. simpl in Hlen. lia.
  - intros Hk. rewrite (bool_decide_eq_true_2 _ Hk) in En. by destruct (all_digits v).
  - intros (c0 & Hc & E)%Hhead. symmetry in E. upper_char E. subst c0.
    destruct k0; simpl in *; [done|]. injection Hc as ->. done.
  - intros [(c0 & Hc & E)%Hhead Hv]. symmetry in E. upper_char E. subst c0.
    destruct k0 as [|c k0']; [done|]. injection Hc as ->. change (isSection ("["%char :: (k0' ++ "="%char :: v0)) = false) in Hsec.
    assert (isSection ("["%char :: (k0' ++ "="%char :: v0)) = true) as C; [|congruence]. apply isSection_iff. split; [done|].
    rewrite app_comm_cons, last_app, last_cons, Ev, last_app, Hv. done.
Qed.

(** The lines of a stream have no line feed and fit the buffer. *)
Definition line_ok (l : str) : Prop := "010"%char ∉ l /\ (length l <= 1023)%nat.

Lemma getlines_ok room acc s :
  "010"%char ∉ acc -> (length acc + room = 1023)%nat -> Forall line_ok (getlines room acc s).
Proof.
  assert (forall acc, "010"%char ∉ acc -> (length acc <= 1023)%nat -> line_ok (rev acc)) as R.
  { intros a Ha Hl. split; [by rewrite list_elem_of_In, <- in_rev, <- list_elem_of_In | by rewrite length_rev]. }
  revert room acc. induction s as [|c s IH]; intros room acc Ha Hl; simpl.
  - destruct acc; [constructor|]. constructor; [|constructor]. apply R; [done | lia].
  - case_bool_decide as Hc.
    + constructor; [apply R; [done | lia] | apply IH; [apply not_elem_of_nil | done]].
    + destruct room as [|room]; [constructor|]. apply IH; [by apply not_elem_of_cons | simpl; lia].
Qed.

(** Whole lines that fit are read one by one. *)
Lemma getlines_line room acc l s :
  "010"%char ∉ l -> (length l <= room)%nat ->
  getlines room acc (l ++ endl ++ s) = (rev acc ++ l) :: getlines 1023 [] s.
Proof.
  revert room acc. induction l as [|c l IH]; intros room acc Hn Hl; simpl; [by rewrite app_nil_r|].
  apply not_elem_of_cons in Hn as [Hne Hn]. rewrite bool_decide_eq_false_2 by done.
  simpl in Hl. destruct room as [|room]; [lia|]. simpl in IH. rewrite IH by (done || lia). simpl. by rewrite <- app_assoc.
Qed.

Lemma getlines_lines ls : Forall line_ok ls -> getlines 1023 [] (concat (map (fun l => l ++ endl) ls)) = ls.
Proof.
  induction 1 as [|l ls [H1 H2] _ IH]; [done|]. simpl map. simpl concat. rewrite <- app_assoc, getlines_line by done.
  by rewrite IH.
Qed.

(** ** Reading sections *)

(** Blanks at the ends of a line hold no equals sign. *)
Lemma blank_line s : Forall (fun c => is_blank c = true) s -> isKeyValue s = false /\ isComment s = false /\ isSection s = false.
Proof.
  intros H. rewrite Forall_forall in H. split_and!.
  - apply bool_decide_eq_false. by intros ?%H.
  - destruct s as [|c s]; [done|]. apply bool_decide_eq_false. intros ->. by specialize (H "#"%char ltac:(left)).
  - destruct s as [|c s]; [done|]. unfold isSection. apply andb_false_iff. left. apply bool_decide_eq_false. intros ->.
    by specialize (H "["%char ltac:(left)).
Qed.

Definition sections_ok (s : Sections) : Prop :=
  Forall dict_ok s.1 /\ forall i, s.2 = Some i -> (i < length s.1)%nat.

Lemma read_line_ok getenv s buffer s' :
  line_ok buffer -> sections_ok s -> read_line getenv false s buffer = Ok s' -> sections_ok s'.
Proof.
  intros [Hlf Hlen] [Hs Hi] E. destruct s as [sections section]. unfold read_line in E. cbv zeta in E. simpl in Hs, Hi.
  destruct (c_str_sub buffer) as (post & Eb & Hnul). set (l := c_str buffer) in *.
  destruct (isComment (string_strip l)) eqn:E1; [by injection E as <-|].
  destruct (isSection (string_strip l)) eqn:E2.
  { injection E as <-. split; simpl; [apply Forall_app; split; [done | constructor; [apply dict_ok_new | constructor]]|].
    intros i [= <-]. rewrite length_app. simpl. lia. }
  destruct (isKeyValue (string_strip l)) eqn:E3; [|by injection E as <-]. apply bool_decide_eq_true in E3.
  destruct section as [i|]; [|by injection E as <-]. specialize (Hi i eq_refl).
  destruct (lookup_lt_is_Some_2 sections i Hi) as [d Hd]. destruct (splitKeyValue (string_strip l)) as [key value] eqn:Ekv.
  rewrite Hd in E. simpl in E. destruct (setString d key value) as [d'|] eqn:Eset; [|done]. injection E as <-.
  assert (dict_ok d) as Hdok by (rewrite Forall_forall in Hs; apply Hs; by eapply list_elem_of_lookup_2).
  assert (tight (string_strip l) /\ exists pre post, l = pre ++ string_strip l ++ post) as [Ht (pre & post' & El)].
  { destruct (string_strip_cases l) as [[Hb Hb']|?]; [|done]. rewrite Hb' in E3. destruct (blank_line l Hb) as [C _].
    by apply bool_decide_eq_false in C. }
  assert (exists k v, d' = set_data d k v /\ entry_ok (k, v)) as (k & v & -> & Hkv).
  { eapply splitKeyValue_ok; try done.
    - apply Forall_forall. intros c Hc. assert (c ∈ l) by (rewrite El; set_solver).
      split; intros ->; [|done]. apply Hlf. rewrite Eb. set_solver.
    - apply (f_equal length) in Eb, El. rewrite !length_app in *. lia. }
  split; simpl; [|intros j [= <-]; by rewrite length_insert].
  apply Forall_insert; [done | by apply dict_ok_set].
Qed.

Lemma read_lines_ok getenv ls : forall s s',
  Forall line_ok ls -> sections_ok s -> read_lines getenv false s ls = Ok s' -> sections_ok s'.
Proof.
  induction ls as [|l ls IH]; intros s s' Hl Hs E; simpl in E; [by injection E as <-|].
  apply Forall_cons in Hl as [Hl Hls]. destruct (read_line getenv false s l) as [s1|] eqn:E1; [|done]. simpl in E.
  eapply (IH s1); [done | by eapply read_line_ok | done].
Qed.

Lemma read_Settings_ok getenv stream sections :
  read_Settings getenv false stream [] = Ok sections -> Forall dict_ok sections.
Proof.
  unfold read_Settings. destruct (read_lines getenv false ([], None) (getlines 1023 [] stream)) as [s|] eqn:E; [|done].
  intros [= <-]. eapply read_lines_ok in E as [H _]; [done | apply getlines_ok; [apply not_elem_of_nil | done]|].
  split; [constructor | done].
Qed.

(** ** Reading what was printed *)

Lemma read_default_line getenv secs cur :
  read_line getenv false (secs, cur) (lit "[DEFAULT]") = Ok (secs ++ [new_Dictionary (lit "DEFAULT")], Some (length secs)).
Proof. reflexivity. Qed.

Lemma read_session_line getenv secs cur :
  read_line getenv false (secs, cur) (lit "[SESSION]") = Ok (secs ++ [new_Dictionary (lit "SESSION")], Some (length secs)).
Proof. reflexivity. Qed.

Definition entry_line (p : str * str) : str := p.1 ++ lit "=" ++ p.2.

Lemma entry_line_ok p : entry_ok p -> line_ok (entry_line p).
Proof.
  intros [_ _ _ _ Hc Hl _ _ _]. unfold entry_line. split.
  - rewrite Forall_forall in Hc. intros Hin. rewrite !elem_of_app in Hin. destruct Hin as [Hin|[Hin|Hin]].
    + by destruct (Hc "010"%char ltac:(apply elem_of_app; by left)).
    + by apply list_elem_of_singleton in Hin.
    + by destruct (Hc "010"%char ltac:(apply elem_of_app; by right)).
  - rewrite !length_app. simpl. lia.
Qed.

Lemma read_entry_line getenv secs d p :
  entry_ok p ->
  read_line getenv false (secs ++ [d], Some (length secs)) (entry_line p) =
  Ok (secs ++ [set_data d p.1 p.2], Some (length secs)).
Proof.
  intros Hp. destruct p as [k v]. pose proof Hp as [Hk _ Htk Htv Hc _ _ Hcom Hsec]. unfold entry_line. cbn [fst snd] in *. change (lit "=" ++ v) with ("="%char :: v).
  assert (tight (k ++ "="%char :: v)) as Ht.
  { split; intros c.
    - destruct k as [|c0 k]; [by intros [= <-]|]. intros [= <-]. by apply (proj1 Htk).
    - rewrite last_app, last_cons. destruct (last v) eqn:E; intros H; injection H as <-; [by apply (proj2 Htv) | done]. }
  rewrite Forall_app, !Forall_forall in Hc. destruct Hc as [Hck Hcv]. unfold read_line. rewrite c_str_no_null, string_strip_tight; [|done|].
  2: { rewrite elem_of_app, elem_of_cons. intros [H|[?|H]]; [by apply Hck in H as []| done | by apply Hcv in H as []]. }
  assert (isComment (k ++ "="%char :: v) = false) as ->.
  { destruct k as [|c k]; [done|]. apply bool_decide_eq_false. simpl in Hcom. congruence. }
  assert (isSection (k ++ "="%char :: v) = false) as ->.
  { destruct k as [|c k]; [done|]. apply not_true_is_false. intros [-> H]%isSection_iff. apply Hsec. split; [done|].
    rewrite app_comm_cons, last_app, last_cons in H. destruct (last v); simpl in *; congruence. }
  assert (isKeyValue (k ++ "="%char :: v) = true) as -> by (apply bool_decide_eq_true; set_solver).
  assert (splitKeyValue (k ++ "="%char :: v) = (k, v)) as ->.
  { unfold splitKeyValue. rewrite find_equals by done. unfold substr. rewrite drop_0, take_app_length. f_equal.
    rewrite (app_assoc k ["="%char] v : k ++ "="%char :: v = _). apply drop_app_length'. by rewrite length_app. }
  rewrite lookup_app_r, Nat.sub_diag by done. simpl. rewrite setString_entry by done. simpl.
  rewrite insert_app_r_alt, Nat.sub_diag by done. done.
Qed.

Lemma read_lines_app getenv s l1 l2 :
  read_lines getenv false s (l1 ++ l2) = s ← read_lines getenv false s l1; read_lines getenv false s l2.
Proof.
  revert s. induction l1 as [|l l1 IH]; intros s; [done|]. simpl. destruct (read_line getenv false s l); simpl; [apply IH | done].
Qed.

(** The lines of a section's entries, and the empty line after them. *)
Lemma read_entries getenv secs d l :
  Forall entry_ok l ->
  read_lines getenv false (secs ++ [d], Some (length secs)) (map entry_line l ++ [[]]) =
  Ok (secs ++ [mkDictionary (fold_left (fun acc p => tm_set id p.1 p.2 acc) l (m_data d)) (m_name d)], Some (length secs)).
Proof.
  intros H. revert d. induction H as [|p l Hp Hl IH]; intros d; [by destruct d|]. cbn [map app read_lines].
  rewrite read_entry_line by done. cbn [mbind result_bind]. by rewrite IH.
Qed.

(** ** The settings of the sessions *)

(** The settings of one session are complete: they hold every default, name the
    session and are valid. *)
Record session_ok (defaults : Dictionary) (p : SessionID * Dictionary) : Prop := {
  session_dict : dict_ok p.2;
  session_name : m_name p.2 = lit "SESSION";
  session_id : read_SessionID p.2 = Ok p.1;
  session_valid : validate_settings p.2 = Ok ();
  session_defaults : forall k, tm_find id k (m_data defaults) <> None -> tm_find id k (m_data p.2) <> None
}.

Record settings_ok (s : SessionSettings) : Prop := {
  settings_defaults : dict_ok (m_defaults s);
  settings_ordered : tm_ordered m_frozenString (m_settings s);
  settings_sessions : Forall (session_ok (m_defaults s)) (m_settings s)
}.

Lemma getString_find d key v : getString d key false = Ok v -> tm_find id (string_toUpper key) (m_data d) = Some v.
Proof. unfold getString. by destruct (tm_find id _ _); simpl; [intros [= ->]|]. Qed.

(** Setting a key to the value read under it changes nothing. *)
Lemma setString_same d key v :
  dict_ok d -> getString d key false = Ok v -> string_toUpper key = string_strip (string_toUpper key) -> setString d key v = Ok d.
Proof.
  intros Hd E%getString_find Hs. pose proof (entry_of _ _ _ Hd E) as He. rewrite <- (set_data_same _ _ _ Hd E) at 2.
  rewrite <- (setString_entry d (string_toUpper key) v He). unfold setString. by rewrite string_toUpper_idem.
Qed.

Lemma read_SessionID_parts d i :
  read_SessionID d = Ok i ->
  getString d BEGINSTRING false = Ok (m_beginString i) /\ getString d SENDERCOMPID false = Ok (m_senderCompID i) /\
  getString d TARGETCOMPID false = Ok (m_targetCompID i).
Proof.
  unfold read_SessionID. intros (b & Eb & (s & Es & (t & Et & (q & _ & [= <-])%result_bind_Ok)%result_bind_Ok)%result_bind_Ok)%result_bind_Ok.
  done.
Qed.

(** Settings that are complete are stored as they are. *)
Lemma set_session_complete s i d :
  dict_ok d -> read_SessionID d = Ok i ->
  (forall k, tm_find id k (m_data (m_defaults s)) <> None -> tm_find id k (m_data d) <> None) ->
  set_session s i d =
    (_ ← guard_or (negb (settings_has s i)) (ConfigError (lit "Duplicate Session " ++ sid_toString i));
     _ ← validate_settings d;
     Ok (mkSessionSettings (tm_set m_frozenString i d (m_settings s)) (m_defaults s) (m_resolveEnvVars s))).
Proof.
  intros Hd Hi Hdef. destruct (read_SessionID_parts _ _ Hi) as (Eb & Es & Et). unfold set_session.
  destruct (guard_or _ _); [|done]. cbn [mbind result_bind].
  rewrite (setString_same d BEGINSTRING) by (done || reflexivity). cbn [mbind result_bind].
  rewrite (setString_same d SENDERCOMPID) by (done || reflexivity). cbn [mbind result_bind].
  rewrite (setString_same d TARGETCOMPID) by (done || reflexivity). cbn [mbind result_bind].
  by rewrite (merge_same d (m_defaults s)).
Qed.

Lemma read_session_ok def s section s' :
  settings_ok s -> m_defaults s = def -> dict_ok section -> m_name section = lit "SESSION" ->
  read_session def s section = Ok s' -> settings_ok s' /\ m_defaults s' = def /\ m_resolveEnvVars s' = m_resolveEnvVars s.
Proof.
  intros [H1 H2 H3] <- Hsec Hname E. unfold read_session in E. cbv zeta in E. set (d := merge section (m_defaults s)) in *.
  apply result_bind_Ok in E as (i & Ei & E).
  assert (dict_ok d) as Hd by by apply merge_ok.
  assert (forall k, tm_find id k (m_data (m_defaults s)) <> None -> tm_find id k (m_data d) <> None) as Hdef.
  { intros k. subst d. rewrite merge_find by apply Hsec. by destruct (tm_find id k (m_data section)). }
  rewrite set_session_complete in E by done.
  apply result_bind_Ok in E as ([] & Eh & ([] & Ev & [= <-])%result_bind_Ok).
  split; [|done]. constructor; simpl; [done | by apply tm_ordered_set|].
  apply Forall_forall. intros [i' d'] Hin. rewrite Forall_forall in H3.
  apply guard_or_Ok, negb_true_iff in Eh. unfold settings_has, tm_has in Eh.
  destruct (tm_find m_frozenString i (m_settings s)) eqn:Ef; [done|].
  destruct (tm_set_new _ _ _ _ _ Ef Hin) as [?|[= -> ->]]; [by apply H3|]. constructor; simpl; try done.
  subst d. by rewrite merge_name.
Qed.

Lemma read_sessions_ok def sections : forall s s',
  settings_ok s -> m_defaults s = def -> Forall (fun d => dict_ok d /\ m_name d = lit "SESSION") sections ->
  read_sessions def s sections = Ok s' -> settings_ok s' /\ m_defaults s' = def /\ m_resolveEnvVars s' = m_resolveEnvVars s.
Proof.
  induction sections as [|d sections IH]; intros s s' Hs Hdef Hsec E; simpl in E; [by injection E as <-|].
  apply Forall_cons in Hsec as [[Hd Hn] Hsec]. destruct (read_session def s d) as [s1|] eqn:E1; [|done]. simpl in E.
  destruct (read_session_ok _ _ _ _ Hs Hdef Hd Hn E1) as (H1 & H2 & H3).
  destruct (IH s1 s' H1 H2 Hsec E) as (? & ? & H). by rewrite H, H3.
Qed.

Lemma settings_get_ok sections name :
  Forall dict_ok sections -> Forall (fun d => dict_ok d /\ m_name d = name) (settings_get sections name).
Proof.
  unfold settings_get. induction 1 as [|d l Hd _ IH]; simpl; [constructor|]. case_bool_decide; [by constructor | done].
Qed.

(** Whatever is read, without environment variables, is well-formed. *)
Lemma read_SessionSettings_ok getenv stream s :
  read_SessionSettings getenv stream (new_SessionSettings false) = Ok s -> settings_ok s /\ m_resolveEnvVars s = false.
Proof.
  unfold read_SessionSettings. simpl m_resolveEnvVars. destruct (read_Settings getenv false stream []) as [sections|] eqn:E; [|done].
  cbn [mbind result_bind]. intros Hr. pose proof (read_Settings_ok _ _ _ E) as Hok.
  set (def := match settings_get sections (lit "DEFAULT") with [] => _ | d :: _ => d end) in *.
  assert (dict_ok def) as Hdef.
  { subst def. pose proof (settings_get_ok sections (lit "DEFAULT") Hok) as H.
    destruct (settings_get sections (lit "DEFAULT")); [by split|]. by apply Forall_cons in H as [[H _] _]. }
  edestruct read_sessions_ok as (H1 & H2 & H3); [| |by apply settings_get_ok | exact Hr |]; [|done | by rewrite H3].
  by constructor.
Qed.

(** ** Printing and reading again *)

Lemma getSessions_ordered s : tm_ordered m_frozenString (m_settings s) -> getSessions s = map fst (m_settings s).
Proof.
  unfold getSessions. set (f := fun result p => _). intros H.
  assert (fold_left f (m_settings s) [] = map (fun p => (p.1, ())) (m_settings s)) as ->; [|by rewrite map_map].
  induction (m_settings s) as [|[i d] l IH] using rev_ind; [done|]. apply tm_ordered_app in H as (H1 & _ & H3).
  rewrite fold_left_app, IH, map_app by done. simpl. unfold f, tm_has. simpl.
  assert (Forall (fun p : SessionID * unit => str_ltb (m_frozenString p.1) (m_frozenString i) = true) (map (fun p : SessionID * Dictionary => (p.1, ())) l)) as Hl.
  { apply Forall_map. eapply Forall_impl; [exact H3|]. by intros ? [? _]%Forall_cons. }
  assert (tm_find m_frozenString i (map (fun p : SessionID * Dictionary => (p.1, ())) l) = None) as ->; [|by apply tm_set_last].
  clear -Hl. induction l as [|[j d'] l IH]; [done|]. apply Forall_cons in Hl as [H Hl]. simpl in *.
  rewrite bool_decide_eq_false_2; [by apply IH|]. intros E. by rewrite E, str_ltb_irrefl in H.
Qed.

(** The entries a session prints, and the lines of the settings. *)
Definition own_entries (defaults : Dictionary) (d : Dictionary) : list (str * str) :=
  List.filter (fun p => negb (is_default defaults p)) (m_data d).

Definition session_lines (defaults : Dictionary) (p : SessionID * Dictionary) : list str :=
  lit "[SESSION]" :: map entry_line (own_entries defaults p.2) ++ [[]].

Definition default_lines (defaults : Dictionary) : list str :=
  if (dict_size defaults =? 0)%nat then [] else lit "[DEFAULT]" :: map entry_line (m_data defaults) ++ [[]].

Definition settings_lines (s : SessionSettings) : list str :=
  default_lines (m_defaults s) ++ concat (map (session_lines (m_defaults s)) (m_settings s)).

Definition text_of (ls : list str) : str := concat (map (fun l => l ++ endl) ls).

Lemma text_of_app l1 l2 : text_of (l1 ++ l2) = text_of l1 ++ text_of l2.
Proof. unfold text_of. by rewrite map_app, concat_app. Qed.

Lemma text_of_entries l : text_of (map entry_line l ++ [[]]) = concat (map print_entry l) ++ endl.
Proof.
  rewrite text_of_app. f_equal. unfold text_of. rewrite map_map. f_equal. apply map_ext. intros p. unfold entry_line, print_entry.
  by rewrite <- !app_assoc.
Qed.

Lemma session_entry d k : session_ok d k -> (dict_size k.2 =? 0)%nat = false.
Proof.
  intros [_ _ H _ _]. destruct (read_SessionID_parts _ _ H) as (E%getString_find & _). unfold dict_size. by destruct (m_data k.2).
Qed.

Lemma print_lines s : settings_ok s -> print_SessionSettings s = text_of (settings_lines s).
Proof.
  intros [H1 H2 H3]. unfold print_SessionSettings, settings_lines. rewrite text_of_app, getSessions_ordered by done. f_equal.
  - unfold default_lines. destruct (_ =? 0)%nat; [done|]. symmetry. exact (f_equal (fun t => lit "[DEFAULT]" ++ endl ++ t) (text_of_entries _)).
  - rewrite map_map. assert (forall p, p ∈ m_settings s -> settings_of s p.1 = Ok p.2) as Hf.
    { intros [i d] Hp. unfold settings_of. by rewrite (tm_find_in _ i d). }
    induction (m_settings s) as [|p l IH]; [done|]. apply Forall_cons in H3 as [Hp H3]. destruct p as [i d]. destruct H2 as [_ H2].
    cbn [map concat]. rewrite text_of_app, (Hf (i, d)) by left. f_equal; [|apply IH; auto; intros q Hq; apply Hf; by right].
    unfold print_session. rewrite (session_entry _ (i, d) Hp). symmetry.
    exact (f_equal (fun t => lit "[SESSION]" ++ endl ++ t) (text_of_entries _)).
Qed.

Lemma settings_lines_ok s : settings_ok s -> Forall line_ok (settings_lines s).
Proof.
  intros [[_ H1] _ H3]. assert (forall l, Forall entry_ok l -> Forall line_ok (map entry_line l ++ [[]])) as He.
  { intros l Hl. apply Forall_app. split; [apply Forall_map; eapply Forall_impl; [exact Hl | apply entry_line_ok]|].
    constructor; [|constructor]. split; [apply not_elem_of_nil | simpl; lia]. }
  apply Forall_app. split.
  - unfold default_lines. destruct (_ =? 0)%nat; [constructor|]. constructor; [|by apply He].
    by split; [apply (bool_decide_unpack _); vm_compute | simpl; lia].
  - induction H3 as [|[i d] l Hp _ IH]; [constructor|]. simpl. constructor; [by split; [apply (bool_decide_unpack _); vm_compute | simpl; lia]|].
    rewrite Forall_app. split; [|done]. apply He. destruct Hp as [[_ Hp] _ _ _ _]. simpl in *.
    rewrite Forall_forall in Hp |- *. intros q Hq. apply Hp. unfold own_entries in Hq.
    apply list_elem_of_In in Hq. apply filter_In in Hq as [Hq _]. by apply list_elem_of_In.
Qed.

(** The section a session is read back from. *)
Definition own_section (defaults : Dictionary) (p : SessionID * Dictionary) : Dictionary :=
  mkDictionary (own_entries defaults p.2) (lit "SESSION").

Lemma own_entries_ok defaults d :
  dict_ok d -> tm_ordered id (own_entries defaults d) /\ Forall entry_ok (own_entries defaults d).
Proof.
  intros [H1 H2]. split; [by apply tm_ordered_filter|]. rewrite Forall_forall in H2 |- *. intros q Hq. apply H2.
  apply list_elem_of_In in Hq. apply filter_In in Hq as [Hq _]. by apply list_elem_of_In.
Qed.

Lemma read_settings_lines getenv s :
  settings_ok s ->
  exists cur, read_lines getenv false ([], None) (settings_lines s) =
    Ok ((if (dict_size (m_defaults s) =? 0)%nat then [] else [mkDictionary (m_data (m_defaults s)) (lit "DEFAULT")]) ++
        map (own_section (m_defaults s)) (m_settings s), cur).
Proof.
  intros [[H1 H1'] H2 H3]. unfold settings_lines. rewrite read_lines_app.
  set (secs := if (dict_size (m_defaults s) =? 0)%nat then [] else _).
  assert (exists cur, read_lines getenv false ([], None) (default_lines (m_defaults s)) = Ok (secs, cur)) as (cur & ->).
  { unfold default_lines. subst secs. destruct (dict_size (m_defaults s) =? 0)%nat; [by eexists|]. exists (Some 0%nat).
    cbn [read_lines]. rewrite read_default_line. cbn [mbind result_bind].
    rewrite read_entries by done. simpl. by rewrite tm_set_all. }
  cbn [mbind result_bind]. clearbody secs. clear H1 H1' H2. generalize (m_defaults s) H3. clear H3. intros defaults H3. revert secs cur.
  induction H3 as [|p l Hp _ IH]; intros secs cur; [exists cur; simpl; by rewrite app_nil_r|].
  cbn [map concat]. rewrite read_lines_app. unfold session_lines at 2. cbn [read_lines]. rewrite read_session_line. cbn [mbind result_bind].
  destruct (own_entries_ok defaults p.2) as [Ho He]; [by destruct Hp|].
  rewrite read_entries by done. cbn [mbind result_bind m_data m_name new_Dictionary]. rewrite tm_set_all by done.
  destruct (IH (secs ++ [own_section defaults p]) (Some (length secs))) as (cur' & E). exists cur'.
  fold (own_section defaults p). rewrite E. by rewrite <- app_assoc.
Qed.

(** A section without what the defaults say, merged with them, is the whole. *)
Lemma merge_own_section def defaults p :
  session_ok defaults p -> m_data def = m_data defaults -> merge (own_section defaults p) def = p.2.
Proof.
  intros [[Ho He] Hn _ _ Hd] Edef. apply dict_eq; [apply merge_ordered; by apply tm_ordered_filter | done | by rewrite merge_name|].
  intros k. rewrite merge_find by by apply tm_ordered_filter. cbn [own_section m_data]. unfold own_entries.
  rewrite tm_find_filter by (done || by intros). rewrite Edef. specialize (Hd k).
  destruct (tm_find id k (m_data p.2)) as [v|] eqn:E; [|by destruct (tm_find id k (m_data defaults)); [destruct Hd|]].
  assert (string_toUpper k = k) as Hk by apply (entry_upper _ (entry_of _ _ _ (conj Ho He) E)).
  unfold is_default, dict_has, tm_has, getString. cbn [fst snd]. rewrite Hk.
  destruct (tm_find id k (m_data defaults)) as [v'|]; [|done]. simpl. by case_bool_decide; simpl; subst.
Qed.

Lemma read_own_sections def defaults l : forall s,
  m_data def = m_data defaults -> m_data (m_defaults s) = m_data defaults ->
  tm_ordered m_frozenString (m_settings s ++ l) -> Forall (session_ok defaults) l ->
  read_sessions def s (map (own_section defaults) l) =
    Ok (mkSessionSettings (m_settings s ++ l) (m_defaults s) (m_resolveEnvVars s)).
Proof.
  induction l as [|[i d] l IH]; intros s E1 E2 Ho Hl; [simpl; rewrite app_nil_r; by destruct s|].
  apply Forall_cons in Hl as [Hp Hl]. cbn [map read_sessions]. unfold read_session. rewrite (merge_own_section def) by done.
  pose proof Hp as [Hd _ Hi Hv Hdef]. cbn [snd fst] in *. rewrite Hi. cbn [mbind result_bind]. rewrite set_session_complete; [|done..|by rewrite E2].
  apply tm_ordered_app in Ho as Ho'. destruct Ho' as (_ & _ & Hlast).
  assert (Forall (fun p : SessionID * Dictionary => str_ltb (m_frozenString p.1) (m_frozenString i) = true) (m_settings s)) as Hs.
  { eapply Forall_impl; [exact Hlast|]. by intros ? [? _]%Forall_cons. }
  assert (settings_has s i = false) as Hh.
  { unfold settings_has, tm_has. clear -Hs. induction Hs as [|[j d'] l H Hl IH]; [done|]. simpl in *.
    rewrite bool_decide_eq_false_2; [done|]. intros E. by rewrite E, str_ltb_irrefl in H. }
  rewrite Hh. cbn [negb guard_or mbind result_bind]. rewrite Hv. cbn [mbind result_bind]. rewrite tm_set_last by done.
  rewrite IH; cbn [m_settings m_defaults m_resolveEnvVars]; rewrite <- ?app_assoc; done.
Qed.

Lemma settings_get_own defaults l name :
  settings_get (map (own_section defaults) l) name = if bool_decide (lit "SESSION" = name) then map (own_section defaults) l else [].
Proof.
  unfold settings_get. induction l as [|p l IH]; [by case_bool_decide|]. cbn [map List.filter]. rewrite IH. cbn [own_section m_name].
  by destruct (bool_decide (lit "SESSION" = name)).
Qed.

(** C32 Printing the settings that were read from a configuration, and reading
    what was printed, gives the same settings: the same sessions in the same
    order, each with the same values, those it has from the defaults included,
    although a value equal to its default is not printed. *)
Theorem settings_print_read getenv stream s :
  read_SessionSettings getenv stream (new_SessionSettings false) = Ok s ->
  exists s', read_SessionSettings getenv (print_SessionSettings s) (new_SessionSettings false) = Ok s' /\
    m_settings s' = m_settings s /\ m_data (m_defaults s') = m_data (m_defaults s).
Proof.
  intros [Hs _]%read_SessionSettings_ok. unfold read_SessionSettings. cbn [m_resolveEnvVars new_SessionSettings]. unfold read_Settings.
  rewrite print_lines by done. unfold text_of. rewrite getlines_lines by by apply settings_lines_ok.
  destruct (read_settings_lines getenv s Hs) as (cur & ->). cbn [fmap result_fmap mbind result_bind fst].
  set (def := match settings_get _ (lit "DEFAULT") with [] => _ | d :: _ => d end).
  set (sections := settings_get _ (lit "SESSION")).
  assert (m_data def = m_data (m_defaults s)) as Edef.
  { subst def. unfold dict_size. destruct (length (m_data (m_defaults s)) =? 0)%nat eqn:E; [|done]. cbn [app]. rewrite settings_get_own. simpl.
    apply Nat.eqb_eq, length_zero_iff_nil in E. by rewrite E. }
  assert (sections = map (own_section (m_defaults s)) (m_settings s)) as ->.
  { subst sections. destruct (dict_size (m_defaults s) =? 0)%nat; [exact (settings_get_own _ _ _) | exact (settings_get_own _ _ (lit "SESSION"))]. }
  destruct Hs as [H1 H2 H3]. rewrite (read_own_sections def (m_defaults s)); [|done..]. eexists. split; [done|]. by split.
Qed.

(** A configuration of two sessions that share a default. *)
Definition ex_settings : str :=
  text_of (map lit ["[DEFAULT]"; "ConnectionType = initiator"; "# every 30 seconds"; "HeartBtInt=30"; "";
                    "[SESSION]"; "BeginString=FIX.4.2"; "SenderCompID=ME"; "TargetCompID=YOU"; "HeartBtInt=10";
                    "[SESSION]"; "BeginString=FIX.4.4"; "SenderCompID=ME"; "TargetCompID=THEM"]%string).

Definition no_environment (name : str) : option str := None.

Definition ex_read : SessionSettings :=
  Eval vm_compute in match read_SessionSettings no_environment ex_settings (new_SessionSettings false) with
                     | Ok s => s | Throw _ => new_SessionSettings false end.

Lemma settings_print_read_witness :
  exists s', read_SessionSettings no_environment (print_SessionSettings ex_read) (new_SessionSettings false) = Ok s' /\
    m_settings s' = m_settings ex_read /\ m_data (m_defaults s') = m_data (m_defaults ex_read).
Proof. apply (settings_print_read no_environment ex_settings ex_read). vm_compute. reflexivity. Defined.

(** ** What each session gets *)

(** Every section of [sections] has become the settings of a session. *)
Definition sections_read (def : Dictionary) (s : SessionSettings) (sections : list Dictionary) : Prop :=
  Forall (fun section => exists i d, settings_of s i = Ok d /\ read_SessionID d = Ok i /\ validate_settings d = Ok () /\
    forall k, tm_find id k (m_data d) =
      match tm_find id k (m_data section) with Some v => Some v | None => tm_find id k (m_data def) end) sections.

Lemma tm_set_new_length {A} (i : SessionID) (d : A) m :
  tm_find m_frozenString i m = None -> length (tm_set m_frozenString i d m) = S (length m).
Proof.
  induction m as [|[j e] m IH]; simpl; [done|]. case_bool_decide; [done|]. intros E.
  destruct (str_ltb _ _); simpl; [done | by rewrite IH].
Qed.

Lemma sections_read_set def s i d sections :
  tm_find m_frozenString i (m_settings s) = None -> sections_read def s sections ->
  sections_read def (mkSessionSettings (tm_set m_frozenString i d (m_settings s)) (m_defaults s) (m_resolveEnvVars s)) sections.
Proof.
  intros Hf H. eapply Forall_impl; [exact H|]. intros section (j & e & Hj & Hr). exists j, e. split; [|done].
  unfold settings_of in *. cbn [m_settings] in *. destruct (decide (m_frozenString j = m_frozenString i)) as [Ej|Hne].
  - assert (tm_find m_frozenString j (m_settings s) = tm_find m_frozenString i (m_settings s)) as Eji; [|by rewrite Eji, Hf in Hj].
    clear -Ej. induction (m_settings s) as [|[j' e'] m IH]; [done|]. simpl. by rewrite Ej, IH.
  - by rewrite tm_find_set_ne.
Qed.

Lemma read_sessions_inherit def sections : forall s s' sofar,
  settings_ok s -> m_defaults s = def -> Forall (fun d => dict_ok d /\ m_name d = lit "SESSION") sections ->
  read_sessions def s sections = Ok s' -> sections_read def s sofar ->
  sections_read def s' (sofar ++ sections) /\ length (m_settings s') = (length (m_settings s) + length sections)%nat.
Proof.
  induction sections as [|d sections IH]; intros s s' sofar Hs Hdef Hsec E Hsofar; simpl in E.
  { injection E as <-. rewrite app_nil_r. by rewrite Nat.add_0_r. }
  apply Forall_cons in Hsec as [[Hd Hn] Hsec]. destruct (read_session def s d) as [s1|] eqn:E1; [|done]. simpl in E.
  destruct (read_session_ok _ _ _ _ Hs Hdef Hd Hn E1) as (H1 & H2 & _).
  unfold read_session in E1. cbv zeta in E1. apply result_bind_Ok in E1 as (i & Ei & E1).
  assert (dict_ok (merge d def)) as Hm by (subst def; apply merge_ok; [done | by destruct Hs]).
  rewrite set_session_complete in E1; [|done..|].
  2: { intros k. rewrite Hdef, merge_find by apply Hd. by destruct (tm_find id k (m_data d)). }
  apply result_bind_Ok in E1 as ([] & Eh & ([] & Ev & [= <-])%result_bind_Ok).
  apply guard_or_Ok, negb_true_iff in Eh. unfold settings_has, tm_has in Eh.
  destruct (tm_find m_frozenString i (m_settings s)) eqn:Ef; [done|].
  eapply (IH _ s' (sofar ++ [d])) in E as [H3 H4]; [|done..|].
  - rewrite <- app_assoc in H3. split; [done|]. rewrite H4. cbn [m_settings]. rewrite tm_set_new_length by done. simpl. lia.
  - apply Forall_app. split; [by apply sections_read_set|]. constructor; [|constructor].
    exists i, (merge d def). split_and!; [|done|done|].
    + unfold settings_of. cbn [m_settings]. rewrite tm_find_set; [done | by destruct Hs].
    + intros k. apply merge_find, Hd.
Qed.

(** Every SESSION section of a configuration that is read becomes the
    settings of one session, the one its identifier names: no two sections share
    one, each value is the section's own or else the default's, and BeginString
    and ConnectionType have legal values. *)
Theorem sections_inherit getenv stream s :
  read_SessionSettings getenv stream (new_SessionSettings false) = Ok s ->
  exists sections, read_Settings getenv false stream [] = Ok sections /\
    sections_read (m_defaults s) s (settings_get sections (lit "SESSION")) /\
    length (m_settings s) = length (settings_get sections (lit "SESSION")).
Proof.
  unfold read_SessionSettings. cbn [m_resolveEnvVars new_SessionSettings].
  destruct (read_Settings getenv false stream []) as [sections|] eqn:E; [|done]. cbn [mbind result_bind]. intros Hr.
  exists sections. split; [done|]. pose proof (read_Settings_ok _ _ _ E) as Hok.
  set (def := match settings_get sections (lit "DEFAULT") with [] => _ | d :: _ => d end) in *.
  assert (dict_ok def) as Hdef.
  { subst def. pose proof (settings_get_ok sections (lit "DEFAULT") Hok) as H.
    destruct (settings_get sections (lit "DEFAULT")); [by split|]. by apply Forall_cons in H as [[H _] _]. }
  pose proof (settings_get_ok sections (lit "SESSION") Hok) as Hsec.
  assert (settings_ok (set_defaults (new_SessionSettings false) def)) as Hs by by constructor.
  destruct (read_sessions_ok _ _ _ _ Hs eq_refl Hsec Hr) as (_ & -> & _).
  destruct (read_sessions_inherit _ _ _ _ [] Hs eq_refl Hsec Hr) as [H1 H2]; [constructor|]. by split.
Qed.

Lemma sections_inherit_witness :
  exists sections, read_Settings no_environment false ex_settings [] = Ok sections /\
    sections_read (m_defaults ex_read) ex_read (settings_get sections (lit "SESSION")) /\
    length (m_settings ex_read) = length (settings_get sections (lit "SESSION")).
Proof. apply (sections_inherit no_environment ex_settings ex_read). vm_compute. reflexivity. Defined.

(** ** Environment variables *)

(** The end of the name leaves less than the string it was found in. *)
Lemma after_name_length c s inBraces name e rest :
  scan_name c s = (name, e, rest) -> (length (after_name inBraces e rest) <= length s)%nat.
Proof.
  revert c name e rest. induction s as [|d s IH]; intros c name e rest; simpl; [by intros [= <- <- <-]|].
  destruct (ends_name d).
  - intros [= <- <- <-]. simpl. destruct (_ && _); simpl; lia.
  - destruct (scan_name d s) as [[name' e'] rest'] eqn:E. intros [= <- <- <-]. specialize (IH _ _ _ _ E). lia.
Qed.

(** The length of the string is fuel enough: more changes nothing. *)
Lemma resolve_loop_fuel getenv fuel1 : forall fuel2 s,
  (length s <= fuel1)%nat -> (length s <= fuel2)%nat -> resolve_loop getenv fuel1 s = resolve_loop getenv fuel2 s.
Proof.
  induction fuel1 as [|fuel1 IH]; intros [|fuel2] [|c [|d t]] H1 H2; simpl in H1, H2; try done; try lia.
  cbn [resolve_loop]. cbv zeta. destruct (bool_decide (c = _)); [f_equal; apply IH; lia|].
  destruct (bool_decide (c = _)); [|f_equal; apply IH; simpl; lia].
  assert (length (if bool_decide (d = "("%char) || bool_decide (d = "{"%char) then t else d :: t) <= S (length t))%nat as Hl
    by (destruct (_ || _); simpl; lia).
  destruct (if _ || _ then t else d :: t) as [|c' [|c'' rest]]; [done..|]. cbn [length] in Hl.
  destruct (scan_name c' (c'' :: rest)) as [[name e] r] eqn:E.
  pose proof (after_name_length _ _ (bool_decide (d = "("%char) || bool_decide (d = "{"%char)) _ _ _ E) as Hr. cbn [length] in Hr.
  f_equal. apply IH; lia.
Qed.

(** A value without dollar signs and backslashes is taken as it is. *)
Lemma resolveEnvVars_plain getenv s : "$"%char ∉ s -> "\"%char ∉ s -> resolveEnvVars getenv s = s.
Proof.
  unfold resolveEnvVars. induction s as [|c s IH]; [done|]. intros [H1 H1']%not_elem_of_cons [H2 H2']%not_elem_of_cons.
  cbn [length resolve_loop]. destruct s as [|d t]; [done|]. rewrite !bool_decide_eq_false_2 by congruence.
  cbv zeta. by rewrite IH.
Qed.

(** ** What goes wrong *)

(** A line the buffer has no room for ends the reading: the session after it is
    not there. *)
Lemma long_line_drops_rest :
  let long := text_of [lit "[DEFAULT]"; lit "ConnectionType=initiator"; lit "#" ++ replicate 1023 "x"%char] in
  let session := text_of (map lit ["[SESSION]"; "BeginString=FIX.4.2"; "SenderCompID=ME"; "TargetCompID=YOU"]%string) in
  m_settings <$> read_SessionSettings no_environment (long ++ session) (new_SessionSettings false) = Ok [].
Proof. vm_compute. reflexivity. Qed.

(** Two sessions told apart by their qualifier, set by a program, print the same
    text: [set] writes three parts of the identifier into the settings and not
    the qualifier. What was printed cannot be read again. *)
Lemma qualifier_not_printed :
  let d := mkDictionary [(lit "CONNECTIONTYPE", lit "initiator")] [] in
  let session q := new_SessionID (lit "FIX.4.2") (lit "ME") (lit "YOU") (lit q) in
  exists s, (s ← set_session (new_SessionSettings false) (session "A"%string) d; set_session s (session "B"%string) d) = Ok s /\
    read_SessionSettings no_environment (print_SessionSettings s) (new_SessionSettings false) =
      Throw (ConfigError (lit "Duplicate Session FIX.4.2:ME->YOU")).
Proof. eexists. split; [vm_compute; reflexivity|]. vm_compute. reflexivity. Qed.

(** A variable of one letter at the end of a value is dropped, not replaced. *)
Lemma last_letter_variable_dropped :
  let getenv name := if bool_decide (name = lit "A") then Some (lit "alpha") else None in
  resolveEnvVars getenv (lit "x$A/") = lit "xalpha/" /\ resolveEnvVars getenv (lit "x$A") = lit "x".
Proof. by split. Qed.
