(* ===== verification/SocketSettings.v ===== *)
(** * Settings of the transports ([src/C++/PortSetting.h], [HostDetailsProvider.h], [HostDetailsProvider.cpp])

    Ports, socket options, the CPUs of a thread, what the sessions on one port must
    agree on, and which of a session's hosts is tried next. *)
From S2P Require Import Prelude Convertors Values SessionID TextMap Settings.

Definition SOCKET_ACCEPT_PORT : str := lit "SocketAcceptPort".
Definition SOCKET_REUSE_ADDRESS : str := lit "SocketReuseAddress".
Definition SOCKET_CONNECT_HOST : str := lit "SocketConnectHost".
Definition SOCKET_CONNECT_PORT : str := lit "SocketConnectPort".
Definition SOCKET_CONNECT_SOURCE_HOST : str := lit "SocketConnectSourceHost".
Definition SOCKET_CONNECT_SOURCE_PORT : str := lit "SocketConnectSourcePort".
Definition SOCKET_NODELAY : str := lit "SocketNodelay".
Definition SOCKET_THREAD_AFFINITY : str := lit "SocketThreadAffinity".
Definition SOCKET_QUEUED_WRITES : str := lit "SocketQueuedWrites".
Definition SOCKET_BUSY_POLL : str := lit "SocketBusyPoll".
Definition SOCKET_SEND_BUFFER_SIZE : str := lit "SocketSendBufferSize".
Definition SOCKET_RECEIVE_BUFFER_SIZE : str := lit "SocketReceiveBufferSize".
Definition HOST_SELECTION_POLICY : str := lit "HostSelectionPolicy".
Definition START_OVER_INTERVAL : str := lit "HostSelectionPolicyPriorityStartOverInterval".
Definition RECONNECT_INTERVAL : str := lit "ReconnectInterval".
Definition MAX_PENDING_CONNECTIONS : str := lit "MaxPendingConnections".

(** ** Ports and options *)

Definition getPortSetting (settings : Dictionary) (key : str) (allowAny : bool) : result Z :=
  port ← getInt settings key;
  _ ← guard_or (negb ((port <? (if allowAny then 0 else 1)) || (65535 <? port)))
        (ConfigError (key ++ lit " must be " ++ lit (if allowAny then "0" else "1") ++ lit " to 65535, not " ++ to_string_int port));
  mret port.

Definition getSocketNoDelay (settings : Dictionary) : result bool :=
  if dict_has settings SOCKET_NODELAY then getBool settings SOCKET_NODELAY else mret true.
Definition getSocketBufferSize (settings : Dictionary) (key : str) : result Z :=
  if dict_has settings key then getInt settings key else mret 0.
Definition getSocketQueuedWrites (settings : Dictionary) : result bool :=
  if dict_has settings SOCKET_QUEUED_WRITES then getBool settings SOCKET_QUEUED_WRITES else mret false.
Definition getSocketBusyPoll (settings : Dictionary) : result bool :=
  if dict_has settings SOCKET_BUSY_POLL then getBool settings SOCKET_BUSY_POLL else mret false.

Definition checkBusyPollWithQueuedWrites (settings : Dictionary) (sessionID : SessionID) : result unit :=
  busyPoll ← getSocketBusyPoll settings;
  if busyPoll : bool then
    queuedWrites ← getSocketQueuedWrites settings;
    guard_or (negb queuedWrites)
      (ConfigError (SOCKET_BUSY_POLL ++ lit "=Y with " ++ SOCKET_QUEUED_WRITES ++ lit "=Y is not supported yet: " ++ sid_toString sessionID))
  else mret ().

(** Of each session, both keys. *)
Definition rejectSocketQueuedWrites (sessionSettings : SessionSettings) (transport : str) : result unit :=
  for_each (fun sessionID =>
      for_each (fun key =>
          settings ← settings_of sessionSettings sessionID;
          if dict_has settings key then
            b ← getBool settings key;
            guard_or (negb b) (ConfigError (key ++ lit "=Y is not supported by " ++ transport ++ lit ": " ++ sid_toString sessionID))
          else mret ())
        [SOCKET_QUEUED_WRITES; SOCKET_BUSY_POLL])
    (getSessions sessionSettings).

(** ** CPUs *)

Definition CPU_SETSIZE : Z := 1024.

Definition affinity_error (value : str) : exn :=
  ConfigError (SOCKET_THREAD_AFFINITY ++ lit " must list CPU numbers and ranges, such as 2,3 or 1,4-6, not " ++
               ["034"%char] ++ value ++ ["034"%char]).

(** The lambda [number]; [std::stoi] of at most five digits. *)
Definition affinity_number (value text : str) : result Z :=
  _ ← guard_or (negb (bool_decide (text = []) || negb (all_digits text) || (5 <? length text)%nat)) (affinity_error value);
  let cpu := dec text in
  _ ← guard_or (negb (CPU_SETSIZE <=? cpu)) (affinity_error value);
  mret cpu.

(** One item, a number or a range. *)
Definition affinity_item (value item : str) : result (list Z) :=
  match find (lit "-") item with
  | None => cpu ← affinity_number value item; mret [cpu]
  | Some dash =>
      first ← affinity_number value (take dash item);
      last ← affinity_number value (drop (dash + 1) item);
      _ ← guard_or (negb (last <? first)) (affinity_error value);
      mret (seqZ first (last - first + 1))
  end.

Fixpoint affinity_loop (fuel : nat) (value : str) (start : nat) (cpus : list Z) : result (list Z) :=
  match fuel with
  | O => Throw OutOfFuel
  | S fuel =>
      if (start <=? length value)%nat then
        match find_from (lit ",") value start with
        | None => more ← affinity_item value (drop start value); mret (cpus ++ more)
        | Some comma =>
            more ← affinity_item value (substr value start (comma - start));
            affinity_loop fuel value (comma + 1) (cpus ++ more)
        end
      else mret cpus
  end.

(** Every pass but the last passes a comma. *)
Definition getSocketThreadAffinity (settings : Dictionary) : result (list Z) :=
  if dict_has settings SOCKET_THREAD_AFFINITY then
    value ← getString settings SOCKET_THREAD_AFFINITY false;
    affinity_loop (length value + 2) value 0 []
  else mret [].

(** ** What the sessions on a port share *)

Record PortOptions := mkPortOptions {
  po_first : SessionID;
  po_noDelay : str;
  po_sendBufferSize : str;
  po_receiveBufferSize : str;
  po_queuedWrites : str;
  po_busyPoll : str
}.

Definition yes_no (b : bool) : str := lit (if b then "Y" else "N").

(** A session's port and options, read in the order of the code. *)
Definition port_options (sessionID : SessionID) (settings : Dictionary) : result (Z * PortOptions) :=
  port ← getPortSetting settings SOCKET_ACCEPT_PORT true;
  _ ← getSocketThreadAffinity settings;
  noDelay ← getSocketNoDelay settings;
  sendBufferSize ← getSocketBufferSize settings SOCKET_SEND_BUFFER_SIZE;
  receiveBufferSize ← getSocketBufferSize settings SOCKET_RECEIVE_BUFFER_SIZE;
  queuedWrites ← getSocketQueuedWrites settings;
  busyPoll ← getSocketBusyPoll settings;
  _ ← checkBusyPollWithQueuedWrites settings sessionID;
  mret (port, mkPortOptions sessionID (yes_no noDelay) (to_string_int sendBufferSize) (to_string_int receiveBufferSize)
                (yes_no queuedWrites) (yes_no busyPoll)).

(** The loop over the five options. *)
Definition compare_options (port : Z) (options first : PortOptions) : result unit :=
  for_each (fun '(key, mine, theirs) =>
      guard_or (bool_decide (mine = theirs))
        (ConfigError (key ++ lit " must be the same for every session on port " ++ to_string_int port ++ lit ": " ++
                      sid_toString (po_first first) ++ lit " has " ++ theirs ++ lit ", " ++ sid_toString (po_first options) ++
                      lit " has " ++ mine)))
    [(SOCKET_NODELAY, po_noDelay options, po_noDelay first);
     (SOCKET_SEND_BUFFER_SIZE, po_sendBufferSize options, po_sendBufferSize first);
     (SOCKET_RECEIVE_BUFFER_SIZE, po_receiveBufferSize options, po_receiveBufferSize first);
     (SOCKET_QUEUED_WRITES, po_queuedWrites options, po_queuedWrites first);
     (SOCKET_BUSY_POLL, po_busyPoll options, po_busyPoll first)].

Fixpoint check_sessions (sessionSettings : SessionSettings) (byPort : gmap Z PortOptions) (l : list SessionID) : result unit :=
  match l with
  | [] => Ok ()
  | sessionID :: l =>
      settings ← settings_of sessionSettings sessionID;
      '(port, options) ← port_options sessionID settings;
      match byPort !! port with
      | None => check_sessions sessionSettings (<[port := options]> byPort) l
      | Some first => _ ← compare_options port options first; check_sessions sessionSettings byPort l
      end
  end.

Definition checkSocketOptionsPerPort (sessionSettings : SessionSettings) : result unit :=
  check_sessions sessionSettings ∅ (getSessions sessionSettings).

(** ** Hosts *)

Record HostDetails := mkHostDetails { address : str; port : Z; sourceAddress : str; sourcePort : Z }.

Definition no_host : HostDetails := mkHostDetails [] 0 [] 0.

Definition numbered (n : Z) (key : str) : str := if 0 <? n then key ++ to_string_int n else key.

(** [populateHostDetails(n, d, out)]: [None] for false. *)
Definition populateHostDetails (n : Z) (d : Dictionary) : result (option HostDetails) :=
  let host := numbered n SOCKET_CONNECT_HOST in
  let port := numbered n SOCKET_CONNECT_PORT in
  let sourceHost := numbered n SOCKET_CONNECT_SOURCE_HOST in
  let sourcePort := numbered n SOCKET_CONNECT_SOURCE_PORT in
  if dict_has d host && dict_has d port then
    address ← getString d host false;
    port ← getPortSetting d port false;
    sourceAddress ← (if dict_has d sourceHost then getString d sourceHost false else mret []);
    sourcePort ← (if dict_has d sourcePort then getPortSetting d sourcePort true else mret 0);
    mret (Some (mkHostDetails address port sourceAddress sourcePort))
  else mret None.

(** [m_sessionToLastConnectionAttempt]: by session, the host's number and the time. *)
Abbreviation Attempts := (gmap str (Z * Z)).

(** The number to try now. *)
Definition next_host (now : Z) (d : Dictionary) (last : option (Z * Z)) : result Z :=
  hostSelectionPolicy ← (if dict_has d HOST_SELECTION_POLICY then getString d HOST_SELECTION_POLICY false else mret []);
  match last with
  | None => mret 0
  | Some (hostNumber, time) =>
      if bool_decide (hostSelectionPolicy = lit "PRIORITY") then
        startOverInterval ← (if dict_has d START_OVER_INTERVAL then getInt d START_OVER_INTERVAL else mret 120);
        mret (if startOverInterval <=? now - time then 0 else i32 (hostNumber + 1))
      else mret (i32 (hostNumber + 1))
  end.

(** [getHost(s, d)]; the number and the time are kept though a later step throws. *)
Definition getHost (now : Z) (s : str) (d : Dictionary) (attempts : Attempts) : Attempts * result HostDetails :=
  match next_host now d (attempts !! s) with
  | Throw e => (attempts, Throw e)
  | Ok hostNumber =>
      let attempts := <[s := (hostNumber, now)]> attempts in
      match populateHostDetails hostNumber d with
      | Throw e => (attempts, Throw e)
      | Ok (Some details) => (attempts, Ok details)
      | Ok None =>
          match populateHostDetails 0 d with
          | Throw e => (attempts, Throw e)
          | Ok details => (<[s := (0, now)]> attempts, Ok (default no_host details))
          end
      end
  end.

(** ** Hosts in turn *)

(** The hosts a session's settings define: those numbered below [n]. *)
Definition hosts_defined (d : Dictionary) (n : Z) (h : Z -> HostDetails) : Prop :=
  0 < n < 2 ^ 31 /\ (forall i, 0 <= i < n -> populateHostDetails i d = Ok (Some (h i))) /\ populateHostDetails n d = Ok None.

(** The interval after which the first host comes next, where the settings ask for that. *)
Definition priority_interval (d : Dictionary) : result (option Z) :=
  policy ← (if dict_has d HOST_SELECTION_POLICY then getString d HOST_SELECTION_POLICY false else mret []);
  if bool_decide (policy = lit "PRIORITY") then
    Some <$> (if dict_has d START_OVER_INTERVAL then getInt d START_OVER_INTERVAL else mret 120)
  else mret None.

Definition starts_over (interval : option Z) (elapsed : Z) : bool := match interval with Some i => i <=? elapsed | None => false end.

Lemma next_host_eq now d last interval :
  priority_interval d = Ok interval ->
  next_host now d last =
  Ok (match last with None => 0 | Some (i, time) => if starts_over interval (now - time) then 0 else i32 (i + 1) end).
Proof.
  unfold priority_interval, next_host. destruct (if dict_has d HOST_SELECTION_POLICY then _ else _) as [policy|]; [|done]. simpl.
  case_bool_decide; [|intros [= <-]; by destruct last as [[i time]|]].
  destruct (if dict_has d START_OVER_INTERVAL then _ else _) as [v|] eqn:E; [|done]. intros [= <-]. by destruct last as [[i time]|].
Qed.

(** Each attempt of a session to connect takes the host after the one it took
    last, the first after the last one; with the PRIORITY policy the first again when
    the interval has passed; and the number and time are kept for the next attempt. *)
Theorem hosts_in_turn now s d attempts n h interval :
  hosts_defined d n h -> priority_interval d = Ok interval ->
  (forall i time, attempts !! s = Some (i, time) -> 0 <= i < n) ->
  let j := match attempts !! s with
           | None => 0
           | Some (i, time) => if starts_over interval (now - time) then 0 else (i + 1) mod n
           end in
  0 <= j < n /\ getHost now s d attempts = (<[s := (j, now)]> attempts, Ok (h j)).
Proof.
  intros (Hn & Hh & Hnone) Hp Hi. unfold getHost. rewrite (next_host_eq _ _ _ _ Hp).
  destruct (attempts !! s) as [[i time]|]; [|split; [lia|]; by rewrite Hh by lia].
  specialize (Hi i time eq_refl). destruct (starts_over _ _); [split; [lia|]; by rewrite Hh by lia|].
  rewrite i32_small by lia. destruct (Z.eq_dec (i + 1) n) as [ ->|Hne].
  - rewrite Z_mod_same by lia. split; [lia|]. rewrite Hnone, Hh by lia. by rewrite insert_insert_eq.
  - rewrite Z.mod_small by lia. split; [lia|]. by rewrite Hh by lia.
Qed.

Definition ex_settings (l : list (string * string)) : Dictionary :=
  fold_left (fun d p => set_data d (string_toUpper (lit p.1)) (lit p.2)) l default_Dictionary.

Definition ex_hosts : Dictionary :=
  ex_settings [("SocketConnectHost", "a"); ("SocketConnectPort", "5001"); ("SocketConnectHost1", "b"); ("SocketConnectPort1", "5002")]%string.

Lemma hosts_in_turn_witness :
  let s := lit "FIX.4.2:ME->YOU" in
  getHost 70 s ex_hosts {[s := (1, 40)]} = ({[s := (0, 70)]}, Ok (mkHostDetails (lit "a") 5001 [] 0)).
Proof.
  intro s. pose (h i := if i =? 0 then mkHostDetails (lit "a") 5001 [] 0 else mkHostDetails (lit "b") 5002 [] 0).
  destruct (hosts_in_turn 70 s ex_hosts {[s := (1, 40)]} 2 h None) as [_ ->].
  - unfold hosts_defined. split_and!; [lia | lia | intros i Hi; assert (i = 0 \/ i = 1) as [-> | ->] by lia; reflexivity | reflexivity].
  - reflexivity.
  - intros i time. rewrite lookup_singleton_eq. intros [= <- _]. lia.
  - rewrite lookup_singleton_eq. reflexivity.
Defined.

(** ** Ports shared *)

(** The options two sessions must share. *)
Definition shared_options (o : PortOptions) : list str :=
  [po_noDelay o; po_sendBufferSize o; po_receiveBufferSize o; po_queuedWrites o; po_busyPoll o].

Lemma compare_options_Ok port o1 o2 : compare_options port o1 o2 = Ok () <-> shared_options o1 = shared_options o2.
Proof.
  unfold compare_options, shared_options. rewrite for_each_Ok, !Forall_cons, !guard_or_Ok, !bool_decide_eq_true.
  split; [by intros (-> & -> & -> & -> & -> & _) | intros [= -> -> -> -> ->]; by repeat split].
Qed.

(** The port and options a session's settings give it. *)
Definition options_of (s : SessionSettings) (id : SessionID) : result (Z * PortOptions) :=
  settings ← settings_of s id; port_options id settings.

(** Sessions whose options can be read, and agree on each port, also with those before. *)
Definition agree (s : SessionSettings) (byPort : gmap Z PortOptions) (l : list SessionID) : Prop :=
  (forall id, id ∈ l -> exists port o, options_of s id = Ok (port, o) /\ forall first, byPort !! port = Some first -> shared_options o = shared_options first) /\
  forall id1 id2 port o1 o2, id1 ∈ l -> id2 ∈ l -> options_of s id1 = Ok (port, o1) -> options_of s id2 = Ok (port, o2) ->
    shared_options o1 = shared_options o2.

Lemma check_sessions_Ok s byPort l : check_sessions s byPort l = Ok () <-> agree s byPort l.
Proof.
  revert byPort. induction l as [|id l IH]; intros byPort.
  { split; [intros _; split; [by intros ? ?%elem_of_nil | by intros ????? ?%elem_of_nil] | done]. }
  assert (check_sessions s byPort (id :: l) =
          '(port, o) ← options_of s id;
          match byPort !! port with
          | None => check_sessions s (<[port := o]> byPort) l
          | Some first => _ ← compare_options port o first; check_sessions s byPort l
          end) as ->.
  { simpl. unfold options_of. by destruct (settings_of s id). }
  destruct (options_of s id) as [[port o]|e] eqn:E; simpl.
  2: { split; [done|]. intros [H _]. destruct (H id) as (? & ? & ? & _); [left | congruence]. }
  destruct (byPort !! port) as [first|] eqn:Ef.
  - assert ((_ ← compare_options port o first; check_sessions s byPort l) = Ok () <-> shared_options o = shared_options first /\ agree s byPort l) as ->.
    { rewrite result_bind_Ok, <- IH, <- (compare_options_Ok port). split; [intros ([] & ? & ?); done | intros [? ?]; by exists ()]. }
    split.
    + intros [Ho [H1 H2]]. split.
      * intros id' [ ->|Hin]%elem_of_cons; [exists port, o; split; [done|]; congruence | by apply H1].
      * assert (forall id' o', id' ∈ l -> options_of s id' = Ok (port, o') -> shared_options o' = shared_options o) as Hp.
        { intros id' o' Hin E'. destruct (H1 id' Hin) as (p' & o'' & E'' & Hb). rewrite E' in E''. injection E'' as <- <-. by rewrite Ho, (Hb first Ef). }
        intros id1 id2 p o1 o2 [ ->|Hin1]%elem_of_cons [ ->|Hin2]%elem_of_cons E1 E2; [congruence | | |exact (H2 _ _ _ _ _ Hin1 Hin2 E1 E2)].
        -- rewrite E in E1. injection E1 as <- <-. symmetry. by eapply Hp.
        -- rewrite E in E2. injection E2 as <- <-. by eapply Hp.
    + intros [H1 H2]. split; [|split].
      * destruct (H1 id) as (p' & o' & E' & Hb); [left|]. rewrite E in E'. injection E' as <- <-. by apply Hb.
      * intros id' Hin. apply H1. by right.
      * intros id1 id2 p o1 o2 Hin1 Hin2. apply H2; by right.
  - rewrite IH. split.
    + intros [H1 H2].
      assert (forall id' o', id' ∈ l -> options_of s id' = Ok (port, o') -> shared_options o' = shared_options o) as Hp.
      { intros id' o' Hin E'. destruct (H1 id' Hin) as (p' & o'' & E'' & Hb). rewrite E' in E''. injection E'' as <- <-.
        apply Hb. by rewrite lookup_insert_eq. }
      split.
      * intros id' [ ->|Hin]%elem_of_cons; [exists port, o; split; [done|]; congruence|]. destruct (H1 id' Hin) as (p' & o' & E' & Hb).
        exists p', o'. split; [done|]. intros first Hf. apply Hb. destruct (decide (p' = port)) as [ ->|]; [congruence | by rewrite lookup_insert_ne].
      * intros id1 id2 p o1 o2 [ ->|Hin1]%elem_of_cons [ ->|Hin2]%elem_of_cons E1 E2; [congruence | | |exact (H2 _ _ _ _ _ Hin1 Hin2 E1 E2)].
        -- rewrite E in E1. injection E1 as <- <-. symmetry. by eapply Hp.
        -- rewrite E in E2. injection E2 as <- <-. by eapply Hp.
    + intros [H1 H2]. split.
      * intros id' Hin. destruct (H1 id') as (p' & o' & E' & Hb); [by right|]. exists p', o'. split; [done|]. intros first.
        destruct (decide (p' = port)) as [ ->|]; [|by rewrite lookup_insert_ne; auto]. rewrite lookup_insert_eq. intros [= <-].
        eapply (H2 id' id); [by right | left | done | done].
      * intros id1 id2 p o1 o2 Hin1 Hin2. apply H2; by right.
Qed.

(** An acceptor's settings pass the check exactly when every session's port and
    options can be read and the sessions on one port have the same options. *)
Theorem ports_agree s :
  checkSocketOptionsPerPort s = Ok () <->
  (forall id, id ∈ getSessions s -> is_Ok (options_of s id)) /\
  (forall id1 id2 port o1 o2, id1 ∈ getSessions s -> id2 ∈ getSessions s ->
     options_of s id1 = Ok (port, o1) -> options_of s id2 = Ok (port, o2) -> shared_options o1 = shared_options o2).
Proof.
  unfold checkSocketOptionsPerPort. rewrite check_sessions_Ok. unfold agree. split; intros [H1 H2]; (split; [|done]); intros id Hin.
  - destruct (H1 id Hin) as (port & o & -> & _). done.
  - specialize (H1 id Hin). destruct (options_of s id) as [[port o]|]; [|done]. exists port, o. split; [done|]. intros first.
    by rewrite lookup_empty.
Qed.

(** ** CPU lists *)

(** A CPU, or the CPUs from one to another. *)
Definition cpu_item : Type := Z * option Z.

Definition cpu_item_ok (i : cpu_item) : Prop :=
  0 <= i.1 < CPU_SETSIZE /\ match i.2 with Some last => i.1 <= last < CPU_SETSIZE | None => True end.

Definition cpus_of (i : cpu_item) : list Z := match i.2 with Some last => seqZ i.1 (last - i.1 + 1) | None => [i.1] end.

Definition cpu_text (n : Z) : str := integer_digits n.
Definition item_text (i : cpu_item) : str := match i.2 with Some last => cpu_text i.1 ++ lit "-" ++ cpu_text last | None => cpu_text i.1 end.

(** Items as they are written in a settings file. *)
Fixpoint items_text (i : cpu_item) (items : list cpu_item) : str :=
  match items with [] => item_text i | j :: items => item_text i ++ lit "," ++ items_text j items end.

Lemma cpu_text_spec n : 0 <= n < CPU_SETSIZE -> all_digits (cpu_text n) = true /\ dec (cpu_text n) = n /\ cpu_text n <> [] /\ (length (cpu_text n) <= 5)%nat.
Proof.
  intros Hn. unfold cpu_text. destruct (integer_digits_spec n) as (H1 & H2 & H3 & H4); [lia|]. split_and!; [done..|].
  destruct (decide (n = 0)) as [ ->|Hne]; [vm_compute; lia|]. specialize (H4 ltac:(lia)). unfold CPU_SETSIZE in Hn.
  destruct (Nat.le_gt_cases (length (integer_digits n)) 5) as [|Hl]; [done|]. exfalso.
  assert (10 ^ 5 <= 10 ^ (Z.of_nat (length (integer_digits n)) - 1)) by (apply Z.pow_le_mono_r; lia). lia.
Qed.

Lemma affinity_number_text value n : 0 <= n < CPU_SETSIZE -> affinity_number value (cpu_text n) = Ok n.
Proof.
  intros Hn. destruct (cpu_text_spec n Hn) as (H1 & H2 & H3 & H4). unfold affinity_number.
  rewrite H1, H2, bool_decide_eq_false_2 by done. destruct (Nat.ltb_spec 5 (length (cpu_text n))); [lia|]. simpl.
  destruct (Z.leb_spec CPU_SETSIZE n); [lia | done].
Qed.

Lemma affinity_item_text value i : cpu_item_ok i -> affinity_item value (item_text i) = Ok (cpus_of i).
Proof.
  intros [H1 H2]. destruct i as [n [last|]]; unfold item_text, affinity_item, cpus_of in *; simpl in *.
  - destruct (cpu_text_spec n H1) as (Hd & _). pose proof (digits_no "-" _ Hd eq_refl) as Hno.
    change (lit "-" ++ cpu_text last) with ("-"%char :: cpu_text last). change (lit "-") with ["-"%char]. rewrite find_char by done.
    rewrite take_app_length, <- drop_drop, drop_app_length. change (drop 1 ("-"%char :: cpu_text last)) with (cpu_text last).
    rewrite !affinity_number_text by lia. simpl. destruct (Z.ltb_spec last n); [lia | done].
  - destruct (cpu_text_spec n H1) as (Hd & _). change (lit "-") with ["-"%char]. rewrite find_absent by (by apply digits_no).
    by rewrite affinity_number_text.
Qed.

Lemma item_text_comma i : cpu_item_ok i -> ","%char ∉ item_text i.
Proof.
  intros [H1 H2]. destruct (cpu_text_spec i.1 H1) as (Hd & _). destruct i as [n [last|]]; unfold item_text; simpl in *; [|by apply digits_no].
  destruct (cpu_text_spec last) as (Hd' & _); [lia|]. rewrite not_elem_of_app, not_elem_of_cons.
  split_and!; [by apply digits_no | done | by apply digits_no].
Qed.

Lemma affinity_loop_text items : forall i pre fuel cpus,
  Forall cpu_item_ok (i :: items) -> (length items < fuel)%nat ->
  affinity_loop fuel (pre ++ items_text i items) (length pre) cpus = Ok (cpus ++ concat (map cpus_of (i :: items))).
Proof.
  induction items as [|j items IH]; intros i pre fuel cpus Hok Hf; apply Forall_cons in Hok as [Hi Hok];
    (destruct fuel as [|fuel]; [simpl in Hf; lia|]); cbn [affinity_loop items_text];
    rewrite (proj2 (Nat.leb_le (length pre) _)) by (rewrite length_app; lia).
  - unfold find_from. rewrite length_app, (proj2 (Nat.ltb_ge _ _)), drop_app_length by lia.
    change (lit ",") with [","%char]. rewrite find_absent by (by apply item_text_comma). cbn [fmap option_fmap option_map].
    rewrite affinity_item_text by done. simpl. by rewrite app_nil_r.
  - change (lit ",") with [","%char]. change ([","%char] ++ items_text j items) with (","%char :: items_text j items).
    rewrite find_from_char by (by apply item_text_comma). rewrite Nat.add_sub_swap, Nat.sub_diag by lia. cbn [Nat.add].
    rewrite substr_middle, affinity_item_text by done. cbn [mbind result_bind].
    specialize (IH j (pre ++ item_text i ++ [","%char]) fuel (cpus ++ cpus_of i) Hok ltac:(simpl in Hf; lia)).
    rewrite !length_app in IH. cbn [length] in IH. rewrite <- !app_assoc in IH. rewrite <- Nat.add_assoc. etransitivity; [exact IH|].
    done.
Qed.

Lemma items_text_length items : forall i, Forall cpu_item_ok (i :: items) -> (length items < length (items_text i items))%nat.
Proof.
  assert (forall i, cpu_item_ok i -> (0 < length (item_text i))%nat) as Hpos.
  { intros i [H1 _]. destruct (cpu_text_spec i.1 H1) as (_ & _ & Hne & _). unfold item_text.
    destruct (cpu_text i.1) eqn:E; [done|]. destruct (i.2); rewrite ?length_app, ?E; simpl; lia. }
  induction items as [|j items IH]; intros i Hok; apply Forall_cons in Hok as [Hi Hok]; cbn [items_text length]; [by apply Hpos|].
  rewrite !length_app. specialize (IH j Hok). specialize (Hpos i Hi). lia.
Qed.

Lemma affinity_number_bound value text n : affinity_number value text = Ok n -> 0 <= n < CPU_SETSIZE.
Proof.
  unfold affinity_number. destruct (all_digits text) eqn:Hd; [|rewrite orb_true_r; simpl; intros H; discriminate H].
  destruct (_ || _ || _); [done|]. simpl.
  destruct (Z.leb_spec CPU_SETSIZE (dec text)); [done|]. intros [= <-]. pose proof (dec_bound _ Hd). lia.
Qed.

Lemma affinity_item_bound value item l : affinity_item value item = Ok l -> Forall (fun cpu => 0 <= cpu < CPU_SETSIZE) l.
Proof.
  unfold affinity_item. destruct (find _ item) as [dash|].
  - destruct (affinity_number value (take dash item)) as [first|] eqn:E1; [|done]. simpl.
    destruct (affinity_number value (drop (dash + 1) item)) as [last|] eqn:E2; [|done]. simpl.
    destruct (Z.ltb_spec last first); [done|]. intros [= <-]. apply affinity_number_bound in E1, E2. apply Forall_forall.
    intros cpu Hin%elem_of_seqZ. lia.
  - destruct (affinity_number value item) as [cpu|] eqn:E; [|done]. intros [= <-]. constructor; [by eapply affinity_number_bound | constructor].
Qed.

Lemma affinity_loop_bound value fuel : forall start cpus l,
  affinity_loop fuel value start cpus = Ok l -> Forall (fun cpu => 0 <= cpu < CPU_SETSIZE) cpus -> Forall (fun cpu => 0 <= cpu < CPU_SETSIZE) l.
Proof.
  induction fuel as [|fuel IH]; intros start cpus l; simpl; [done|]. destruct (_ <=? _)%nat; [|by intros [= <-]].
  destruct (find_from _ value start) as [comma|].
  - destruct (affinity_item value _) as [more|] eqn:E; [|done]. intros H Hc. eapply IH; [exact H|].
    apply Forall_app. split; [done | by eapply affinity_item_bound].
  - destruct (affinity_item value _) as [more|] eqn:E; [|done]. intros [= <-] Hc. apply Forall_app. split; [done | by eapply affinity_item_bound].
Qed.

(** A list of CPUs and ranges written in the settings is read back as the CPUs it
    names, in order; and whatever is read, every CPU is one the system's set can hold. *)
Theorem affinity_read settings :
  (forall i items, Forall cpu_item_ok (i :: items) -> dict_has settings SOCKET_THREAD_AFFINITY = true ->
     getString settings SOCKET_THREAD_AFFINITY false = Ok (items_text i items) ->
     getSocketThreadAffinity settings = Ok (concat (map cpus_of (i :: items)))) /\
  (forall cpus, getSocketThreadAffinity settings = Ok cpus -> Forall (fun cpu => 0 <= cpu < CPU_SETSIZE) cpus).
Proof.
  unfold getSocketThreadAffinity. split.
  - intros i items Hok Hh Hs. rewrite Hh, Hs. simpl. pose proof (items_text_length items i Hok).
    apply (affinity_loop_text items i [] _ [] Hok). lia.
  - intros cpus. destruct (dict_has _ _); [|by intros [= <-]]. destruct (getString _ _ _) as [value|]; [|done]. simpl.
    intros H. eapply affinity_loop_bound; [exact H | constructor].
Qed.

Definition ex_affinity : Dictionary := ex_settings [("SocketThreadAffinity", "1,4-6")]%string.

Lemma affinity_read_witness : getSocketThreadAffinity ex_affinity = Ok [1; 4; 5; 6].
Proof.
  rewrite (proj1 (affinity_read ex_affinity) (1, None) [(4, Some 6)]); [reflexivity | | reflexivity | reflexivity].
  repeat constructor; simpl; lia.
Defined.
