(* ===== verification/Registry.v ===== *)
(** * The registry of sessions ([src/C++/Session.h], [Session.cpp], the static members)

    All sessions of the process by identifier, and those a connection has
    registered. Session objects are identified by a number that stands for their
    address. The lock of the registry makes each operation atomic, so any
    interleaving of threads is a sequence of these operations. *)
From S2P Require Import Prelude Values Field FieldMap DictData Message Layout SessionID TextMap.

Record Registry := mkRegistry {
  s_sessions : list (SessionID * Z);
  s_sessionIDs : list (SessionID * unit);
  s_registered : list (SessionID * Z)
}.

Definition empty_registry : Registry := mkRegistry [] [] [].

Abbreviation id_text := m_frozenString (only parsing).

Definition getSessionIDs (r : Registry) : list SessionID := map fst (s_sessionIDs r).
Definition numSessions (r : Registry) : nat := length (s_sessions r).
Definition doesSessionExist (r : Registry) (sessionID : SessionID) : bool := tm_has id_text sessionID (s_sessions r).

(** [None] is the null pointer. *)
Definition lookupSession (r : Registry) (sessionID : SessionID) : option Z := tm_find id_text sessionID (s_sessions r).

Definition isSessionRegistered (r : Registry) (sessionID : SessionID) : bool := tm_has id_text sessionID (s_registered r).

Definition registerSession (r : Registry) (sessionID : SessionID) : Registry * option Z :=
  match lookupSession r sessionID with
  | None => (r, None)
  | Some pSession =>
      if isSessionRegistered r sessionID then (r, None)
      else (mkRegistry (s_sessions r) (s_sessionIDs r) (tm_set id_text sessionID pSession (s_registered r)), Some pSession)
  end.

Definition unregisterSession (r : Registry) (sessionID : SessionID) : Registry :=
  mkRegistry (s_sessions r) (s_sessionIDs r) (tm_erase id_text sessionID (s_registered r)).

(** [addSession(s)] and [removeSession(s)] for the session at [s] with the
    identifier [sessionID]. *)
Definition addSession (r : Registry) (sessionID : SessionID) (s : Z) : Registry * bool :=
  match tm_find id_text sessionID (s_sessions r) with
  | None =>
      (mkRegistry (tm_set id_text sessionID s (s_sessions r)) (tm_set id_text sessionID () (s_sessionIDs r)) (s_registered r), true)
  | Some _ => (r, false)
  end.

Definition removeSession (r : Registry) (sessionID : SessionID) (s : Z) : Registry :=
  let r :=
    if bool_decide (tm_find id_text sessionID (s_sessions r) = Some s)
    then mkRegistry (tm_erase id_text sessionID (s_sessions r)) (tm_erase id_text sessionID (s_sessionIDs r)) (s_registered r)
    else r in
  if bool_decide (tm_find id_text sessionID (s_registered r) = Some s)
  then mkRegistry (s_sessions r) (s_sessionIDs r) (tm_erase id_text sessionID (s_registered r))
  else r.

(** [lookupSession(string, reverse)]: the session an encoded message belongs to. *)
Definition lookupSession_string (r : Registry) (string : str) (reverse : bool) : result (option Z) :=
  '(found, message) ← setStringHeader new_Message string;
  if negb found then Ok None
  else
    let header := m_header message in
    match getField header FIELD.BeginString, getField header FIELD.SenderCompID, getField header FIELD.TargetCompID with
    | Ok beginString, Ok senderCompID, Ok targetCompID =>
        if reverse then Ok (lookupSession r (new_SessionID beginString targetCompID senderCompID []))
        else Ok (lookupSession r (new_SessionID beginString senderCompID targetCompID []))
    | _, _, _ => Ok None   (* [catch (FieldNotFound &)] *)
    end.

(** ** Sending to a session by name *)

(** [Message::getSessionID]; the three look-ups may come in any order, and each
    throws [FieldNotFound]. *)
Definition getSessionID (m : Message) (qualifier : str) : result SessionID :=
  beginString ← getField (m_header m) FIELD.BeginString;
  senderCompID ← getField (m_header m) FIELD.SenderCompID;
  targetCompID ← getField (m_header m) FIELD.TargetCompID;
  mret (new_SessionID beginString senderCompID targetCompID qualifier).

(** [Message::setSessionID]. *)
Definition setSessionID (m : Message) (sessionID : SessionID) : Message :=
  let header := setField (m_header m) (Field FIELD.BeginString (m_beginString sessionID)) in
  let header := setField header (Field FIELD.SenderCompID (m_senderCompID sessionID)) in
  let header := setField header (Field FIELD.TargetCompID (m_targetCompID sessionID)) in
  with_header m header.

(** [sendToTarget(message, sessionID)] up to the session's own [send]: the
    message as it was changed, and the session that sends it. *)
Definition sendToTarget_id (r : Registry) (message : Message) (sessionID : SessionID) : Message * result Z :=
  let message := setSessionID message sessionID in
  (message, of_option (SessionNotFound []) (lookupSession r sessionID)).

(** [sendToTarget(message, qualifier)]. *)
Definition sendToTarget (r : Registry) (message : Message) (qualifier : str) : Message * result Z :=
  match getSessionID message qualifier with
  | Ok sessionID => sendToTarget_id r message sessionID
  | Throw (FieldNotFound _ _) => (message, Throw (SessionNotFound []))
  | Throw e => (message, Throw e)
  end.

(** [sendToTarget(message, senderCompID, targetCompID, qualifier)]. *)
Definition sendToTarget_ids (r : Registry) (message : Message) (senderCompID targetCompID qualifier : str) : Message * result Z :=
  let header := setField (m_header message) (Field FIELD.SenderCompID senderCompID) in
  let header := setField header (Field FIELD.TargetCompID targetCompID) in
  sendToTarget r (with_header message header) qualifier.

(** ** The life of a session object *)

(** The part of the constructor after the store and the log were made:
    [onCreate] may throw, and then the registry is as it was. *)
Definition construct (onCreate : SessionID -> result unit) (r : Registry) (sessionID : SessionID) (s : Z) : Registry * result unit :=
  let '(r, added) := addSession r sessionID s in
  if negb added then (r, Throw (ConfigError (lit "A session with ID " ++ sid_toString sessionID ++ lit " already exists")))
  else
    match onCreate sessionID with
    | Ok _ => (r, Ok ())
    | Throw e => (removeSession r sessionID s, Throw e)
    end.

(** The destructor. *)
Definition destroy (r : Registry) (sessionID : SessionID) (s : Z) : Registry := removeSession r sessionID s.

(** The objects that are alive, by address, and what the process may do. *)
Record Process := mkProcess { p_registry : Registry; p_live : gmap Z SessionID }.

Inductive step (onCreate : SessionID -> result unit) : Process -> Process -> Prop :=
| step_construct p sessionID s r :
    p_live p !! s = None -> construct onCreate (p_registry p) sessionID s = (r, Ok ()) ->
    step onCreate p (mkProcess r (<[s := sessionID]> (p_live p)))
| step_construct_throws p sessionID s r e :
    p_live p !! s = None -> construct onCreate (p_registry p) sessionID s = (r, Throw e) ->
    step onCreate p (mkProcess r (p_live p))
| step_destroy p sessionID s :
    p_live p !! s = Some sessionID ->
    step onCreate p (mkProcess (destroy (p_registry p) sessionID s) (delete s (p_live p)))
| step_register p sessionID :
    step onCreate p (mkProcess (registerSession (p_registry p) sessionID).1 (p_live p))
| step_unregister p sessionID :
    step onCreate p (mkProcess (unregisterSession (p_registry p) sessionID) (p_live p)).

Inductive reachable (onCreate : SessionID -> result unit) : Process -> Prop :=
| reach_start : reachable onCreate (mkProcess empty_registry ∅)
| reach_step p p' : reachable onCreate p -> step onCreate p p' -> reachable onCreate p'.

(** ** The registry names the sessions that are alive *)

Record registry_ok (r : Registry) (live : gmap Z SessionID) : Prop := {
  reg_sessions : tm_ordered id_text (s_sessions r);
  reg_ids : tm_ordered id_text (s_sessionIDs r);
  reg_registered : tm_ordered id_text (s_registered r);
  (** A session is looked up exactly by its identifier's text ... *)
  reg_live i s : tm_find id_text i (s_sessions r) = Some s <-> exists j, live !! s = Some j /\ id_text j = id_text i;
  (** ... the identifiers are those of the sessions ... *)
  reg_same i : is_Some (tm_find id_text i (s_sessionIDs r)) <-> is_Some (tm_find id_text i (s_sessions r));
  (** ... and what is registered is a session. *)
  reg_sub i s : tm_find id_text i (s_registered r) = Some s -> tm_find id_text i (s_sessions r) = Some s
}.

Lemma registry_ok_empty : registry_ok empty_registry ∅.
Proof. split; simpl; try done. intros i s. split; [done|]. intros (j & Hj & _). by rewrite lookup_empty in Hj. Qed.

Lemma registry_ok_add r live i s r' :
  registry_ok r live -> live !! s = None -> addSession r i s = (r', true) -> registry_ok r' (<[s := i]> live).
Proof.
  intros [H1 H2 H3 Hl Hs Hr] Hs0. unfold addSession. destruct (tm_find id_text i (s_sessions r)) eqn:E; [done|]. intros [= <-].
  assert (forall j, id_text j <> id_text i -> tm_find id_text j (tm_set id_text i s (s_sessions r)) = tm_find id_text j (s_sessions r)) as Hne
    by (intros; by apply tm_find_set_ne).
  assert (forall j, id_text j = id_text i -> tm_find id_text j (tm_set id_text i s (s_sessions r)) = Some s) as Heq
    by (intros j Ej; rewrite (tm_find_text _ j i) by done; by apply tm_find_set).
  constructor; simpl; auto.
  - intros j p. destruct (decide (id_text j = id_text i)) as [Ej|Hj].
    + rewrite Heq by done. split; [intros [= <-]; exists i; by rewrite lookup_insert_eq|]. intros (j' & Hj' & Et).
      destruct (decide (p = s)) as [->|Hp]; [done|]. rewrite lookup_insert_ne in Hj' by done.
      assert (tm_find id_text i (s_sessions r) = Some p) as C; [|congruence]. apply Hl. exists j'. split; congruence.
    + rewrite Hne, Hl by done. split; intros (j' & Hj' & Et); exists j'; (split; [|done]).
      * rewrite lookup_insert_ne; [done|]. by intros <-; rewrite Hs0 in Hj'.
      * destruct (decide (p = s)) as [->|Hp]; [|by rewrite lookup_insert_ne in Hj'].
        rewrite lookup_insert_eq in Hj'. injection Hj' as ->. by destruct Hj.
  - intros j. destruct (decide (id_text j = id_text i)) as [Ej|Hj].
    + rewrite Heq, (tm_find_text _ j i), tm_find_set by done. split; by eexists.
    + rewrite Hne, tm_find_set_ne by done. apply Hs.
  - intros j p Hp%Hr. rewrite Hne; [done|]. intros Ej. rewrite (tm_find_text _ j i) in Hp by done. congruence.
Qed.

Lemma registry_ok_remove r live i s :
  registry_ok r live -> live !! s = Some i -> registry_ok (removeSession r i s) (delete s live).
Proof.
  intros [H1 H2 H3 Hl Hs Hr] Hi. unfold removeSession.
  assert (tm_find id_text i (s_sessions r) = Some s) as Ef by (apply Hl; by exists i).
  rewrite (bool_decide_eq_true_2 _ Ef). cbn [s_sessions s_sessionIDs s_registered].
  set (reg := if bool_decide _ then _ else _).
  assert (s_sessions reg = tm_erase id_text i (s_sessions r) /\ s_sessionIDs reg = tm_erase id_text i (s_sessionIDs r) /\
    s_registered reg = if bool_decide (tm_find id_text i (s_registered r) = Some s) then tm_erase id_text i (s_registered r) else s_registered r)
    as (E1 & E2 & E3) by (subst reg; by case_bool_decide).
  assert (forall {A} (m : list (SessionID * A)) j, id_text j = id_text i -> tm_ordered id_text m -> tm_find id_text j (tm_erase id_text i m) = None) as He
    by (intros A m j Ej Hm; rewrite (tm_find_text _ j i) by done; by apply tm_find_erase).
  constructor; rewrite ?E1, ?E2, ?E3; auto.
  - case_bool_decide; auto.
  - intros j p. destruct (decide (id_text j = id_text i)) as [Ej|Hj].
    + rewrite He by done. split; [done|]. intros (j' & Hj' & Et). apply lookup_delete_Some in Hj' as [Hp Hj'].
      assert (tm_find id_text i (s_sessions r) = Some p) as C; [|congruence]. apply Hl. exists j'. split; congruence.
    + rewrite tm_find_erase_ne, Hl by done. split; intros (j' & Hj' & Et); exists j'; (split; [|done]).
      * rewrite lookup_delete_ne; [done|]. intros <-. congruence.
      * by apply lookup_delete_Some in Hj' as [_ ?].
  - intros j. destruct (decide (id_text j = id_text i)) as [Ej|Hj].
    + rewrite !He by done. split; by intros [? ?].
    + rewrite !tm_find_erase_ne by done. apply Hs.
  - intros j p Hp. assert (tm_find id_text j (s_registered r) = Some p /\ id_text j <> id_text i) as [Hp' Hne].
    { case_bool_decide as B.
      - destruct (decide (id_text j = id_text i)) as [Ej|Hj]; [by rewrite He in Hp|]. by rewrite tm_find_erase_ne in Hp.
      - split; [done|]. intros Ej. apply B. rewrite (tm_find_text _ j i) in Hp by done. rewrite Hp. apply Hr in Hp. congruence. }
    rewrite tm_find_erase_ne by done. by apply Hr.
Qed.

(** A constructor that throws leaves the registry as it was. *)
Lemma construct_throws onCreate r live i s r' e :
  registry_ok r live -> live !! s = None -> construct onCreate r i s = (r', Throw e) -> r' = r.
Proof.
  intros [H1 H2 H3 Hl Hs Hr] Hs0. unfold construct, addSession. destruct (tm_find id_text i (s_sessions r)) eqn:E; [by intros [= <- _]|].
  cbn [negb]. destruct (onCreate i); [done|]. intros [= <- _]. unfold removeSession. cbn [s_sessions s_sessionIDs s_registered].
  rewrite (bool_decide_eq_true_2 _ (tm_find_set _ i s _ H1)).
  assert (tm_find id_text i (s_registered r) <> Some s) as Hn by (intros C%Hr; congruence).
  cbn [s_sessions s_sessionIDs s_registered]. rewrite bool_decide_eq_false_2 by done. rewrite (tm_erase_set _ _ _ (s_sessions r)) by done. rewrite tm_erase_set; [by destruct r|].
  destruct (tm_find id_text i (s_sessionIDs r)) eqn:E'; [|done]. destruct (proj1 (Hs i)) as [? ?]; [by eexists | congruence].
Qed.

Lemma registry_ok_register r live i : registry_ok r live -> registry_ok (registerSession r i).1 live.
Proof.
  intros [H1 H2 H3 Hl Hs Hr]. unfold registerSession. destruct (lookupSession r i) as [p|] eqn:E; [|done].
  destruct (isSessionRegistered r i); [done|]. constructor; simpl; auto. intros j q.
  destruct (decide (id_text j = id_text i)) as [Ej|Hj]; [|rewrite tm_find_set_ne by done; apply Hr].
  rewrite (tm_find_text _ j i (s_sessions r)), (tm_find_text _ j i), tm_find_set by done. intros [= <-]. exact E.
Qed.

Lemma registry_ok_unregister r live i : registry_ok r live -> registry_ok (unregisterSession r i) live.
Proof.
  intros [H1 H2 H3 Hl Hs Hr]. constructor; simpl; auto. intros j q Hq. apply Hr.
  destruct (decide (id_text j = id_text i)) as [Ej|Hj]; [|by rewrite tm_find_erase_ne in Hq].
  by rewrite (tm_find_text _ j i), tm_find_erase in Hq.
Qed.

Lemma reachable_ok onCreate p : reachable onCreate p -> registry_ok (p_registry p) (p_live p).
Proof.
  induction 1 as [|p p' _ IH Hstep]; [apply registry_ok_empty|].
  destruct Hstep as [p i s r Hs E | p i s r e Hs E | p i s Hs | p i | p i]; cbn [p_registry p_live] in *.
  - unfold construct in E. destruct (addSession (p_registry p) i s) as [r1 added] eqn:Ea. destruct added; [|done]. cbn [negb] in E.
    destruct (onCreate i); [|done]. injection E as <-. by eapply registry_ok_add.
  - by rewrite (construct_throws _ _ _ _ _ _ _ IH Hs E).
  - by apply registry_ok_remove.
  - by apply registry_ok_register.
  - by apply registry_ok_unregister.
Qed.

(** C29 Whatever sessions are constructed, destroyed, registered and unregistered,
    constructors that throw included, a look-up gives exactly the live session
    with the identifier: never one that was destroyed or whose constructor threw.
    The identifiers listed and the registered sessions are of live sessions too. *)
Theorem registry_live onCreate p :
  reachable onCreate p ->
  (forall i s, lookupSession (p_registry p) i = Some s <-> exists j, p_live p !! s = Some j /\ id_text j = id_text i) /\
  (forall i, doesSessionExist (p_registry p) i = true <-> exists s j, p_live p !! s = Some j /\ id_text j = id_text i) /\
  (forall i, i ∈ getSessionIDs (p_registry p) -> doesSessionExist (p_registry p) i = true) /\
  (forall i, isSessionRegistered (p_registry p) i = true -> doesSessionExist (p_registry p) i = true).
Proof.
  intros [H1 H2 H3 Hl Hs Hr]%reachable_ok.
  assert (forall i, doesSessionExist (p_registry p) i = true <-> is_Some (tm_find id_text i (s_sessions (p_registry p)))) as He
    by (intros; apply tm_find_has).
  split_and!; [exact Hl | | |].
  - intros i. rewrite He. split; [intros [s (j & ?)%Hl]; by exists s, j | intros (s & j & ?); exists s; apply Hl; by exists j].
  - intros i Hi. apply He, Hs. apply list_elem_of_In, in_map_iff in Hi as ([i' []] & <- & Hi).
    exists (). apply tm_find_in; [done | by apply list_elem_of_In].
  - intros i Hi%tm_find_has. destruct Hi as [s Hi%Hr]. apply He. by exists s.
Qed.

(** Two sessions, one of them registered and destroyed; a third identifier that
    cannot be added. *)
Definition ex_id (target : string) : SessionID := new_SessionID (lit "FIX.4.2") (lit "ME") (lit target) [].

Definition ex_registry : Registry := (addSession (addSession empty_registry (ex_id "A") 1).1 (ex_id "B") 2).1.

Definition ex_process : Process :=
  mkProcess (destroy (registerSession ex_registry (ex_id "A")).1 (ex_id "A") 1) (delete 1 (<[2 := ex_id "B"]> (<[1 := ex_id "A"]> ∅))).

Lemma ex_reachable : reachable (fun _ => Ok ()) ex_process.
Proof.
  pose (f := fun _ : SessionID => @Ok unit ()).
  pose (p1 := mkProcess (addSession empty_registry (ex_id "A") 1).1 (<[1 := ex_id "A"]> ∅)).
  pose (p2 := mkProcess ex_registry (<[2 := ex_id "B"]> (p_live p1))).
  pose (p3 := mkProcess (registerSession ex_registry (ex_id "A")).1 (p_live p2)).
  assert (reachable f p1) as H1 by exact (reach_step _ _ p1 (reach_start f) (step_construct f (mkProcess empty_registry ∅) (ex_id "A") 1 _ eq_refl eq_refl)).
  assert (reachable f p2) as H2 by exact (reach_step _ p1 p2 H1 (step_construct f p1 (ex_id "B") 2 _ eq_refl eq_refl)).
  assert (reachable f p3) as H3 by exact (reach_step _ p2 p3 H2 (step_register f p2 (ex_id "A"))).
  exact (reach_step _ p3 ex_process H3 (step_destroy f p3 (ex_id "A") 1 eq_refl)).
Qed.

Lemma registry_live_witness :
  lookupSession (p_registry ex_process) (ex_id "B") = Some 2 /\
  forall i s, lookupSession (p_registry ex_process) i = Some s <-> exists j, p_live ex_process !! s = Some j /\ id_text j = id_text i.
Proof. split; [by vm_compute|]. apply (registry_live (fun _ => Ok ())), ex_reachable. Defined.

(** ** Sending by name *)

Lemma getField_header_text m t : getField (m_header m) t = of_option (FieldNotFound t []) (header_text t m).
Proof. unfold getField, getFieldRef, header_text. by destruct (getFieldIfSet (m_header m) t). Qed.

(** What the message says after it was given an identifier. *)
Lemma setSessionID_text m i q :
  header_ok m -> getSessionID (setSessionID m i) q = Ok (new_SessionID (m_beginString i) (m_senderCompID i) (m_targetCompID i) q).
Proof.
  intros H. unfold getSessionID. rewrite !getField_header_text. unfold header_text, setSessionID. cbn [m_header with_header].
  repeat rewrite laid_out_get_set by (first [by repeat apply laid_out_setField | done]). done.
Qed.

(** The session that sends is the one the message then names, and it is alive;
    without one the exception is [SessionNotFound]. *)
Lemma sendToTarget_routes onCreate p m i :
  reachable onCreate p -> header_ok m ->
  exists m', getSessionID m' (m_sessionQualifier i) = Ok (new_SessionID (m_beginString i) (m_senderCompID i) (m_targetCompID i) (m_sessionQualifier i)) /\
    match sendToTarget_id (p_registry p) m i with
    | (m1, Ok s) => m1 = m' /\ exists j, p_live p !! s = Some j /\ id_text j = id_text i
    | (m1, Throw e) => m1 = m' /\ e = SessionNotFound [] /\ forall s j, p_live p !! s = Some j -> id_text j <> id_text i
    end.
Proof.
  intros [_ _ _ Hl _ _]%reachable_ok Hm. exists (setSessionID m i). split; [by apply setSessionID_text|].
  unfold sendToTarget_id. cbv zeta. destruct (lookupSession (p_registry p) i) as [s|] eqn:E; simpl.
  - split; [done|]. by apply Hl.
  - split_and!; [done..|]. intros s j Hj Et. assert (lookupSession (p_registry p) i = Some s) as C; [|congruence].
    apply Hl. by exists j.
Qed.

(** A session registered once is not registered again until it is unregistered. *)
Lemma registerSession_once r i r' s : registerSession r i = (r', Some s) -> registerSession r' i = (r', None).
Proof.
  unfold registerSession, isSessionRegistered, tm_has. destruct (lookupSession r i) as [p|] eqn:E; [|done].
  destruct (tm_find id_text i (s_registered r)) eqn:Er; [done|]. intros [= <- <-].
  unfold lookupSession in E |- *. cbn [s_sessions s_registered]. rewrite E.
  assert (tm_find id_text i (tm_set id_text i p (s_registered r)) = Some p) as ->; [|done].
  revert Er. induction (s_registered r) as [|[k v] m IH]; simpl; [by rewrite bool_decide_eq_true_2|].
  case_bool_decide; [done|]. intros Er. destruct (str_ltb _ _); simpl; [by rewrite bool_decide_eq_true_2|].
  rewrite bool_decide_eq_false_2 by done. by apply IH.
Qed.
