(* ===== verification/MessageStore.v ===== *)
(** * Message stores ([src/C++/MessageStore.h], [src/C++/MessageStore.cpp])

    The interface every store implements, as a type class of operations; what
    the session relies on, as a class of laws over an abstract store; the memory
    store, which satisfies them; and the wrappers that turn an [IOException]
    into a flag. A virtual method that may throw returns a [result]; one that
    changes the store returns the new store with it, exception or not. *)
From S2P Require Import Prelude DateTime OrdMap.

(** [SEQNUM] is [uint64_t]. *)
Definition seqnum (n : Z) : Prop := 0 <= n < 2 ^ 64.

(** ** The interface

    [st_refresh] is given the time a store may read from the system clock. *)
Class MessageStore (S : Type) := {
  st_set : Z -> str -> S -> S * result bool;
  st_get : Z -> Z -> S -> result (list str);
  st_getNextSenderMsgSeqNum : S -> result Z;
  st_getNextTargetMsgSeqNum : S -> result Z;
  st_setNextSenderMsgSeqNum : Z -> S -> S * result unit;
  st_setNextTargetMsgSeqNum : Z -> S -> S * result unit;
  st_incrNextSenderMsgSeqNum : S -> S * result unit;
  st_incrNextTargetMsgSeqNum : S -> S * result unit;
  st_getCreationTime : S -> result DateTime;
  st_reset : DateTime -> S -> S * result unit;
  st_refresh : DateTime -> S -> S * result unit
}.

(** ** What a store promises *)

(** The contents of a store: the messages by number, the two counters and the
    time the sequence was started. *)
Record Contents := mkContents {
  c_messages : gmap Z str;
  c_sender : Z;
  c_target : Z;
  c_creation : DateTime
}.

(** The stored numbers of [b .. e] are a run from [b], and [l] their messages. *)
Definition run_from (c : Contents) (b e : Z) (l : list str) : Prop :=
  (forall i : nat, (i < length l)%nat -> b + Z.of_nat i <= e /\ c_messages c !! (b + Z.of_nat i) = l !! i) /\
  (forall n, b + Z.of_nat (length l) <= n <= e -> c_messages c !! n = None).

(** The laws: in the states of the invariant no operation throws, and each has
    its effect on the contents. A store may require of the messages that they be
    [st_storable], and of times that they be [st_datable]. *)
Class StoreLaws (S : Type) `{MessageStore S} := {
  st_inv : S -> Prop;
  st_contents : S -> Contents;
  st_storable : str -> Prop;
  st_datable : DateTime -> Prop;
  st_numbers s : st_inv s -> seqnum (c_sender (st_contents s)) /\ seqnum (c_target (st_contents s));
  st_set_spec n m s :
    st_inv s -> seqnum n -> st_storable m ->
    exists s', st_set n m s = (s', Ok true) /\ st_inv s' /\
      st_contents s' = let c := st_contents s in
        mkContents (<[n := m]> (c_messages c)) (c_sender c) (c_target c) (c_creation c);
  st_get_spec b e l s :
    st_inv s -> 1 <= b -> e < 2 ^ 64 -> run_from (st_contents s) b e l -> st_get b e s = Ok l;
  st_sender_spec s : st_inv s -> st_getNextSenderMsgSeqNum s = Ok (c_sender (st_contents s));
  st_target_spec s : st_inv s -> st_getNextTargetMsgSeqNum s = Ok (c_target (st_contents s));
  st_creation_spec s : st_inv s -> st_getCreationTime s = Ok (c_creation (st_contents s));
  st_setSender_spec n s :
    st_inv s -> seqnum n ->
    exists s', st_setNextSenderMsgSeqNum n s = (s', Ok ()) /\ st_inv s' /\
      st_contents s' = let c := st_contents s in mkContents (c_messages c) n (c_target c) (c_creation c);
  st_setTarget_spec n s :
    st_inv s -> seqnum n ->
    exists s', st_setNextTargetMsgSeqNum n s = (s', Ok ()) /\ st_inv s' /\
      st_contents s' = let c := st_contents s in mkContents (c_messages c) (c_sender c) n (c_creation c);
  st_incrSender_spec s :
    st_inv s ->
    exists s', st_incrNextSenderMsgSeqNum s = (s', Ok ()) /\ st_inv s' /\
      st_contents s' = let c := st_contents s in
        mkContents (c_messages c) (u64 (c_sender c + 1)) (c_target c) (c_creation c);
  st_incrTarget_spec s :
    st_inv s ->
    exists s', st_incrNextTargetMsgSeqNum s = (s', Ok ()) /\ st_inv s' /\
      st_contents s' = let c := st_contents s in
        mkContents (c_messages c) (c_sender c) (u64 (c_target c + 1)) (c_creation c);
  st_reset_spec now s :
    st_inv s -> st_datable now ->
    exists s', st_reset now s = (s', Ok ()) /\ st_inv s' /\ st_contents s' = mkContents ∅ 1 1 now
}.

(** ** [MemoryStore] *)

Record MemoryStore := mkMemoryStore {
  m_messages : list (Z * str);
  m_nextSenderMsgSeqNum : Z;
  m_nextTargetMsgSeqNum : Z;
  m_creationTime : DateTime
}.

Definition new_MemoryStore (now : DateTime) : MemoryStore := mkMemoryStore [] 1 1 now.

Definition mem_set (msgSeqNum : Z) (msg : str) (s : MemoryStore) : MemoryStore :=
  mkMemoryStore (map_set msgSeqNum msg (m_messages s)) (m_nextSenderMsgSeqNum s) (m_nextTargetMsgSeqNum s) (m_creationTime s).

(** [m_messages.find(k)], an iterator: the bindings from it on. *)
Fixpoint find_iterator {A} (k : Z) (m : list (Z * A)) : list (Z * A) :=
  match m with
  | [] => []
  | (k', v) :: m' => if k =? k' then m else find_iterator k m'
  end.

Fixpoint collect_to (end_ : Z) (find : list (Z * str)) : list str :=
  match find with
  | [] => []
  | (first, second) :: find => if first <=? end_ then second :: collect_to end_ find else []
  end.

Definition mem_get (begin end_ : Z) (s : MemoryStore) : list str := collect_to end_ (find_iterator begin (m_messages s)).

Definition mem_setNextSender (value : Z) (s : MemoryStore) : MemoryStore :=
  mkMemoryStore (m_messages s) value (m_nextTargetMsgSeqNum s) (m_creationTime s).
Definition mem_setNextTarget (value : Z) (s : MemoryStore) : MemoryStore :=
  mkMemoryStore (m_messages s) (m_nextSenderMsgSeqNum s) value (m_creationTime s).
Definition mem_incrNextSender (s : MemoryStore) : MemoryStore := mem_setNextSender (u64 (m_nextSenderMsgSeqNum s + 1)) s.
Definition mem_incrNextTarget (s : MemoryStore) : MemoryStore := mem_setNextTarget (u64 (m_nextTargetMsgSeqNum s + 1)) s.
Definition mem_setCreationTime (creationTime : DateTime) (s : MemoryStore) : MemoryStore :=
  mkMemoryStore (m_messages s) (m_nextSenderMsgSeqNum s) (m_nextTargetMsgSeqNum s) creationTime.
Definition mem_reset (now : DateTime) (s : MemoryStore) : MemoryStore := mkMemoryStore [] 1 1 now.
Definition mem_refresh (s : MemoryStore) : MemoryStore := s.

#[export] Instance MemoryStore_ops : MessageStore MemoryStore := {
  st_set n m s := (mem_set n m s, Ok true);
  st_get b e s := Ok (mem_get b e s);
  st_getNextSenderMsgSeqNum s := Ok (m_nextSenderMsgSeqNum s);
  st_getNextTargetMsgSeqNum s := Ok (m_nextTargetMsgSeqNum s);
  st_setNextSenderMsgSeqNum n s := (mem_setNextSender n s, Ok ());
  st_setNextTargetMsgSeqNum n s := (mem_setNextTarget n s, Ok ());
  st_incrNextSenderMsgSeqNum s := (mem_incrNextSender s, Ok ());
  st_incrNextTargetMsgSeqNum s := (mem_incrNextTarget s, Ok ());
  st_getCreationTime s := Ok (m_creationTime s);
  st_reset now s := (mem_reset now s, Ok ());
  st_refresh now s := (mem_refresh s, Ok ())
}.

(** ** [MessageStoreExceptionWrapper]

    The value, [threw] and, when it is set, the exception assigned to [ex]. *)
Section Wrapper.
Context {S : Type} `{MessageStore S}.

Definition catch_IOException {A} (otherwise : A) (r : result A) : result (A * bool * option exn) :=
  match r with
  | Ok a => Ok (a, false, None)
  | Throw (IOException detail) => Ok (otherwise, true, Some (IOException detail))
  | Throw e => Throw e
  end.

Definition catching {A} (otherwise : A) (r : S * result A) : S * result (A * bool * option exn) :=
  (fst r, catch_IOException otherwise (snd r)).

Definition wrap_set (num : Z) (msg : str) (s : S) := catching false (st_set num msg s).
(** [msgs] is left as it was when the store throws before clearing it. *)
Definition wrap_get (begin end_ : Z) (msgs : list str) (s : S) := catch_IOException msgs (st_get begin end_ s).
Definition wrap_getNextSenderMsgSeqNum (s : S) := catch_IOException 0 (st_getNextSenderMsgSeqNum s).
Definition wrap_getNextTargetMsgSeqNum (s : S) := catch_IOException 0 (st_getNextTargetMsgSeqNum s).
Definition wrap_setNextSenderMsgSeqNum (num : Z) (s : S) := catching () (st_setNextSenderMsgSeqNum num s).
Definition wrap_setNextTargetMsgSeqNum (num : Z) (s : S) := catching () (st_setNextTargetMsgSeqNum num s).
Definition wrap_incrNextSenderMsgSeqNum (s : S) := catching () (st_incrNextSenderMsgSeqNum s).
Definition wrap_incrNextTargetMsgSeqNum (s : S) := catching () (st_incrNextTargetMsgSeqNum s).
(** [clock] is [UtcTimeStamp::now()]. *)
Definition wrap_getCreationTime (clock : DateTime) (s : S) := catch_IOException clock (st_getCreationTime s).
Definition wrap_reset (now : DateTime) (s : S) := catching () (st_reset now s).
Definition wrap_refresh (clock : DateTime) (s : S) := catching () (st_refresh clock s).

Lemma catch_IOException_never {A} (d : A) r detail : catch_IOException d r <> Throw (IOException detail).
Proof. destruct r as [a|[]]; simpl; congruence. Qed.
End Wrapper.

(** [MessageStoreFactoryExceptionWrapper::create]. *)
Definition catch_ConfigError {A} (r : result A) : result (option A * bool * option exn) :=
  match r with
  | Ok a => Ok (Some a, false, None)
  | Throw (ConfigError detail) => Ok (None, true, Some (ConfigError detail))
  | Throw e => Throw e
  end.

(** ** The memory store keeps the contents *)

Definition contents_of (messages : list (Z * str)) : gmap Z str := list_to_map messages.

Lemma contents_of_lookup messages n : contents_of messages !! n = map_lookup n messages.
Proof.
  unfold contents_of. induction messages as [|[k v] m IH]; simpl; [done|].
  case_bool; subst; [by rewrite lookup_insert_eq | by rewrite lookup_insert_ne by done].
Qed.

Lemma contents_of_set messages n v : ordered messages -> contents_of (map_set n v messages) = <[n := v]> (contents_of messages).
Proof.
  intros Ho. apply map_eq. intros k. rewrite contents_of_lookup. destruct (decide (k = n)) as [->|Hne].
  - by rewrite lookup_insert_eq, map_lookup_set.
  - by rewrite lookup_insert_ne, contents_of_lookup, map_lookup_set_ne.
Qed.

Definition mem_contents (s : MemoryStore) : Contents :=
  mkContents (contents_of (m_messages s)) (m_nextSenderMsgSeqNum s) (m_nextTargetMsgSeqNum s) (m_creationTime s).

Definition mem_inv (s : MemoryStore) : Prop :=
  ordered (m_messages s) /\ seqnum (m_nextSenderMsgSeqNum s) /\ seqnum (m_nextTargetMsgSeqNum s).

Lemma seqnum_incr n : seqnum (u64 (n + 1)).
Proof. unfold seqnum. apply wrap_u_range. lia. Qed.

Lemma seqnum_one : seqnum 1.
Proof. unfold seqnum. lia. Qed.

Lemma map_lookup_find k m : ordered m -> @map_lookup str k m = match find_iterator k m with [] => None | (_, v) :: _ => Some v end.
Proof.
  induction m as [|[k' v'] m IH]; simpl; [done|]. intros [H1 H2]%ordered_cons. case_bool; auto.
Qed.

Lemma find_iterator_suffix {A} k (m : list (Z * A)) : exists pre, m = pre ++ find_iterator k m.
Proof.
  induction m as [|[k' v'] m [pre IH]]; simpl; [by exists []|]. case_bool; [by exists []|].
  exists ((k', v') :: pre). simpl. by rewrite <- IH.
Qed.

Lemma find_iterator_head {A} k (m : list (Z * A)) k' v m' : find_iterator k m = (k', v) :: m' -> k' = k.
Proof. induction m as [|[k1 v1] m IH]; simpl; [done|]. case_bool; [congruence | exact IH]. Qed.

(** The values collected from an iterator at [b], when the numbers are a run. *)
Lemma collect_run e l b m :
  ordered m ->
  (forall i : nat, (i < length l)%nat -> b + Z.of_nat i <= e /\ map_lookup (b + Z.of_nat i) m = l !! i) ->
  (forall n, b + Z.of_nat (length l) <= n <= e -> map_lookup n m = None) ->
  Forall (fun k => b <= k) (keys m) ->
  collect_to e m = l.
Proof.
  revert b m. induction l as [|v l IH]; intros b m Ho Hl Hn Hk.
  - destruct m as [|[k v] m]; [done|]. simpl. case_bool; [|done].
    apply Forall_cons in Hk as [Hk _]. specialize (Hn k ltac:(simpl in *; lia)). simpl in Hn. by rewrite Z.eqb_refl in Hn.
  - destruct (Hl 0%nat ltac:(simpl; lia)) as [He Hv]. rewrite Z.add_0_r in He, Hv.
    destruct m as [|[k w] m]; [done|]. apply Forall_cons in Hk as [Hk1 Hk2].
    assert (k = b /\ w = v) as [-> ->].
    { simpl in Hv. destruct (Z.eqb_spec b k); [split; congruence|].
      exfalso. apply ordered_cons in Ho as [_ Ho]. rewrite map_lookup_below in Hv; [done|].
      eapply Forall_impl; [exact Ho|]. simpl in *. lia. }
    cbn [collect_to]. destruct (Z.leb_spec b e); [|lia]. f_equal. apply ordered_cons in Ho as [Ho1 Ho2].
    apply (IH (b + 1)); [done | | |].
    + intros i Hi. destruct (Hl (S i) ltac:(simpl; lia)) as [H1 H2]. rewrite Nat2Z.inj_succ in H1, H2.
      replace (b + Z.succ (Z.of_nat i)) with (b + 1 + Z.of_nat i) in H1, H2 by lia. split; [lia|].
      simpl in H2. by rewrite (proj2 (Z.eqb_neq _ _)) in H2 by lia.
    + intros n Hn'. specialize (Hn n ltac:(simpl length; lia)). simpl in Hn.
      by rewrite (proj2 (Z.eqb_neq _ _)) in Hn by lia.
    + eapply Forall_impl; [exact Ho2|]. simpl. lia.
Qed.

Lemma ordered_app_inv {A} (m1 m2 : list (Z * A)) : ordered (m1 ++ m2) -> ordered m2.
Proof. induction m1 as [|[k v] m1 IH]; simpl; [done|]. intros [H _]%ordered_cons. auto. Qed.

(** From the position of a key on, the map reads as before for that key and
    all greater ones. *)
Lemma find_iterator_lookup {A} k (m : list (Z * A)) n :
  ordered m -> map_lookup k m <> None -> k <= n -> map_lookup n (find_iterator k m) = map_lookup n m.
Proof.
  induction m as [|[k' v'] m IH]; simpl; [done|]. intros [H1 H2]%ordered_cons Hk Hn. destruct (Z.eqb_spec k k'); [done|].
  rewrite IH by done. destruct (Z.eqb_spec n k'); [|done]. exfalso. apply Hk, map_lookup_below.
  eapply Forall_impl; [exact H2|]. simpl. lia.
Qed.

Lemma mem_get_run b e l s : mem_inv s -> run_from (mem_contents s) b e l -> mem_get b e s = l.
Proof.
  intros (Ho & _ & _) [Hl Hn]. unfold mem_get. cbn [c_messages mem_contents] in *.
  destruct (find_iterator b (m_messages s)) as [|[k v] m'] eqn:E.
  - destruct l as [|x l]; [done|]. exfalso. destruct (Hl 0%nat ltac:(simpl; lia)) as [_ H].
    rewrite contents_of_lookup, Z.add_0_r, map_lookup_find, E in H; done.
  - rewrite <- E. pose proof (find_iterator_head _ _ _ _ _ E) as ->.
    destruct (find_iterator_suffix b (m_messages s)) as [pre Hpre].
    assert (ordered (find_iterator b (m_messages s))) as Ho' by (apply (ordered_app_inv pre); by rewrite <- Hpre).
    assert (map_lookup b (m_messages s) <> None) as Hb by (rewrite map_lookup_find, E; done).
    apply (collect_run e l b); [done | | |].
    + intros i Hi. destruct (Hl i Hi) as [H1 H2]. rewrite contents_of_lookup in H2.
      split; [done|]. rewrite find_iterator_lookup; [done | done | done | lia].
    + intros n Hr. specialize (Hn n Hr). rewrite contents_of_lookup in Hn.
      rewrite find_iterator_lookup; [done | done | done | lia].
    + rewrite E. simpl. constructor; [lia|]. rewrite E in Ho'. apply ordered_cons in Ho' as [_ Ho'].
      eapply Forall_impl; [exact Ho'|]. simpl. lia.
Qed.

#[export, refine] Instance MemoryStore_laws : StoreLaws MemoryStore := {
  st_inv := mem_inv;
  st_contents := mem_contents;
  st_storable _ := True;
  st_datable _ := True
}.
Proof.
  - by intros s (_ & H).
  - intros n m s (Ho & H) _ _. eexists. split_and!; [done | split; [by apply ordered_set | done] |].
    unfold mem_contents. simpl. by rewrite contents_of_set.
  - intros b e l s Hs _ _ Hr. cbn. f_equal. by apply mem_get_run.
  - done.
  - done.
  - done.
  - intros n s (Ho & H1 & H2) Hn. eexists. by split_and!.
  - intros n s (Ho & H1 & H2) Hn. eexists. by split_and!.
  - intros s (Ho & H1 & H2). eexists. split_and!; [done | split_and!; [done | apply seqnum_incr | done] | done].
  - intros s (Ho & H1 & H2). eexists. split_and!; [done | split_and!; [done | done | apply seqnum_incr] | done].
  - intros now s _ _. eexists. split_and!; [done | split_and!; [apply ordered_nil | apply seqnum_one | apply seqnum_one] | done].
Defined.
