(* ===== verification/FileStore.v ===== *)
(** * The file store ([src/C++/FileStore.h], [src/C++/FileStore.cpp])

    Four files per session. The disk is part of the store: what each file holds,
    and what the system calls to come will do, so that partial, interrupted and
    failing writes are in the model; the files can always be opened and read.
    Streams read what was written through their descriptor. The [fscanf]
    conversions are those of glibc on a 64-bit platform. *)
From S2P Require Import Prelude Convertors Values Scan DateTime TimeConvertors OrdMap SessionID MessageStore.

(** ** System calls *)

Inductive write_outcome :=
| Wrote (n : nat)       (* at most [n] bytes were written *)
| Interrupted           (* [EINTR] *)
| WriteFailed.          (* any other error *)

(** When the outcomes run out every write is complete and every sync succeeds. *)
Record Disk := mkDisk {
  d_body : option str;
  d_header : option str;
  d_seqnums : option str;
  d_session : option str;
  d_writes : list write_outcome;
  d_syncs : list bool
}.

Definition empty_disk : Disk := mkDisk None None None None [] [].

Definition with_body (d : Disk) (s : option str) : Disk := mkDisk s (d_header d) (d_seqnums d) (d_session d) (d_writes d) (d_syncs d).
Definition with_header (d : Disk) (s : option str) : Disk := mkDisk (d_body d) s (d_seqnums d) (d_session d) (d_writes d) (d_syncs d).
Definition with_seqnums (d : Disk) (s : option str) : Disk := mkDisk (d_body d) (d_header d) s (d_session d) (d_writes d) (d_syncs d).
Definition with_session (d : Disk) (s : option str) : Disk := mkDisk (d_body d) (d_header d) (d_seqnums d) s (d_writes d) (d_syncs d).
Definition with_writes (d : Disk) (o : list write_outcome) : Disk := mkDisk (d_body d) (d_header d) (d_seqnums d) (d_session d) o (d_syncs d).
Definition with_syncs (d : Disk) (o : list bool) : Disk := mkDisk (d_body d) (d_header d) (d_seqnums d) (d_session d) (d_writes d) o.

(** The loop of [writeAll], which tries again after [EINTR], or with
    [retry = false] the one [fflush] makes: the outcomes left, what was written,
    and whether that is everything. *)
Fixpoint write_loop (retry : bool) (outcomes : list write_outcome) (data : str) : list write_outcome * str * bool :=
  match data with
  | [] => (outcomes, [], true)
  | _ =>
      match outcomes with
      | [] => ([], data, true)
      | Interrupted :: outcomes => if retry then write_loop retry outcomes data else (outcomes, [], false)
      | WriteFailed :: outcomes => (outcomes, [], false)
      | Wrote n :: outcomes =>
          if (n =? 0)%nat then (outcomes, [], false)
          else
            let '(outcomes, written, ok) := write_loop retry outcomes (drop n data) in
            (outcomes, take n data ++ written, ok)
      end
  end.

(** [pwrite]: one call. *)
Definition pwrite (outcomes : list write_outcome) (data : str) : list write_outcome * str * bool :=
  match outcomes with
  | [] => ([], data, true)
  | Wrote n :: outcomes => (outcomes, take n data, (length data <=? n)%nat)
  | _ :: outcomes => (outcomes, [], false)
  end.

(** The file after [data] was written over its beginning. *)
Definition overwrite (data file : str) : str := data ++ drop (length data) file.

(** ** [fscanf] *)

Definition scan_char (c : ascii) (s : str) : option str :=
  match s with
  | d :: s => if bool_decide (c = d) then Some s else None
  | [] => None
  end.

(** ["%lu,%ld,%zu "]. *)
Definition scan_header (s : str) : option (Z * Z * Z * str) :=
  '(msgSeqNum, s) ← scan_u64 s;
  s ← scan_char ","%char s;
  '(offset, s) ← scan_i64 s;
  s ← scan_char ","%char s;
  '(size, s) ← scan_u64 s;
  Some (msgSeqNum, offset, size, skip_space s).

(** ["<number> : <number>"]. *)
Definition scan_pair (number : str -> option (Z * str)) (s : str) : option (Z * Z) :=
  '(sender, s) ← number s;
  s ← scan_char ":"%char (skip_space s);
  '(target, _) ← number (skip_space s);
  Some (sender, target).

Fixpoint take_token (n : nat) (s : str) : str :=
  match n, s with
  | S n, c :: s => if isspace c then [] else c :: take_token n s
  | _, _ => []
  end.

(** ["%31s"], read as a C string. *)
Definition scan_token (s : str) : option str :=
  match take_token 31 (skip_space s) with
  | [] => None
  | t => Some (c_str t)
  end.

(** ** The store *)

(** [fs_prefix] stands for the four file names: it is the one they share. The
    four streams are open or null together. *)
Record FileStore := mkFileStore {
  fs_cache : MemoryStore;
  fs_offsets : list (Z * (Z * Z));
  fs_prefix : str;
  fs_open : bool;
  fs_disk : Disk
}.

Definition fs_with_cache (s : FileStore) (c : MemoryStore) : FileStore :=
  mkFileStore c (fs_offsets s) (fs_prefix s) (fs_open s) (fs_disk s).
Definition fs_with_offsets (s : FileStore) (o : list (Z * (Z * Z))) : FileStore :=
  mkFileStore (fs_cache s) o (fs_prefix s) (fs_open s) (fs_disk s).
Definition fs_with_open (s : FileStore) (b : bool) : FileStore :=
  mkFileStore (fs_cache s) (fs_offsets s) (fs_prefix s) b (fs_disk s).
Definition fs_with_disk (s : FileStore) (d : Disk) : FileStore :=
  mkFileStore (fs_cache s) (fs_offsets s) (fs_prefix s) (fs_open s) d.

Definition fs_msgFileName (s : FileStore) : str := fs_prefix s ++ lit "body".
Definition fs_headerFileName (s : FileStore) : str := fs_prefix s ++ lit "header".
Definition fs_seqNumsFileName (s : FileStore) : str := fs_prefix s ++ lit "seqnums".
Definition fs_sessionFileName (s : FileStore) : str := fs_prefix s ++ lit "session".

Definition unable_to_write (fileName : str) : exn := IOException (lit "Unable to write to file " ++ fileName).

(** One step after another, an exception ending them. *)
Definition and_then {S} (r : S * result unit) (k : S -> S * result unit) : S * result unit :=
  match r with
  | (s, Ok _) => k s
  | (s, Throw e) => (s, Throw e)
  end.

(** A member function that uses the streams; with null streams its behaviour is
    undefined. *)
Definition with_streams {A} (s : FileStore) (f : FileStore -> FileStore * result A) : FileStore * result A :=
  if fs_open s then f s else (s, Throw Undefined).

(** [writeAll] to the descriptor of the body file, respectively the header
    file, which are in append mode. *)
Definition append_body (data : str) (s : FileStore) : FileStore * result unit :=
  let d := fs_disk s in
  let '(o, written, ok) := write_loop true (d_writes d) data in
  (fs_with_disk s (with_body (with_writes d o) (Some (default [] (d_body d) ++ written))),
   guard_or ok (unable_to_write (fs_msgFileName s))).

Definition append_header (data : str) (s : FileStore) : FileStore * result unit :=
  let d := fs_disk s in
  let '(o, written, ok) := write_loop true (d_writes d) data in
  (fs_with_disk s (with_header (with_writes d o) (Some (default [] (d_header d) ++ written))),
   guard_or ok (unable_to_write (fs_headerFileName s))).

(** [snprintf] with ["%lu"], and with ["%20.20lu"]. *)
Definition print_u64 (n : Z) : str := integer_digits n.
Definition print_20 (n : Z) : str := replicate (20 - length (integer_digits n)) "0"%char ++ integer_digits n.

Definition sizeOf64BitSeqNumFile : Z := 43.

Definition seqnum_record (sender target : Z) : str := print_20 sender ++ lit " : " ++ print_20 target.

Definition setSeqNum (s : FileStore) : FileStore * result unit :=
  with_streams s (fun s =>
    let d := fs_disk s in
    let '(o, written, ok) :=
      pwrite (d_writes d) (seqnum_record (m_nextSenderMsgSeqNum (fs_cache s)) (m_nextTargetMsgSeqNum (fs_cache s))) in
    (fs_with_disk s (with_seqnums (with_writes d o) (Some (overwrite written (default [] (d_seqnums d))))),
     guard_or ok (unable_to_write (fs_seqNumsFileName s)))).

(** [rewind], [fprintf] and [fflush]: a failure shows when the buffer is
    flushed. *)
Definition setSession (s : FileStore) : FileStore * result unit :=
  with_streams s (fun s =>
    match UtcTimeStampConvertor_convert (m_creationTime (fs_cache s)) 0 with
    | Throw e => (s, Throw e)
    | Ok text =>
        let d := fs_disk s in
        let '(o, written, ok) := write_loop false (d_writes d) text in
        (fs_with_disk s (with_session (with_writes d o) (Some (overwrite written (default [] (d_session d))))),
         guard_or ok (IOException (lit "Unable to flush file " ++ fs_sessionFileName s)))
    end).

(** ** Reading the files back *)

Fixpoint read_offsets (fuel : nat) (headerFile : str) (offsets : list (Z * (Z * Z))) : list (Z * (Z * Z)) :=
  match fuel with
  | O => offsets
  | S fuel =>
      match scan_header headerFile with
      | Some (msgSeqNum, offset, size, rest) => read_offsets fuel rest (map_set msgSeqNum (offset, size) offsets)
      | None => offsets
      end
  end.

Definition read_seqnums (seqNumsFile : str) (cache : MemoryStore) : MemoryStore :=
  let size := Z.of_nat (length seqNumsFile) in
  match (if size =? sizeOf64BitSeqNumFile then scan_pair scan_u64 seqNumsFile
         else '(sender, target) ← scan_pair scan_i32 seqNumsFile; Some (u64 sender, u64 target)) with
  | Some (sender, target) => mem_setNextTarget target (mem_setNextSender sender cache)
  | None => cache
  end.

Definition populateCache (s : FileStore) : FileStore * result unit :=
  let d := fs_disk s in
  let s := match d_header d with
           | Some file => fs_with_offsets s (read_offsets (S (length file)) file (fs_offsets s))
           | None => s
           end in
  let s := match d_seqnums d with
           | Some file => fs_with_cache s (read_seqnums file (fs_cache s))
           | None => s
           end in
  match file ← d_session d; scan_token file with
  | Some time =>
      match UtcTimeStampConvertor_of_string time with
      | Ok t => (fs_with_cache s (mem_setCreationTime t (fs_cache s)), Ok ())
      | Throw (FieldConvertError _) =>
          (s, Throw (IOException (lit "Unreadable creation time in " ++ fs_sessionFileName s ++ lit ": " ++ time)))
      | Throw e => (s, Throw e)
      end
  | None => (s, Ok ())
  end.

Definition fs_setNextSender (value : Z) (s : FileStore) : FileStore * result unit :=
  setSeqNum (fs_with_cache s (mem_setNextSender value (fs_cache s))).
Definition fs_setNextTarget (value : Z) (s : FileStore) : FileStore * result unit :=
  setSeqNum (fs_with_cache s (mem_setNextTarget value (fs_cache s))).
Definition fs_incrNextSender (s : FileStore) : FileStore * result unit :=
  setSeqNum (fs_with_cache s (mem_incrNextSender (fs_cache s))).
Definition fs_incrNextTarget (s : FileStore) : FileStore * result unit :=
  setSeqNum (fs_with_cache s (mem_incrNextTarget (fs_cache s))).

(** [fopen] with ["r+"], or else ["w+"]. *)
Definition touch (file : option str) : option str := Some (default [] file).

Definition fs_open_files (deleteFile : bool) (s : FileStore) : FileStore * result unit :=
  let s := fs_with_open s false in
  let s := if deleteFile then
             fs_with_disk s (with_session (with_seqnums (with_header (with_body (fs_disk s) None) None) None) None)
           else s in
  and_then (populateCache s) (fun s =>
    let d := fs_disk s in
    let setCreationTime := match d_session d with None => true | Some _ => false end in
    let d := with_body d (touch (d_body d)) in
    let d := with_header d (touch (d_header d)) in
    let d := with_seqnums d (touch (d_seqnums d)) in
    let d := with_session d (touch (d_session d)) in
    let s := fs_with_open (fs_with_disk s d) true in
    and_then (if setCreationTime then setSession s else (s, Ok ())) (fun s =>
      and_then (fs_setNextSender (m_nextSenderMsgSeqNum (fs_cache s)) s) (fun s =>
        fs_setNextTarget (m_nextTargetMsgSeqNum (fs_cache s)) s))).

(** ** Operations *)

(** [file_appendpath]; the constructor never gives an empty path. *)
Definition file_appendpath (path file : str) : str :=
  let last_ := default NUL (last path) in
  if bool_decide (last_ = "/"%char) || bool_decide (last_ = "\"%char) then path ++ file
  else path ++ lit "/" ++ file.

Definition file_prefix (path : str) (id : SessionID) : str :=
  let path := match path with [] => lit "." | _ => path end in
  let sessionid := SessionID.m_beginString id ++ lit "-" ++ m_senderCompID id ++ lit "-" ++ m_targetCompID id ++
                   match m_sessionQualifier id with [] => [] | q => lit "-" ++ q end in
  file_appendpath path (sessionid ++ lit ".").

(** The constructor, on the disk it finds. *)
Definition new_FileStore (now : DateTime) (path : str) (id : SessionID) (d : Disk) : FileStore * result unit :=
  let s := mkFileStore (new_MemoryStore now) [] (file_prefix path id) false d in
  match fs_open_files false s with
  | (s, Throw (IOException detail)) => (s, Throw (ConfigError (exn_what (IOException detail))))
  | r => r
  end.

Definition fs_set (msgSeqNum : Z) (msg : str) (s : FileStore) : FileStore * result bool :=
  with_streams s (fun s =>
    let offset := Z.of_nat (length (default [] (d_body (fs_disk s)))) in
    let size := Z.of_nat (length msg) in
    let header := print_u64 msgSeqNum ++ lit "," ++ print_u64 offset ++ lit "," ++ print_u64 size ++ lit " " in
    match and_then (append_body msg s) (append_header header) with
    | (s, Ok _) => (fs_with_offsets s (map_set msgSeqNum (offset, size) (fs_offsets s)), Ok true)
    | (s, Throw e) => (s, Throw e)
    end).

(** [get(SEQNUM, std::string&)]: [None] when the number is not stored. A
    negative offset cannot be sought; a short read throws. *)
Definition fs_get_one (msgSeqNum : Z) (s : FileStore) : result (option str) :=
  match map_lookup msgSeqNum (fs_offsets s) with
  | None => Ok None
  | Some (offset, size) =>
      if negb (fs_open s) then Throw Undefined
      else if offset <? 0 then Throw (IOException (lit "Unable to seek in file " ++ fs_msgFileName s))
      else
        let body := default [] (d_body (fs_disk s)) in
        if Z.of_nat (length body) - Z.min offset (Z.of_nat (length body)) <? size
        then Throw (IOException (lit "Unable to read from file " ++ fs_msgFileName s))
        else Ok (Some (c_str (substr body (Z.to_nat offset) (Z.to_nat size))))
  end.

(** The loop of [get(begin, end)], one turn for each of [count] numbers. *)
Fixpoint fs_get_loop (count : nat) (i : Z) (s : FileStore) : result (list str) :=
  match count with
  | O => Ok []
  | S count =>
      m ← fs_get_one i s;
      rest ← fs_get_loop count (i + 1) s;
      Ok (match m with Some msg => msg :: rest | None => rest end)
  end.

(** The numbers from [begin] to [end_]; the [i != 0] of the code ends a loop to
    the largest number, and any loop from [0]. *)
Definition fs_get (begin end_ : Z) (s : FileStore) : result (list str) :=
  fs_get_loop (if begin =? 0 then 0 else Z.to_nat (end_ + 1 - begin)) begin s.

(** [catch (std::exception &e) { throw IOException(e.what()); }] *)
Definition as_IOException {A} (r : result A) : result A :=
  match r with
  | Ok a => Ok a
  | Throw OutOfFuel => Throw OutOfFuel
  | Throw Undefined => Throw Undefined
  | Throw e => Throw (IOException (exn_what e))
  end.

Definition fs_reset (now : DateTime) (s : FileStore) : FileStore * result unit :=
  let s := fs_with_offsets (fs_with_cache s (mem_reset now (fs_cache s))) [] in
  let '(s, r) := and_then (fs_open_files true s) setSession in
  (s, as_IOException r).

(** [clock] is [UtcTimeStamp::now()]. *)
Definition fs_refresh (clock : DateTime) (s : FileStore) : FileStore * result unit :=
  let s := fs_with_offsets (fs_with_cache s (mem_reset clock (fs_cache s))) [] in
  let '(s, r) := fs_open_files false s in
  (s, as_IOException r).

(** ** Synchronous writes: [SyncFileStore] *)

Definition fdatasync (s : FileStore) : FileStore * bool :=
  match d_syncs (fs_disk s) with
  | [] => (s, true)
  | ok :: o => (fs_with_disk s (with_syncs (fs_disk s) o), ok)
  end.

Definition syncToDisk (messages seqNums : bool) (s : FileStore) : FileStore * result unit :=
  with_streams s (fun s =>
    let '(s, messages_ok) :=
      if messages then
        let '(s, ok) := fdatasync s in
        if ok then fdatasync s else (s, false)
      else (s, true) in
    if negb messages_ok
    then (s, Throw (IOException (lit "Unable to sync " ++ fs_msgFileName s ++ lit " or " ++ fs_headerFileName s ++ lit " to disk")))
    else
      let '(s, seqNums_ok) := if seqNums then fdatasync s else (s, true) in
      (s, guard_or seqNums_ok (IOException (lit "Unable to sync " ++ fs_seqNumsFileName s ++ lit " to disk")))).

Definition sync_set (msgSeqNum : Z) (msg : str) (s : FileStore) : FileStore * result bool :=
  match fs_set msgSeqNum msg s with
  | (s, Ok b) =>
      match syncToDisk true false s with
      | (s, Ok _) => (s, Ok b)
      | (s, Throw e) => (s, Throw e)
      end
  | r => r
  end.
Definition sync_setNextSender (value : Z) (s : FileStore) := and_then (fs_setNextSender value s) (syncToDisk false true).
Definition sync_setNextTarget (value : Z) (s : FileStore) := and_then (fs_setNextTarget value s) (syncToDisk false true).
Definition sync_incrNextSender (s : FileStore) := and_then (fs_incrNextSender s) (syncToDisk false true).
Definition sync_incrNextTarget (s : FileStore) := and_then (fs_incrNextTarget s) (syncToDisk false true).
Definition sync_reset (now : DateTime) (s : FileStore) := and_then (fs_reset now s) (syncToDisk true true).

(** ** The stores behind the interface *)

#[export] Instance FileStore_ops : MessageStore FileStore := {
  st_set := fs_set;
  st_get := fs_get;
  st_getNextSenderMsgSeqNum s := Ok (m_nextSenderMsgSeqNum (fs_cache s));
  st_getNextTargetMsgSeqNum s := Ok (m_nextTargetMsgSeqNum (fs_cache s));
  st_setNextSenderMsgSeqNum := fs_setNextSender;
  st_setNextTargetMsgSeqNum := fs_setNextTarget;
  st_incrNextSenderMsgSeqNum := fs_incrNextSender;
  st_incrNextTargetMsgSeqNum := fs_incrNextTarget;
  st_getCreationTime s := Ok (m_creationTime (fs_cache s));
  st_reset := fs_reset;
  st_refresh := fs_refresh
}.

(** A [FileStore] that is used as a [SyncFileStore]. *)
Record SyncFileStore := mkSyncFileStore { sync_base : FileStore }.

Definition on_base {A} (r : FileStore * result A) : SyncFileStore * result A := (mkSyncFileStore (fst r), snd r).

#[export] Instance SyncFileStore_ops : MessageStore SyncFileStore := {
  st_set n m s := on_base (sync_set n m (sync_base s));
  st_get b e s := fs_get b e (sync_base s);
  st_getNextSenderMsgSeqNum s := Ok (m_nextSenderMsgSeqNum (fs_cache (sync_base s)));
  st_getNextTargetMsgSeqNum s := Ok (m_nextTargetMsgSeqNum (fs_cache (sync_base s)));
  st_setNextSenderMsgSeqNum n s := on_base (sync_setNextSender n (sync_base s));
  st_setNextTargetMsgSeqNum n s := on_base (sync_setNextTarget n (sync_base s));
  st_incrNextSenderMsgSeqNum s := on_base (sync_incrNextSender (sync_base s));
  st_incrNextTargetMsgSeqNum s := on_base (sync_incrNextTarget (sync_base s));
  st_getCreationTime s := Ok (m_creationTime (fs_cache (sync_base s)));
  st_reset now s := on_base (sync_reset now (sync_base s));
  st_refresh clock s := on_base (fs_refresh clock (sync_base s))
}.

(** ** Printing and scanning numbers *)

(** A string whose first character, if any, is not of a class. *)
Definition starts_without (p : ascii -> bool) (s : str) : Prop := match s with c :: _ => p c = false | [] => True end.

Lemma digit_not_space c : IS_DIGIT c = true -> isspace c = false.
Proof.
  intros H%IS_DIGIT_spec. unfold isspace. apply orb_false_iff. split; [apply Z.eqb_neq; lia|].
  apply andb_false_iff. right. apply Z.leb_gt. lia.
Qed.

Lemma skip_space_not s : starts_without isspace s -> skip_space s = s.
Proof. destruct s as [|c s]; [done|]. simpl. by intros ->. Qed.

Lemma scan_digits_app d rest :
  all_digits d = true -> starts_without IS_DIGIT rest -> scan_digits (d ++ rest) = (d, rest).
Proof.
  intros Hd Hr. induction d as [|c d IH].
  - destruct rest as [|c rest]; [done|]. simpl in *. by rewrite Hr.
  - simpl in Hd. apply andb_true_iff in Hd as [Hc Hd]. simpl. by rewrite Hc, IH.
Qed.

Lemma scan_integer_digits d rest :
  all_digits d = true -> d <> [] -> starts_without IS_DIGIT rest -> scan_integer (d ++ rest) = Some (false, dec d, rest).
Proof.
  intros Hd Hne Hr. destruct d as [|c d]; [done|]. pose proof Hd as Hd'. simpl in Hd'. apply andb_true_iff in Hd' as [Hc _].
  unfold scan_integer. rewrite skip_space_not by (simpl; by apply digit_not_space).
  assert (bool_decide (c = "-"%char) = false /\ bool_decide (c = "+"%char) = false) as [E1 E2].
  { split; apply bool_decide_eq_false; intros ->; done. }
  cbn [app]. rewrite E1, E2. change (c :: d ++ rest) with ((c :: d) ++ rest). by rewrite scan_digits_app.
Qed.

Lemma scan_u64_digits d rest :
  all_digits d = true -> d <> [] -> seqnum (dec d) -> starts_without IS_DIGIT rest -> scan_u64 (d ++ rest) = Some (dec d, rest).
Proof.
  intros Hd Hne Hn Hr. unfold scan_u64. rewrite scan_integer_digits by done. cbn.
  unfold seqnum in Hn. rewrite (proj2 (Z.ltb_ge _ _)) by lia. done.
Qed.

Lemma print_u64_facts n : 0 <= n -> all_digits (print_u64 n) = true /\ dec (print_u64 n) = n /\ print_u64 n <> [].
Proof. intros Hn. destruct (integer_digits_spec n Hn) as (H1 & H2 & H3 & _). done. Qed.

Lemma print_20_facts n :
  seqnum n -> all_digits (print_20 n) = true /\ dec (print_20 n) = n /\ print_20 n <> [] /\ length (print_20 n) = 20%nat.
Proof.
  intros Hn. unfold seqnum in Hn. destruct (print_u64_facts n ltac:(lia)) as (H1 & H2 & H3). unfold print_20, print_u64 in *.
  pose proof (integer_digits_short 20 n ltac:(lia) ltac:(split; [lia|]; eapply Z.lt_trans; [apply Hn | done])) as Hl.
  split_and!.
  - by rewrite all_digits_app, replicate_zero_digits.
  - by rewrite replicate_zero_dec.
  - intros [_ ?]%app_nil. done.
  - rewrite length_app, length_replicate. lia.
Qed.

Lemma scan_u64_print n rest : seqnum n -> starts_without IS_DIGIT rest -> scan_u64 (print_u64 n ++ rest) = Some (n, rest).
Proof.
  intros Hn Hr. destruct (print_u64_facts n ltac:(unfold seqnum in Hn; lia)) as (H1 & H2 & H3).
  rewrite scan_u64_digits by (done || by rewrite H2). by rewrite H2.
Qed.

Lemma scan_i64_print n rest : 0 <= n < 2 ^ 63 -> starts_without IS_DIGIT rest -> scan_i64 (print_u64 n ++ rest) = Some (n, rest).
Proof.
  intros Hn Hr. destruct (print_u64_facts n ltac:(lia)) as (H1 & H2 & H3). unfold scan_i64.
  rewrite scan_integer_digits by done. cbn. rewrite H2. f_equal. f_equal. lia.
Qed.

(** ** The header file *)

(** An entry: a number, an offset, a size. *)
Definition header_entry (e : Z * (Z * Z)) : str :=
  let '(n, (offset, size)) := e in print_u64 n ++ lit "," ++ print_u64 offset ++ lit "," ++ print_u64 size ++ lit " ".

Definition entry_ok (bound : Z) (e : Z * (Z * Z)) : Prop :=
  let '(n, (offset, size)) := e in seqnum n /\ 0 <= offset /\ 0 <= size /\ offset + size <= bound.

Lemma header_entry_no_space e rest : starts_without isspace (header_entry e ++ rest) \/ ~ entry_ok (2 ^ 63 - 1) e.
Proof.
  destruct e as [n [o z]]. destruct (decide (0 <= n)) as [Hn|Hn]; [|right; unfold entry_ok, seqnum; lia].
  left. destruct (print_u64_facts n Hn) as (H1 & _ & H3). unfold header_entry. destruct (print_u64 n) as [|c d]; [done|].
  simpl in *. apply andb_true_iff in H1 as [H1 _]. by apply digit_not_space.
Qed.

Lemma scan_header_entry e rest :
  entry_ok (2 ^ 63 - 1) e -> starts_without isspace rest ->
  scan_header (header_entry e ++ rest) = Some (e.1, e.2.1, e.2.2, rest).
Proof.
  destruct e as [n [o z]]. intros (Hn & Ho & Hz & Hb) Hr. unfold scan_header, header_entry. rewrite <- !app_assoc.
  rewrite scan_u64_print by done. cbn [mbind option_bind]. cbn [lit list_ascii_of_string app scan_char].
  rewrite bool_decide_eq_true_2 by done. cbn [mbind option_bind]. rewrite scan_i64_print by (done || lia).
  cbn [mbind option_bind scan_char]. rewrite bool_decide_eq_true_2 by done. cbn [mbind option_bind]. rewrite scan_u64_print by (done || (unfold seqnum; lia)).
  cbn [mbind option_bind]. simpl. by rewrite skip_space_not.
Qed.

Definition apply_log (log : list (Z * (Z * Z))) (offsets : list (Z * (Z * Z))) : list (Z * (Z * Z)) :=
  fold_left (fun m e => map_set e.1 e.2 m) log offsets.

Definition header_text (log : list (Z * (Z * Z))) : str := concat (map header_entry log).

Lemma header_text_starts log rest : Forall (entry_ok (2 ^ 63 - 1)) log -> starts_without isspace rest -> starts_without isspace (header_text log ++ rest).
Proof.
  intros Hl Hr. destruct log as [|e log]; [done|]. apply Forall_cons in Hl as [He _]. unfold header_text. simpl. rewrite <- app_assoc.
  destruct (header_entry_no_space e (concat (map header_entry log) ++ rest)); [done | tauto].
Qed.

Lemma read_offsets_log log fuel offsets :
  Forall (entry_ok (2 ^ 63 - 1)) log -> (length log < fuel)%nat ->
  read_offsets fuel (header_text log) offsets = apply_log log offsets.
Proof.
  revert fuel offsets. induction log as [|e log IH]; intros fuel offsets Hl Hf; destruct fuel as [|fuel]; simpl in Hf; try lia; [done|].
  apply Forall_cons in Hl as [He Hl]. simpl. unfold header_text. simpl. fold (header_text log).
  rewrite scan_header_entry; [|done|].
  - rewrite IH by (done || lia). by destruct e as [n [o z]].
  - rewrite <- (app_nil_r (header_text log)). by apply header_text_starts.
Qed.

Lemma header_text_length log : (length log <= length (header_text log))%nat.
Proof.
  induction log as [|[n [o z]] log IH]; simpl; [lia|]. unfold header_text in *. simpl. rewrite !length_app. simpl. lia.
Qed.

Lemma header_text_snoc log e : header_text (log ++ [e]) = header_text log ++ header_entry e.
Proof. unfold header_text. rewrite map_app, concat_app. simpl. by rewrite app_nil_r. Qed.

(** ** Opening the files *)

(** The times a session file can hold: four digits of year. *)
Definition datable (t : DateTime) : Prop := valid_time t /\ -32044 <= m_date t /\ 0 <= getYear t <= 9999.

Lemma datable_text t :
  datable t ->
  exists text, UtcTimeStampConvertor_convert t 0 = Ok text /\ length text = 17%nat /\
    UtcTimeStampConvertor_convert (truncate t 0) 0 = Ok text /\
    scan_token text = Some text /\ UtcTimeStampConvertor_of_string text = Ok (truncate t 0).
Proof.
  intros (H1 & H2 & H3). destruct (timestamp_text t H1 H2 H3) as (text & E & Hl & Hf & Et).
  exists text. split_and!; [done | done | done | |].
  - assert (Forall (fun c => isspace c = false /\ c <> NUL) text) as Hs.
    { eapply Forall_impl; [exact Hf|]. intros c [H | [-> | ->]]; [split; [by apply digit_not_space|] | done | done].
      intros ->. done. }
    assert (forall n s, (length s <= n)%nat -> Forall (fun c => isspace c = false /\ c <> NUL) s -> take_token n s = s) as Ht.
    { induction n as [|n IH]; intros [|c s] Hn Hs'; simpl in Hn; [done | lia | done |].
      apply Forall_cons in Hs' as [[Hc _] Hs']. simpl. rewrite Hc, IH by (done || lia). done. }
    assert (forall s, Forall (fun c => isspace c = false /\ c <> NUL) s -> c_str s = s) as Hc.
    { induction 1 as [|c s [_ Hc] _ IH]; simpl; [done|]. by rewrite bool_decide_eq_false_2, IH by done. }
    unfold scan_token. rewrite skip_space_not by (destruct Hs as [|c s [? _]]; done).
    rewrite Ht by (done || lia). destruct text as [|c text]; [done|]. by rewrite Hc.
  - pose proof (timestamp_decode_encode t 0 H1 H2 H3) as R. rewrite E in R. exact R.
Qed.

Lemma datable_truncate t : datable t -> datable (truncate t 0).
Proof.
  intros (H1 & H2 & H3). split; [|done]. unfold valid_time in *. cbn [m_time truncate]. change (precision_factor 0) with NANOS_PER_SEC.
  unfold NANOS_PER_DAY, NANOS_PER_SEC in *. Z.div_mod_to_equations. lia.
Qed.

Lemma truncate_truncate t : truncate (truncate t 0) 0 = truncate t 0.
Proof.
  unfold truncate. cbn [m_date m_time]. f_equal. change (precision_factor 0) with NANOS_PER_SEC. unfold NANOS_PER_SEC.
  Z.div_mod_to_equations. lia.
Qed.

Lemma seqnum_record_length n m : seqnum n -> seqnum m -> length (seqnum_record n m) = 43%nat.
Proof.
  intros Hn Hm. unfold seqnum_record. rewrite !length_app.
  destruct (print_20_facts n Hn) as (_ & _ & _ & ->). destruct (print_20_facts m Hm) as (_ & _ & _ & ->). done.
Qed.

Lemma scan_pair_record n m : seqnum n -> seqnum m -> scan_pair scan_u64 (seqnum_record n m) = Some (n, m).
Proof.
  intros Hn Hm. destruct (print_20_facts n Hn) as (N1 & N2 & N3 & _). destruct (print_20_facts m Hm) as (M1 & M2 & M3 & _).
  unfold scan_pair, seqnum_record. rewrite scan_u64_digits by (done || by rewrite N2). cbn [mbind option_bind].
  change (skip_space (lit " : " ++ print_20 m)) with (lit ": " ++ print_20 m). cbn [lit list_ascii_of_string app scan_char].
  rewrite bool_decide_eq_true_2 by done. cbn [mbind option_bind].
  change (skip_space (" "%char :: print_20 m)) with (skip_space (print_20 m)). rewrite skip_space_not.
  - rewrite <- (app_nil_r (print_20 m)). rewrite scan_u64_digits by (done || by rewrite M2). cbn. by rewrite N2, M2.
  - destruct (print_20 m) as [|c d]; [done|]. simpl in *. apply andb_true_iff in M1 as [M1 _]. by apply digit_not_space.
Qed.

Lemma overwrite_shorter data file : (length file <= length data)%nat -> overwrite data file = data.
Proof. intros H. unfold overwrite. by rewrite drop_ge, app_nil_r. Qed.

(** A store whose files hold what the cache says, and whose writes succeed. *)
Record fs_holds (s : FileStore) (body : str) (log : list (Z * (Z * Z))) (text : str) : Prop := {
  fh_open : fs_open s = true;
  fh_disk : fs_disk s = mkDisk (Some body) (Some (header_text log))
              (Some (seqnum_record (m_nextSenderMsgSeqNum (fs_cache s)) (m_nextTargetMsgSeqNum (fs_cache s))))
              (Some text) [] [];
  fh_offsets : fs_offsets s = apply_log log [];
  fh_log : Forall (entry_ok (Z.of_nat (length body))) log;
  fh_sender : seqnum (m_nextSenderMsgSeqNum (fs_cache s));
  fh_target : seqnum (m_nextTargetMsgSeqNum (fs_cache s));
  fh_creation : datable (m_creationTime (fs_cache s));
  fh_session : UtcTimeStampConvertor_convert (m_creationTime (fs_cache s)) 0 = Ok text
}.

(** Writing the sequence numbers of the cache. *)
Lemma setSeqNum_ok s b h q t :
  fs_open s = true -> fs_disk s = mkDisk b h (Some q) t [] [] ->
  seqnum (m_nextSenderMsgSeqNum (fs_cache s)) -> seqnum (m_nextTargetMsgSeqNum (fs_cache s)) -> (length q <= 43)%nat ->
  setSeqNum s =
    (fs_with_disk s (mkDisk b h (Some (seqnum_record (m_nextSenderMsgSeqNum (fs_cache s)) (m_nextTargetMsgSeqNum (fs_cache s)))) t [] []), Ok ()).
Proof.
  intros Ho Hd Hs Ht Hq. unfold setSeqNum, with_streams. rewrite Ho, Hd. cbn [d_writes pwrite d_seqnums from_option id].
  rewrite overwrite_shorter by (rewrite seqnum_record_length by done; lia). done.
Qed.

Lemma setSession_ok s b h q old text :
  fs_open s = true -> fs_disk s = mkDisk b h q (Some old) [] [] ->
  UtcTimeStampConvertor_convert (m_creationTime (fs_cache s)) 0 = Ok text -> text <> [] -> (length old <= length text)%nat ->
  setSession s = (fs_with_disk s (mkDisk b h q (Some text) [] []), Ok ()).
Proof.
  intros Ho Hd Hc Hne Hl. unfold setSession, with_streams. rewrite Ho, Hc, Hd. cbn [d_writes].
  assert (write_loop false [] text = ([], text, true)) as -> by (by destruct text).
  cbn [d_session from_option id]. by rewrite overwrite_shorter.
Qed.

Lemma setNextSender_same s : fs_setNextSender (m_nextSenderMsgSeqNum (fs_cache s)) s = setSeqNum s.
Proof. by destruct s as [[ms sn tn ct] o p op d]. Qed.

Lemma setNextTarget_same s : fs_setNextTarget (m_nextTargetMsgSeqNum (fs_cache s)) s = setSeqNum s.
Proof. by destruct s as [[ms sn tn ct] o p op d]. Qed.

(** The last steps of [open]. *)
Lemma open_numbers s b h q t :
  fs_open s = true -> fs_disk s = mkDisk b h (Some q) t [] [] ->
  seqnum (m_nextSenderMsgSeqNum (fs_cache s)) -> seqnum (m_nextTargetMsgSeqNum (fs_cache s)) -> (length q <= 43)%nat ->
  and_then (fs_setNextSender (m_nextSenderMsgSeqNum (fs_cache s)) s) (fun s =>
        fs_setNextTarget (m_nextTargetMsgSeqNum (fs_cache s)) s) =
    (fs_with_disk s (mkDisk b h (Some (seqnum_record (m_nextSenderMsgSeqNum (fs_cache s)) (m_nextTargetMsgSeqNum (fs_cache s)))) t [] []), Ok ()).
Proof.
  intros Ho Hd Hs Ht Hq. rewrite setNextSender_same, (setSeqNum_ok _ b h q t) by done. cbn [and_then].
  rewrite setNextTarget_same. rewrite (setSeqNum_ok _ b h (seqnum_record (m_nextSenderMsgSeqNum (fs_cache s)) (m_nextTargetMsgSeqNum (fs_cache s))) t);
    [done | done | done | done | done |]. by rewrite seqnum_record_length.
Qed.

(** [open] where there are no files, as after they were deleted. *)
Lemma open_fresh s text :
  fs_disk s = mkDisk None None None None [] [] ->
  seqnum (m_nextSenderMsgSeqNum (fs_cache s)) -> seqnum (m_nextTargetMsgSeqNum (fs_cache s)) ->
  UtcTimeStampConvertor_convert (m_creationTime (fs_cache s)) 0 = Ok text -> text <> [] ->
  fs_open_files false s =
    (fs_with_disk (fs_with_open s true)
       (mkDisk (Some []) (Some []) (Some (seqnum_record (m_nextSenderMsgSeqNum (fs_cache s)) (m_nextTargetMsgSeqNum (fs_cache s))))
          (Some text) [] []), Ok ()).
Proof.
  intros Hd Hs Ht Hc Hne. destruct s as [[ms sn tn ct] o p op d]. cbn [fs_cache fs_disk m_nextSenderMsgSeqNum m_nextTargetMsgSeqNum m_creationTime] in *. subst d.
  unfold fs_open_files. cbn [fs_with_open fs_with_disk fs_disk fs_cache fs_offsets fs_prefix populateCache d_header d_seqnums d_session mbind option_bind and_then
    d_body touch from_option id with_body with_header with_seqnums with_session d_writes d_syncs].
  rewrite (setSession_ok _ (Some []) (Some []) (Some []) [] text) by (done || (simpl; lia)). cbn [and_then fs_with_disk fs_disk fs_cache].
  exact (open_numbers (mkFileStore (mkMemoryStore ms sn tn ct) o p true (mkDisk (Some []) (Some []) (Some []) (Some text) [] []))
           (Some []) (Some []) [] (Some text) eq_refl eq_refl Hs Ht (Nat.le_0_l 43)).
Qed.

Lemma open_delete s :
  fs_open_files true s = fs_open_files false (fs_with_disk s (mkDisk None None None None (d_writes (fs_disk s)) (d_syncs (fs_disk s)))).
Proof. done. Qed.

Lemma entry_ok_le b b' e : b <= b' -> entry_ok b e -> entry_ok b' e.
Proof. destruct e as [n [o z]]. unfold entry_ok. intuition lia. Qed.

(** [open] on the files a store left: they give back the offsets, the sequence
    numbers and the creation time to the second. *)
Lemma open_holds s0 body log text s :
  fs_holds s0 body log text -> Z.of_nat (length body) < 2 ^ 63 ->
  fs_disk s = fs_disk s0 -> fs_offsets s = [] ->
  fs_open_files false s =
    (mkFileStore (mkMemoryStore (m_messages (fs_cache s)) (m_nextSenderMsgSeqNum (fs_cache s0)) (m_nextTargetMsgSeqNum (fs_cache s0))
                    (truncate (m_creationTime (fs_cache s0)) 0))
       (fs_offsets s0) (fs_prefix s) true (fs_disk s0), Ok ()).
Proof.
  intros [_ Hd Ho Hl Hs Ht Hc Hx] Hb Hd' Ho'. destruct s0 as [[ms0 sn tn ct] o0 p0 op0 d0]. destruct s as [[ms sn' tn' ct'] o p op d].
  cbn [fs_cache fs_disk fs_offsets fs_prefix m_messages m_nextSenderMsgSeqNum m_nextTargetMsgSeqNum m_creationTime] in *. subst. destruct (datable_text ct Hc) as (text' & E & Hlen & E' & Etok & Edec). assert (text' = text) as -> by congruence.
  unfold fs_open_files, populateCache.
  cbn [fs_with_open fs_with_disk fs_with_offsets fs_with_cache fs_disk fs_cache fs_offsets fs_prefix d_header d_seqnums d_session mbind option_bind and_then
    d_body touch from_option id with_body with_header with_seqnums with_session d_writes d_syncs].
  rewrite read_offsets_log; [|eapply Forall_impl; [exact Hl|]; intros e; apply entry_ok_le; lia | pose proof (header_text_length log); lia].
  unfold read_seqnums. rewrite seqnum_record_length by done. cbn [Z.of_nat]. rewrite Z.eqb_refl.
  rewrite scan_pair_record by done. cbn [mem_setNextSender mem_setNextTarget m_messages m_nextSenderMsgSeqNum m_nextTargetMsgSeqNum m_creationTime].
  rewrite Etok, Edec. cbn [and_then fs_with_disk fs_with_open fs_disk fs_cache fs_with_cache fs_with_offsets d_body d_header d_seqnums d_session
    touch from_option id with_body with_header with_seqnums with_session d_writes d_syncs fs_offsets fs_prefix].
  set (r := seqnum_record sn tn).
  assert (length r <= 43)%nat as Hr by (subst r; by rewrite seqnum_record_length).
  exact (open_numbers (mkFileStore (mkMemoryStore ms sn tn (truncate ct 0)) (apply_log log []) p true
             (mkDisk (Some body) (Some (header_text log)) (Some r) (Some text) [] []))
           (Some body) (Some (header_text log)) r (Some text) eq_refl eq_refl Hs Ht Hr).
Qed.

(** ** The laws *)

Definition fs_inv (s : FileStore) : Prop := exists body log text, fs_holds s body log text.

(** What [get] returns for an offset and a size inside the body. *)
Definition read_back (body : str) (e : Z * Z) : str := c_str (substr body (Z.to_nat e.1) (Z.to_nat e.2)).

Definition fs_contents (s : FileStore) : Contents :=
  mkContents (contents_of (map (fun '(n, e) => (n, read_back (default [] (d_body (fs_disk s))) e)) (fs_offsets s)))
    (m_nextSenderMsgSeqNum (fs_cache s)) (m_nextTargetMsgSeqNum (fs_cache s)) (m_creationTime (fs_cache s)).

Lemma apply_log_snoc log e : apply_log (log ++ [e]) [] = map_set e.1 e.2 (apply_log log []).
Proof. unfold apply_log. by rewrite fold_left_app. Qed.

Lemma apply_log_ordered log : ordered (apply_log log []).
Proof. induction log as [|e log IH] using rev_ind; [apply ordered_nil|]. rewrite apply_log_snoc. by apply ordered_set. Qed.

Lemma apply_log_ok b log n e : Forall (entry_ok b) log -> map_lookup n (apply_log log []) = Some e -> entry_ok b (n, e).
Proof.
  intros Hl. induction log as [|e' log IH] using rev_ind; [done|]. apply Forall_app in Hl as [Hl He]. apply Forall_cons in He as [He _].
  rewrite apply_log_snoc. destruct (decide (n = e'.1)) as [->|Hne].
  - rewrite map_lookup_set by apply apply_log_ordered. intros [= <-]. destruct e'. exact He.
  - rewrite map_lookup_set_ne by done. by apply IH.
Qed.

Lemma fs_contents_lookup s n :
  c_messages (fs_contents s) !! n = read_back (default [] (d_body (fs_disk s))) <$> map_lookup n (fs_offsets s).
Proof. cbn [fs_contents c_messages]. by rewrite contents_of_lookup, map_lookup_fmap. Qed.

Lemma substr_app_inside (s t : str) (o z : Z) :
  0 <= o -> 0 <= z -> o + z <= Z.of_nat (length s) -> substr (s ++ t) (Z.to_nat o) (Z.to_nat z) = substr s (Z.to_nat o) (Z.to_nat z).
Proof.
  intros Ho Hz Hb. unfold substr. rewrite drop_app_le by lia. apply take_app_le. rewrite length_drop. lia.
Qed.

Lemma write_loop_all retry data : write_loop retry [] data = ([], data, true).
Proof. by destruct data. Qed.

Lemma fs_set_holds s body log text n m :
  fs_holds s body log text -> seqnum n ->
  let e := (n, (Z.of_nat (length body), Z.of_nat (length m))) in
  exists s', fs_set n m s = (s', Ok true) /\ fs_holds s' (body ++ m) (log ++ [e]) text /\ fs_cache s' = fs_cache s.
Proof.
  intros [Ho Hd Hof Hl Hs Ht Hc Hx] Hn e. destruct s as [c o p op d].
  cbn [fs_cache fs_disk fs_offsets fs_prefix fs_open] in *. subst op d o.
  unfold fs_set, with_streams, append_body, append_header.
  cbn [fs_open fs_disk d_writes d_body from_option id].
  rewrite write_loop_all.
  cbn [and_then guard_or fs_with_disk fs_disk with_body with_writes with_header d_writes d_header d_body d_seqnums d_session d_syncs from_option id].
  rewrite write_loop_all. cbn [guard_or]. eexists. split_and!; [done | | done]. split; try done.
  - cbn. by rewrite header_text_snoc.
  - cbn. by rewrite apply_log_snoc.
  - apply Forall_app_2; [eapply Forall_impl; [exact Hl|]; intros e'; apply entry_ok_le; rewrite length_app; lia|].
    apply Forall_singleton. unfold entry_ok. rewrite length_app. split_and!; done || lia.
Qed.

Lemma contents_after_set s s' body log text n m :
  fs_holds s body log text -> NUL ∉ m ->
  fs_holds s' (body ++ m) (log ++ [(n, (Z.of_nat (length body), Z.of_nat (length m)))]) text -> fs_cache s' = fs_cache s ->
  fs_contents s' = let c := fs_contents s in mkContents (<[n := m]> (c_messages c)) (c_sender c) (c_target c) (c_creation c).
Proof.
  intros H Hm H' Hca.
  assert (c_messages (fs_contents s') = <[n := m]> (c_messages (fs_contents s))) as E; [|unfold fs_contents in *; cbn in *; by rewrite E, Hca].
  apply map_eq. intros k. rewrite fs_contents_lookup, (fh_disk _ _ _ _ H'), (fh_offsets _ _ _ _ H'), apply_log_snoc. cbn [d_body from_option id fst snd].
  destruct (decide (k = n)) as [->|Hne].
  - rewrite lookup_insert_eq, map_lookup_set by apply apply_log_ordered. cbn. f_equal. unfold read_back. cbn [fst snd].
    rewrite !Nat2Z.id. unfold substr. rewrite drop_app_length, firstn_all. by apply c_str_no_null.
  - rewrite lookup_insert_ne, map_lookup_set_ne by done. rewrite fs_contents_lookup, (fh_disk _ _ _ _ H), (fh_offsets _ _ _ _ H).
    cbn [d_body from_option id]. destruct (map_lookup k (apply_log log [])) as [[o z]|] eqn:E; [|done]. cbn. f_equal. unfold read_back. cbn [fst snd].
    destruct (apply_log_ok _ _ _ _ (fh_log _ _ _ _ H) E) as (_ & ? & ? & ?). f_equal. by apply substr_app_inside.
Qed.

(** [get(SEQNUM)] reads what the contents say. *)
Lemma fs_get_one_ok s n : fs_inv s -> fs_get_one n s = Ok (c_messages (fs_contents s) !! n).
Proof.
  intros (body & log & text & [Ho Hd Hof Hl _ _ _ _]). rewrite fs_contents_lookup. unfold fs_get_one. rewrite Hof, Hd, Ho.
  cbn [negb d_body from_option id]. destruct (map_lookup n (apply_log log [])) as [[o z]|] eqn:E; [|done].
  destruct (apply_log_ok _ _ _ _ Hl E) as (_ & H1 & H2 & H3).
  rewrite (proj2 (Z.ltb_ge _ _)) by lia. rewrite (proj2 (Z.ltb_ge _ _)) by lia. done.
Qed.

Lemma fs_get_loop_ok s count b :
  fs_inv s -> fs_get_loop count b s = Ok (omap (fun n => c_messages (fs_contents s) !! n) (seqZ b (Z.of_nat count))).
Proof.
  intros Hi. revert b. induction count as [|count IH]; intros b; [done|]. cbn [fs_get_loop]. rewrite fs_get_one_ok by done.
  cbn [mbind result_bind]. rewrite IH. cbn [mbind result_bind].
  rewrite (seqZ_cons b) by lia. replace (Z.succ b) with (b + 1) by lia. replace (Z.pred (Z.of_nat (S count))) with (Z.of_nat count) by lia.
  cbn [omap list_omap]. by destruct (c_messages (fs_contents s) !! b).
Qed.

(** All the stored messages of a range, in order. *)
Lemma fs_get_ok s b e :
  fs_inv s -> 1 <= b -> fs_get b e s = Ok (omap (fun n => c_messages (fs_contents s) !! n) (seqZ b (e + 1 - b))).
Proof.
  intros Hi Hb. unfold fs_get. rewrite (proj2 (Z.eqb_neq _ _)) by lia. rewrite fs_get_loop_ok by done. do 2 f_equal.
  destruct (decide (0 <= e + 1 - b)); [by rewrite Z2Nat.id|]. rewrite Z2Nat.nonpos by lia. by rewrite (seqZ_nil b (e + 1 - b)) by lia.
Qed.

Lemma run_from_omap c b e l : run_from c b e l -> omap (fun n => c_messages c !! n) (seqZ b (e + 1 - b)) = l.
Proof.
  revert b. induction l as [|v l IH]; intros b [Hl Hn].
  - assert (forall n, n ∈ seqZ b (e + 1 - b) -> c_messages c !! n = None) as H.
    { intros n Hin%elem_of_seqZ. apply Hn. simpl. lia. }
    revert H. induction (seqZ b (e + 1 - b)) as [|x xs IHx]; intros H; [done|]. cbn. rewrite (H x) by left. apply IHx.
    intros n Hin. apply H. by right.
  - destruct (Hl 0%nat ltac:(simpl; lia)) as [He Hv]. rewrite Z.add_0_r in He, Hv. rewrite seqZ_cons by lia. cbn [omap list_omap].
    rewrite Hv. simpl. f_equal. replace (Z.succ b) with (b + 1) by lia. replace (Z.pred (e + 1 - b)) with (e + 1 - (b + 1)) by lia.
    apply IH. split.
    + intros i Hi. destruct (Hl (S i) ltac:(simpl; lia)) as [H1 H2]. rewrite Nat2Z.inj_succ in H1, H2.
      replace (b + 1 + Z.of_nat i) with (b + Z.succ (Z.of_nat i)) by lia. done.
    + intros n Hr. apply Hn. simpl length. lia.
Qed.

(** An operation that changes the counters of the cache and writes them. *)
Lemma write_numbers_holds s body log text c :
  fs_holds s body log text -> seqnum (m_nextSenderMsgSeqNum c) -> seqnum (m_nextTargetMsgSeqNum c) ->
  m_creationTime c = m_creationTime (fs_cache s) ->
  exists s', setSeqNum (fs_with_cache s c) = (s', Ok ()) /\ fs_holds s' body log text /\ fs_cache s' = c /\ fs_offsets s' = fs_offsets s /\
    d_body (fs_disk s') = d_body (fs_disk s).
Proof.
  intros [Ho Hd Hof Hl Hs Ht Hc Hx] H1 H2 H3. destruct s as [c0 o p op d].
  cbn [fs_cache fs_disk fs_offsets fs_prefix fs_open fs_with_cache] in *. subst op d o.
  rewrite (setSeqNum_ok _ (Some body) (Some (header_text log)) (seqnum_record (m_nextSenderMsgSeqNum c0) (m_nextTargetMsgSeqNum c0)) (Some text));
    [|done | done | done | done | by rewrite seqnum_record_length]. eexists. split_and!; try done.
  split; try done; cbn [fs_cache fs_with_disk fs_with_cache]; by rewrite H3.
Qed.

Lemma fs_reset_holds s body log text now :
  fs_holds s body log text -> datable now ->
  exists s' text', fs_reset now s = (s', Ok ()) /\ fs_holds s' [] [] text' /\ fs_contents s' = mkContents ∅ 1 1 now.
Proof.
  intros [Ho Hd Hof Hl Hs Ht Hc Hx] Hn. destruct (datable_text now Hn) as (t & E & Hlen & _). unfold fs_reset.
  rewrite open_delete. cbn [fs_disk fs_with_offsets fs_with_cache]. rewrite Hd. cbn [d_writes d_syncs].
  rewrite (open_fresh _ t) by (done || apply seqnum_one || (intros ->; done)). cbn [and_then].
  rewrite (setSession_ok _ (Some []) (Some []) (Some (seqnum_record 1 1)) t t) by (done || lia || (intros ->; done)).
  cbn. eexists _, t. split_and!; [done | | done]. split; done || apply seqnum_one.
Qed.

#[export, refine] Instance FileStore_laws : StoreLaws FileStore := {
  st_inv := fs_inv;
  st_contents := fs_contents;
  st_storable m := NUL ∉ m;
  st_datable := datable
}.
Proof.
  - intros s (body & log & text & []). done.
  - intros n m s (body & log & text & H) Hn Hm. destruct (fs_set_holds _ _ _ _ _ m H Hn) as (s' & E & H' & Hca).
    exists s'. split_and!; [done | by do 3 eexists | by eapply contents_after_set].
  - intros b e l s Hi Hb He Hr. cbn [st_get FileStore_ops]. rewrite fs_get_ok by done. f_equal. by apply run_from_omap.
  - done.
  - done.
  - done.
  - intros n s (body & log & text & H) Hn. pose proof (fh_target _ _ _ _ H).
    destruct (write_numbers_holds s body log text (mem_setNextSender n (fs_cache s)) H) as (s' & E & H' & Hc & Ho & Hb); try done.
    exists s'. split_and!; [done | by do 3 eexists |]. unfold fs_contents. by rewrite Hc, Ho, Hb.
  - intros n s (body & log & text & H) Hn. pose proof (fh_sender _ _ _ _ H).
    destruct (write_numbers_holds s body log text (mem_setNextTarget n (fs_cache s)) H) as (s' & E & H' & Hc & Ho & Hb); try done.
    exists s'. split_and!; [done | by do 3 eexists |]. unfold fs_contents. by rewrite Hc, Ho, Hb.
  - intros s (body & log & text & H). pose proof (fh_target _ _ _ _ H).
    destruct (write_numbers_holds s body log text (mem_incrNextSender (fs_cache s)) H) as (s' & E & H' & Hc & Ho & Hb); try done; [apply seqnum_incr|].
    exists s'. split_and!; [done | by do 3 eexists |]. unfold fs_contents. by rewrite Hc, Ho, Hb.
  - intros s (body & log & text & H). pose proof (fh_sender _ _ _ _ H).
    destruct (write_numbers_holds s body log text (mem_incrNextTarget (fs_cache s)) H) as (s' & E & H' & Hc & Ho & Hb); try done; [apply seqnum_incr|].
    exists s'. split_and!; [done | by do 3 eexists |]. unfold fs_contents. by rewrite Hc, Ho, Hb.
  - intros now s (body & log & text & H) Hn. destruct (fs_reset_holds _ _ _ _ now H Hn) as (s' & text' & E & H' & Hc).
    exists s'. split_and!; [done | by do 3 eexists | done].
Defined.

Lemma syncToDisk_ok m q s : fs_inv s -> syncToDisk m q s = (s, Ok ()).
Proof.
  intros (body & log & text & [Ho Hd _ _ _ _ _ _]). unfold syncToDisk, with_streams, fdatasync. rewrite Ho, Hd. cbn [d_syncs].
  destruct m, q; cbn [d_syncs negb guard_or]; rewrite ?Hd; cbn [d_syncs negb guard_or]; rewrite ?Hd; done.
Qed.

#[export, refine] Instance SyncFileStore_laws : StoreLaws SyncFileStore := {
  st_inv s := fs_inv (sync_base s);
  st_contents s := fs_contents (sync_base s);
  st_storable m := NUL ∉ m;
  st_datable := datable
}.
Proof.
  all: try done.
  - intros s. exact (@st_numbers FileStore _ FileStore_laws (sync_base s)).
  - intros n m s H Hn Hm. destruct (@st_set_spec FileStore _ FileStore_laws n m _ H Hn Hm) as (s' & E & H' & Hc). cbn in E.
    exists (mkSyncFileStore s'). split_and!; [|done|done]. cbn. unfold sync_set. by rewrite E, syncToDisk_ok.
  - intros b e l s. exact (@st_get_spec FileStore _ FileStore_laws b e l (sync_base s)).
  - intros n s H Hn. destruct (@st_setSender_spec FileStore _ FileStore_laws n _ H Hn) as (s' & E & H' & Hc). cbn in E.
    exists (mkSyncFileStore s'). split_and!; [|done|done]. cbn. unfold sync_setNextSender. rewrite E. cbn. by rewrite syncToDisk_ok.
  - intros n s H Hn. destruct (@st_setTarget_spec FileStore _ FileStore_laws n _ H Hn) as (s' & E & H' & Hc). cbn in E.
    exists (mkSyncFileStore s'). split_and!; [|done|done]. cbn. unfold sync_setNextTarget. rewrite E. cbn. by rewrite syncToDisk_ok.
  - intros s H. destruct (@st_incrSender_spec FileStore _ FileStore_laws _ H) as (s' & E & H' & Hc). cbn in E.
    exists (mkSyncFileStore s'). split_and!; [|done|done]. cbn. unfold sync_incrNextSender. rewrite E. cbn. by rewrite syncToDisk_ok.
  - intros s H. destruct (@st_incrTarget_spec FileStore _ FileStore_laws _ H) as (s' & E & H' & Hc). cbn in E.
    exists (mkSyncFileStore s'). split_and!; [|done|done]. cbn. unfold sync_incrNextTarget. rewrite E. cbn. by rewrite syncToDisk_ok.
  - intros now s H Hn. destruct (@st_reset_spec FileStore _ FileStore_laws now _ H Hn) as (s' & E & H' & Hc). cbn in E.
    exists (mkSyncFileStore s'). split_and!; [|done|done]. cbn. unfold sync_reset. rewrite E. cbn. by rewrite syncToDisk_ok.
Defined.

(** ** Durability: stores and restarts *)

(** What is done to a store, restarts of the process among it. *)
Inductive store_call :=
| CallSet (n : Z) (m : str)
| CallSetSender (n : Z)
| CallSetTarget (n : Z)
| CallIncrSender
| CallIncrTarget
| CallReset (now : DateTime)
| CallRefresh (clock : DateTime)
| CallRestart (clock : DateTime).

Definition call_ok (c : store_call) : Prop :=
  match c with
  | CallSet n m => seqnum n /\ NUL ∉ m
  | CallSetSender n | CallSetTarget n => seqnum n
  | CallReset now => datable now
  | _ => True
  end.

(** The bytes a call adds to the body file. *)
Definition call_size (c : store_call) : Z := match c with CallSet _ m => Z.of_nat (length m) | _ => 0 end.

Section Durability.
Context (path : str) (id : SessionID).

Definition do_call (c : store_call) (s : FileStore) : FileStore * result unit :=
  match c with
  | CallSet n m => let '(s, r) := fs_set n m s in (s, (fun _ => ()) <$> r)
  | CallSetSender n => fs_setNextSender n s
  | CallSetTarget n => fs_setNextTarget n s
  | CallIncrSender => fs_incrNextSender s
  | CallIncrTarget => fs_incrNextTarget s
  | CallReset now => fs_reset now s
  | CallRefresh clock => fs_refresh clock s
  | CallRestart clock => new_FileStore clock path id (fs_disk s)
  end.

Fixpoint do_calls (cs : list store_call) (s : FileStore) : FileStore * result unit :=
  match cs with
  | [] => (s, Ok ())
  | c :: cs => and_then (do_call c s) (do_calls cs)
  end.

(** The same calls on the contents: a restart or a refresh only cuts the
    creation time to the second. *)
Definition spec_call (c : store_call) (k : Contents) : Contents :=
  match c with
  | CallSet n m => mkContents (<[n := m]> (c_messages k)) (c_sender k) (c_target k) (c_creation k)
  | CallSetSender n => mkContents (c_messages k) n (c_target k) (c_creation k)
  | CallSetTarget n => mkContents (c_messages k) (c_sender k) n (c_creation k)
  | CallIncrSender => mkContents (c_messages k) (u64 (c_sender k + 1)) (c_target k) (c_creation k)
  | CallIncrTarget => mkContents (c_messages k) (c_sender k) (u64 (c_target k + 1)) (c_creation k)
  | CallReset now => mkContents ∅ 1 1 now
  | CallRefresh _ | CallRestart _ => mkContents (c_messages k) (c_sender k) (c_target k) (truncate (c_creation k) 0)
  end.

(** The size of the body file. *)
Definition body_size (s : FileStore) : Z := Z.of_nat (length (default [] (d_body (fs_disk s)))).

(** Opening the files of a store that holds gives its contents back. *)
Lemma reopen_holds s0 s body log text :
  fs_holds s0 body log text -> Z.of_nat (length body) < 2 ^ 63 -> fs_disk s = fs_disk s0 -> fs_offsets s = [] ->
  exists s', fs_open_files false s = (s', Ok ()) /\ fs_holds s' body log text /\
    fs_contents s' = spec_call (CallRestart (m_creationTime (fs_cache s0))) (fs_contents s0) /\ fs_disk s' = fs_disk s0.
Proof.
  intros H Hb Hd Ho. rewrite (open_holds _ _ _ _ _ H) by done. eexists. split_and!; [done | | done | done].
  destruct H as [Hop Hdi Hof Hl Hs Ht Hc Hx]. split; try done.
  - by apply datable_truncate.
  - cbn [fs_cache m_creationTime]. destruct (datable_text _ Hc) as (t & E & _ & E' & _). congruence.
Qed.

Lemma do_call_holds c s body log text :
  fs_holds s body log text -> call_ok c -> Z.of_nat (length body) + call_size c < 2 ^ 63 ->
  exists s' body' log' text', do_call c s = (s', Ok ()) /\ fs_holds s' body' log' text' /\
    fs_contents s' = spec_call c (fs_contents s) /\ Z.of_nat (length body') <= Z.of_nat (length body) + call_size c.
Proof.
  intros H Hc Hb.
  assert (forall k, seqnum (m_nextSenderMsgSeqNum k) -> seqnum (m_nextTargetMsgSeqNum k) -> m_creationTime k = m_creationTime (fs_cache s) ->
    exists s', setSeqNum (fs_with_cache s k) = (s', Ok ()) /\ fs_holds s' body log text /\
      fs_contents s' = mkContents (c_messages (fs_contents s)) (m_nextSenderMsgSeqNum k) (m_nextTargetMsgSeqNum k) (m_creationTime k)) as Hnum.
  { intros k H1 H2 H3. destruct (write_numbers_holds s body log text k H H1 H2 H3) as (s' & E & H' & Hk & Ho & Hbd).
    exists s'. split_and!; [done | done |]. unfold fs_contents. by rewrite Hk, Ho, Hbd. }
  pose proof (fh_sender _ _ _ _ H) as Hs. pose proof (fh_target _ _ _ _ H) as Ht.
  destruct c as [n m|n|n| | |now|clock|clock]; cbn [call_ok call_size do_call spec_call] in *.
  - destruct Hc as [Hn Hm]. destruct (fs_set_holds _ _ _ _ n m H Hn) as (s' & E & H' & Hca). rewrite E.
    do 4 eexists. split_and!; [done | exact H' | by eapply contents_after_set | rewrite length_app; lia].
  - destruct (Hnum (mem_setNextSender n (fs_cache s))) as (s' & E & H' & Hk); [done.. |]. exists s', body, log, text. split_and!; [done | done | by rewrite Hk | lia].
  - destruct (Hnum (mem_setNextTarget n (fs_cache s))) as (s' & E & H' & Hk); [done.. |]. exists s', body, log, text. split_and!; [done | done | by rewrite Hk | lia].
  - destruct (Hnum (mem_incrNextSender (fs_cache s))) as (s' & E & H' & Hk); [apply seqnum_incr | done | done |]. exists s', body, log, text. split_and!; [done | done | by rewrite Hk | lia].
  - destruct (Hnum (mem_incrNextTarget (fs_cache s))) as (s' & E & H' & Hk); [done | apply seqnum_incr | done |]. exists s', body, log, text. split_and!; [done | done | by rewrite Hk | lia].
  - destruct (fs_reset_holds _ _ _ _ now H Hc) as (s' & text' & E & H' & Hk). exists s', [], [], text'. split_and!; [done | done | done | simpl; lia].
  - unfold fs_refresh. destruct (reopen_holds s (fs_with_offsets (fs_with_cache s (mem_reset clock (fs_cache s))) []) body log text H) as (s' & E & H' & Hk & _); [lia | done | done |].
    rewrite E. exists s', body, log, text. split_and!; [done | done | done | lia].
  - unfold new_FileStore. destruct (reopen_holds s (mkFileStore (new_MemoryStore clock) [] (file_prefix path id) false (fs_disk s)) body log text H) as (s' & E & H' & Hk & _); [lia | done | done |].
    rewrite E. exists s', body, log, text. split_and!; [done | done | done | lia].
Qed.

Lemma do_calls_holds cs s body log text :
  fs_holds s body log text -> Forall call_ok cs -> Z.of_nat (length body) + foldr Z.add 0 (map call_size cs) < 2 ^ 63 ->
  exists s', do_calls cs s = (s', Ok ()) /\ fs_inv s' /\ fs_contents s' = fold_left (fun k c => spec_call c k) cs (fs_contents s).
Proof.
  revert s body log text. induction cs as [|c cs IH]; intros s body log text H Hc Hb.
  - exists s. split_and!; [done | by do 3 eexists | done].
  - apply Forall_cons in Hc as [Hc Hcs]. simpl in Hb.
    assert (0 <= foldr Z.add 0 (map call_size cs)) as Hpos.
    { clear. induction cs as [|c cs IH]; simpl; [lia|]. destruct c; simpl; lia. }
    destruct (do_call_holds c s body log text H Hc ltac:(lia)) as (s1 & body1 & log1 & text1 & E & H1 & Hk & Hb1).
    destruct (IH s1 body1 log1 text1 H1 Hcs ltac:(lia)) as (s' & E' & H' & Hk'). exists s'. cbn [do_calls]. rewrite E.
    split_and!; [done | done |]. rewrite Hk'. cbn [fold_left]. by rewrite Hk.
Qed.

Lemma new_FileStore_holds now : datable now -> exists s text, new_FileStore now path id empty_disk = (s, Ok ()) /\
  fs_holds s [] [] text /\ fs_contents s = mkContents ∅ 1 1 now.
Proof.
  intros Hn. destruct (datable_text now Hn) as (t & E & Hlen & _). unfold new_FileStore.
  rewrite (open_fresh _ t) by (done || apply seqnum_one || (intros ->; done)). cbn. eexists _, t. split_and!; [done | | done].
  split; done || apply seqnum_one.
Qed.

(** C15 A file store created on an empty disk and put through any sequence of
    messages, counter changes, resets, refreshes and restarts of the process,
    each restart rebuilding the store from the four files alone: no call
    throws, and what the store holds at the end is what the same calls make of
    the contents, the creation time cut to the second where the files were read
    back. The messages have no null character, the times four digits of year,
    and the body file stays below 2^63 bytes. *)
Theorem file_store_durable now cs :
  datable now -> Forall call_ok cs -> foldr Z.add 0 (map call_size cs) < 2 ^ 63 ->
  exists s s', new_FileStore now path id empty_disk = (s, Ok ()) /\ do_calls cs s = (s', Ok ()) /\
    fs_contents s' = fold_left (fun k c => spec_call c k) cs (mkContents ∅ 1 1 now) /\
    forall b e, 1 <= b -> fs_get b e s' = Ok (omap (fun n => c_messages (fs_contents s') !! n) (seqZ b (e + 1 - b))).
Proof.
  intros Hn Hcs Hb. destruct (new_FileStore_holds now Hn) as (s & text & E & H & Hk).
  destruct (do_calls_holds cs s [] [] text H Hcs Hb) as (s' & E' & H' & Hk').
  exists s, s'. split_and!; [done | done | by rewrite Hk', Hk |]. intros b e. by apply fs_get_ok.
Qed.
End Durability.

Definition sample_id : SessionID := new_SessionID (lit "FIX.4.2") (lit "A") (lit "B") [].
Definition sample_now : DateTime := DateTime_fraction 2024 2 29 23 59 58 987654321 9.
Definition sample_calls : list store_call :=
  [CallSet 1 (lit "first"); CallIncrSender; CallRestart sample_now; CallSet 2 (lit "second"); CallSetTarget 7; CallRestart sample_now].

Lemma sample_datable : datable sample_now.
Proof. unfold datable, valid_time. vm_compute. repeat split; discriminate. Qed.

Lemma file_store_durable_witness :
  Forall call_ok sample_calls /\
  exists s s', new_FileStore sample_now (lit "store") sample_id empty_disk = (s, Ok ()) /\ do_calls (lit "store") sample_id sample_calls s = (s', Ok ()) /\
    fs_contents s' = fold_left (fun k c => spec_call c k) sample_calls (mkContents ∅ 1 1 sample_now) /\
    forall b e, 1 <= b -> fs_get b e s' = Ok (omap (fun n => c_messages (fs_contents s') !! n) (seqZ b (e + 1 - b))).
Proof.
  assert (Forall call_ok sample_calls) as H.
  { unfold sample_calls, call_ok, seqnum. repeat (constructor; [try done; try (split; [lia|]; by_compute); try lia|]). constructor. }
  split; [exact H|]. apply file_store_durable; [exact sample_datable | exact H | vm_compute; reflexivity].
Defined.

(** ** Writes that fail *)

(** What is written is a front part, all of it exactly when the loop says so. *)
Lemma write_loop_spec retry outcomes data :
  let '(_, written, ok) := write_loop retry outcomes data in
  exists unwritten, data = written ++ unwritten /\ (ok = true <-> unwritten = []).
Proof.
  revert data. induction outcomes as [|x outcomes IH]; intros data; destruct data as [|c data]; try by (exists []).
  - exists []. by rewrite app_nil_r.
  - destruct x as [[|n]| |]; simpl.
    + by exists (c :: data).
    + specialize (IH (drop n data)). destruct (write_loop retry outcomes (drop n data)) as [[o w] ok].
      destruct IH as (u & Hu & Hok). exists u. split; [|done]. simpl. by rewrite <- app_assoc, <- Hu, take_drop.
    + destruct retry; [apply IH | by exists (c :: data)].
    + by exists (c :: data).
Qed.

(** How a file that is appended to ends up. *)
Definition appended (before after : option str) (data unwritten : str) : Prop :=
  exists written, after = Some (default [] before ++ written) /\ data = written ++ unwritten.

Lemma append_body_spec data s s' r :
  append_body data s = (s', r) ->
  exists unwritten, appended (d_body (fs_disk s)) (d_body (fs_disk s')) data unwritten /\
    fs_cache s' = fs_cache s /\ fs_offsets s' = fs_offsets s /\ fs_open s' = fs_open s /\ d_seqnums (fs_disk s') = d_seqnums (fs_disk s) /\
    d_header (fs_disk s') = d_header (fs_disk s) /\ d_session (fs_disk s') = d_session (fs_disk s) /\
    (r = Ok () /\ unwritten = [] \/ r = Throw (unable_to_write (fs_msgFileName s)) /\ unwritten <> []).
Proof.
  unfold append_body. pose proof (write_loop_spec true (d_writes (fs_disk s)) data) as Hw.
  destruct (write_loop true (d_writes (fs_disk s)) data) as [[o w] ok]. intros [= <- <-].
  destruct Hw as (u & Hu & Hok). exists u. split_and!; try done; [by exists w|]. destruct ok; simpl; [left | right].
  - split; [done | by apply Hok].
  - split; [done|]. intros Hn%Hok. done.
Qed.

Lemma append_header_spec data s s' r :
  append_header data s = (s', r) ->
  exists unwritten, appended (d_header (fs_disk s)) (d_header (fs_disk s')) data unwritten /\
    d_body (fs_disk s') = d_body (fs_disk s) /\ fs_cache s' = fs_cache s /\ fs_offsets s' = fs_offsets s /\ fs_open s' = fs_open s /\
    d_seqnums (fs_disk s') = d_seqnums (fs_disk s) /\ d_session (fs_disk s') = d_session (fs_disk s) /\
    (r = Ok () /\ unwritten = [] \/ r = Throw (unable_to_write (fs_headerFileName s)) /\ unwritten <> []).
Proof.
  unfold append_header. pose proof (write_loop_spec true (d_writes (fs_disk s)) data) as Hw.
  destruct (write_loop true (d_writes (fs_disk s)) data) as [[o w] ok]. intros [= <- <-].
  destruct Hw as (u & Hu & Hok). exists u. split_and!; try done; [by exists w|]. destruct ok; simpl; [left | right].
  - split; [done | by apply Hok].
  - split; [done|]. intros Hn%Hok. done.
Qed.

(** Appending to the body file leaves what could be read readable. *)
Lemma fs_get_one_append s s' n m :
  map_lookup n (fs_offsets s') = map_lookup n (fs_offsets s) -> fs_open s' = fs_open s ->
  (exists written, default [] (d_body (fs_disk s')) = default [] (d_body (fs_disk s)) ++ written) ->
  fs_get_one n s = Ok m -> fs_get_one n s' = Ok m.
Proof.
  intros Ho Hop [w Hb]. unfold fs_get_one. rewrite Ho, Hop. destruct (map_lookup n (fs_offsets s)) as [[o z]|]; [|done].
  destruct (negb (fs_open s)); [done|]. destruct (Z.ltb_spec o 0); [done|]. rewrite Hb.
  set (body := default [] (d_body (fs_disk s))).
  destruct (Z.ltb_spec (Z.of_nat (length body) - Z.min o (Z.of_nat (length body))) z); [done|].
  rewrite (proj2 (Z.ltb_ge _ _)) by (rewrite length_app; lia). intros <-. do 3 f_equal.
  destruct (decide (z <= 0)).
  - rewrite (Z2Nat.nonpos z) by lia. by unfold substr; rewrite !take_0.
  - apply substr_app_inside; lia.
Qed.

(** A message just appended is read back, cut at its first NUL. *)
Lemma fs_get_one_set n m s s' :
  ordered (fs_offsets s) -> fs_open s' = true ->
  fs_offsets s' = map_set n (Z.of_nat (length (default [] (d_body (fs_disk s)))), Z.of_nat (length m)) (fs_offsets s) ->
  default [] (d_body (fs_disk s')) = default [] (d_body (fs_disk s)) ++ m ->
  fs_get_one n s' = Ok (Some (c_str m)).
Proof.
  intros Ho Hop Hs Hb. unfold fs_get_one. rewrite Hs, map_lookup_set, Hop, Hb by done. cbn [negb].
  rewrite (proj2 (Z.ltb_ge _ 0)) by lia. rewrite (proj2 (Z.ltb_ge _ _)) by (rewrite length_app; lia).
  do 3 f_equal. unfold substr. rewrite !Nat2Z.id, drop_app_length, take_ge by lia. done.
Qed.


(** A store whose next write is cut short and whose write after that fails. *)
Definition failing_store : FileStore :=
  let s := fst (fs_set 1 (lit "first") (fst (new_FileStore sample_now (lit "store") sample_id empty_disk))) in
  fs_with_disk s (with_writes (fs_disk s) [Interrupted; Wrote 3; WriteFailed]).


(** ** Observations *)

(** A header entry that was cut short spoils what follows it: the message stored
    next is lost when the files are read back. *)
Lemma torn_header_loses_later :
  let s := fst (new_FileStore sample_now (lit "store") sample_id empty_disk) in
  let s := fst (fs_set 1 (lit "first") (fs_with_disk s (with_writes (fs_disk s) [Wrote 5; Wrote 2; WriteFailed]))) in
  let '(s2, r) := fs_set 2 (lit "second") s in
  let s3 := fst (new_FileStore sample_now (lit "store") sample_id (fs_disk s2)) in
  r = Ok true /\ fs_get 2 2 s2 = Ok [lit "second"] /\ fs_get 2 2 s3 = Ok [].
Proof. vm_compute. done. Qed.

(** A message with a null character comes back cut at it. *)
Lemma get_cuts_at_null :
  let s := fst (fs_set 1 [ "a"%char; NUL; "b"%char ] (fst (new_FileStore sample_now (lit "store") sample_id empty_disk))) in
  fs_get 1 1 s = Ok [[ "a"%char ]].
Proof. vm_compute. done. Qed.

(** The two stores differ on a range whose first number is not stored. *)
Lemma memory_get_needs_begin :
  let s := fst (fs_set 2 (lit "second") (fst (new_FileStore sample_now (lit "store") sample_id empty_disk))) in
  fs_get 1 2 s = Ok [lit "second"] /\ mem_get 1 2 (mem_set 2 (lit "second") (new_MemoryStore sample_now)) = [].
Proof. vm_compute. done. Qed.

(** Two sessions can share their files. *)
Lemma file_prefix_collides :
  file_prefix (lit "store") (new_SessionID (lit "FIX.4.2") (lit "A-B") (lit "C") []) =
  file_prefix (lit "store") (new_SessionID (lit "FIX.4.2") (lit "A") (lit "B-C") []).
Proof. reflexivity. Qed.
