(* ===== verification/FileLog.v ===== *)
(** * The file log ([src/C++/FileLog.h], [FileLog.cpp])

    Two files for a session, or for the transport itself, and numbered copies of them.
    The files are by name; which names the system opens and which renames it does is
    fixed; what is written to a stream that is open goes to the end of its file. *)
From S2P Require Import Prelude Convertors Values DateTime TimeConvertors SessionID TextMap Settings.
From S2P Require FileStore RoundTrip.

Definition FILE_LOG_PATH : str := lit "FileLogPath".
Definition FILE_LOG_BACKUP_PATH : str := lit "FileLogBackupPath".
Definition FILE_LOG_FLUSH : str := lit "FileLogFlush".

Abbreviation Files := (gmap str str).

Class FileSystem := {
  can_open : str -> bool;             (* for writing *)
  can_rename : str -> str -> bool;    (* not, for instance, onto another device *)
  log_now : nat -> DateTime           (* the clock at its [n]th reading *)
}.

(** [m_messages] and [m_event] by whether they are open. *)
Record FileLog := mkFileLog {
  l_messages : bool;
  l_event : bool;
  m_messagesFileName : str;
  m_eventFileName : str;
  m_fullPrefix : str;
  m_fullBackupPrefix : str
}.

Definition with_streams (messages event : bool) (l : FileLog) : FileLog :=
  mkFileLog messages event (m_messagesFileName l) (m_eventFileName l) (m_fullPrefix l) (m_fullBackupPrefix l).

Section Logs.
Context `{FileSystem}.
Implicit Types (files : Files) (l : FileLog).

(** [open] with [std::ios::app] and with [std::ios::trunc]. *)
Definition open_app (name : str) files : bool * Files :=
  if can_open name then (true, <[name := default [] (files !! name)]> files) else (false, files).
Definition open_trunc (name : str) files : bool * Files :=
  if can_open name then (true, <[name := []]> files) else (false, files).

Definition file_rename (oldpath newpath : str) files : Files :=
  match files !! oldpath with
  | Some contents => if can_rename oldpath newpath then <[newpath := contents]> (delete oldpath files) else files
  | None => files
  end.

(** What a stream does with a line. *)
Definition write_line (is_open : bool) (name line : str) files : Files :=
  if is_open then <[name := default [] (files !! name) ++ line]> files else files.

(** ** [FileLog] *)

Definition generatePrefix (s : SessionID) : str :=
  m_beginString s ++ lit "-" ++ m_senderCompID s ++ lit "-" ++ m_targetCompID s ++
  match m_sessionQualifier s with [] => [] | qualifier => lit "-" ++ qualifier end.

Definition init (path backupPath prefix : str) files : Files * result FileLog :=
  let path := match path with [] => lit "." | _ => path end in
  let backupPath := match backupPath with [] => path | _ => backupPath end in
  let fullPrefix := FileStore.file_appendpath path (prefix ++ lit ".") in
  let fullBackupPrefix := FileStore.file_appendpath backupPath (prefix ++ lit ".") in
  let messagesFileName := fullPrefix ++ lit "messages.current.log" in
  let eventFileName := fullPrefix ++ lit "event.current.log" in
  let '(messages, files) := open_app messagesFileName files in
  if negb messages then (files, Throw (ConfigError (lit "Could not open messages file: " ++ messagesFileName)))
  else
    let '(event, files) := open_app eventFileName files in
    if negb event then (files, Throw (ConfigError (lit "Could not open event file: " ++ eventFileName)))
    else (files, Ok (mkFileLog true true messagesFileName eventFileName fullPrefix fullBackupPrefix)).

Definition new_FileLog_global (path backupPath : str) : Files -> Files * result FileLog := init path backupPath (lit "GLOBAL").
Definition new_FileLog (path backupPath : str) (s : SessionID) : Files -> Files * result FileLog := init path backupPath (generatePrefix s).

(** Both streams are closed and opened again, empty. *)
Definition clear l files : FileLog * Files :=
  let '(messages, files) := open_trunc (m_messagesFileName l) files in
  let '(event, files) := open_trunc (m_eventFileName l) files in
  (with_streams messages event l, files).

Definition messages_backup l (i : nat) : str := m_fullBackupPrefix l ++ lit "messages.backup." ++ to_string_int (Z.of_nat i) ++ lit ".log".
Definition event_backup l (i : nat) : str := m_fullBackupPrefix l ++ lit "event.backup." ++ to_string_int (Z.of_nat i) ++ lit ".log".

(** Whether one of the copies with this number is there. *)
Definition taken l (i : nat) files : bool := bool_decide (is_Some (files !! messages_backup l i)) || bool_decide (is_Some (files !! event_backup l i)).

(** The loop of [backup], from the number [i]; [None] when it runs out of fuel. *)
Fixpoint free_number (fuel i : nat) l files : option nat :=
  match fuel with
  | O => None
  | Datatypes.S fuel => if taken l i files then free_number fuel (i + 1) l files else Some i
  end.

Definition backup l files : result (FileLog * Files) :=
  i ← of_option OutOfFuel (free_number (size files + 1) 1 l files);
  let files := file_rename (m_messagesFileName l) (messages_backup l i) files in
  let files := file_rename (m_eventFileName l) (event_backup l i) files in
  mret (clear l files).

(** A line with the time before it; the clock's reading [n]. *)
Definition line_of (n : nat) (value : str) : result str :=
  time ← UtcTimeStampConvertor_convert (log_now n) 9;
  mret (time ++ lit " : " ++ value ++ ["010"%char]).

Definition onIncoming (n : nat) (value : str) l files : result Files :=
  line ← line_of n value; mret (write_line (l_messages l) (m_messagesFileName l) line files).
Definition onOutgoing (n : nat) (value : str) l files : result Files :=
  line ← line_of n value; mret (write_line (l_messages l) (m_messagesFileName l) line files).
Definition onEvent (n : nat) (value : str) l files : result Files :=
  line ← line_of n value; mret (write_line (l_event l) (m_eventFileName l) line files).

(** ** [FileLogFactory] *)

(** Logs by address; [m_globalLog] is the null pointer at first. *)
Record FileLogFactory := mkFileLogFactory {
  f_path : str;
  f_backupPath : str;
  f_settings : SessionSettings;
  m_globalLog : option nat;
  m_globalLogCount : Z;
  f_logs : gmap nat FileLog;
  f_next : nat
}.

Definition with_global (globalLog : option nat) (count : Z) (f : FileLogFactory) : FileLogFactory :=
  mkFileLogFactory (f_path f) (f_backupPath f) (f_settings f) globalLog count (f_logs f) (f_next f).
Definition with_logs (logs : gmap nat FileLog) (next : nat) (f : FileLogFactory) : FileLogFactory :=
  mkFileLogFactory (f_path f) (f_backupPath f) (f_settings f) (m_globalLog f) (m_globalLogCount f) logs next.

Definition new_FileLogFactory (path backupPath : str) (settings : SessionSettings) : FileLogFactory :=
  mkFileLogFactory path backupPath settings None 0 ∅ 0.

(** A log that was constructed gets an address. *)
Definition new_log (r : Files * result FileLog) (f : FileLogFactory) : FileLogFactory * Files * result nat :=
  match r with
  | (files, Ok l) => (with_logs (<[f_next f := l]> (f_logs f)) (Datatypes.S (f_next f)) f, files, Ok (f_next f))
  | (files, Throw e) => (f, files, Throw e)
  end.

(** The paths of settings. *)
Definition paths_of (settings : Dictionary) : result (str * str) :=
  path ← getString settings FILE_LOG_PATH false;
  backupPath ← (if dict_has settings FILE_LOG_BACKUP_PATH then getString settings FILE_LOG_BACKUP_PATH false else mret path);
  mret (path, backupPath).

(** [create()]; the result is a pointer, which may be null. *)
Definition create_global (f : FileLogFactory) files : FileLogFactory * Files * result (option nat) :=
  let f := with_global (m_globalLog f) (m_globalLogCount f + 1) f in
  if 1 <? m_globalLogCount f then (f, files, Ok (m_globalLog f))
  else if negb (bool_decide (f_path f = [])) then
    let '(f, files, r) := new_log (new_FileLog_global (f_path f) (f_path f) files) f in (f, files, Some <$> r)
  else
    let made := match paths_of (m_defaults (f_settings f)) with
                | Ok (path, backupPath) => new_log (new_FileLog_global path backupPath files) f
                | Throw e => (f, files, Throw e)
                end in
    match made with
    | (f, files, Ok p) => (with_global (Some p) (m_globalLogCount f) f, files, Ok (Some p))
    | (f, files, Throw (ConfigError d)) => (with_global (m_globalLog f) (m_globalLogCount f - 1) f, files, Throw (ConfigError d))
    | (f, files, Throw e) => (f, files, Throw e)
    end.

(** [create(s)]; a buffered log writes the same lines later. *)
Definition create_session (s : SessionID) (f : FileLogFactory) files : FileLogFactory * Files * result nat :=
  if negb (bool_decide (f_path f = [])) && negb (bool_decide (f_backupPath f = [])) then new_log (new_FileLog (f_path f) (f_backupPath f) s files) f
  else if negb (bool_decide (f_path f = [])) then new_log (new_FileLog (f_path f) (f_path f) s files) f
  else
    let settings :=
      d ← settings_of (f_settings f) s;
      paths ← paths_of d;
      _ ← (if dict_has d FILE_LOG_FLUSH then _ ← getBool d FILE_LOG_FLUSH; mret () else mret ());
      mret paths in
    match settings with
    | Throw e => (f, files, Throw e)
    | Ok (path, backupPath) => new_log (new_FileLog path backupPath s files) f
    end.

(** [destroy(pLog)] *)
Definition destroy_log (p : option nat) (f : FileLogFactory) : FileLogFactory :=
  let same := bool_decide (p = m_globalLog f) in
  let f := if same then with_global (m_globalLog f) (m_globalLogCount f - 1) f else f in
  if negb same || (m_globalLogCount f =? 0) then
    match p with Some p => with_logs (delete p (f_logs f)) (f_next f) f | None => f end
  else f.
End Logs.

(** ** Names *)

Section Names.
Implicit Types (l : FileLog) (files : Files) (i k : nat).

Lemma number_inj i k : Z.of_nat i < 2 ^ 31 -> Z.of_nat k < 2 ^ 31 -> to_string_int (Z.of_nat i) = to_string_int (Z.of_nat k) -> i = k.
Proof.
  intros Hi Hk E. pose proof (RoundTrip.IntT_of_string_chars (Z.of_nat i)) as Ei. pose proof (RoundTrip.IntT_of_string_chars (Z.of_nat k)) as Ek.
  unfold to_string_int in E. rewrite E, Ek in Ei by lia. injection (Ei ltac:(lia)). lia.
Qed.

Lemma messages_backup_inj l i k : Z.of_nat i < 2 ^ 31 -> Z.of_nat k < 2 ^ 31 -> messages_backup l i = messages_backup l k -> i = k.
Proof. intros Hi Hk E%app_inv_head%app_inv_head%app_inv_tail. by apply number_inj. Qed.
Lemma event_backup_inj l i k : Z.of_nat i < 2 ^ 31 -> Z.of_nat k < 2 ^ 31 -> event_backup l i = event_backup l k -> i = k.
Proof. intros Hi Hk E%app_inv_head%app_inv_head%app_inv_tail. by apply number_inj. Qed.
Lemma messages_not_event l i k : messages_backup l i <> event_backup l k.
Proof. intros E%app_inv_head. discriminate E. Qed.

(** ** A number is found *)

Lemma free_number_Some fuel i l files j :
  free_number fuel i l files = Some j -> (i <= j)%nat /\ taken l j files = false /\ forall k, (i <= k < j)%nat -> taken l k files = true.
Proof.
  revert i. induction fuel as [|fuel IH]; intros i; simpl; [done|]. destruct (taken l i files) eqn:E.
  - intros (H1 & H2 & H3)%IH. split_and!; [lia | done|]. intros k Hk. destruct (decide (k = i)) as [->|]; [done|]. apply H3. lia.
  - intros [= <-]. split_and!; [lia | done | lia].
Qed.

Lemma free_number_None fuel i l files k : free_number fuel i l files = None -> (i <= k < i + fuel)%nat -> taken l k files = true.
Proof.
  revert i. induction fuel as [|fuel IH]; intros i; simpl; [lia|]. destruct (taken l i files) eqn:E; [|done]. intros Hn Hk.
  destruct (decide (k = i)) as [->|]; [done|]. apply (IH (i + 1)%nat); [done | lia].
Qed.

Lemma free_number_bound fuel i l files j : free_number fuel i l files = Some j -> (j < i + fuel)%nat.
Proof. revert i. induction fuel as [|fuel IH]; intros i; simpl; [done|]. destruct (taken l i files); [intros Hj%IH; lia | intros [= <-]; lia]. Qed.

(** The copy that is there. *)
Definition copy_name l files k : str := if bool_decide (is_Some (files !! messages_backup l k)) then messages_backup l k else event_backup l k.

Lemma free_number_enough l (files : Files) : Z.of_nat (size files) + 2 < 2 ^ 31 -> is_Some (free_number (size files + 1) 1 l files).
Proof.
  intros Hsize. destruct (free_number (size files + 1) 1 l files) as [i|] eqn:E; [by exists i|]. exfalso.
  set (names := map (copy_name l files) (seq 1 (size files + 1))).
  assert (NoDup names) as Hnd.
  { apply NoDup_fmap_2_strong; [|apply NoDup_ListNoDup, seq_NoDup]. intros i k Hi%elem_of_seq Hk%elem_of_seq. unfold copy_name.
    repeat case_bool_decide; intros Eq; [by eapply messages_backup_inj; [..|exact Eq]; lia | by apply messages_not_event in Eq
      | by symmetry in Eq; apply messages_not_event in Eq | by eapply event_backup_inj; [..|exact Eq]; lia]. }
  assert ((list_to_set names : gset str) ⊆ dom files) as Hsub.
  { intros name Hn%elem_of_list_to_set. unfold names in Hn. apply list_elem_of_In, in_map_iff in Hn as (k & <- & Hk%list_elem_of_In%elem_of_seq).
    apply elem_of_dom. unfold copy_name. case_bool_decide as Em; [done|]. pose proof (free_number_None _ _ _ _ k E) as Ht. unfold taken in Ht.
    rewrite bool_decide_eq_false_2 in Ht by done. simpl in Ht. apply bool_decide_eq_true in Ht; [done | lia]. }
  apply subseteq_size in Hsub. rewrite (size_list_to_set (C := gset str)) in Hsub by done. rewrite (size_dom (D := gset str)) in Hsub. unfold names in Hsub. rewrite length_map, length_seq in Hsub. lia.
Qed.
End Names.

(** ** What a backup keeps *)

Lemma current_not_copy (a b : str) i : Z.of_nat i < 2 ^ 31 -> a ++ lit "t.log" <> b ++ to_string_int (Z.of_nat i) ++ lit ".log".
Proof.
  intros Hi E. change (lit "t.log") with (["t"%char] ++ lit ".log") in E. rewrite !app_assoc in E. apply app_inv_tail in E.
  pose proof (RoundTrip.IntConvertor_digits (Z.of_nat i) ltac:(lia)) as Hd. pose proof (RoundTrip.IntT_of_string_chars (Z.of_nat i) ltac:(lia)) as Hv.
  unfold to_string_int in E. destruct (IntConvertor_convert (Z.of_nat i)) as [|c s _] using rev_ind; [discriminate Hv|].
  rewrite app_assoc in E. apply app_inj_tail in E as [_ <-]. unfold all_digits in Hd. rewrite forallb_app in Hd. apply andb_prop in Hd as [_ Hd]. discriminate Hd.
Qed.

(** As [init] names its files. *)
Definition well_named (l : FileLog) : Prop :=
  m_messagesFileName l = m_fullPrefix l ++ lit "messages.current.log" /\ m_eventFileName l = m_fullPrefix l ++ lit "event.current.log".

Section Backup.
Context `{FileSystem}.
Implicit Types (l : FileLog) (files : Files) (i : nat) (name : str).

Lemma init_named path backupPath prefix files : forall files' l, init path backupPath prefix files = (files', Ok l) -> well_named l /\ l_messages l = true /\ l_event l = true.
Proof.
  intros files' l. unfold init. cbv zeta. destruct (open_app _ files) as [[] files1]; [|done]. cbn [negb].
  destruct (open_app _ files1) as [[] files2]; [|done]. intros [= _ <-]. done.
Qed.

Lemma current_names l i : well_named l -> Z.of_nat i < 2 ^ 31 ->
  m_messagesFileName l <> m_eventFileName l /\
  m_messagesFileName l <> messages_backup l i /\ m_messagesFileName l <> event_backup l i /\
  m_eventFileName l <> messages_backup l i /\ m_eventFileName l <> event_backup l i.
Proof.
  intros [E1 E2] Hi. rewrite E1, E2. unfold messages_backup, event_backup. split; [by intros E%app_inv_head|].
  change (lit "messages.current.log") with (lit "messages.curren" ++ lit "t.log"). change (lit "event.current.log") with (lit "event.curren" ++ lit "t.log").
  rewrite !(app_assoc (m_fullPrefix l)), !(app_assoc (m_fullBackupPrefix l)). split_and!; by apply current_not_copy.
Qed.

Lemma file_rename_lookup o n files name :
  can_rename o n = true -> o <> n -> files !! n = None ->
  file_rename o n files !! name = if decide (name = n) then files !! o else if decide (name = o) then None else files !! name.
Proof.
  intros Hr Hne Hn. unfold file_rename. destruct (files !! o) as [c|] eqn:E.
  - rewrite Hr, lookup_insert. repeat case_decide; subst; try done; [by rewrite lookup_delete_eq | by rewrite lookup_delete_ne by congruence].
  - repeat case_decide; subst; done.
Qed.

Lemma clear_lookup l files name : name <> m_messagesFileName l -> name <> m_eventFileName l -> (clear l files).2 !! name = files !! name.
Proof.
  intros H1 H2. unfold clear, open_trunc. destruct (can_open (m_messagesFileName l)), (can_open (m_eventFileName l)); cbn [snd];
    rewrite ?lookup_insert_ne by congruence; done.
Qed.

(** A backup ends. With a system that can rename its files it puts what both held under
    the first number that neither copy has, and touches no other file, so that nothing
    that was logged before is lost. *)
Theorem backup_keeps l files :
  well_named l -> Z.of_nat (size files) + 2 < 2 ^ 31 -> (forall o n, can_rename o n = true) ->
  exists i l' files', backup l files = Ok (l', files') /\
    (1 <= i)%nat /\ taken l i files = false /\ (forall k, (1 <= k < i)%nat -> taken l k files = true) /\
    files' !! messages_backup l i = files !! m_messagesFileName l /\ files' !! event_backup l i = files !! m_eventFileName l /\
    forall name, name ∉ [m_messagesFileName l; m_eventFileName l; messages_backup l i; event_backup l i] -> files' !! name = files !! name.
Proof.
  intros Hl Hsize Hr. destruct (free_number_enough l files Hsize) as [i Ei]. pose proof (free_number_Some _ _ _ _ _ Ei) as (H1 & H2 & H3).
  assert (Z.of_nat i < 2 ^ 31) as Hi.
  { destruct (decide (i <= size files + 1)%nat) as [|Hgt]; [lia|]. exfalso.
    pose proof (free_number_bound _ _ _ _ _ Ei). lia. }
  destruct (current_names l i Hl Hi) as (N1 & N2 & N3 & N4 & N5). pose proof (messages_not_event l i i) as N6.
  unfold taken in H2. apply orb_false_iff in H2 as [T1%bool_decide_eq_false T2%bool_decide_eq_false].
  apply eq_None_not_Some in T1, T2.
  pose (r := clear l (file_rename (m_eventFileName l) (event_backup l i) (file_rename (m_messagesFileName l) (messages_backup l i) files))).
  exists i, r.1, r.2. split; [unfold backup; rewrite Ei; cbn [of_option mbind result_bind]; change (mret r = Ok (r.1, r.2)); by destruct r|]. unfold r.
  assert (file_rename (m_messagesFileName l) (messages_backup l i) files !! event_backup l i = None) as T3
    by (rewrite file_rename_lookup by done; by rewrite !decide_False by congruence).
  split_and!; [done | unfold taken; by rewrite !bool_decide_eq_false_2 by (by rewrite <- eq_None_not_Some) | done | | |].
  - rewrite clear_lookup by congruence. rewrite !file_rename_lookup by done. repeat case_decide; congruence.
  - rewrite clear_lookup by congruence. rewrite !file_rename_lookup by done. repeat case_decide; congruence.
  - intros name Hn. rewrite !not_elem_of_cons in Hn. destruct Hn as (? & ? & ? & ? & _). rewrite clear_lookup by done.
    rewrite !file_rename_lookup by done. by rewrite !decide_False by done.
Qed.
End Backup.

(** ** What goes wrong *)

Definition ex_system (renames : bool) : FileSystem := Build_FileSystem (fun _ => true) (fun _ _ => renames) (fun _ => DateTime_fraction 2024 3 5 12 0 0 0 9).
Definition ex_log : FileLog := mkFileLog true true (lit "log/S.messages.current.log") (lit "log/S.event.current.log") (lit "log/S.") (lit "old/S.").
Definition ex_files : Files :=
  list_to_map [(lit "log/S.messages.current.log", lit "m"); (lit "log/S.event.current.log", lit "e"); (lit "old/S.event.backup.1.log", lit "x")].

Definition contents (r : result (FileLog * Files)) : list str := match r with Ok (_, files) => map snd (map_to_list files) | Throw _ => [] end.

(** Both get the number 2, since one copy has the number 1. *)
Example ex_backup :
  match backup (H := ex_system true) ex_log ex_files with
  | Ok (_, files) => (files !! messages_backup ex_log 2, files !! event_backup ex_log 2, files !! event_backup ex_log 1)
  | Throw _ => (None, None, None)
  end = (Some (lit "m"), Some (lit "e"), Some (lit "x")).
Proof. vm_compute. reflexivity. Qed.

(** A rename that fails is not noticed, and the log is emptied: a backup directory on
    another device loses it. *)
Lemma failed_rename_loses : lit "m" ∉ contents (backup (H := ex_system false) ex_log ex_files).
Proof. by_compute. Qed.

(** A factory made with a path gives the transport a log the first time, and a null
    pointer the second, since it does not keep the first. *)
Lemma second_global_log_null (settings : SessionSettings) :
  let f := new_FileLogFactory (lit "log") (lit "log") settings in
  let '(f, files, r) := create_global (H := ex_system true) f ∅ in
  r = Ok (Some 0%nat) /\ (create_global (H := ex_system true) f files).2 = Ok None.
Proof. by vm_compute. Qed.
