(* ===== verification/SessionState.v ===== *)
(** * The state of a session ([src/C++/SessionState.h])

    The flags, the timers, the queue of messages received ahead of their turn,
    the range a resend was requested for, and the store. The store is any
    implementation of the interface. *)
From S2P Require Import Prelude Convertors Values Doubles DateTime OrdMap Field Message MessageStore.

Record SessionState (S : Type) := mkSessionState {
  m_enabled : bool;
  m_receivedLogon : bool;
  m_sentLogout : bool;
  m_sentLogon : bool;
  m_sentReset : bool;
  m_receivedReset : bool;
  m_initiate : bool;
  m_logonTimeout : Z;
  m_logoutTimeout : Z;
  m_testRequest : Z;
  m_resendRange : Z * Z;
  m_heartBtInt : FieldBase;
  m_lastSentTime : DateTime;
  m_lastReceivedTime : DateTime;
  m_logoutReason : str;
  m_queue : list (Z * Message);
  m_pStore : S
}.
Arguments mkSessionState {S}.
Arguments m_enabled {S} _.
Arguments m_receivedLogon {S} _.
Arguments m_sentLogout {S} _.
Arguments m_sentLogon {S} _.
Arguments m_sentReset {S} _.
Arguments m_receivedReset {S} _.
Arguments m_initiate {S} _.
Arguments m_logonTimeout {S} _.
Arguments m_logoutTimeout {S} _.
Arguments m_testRequest {S} _.
Arguments m_resendRange {S} _.
Arguments m_heartBtInt {S} _.
Arguments m_lastSentTime {S} _.
Arguments m_lastReceivedTime {S} _.
Arguments m_logoutReason {S} _.
Arguments m_queue {S} _.
Arguments m_pStore {S} _.

Section SessionState.
Context {S : Type} `{MessageStore S}.
Implicit Types (s : SessionState S).

(** The constructor; [store] is what the session sets next. *)
Definition new_SessionState (now : DateTime) (store : S) : SessionState S :=
  mkSessionState true false false false false false false 10 2 0 (0, 0) (Field FIELD.HeartBtInt []) now now [] [] store.

(** ** Setters *)

Definition set_enabled (v : bool) s : SessionState S :=
  mkSessionState v (m_receivedLogon s) (m_sentLogout s) (m_sentLogon s) (m_sentReset s) (m_receivedReset s) (m_initiate s) (m_logonTimeout s) (m_logoutTimeout s) (m_testRequest s) (m_resendRange s) (m_heartBtInt s) (m_lastSentTime s) (m_lastReceivedTime s) (m_logoutReason s) (m_queue s) (m_pStore s).
Definition set_receivedLogon (v : bool) s : SessionState S :=
  mkSessionState (m_enabled s) v (m_sentLogout s) (m_sentLogon s) (m_sentReset s) (m_receivedReset s) (m_initiate s) (m_logonTimeout s) (m_logoutTimeout s) (m_testRequest s) (m_resendRange s) (m_heartBtInt s) (m_lastSentTime s) (m_lastReceivedTime s) (m_logoutReason s) (m_queue s) (m_pStore s).
Definition set_sentLogout (v : bool) s : SessionState S :=
  mkSessionState (m_enabled s) (m_receivedLogon s) v (m_sentLogon s) (m_sentReset s) (m_receivedReset s) (m_initiate s) (m_logonTimeout s) (m_logoutTimeout s) (m_testRequest s) (m_resendRange s) (m_heartBtInt s) (m_lastSentTime s) (m_lastReceivedTime s) (m_logoutReason s) (m_queue s) (m_pStore s).
Definition set_sentLogon (v : bool) s : SessionState S :=
  mkSessionState (m_enabled s) (m_receivedLogon s) (m_sentLogout s) v (m_sentReset s) (m_receivedReset s) (m_initiate s) (m_logonTimeout s) (m_logoutTimeout s) (m_testRequest s) (m_resendRange s) (m_heartBtInt s) (m_lastSentTime s) (m_lastReceivedTime s) (m_logoutReason s) (m_queue s) (m_pStore s).
Definition set_sentReset (v : bool) s : SessionState S :=
  mkSessionState (m_enabled s) (m_receivedLogon s) (m_sentLogout s) (m_sentLogon s) v (m_receivedReset s) (m_initiate s) (m_logonTimeout s) (m_logoutTimeout s) (m_testRequest s) (m_resendRange s) (m_heartBtInt s) (m_lastSentTime s) (m_lastReceivedTime s) (m_logoutReason s) (m_queue s) (m_pStore s).
Definition set_receivedReset (v : bool) s : SessionState S :=
  mkSessionState (m_enabled s) (m_receivedLogon s) (m_sentLogout s) (m_sentLogon s) (m_sentReset s) v (m_initiate s) (m_logonTimeout s) (m_logoutTimeout s) (m_testRequest s) (m_resendRange s) (m_heartBtInt s) (m_lastSentTime s) (m_lastReceivedTime s) (m_logoutReason s) (m_queue s) (m_pStore s).
Definition set_initiate (v : bool) s : SessionState S :=
  mkSessionState (m_enabled s) (m_receivedLogon s) (m_sentLogout s) (m_sentLogon s) (m_sentReset s) (m_receivedReset s) v (m_logonTimeout s) (m_logoutTimeout s) (m_testRequest s) (m_resendRange s) (m_heartBtInt s) (m_lastSentTime s) (m_lastReceivedTime s) (m_logoutReason s) (m_queue s) (m_pStore s).
Definition set_logonTimeout (v : Z) s : SessionState S :=
  mkSessionState (m_enabled s) (m_receivedLogon s) (m_sentLogout s) (m_sentLogon s) (m_sentReset s) (m_receivedReset s) (m_initiate s) v (m_logoutTimeout s) (m_testRequest s) (m_resendRange s) (m_heartBtInt s) (m_lastSentTime s) (m_lastReceivedTime s) (m_logoutReason s) (m_queue s) (m_pStore s).
Definition set_logoutTimeout (v : Z) s : SessionState S :=
  mkSessionState (m_enabled s) (m_receivedLogon s) (m_sentLogout s) (m_sentLogon s) (m_sentReset s) (m_receivedReset s) (m_initiate s) (m_logonTimeout s) v (m_testRequest s) (m_resendRange s) (m_heartBtInt s) (m_lastSentTime s) (m_lastReceivedTime s) (m_logoutReason s) (m_queue s) (m_pStore s).
Definition set_testRequest (v : Z) s : SessionState S :=
  mkSessionState (m_enabled s) (m_receivedLogon s) (m_sentLogout s) (m_sentLogon s) (m_sentReset s) (m_receivedReset s) (m_initiate s) (m_logonTimeout s) (m_logoutTimeout s) v (m_resendRange s) (m_heartBtInt s) (m_lastSentTime s) (m_lastReceivedTime s) (m_logoutReason s) (m_queue s) (m_pStore s).
Definition set_resendRange (v : Z * Z) s : SessionState S :=
  mkSessionState (m_enabled s) (m_receivedLogon s) (m_sentLogout s) (m_sentLogon s) (m_sentReset s) (m_receivedReset s) (m_initiate s) (m_logonTimeout s) (m_logoutTimeout s) (m_testRequest s) v (m_heartBtInt s) (m_lastSentTime s) (m_lastReceivedTime s) (m_logoutReason s) (m_queue s) (m_pStore s).
Definition set_heartBtInt (v : FieldBase) s : SessionState S :=
  mkSessionState (m_enabled s) (m_receivedLogon s) (m_sentLogout s) (m_sentLogon s) (m_sentReset s) (m_receivedReset s) (m_initiate s) (m_logonTimeout s) (m_logoutTimeout s) (m_testRequest s) (m_resendRange s) v (m_lastSentTime s) (m_lastReceivedTime s) (m_logoutReason s) (m_queue s) (m_pStore s).
Definition set_lastSentTime (v : DateTime) s : SessionState S :=
  mkSessionState (m_enabled s) (m_receivedLogon s) (m_sentLogout s) (m_sentLogon s) (m_sentReset s) (m_receivedReset s) (m_initiate s) (m_logonTimeout s) (m_logoutTimeout s) (m_testRequest s) (m_resendRange s) (m_heartBtInt s) v (m_lastReceivedTime s) (m_logoutReason s) (m_queue s) (m_pStore s).
Definition set_lastReceivedTime (v : DateTime) s : SessionState S :=
  mkSessionState (m_enabled s) (m_receivedLogon s) (m_sentLogout s) (m_sentLogon s) (m_sentReset s) (m_receivedReset s) (m_initiate s) (m_logonTimeout s) (m_logoutTimeout s) (m_testRequest s) (m_resendRange s) (m_heartBtInt s) (m_lastSentTime s) v (m_logoutReason s) (m_queue s) (m_pStore s).
Definition set_logoutReason (v : str) s : SessionState S :=
  mkSessionState (m_enabled s) (m_receivedLogon s) (m_sentLogout s) (m_sentLogon s) (m_sentReset s) (m_receivedReset s) (m_initiate s) (m_logonTimeout s) (m_logoutTimeout s) (m_testRequest s) (m_resendRange s) (m_heartBtInt s) (m_lastSentTime s) (m_lastReceivedTime s) v (m_queue s) (m_pStore s).
Definition set_queue (v : list (Z * Message)) s : SessionState S :=
  mkSessionState (m_enabled s) (m_receivedLogon s) (m_sentLogout s) (m_sentLogon s) (m_sentReset s) (m_receivedReset s) (m_initiate s) (m_logonTimeout s) (m_logoutTimeout s) (m_testRequest s) (m_resendRange s) (m_heartBtInt s) (m_lastSentTime s) (m_lastReceivedTime s) (m_logoutReason s) v (m_pStore s).
Definition set_store (v : S) s : SessionState S :=
  mkSessionState (m_enabled s) (m_receivedLogon s) (m_sentLogout s) (m_sentLogon s) (m_sentReset s) (m_receivedReset s) (m_initiate s) (m_logonTimeout s) (m_logoutTimeout s) (m_testRequest s) (m_resendRange s) (m_heartBtInt s) (m_lastSentTime s) (m_lastReceivedTime s) (m_logoutReason s) (m_queue s) v.

(** ** The resend range *)

Definition resendRequested s : bool := negb ((fst (m_resendRange s) =? 0) && (snd (m_resendRange s) =? 0)).

(** ** Timers

    The heartbeat interval is a field, read each time as an [int], which throws
    [IncorrectDataFormat] for a text that is none. *)

Definition heartBtInt s : result Z := IntField_valueOf (m_heartBtInt s).

Definition shouldSendLogon s : bool := m_initiate s && negb (m_sentLogon s).
Definition alreadySentLogon s : bool := m_initiate s && m_sentLogon s.

Definition logonTimedOut s (now : DateTime) : bool := m_logonTimeout s <=? dt_sub now (m_lastReceivedTime s).

Definition logoutTimedOut s (now : DateTime) : bool :=
  m_sentLogout s && (m_logoutTimeout s <=? dt_sub now (m_lastSentTime s)).

Definition withinHeartBeat s (now : DateTime) : result bool :=
  h ← heartBtInt s;
  Ok ((dt_sub now (m_lastSentTime s) <? h) && (dt_sub now (m_lastReceivedTime s) <? h)).

(** [x >= 2.4 * (double)h], in double precision. *)
Definition timedOut s (now : DateTime) : result bool :=
  h ← heartBtInt s;
  Ok (d_leb (d_mul (d_lit 24 10) (d_of_Z h)) (d_of_Z (dt_sub now (m_lastReceivedTime s)))).

Definition needHeartbeat s (now : DateTime) : result bool :=
  h ← heartBtInt s;
  Ok ((h <=? dt_sub now (m_lastSentTime s)) && (m_testRequest s =? 0)).

(** [x >= (1.2 * ((double)testRequest + 1)) * (double)h]. *)
Definition needTestRequest s (now : DateTime) : result bool :=
  h ← heartBtInt s;
  Ok (d_leb (d_mul (d_mul (d_lit 12 10) (d_add (d_of_Z (m_testRequest s)) (d_of_Z 1))) (d_of_Z h))
        (d_of_Z (dt_sub now (m_lastReceivedTime s)))).

(** ** The queue *)

Definition queue (msgSeqNum : Z) (message : Message) s : SessionState S := set_queue (map_set msgSeqNum message (m_queue s)) s.

Definition retrieve (msgSeqNum : Z) s : option (Message * SessionState S) :=
  message ← map_lookup msgSeqNum (m_queue s);
  Some (message, set_queue (map_erase msgSeqNum (m_queue s)) s).

Definition clearQueue s : SessionState S := set_queue [] s.

(** [m_queue.erase(m_queue.begin(), m_queue.lower_bound(msgSeqNum))]. *)
Fixpoint drop_below {A} (msgSeqNum : Z) (m : list (Z * A)) : list (Z * A) :=
  match m with
  | (k, v) :: m' => if k <? msgSeqNum then drop_below msgSeqNum m' else m
  | [] => []
  end.

Definition clearQueueUpTo (msgSeqNum : Z) s : SessionState S := set_queue (drop_below msgSeqNum (m_queue s)) s.

(** ** The store, through the state *)

Definition state_set (n : Z) (m : str) s : SessionState S * result bool :=
  let '(st, r) := st_set n m (m_pStore s) in (set_store st s, r).
Definition state_get (b e : Z) s : result (list str) := st_get b e (m_pStore s).
Definition state_getNextSender s : result Z := st_getNextSenderMsgSeqNum (m_pStore s).
Definition state_getNextTarget s : result Z := st_getNextTargetMsgSeqNum (m_pStore s).
Definition state_setNextSender (n : Z) s : SessionState S * result unit :=
  let '(st, r) := st_setNextSenderMsgSeqNum n (m_pStore s) in (set_store st s, r).
Definition state_setNextTarget (n : Z) s : SessionState S * result unit :=
  let '(st, r) := st_setNextTargetMsgSeqNum n (m_pStore s) in (set_store st s, r).
Definition state_incrNextSender s : SessionState S * result unit :=
  let '(st, r) := st_incrNextSenderMsgSeqNum (m_pStore s) in (set_store st s, r).
Definition state_incrNextTarget s : SessionState S * result unit :=
  let '(st, r) := st_incrNextTargetMsgSeqNum (m_pStore s) in (set_store st s, r).
Definition state_getCreationTime s : result DateTime := st_getCreationTime (m_pStore s).

(** The store first; the queue and the resend range only when it did not
    throw. *)
Definition state_reset (now : DateTime) s : SessionState S * result unit :=
  let '(st, r) := st_reset now (m_pStore s) in
  match r with
  | Ok _ => (set_resendRange (0, 0) (set_queue [] (set_store st s)), Ok ())
  | Throw e => (set_store st s, Throw e)
  end.
Definition state_refresh (clock : DateTime) s : SessionState S * result unit :=
  let '(st, r) := st_refresh clock (m_pStore s) in (set_store st s, r).
End SessionState.

(** ** The queue *)

Lemma drop_below_keys {A} n (m : list (Z * A)) : ordered m -> Forall (fun k => n <= k) (keys (drop_below n m)).
Proof.
  induction m as [|[k v] m IH]; simpl; [constructor|]. intros [H1 H2]%ordered_cons. case_bool; [by apply IH|].
  simpl. constructor; [lia|]. eapply Forall_impl; [exact H2|]. simpl. lia.
Qed.

Lemma drop_below_lookup {A} n k (m : list (Z * A)) : ordered m -> n <= k -> map_lookup k (drop_below n m) = map_lookup k m.
Proof.
  induction m as [|[k' v] m IH]; simpl; [done|]. intros [H1 _]%ordered_cons Hk. case_bool; [|done].
  rewrite IH by done. by rewrite (proj2 (Z.eqb_neq _ _)) by lia.
Qed.

Lemma drop_below_suffix {A} n (m : list (Z * A)) : exists pre, m = pre ++ drop_below n m.
Proof.
  induction m as [|[k v] m [pre IH]]; simpl; [by exists []|]. case_bool; [|by exists []].
  exists ((k, v) :: pre). simpl. by rewrite <- IH.
Qed.

Lemma drop_below_ordered {A} n (m : list (Z * A)) : ordered m -> ordered (drop_below n m).
Proof. destruct (drop_below_suffix n m) as [pre E]. rewrite E at 1. apply ordered_app_inv. Qed.

Lemma erase_length {A} k (m : list (Z * A)) : map_lookup k m <> None -> length m = S (length (map_erase k m)).
Proof.
  induction m as [|[k' v] m IH]; simpl; [done|]. destruct (k =? k'); [done|]. intros Hk. simpl. by rewrite IH.
Qed.
