(* ===== verification/Provider.v ===== *)
(** * Data dictionaries by version ([src/C++/DataDictionaryProvider.h], [.cpp])

    Two tables, for the session's messages by BeginString and for application
    messages by ApplVerID; a version without a dictionary gets an empty one. *)
From S2P Require Import Prelude OrdMap DictData.

Record DataDictionaryProvider := mkProvider {
  m_transportDictionaries : list (str * DataDictionary);
  m_applicationDictionaries : list (str * DataDictionary)
}.

Definition new_DataDictionaryProvider : DataDictionaryProvider := mkProvider [] [].

Definition emptyDataDictionary : DataDictionary := new_DataDictionary.

Definition getSessionDataDictionary (beginString : str) (p : DataDictionaryProvider) : DataDictionary :=
  default emptyDataDictionary (str_lookup beginString (m_transportDictionaries p)).

Definition getApplicationDataDictionary (applVerID : str) (p : DataDictionaryProvider) : DataDictionary :=
  default emptyDataDictionary (str_lookup applVerID (m_applicationDictionaries p)).

Definition addTransportDataDictionary (beginString : str) (d : DataDictionary) (p : DataDictionaryProvider)
    : DataDictionaryProvider :=
  mkProvider (str_set beginString d (m_transportDictionaries p)) (m_applicationDictionaries p).

Definition addApplicationDataDictionary (applVerID : str) (d : DataDictionary) (p : DataDictionaryProvider)
    : DataDictionaryProvider :=
  mkProvider (m_transportDictionaries p) (str_set applVerID d (m_applicationDictionaries p)).

Lemma getSessionDataDictionary_add b b' d p :
  getSessionDataDictionary b (addTransportDataDictionary b' d p) =
  if decide (b = b') then d else getSessionDataDictionary b p.
Proof.
  unfold getSessionDataDictionary. simpl. destruct (decide (b = b')) as [->|Hne].
  - by rewrite str_lookup_set.
  - by rewrite str_lookup_set_ne.
Qed.

Lemma getApplicationDataDictionary_add v v' d p :
  getApplicationDataDictionary v (addApplicationDataDictionary v' d p) =
  if decide (v = v') then d else getApplicationDataDictionary v p.
Proof.
  unfold getApplicationDataDictionary. simpl. destruct (decide (v = v')) as [->|Hne].
  - by rewrite str_lookup_set.
  - by rewrite str_lookup_set_ne.
Qed.
