(* ===== verification/Session.v ===== *)
(** * The session ([src/C++/Session.h], [src/C++/Session.cpp])

    Every operation of [Session], in a monad of a state and exceptions. The
    state is what the session changes: its [SessionState] with the store, the
    responder, the application's own state, how often the clock was read, and a
    history of the calls it made to its collaborators, newest first. What it only
    reads (its settings, the application's callbacks, the clock) is in [Env].
    Locks are not modelled: one operation runs at a time; callbacks do not call
    the session back. *)
From S2P Require Import Prelude Convertors Values DateTime TimeConvertors TimeRange MessageSorters OrdMap Field FieldMap.
From S2P Require Import DictData Message DictValidate SessionID MessageStore SessionState Provider.

(** ** Collaborators *)

(** The application: what each callback does to its state, to a message it may
    change, and the exception it throws, if any. *)
Record Application (A : Type) := mkApplication {
  onLogon : A -> A * result unit;
  onLogout : A -> A * result unit;
  toAdmin : Message -> A -> A * (Message * result unit);
  toApp : Message -> A -> A * (Message * result unit);
  fromAdmin : Message -> A -> A * result unit;
  fromApp : Message -> A -> A * result unit
}.
Arguments mkApplication {A}.
Arguments onLogon {A} _ _.
Arguments onLogout {A} _ _.
Arguments toAdmin {A} _ _ _.
Arguments toApp {A} _ _ _.
Arguments fromAdmin {A} _ _ _.
Arguments fromApp {A} _ _ _.

(** The calls to collaborators: the log, the responder, the application, and
    those that change the store. A delivered message is noted with the number
    the session expected and whether the callback returned normally. *)
Inductive action :=
| LogEvent (text : str)
| LogIncoming (string : str)
| LogOutgoing (string : str)
| Responder_send (string : str)
| Responder_disconnect
| Called_onLogon
| Called_onLogout
| Called_toAdmin (message : Message)
| Called_toApp (message : Message)
| Called_fromAdmin (message : Message)
| Called_fromApp (message : Message) (expected : Z) (returned : bool)
| Store_set (n : Z) (m : str)
| Store_setNextSender (n : Z)
| Store_setNextTarget (n : Z)
| Store_incrNextSender
| Store_incrNextTarget
| Store_reset (now : DateTime)
| Store_refresh.

(** The settings. *)
Record Config := mkConfig {
  m_sessionID : SessionID;
  m_sessionTime : TimeRange;
  m_logonTime : TimeRange;
  m_senderDefaultApplVerID : str;
  m_sendRedundantResendRequests : bool;
  m_checkCompId : bool;
  m_checkLatency : bool;
  m_maxLatency : Z;
  m_resetOnLogon : bool;
  m_resetOnLogout : bool;
  m_resetOnDisconnect : bool;
  m_refreshOnLogon : bool;
  m_timestampPrecision : Z;
  m_persistMessages : bool;
  m_validateLengthAndChecksum : bool;
  m_sendNextExpectedMsgSeqNum : bool;
  m_isNonStopSession : bool;
  m_dataDictionaryProvider : DataDictionaryProvider;
  m_pLog : bool   (* whether there is a log *)
}.

(** What the constructor sets by default. *)
Definition default_Config (sessionID : SessionID) (provider : DataDictionaryProvider) (sessionTime : TimeRange) (log : bool) : Config :=
  mkConfig sessionID sessionTime sessionTime ApplVerID_FIX50 false true true 120 false false false false 3 true true false
    false provider log.

(** The environment. [timestamper] and [system_clock] give the time of each
    reading; [localtime] is the C library's conversion, for ranges in local
    time; [responder_sends] is what [Responder::send] returns. *)
Class Env (A : Type) := mkEnv {
  config : Config;
  application : Application A;
  timestamper : nat -> DateTime;
  system_clock : nat -> DateTime;
  localtime : Z -> tm;
  responder_sends : str -> bool
}.

Record World (S A : Type) := mkWorld {
  w_state : SessionState S;
  w_targetDefaultApplVerID : str;
  w_responder : bool;   (* whether [m_pResponder] is set *)
  w_app : A;
  w_ticks : nat;
  w_history : list action
}.
Arguments mkWorld {S A}.
Arguments w_state {S A} _.
Arguments w_targetDefaultApplVerID {S A} _.
Arguments w_responder {S A} _.
Arguments w_app {S A} _.
Arguments w_ticks {S A} _.
Arguments w_history {S A} _.

(** ** The monad *)

Definition M (S A X : Type) : Type := World S A -> World S A * result X.

#[export] Instance M_ret {S A} : MRet (M S A) := fun X x w => (w, Ok x).
#[export] Instance M_bind {S A} : MBind (M S A) := fun X Y f m w =>
  match m w with
  | (w, Ok x) => f x w
  | (w, Throw e) => (w, Throw e)
  end.

Section Monad.
Context {S A : Type}.
Abbreviation M := (M S A).

Definition raise {X} (e : exn) : M X := fun w => (w, Throw e).
Definition lift {X} (r : result X) : M X := fun w => (w, r).

(** [try { m } catch ...]: [handler] gives what to do for the exceptions that
    are caught. *)
Definition try_catch {X} (m : M X) (handler : exn -> option (M X)) : M X := fun w =>
  match m w with
  | (w, Throw e) => match handler e with Some h => h w | None => (w, Throw e) end
  | r => r
  end.

Definition when (b : bool) (m : M unit) : M unit := if b then m else mret ().

Definition gets {X} (f : World S A -> X) : M X := fun w => (w, Ok (f w)).
Definition put_state (f : SessionState S -> SessionState S) : M unit := fun w =>
  (mkWorld (f (w_state w)) (w_targetDefaultApplVerID w) (w_responder w) (w_app w) (w_ticks w) (w_history w), Ok ()).
(** A call that changes the store. *)
Definition store_call {X} (a : action) (f : SessionState S -> SessionState S * result X) : M X := fun w =>
  let '(s, r) := f (w_state w) in
  (mkWorld s (w_targetDefaultApplVerID w) (w_responder w) (w_app w) (w_ticks w) (a :: w_history w), r).
Definition read {X} (f : SessionState S -> X) : M X := gets (fun w => f (w_state w)).
Definition read_result {X} (f : SessionState S -> result X) : M X := fun w => (w, f (w_state w)).
Definition set_responder (b : bool) : M unit := fun w =>
  (mkWorld (w_state w) (w_targetDefaultApplVerID w) b (w_app w) (w_ticks w) (w_history w), Ok ()).
Definition setTargetDefaultApplVerID (v : str) : M unit := fun w =>
  (mkWorld (w_state w) v (w_responder w) (w_app w) (w_ticks w) (w_history w), Ok ()).
Definition note (a : action) : M unit := fun w =>
  (mkWorld (w_state w) (w_targetDefaultApplVerID w) (w_responder w) (w_app w) (w_ticks w) (a :: w_history w), Ok ()).
(** A callback: the call is noted, then runs on the application's state. *)
Definition call {X} (a : action) (f : A -> A * X) : M X := fun w =>
  let '(app, x) := f (w_app w) in
  (mkWorld (w_state w) (w_targetDefaultApplVerID w) (w_responder w) app (w_ticks w) (a :: w_history w), Ok x).
Definition tick (clock : nat -> DateTime) : M DateTime := fun w =>
  (mkWorld (w_state w) (w_targetDefaultApplVerID w) (w_responder w) (w_app w) (Datatypes.S (w_ticks w)) (w_history w), Ok (clock (w_ticks w))).
End Monad.

Definition str_ge (a b : str) : bool := negb (str_ltb a b).
Definition str_eqb (a b : str) : bool := bool_decide (a = b).

(** [stream << n] for an unsigned number. *)
Definition show_number (n : Z) : str := integer_digits n.

(** ** The operations *)

Section Session.
Context {S A : Type} `{MessageStore S} `{Env A}.
Abbreviation M := (M S A).

Definition id_ : SessionID := m_sessionID config.
Definition begin_string : str := SessionID.m_beginString id_.
Definition sessionDD : DataDictionary := getSessionDataDictionary begin_string (m_dataDictionaryProvider config).
Definition applicationDD (applVerID : str) : DataDictionary :=
  getApplicationDataDictionary applVerID (m_dataDictionaryProvider config).

(** [m_timestamper()] *)
Definition timestamp : M DateTime := tick timestamper.

(** [m_state.onEvent], [onIncoming], [onOutgoing] *)
Definition onEvent (text : str) : M unit := when (m_pLog config) (note (LogEvent text)).
Definition onIncoming (string : str) : M unit := when (m_pLog config) (note (LogIncoming string)).
Definition onOutgoing (string : str) : M unit := when (m_pLog config) (note (LogOutgoing string)).

(** [LOGEX(method)] *)
Definition LOGEX (m : M unit) : M unit :=
  try_catch m (fun e => if is_exception e then Some (onEvent (exn_what e)) else None).

Definition getExpectedSenderNum : M Z := read_result state_getNextSender.
Definition getExpectedTargetNum : M Z := read_result state_getNextTarget.
Definition incrNextTarget : M unit := store_call Store_incrNextTarget state_incrNextTarget.

(** [m_state.reset(now)] and [m_state.refresh()] *)
Definition reset_state : M unit :=
  now ← timestamp; store_call (Store_reset now) (state_reset now).
Definition refresh : M unit :=
  clock ← tick system_clock; store_call Store_refresh (state_refresh clock).

(** ** Settings and predicates of Session.h *)

Definition isEnabled : M bool := read m_enabled.
Definition isLoggedOn : M bool := read (fun s => m_receivedLogon s && m_sentLogon s).

Definition logon : M unit := put_state (fun s => set_logoutReason [] (set_enabled true s)).
Definition logout (reason : str) : M unit := put_state (fun s => set_logoutReason reason (set_enabled false s)).

Definition setNextSenderMsgSeqNum (num : Z) : M unit :=
  store_call (Store_setNextSender num) (state_setNextSender num).
Definition setNextTargetMsgSeqNum (num : Z) : M unit :=
  _ ← store_call (Store_setNextTarget num) (state_setNextTarget num);
  put_state (fun s => set_resendRange (0, 0) (clearQueue s)).

Definition isLogonTime (now : DateTime) : bool := isInRange localtime (m_logonTime config) now.
Definition isSessionTime (now : DateTime) : bool := isInRange localtime (m_sessionTime config) now.

Definition supportsSubSecondTimestamps (beginString : str) : bool :=
  if str_eqb beginString BeginString_FIXT11 then true else str_ge beginString BeginString_FIX42.
Definition getSupportedTimestampPrecision : Z :=
  if supportsSubSecondTimestamps begin_string then m_timestampPrecision config else 0.

Definition isGoodTime (sendingTime : FieldBase) : M bool :=
  if negb (m_checkLatency config) then mret true
  else
    now ← timestamp;
    t ← lift (valueOf UtcTimeStampConvertor_of_string sendingTime);
    mret (Z.abs (dt_sub now t) <=? m_maxLatency config).

Definition checkSessionTime (now : DateTime) : M bool :=
  if m_isNonStopSession config then mret true
  else
    creationTime ← read_result state_getCreationTime;
    mret (isInSameRange localtime (m_sessionTime config) now creationTime).

Definition isTargetTooHigh (msgSeqNum : Z) : M bool := expected ← getExpectedTargetNum; mret (expected <? msgSeqNum).
Definition isTargetTooLow (msgSeqNum : Z) : M bool := expected ← getExpectedTargetNum; mret (msgSeqNum <? expected).

Definition isCorrectCompID (senderCompID targetCompID : str) : bool :=
  if negb (m_checkCompId config) then true
  else str_eqb (m_senderCompID id_) targetCompID && str_eqb (m_targetCompID id_) senderCompID.

Definition shouldSendReset : M bool :=
  if str_ge begin_string BeginString_FIX41 && (m_resetOnLogon config || m_resetOnLogout config || m_resetOnDisconnect config) then
    sender ← getExpectedSenderNum;
    if sender =? 1 then target ← getExpectedTargetNum; mret (target =? 1) else mret false
  else mret false.

Definition validLogonState (msgType : str) (s : SessionState S) : bool :=
  if (str_eqb msgType MsgType_Logon && m_sentReset s) || m_receivedReset s then true
  else if (str_eqb msgType MsgType_Logon && negb (m_receivedLogon s)) || (negb (str_eqb msgType MsgType_Logon) && m_receivedLogon s) then true
  else if str_eqb msgType MsgType_Logout && m_sentLogon s then true
  else if negb (str_eqb msgType MsgType_Logout) && m_sentLogout s then true
  else if str_eqb msgType MsgType_SequenceReset then true
  else str_eqb msgType MsgType_Reject.

(** ** Building messages *)

Definition in_header (m : Message) (f : FieldMap -> FieldMap) : Message := with_header m (f (m_header m)).
Definition in_body (m : Message) (f : FieldMap -> FieldMap) : Message := with_body m (f (m_body m)).
Definition put_field (m : Message) (f : FieldBase) : Message := in_body m (fun b => setField b f).

Definition set_ids (h : FieldMap) : FieldMap :=
  let h := setField h (Field FIELD.BeginString begin_string) in
  let h := setField h (Field FIELD.SenderCompID (m_senderCompID id_)) in
  setField h (Field FIELD.TargetCompID (m_targetCompID id_)).

Definition insertSendingTime (h : FieldMap) : M FieldMap :=
  now ← timestamp;
  text ← lift (UtcTimeStampConvertor_convert now getSupportedTimestampPrecision);
  mret (setField h (Field FIELD.SendingTime text)).

Definition insertOrigSendingTime (h : FieldMap) (now : DateTime) : M FieldMap :=
  text ← lift (UtcTimeStampConvertor_convert now getSupportedTimestampPrecision);
  mret (setField h (Field FIELD.OrigSendingTime text)).

Definition fill (m : Message) : M Message :=
  now ← timestamp;
  _ ← put_state (set_lastSentTime now);
  num ← getExpectedSenderNum;
  h ← insertSendingTime (setField (set_ids (m_header m)) (SeqNumField FIELD.MsgSeqNum num));
  mret (with_header m h).

Definition newMessage (msgType : str) : M Message :=
  let with_type (m : Message) := in_header m (fun h => setField h (Field FIELD.MsgType msgType)) in
  if negb (m_storeMsgFieldsOrder sessionDD) then mret (with_type new_Message)
  else
    headerOrder ← lift (getHeaderOrderedFields sessionDD);
    trailerOrder ← lift (getTrailerOrderedFields sessionDD);
    messageOrder ←
      (if negb (m_isFIXT id_) || isAdminMsgType msgType then lift (getMessageOrderedFields msgType sessionDD)
       else lift (getMessageOrderedFields msgType (applicationDD (m_senderDefaultApplVerID config))));
    mret (with_type (Message_ordered headerOrder trailerOrder messageOrder)).

Definition populateRejectReason_field (reject : Message) (field : Z) (text : str) : M Message :=
  msgType ← lift (getField (m_header reject) FIELD.MsgType);
  if str_eqb msgType MsgType_Reject && str_ge begin_string BeginString_FIX42 then
    mret (put_field (put_field reject (IntField FIELD.RefTagID field)) (Field FIELD.Text text))
  else mret (put_field reject (Field FIELD.Text (text ++ lit " (" ++ IntConvertor_convert field ++ lit ")"))).

Definition populateRejectReason (reject : Message) (text : str) : Message := put_field reject (Field FIELD.Text text).

(** ** Sending *)

(** [send(const std::string &)] *)
Definition send_string (string : str) : M bool :=
  responder ← gets w_responder;
  if negb responder then mret false
  else
    _ ← onOutgoing string;
    _ ← note (Responder_send string);
    mret (responder_sends string).

Definition persist (message : Message) (messageString : str) : M unit :=
  msgSeqNum ← lift (getFieldRef (m_header message) FIELD.MsgSeqNum);
  _ ← (if m_persistMessages config then
         num ← lift (SeqNumField_valueOf msgSeqNum);
         _ ← store_call (Store_set num messageString) (state_set num messageString);
         mret ()
       else mret ());
  store_call Store_incrNextSender state_incrNextSender.

(** The callbacks that may change the message; an exception is thrown on. *)
Definition call_to (a : Message -> action) (f : Message -> A -> A * (Message * result unit)) (message : Message) : M Message :=
  '(message, r) ← call (a message) (f message);
  _ ← lift r;
  mret message.

(** The type a message has, or the empty one. *)
Definition type_of (m : Message) : str :=
  match getFieldIfSet (m_header m) FIELD.MsgType with Some f => getString f | None => [] end.

(** [None] is [false]: the message is not to be sent. *)
Definition prepareToSend (message : Message) (num : Z) (admin : bool) : M (option Message) :=
  let h := set_ids (m_header message) in
  let h := if negb (num =? 0) then setField h (SeqNumField FIELD.MsgSeqNum num) else removeField h FIELD.MsgSeqNum in
  h ← insertSendingTime h;
  let message := with_header message h in
  try_catch
    (if admin then message ← call_to Called_toAdmin (toAdmin application) message; mret (Some message)
     else
       loggedOn ← isLoggedOn;
       cleared ← (if loggedOn : bool then mret false else shouldSendReset);
       if cleared : bool then mret None
       else
         try_catch (message ← call_to Called_toApp (toApp application) message; mret (Some message))
           (fun e => match e with DoNotSend _ => Some (mret None) | _ => None end))
    (fun e => match e with
              | IOException _ => Some (_ ← onEvent (exn_what e); mret None)
              | _ => None
              end).

(** The part of [sendSequenced] that resets the sequence for a Logon. *)
Definition reset_for_logon (message : Message) : M Message :=
  receivedReset ← read m_receivedReset;
  if negb (str_eqb (type_of message) MsgType_Logon && negb receivedReset) then mret message
  else
    resetSeqNumFlag ←
      match getFieldIfSet (m_body message) FIELD.ResetSeqNumFlag with
      | Some f => lift (BoolField_valueOf f)
      | None => mret false
      end;
    message ←
      (if resetSeqNumFlag : bool then
         _ ← reset_state;
         num ← getExpectedSenderNum;
         mret (in_header message (fun h => setField h (SeqNumField FIELD.MsgSeqNum num)))
       else mret message);
    _ ← put_state (set_sentReset resetSeqNumFlag);
    mret message.

Definition sendSequenced (message : Message) (num : Z) (admin : bool) : M bool :=
  try_catch
    (now ← timestamp;
     _ ← put_state (set_lastSentTime now);
     seq ← (if negb (num =? 0) then mret num else getExpectedSenderNum);
     let message := in_header message (fun h => setField h (SeqNumField FIELD.MsgSeqNum seq)) in
     let msgType := type_of message in
     if admin then
       message ← reset_for_logon message;
       '(messageString, message) ← lift (toString_default message);
       _ ← (if num =? 0 then persist message messageString else mret ());
       loggedOn ← isLoggedOn;
       _ ← (if str_eqb msgType MsgType_Logon || str_eqb msgType MsgType_Logout || str_eqb msgType MsgType_ResendRequest ||
               str_eqb msgType MsgType_SequenceReset || loggedOn
            then send_string messageString else mret false);
       mret true
     else
       loggedOn ← isLoggedOn;
       cleared ← (if loggedOn : bool then mret false else shouldSendReset);
       if cleared : bool then mret false
       else
         '(messageString, message) ← lift (toString_default message);
         _ ← (if num =? 0 then persist message messageString else mret ());
         loggedOn ← isLoggedOn;
         _ ← (if loggedOn : bool then send_string messageString else mret false);
         mret true)
    (fun e => match e with
              | IOException _ => Some (_ ← onEvent (exn_what e); mret false)
              | _ => None
              end).

Definition sendRaw (message : Message) (num : Z) : M bool :=
  let admin := isAdminMsgType (type_of message) in
  prepared ← prepareToSend message num admin;
  match prepared with
  | None => mret false
  | Some message => sendSequenced message num admin
  end.

(** [send(Message &)] *)
Definition send (message : Message) : M bool :=
  sendRaw (in_header message (fun h => removeField (removeField h FIELD.PossDupFlag) FIELD.OrigSendingTime)) 0.

(** ** Disconnecting *)

Definition callback (a : action) (f : A -> A * result unit) : M unit := r ← call a f; lift r.

Definition disconnect : M unit :=
  responder ← gets w_responder;
  _ ← when responder
        (_ ← onEvent (lit "Disconnecting");
         _ ← note Responder_disconnect;
         set_responder false);
  loggedOut ← read (fun s => m_receivedLogon s || m_sentLogon s);
  _ ← when loggedOut (put_state (fun s => set_sentLogon false (set_receivedLogon false s)));
  _ ← when loggedOut (callback Called_onLogout (onLogout application));
  _ ← put_state (fun s => clearQueue (set_sentReset false (set_receivedReset false (set_sentLogout false s))));
  _ ← when (m_resetOnDisconnect config) reset_state;
  put_state (set_resendRange (0, 0)).

(** ** Generating messages *)

Definition generateLogon : M unit :=
  logon ← newMessage MsgType_Logon;
  hb ← read m_heartBtInt;
  let logon := put_field (put_field logon (IntField FIELD.EncryptMethod 0)) hb in
  let logon := if m_isFIXT id_ then put_field logon (Field FIELD.DefaultApplVerID (m_senderDefaultApplVerID config)) else logon in
  _ ← when (m_refreshOnLogon config) refresh;
  _ ← when (m_resetOnLogon config) reset_state;
  reset ← shouldSendReset;
  let logon := if (reset : bool) then put_field logon (BoolField FIELD.ResetSeqNumFlag true) else logon in
  logon ← (if m_sendNextExpectedMsgSeqNum config then
             expected ← getExpectedTargetNum; mret (put_field logon (SeqNumField FIELD.NextExpectedMsgSeqNum expected))
           else mret logon);
  logon ← fill logon;
  now ← timestamp;
  _ ← put_state (fun s => set_sentLogon true (set_testRequest 0 (set_lastReceivedTime now s)));
  _ ← sendRaw logon 0;
  mret ().

(** [generateLogon(const Message &)], the answer to a Logon. *)
Definition generateLogon_reply (aLogon : Message) : M unit :=
  logon ← newMessage MsgType_Logon;
  let logon := put_field logon (IntField FIELD.EncryptMethod 0) in
  let logon := if m_isFIXT id_ then put_field logon (Field FIELD.DefaultApplVerID (m_senderDefaultApplVerID config)) else logon in
  receivedReset ← read m_receivedReset;
  let logon := if (receivedReset : bool) then put_field logon (BoolField FIELD.ResetSeqNumFlag true) else logon in
  hb ← lift (getFieldRef (m_body aLogon) FIELD.HeartBtInt);
  let logon := put_field logon hb in
  logon ← (if m_sendNextExpectedMsgSeqNum config then
             expected ← getExpectedTargetNum; mret (put_field logon (SeqNumField FIELD.NextExpectedMsgSeqNum (u64 (expected + 1))))
           else mret logon);
  logon ← fill logon;
  _ ← sendRaw logon 0;
  put_state (set_sentLogon true).

(** The first number is cast to [int] on its way. *)
Definition generateResendRequest (beginString : str) (msgSeqNum : Z) : M unit :=
  resendRequest ← newMessage MsgType_ResendRequest;
  expected ← getExpectedTargetNum;
  let beginSeqNo := u64 (i32 expected) in
  let endSeqNo :=
    if str_ge beginString BeginString_FIX42 then 0
    else if negb (str_ltb BeginString_FIX41 beginString) then 999999
    else u64 (msgSeqNum - 1) in
  let resendRequest := put_field resendRequest (SeqNumField FIELD.BeginSeqNo beginSeqNo) in
  let resendRequest := put_field resendRequest (SeqNumField FIELD.EndSeqNo endSeqNo) in
  resendRequest ← fill resendRequest;
  _ ← sendRaw resendRequest 0;
  _ ← onEvent (lit "Sent ResendRequest FROM: " ++ SEQNUM_convert beginSeqNo ++ lit " TO: " ++ SEQNUM_convert endSeqNo);
  put_state (set_resendRange (beginSeqNo, u64 (msgSeqNum - 1))).

Definition newSequenceReset (beginSeqNo endSeqNo : Z) : M Message :=
  sequenceReset ← newMessage MsgType_SequenceReset;
  let sequenceReset := in_header sequenceReset (fun h => setField h (BoolField FIELD.PossDupFlag true)) in
  let sequenceReset := put_field sequenceReset (SeqNumField FIELD.NewSeqNo endSeqNo) in
  sequenceReset ← fill sequenceReset;
  f ← lift (getFieldRef (m_header sequenceReset) FIELD.SendingTime);
  sendingTime ← lift (valueOf UtcTimeStampConvertor_of_string f);
  h ← insertOrigSendingTime (m_header sequenceReset) sendingTime;
  let sequenceReset := with_header sequenceReset (setField h (SeqNumField FIELD.MsgSeqNum beginSeqNo)) in
  mret (put_field sequenceReset (BoolField FIELD.GapFillFlag true)).

Definition generateSequenceReset (beginSeqNo endSeqNo : Z) : M unit :=
  sequenceReset ← newSequenceReset beginSeqNo endSeqNo;
  _ ← sendRaw sequenceReset beginSeqNo;
  onEvent (lit "Sent SequenceReset TO: " ++ SEQNUM_convert endSeqNo).

Definition generateHeartbeat : M unit :=
  heartbeat ← newMessage MsgType_Heartbeat;
  heartbeat ← fill heartbeat;
  _ ← sendRaw heartbeat 0;
  mret ().

(** [generateHeartbeat(const Message &)], the answer to a TestRequest. *)
Definition generateHeartbeat_reply (testRequest : Message) : M unit :=
  heartbeat ← newMessage MsgType_Heartbeat;
  heartbeat ← fill heartbeat;
  let heartbeat := match getFieldRef (m_body testRequest) FIELD.TestReqID with
                   | Ok f => put_field heartbeat f
                   | Throw _ => heartbeat
                   end in
  _ ← sendRaw heartbeat 0;
  mret ().

Definition generateTestRequest (id : str) : M unit :=
  testRequest ← newMessage MsgType_TestRequest;
  testRequest ← fill testRequest;
  _ ← sendRaw (put_field testRequest (Field FIELD.TestReqID id)) 0;
  mret ().

(** The [switch] of [generateReject]; [None] is the null pointer. *)
Definition reject_reason (err : Z) : option str :=
  if err =? SessionRejectReason_INVALID_TAG_NUMBER then Some SessionRejectReason_INVALID_TAG_NUMBER_TEXT
  else if err =? SessionRejectReason_REQUIRED_TAG_MISSING then Some SessionRejectReason_REQUIRED_TAG_MISSING_TEXT
  else if err =? SessionRejectReason_TAG_NOT_DEFINED_FOR_THIS_MESSAGE_TYPE then
    Some SessionRejectReason_TAG_NOT_DEFINED_FOR_THIS_MESSAGE_TYPE_TEXT
  else if err =? SessionRejectReason_TAG_SPECIFIED_WITHOUT_A_VALUE then Some SessionRejectReason_TAG_SPECIFIED_WITHOUT_A_VALUE_TEXT
  else if err =? SessionRejectReason_VALUE_IS_INCORRECT then Some SessionRejectReason_VALUE_IS_INCORRECT_TEXT
  else if err =? SessionRejectReason_INCORRECT_DATA_FORMAT_FOR_VALUE then
    Some SessionRejectReason_INCORRECT_DATA_FORMAT_FOR_VALUE_TEXT
  else if err =? SessionRejectReason_COMPID_PROBLEM then Some SessionRejectReason_COMPID_PROBLEM_TEXT
  else if err =? SessionRejectReason_SENDINGTIME_ACCURACY_PROBLEM then Some SessionRejectReason_SENDINGTIME_ACCURACY_PROBLEM_TEXT
  else if err =? SessionRejectReason_INVALID_MSGTYPE then Some SessionRejectReason_INVALID_MSGTYPE_TEXT
  else if err =? SessionRejectReason_TAG_APPEARS_MORE_THAN_ONCE then Some SessionRejectReason_TAG_APPEARS_MORE_THAN_ONCE_TEXT
  else if err =? SessionRejectReason_TAG_SPECIFIED_OUT_OF_REQUIRED_ORDER then
    Some SessionRejectReason_TAG_SPECIFIED_OUT_OF_REQUIRED_ORDER_TEXT
  else if err =? SessionRejectReason_INCORRECT_NUMINGROUP_COUNT_FOR_REPEATING_GROUP then
    Some SessionRejectReason_INCORRECT_NUMINGROUP_COUNT_FOR_REPEATING_GROUP_TEXT
  else None.

(** The rejected message takes its place in the sequence when it is the one
    that was expected. *)
Definition skip_rejected (msgType : str) (msgSeqNum : FieldBase) : M unit :=
  if negb (str_eqb msgType MsgType_Logon) && negb (str_eqb msgType MsgType_SequenceReset) then
    num ← lift (SeqNumField_valueOf msgSeqNum);
    expected ← getExpectedTargetNum;
    when (num =? expected) incrNextTarget
  else mret ().

Definition no_logon_reject : exn := std_runtime_error (lit "Tried to send a reject while not logged on").

(** [generateReject(const Message &, int err, int field)] *)
Definition generateReject (message : Message) (err field : Z) : M unit :=
  reject ← newMessage MsgType_Reject;
  reject ← fill (reverseRoute reject (m_header message));
  msgType ← lift (getField (m_header message) FIELD.MsgType);
  let msgSeqNum := default (Field FIELD.MsgSeqNum []) (getFieldIfSet (m_header message) FIELD.MsgSeqNum) in
  reject ←
    match getString msgSeqNum with
    | [] => mret reject
    | _ => num ← lift (SeqNumField_valueOf msgSeqNum); mret (put_field reject (SeqNumField FIELD.RefSeqNum num))
    end;
  let reject :=
    if str_ge begin_string BeginString_FIX42 then
      let reject := match msgType with [] => reject | _ => put_field reject (Field FIELD.RefMsgType msgType) end in
      if (str_eqb begin_string BeginString_FIX42 && (err <=? SessionRejectReason_INVALID_MSGTYPE)) || str_ltb BeginString_FIX42 begin_string
      then put_field reject (IntField FIELD.SessionRejectReason err)
      else reject
    else reject in
  _ ← skip_rejected msgType msgSeqNum;
  let rejected := lit "Message " ++ getString msgSeqNum ++ lit " Rejected" in
  reject ←
    match reject_reason err with
    | Some reason =>
        if negb (field =? 0) || (err =? SessionRejectReason_INVALID_TAG_NUMBER) then
          reject ← populateRejectReason_field reject field reason;
          _ ← onEvent (rejected ++ lit ": " ++ reason ++ lit ":" ++ SEQNUM_convert (u64 field));
          mret reject
        else
          _ ← onEvent (rejected ++ lit ": " ++ reason);
          mret (populateRejectReason reject reason)
    | None => _ ← onEvent rejected; mret reject
    end;
  receivedLogon ← read m_receivedLogon;
  if negb receivedLogon then raise no_logon_reject
  else
    _ ← sendRaw reject 0;
    mret ().

(** [generateReject(const Message &, const std::string &text, int field)] *)
Definition generateReject_text (message : Message) (text : str) (field : Z) : M unit :=
  reject ← newMessage MsgType_Reject;
  reject ← fill (reverseRoute reject (m_header message));
  msgType ← lift (getField (m_header message) FIELD.MsgType);
  msgSeqNum ← lift (getFieldRef (m_header message) FIELD.MsgSeqNum);
  let reject := if str_ge begin_string BeginString_FIX42 then put_field reject (Field FIELD.RefMsgType msgType) else reject in
  num ← lift (SeqNumField_valueOf msgSeqNum);
  let reject := put_field reject (SeqNumField FIELD.RefSeqNum num) in
  _ ← skip_rejected msgType msgSeqNum;
  reject ← (if negb (field =? 0) then populateRejectReason_field reject field text
            else mret (put_field reject (Field FIELD.Text text)));
  receivedLogon ← read m_receivedLogon;
  if negb receivedLogon then raise no_logon_reject
  else
    _ ← sendRaw reject 0;
    onEvent (lit "Message " ++ getString msgSeqNum ++ lit " Rejected: " ++ text).

Definition rejectDefinesRefApplVerID (applVerID : str) : bool :=
  match IntT_convert int32_t applVerID with Some version => 8 <=? version | None => false end.

Definition business_reason (err : Z) : option str :=
  if err =? BusinessRejectReason_OTHER then Some BusinessRejectReason_OTHER_TEXT
  else if err =? BusinessRejectReason_UNKNOWN_ID then Some BusinessRejectReason_UNKNOWN_ID_TEXT
  else if err =? BusinessRejectReason_UNKNOWN_SECURITY then Some BusinessRejectReason_UNKNOWN_SECURITY_TEXT
  else if err =? BusinessRejectReason_UNSUPPORTED_MESSAGE_TYPE then Some BusinessRejectReason_UNSUPPORTED_MESSAGE_TYPE_TEXT
  else if err =? BusinessRejectReason_APPLICATION_NOT_AVAILABLE then Some BusinessRejectReason_APPLICATION_NOT_AVAILABLE_TEXT
  else if err =? BusinessRejectReason_CONDITIONALLY_REQUIRED_FIELD_MISSING then
    Some BusinessRejectReason_CONDITIONALLY_REQUIRED_FIELD_MISSING_TEXT
  else if err =? BusinessRejectReason_NOT_AUTHORIZED then Some BusinessRejectReason_NOT_AUTHORIZED_TEXT
  else if err =? BusinessRejectReason_DELIVER_TO_FIRM_NOT_AVAILABLE_AT_THIS_TIME then
    Some BusinessRejectReason_DELIVER_TO_FIRM_NOT_AVAILABLE_AT_THIS_TIME_TEXT
  else None.

Definition generateBusinessReject (message : Message) (err field : Z) : M unit :=
  reject ← newMessage MsgType_BusinessMessageReject;
  msgSeqNum ← lift (getFieldRef (m_header message) FIELD.MsgSeqNum);
  targetDefault ← gets w_targetDefaultApplVerID;
  let reject :=
    if m_isFIXT id_ && rejectDefinesRefApplVerID (m_senderDefaultApplVerID config) then
      let applVerID := match getFieldIfSet (m_header message) FIELD.ApplVerID with
                       | Some f => getString f
                       | None => targetDefault
                       end in
      put_field reject (Field FIELD.RefApplVerID applVerID)
    else reject in
  reject ← fill reject;
  msgType ← lift (getField (m_header message) FIELD.MsgType);
  let reject := put_field reject (Field FIELD.RefMsgType msgType) in
  num ← lift (SeqNumField_valueOf msgSeqNum);
  let reject := put_field reject (SeqNumField FIELD.RefSeqNum num) in
  let reject := put_field reject (IntField FIELD.BusinessRejectReason err) in
  _ ← incrNextTarget;
  let rejected := lit "Message " ++ getString msgSeqNum ++ lit " Rejected" in
  reject ←
    match business_reason err with
    | Some reason =>
        if negb (field =? 0) then
          reject ← populateRejectReason_field reject field reason;
          _ ← onEvent (rejected ++ lit ": " ++ reason ++ lit ":" ++ SEQNUM_convert (u64 field));
          mret reject
        else
          _ ← onEvent (rejected ++ lit ": " ++ reason);
          mret (populateRejectReason reject reason)
    | None => _ ← onEvent rejected; mret reject
    end;
  _ ← sendRaw reject 0;
  mret ().

Definition generateLogout (text : str) : M unit :=
  logout ← newMessage MsgType_Logout;
  logout ← fill logout;
  let logout := match text with [] => logout | _ => put_field logout (Field FIELD.Text text) end in
  _ ← sendRaw logout 0;
  put_state (set_sentLogout true).

(** [reset()] *)
Definition reset : M unit :=
  _ ← generateLogout [];
  _ ← disconnect;
  reset_state.

Definition setResponder (pR : bool) : M unit :=
  _ ← when (m_refreshOnLogon config) refresh;
  now ← timestamp;
  inTime ← checkSessionTime now;
  _ ← when (negb inTime) reset;
  set_responder pR.

(** ** Checking what was received *)

Definition doBadTime (msg : Message) : M unit :=
  _ ← generateReject msg SessionRejectReason_SENDINGTIME_ACCURACY_PROBLEM 0;
  generateLogout [].

Definition doBadCompID (msg : Message) : M unit :=
  _ ← generateReject msg SessionRejectReason_COMPID_PROBLEM 0;
  generateLogout [].

Definition doPossDup (msg : Message) : M bool :=
  _ ← timestamp;
  msgType ← lift (getField (m_header msg) FIELD.MsgType);
  sendingTime ← lift (getFieldRef (m_header msg) FIELD.SendingTime);
  if str_eqb msgType MsgType_SequenceReset then mret true
  else
    match getFieldIfSet (m_header msg) FIELD.OrigSendingTime with
    | None => _ ← generateReject msg SessionRejectReason_REQUIRED_TAG_MISSING FIELD.OrigSendingTime; mret false
    | Some origSendingTime =>
        orig ← lift (valueOf UtcTimeStampConvertor_of_string origSendingTime);
        sent ← lift (valueOf UtcTimeStampConvertor_of_string sendingTime);
        if dt_gt orig sent then
          _ ← generateReject msg SessionRejectReason_SENDINGTIME_ACCURACY_PROBLEM 0;
          _ ← generateLogout [];
          mret false
        else mret true
    end.

Definition doTargetTooLow (msg : Message) : M bool :=
  possDupFlag ← match getFieldIfSet (m_header msg) FIELD.PossDupFlag with
                | Some f => lift (BoolField_valueOf f)
                | None => mret false
                end;
  f ← lift (getFieldRef (m_header msg) FIELD.MsgSeqNum);
  if negb possDupFlag then
    expected ← getExpectedTargetNum;
    msgSeqNum ← lift (SeqNumField_valueOf f);
    let text := lit "MsgSeqNum too low, expecting " ++ show_number expected ++ lit " but received " ++ show_number msgSeqNum in
    _ ← generateLogout text;
    raise (std_logic_error text)
  else doPossDup msg.

Definition doTargetTooHigh (msg : Message) : M unit :=
  beginString ← lift (getField (m_header msg) FIELD.BeginString);
  f ← lift (getFieldRef (m_header msg) FIELD.MsgSeqNum);
  msgSeqNum ← lift (SeqNumField_valueOf f);
  expected ← getExpectedTargetNum;
  _ ← onEvent (lit "MsgSeqNum too high, expecting " ++ SEQNUM_convert expected ++ lit " but received " ++ SEQNUM_convert msgSeqNum);
  _ ← put_state (queue msgSeqNum msg);
  requested ← read resendRequested;
  range ← read m_resendRange;
  if (requested : bool) && (negb (m_sendRedundantResendRequests config) && (fst range <=? msgSeqNum)) then
    onEvent (lit "Already sent ResendRequest FROM: " ++ SEQNUM_convert (fst range) ++ lit " TO: " ++ SEQNUM_convert (snd range) ++
             lit ".  Not sending another.")
  else generateResendRequest beginString msgSeqNum.

Definition fromCallback (msgType : str) (msg : Message) : M unit :=
  if isAdminMsgType msgType then callback (Called_fromAdmin msg) (fromAdmin application msg)
  else
    expected ← getExpectedTargetNum;
    app ← gets w_app;
    callback (Called_fromApp msg expected (is_Ok (snd (fromApp application msg app)))) (fromApp application msg).

(** The checks of [verify], in its [try]: whether they all passed. *)
Definition verify_checks (msg : Message) (checkTooHigh checkTooLow : bool) : M bool :=
  let header := m_header msg in
  pMsgType ← lift (getFieldRef header FIELD.MsgType);
  senderCompID ← lift (getField header FIELD.SenderCompID);
  targetCompID ← lift (getField header FIELD.TargetCompID);
  pSendingTime ← lift (getFieldRef header FIELD.SendingTime);
  msgSeqNum ← (if checkTooHigh || checkTooLow
               then f ← lift (getFieldRef header FIELD.MsgSeqNum); lift (SeqNumField_valueOf f)
               else mret 0);
  valid ← read (validLogonState (getString pMsgType));
  if negb valid then raise (std_logic_error (lit "Logon state is not valid for message"))
  else
    goodTime ← isGoodTime pSendingTime;
    if negb goodTime then _ ← doBadTime msg; mret false
    else if negb (isCorrectCompID senderCompID targetCompID) then _ ← doBadCompID msg; mret false
    else
      tooHigh ← (if checkTooHigh then isTargetTooHigh msgSeqNum else mret false);
      if tooHigh : bool then _ ← doTargetTooHigh msg; mret false
      else
        tooLow ← (if checkTooLow then isTargetTooLow msgSeqNum else mret false);
        if tooLow : bool then _ ← doTargetTooLow msg; mret false
        else
          requested ← read resendRequested;
          range ← read m_resendRange;
          _ ← when ((checkTooHigh || checkTooLow) && requested && (snd range <=? msgSeqNum))
                (_ ← onEvent (lit "ResendRequest for messages FROM: " ++ SEQNUM_convert (fst range) ++ lit " TO: " ++
                              SEQNUM_convert (snd range) ++ lit " has been satisfied.");
                 put_state (set_resendRange (0, 0)));
          mret true.

Definition verify (msg : Message) (checkTooHigh checkTooLow : bool) : M bool :=
  ok ← try_catch (verify_checks msg checkTooHigh checkTooLow)
         (fun e => if is_exception e then Some (_ ← onEvent (exn_what e); _ ← disconnect; mret false) else None);
  if negb ok then mret false
  else
    now ← timestamp;
    _ ← put_state (fun s => set_testRequest 0 (set_lastReceivedTime now s));
    _ ← fromCallback (type_of msg) msg;
    mret true.

(** ** Retransmission *)

(** One message of a retransmission: [gapFillSeqNum] is [0] for a resent
    message. *)
Record Retransmit := mkRetransmit {
  rt_message : Message;
  rt_gapFillSeqNum : Z;
  rt_event : str
}.

Definition resend (message : Message) : M (option Message) :=
  sendingTime ← lift (getFieldRef (m_header message) FIELD.SendingTime);
  _ ← lift (getFieldRef (m_header message) FIELD.MsgSeqNum);
  t ← lift (valueOf UtcTimeStampConvertor_of_string sendingTime);
  h ← insertOrigSendingTime (m_header message) t;
  h ← insertSendingTime (setField h (BoolField FIELD.PossDupFlag true));
  try_catch (message ← call_to Called_toApp (toApp application) (with_header message h); mret (Some message))
    (fun e => match e with DoNotSend _ => Some (mret None) | _ => None end).

(** The lambda [addSequenceReset], on the list so far. *)
Definition addSequenceReset (gapBegin gapEnd : Z) (retransmits : list Retransmit) : M (list Retransmit) :=
  sequenceReset ← newSequenceReset gapBegin gapEnd;
  prepared ← prepareToSend sequenceReset gapBegin true;
  mret match prepared with
       | Some message => retransmits ++ [mkRetransmit message gapBegin (lit "Sent SequenceReset TO: " ++ SEQNUM_convert gapEnd)]
       | None => retransmits
       end.

(** The type of a stored message, looked for in its text. *)
Definition stored_type (s : str) : result str :=
  if m_storeMsgFieldsOrder sessionDD then
    let equalSign := match find (SOH :: lit "35=") s with Some i => (i + 4)%nat | None => 3%nat end in
    if (length s <? equalSign)%nat then Throw (std_logic_error (lit "basic_string::substr"))
    else
      Ok match find_from [SOH] s equalSign with
         | Some soh => substr s equalSign (soh - equalSign)
         | None => drop equalSign s
         end
  else Ok [].

(** A stored message, decoded with the dictionaries of its version. *)
Definition decode_stored (s : str) : result Message :=
  strMsgType ← stored_type s;
  let doValidation := m_validateLengthAndChecksum config in
  if m_isFIXT id_ then
    '(_, msg) ← setStringHeader new_Message s;
    let applVerID := match getFieldIfSet (m_header msg) FIELD.ApplVerID with
                     | Some f => getString f
                     | None => m_senderDefaultApplVerID config
                     end in
    let appDD := applicationDD applVerID in
    match strMsgType with
    | [] => Message_of_string s (Some sessionDD) (Some appDD) doValidation
    | _ =>
        headerOrder ← getHeaderOrderedFields sessionDD;
        trailerOrder ← getTrailerOrderedFields sessionDD;
        messageOrder ← getMessageOrderedFields strMsgType appDD;
        Message_of_string_ordered headerOrder trailerOrder messageOrder s sessionDD appDD doValidation
    end
  else
    match strMsgType with
    | [] => Message_of_string s (Some sessionDD) (Some sessionDD) doValidation
    | _ =>
        headerOrder ← getHeaderOrderedFields sessionDD;
        trailerOrder ← getTrailerOrderedFields sessionDD;
        messageOrder ← getMessageOrderedFields strMsgType sessionDD;
        setString (Message_ordered headerOrder trailerOrder messageOrder) s doValidation (Some sessionDD) (Some sessionDD)
    end.

(** The variables of the loop. *)
Record resending := mkResending {
  r_retransmits : list Retransmit;
  r_msgSeqNum : Z;
  r_begin : Z;
  r_current : Z;
  r_appMessageJustSent : bool
}.

(** One pass of the loop over the stored messages. *)
Definition resend_one (r : resending) (s : str) : M resending :=
  msg ← lift (decode_stored s);
  f ← lift (getFieldRef (m_header msg) FIELD.MsgSeqNum);
  msgType ← lift (getField (m_header msg) FIELD.MsgType);
  msgSeqNum ← lift (SeqNumField_valueOf f);
  let begin := if negb (r_current r =? msgSeqNum) && (r_begin r =? 0) then r_current r else r_begin r in
  let next := u64 (msgSeqNum + 1) in
  let started := if begin =? 0 then msgSeqNum else begin in
  if isAdminMsgType msgType then mret (mkResending (r_retransmits r) msgSeqNum started next false)
  else
    resent ← resend msg;
    match resent with
    | Some msg =>
        retransmits ← (if negb (begin =? 0) then addSequenceReset begin msgSeqNum (r_retransmits r) else mret (r_retransmits r));
        mret (mkResending (retransmits ++ [mkRetransmit msg 0 (lit "Resending Message: " ++ SEQNUM_convert msgSeqNum)])
                msgSeqNum 0 next true)
    | None => mret (mkResending (r_retransmits r) msgSeqNum started next false)
    end.

Fixpoint resend_loop (r : resending) (messages : list str) : M resending :=
  match messages with
  | [] => mret r
  | s :: messages => r ← resend_one r s; resend_loop r messages
  end.

(** What goes out for a range: the first half of [generateRetransmits], without
    the session's lock. *)
Definition plan_retransmits (beginSeqNo endSeqNo : Z) : M (list Retransmit) :=
  messages ← read_result (state_get beginSeqNo endSeqNo);
  nextSenderMsgSeqNum ← getExpectedSenderNum;
  r ← resend_loop (mkResending [] 0 0 beginSeqNo false) messages;
  retransmits ← (if negb (r_begin r =? 0) then addSequenceReset (r_begin r) (u64 (r_msgSeqNum r + 1)) (r_retransmits r)
                 else mret (r_retransmits r));
  if r_msgSeqNum r <? endSeqNo then
    let endSeqNo := u64 (endSeqNo + 1) in
    let endSeqNo := if nextSenderMsgSeqNum <? endSeqNo then nextSenderMsgSeqNum else endSeqNo in
    let beginSeqNo := if r_appMessageJustSent r then u64 (r_msgSeqNum r + 1) else beginSeqNo in
    addSequenceReset beginSeqNo endSeqNo retransmits
  else mret retransmits.

(** The second half, under the lock. *)
Fixpoint send_retransmits (retransmits : list Retransmit) : M unit :=
  match retransmits with
  | [] => mret ()
  | r :: retransmits =>
      _ ← (if negb (rt_gapFillSeqNum r =? 0) then sendSequenced (rt_message r) (rt_gapFillSeqNum r) true
           else '(messageString, _) ← lift (toString_default (rt_message r)); send_string messageString);
      _ ← onEvent (rt_event r);
      send_retransmits retransmits
  end.

Definition generateRetransmits (beginSeqNo endSeqNo : Z) : M unit :=
  retransmits ← plan_retransmits beginSeqNo endSeqNo;
  send_retransmits retransmits.

(** ** The timer: [next(const UtcTimeStamp &)] *)

Definition next_logon_timer (now : DateTime) : M unit :=
  s ← read (fun s => s);
  if shouldSendLogon s && isLogonTime now then
    _ ← generateLogon;
    onEvent (lit "Initiated logon request")
  else if alreadySentLogon s then
    t ← timestamp;
    when (logonTimedOut s t)
      (_ ← onEvent (lit "Timed out waiting for logon response"); disconnect)
  else mret ().

Definition next_heartbeat_timer : M unit :=
  t ← timestamp;
  timeout ← read_result (fun s => timedOut s t);
  if timeout : bool then
    _ ← onEvent (lit "Timed out waiting for heartbeat");
    disconnect
  else
    t ← timestamp;
    test ← read_result (fun s => needTestRequest s t);
    if test : bool then
      _ ← generateTestRequest (lit "TEST");
      _ ← put_state (fun s => set_testRequest (i32 (m_testRequest s + 1)) s);
      onEvent (lit "Sent test request TEST")
    else
      t ← timestamp;
      beat ← read_result (fun s => needHeartbeat s t);
      if beat : bool then generateHeartbeat else mret ().

Definition next_timer_body (now : DateTime) : M unit :=
  inTime ← checkSessionTime now;
  if negb inTime then reset
  else
    enabled ← isEnabled;
    loggedOn ← isLoggedOn;
    if (negb enabled || negb (isLogonTime now)) && negb loggedOn then mret ()
    else
      sentLogout ← read m_sentLogout;
      _ ← when ((negb enabled || negb (isLogonTime now)) && negb sentLogout)
            (_ ← onEvent (lit "Initiated logout request");
             reason ← read m_logoutReason;
             generateLogout reason);
      receivedLogon ← read m_receivedLogon;
      if negb receivedLogon then next_logon_timer now
      else
        h ← read_result heartBtInt;
        if h =? 0 then mret ()
        else
          t ← timestamp;
          logoutTimeout ← read (fun s => logoutTimedOut s t);
          _ ← when logoutTimeout
                (_ ← onEvent (lit "Timed out waiting for logout response"); disconnect);
          t ← timestamp;
          within ← read_result (fun s => withinHeartBeat s t);
          if within : bool then mret () else next_heartbeat_timer.

Definition next_timer (now : DateTime) : M unit :=
  try_catch (next_timer_body now)
    (fun e => match e with
              | IOException _ => Some (_ ← onEvent (exn_what e); disconnect)
              | _ => None
              end).

(** ** Handlers

    [drain] is [nextQueued(now)], which calls back into them. *)
Section Handlers.
Context (drain : M unit).

(** [NextExpectedMsgSeqNum] of a Logon: whether to resend after the logon, and
    [None] when the logon is refused. *)
Definition check_next_expected (logon : Message) : M (option bool) :=
  match getFieldIfSet (m_body logon) FIELD.NextExpectedMsgSeqNum with
  | None => mret (Some false)
  | Some f =>
      num ← lift (SeqNumField_valueOf f);
      sender ← getExpectedSenderNum;
      if num <? sender then mret (Some true)
      else if sender <? num then
        let text := lit "NextExpectedMsgSeqNum too high, expecting " ++ show_number sender ++ lit " but received " ++ getString f in
        _ ← onEvent text;
        _ ← generateLogout text;
        _ ← disconnect;
        mret None
      else mret (Some false)
  end.

Definition retransmit_after_logon (logon : Message) : M unit :=
  f ← lift (getFieldRef (m_body logon) FIELD.NextExpectedMsgSeqNum);
  beginSeqNo ← lift (SeqNumField_valueOf f);
  sender ← getExpectedSenderNum;
  let endSeqNo := u64 (sender - 1) in
  _ ← onEvent (lit "Sending retransmits due to received NextExpectedMsgSeqNum is too low. FROM: " ++ SEQNUM_convert beginSeqNo ++
               lit " TO: " ++ SEQNUM_convert endSeqNo);
  if negb (m_persistMessages config) then
    let endSeqNo := u64 (endSeqNo + 1) in
    next ← getExpectedSenderNum;
    generateSequenceReset beginSeqNo (if next <? endSeqNo then next else endSeqNo)
  else generateRetransmits beginSeqNo endSeqNo.

(** [nextLogon] once the Logon was accepted. *)
Definition accept_logon (logon : Message) (resetSeqNumFlag : bool) : M unit :=
  _ ← put_state (set_receivedLogon true);
  sendRetransmitsAfterLogon ← check_next_expected logon;
  match sendRetransmitsAfterLogon with
  | None => mret ()
  | Some sendRetransmitsAfterLogon =>
      s ← read (fun s => s);
      _ ← (if negb (m_initiate s) || (m_receivedReset s && negb (m_sentReset s)) then
             _ ← match getFieldIfSet (m_body logon) FIELD.HeartBtInt with
                 | Some f => put_state (set_heartBtInt f)
                 | None => mret ()
                 end;
             _ ← onEvent (lit "Received logon request");
             _ ← generateLogon_reply logon;
             onEvent (lit "Responding to logon request")
           else onEvent (lit "Received logon response"));
      _ ← put_state (fun s => set_receivedReset false (set_sentReset false s));
      f ← lift (getFieldRef (m_header logon) FIELD.MsgSeqNum);
      msgSeqNum ← lift (SeqNumField_valueOf f);
      tooHigh ← isTargetTooHigh msgSeqNum;
      _ ← (if (tooHigh : bool) && negb resetSeqNumFlag then
             if m_sendNextExpectedMsgSeqNum config then
               expected ← getExpectedTargetNum;
               _ ← onEvent (lit "Expecting retransmits FROM: " ++ SEQNUM_convert expected ++ lit " TO: " ++ SEQNUM_convert (u64 (msgSeqNum - 1)));
               put_state (fun s => set_resendRange (expected, u64 (msgSeqNum - 1)) (queue msgSeqNum logon s))
             else doTargetTooHigh logon
           else
             _ ← incrNextTarget;
             drain);
      loggedOn ← isLoggedOn;
      _ ← when loggedOn (callback Called_onLogon (onLogon application));
      when sendRetransmitsAfterLogon (retransmit_after_logon logon)
  end.

Definition nextLogon (logon : Message) (now : DateTime) : M unit :=
  _ ← lift (getFieldRef (m_header logon) FIELD.SenderCompID);
  _ ← lift (getFieldRef (m_header logon) FIELD.TargetCompID);
  _ ← when (m_refreshOnLogon config) refresh;
  enabled ← isEnabled;
  if negb enabled then
    _ ← onEvent (lit "Session is not enabled for logon");
    disconnect
  else if negb (isLogonTime now) then
    _ ← onEvent (lit "Received logon outside of valid logon time");
    disconnect
  else
    resetSeqNumFlag ← match getFieldIfSet (m_body logon) FIELD.ResetSeqNumFlag with
                      | Some f => lift (BoolField_valueOf f)
                      | None => mret false
                      end;
    _ ← put_state (set_receivedReset resetSeqNumFlag);
    s ← read (fun s => s);
    if shouldSendLogon s && negb (m_receivedReset s) then
      _ ← onEvent (lit "Received logon response before sending request");
      disconnect
    else
      let resetRequested := m_receivedReset s && negb (m_sentReset s) in
      let resetOnLogon := negb (m_initiate s) && m_resetOnLogon config in
      ok ← verify logon false (negb (resetRequested || resetOnLogon));
      if negb ok then mret ()
      else
        receivedReset ← read m_receivedReset;
        _ ← when receivedReset (onEvent (lit "Logon contains ResetSeqNumFlag=Y, reseting sequence numbers to 1"));
        tooLow ← (if resetRequested || resetOnLogon then
                    _ ← reset_state;
                    f ← lift (getFieldRef (m_header logon) FIELD.MsgSeqNum);
                    num ← lift (SeqNumField_valueOf f);
                    isTargetTooLow num
                  else mret false);
        if tooLow : bool then _ ← doTargetTooLow logon; mret ()
        else accept_logon logon resetSeqNumFlag.

Definition nextHeartbeat (heartbeat : Message) : M unit :=
  ok ← verify heartbeat true true;
  if negb ok then mret ()
  else _ ← incrNextTarget; drain.

Definition nextTestRequest (testRequest : Message) : M unit :=
  ok ← verify testRequest true true;
  if negb ok then mret ()
  else
    _ ← generateHeartbeat_reply testRequest;
    _ ← incrNextTarget;
    drain.

Definition nextLogout (logout : Message) : M unit :=
  ok ← verify logout false false;
  if negb ok then mret ()
  else
    sentLogout ← read m_sentLogout;
    _ ← (if negb sentLogout then
           _ ← onEvent (lit "Received logout request");
           _ ← generateLogout [];
           onEvent (lit "Sending logout response")
         else onEvent (lit "Received logout response"));
    _ ← incrNextTarget;
    _ ← when (m_resetOnLogout config) reset_state;
    disconnect.

Definition nextReject (reject : Message) : M unit :=
  ok ← verify reject false true;
  if negb ok then mret ()
  else _ ← incrNextTarget; drain.

Definition nextSequenceReset (sequenceReset : Message) : M unit :=
  isGapFill ← match getFieldIfSet (m_body sequenceReset) FIELD.GapFillFlag with
              | Some f => lift (BoolField_valueOf f)
              | None => mret false
              end;
  ok ← verify sequenceReset isGapFill isGapFill;
  if negb ok then mret ()
  else
    match getFieldIfSet (m_body sequenceReset) FIELD.NewSeqNo with
    | None => mret ()
    | Some f =>
        expected ← getExpectedTargetNum;
        newSeqNo ← lift (SeqNumField_valueOf f);
        _ ← onEvent (lit "Received SequenceReset FROM: " ++ SEQNUM_convert expected ++ lit " TO: " ++ SEQNUM_convert newSeqNo);
        if expected <? newSeqNo then
          _ ← store_call (Store_setNextTarget newSeqNo) (state_setNextTarget newSeqNo);
          _ ← put_state (clearQueueUpTo newSeqNo);
          drain
        else if (newSeqNo <? expected) && negb isGapFill then
          generateReject sequenceReset SessionRejectReason_VALUE_IS_INCORRECT 0
        else mret ()
    end.

(** The end of the range a ResendRequest asks for. *)
Definition resend_end (endSeqNo sender : Z) : Z :=
  if (str_ge begin_string BeginString_FIX42 && (endSeqNo =? 0)) ||
     (negb (str_ltb BeginString_FIX42 begin_string) && (endSeqNo =? 999999)) || (sender <=? endSeqNo)
  then u64 (sender - 1) else endSeqNo.

Definition nextResendRequest (resendRequest : Message) : M unit :=
  ok ← verify resendRequest false false;
  if negb ok then mret ()
  else
    fb ← lift (getFieldRef (m_body resendRequest) FIELD.BeginSeqNo);
    beginSeqNo ← lift (SeqNumField_valueOf fb);
    fe ← lift (getFieldRef (m_body resendRequest) FIELD.EndSeqNo);
    endSeqNo ← lift (SeqNumField_valueOf fe);
    _ ← onEvent (lit "Received ResendRequest FROM: " ++ SEQNUM_convert beginSeqNo ++ lit " TO: " ++ SEQNUM_convert endSeqNo);
    sender ← getExpectedSenderNum;
    let endSeqNo := resend_end endSeqNo sender in
    _ ← (if negb (m_persistMessages config) then
           let endSeqNo := u64 (endSeqNo + 1) in
           next ← getExpectedSenderNum;
           generateSequenceReset beginSeqNo (if next <? endSeqNo then next else endSeqNo)
         else generateRetransmits beginSeqNo endSeqNo);
    f ← lift (getFieldRef (m_header resendRequest) FIELD.MsgSeqNum);
    msgSeqNum ← lift (SeqNumField_valueOf f);
    tooHigh ← isTargetTooHigh msgSeqNum;
    if tooHigh : bool then mret ()
    else
      tooLow ← isTargetTooLow msgSeqNum;
      if tooLow : bool then mret () else incrNextTarget.

(** A message of the application; [false] when it was not accepted. *)
Definition next_app (message : Message) : M bool :=
  ok ← verify message true true;
  if negb ok then mret false
  else _ ← incrNextTarget; mret true.

(** ** One received message: [next(const Message &, now, queued)] *)

(** The part of the [try] that routes the message; [false] when the function
    returns from it. *)
Definition dispatch (message : Message) (now : DateTime) : M bool :=
  let header := m_header message in
  msgType ← lift (getField header FIELD.MsgType);
  beginString ← lift (getField header FIELD.BeginString);
  _ ← lift (guard_or (isSetField header FIELD.SenderCompID) (FieldNotFound FIELD.SenderCompID []));
  _ ← lift (guard_or (isSetField header FIELD.TargetCompID) (FieldNotFound FIELD.TargetCompID []));
  if negb (str_eqb beginString begin_string) then raise (UnsupportedVersion [])
  else
    _ ← (if str_eqb msgType MsgType_Logon then
           if m_isFIXT id_ then
             applVerID ← lift (getField (m_body message) FIELD.DefaultApplVerID);
             setTargetDefaultApplVerID applVerID
           else setTargetDefaultApplVerID (toApplVerID beginString)
         else mret ());
    targetDefault ← gets w_targetDefaultApplVerID;
    _ ← (if m_isFIXT id_ && isApp message then
           let applVerID := match getFieldIfSet header FIELD.ApplVerID with Some f => getString f | None => targetDefault end in
           lift (dd_validate message (Some sessionDD) (Some (applicationDD applVerID)))
         else lift (dd_validate_bodyOnly message false sessionDD));
    if str_eqb msgType MsgType_Logon then _ ← nextLogon message now; mret true
    else if str_eqb msgType MsgType_Heartbeat then _ ← nextHeartbeat message; mret true
    else if str_eqb msgType MsgType_TestRequest then _ ← nextTestRequest message; mret true
    else if str_eqb msgType MsgType_SequenceReset then _ ← nextSequenceReset message; mret true
    else if str_eqb msgType MsgType_Logout then _ ← nextLogout message; mret true
    else if str_eqb msgType MsgType_ResendRequest then _ ← nextResendRequest message; mret true
    else if str_eqb msgType MsgType_Reject then _ ← nextReject message; mret true
    else next_app message.

(** The [catch] clauses. *)
Definition on_exception (message : Message) (e : exn) : option (M unit) :=
  let header := m_header message in
  let reject err field := Some (LOGEX (generateReject message err field)) in
  match e with
  | MessageParseError _ => Some (onEvent (exn_what e))
  | RequiredTagMissing field _ => reject SessionRejectReason_REQUIRED_TAG_MISSING field
  | FieldNotFound field _ =>
      Some (beginString ← lift (getField header FIELD.BeginString);
            if str_ge beginString BeginString_FIX42 && isApp message then
              LOGEX (generateBusinessReject message BusinessRejectReason_CONDITIONALLY_REQUIRED_FIELD_MISSING field)
            else
              _ ← LOGEX (generateReject message SessionRejectReason_REQUIRED_TAG_MISSING field);
              msgType ← lift (getField header FIELD.MsgType);
              when (str_eqb msgType MsgType_Logon)
                (_ ← onEvent (lit "Required field missing from logon"); disconnect))
  | InvalidTagNumber field _ => reject SessionRejectReason_INVALID_TAG_NUMBER field
  | NoTagValue field _ => reject SessionRejectReason_TAG_SPECIFIED_WITHOUT_A_VALUE field
  | TagNotDefinedForMessage field _ => reject SessionRejectReason_TAG_NOT_DEFINED_FOR_THIS_MESSAGE_TYPE field
  | InvalidMessageType _ => reject SessionRejectReason_INVALID_MSGTYPE 0
  | UnsupportedMessageType _ =>
      Some (beginString ← lift (getField header FIELD.BeginString);
            if str_ge beginString BeginString_FIX42
            then LOGEX (generateBusinessReject message BusinessRejectReason_UNSUPPORTED_MESSAGE_TYPE 0)
            else LOGEX (generateReject_text message (lit "Unsupported message type") 0))
  | OutOfOrderGroupMembers field _ => Some (LOGEX (generateReject_text message (lit "Out of order repeating group members") field))
  | EmbeddedSOH field _ => Some (LOGEX (generateReject_text message (lit "Embedded SOH") field))
  | TagOutOfOrder field _ => reject SessionRejectReason_TAG_SPECIFIED_OUT_OF_REQUIRED_ORDER field
  | IncorrectDataFormat field _ => reject SessionRejectReason_INCORRECT_DATA_FORMAT_FOR_VALUE field
  | IncorrectTagValue field _ => reject SessionRejectReason_VALUE_IS_INCORRECT field
  | RepeatedTag field _ => reject SessionRejectReason_TAG_APPEARS_MORE_THAN_ONCE field
  | RepeatingGroupCountMismatch field _ => reject SessionRejectReason_INCORRECT_NUMINGROUP_COUNT_FOR_REPEATING_GROUP field
  | InvalidMessage _ => Some (onEvent (exn_what e))
  | RejectLogon _ =>
      Some (_ ← onEvent (exn_what e);
            _ ← generateLogout (exn_what e);
            disconnect)
  | UnsupportedVersion _ =>
      Some (msgType ← lift (getField header FIELD.MsgType);
            if str_eqb msgType MsgType_Logout then nextLogout message
            else
              _ ← generateLogout (lit "Incorrect BeginString");
              incrNextTarget)
  | IOException _ => Some (_ ← onEvent (exn_what e); disconnect)
  | _ => None
  end.

Definition next_message (message : Message) (now : DateTime) (queued : bool) : M unit :=
  continue_ ← try_catch
    (inTime ← checkSessionTime now;
     if negb inTime then _ ← reset; mret false
     else dispatch message now)
    (fun e => match on_exception message e with
              | Some h => Some (_ ← h; mret true)
              | None => None
              end);
  if negb continue_ then mret ()
  else
    _ ← when (negb queued) drain;
    loggedOn ← isLoggedOn;
    when loggedOn (t ← timestamp; next_timer t).

(** [nextQueued(num, now)]: whether there was such a message. *)
Definition nextQueued_num (num : Z) (now : DateTime) : M bool :=
  found ← read (retrieve num);
  match found with
  | None => mret false
  | Some (msg, s) =>
      _ ← put_state (fun _ => s);
      _ ← onEvent (lit "Processing QUEUED message: " ++ SEQNUM_convert num);
      msgType ← lift (getField (m_header msg) FIELD.MsgType);
      _ ← (if str_eqb msgType MsgType_Logon || str_eqb msgType MsgType_ResendRequest then incrNextTarget
           else next_message msg now true);
      mret true
  end.
End Handlers.

(** [nextQueued(now)]: the loop, and the calls it nests, take one unit of
    [fuel] for each message they take out of the queue. *)
Fixpoint nextQueued (fuel : nat) (now : DateTime) : M unit :=
  match fuel with
  | O => raise OutOfFuel
  | Datatypes.S fuel =>
      num ← getExpectedTargetNum;
      more ← nextQueued_num (nextQueued fuel now) num now;
      if more : bool then nextQueued fuel now else mret ()
  end.

(** Fuel for a queue and a message that may join it. *)
Definition enough_fuel (w : World S A) : nat := Datatypes.S (Datatypes.S (length (m_queue (w_state w)))).

(** [next(const Message &, now)], as the connection calls it. *)
Definition next (message : Message) (now : DateTime) : M unit := fun w =>
  next_message (nextQueued (enough_fuel w) now) message now false w.

(** [next(const std::string &, now)] *)
Definition next_string (msg : str) (now : DateTime) : M unit :=
  try_catch
    (_ ← onIncoming msg;
     let appDD := if m_isFIXT id_ then applicationDD (m_senderDefaultApplVerID config) else sessionDD in
     message ← lift (setString new_Message msg (m_validateLengthAndChecksum config) (Some sessionDD) (Some appDD));
     next message now)
    (fun e => match e with
              | InvalidMessage _ =>
                  Some (_ ← onEvent (exn_what e);
                        _ ← try_catch
                              (msgType ← lift (identifyType msg);
                               when (str_eqb msgType MsgType_Logon)
                                 (_ ← onEvent (lit "Logon message is not valid"); disconnect))
                              (fun e => match e with MessageParseError _ => Some (mret ()) | _ => None end);
                        raise e)
              | _ => None
              end).
End Session.
