(* ===== verification/SessionFactory.v ===== *)
(** * Creating sessions from settings ([src/C++/SessionFactory.h], [SessionFactory.cpp])

    [create] reads the settings of a session, gets its data dictionaries, which
    sessions of one factory share, constructs the session and sets what the
    settings say. What other parts do is a parameter: [read_dictionary] is the
    constructor of [DataDictionary] from a file, [create_store] and [create_log]
    are the factories of stores and logs, [onCreate] the application's callback,
    [clock] the readings of the time. *)
From S2P Require Import Prelude Convertors Values DateTime TimeConvertors TimeRange OrdMap Field DictData Message SessionID.
From S2P Require Import TextMap Settings Registry MessageStore SessionState Provider Session.

(** ** The keys ([SessionSettings.h]) *)

Definition DEFAULT_APPLVERID : str := lit "DefaultApplVerID".
Definition USE_DATA_DICTIONARY : str := lit "UseDataDictionary".
Definition SEND_REDUNDANT_RESENDREQUESTS : str := lit "SendRedundantResendRequests".
Definition SEND_NEXT_EXPECTED_MSG_SEQ_NUM : str := lit "SendNextExpectedMsgSeqNum".
Definition DATA_DICTIONARY : str := lit "DataDictionary".
Definition TRANSPORT_DATA_DICTIONARY : str := lit "TransportDataDictionary".
Definition APP_DATA_DICTIONARY : str := lit "AppDataDictionary".
Definition USE_LOCAL_TIME : str := lit "UseLocalTime".
Definition START_TIME : str := lit "StartTime".
Definition END_TIME : str := lit "EndTime".
Definition START_DAY : str := lit "StartDay".
Definition END_DAY : str := lit "EndDay".
Definition NON_STOP_SESSION : str := lit "NonStopSession".
Definition LOGON_TIME : str := lit "LogonTime".
Definition LOGOUT_TIME : str := lit "LogoutTime".
Definition LOGON_DAY : str := lit "LogonDay".
Definition LOGOUT_DAY : str := lit "LogoutDay".
Definition CHECK_COMPID : str := lit "CheckCompID".
Definition CHECK_LATENCY : str := lit "CheckLatency".
Definition MAX_LATENCY : str := lit "MaxLatency".
Definition HEARTBTINT : str := lit "HeartBtInt".
Definition VALIDATE_LENGTH_AND_CHECKSUM : str := lit "ValidateLengthAndChecksum".
Definition VALIDATE_FIELDS_OUT_OF_ORDER : str := lit "ValidateFieldsOutOfOrder".
Definition VALIDATE_FIELDS_HAVE_VALUES : str := lit "ValidateFieldsHaveValues".
Definition VALIDATE_USER_DEFINED_FIELDS : str := lit "ValidateUserDefinedFields".
Definition ALLOW_UNKNOWN_MSG_FIELDS : str := lit "AllowUnknownMsgFields".
Definition PRESERVE_MESSAGE_FIELDS_ORDER : str := lit "PreserveMessageFieldsOrder".
Definition LOGON_TIMEOUT : str := lit "LogonTimeout".
Definition LOGOUT_TIMEOUT : str := lit "LogoutTimeout".
Definition RESET_ON_LOGON : str := lit "ResetOnLogon".
Definition RESET_ON_LOGOUT : str := lit "ResetOnLogout".
Definition RESET_ON_DISCONNECT : str := lit "ResetOnDisconnect".
Definition REFRESH_ON_LOGON : str := lit "RefreshOnLogon".
Definition MILLISECONDS_IN_TIMESTAMP : str := lit "MillisecondsInTimeStamp".
Definition TIMESTAMP_PRECISION : str := lit "TimestampPrecision".
Definition PERSIST_MESSAGES : str := lit "PersistMessages".
Definition ALLOWED_REMOTE_ADDRESSES : str := lit "AllowedRemoteAddresses".

(** ** The session's setters ([Session.h]) *)

Section Setters.
Implicit Types (c : Config) (v : bool).

Definition setLogonTime (value : TimeRange) c : Config :=
  let 'mkConfig a0 a1 _ a3 a4 a5 a6 a7 a8 a9 a10 a11 a12 a13 a14 a15 a16 a17 a18 := c in
  mkConfig a0 a1 value a3 a4 a5 a6 a7 a8 a9 a10 a11 a12 a13 a14 a15 a16 a17 a18.
Definition setSenderDefaultApplVerID (value : str) c : Config :=
  let 'mkConfig a0 a1 a2 _ a4 a5 a6 a7 a8 a9 a10 a11 a12 a13 a14 a15 a16 a17 a18 := c in
  mkConfig a0 a1 a2 value a4 a5 a6 a7 a8 a9 a10 a11 a12 a13 a14 a15 a16 a17 a18.
Definition setSendRedundantResendRequests v c : Config :=
  let 'mkConfig a0 a1 a2 a3 _ a5 a6 a7 a8 a9 a10 a11 a12 a13 a14 a15 a16 a17 a18 := c in
  mkConfig a0 a1 a2 a3 v a5 a6 a7 a8 a9 a10 a11 a12 a13 a14 a15 a16 a17 a18.
Definition setCheckCompId v c : Config :=
  let 'mkConfig a0 a1 a2 a3 a4 _ a6 a7 a8 a9 a10 a11 a12 a13 a14 a15 a16 a17 a18 := c in
  mkConfig a0 a1 a2 a3 a4 v a6 a7 a8 a9 a10 a11 a12 a13 a14 a15 a16 a17 a18.
Definition setCheckLatency v c : Config :=
  let 'mkConfig a0 a1 a2 a3 a4 a5 _ a7 a8 a9 a10 a11 a12 a13 a14 a15 a16 a17 a18 := c in
  mkConfig a0 a1 a2 a3 a4 a5 v a7 a8 a9 a10 a11 a12 a13 a14 a15 a16 a17 a18.
Definition setMaxLatency (value : Z) c : Config :=
  let 'mkConfig a0 a1 a2 a3 a4 a5 a6 _ a8 a9 a10 a11 a12 a13 a14 a15 a16 a17 a18 := c in
  mkConfig a0 a1 a2 a3 a4 a5 a6 value a8 a9 a10 a11 a12 a13 a14 a15 a16 a17 a18.
Definition setResetOnLogon v c : Config :=
  let 'mkConfig a0 a1 a2 a3 a4 a5 a6 a7 _ a9 a10 a11 a12 a13 a14 a15 a16 a17 a18 := c in
  mkConfig a0 a1 a2 a3 a4 a5 a6 a7 v a9 a10 a11 a12 a13 a14 a15 a16 a17 a18.
Definition setResetOnLogout v c : Config :=
  let 'mkConfig a0 a1 a2 a3 a4 a5 a6 a7 a8 _ a10 a11 a12 a13 a14 a15 a16 a17 a18 := c in
  mkConfig a0 a1 a2 a3 a4 a5 a6 a7 a8 v a10 a11 a12 a13 a14 a15 a16 a17 a18.
Definition setResetOnDisconnect v c : Config :=
  let 'mkConfig a0 a1 a2 a3 a4 a5 a6 a7 a8 a9 _ a11 a12 a13 a14 a15 a16 a17 a18 := c in
  mkConfig a0 a1 a2 a3 a4 a5 a6 a7 a8 a9 v a11 a12 a13 a14 a15 a16 a17 a18.
Definition setRefreshOnLogon v c : Config :=
  let 'mkConfig a0 a1 a2 a3 a4 a5 a6 a7 a8 a9 a10 _ a12 a13 a14 a15 a16 a17 a18 := c in
  mkConfig a0 a1 a2 a3 a4 a5 a6 a7 a8 a9 a10 v a12 a13 a14 a15 a16 a17 a18.
Definition set_precision (value : Z) c : Config :=
  let 'mkConfig a0 a1 a2 a3 a4 a5 a6 a7 a8 a9 a10 a11 _ a13 a14 a15 a16 a17 a18 := c in
  mkConfig a0 a1 a2 a3 a4 a5 a6 a7 a8 a9 a10 a11 value a13 a14 a15 a16 a17 a18.
Definition setMillisecondsInTimeStamp v c : Config := set_precision (if v then 3 else 0) c.
Definition setTimestampPrecision (precision : Z) c : Config :=
  if (precision <? 0) || (9 <? precision) then c else set_precision precision c.
Definition setPersistMessages v c : Config :=
  let 'mkConfig a0 a1 a2 a3 a4 a5 a6 a7 a8 a9 a10 a11 a12 _ a14 a15 a16 a17 a18 := c in
  mkConfig a0 a1 a2 a3 a4 a5 a6 a7 a8 a9 a10 a11 a12 v a14 a15 a16 a17 a18.
Definition setValidateLengthAndChecksum v c : Config :=
  let 'mkConfig a0 a1 a2 a3 a4 a5 a6 a7 a8 a9 a10 a11 a12 a13 _ a15 a16 a17 a18 := c in
  mkConfig a0 a1 a2 a3 a4 a5 a6 a7 a8 a9 a10 a11 a12 a13 v a15 a16 a17 a18.
Definition setSendNextExpectedMsgSeqNum v c : Config :=
  let 'mkConfig a0 a1 a2 a3 a4 a5 a6 a7 a8 a9 a10 a11 a12 a13 a14 _ a16 a17 a18 := c in
  mkConfig a0 a1 a2 a3 a4 a5 a6 a7 a8 a9 a10 a11 a12 a13 a14 v a16 a17 a18.
Definition setIsNonStopSession v c : Config :=
  let 'mkConfig a0 a1 a2 a3 a4 a5 a6 a7 a8 a9 a10 a11 a12 a13 a14 a15 _ a17 a18 := c in
  mkConfig a0 a1 a2 a3 a4 a5 a6 a7 a8 a9 a10 a11 a12 a13 a14 a15 v a17 a18.
End Setters.

(** A session object: its settings, its state, and the addresses it accepts
    connections from. *)
Record SessionObject (S : Type) := mkSessionObject {
  o_config : Config;
  o_state : SessionState S;
  m_allowedRemoteAddresses : list (str * unit)
}.
Arguments mkSessionObject {S}.
Arguments o_config {S} _.
Arguments o_state {S} _.
Arguments m_allowedRemoteAddresses {S} _.

Section Objects.
Context {S : Type}.
Implicit Types (o : SessionObject S).

Definition configure (f : Config -> Config) o : SessionObject S := mkSessionObject (f (o_config o)) (o_state o) (m_allowedRemoteAddresses o).
Definition setLogonTimeout (value : Z) o : SessionObject S :=
  mkSessionObject (o_config o) (set_logonTimeout value (o_state o)) (m_allowedRemoteAddresses o).
Definition setLogoutTimeout (value : Z) o : SessionObject S :=
  mkSessionObject (o_config o) (set_logoutTimeout value (o_state o)) (m_allowedRemoteAddresses o).
Definition setAllowedRemoteAddresses (value : list (str * unit)) o : SessionObject S :=
  mkSessionObject (o_config o) (o_state o) value.
Definition inAllowedRemoteAddresses (value : str) o : bool := tm_has id value (m_allowedRemoteAddresses o).
End Objects.

(** ** [string_split] ([Utility.cpp]) *)

(** The pieces between the delimiters; the last one may be empty. *)
Fixpoint pieces (delimiter : ascii) (s : str) : list str :=
  match s with
  | [] => [[]]
  | c :: s =>
      match pieces delimiter s with
      | [] => [[c]]
      | w :: ws => if bool_decide (c = delimiter) then [] :: w :: ws else (c :: w) :: ws
      end
  end.

Fixpoint drop_spaces (s : str) : str :=
  match s with
  | c :: rest => if bool_decide (c ∈ [" "; "009"]%char) then drop_spaces rest else s
  | [] => []
  end.

(** A piece of spaces and tabs only is left out. *)
Definition insert_piece (subStrings : list (str * unit)) (piece : str) : list (str * unit) :=
  match drop_spaces piece with
  | [] => subStrings
  | token => tm_set id (rev (drop_spaces (rev token))) () subStrings
  end.

Definition string_split (value : str) (delimiter : ascii) : list (str * unit) :=
  fold_left insert_piece (pieces delimiter value) [].

(** ** The factory's state *)

(** The dictionaries it has read, by path and order flag, and by those and the
    four validation flags. A dictionary is not changed once it is in the table,
    so the shared object is its value. *)
Definition Dictionaries : Type := list (str * DataDictionary).

(** Operations that may change the table and throw. *)
Definition F (X : Type) : Type := Dictionaries -> Dictionaries * result X.

#[export] Instance F_ret : MRet F := fun X x t => (t, Ok x).
#[export] Instance F_bind : MBind F := fun X Y f m t =>
  match m t with
  | (t, Ok x) => f x t
  | (t, Throw e) => (t, Throw e)
  end.

Definition f_lift {X} (r : result X) : F X := fun t => (t, r).

(** [if (settings.has(key)) x = settings.get...(key);] *)
Definition optional {X} (get : Dictionary -> str -> result X) (settings : Dictionary) (key : str) : result (option X) :=
  if dict_has settings key then Some <$> get settings key else Ok None.

Section Factory.
Context (read_dictionary : str -> bool -> result DataDictionary).

(** ** Data dictionaries *)

Definition flag (settings : Dictionary) (key : str) : result ascii :=
  v ← optional getBool settings key;
  mret (match v with Some true => "1"%char | Some false => "0"%char | None => "-"%char end).

Definition fileKey (path : str) (preserve : bool) : str := path ++ ["010"; if preserve then "1" else "0"]%char.
Definition sessionKey (path : str) (preserve : bool) (flags : str) : str := fileKey path preserve ++ ["010"%char] ++ flags.

(** [if (settings.has(key)) pFlagged->set(settings.getBool(key));] *)
Definition apply_flag (set : bool -> DataDictionary -> DataDictionary) (settings : Dictionary) (key : str) (d : DataDictionary)
    : result DataDictionary :=
  v ← optional getBool settings key;
  mret (match v with Some v => set v d | None => d end).

Definition apply_flags (settings : Dictionary) (d : DataDictionary) : result DataDictionary :=
  d ← apply_flag set_checkFieldsOutOfOrder settings VALIDATE_FIELDS_OUT_OF_ORDER d;
  d ← apply_flag set_checkFieldsHaveValues settings VALIDATE_FIELDS_HAVE_VALUES d;
  d ← apply_flag set_checkUserDefinedFields settings VALIDATE_USER_DEFINED_FIELDS d;
  apply_flag set_allowUnknownMessageFields settings ALLOW_UNKNOWN_MSG_FIELDS d.

(** What a session asks for: path, order flag and validation flags. *)
Definition dictionary_request (settings : Dictionary) (settingsKey : str) : result (str * bool * str) :=
  path ← getString settings settingsKey false;
  preserve ← optional getBool settings PRESERVE_MESSAGE_FIELDS_ORDER;
  f1 ← flag settings VALIDATE_FIELDS_OUT_OF_ORDER;
  f2 ← flag settings VALIDATE_FIELDS_HAVE_VALUES;
  f3 ← flag settings VALIDATE_USER_DEFINED_FIELDS;
  f4 ← flag settings ALLOW_UNKNOWN_MSG_FIELDS;
  mret (path, default false preserve, [f1; f2; f3; f4]).

(** The dictionary as it is read, from the table or the file. *)
Definition parsed_dictionary (path : str) (preserve : bool) : F DataDictionary := fun t =>
  match str_lookup (fileKey path preserve) t with
  | Some pDD => (t, Ok pDD)
  | None =>
      match read_dictionary path preserve with
      | Ok pDD => (str_set (fileKey path preserve) pDD t, Ok pDD)
      | Throw e => (t, Throw e)
      end
  end.

Definition put (key : str) (d : DataDictionary) : F unit := fun t => (str_set key d t, Ok ()).

Definition createDataDictionary (settings : Dictionary) (settingsKey : str) : F DataDictionary :=
  '(path, preserve, flags) ← f_lift (dictionary_request settings settingsKey);
  let key := sessionKey path preserve flags in
  shared ← (fun t => (t, Ok (str_lookup key t)));
  match shared with
  | Some d => mret d
  | None =>
      pDD ← parsed_dictionary path preserve;
      if bool_decide (flags = lit "----") then _ ← put key pDD; mret pDD
      else
        pFlagged ← f_lift (apply_flags settings pDD);
        _ ← put key pFlagged;
        mret pFlagged
  end.

(** ** Providers *)

Definition processFixDataDictionary (sessionID : SessionID) (settings : Dictionary) (provider : DataDictionaryProvider)
    : F DataDictionaryProvider :=
  pDataDictionary ← createDataDictionary settings DATA_DICTIONARY;
  let provider := addTransportDataDictionary (m_beginString sessionID) pDataDictionary provider in
  mret (addApplicationDataDictionary (toApplVerID (m_beginString sessionID)) pDataDictionary provider).

(** One key of the settings; the keys are in capitals. *)
Definition process_key (settings : Dictionary) (key : str) (provider : DataDictionaryProvider) : F DataDictionaryProvider :=
  let frontKey := substr key 0 (length APP_DATA_DICTIONARY) in
  if negb (bool_decide (frontKey = string_toUpper APP_DATA_DICTIONARY)) then mret provider
  else if bool_decide (key = string_toUpper APP_DATA_DICTIONARY) then
    v ← f_lift (getString settings DEFAULT_APPLVERID false);
    d ← createDataDictionary settings APP_DATA_DICTIONARY;
    mret (addApplicationDataDictionary (toApplVerID v) d provider)
  else
    match find (lit ".") key with
    | None => f_lift (Throw (ConfigError (lit "Malformed " ++ APP_DATA_DICTIONARY ++ lit ": " ++ key)))
    | Some offset =>
        let beginStringQualifier := drop (offset + 1) key in
        d ← createDataDictionary settings key;
        mret (addApplicationDataDictionary (toApplVerID beginStringQualifier) d provider)
    end.

Fixpoint process_keys (settings : Dictionary) (data : list (str * str)) (provider : DataDictionaryProvider)
    : F DataDictionaryProvider :=
  match data with
  | [] => mret provider
  | (key, _) :: data =>
      provider ← process_key settings key provider;
      process_keys settings data provider
  end.

Definition processFixtDataDictionaries (sessionID : SessionID) (settings : Dictionary) (provider : DataDictionaryProvider)
    : F DataDictionaryProvider :=
  pDataDictionary ← createDataDictionary settings TRANSPORT_DATA_DICTIONARY;
  let provider := addTransportDataDictionary (m_beginString sessionID) pDataDictionary provider in
  process_keys settings (m_data settings) provider.

(** [useDataDictionary] and the provider it leads to. *)
Definition create_provider (sessionID : SessionID) (settings : Dictionary) : F DataDictionaryProvider :=
  useDataDictionary ← f_lift (optional getBool settings USE_DATA_DICTIONARY);
  _ ← f_lift (guard_or (negb (m_isFIXT sessionID) || dict_has settings DEFAULT_APPLVERID)
                (ConfigError (lit "ApplVerID is required for FIXT transport")));
  if negb (default true useDataDictionary) then mret new_DataDictionaryProvider
  else if m_isFIXT sessionID then processFixtDataDictionaries sessionID settings new_DataDictionaryProvider
  else processFixDataDictionary sessionID settings new_DataDictionaryProvider.
End Factory.

(** ** The schedule *)

(** [try { first = get(key1); second = get(key2); } catch (ConfigError &) {}
    catch (FieldConvertError &e) { throw ConfigError(e.what()); }]: what the two
    variables hold after it. *)
Definition try_pair {X} (get : str -> result X) (key1 key2 : str) (first second : X) : result (X * X) :=
  match get key1 with
  | Throw (ConfigError _) => Ok (first, second)
  | Throw (FieldConvertError d) => Throw (ConfigError (exn_what (FieldConvertError d)))
  | Throw e => Throw e
  | Ok first =>
      match get key2 with
      | Throw (ConfigError _) => Ok (first, second)
      | Throw (FieldConvertError d) => Throw (ConfigError (exn_what (FieldConvertError d)))
      | Throw e => Throw e
      | Ok second => Ok (first, second)
      end
  end.

Definition get_time (settings : Dictionary) (key : str) : result DateTime :=
  value ← getString settings key false;
  UtcTimeOnlyConvertor_of_string value.

(** The same for one variable. *)
Definition try_time (settings : Dictionary) (key : str) (time : DateTime) : result DateTime :=
  match get_time settings key with
  | Throw (ConfigError _) => Ok time
  | Throw (FieldConvertError d) => Throw (ConfigError (exn_what (FieldConvertError d)))
  | r => r
  end.

Definition midnight : DateTime := UtcTimeOnly_millis 0 0 0 0.

(** The start and the end of the session; both are needed unless it never stops. *)
Definition session_times (settings : Dictionary) (isNonStopSession : bool) : result (DateTime * DateTime) :=
  match get_time settings START_TIME with
  | Throw (ConfigError d) => if isNonStopSession then Ok (midnight, midnight) else Throw (ConfigError d)
  | Throw (FieldConvertError d) => Throw (ConfigError (exn_what (FieldConvertError d)))
  | Throw e => Throw e
  | Ok startTime =>
      match get_time settings END_TIME with
      | Throw (ConfigError d) => if isNonStopSession then Ok (startTime, midnight) else Throw (ConfigError d)
      | Throw (FieldConvertError d) => Throw (ConfigError (exn_what (FieldConvertError d)))
      | Throw e => Throw e
      | Ok endTime => Ok (startTime, endTime)
      end
  end.

(** [useLocalTime ? local : utc]; a local range has no fractions of seconds. *)
Definition time_range (useLocalTime : bool) (startTime endTime : DateTime) (startDay endDay : Z) : TimeRange :=
  if useLocalTime then
    new_TimeRange (UtcTimeOnly_millis (getHour startTime) (getMinute startTime) (getSecond startTime) 0)
      (UtcTimeOnly_millis (getHour endTime) (getMinute endTime) (getSecond endTime) 0) startDay endDay true
  else new_TimeRange startTime endTime startDay endDay false.

Record Schedule := mkSchedule {
  useLocalTime : bool;
  isNonStopSession : bool;
  startDay : Z;
  endDay : Z;
  startTime : DateTime;
  endTime : DateTime
}.

Definition session_schedule (settings : Dictionary) : result Schedule :=
  useLocalTime ← optional getBool settings USE_LOCAL_TIME;
  isNonStopSession ← optional getBool settings NON_STOP_SESSION;
  let isNonStopSession := default false isNonStopSession in
  '(startDay, endDay) ← try_pair (getDay settings) START_DAY END_DAY (-1) (-1);
  '(startTime, endTime) ← session_times settings isNonStopSession;
  _ ← guard_or (negb ((0 <=? startDay) && (endDay <? 0))) (ConfigError (lit "StartDay used without EndDay"));
  _ ← guard_or (negb ((0 <=? endDay) && (startDay <? 0))) (ConfigError (lit "EndDay used without StartDay"));
  _ ← guard_or (negb (isNonStopSession && ((0 <=? startDay) || (0 <=? endDay) || negb (dt_eq startTime midnight) ||
                                           negb (dt_eq endTime midnight))))
        (ConfigError (lit "NonStopSession used with StartTime/EndTime/StartDay/EndDay"));
  mret (mkSchedule (default false useLocalTime) isNonStopSession startDay endDay startTime endTime).

Definition sessionTimeRange (s : Schedule) : TimeRange :=
  time_range (useLocalTime s) (startTime s) (endTime s) (startDay s) (endDay s).

(** When a logon may take place: inside the session's time. *)
Definition logon_time_range (settings : Dictionary) (s : Schedule) : result TimeRange :=
  '(logonDay, logoutDay) ← try_pair (getDay settings) LOGON_DAY LOGOUT_DAY (startDay s) (endDay s);
  logonTime ← try_time settings LOGON_TIME (startTime s);
  logoutTime ← try_time settings LOGOUT_TIME (endTime s);
  _ ← guard_or (isInRange_day (sessionTimeRange s) logonTime logonDay)
        (ConfigError (lit "LogonTime must be between StartTime and EndTime"));
  _ ← guard_or (isInRange_day (sessionTimeRange s) logoutTime logoutDay)
        (ConfigError (lit "LogoutTime must be between StartTime and EndTime"));
  mret (time_range (useLocalTime s) logonTime logoutTime logonDay logoutDay).

(** ** Creating a session *)

(** What the factory of a session changes: its table and the registry. *)
Record World := mkWorld { w_dictionaries : Dictionaries; w_registry : Registry }.

Section Create.
Context {S : Type} `{MessageStore S}.
Context (read_dictionary : str -> bool -> result DataDictionary).
Context (create_store : DateTime -> SessionID -> result S).
Context (create_log : option (SessionID -> result unit)).
Context (onCreate : SessionID -> result unit).
Context (clock : nat -> DateTime).
Context (localtime : Z -> tm).

(** The constructor of [Session] for the object at [address]. *)
Definition new_Session (sessionID : SessionID) (provider : DataDictionaryProvider) (sessionTime : TimeRange) (heartBtInt : Z)
    (address : Z) (r : Registry) : Registry * result (SessionObject S) :=
  let config := default_Config sessionID provider sessionTime (bool_decide (is_Some create_log)) in
  let state :=
    store ← create_store (clock 1) sessionID;
    let state := set_initiate (negb (heartBtInt =? 0)) (set_heartBtInt (IntField FIELD.HeartBtInt heartBtInt) (new_SessionState (clock 0) store)) in
    _ ← match create_log with Some create => create sessionID | None => Ok () end;
    creationTime ← state_getCreationTime state;
    if isInSameRange localtime (m_sessionTime config) (clock 2) creationTime then Ok state
    else
      match state_reset (clock 3) state with
      | (state, Ok _) => Ok state
      | (_, Throw e) => Throw e
      end in
  match state with
  | Throw e => (r, Throw e)
  | Ok state =>
      match construct onCreate r sessionID address with
      | (r, Ok _) => (r, Ok (mkSessionObject config state []))
      | (r, Throw e) => (r, Throw e)
      end
  end.

(** One setting: [if (settings.has(key)) pSession->set(settings.get...(key));] *)
Definition setting {X} (get : Dictionary -> str -> result X) (settings : Dictionary) (key : str) (set : X -> SessionObject S -> SessionObject S)
    (o : SessionObject S) : result (SessionObject S) :=
  v ← optional get settings key;
  mret (match v with Some v => set v o | None => o end).

Definition bool_setting (settings : Dictionary) (key : str) (set : bool -> Config -> Config) : SessionObject S -> result (SessionObject S) :=
  setting getBool settings key (fun v => configure (set v)).
Definition int_setting (settings : Dictionary) (key : str) (set : Z -> Config -> Config) : SessionObject S -> result (SessionObject S) :=
  setting getInt settings key (fun v => configure (set v)).

(** What the settings say, after the constructor and the logon time. *)
Definition apply_settings (settings : Dictionary) (isNonStopSession : bool) (o : SessionObject S) : result (SessionObject S) :=
  o ← bool_setting settings SEND_REDUNDANT_RESENDREQUESTS setSendRedundantResendRequests o;
  o ← bool_setting settings CHECK_COMPID setCheckCompId o;
  o ← bool_setting settings CHECK_LATENCY setCheckLatency o;
  o ← int_setting settings MAX_LATENCY setMaxLatency o;
  o ← setting getInt settings LOGON_TIMEOUT setLogonTimeout o;
  o ← setting getInt settings LOGOUT_TIMEOUT setLogoutTimeout o;
  o ← bool_setting settings RESET_ON_LOGON setResetOnLogon o;
  o ← bool_setting settings RESET_ON_LOGOUT setResetOnLogout o;
  o ← bool_setting settings RESET_ON_DISCONNECT setResetOnDisconnect o;
  o ← bool_setting settings REFRESH_ON_LOGON setRefreshOnLogon o;
  o ← bool_setting settings MILLISECONDS_IN_TIMESTAMP setMillisecondsInTimeStamp o;
  o ← int_setting settings TIMESTAMP_PRECISION setTimestampPrecision o;
  o ← bool_setting settings PERSIST_MESSAGES setPersistMessages o;
  o ← bool_setting settings VALIDATE_LENGTH_AND_CHECKSUM setValidateLengthAndChecksum o;
  o ← bool_setting settings SEND_NEXT_EXPECTED_MSG_SEQ_NUM setSendNextExpectedMsgSeqNum o;
  let o := if isNonStopSession then configure (setIsNonStopSession isNonStopSession) o else o in
  setting (fun d key => getString d key false) settings ALLOWED_REMOTE_ADDRESSES
    (fun v => setAllowedRemoteAddresses (string_split v ","%char)) o.

(** The heartbeat interval; 0 of an acceptor. *)
Definition create_heartBtInt (settings : Dictionary) (connectionType : str) : result Z :=
  if bool_decide (connectionType = lit "initiator") then
    heartBtInt ← getInt settings HEARTBTINT;
    _ ← guard_or (negb (heartBtInt <=? 0)) (ConfigError (lit "Heartbeat must be greater than zero"));
    mret heartBtInt
  else Ok 0.

Definition create_connectionType (settings : Dictionary) : result str :=
  connectionType ← getString settings CONNECTION_TYPE false;
  _ ← guard_or (bool_decide (connectionType ∈ [lit "acceptor"; lit "initiator"])) (ConfigError (lit "Invalid ConnectionType"));
  _ ← guard_or (negb (bool_decide (connectionType = lit "acceptor") && dict_has settings SESSION_QUALIFIER))
        (ConfigError (lit "SessionQualifier cannot be used with acceptor."));
  mret connectionType.

(** What comes after the constructor; an exception destroys the session. *)
Definition finish (settings : Dictionary) (schedule : Schedule) (defaultApplVerID : str) (o : SessionObject S) : result (SessionObject S) :=
  let o := configure (setSenderDefaultApplVerID defaultApplVerID) o in
  logonTimeRange ← logon_time_range settings schedule;
  apply_settings settings (isNonStopSession schedule) (configure (setLogonTime logonTimeRange) o).

(** [create(sessionID, settings)], the new object at [address]. *)
Definition create (sessionID : SessionID) (settings : Dictionary) (address : Z) (w : World) : World * result (SessionObject S) :=
  match create_connectionType settings with
  | Throw e => (w, Throw e)
  | Ok connectionType =>
      let '(t, provider) := create_provider read_dictionary sessionID settings (w_dictionaries w) in
      let w := mkWorld t (w_registry w) in
      let before :=
        provider ← provider;
        defaultApplVerID ← (if m_isFIXT sessionID then toApplVerID <$> getString settings DEFAULT_APPLVERID false else mret []);
        schedule ← session_schedule settings;
        heartBtInt ← create_heartBtInt settings connectionType;
        mret (provider, defaultApplVerID, schedule, heartBtInt) in
      match before with
      | Throw e => (w, Throw e)
      | Ok (provider, defaultApplVerID, schedule, heartBtInt) =>
          let '(r, o) := new_Session sessionID provider (sessionTimeRange schedule) heartBtInt address (w_registry w) in
          match o with
          | Throw e => (mkWorld t r, Throw e)
          | Ok o =>
              match finish settings schedule defaultApplVerID o with
              | Ok o => (mkWorld t r, Ok o)
              | Throw e => (mkWorld t (destroy r sessionID address), Throw e)
              end
          end
      end
  end.
End Create.
