(* ===== verification/FactoryProps.v ===== *)
(** * What the session factory promises

    Sessions of one factory share data dictionaries, and each gets the one it
    would get alone. A session that is created is configured as its settings say,
    and a creation that fails leaves no session behind. *)
From S2P Require Import Prelude Convertors Values DateTime TimeConvertors TimeRange OrdMap Field DictData Message SessionID.
From S2P Require Import TextMap Settings SettingsText Registry MessageStore SessionState Provider Session SessionFactory.

(** ** The table of dictionaries *)

Section Sharing.
Context (read_dictionary : str -> bool -> result DataDictionary).

(** The dictionary a session gets when it shares none. *)
Definition own_dictionary (settings : Dictionary) (settingsKey : str) : result DataDictionary :=
  '(path, preserve, _) ← dictionary_request settings settingsKey;
  d ← read_dictionary path preserve;
  apply_flags settings d.

(** What is in the table is what would be read again. *)
Definition table_ok (t : Dictionaries) : Prop :=
  forall key d, str_lookup key t = Some d ->
    (exists path preserve, key = fileKey path preserve /\ read_dictionary path preserve = Ok d) \/
    (exists settings settingsKey path preserve flags,
      dictionary_request settings settingsKey = Ok (path, preserve, flags) /\ key = sessionKey path preserve flags /\
      own_dictionary settings settingsKey = Ok d).

Lemma table_ok_empty : table_ok [].
Proof. by intros key d. Qed.

Lemma table_ok_set t key d :
  table_ok t ->
  (exists path preserve, key = fileKey path preserve /\ read_dictionary path preserve = Ok d) \/
  (exists settings settingsKey path preserve flags,
    dictionary_request settings settingsKey = Ok (path, preserve, flags) /\ key = sessionKey path preserve flags /\
    own_dictionary settings settingsKey = Ok d) ->
  table_ok (str_set key d t).
Proof.
  intros Ht Hd key' d'. destruct (decide (key' = key)) as [->|Hne].
  - rewrite str_lookup_set. by intros [= <-].
  - rewrite str_lookup_set_ne by done. apply Ht.
Qed.

(** *** The keys tell the requests apart *)

Definition flag_char (v : option bool) : ascii :=
  match v with Some true => "1"%char | Some false => "0"%char | None => "-"%char end.

Lemma flag_char_inj v1 v2 : flag_char v1 = flag_char v2 -> v1 = v2.
Proof. by destruct v1 as [[]|], v2 as [[]|]. Qed.

Lemma flag_eq settings key c : flag settings key = Ok c <-> exists v, optional getBool settings key = Ok v /\ c = flag_char v.
Proof.
  unfold flag. destruct (optional getBool settings key) as [v|e]; simpl; [|split; [done | by intros (v & ? & ?)]].
  split; [intros [= <-]; by exists v | by intros (v' & [= <-] & ->)].
Qed.

(** The four flags of a request. *)
Lemma request_flags settings settingsKey path preserve flags :
  dictionary_request settings settingsKey = Ok (path, preserve, flags) ->
  exists v1 v2 v3 v4, flags = map flag_char [v1; v2; v3; v4] /\
    optional getBool settings VALIDATE_FIELDS_OUT_OF_ORDER = Ok v1 /\ optional getBool settings VALIDATE_FIELDS_HAVE_VALUES = Ok v2 /\
    optional getBool settings VALIDATE_USER_DEFINED_FIELDS = Ok v3 /\ optional getBool settings ALLOW_UNKNOWN_MSG_FIELDS = Ok v4.
Proof.
  unfold dictionary_request. intros (p & _ & (q & _ & (c1 & H1 & (c2 & H2 & (c3 & H3 & (c4 & H4 & [= <- <- <-])%result_bind_Ok)%result_bind_Ok)%result_bind_Ok)%result_bind_Ok)%result_bind_Ok)%result_bind_Ok.
  apply flag_eq in H1 as (v1 & ? & ->), H2 as (v2 & ? & ->), H3 as (v3 & ? & ->), H4 as (v4 & ? & ->). by exists v1, v2, v3, v4.
Qed.

(** Requests with the same flags set the same flags of a dictionary. *)
Lemma apply_flags_same s1 k1 s2 k2 p1 o1 p2 o2 flags d :
  dictionary_request s1 k1 = Ok (p1, o1, flags) -> dictionary_request s2 k2 = Ok (p2, o2, flags) ->
  apply_flags s1 d = apply_flags s2 d.
Proof.
  intros (a1 & a2 & a3 & a4 & Ef & A1 & A2 & A3 & A4)%request_flags (b1 & b2 & b3 & b4 & Eg & B1 & B2 & B3 & B4)%request_flags.
  rewrite Ef in Eg. injection Eg as E1%flag_char_inj E2%flag_char_inj E3%flag_char_inj E4%flag_char_inj. subst b1 b2 b3 b4.
  unfold apply_flags, apply_flag. by rewrite A1, A2, A3, A4, B1, B2, B3, B4.
Qed.

Lemma apply_flags_none settings settingsKey path preserve d :
  dictionary_request settings settingsKey = Ok (path, preserve, lit "----") -> apply_flags settings d = Ok d.
Proof.
  intros (a1 & a2 & a3 & a4 & Ef & A1 & A2 & A3 & A4)%request_flags.
  injection Ef as E1 E2 E3 E4. apply (flag_char_inj None) in E1, E2, E3, E4. subst a1 a2 a3 a4.
  unfold apply_flags, apply_flag. by rewrite A1, A2, A3, A4.
Qed.

Lemma fileKey_inj p1 b1 p2 b2 : fileKey p1 b1 = fileKey p2 b2 -> p1 = p2 /\ b1 = b2.
Proof. unfold fileKey. intros [-> E]%app_inj_2; [|done]. split; [done|]. by destruct b1, b2. Qed.

Lemma sessionKey_inj p1 b1 f1 p2 b2 f2 :
  length f1 = 4%nat -> length f2 = 4%nat -> sessionKey p1 b1 f1 = sessionKey p2 b2 f2 -> p1 = p2 /\ b1 = b2 /\ f1 = f2.
Proof.
  unfold sessionKey. intros H1 H2 [E1%fileKey_inj E2]%app_inj_2; [|by rewrite !length_app, H1, H2].
  injection E2 as ->. by destruct E1.
Qed.

Lemma sessionKey_not_file p1 b1 v1 v2 v3 v4 p2 b2 : sessionKey p1 b1 (map flag_char [v1; v2; v3; v4]) <> fileKey p2 b2.
Proof.
  unfold sessionKey, fileKey. intros E. rewrite (app_assoc (p1 ++ _) ["010"%char] (map _ _)) in E.
  change (map flag_char [v1; v2; v3; v4]) with ([flag_char v1; flag_char v2] ++ [flag_char v3; flag_char v4]) in E.
  rewrite app_assoc in E. apply app_inj_2 in E as [_ E]; [|done]. injection E as E _. by destruct v3 as [[]|].
Qed.

(** *** Sharing gives what reading would *)

(** An operation that keeps the table right and whose result does not depend on
    it. *)
Definition transparent {X} (m : F X) : Prop := forall t, table_ok t -> table_ok (m t).1 /\ (m t).2 = (m []).2.

Lemma transparent_ret {X} (x : X) : transparent (mret x).
Proof. by intros t Ht. Qed.

Lemma transparent_lift {X} (r : result X) : transparent (f_lift r).
Proof. by intros t Ht. Qed.

Lemma transparent_bind {X Y} (m : F X) (f : X -> F Y) :
  transparent m -> (forall x, transparent (f x)) -> transparent (m ≫= f).
Proof.
  intros Hm Hf t Ht. destruct (Hm t Ht) as [H1 H2]. destruct (Hm [] table_ok_empty) as [H1' _].
  unfold mbind, F_bind. destruct (m t) as [t1 r], (m []) as [t1' r']. simpl in *. subst r'. destruct r as [x|e]; [|by split].
  destruct (Hf x t1 H1) as [H3 H4], (Hf x t1' H1') as [_ H4']. split; [done|]. by rewrite H4.
Qed.

Lemma F_bind_eq {X Y} (m : F X) (f : X -> F Y) t :
  (m ≫= f) t = match m t with (t, Ok x) => f x t | (t, Throw e) => (t, Throw e) end.
Proof. done. Qed.

(** The steps of [createDataDictionary], one table after the other. *)
Lemma createDataDictionary_eq settings settingsKey t :
  createDataDictionary read_dictionary settings settingsKey t =
  match dictionary_request settings settingsKey with
  | Throw e => (t, Throw e)
  | Ok (path, preserve, flags) =>
      match str_lookup (sessionKey path preserve flags) t with
      | Some d => (t, Ok d)
      | None =>
          match parsed_dictionary read_dictionary path preserve t with
          | (t, Throw e) => (t, Throw e)
          | (t, Ok pDD) =>
              if bool_decide (flags = lit "----") then (str_set (sessionKey path preserve flags) pDD t, Ok pDD)
              else
                match apply_flags settings pDD with
                | Throw e => (t, Throw e)
                | Ok d => (str_set (sessionKey path preserve flags) d t, Ok d)
                end
          end
      end
  end.
Proof.
  unfold createDataDictionary. rewrite F_bind_eq. unfold f_lift at 1.
  destruct (dictionary_request settings settingsKey) as [[[path preserve] flags]|e]; [|done]. cbv zeta.
  rewrite F_bind_eq. destruct (str_lookup _ t); [done|]. rewrite F_bind_eq.
  destruct (parsed_dictionary read_dictionary path preserve t) as [t1 [d|e]]; [|done].
  case_bool_decide; [done|]. rewrite F_bind_eq. unfold f_lift. by destruct (apply_flags settings d).
Qed.

Lemma createDataDictionary_own settings settingsKey t :
  table_ok t ->
  table_ok (createDataDictionary read_dictionary settings settingsKey t).1 /\
  (createDataDictionary read_dictionary settings settingsKey t).2 = own_dictionary settings settingsKey.
Proof.
  intros Ht. rewrite createDataDictionary_eq. unfold own_dictionary. destruct (dictionary_request settings settingsKey) as [[[path preserve] flags]|e] eqn:Er; [|by split].
  cbn [mbind result_bind]. pose proof (request_flags _ _ _ _ _ Er) as (v1 & v2 & v3 & v4 & Ef & _).
  destruct (str_lookup (sessionKey path preserve flags) t) as [d|] eqn:Es.
  { split; [done|]. simpl. apply Ht in Es as [(p & b & E & _)|(s & k & p & b & f & Hr & E & Hd)].
    - rewrite Ef in E. by apply sessionKey_not_file in E.
    - pose proof (request_flags _ _ _ _ _ Hr) as (w1 & w2 & w3 & w4 & Eg & _).
      apply sessionKey_inj in E as (<- & <- & <-); [|by rewrite Ef|by rewrite Eg].
      unfold own_dictionary in Hd. rewrite Hr in Hd. simpl in Hd. rewrite <- Hd.
      destruct (read_dictionary path preserve); [|done]. simpl. by eapply apply_flags_same. }
  assert (exists t1, parsed_dictionary read_dictionary path preserve t = (t1, read_dictionary path preserve) /\ table_ok t1) as (t1 & Ep & Ht1).
  { unfold parsed_dictionary. destruct (str_lookup (fileKey path preserve) t) as [d|] eqn:Ek.
    - exists t. split; [|done]. apply Ht in Ek as [(p & b & [<- <-]%fileKey_inj & ->)|(s & k & p & b & f & Hr & E & _)]; [done|].
      pose proof (request_flags _ _ _ _ _ Hr) as (w1 & w2 & w3 & w4 & Eg & _). rewrite Eg in E. symmetry in E. by apply sessionKey_not_file in E.
    - destruct (read_dictionary path preserve) as [d|e] eqn:Ed; eexists; (split; [done|]); [|done].
      apply table_ok_set; [done|]. left. by exists path, preserve. }
  rewrite Ep. destruct (read_dictionary path preserve) as [d|e] eqn:Ed; [|by split].
  assert (own_dictionary settings settingsKey = apply_flags settings d) as Eo.
  { unfold own_dictionary. rewrite Er. simpl. by rewrite Ed. }
  assert (forall d', own_dictionary settings settingsKey = Ok d' -> table_ok (str_set (sessionKey path preserve flags) d' t1)) as Hput.
  { intros d' Hd'. apply table_ok_set; [done|]. right. by exists settings, settingsKey, path, preserve, flags. }
  cbn [mbind result_bind]. case_bool_decide as Hf.
  - rewrite Hf in Er. rewrite (apply_flags_none _ _ _ _ d Er) in Eo |- *. simpl. auto.
  - destruct (apply_flags settings d) as [d'|e]; [|by split]. simpl. auto.
Qed.

Lemma transparent_createDataDictionary settings settingsKey : transparent (createDataDictionary read_dictionary settings settingsKey).
Proof.
  intros t Ht. destruct (createDataDictionary_own settings settingsKey t Ht) as [H1 ->].
  split; [done|]. symmetry. apply createDataDictionary_own, table_ok_empty.
Qed.

Ltac transparent_step :=
  first [ apply transparent_createDataDictionary | apply transparent_ret | apply transparent_lift
        | apply transparent_bind; [|intros ?] | case_match | progress cbv zeta ].

Lemma transparent_process_key settings key provider : transparent (process_key read_dictionary settings key provider).
Proof. unfold process_key. repeat transparent_step. Qed.

Lemma transparent_process_keys settings data provider : transparent (process_keys read_dictionary settings data provider).
Proof.
  revert provider. induction data as [|[key v] data IH]; intros provider; simpl; [apply transparent_ret|].
  apply transparent_bind; [apply transparent_process_key | done].
Qed.

Lemma transparent_create_provider sessionID settings : transparent (create_provider read_dictionary sessionID settings).
Proof.
  unfold create_provider, processFixtDataDictionaries, processFixDataDictionary.
  repeat first [apply transparent_process_keys | transparent_step].
Qed.
End Sharing.

(** ** Creating *)

Section Creating.
Context {S : Type} `{MessageStore S}.
Context (read_dictionary : str -> bool -> result DataDictionary).
Context (create_store : DateTime -> SessionID -> result S).
Context (create_log : option (SessionID -> result unit)).
Context (onCreate : SessionID -> result unit).
Context (clock : nat -> DateTime).
Context (localtime : Z -> tm).

Abbreviation create := (create read_dictionary create_store create_log onCreate clock localtime).
Abbreviation new_Session := (new_Session create_store create_log onCreate clock localtime).

(** The part of [create] before the constructor. *)
Definition prepare (sessionID : SessionID) (settings : Dictionary) (connectionType : str) (provider : result DataDictionaryProvider)
    : result (DataDictionaryProvider * str * Schedule * Z) :=
  provider ← provider;
  defaultApplVerID ← (if m_isFIXT sessionID then toApplVerID <$> getString settings DEFAULT_APPLVERID false else mret []);
  schedule ← session_schedule settings;
  heartBtInt ← create_heartBtInt settings connectionType;
  mret (provider, defaultApplVerID, schedule, heartBtInt).

(** [create] takes the provider from the table, and the rest from the settings
    and the registry. *)
Lemma create_eq sessionID settings address w :
  create sessionID settings address w =
  match create_connectionType settings with
  | Throw e => (w, Throw e)
  | Ok connectionType =>
      let p := create_provider read_dictionary sessionID settings (w_dictionaries w) in
      match prepare sessionID settings connectionType p.2 with
      | Throw e => (mkWorld p.1 (w_registry w), Throw e)
      | Ok (provider, defaultApplVerID, schedule, heartBtInt) =>
          match new_Session sessionID provider (sessionTimeRange schedule) heartBtInt address (w_registry w) with
          | (r, Throw e) => (mkWorld p.1 r, Throw e)
          | (r, Ok o) =>
              match finish settings schedule defaultApplVerID o with
              | Ok o => (mkWorld p.1 r, Ok o)
              | Throw e => (mkWorld p.1 (destroy r sessionID address), Throw e)
              end
          end
      end
  end.
Proof.
  unfold SessionFactory.create. destruct (create_connectionType settings) as [c|e]; [|done].
  destruct (create_provider read_dictionary sessionID settings (w_dictionaries w)) as [t provider]. cbv zeta. cbn [fst snd w_registry].
  fold (prepare sessionID settings c provider). destruct (prepare sessionID settings c provider) as [[[[p d] s] h]|e]; [|done].
  destruct (new_Session sessionID p (sessionTimeRange s) h address (w_registry w)) as [r [o|e]]; [|done].
  by destruct (finish settings s d o).
Qed.

Lemma create_table sessionID settings address w :
  table_ok read_dictionary (w_dictionaries w) ->
  table_ok read_dictionary (w_dictionaries (create sessionID settings address w).1) /\
  (create sessionID settings address w).2 = (create sessionID settings address (mkWorld [] (w_registry w))).2 /\
  w_registry (create sessionID settings address w).1 = w_registry (create sessionID settings address (mkWorld [] (w_registry w))).1.
Proof.
  intros Ht. destruct (transparent_create_provider read_dictionary sessionID settings (w_dictionaries w) Ht) as [H1 H2].
  rewrite !create_eq. cbn [w_registry w_dictionaries]. destruct (create_connectionType settings) as [c|e]; [|done]. cbv zeta.
  rewrite <- H2. destruct (prepare sessionID settings c _) as [[[[p d] s] h]|e]; [|done].
  destruct (new_Session sessionID p (sessionTimeRange s) h address (w_registry w)) as [r [o|e]]; [|done].
  by destruct (finish settings s d o).
Qed.

(** Sessions created one after the other by one factory. *)
Fixpoint create_all (requests : list (SessionID * Dictionary * Z)) (w : World) : World :=
  match requests with
  | [] => w
  | (sessionID, settings, address) :: requests => create_all requests (create sessionID settings address w).1
  end.

Lemma create_all_table requests w :
  table_ok read_dictionary (w_dictionaries w) -> table_ok read_dictionary (w_dictionaries (create_all requests w)).
Proof.
  revert w. induction requests as [|[[i s] a] requests IH]; intros w Hw; [done|]. simpl. by apply IH, create_table.
Qed.

(** C30 Sharing data dictionaries is invisible: whatever sessions a factory has
    created before, or failed to create, the next one is what a new factory would
    create, with the dictionaries read from the files and its own validation
    flags, as long as reading a file gives the same each time. *)
Theorem sharing_invisible requests sessionID settings address r0 :
  let w := create_all requests (mkWorld [] r0) in
  (create sessionID settings address w).2 = (create sessionID settings address (mkWorld [] (w_registry w))).2 /\
  w_registry (create sessionID settings address w).1 = w_registry (create sessionID settings address (mkWorld [] (w_registry w))).1.
Proof.
  intros w. assert (table_ok read_dictionary (w_dictionaries w)) as Hw by (apply create_all_table, table_ok_empty).
  destruct (create_table sessionID settings address w Hw) as (_ & ? & ?). by split.
Qed.

(** ** What was created *)

Definition maybe {X} (set : X -> Config -> Config) (v : option X) (c : Config) : Config :=
  match v with Some v => set v c | None => c end.

Lemma bool_setting_eq settings key set (o o' : SessionObject S) :
  bool_setting settings key set o = Ok o' ->
  exists v, optional getBool settings key = Ok v /\ o' = mkSessionObject (maybe set v (o_config o)) (o_state o) (m_allowedRemoteAddresses o).
Proof. intros (v & Hv & [= <-])%result_bind_Ok. exists v. split; [done|]. destruct o; by destruct v. Qed.

Lemma int_setting_eq settings key set (o o' : SessionObject S) :
  int_setting settings key set o = Ok o' ->
  exists v, optional getInt settings key = Ok v /\ o' = mkSessionObject (maybe set v (o_config o)) (o_state o) (m_allowedRemoteAddresses o).
Proof. intros (v & Hv & [= <-])%result_bind_Ok. exists v. split; [done|]. destruct o; by destruct v. Qed.

(** The value of a setting, or else the default. *)
Definition value_of {X} (get : Dictionary -> str -> result X) (settings : Dictionary) (key : str) (d : X) : X :=
  match optional get settings key with Ok (Some v) => v | _ => d end.

Definition getText (settings : Dictionary) (key : str) : result str := getString settings key false.

(** The switches of a session follow its settings. *)
Record follows (settings : Dictionary) (c : Config) : Prop := {
  follows_redundant : m_sendRedundantResendRequests c = value_of getBool settings SEND_REDUNDANT_RESENDREQUESTS false;
  follows_compid : m_checkCompId c = value_of getBool settings CHECK_COMPID true;
  follows_latency : m_checkLatency c = value_of getBool settings CHECK_LATENCY true;
  follows_maxLatency : m_maxLatency c = value_of getInt settings MAX_LATENCY 120;
  follows_resetLogon : m_resetOnLogon c = value_of getBool settings RESET_ON_LOGON false;
  follows_resetLogout : m_resetOnLogout c = value_of getBool settings RESET_ON_LOGOUT false;
  follows_resetDisconnect : m_resetOnDisconnect c = value_of getBool settings RESET_ON_DISCONNECT false;
  follows_refresh : m_refreshOnLogon c = value_of getBool settings REFRESH_ON_LOGON false;
  (** A precision out of range is ignored; the older setting comes first. *)
  follows_precision : m_timestampPrecision c =
    let old := if value_of getBool settings MILLISECONDS_IN_TIMESTAMP true then 3 else 0 in
    let p := value_of getInt settings TIMESTAMP_PRECISION old in
    if (p <? 0) || (9 <? p) then old else p;
  follows_persist : m_persistMessages c = value_of getBool settings PERSIST_MESSAGES true;
  follows_validate : m_validateLengthAndChecksum c = value_of getBool settings VALIDATE_LENGTH_AND_CHECKSUM true;
  follows_next : m_sendNextExpectedMsgSeqNum c = value_of getBool settings SEND_NEXT_EXPECTED_MSG_SEQ_NUM false;
  follows_nonStop : m_isNonStopSession c = value_of getBool settings NON_STOP_SESSION false
}.

Lemma precision_settings c (v11 : option bool) (v12 : option Z) :
  m_timestampPrecision c = 3 ->
  m_timestampPrecision (maybe setTimestampPrecision v12 (maybe setMillisecondsInTimeStamp v11 c)) =
  let old := if default true v11 then 3 else 0 in
  let p := default old v12 in if (p <? 0) || (9 <? p) then old else p.
Proof.
  intros Hc. assert (m_timestampPrecision (maybe setMillisecondsInTimeStamp v11 c) = if default true v11 then 3 else 0) as Hm
    by (destruct v11 as [[]|], c; [done.. | exact Hc]).
  cbv zeta. rewrite <- Hm. generalize (maybe setMillisecondsInTimeStamp v11 c). intros c'.
  destruct v12 as [p|]; simpl; [|by destruct (_ || _)]. unfold setTimestampPrecision. destruct (_ || _); [done | by destruct c'].
Qed.

(** Reading a member through a setter of another one. *)
Ltac through_setters :=
  repeat match goal with
  | |- context [?f (maybe ?g ?v ?c)] =>
      let E := fresh in
      assert (f (maybe g v c) = f c) as E
        by (generalize c; intros c'; destruct v as [v'|]; [destruct c'; cbn; try (unfold setTimestampPrecision; destruct (_ || _)); reflexivity | reflexivity]);
      rewrite E; clear E
  end.

Lemma apply_settings_eq settings nonStop (o o' : SessionObject S) :
  apply_settings settings nonStop o = Ok o' ->
  m_isNonStopSession (o_config o) = false ->
  exists v1 v2 v3 v4 v5 v6 v7 v8 v9 v10 v11 v12 v13 v14 v15,
    optional getBool settings SEND_REDUNDANT_RESENDREQUESTS = Ok v1 /\ optional getBool settings CHECK_COMPID = Ok v2 /\
    optional getBool settings CHECK_LATENCY = Ok v3 /\ optional getInt settings MAX_LATENCY = Ok v4 /\
    optional getInt settings LOGON_TIMEOUT = Ok v5 /\ optional getInt settings LOGOUT_TIMEOUT = Ok v6 /\
    optional getBool settings RESET_ON_LOGON = Ok v7 /\ optional getBool settings RESET_ON_LOGOUT = Ok v8 /\
    optional getBool settings RESET_ON_DISCONNECT = Ok v9 /\ optional getBool settings REFRESH_ON_LOGON = Ok v10 /\
    optional getBool settings MILLISECONDS_IN_TIMESTAMP = Ok v11 /\ optional getInt settings TIMESTAMP_PRECISION = Ok v12 /\
    optional getBool settings PERSIST_MESSAGES = Ok v13 /\ optional getBool settings VALIDATE_LENGTH_AND_CHECKSUM = Ok v14 /\
    optional getBool settings SEND_NEXT_EXPECTED_MSG_SEQ_NUM = Ok v15 /\
    o_config o' =
      maybe setIsNonStopSession (Some nonStop) (maybe setSendNextExpectedMsgSeqNum v15 (maybe setValidateLengthAndChecksum v14
        (maybe setPersistMessages v13 (maybe setTimestampPrecision v12 (maybe setMillisecondsInTimeStamp v11 (maybe setRefreshOnLogon v10
        (maybe setResetOnDisconnect v9 (maybe setResetOnLogout v8 (maybe setResetOnLogon v7 (maybe setMaxLatency v4
        (maybe setCheckLatency v3 (maybe setCheckCompId v2 (maybe setSendRedundantResendRequests v1 (o_config o)))))))))))))) /\
    m_logonTimeout (o_state o') = default (m_logonTimeout (o_state o)) v5 /\
    m_logoutTimeout (o_state o') = default (m_logoutTimeout (o_state o)) v6 /\
    m_initiate (o_state o') = m_initiate (o_state o) /\ m_heartBtInt (o_state o') = m_heartBtInt (o_state o) /\
    exists v16, optional getText settings ALLOWED_REMOTE_ADDRESSES = Ok v16 /\
      m_allowedRemoteAddresses o' = match v16 with Some v => string_split v ","%char | None => m_allowedRemoteAddresses o end.
Proof.
  intros E Hn. unfold apply_settings in E.
  apply result_bind_Ok in E as (? & (v1 & H1 & ->)%bool_setting_eq & E). apply result_bind_Ok in E as (? & (v2 & H2 & ->)%bool_setting_eq & E).
  apply result_bind_Ok in E as (? & (v3 & H3 & ->)%bool_setting_eq & E). apply result_bind_Ok in E as (? & (v4 & H4 & ->)%int_setting_eq & E).
  apply result_bind_Ok in E as (o5 & (v5 & H5 & [= E5])%result_bind_Ok & E). apply result_bind_Ok in E as (o6 & (v6 & H6 & [= E6])%result_bind_Ok & E).
  apply result_bind_Ok in E as (? & (v7 & H7 & ->)%bool_setting_eq & E). apply result_bind_Ok in E as (? & (v8 & H8 & ->)%bool_setting_eq & E).
  apply result_bind_Ok in E as (? & (v9 & H9 & ->)%bool_setting_eq & E). apply result_bind_Ok in E as (? & (v10 & H10 & ->)%bool_setting_eq & E).
  apply result_bind_Ok in E as (? & (v11 & H11 & ->)%bool_setting_eq & E). apply result_bind_Ok in E as (? & (v12 & H12 & ->)%int_setting_eq & E).
  apply result_bind_Ok in E as (? & (v13 & H13 & ->)%bool_setting_eq & E). apply result_bind_Ok in E as (? & (v14 & H14 & ->)%bool_setting_eq & E).
  apply result_bind_Ok in E as (? & (v15 & H15 & ->)%bool_setting_eq & E). cbv zeta in E. apply result_bind_Ok in E as (v16 & H16 & [= E]).
  cbn [o_config o_state m_allowedRemoteAddresses] in *.
  exists v1, v2, v3, v4, v5, v6, v7, v8, v9, v10, v11, v12, v13, v14, v15. split_and!; try done.
  all: assert (o_config o6 = o_config o5) as C6 by (subst o6; by destruct v6).
  all: assert (o_config o5 = maybe setMaxLatency v4 (maybe setCheckLatency v3 (maybe setCheckCompId v2 (maybe setSendRedundantResendRequests v1 (o_config o))))) as C5
    by (subst o5; by destruct v5).
  - assert (forall c, m_isNonStopSession c = false -> maybe setIsNonStopSession (Some false) c = c) as Hid by (intros [] ?; simpl in *; by subst).
    rewrite C6, C5 in E. destruct nonStop; (destruct v16 as [v16|]; [rewrite <- E; cbn [o_config configure setAllowedRemoteAddresses]|rewrite <- E; cbn [o_config configure]]); try done;
      (rewrite Hid; [done|]); through_setters; done.
  - assert (m_logonTimeout (o_state o') = m_logonTimeout (o_state o6)) as -> by (subst o'; by destruct v16, nonStop).
    subst o6 o5. by destruct v6, v5.
  - assert (m_logoutTimeout (o_state o') = m_logoutTimeout (o_state o6)) as -> by (subst o'; by destruct v16, nonStop).
    subst o6 o5. by destruct v6, v5.
  - assert (m_initiate (o_state o') = m_initiate (o_state o6)) as -> by (subst o'; by destruct v16, nonStop).
    subst o6 o5. by destruct v6, v5.
  - assert (m_heartBtInt (o_state o') = m_heartBtInt (o_state o6)) as -> by (subst o'; by destruct v16, nonStop).
    subst o6 o5. by destruct v6, v5.
  - exists v16. split; [exact H16|]. subst o' o6 o5. by destruct v16, nonStop, v6, v5.
Qed.

Lemma new_Session_Ok sessionID provider range h address r r' o :
  new_Session sessionID provider range h address r = (r', Ok o) ->
  o_config o = default_Config sessionID provider range (bool_decide (is_Some create_log)) /\
  m_initiate (o_state o) = negb (h =? 0) /\ m_heartBtInt (o_state o) = IntField FIELD.HeartBtInt h /\
  m_logonTimeout (o_state o) = 10 /\ m_logoutTimeout (o_state o) = 2 /\ m_allowedRemoteAddresses o = [] /\
  construct onCreate r sessionID address = (r', Ok ()).
Proof.
  unfold SessionFactory.new_Session. cbv zeta. set (config := default_Config _ _ _ _).
  set (state := store ← create_store (clock 1) sessionID; _). destruct state as [st|e] eqn:Es; [|done].
  destruct (construct onCreate r sessionID address) as [r1 [[]|e]] eqn:Ec; [|done]. intros [= <- <-]. cbn [o_config o_state m_allowedRemoteAddresses].
  split_and!; try done; subst state; apply result_bind_Ok in Es as (store & _ & Es); cbv zeta in Es;
    apply result_bind_Ok in Es as (? & _ & (ct & _ & Es)%result_bind_Ok);
    (destruct (isInSameRange _ _ _ _); [by injection Es as <-|]); unfold state_reset in Es;
    destruct (st_reset (clock 3) _) as [st' [?|?]]; by try (injection Es as <-).
Qed.

(** A creation that fails changes nothing in the registry. *)
Lemma new_Session_Throw sessionID provider range h address r r' e live :
  registry_ok r live -> live !! address = None ->
  new_Session sessionID provider range h address r = (r', Throw e) -> r' = r.
Proof.
  intros Hr Ha. unfold SessionFactory.new_Session. cbv zeta. set (state := store ← create_store (clock 1) sessionID; _).
  destruct state as [st|e'] eqn:Es; [|by intros [= <- _]].
  destruct (construct onCreate r sessionID address) as [r1 [[]|e']] eqn:Ec; [done|]. intros [= <- _]. by eapply construct_throws.
Qed.

(** Taking a session away again that was just added. *)
Lemma destroy_new r live i address r' :
  registry_ok r live -> live !! address = None -> construct onCreate r i address = (r', Ok ()) -> destroy r' i address = r.
Proof.
  intros [H1 H2 H3 Hl Hs Hr] Ha. unfold construct, addSession, destroy.
  destruct (tm_find id_text i (s_sessions r)) eqn:E; [done|]. cbn [negb]. destruct (onCreate i); [|done]. intros [= <-].
  unfold removeSession. cbn [s_sessions s_sessionIDs s_registered]. rewrite (bool_decide_eq_true_2 _ (tm_find_set _ i address _ H1)).
  assert (tm_find id_text i (s_registered r) <> Some address) as Hn by (intros C%Hr; congruence).
  cbn [s_sessions s_sessionIDs s_registered]. rewrite (bool_decide_eq_false_2 _ Hn), (tm_erase_set _ _ _ (s_sessions r)) by done.
  rewrite tm_erase_set; [by destruct r|].
  destruct (tm_find id_text i (s_sessionIDs r)) eqn:E'; [|done]. destruct (proj1 (Hs i)) as [? ?]; [by eexists | congruence].
Qed.

(** A creation that throws leaves no session behind: whatever went wrong, in
    the settings, the dictionaries, the store, the application's callback, or
    after the session was constructed, the registry is as it was. *)
Theorem create_failure_clean sessionID settings address w w' e p :
  reachable onCreate p -> w_registry w = p_registry p -> p_live p !! address = None ->
  create sessionID settings address w = (w', Throw e) -> w_registry w' = w_registry w.
Proof.
  intros Hp Hw Ha. pose proof (reachable_ok _ _ Hp) as Hr. rewrite <- Hw in Hr. rewrite create_eq.
  destruct (create_connectionType settings) as [c|e']; [|by intros [= <- _]]. cbv zeta.
  destruct (prepare sessionID settings c _) as [[[[pr d] s] h]|e']; [|by intros [= <- _]].
  destruct (new_Session sessionID pr (sessionTimeRange s) h address (w_registry w)) as [r [o|e']] eqn:En.
  - apply new_Session_Ok in En as (_ & _ & _ & _ & _ & _ & Hc). destruct (finish settings s d o); [done|]. intros [= <- _]. by eapply destroy_new.
  - intros [= <- _]. by eapply new_Session_Throw.
Qed.

(** *** What the settings say of the schedule *)

(** What was read, or else the default. *)
Definition read_or {X} (r : result X) (d : X) : X := match r with Ok x => x | Throw _ => d end.

Definition time_setting (settings : Dictionary) (key : str) : result DateTime :=
  match getString settings key false with Ok v => UtcTimeOnlyConvertor_of_string v | Throw e => Throw e end.

(** The days of the session: both are read, or the session is daily. *)
Definition session_days (settings : Dictionary) : Z * Z :=
  match getDay settings START_DAY, getDay settings END_DAY with
  | Ok startDay, Ok endDay => (startDay, endDay)
  | _, _ => (-1, -1)
  end.

(** The days of the logons: the session's where they are not read, the last
    one also where the first is not. *)
Definition logon_days (settings : Dictionary) : Z * Z :=
  let '(startDay, endDay) := session_days settings in
  match getDay settings LOGON_DAY with
  | Ok logonDay => (logonDay, read_or (getDay settings LOGOUT_DAY) endDay)
  | Throw _ => (startDay, endDay)
  end.

(** A range in local time has whole seconds. *)
Definition at_time (local : bool) (t : DateTime) : DateTime :=
  UtcTimeOnly_of (if local then UtcTimeOnly_millis (getHour t) (getMinute t) (getSecond t) 0 else t).

(** [r] starts at [st] on the first day and ends at [et] on the last; over a whole
    week, when that is later on the same day, it ends when it starts. *)
Record range_is (local : bool) (st et : DateTime) (days : Z * Z) (r : TimeRange) : Prop := {
  range_local : m_useLocalTime r = local;
  range_days : (m_startDay r, m_endDay r) = days;
  range_start : m_startTime r = at_time local st;
  range_end : m_endTime r =
    if (0 <? days.1) && (days.1 =? days.2) &&
       dt_gt (if local then UtcTimeOnly_millis (getHour et) (getMinute et) (getSecond et) 0 else et)
             (if local then UtcTimeOnly_millis (getHour st) (getMinute st) (getSecond st) 0 else st)
    then at_time local st else at_time local et
}.

Lemma time_range_is local st et d1 d2 : range_is local st et (d1, d2) (time_range local st et d1 d2).
Proof.
  split; destruct local; unfold time_range, new_TimeRange; cbn [m_useLocalTime m_startDay m_endDay m_startTime m_endTime fst snd]; try done.
  all: destruct (Z.ltb_spec 0 d1); [|done]; destruct (Z.eqb_spec d1 d2) as [<-|]; [|by rewrite andb_false_r].
  all: rewrite (proj2 (Z.ltb_lt 0 d1)) by done; cbn [andb]; by destruct (dt_gt _ _).
Qed.

Lemma try_pair_Ok {X} (get : str -> result X) key1 key2 (a b x y : X) :
  try_pair get key1 key2 a b = Ok (x, y) ->
  match get key1 with Ok v => x = v /\ y = read_or (get key2) b | Throw _ => x = a /\ y = b end.
Proof.
  unfold try_pair. destruct (get key1) as [v|[]]; try done; [|by intros [= <- <-]].
  destruct (get key2) as [v'|[]]; try done; by intros [= <- <-].
Qed.

Lemma try_time_Ok settings key d t : try_time settings key d = Ok t -> t = read_or (time_setting settings key) d.
Proof. unfold try_time. change (get_time settings key) with (time_setting settings key). destruct (time_setting settings key) as [v|[]]; by intros [= <-]. Qed.

Lemma getDay_range settings key d : getDay settings key = Ok d -> d = -1 \/ 1 <= d <= 7.
Proof.
  unfold getDay, illegal_value. destruct (_ ≫= _) as [x|e] eqn:E; [intros [= ->]|destruct e; try done; by destruct (getString settings key false)].
  apply result_bind_Ok in E as (? & _ & (? & _ & [= <-])%result_bind_Ok). repeat case_bool_decide; lia.
Qed.

(** What a session is when it was created. *)
Record created (sessionID : SessionID) (settings : Dictionary) (address : Z) (w : World) (o : SessionObject S) : Prop := {
  (** It is found under its identifier. *)
  created_found : lookupSession (w_registry w) sessionID = Some address;
  created_id : m_sessionID (o_config o) = sessionID;
  (** An initiator has a positive heartbeat interval, an acceptor none yet. *)
  created_initiator : m_initiate (o_state o) = true -> exists h,
    getString settings CONNECTION_TYPE false = Ok (lit "initiator") /\ getInt settings HEARTBTINT = Ok h /\ 0 < h /\
    m_heartBtInt (o_state o) = IntField FIELD.HeartBtInt h;
  created_acceptor : m_initiate (o_state o) = false ->
    getString settings CONNECTION_TYPE false = Ok (lit "acceptor") /\ dict_has settings SESSION_QUALIFIER = false;
  (** Daily or weekly; a session that never stops has no schedule. *)
  created_days : m_startDay (m_sessionTime (o_config o)) < 0 <-> m_endDay (m_sessionTime (o_config o)) < 0;
  created_nonStop : m_isNonStopSession (o_config o) = true ->
    exists local d1 d2, m_sessionTime (o_config o) = time_range local midnight midnight d1 d2 /\ d1 < 0 /\ d2 < 0;
  (** The session's time and the logons' are the ones of the settings; the times
      must be given unless the session never stops, and then must not be. *)
  created_schedule : exists st et, let local := value_of getBool settings USE_LOCAL_TIME false in
    (if m_isNonStopSession (o_config o) then st = midnight /\ et = midnight
     else time_setting settings START_TIME = Ok st /\ time_setting settings END_TIME = Ok et) /\
    range_is local st et (session_days settings) (m_sessionTime (o_config o)) /\
    range_is local (read_or (time_setting settings LOGON_TIME) st) (read_or (time_setting settings LOGOUT_TIME) et) (logon_days settings)
      (m_logonTime (o_config o));
  (** Logons are inside the session's time. *)
  created_logon : exists local logonTime logoutTime logonDay logoutDay,
    m_logonTime (o_config o) = time_range local logonTime logoutTime logonDay logoutDay /\
    isInRange_day (m_sessionTime (o_config o)) logonTime logonDay = true /\
    isInRange_day (m_sessionTime (o_config o)) logoutTime logoutDay = true;
  created_timeouts : m_logonTimeout (o_state o) = value_of getInt settings LOGON_TIMEOUT 10 /\
    m_logoutTimeout (o_state o) = value_of getInt settings LOGOUT_TIMEOUT 2;
  created_switches : follows settings (o_config o);
  (** The addresses connections are taken from; from all when there are none. *)
  created_addresses : m_allowedRemoteAddresses o = string_split (value_of getText settings ALLOWED_REMOTE_ADDRESSES []) ","%char;
  created_applVerID : if m_isFIXT sessionID
    then exists v, getString settings DEFAULT_APPLVERID false = Ok v /\ m_senderDefaultApplVerID (o_config o) = toApplVerID v
    else m_senderDefaultApplVerID (o_config o) = [];
  (** Its dictionaries are those it would get alone. *)
  created_dictionaries : (create_provider read_dictionary sessionID settings []).2 = Ok (m_dataDictionaryProvider (o_config o))
}.

Lemma create_heartBtInt_Ok settings c h :
  create_connectionType settings = Ok c -> create_heartBtInt settings c = Ok h ->
  getString settings CONNECTION_TYPE false = Ok c /\
  ((c = lit "initiator" /\ getInt settings HEARTBTINT = Ok h /\ 0 < h) \/
   (c = lit "acceptor" /\ dict_has settings SESSION_QUALIFIER = false /\ h = 0)).
Proof.
  intros (c' & Hc & ([] & Hin & ([] & Hq & [= ->])%result_bind_Ok)%result_bind_Ok)%result_bind_Ok Hh. split; [done|].
  apply guard_or_Ok, bool_decide_eq_true in Hin. apply guard_or_Ok, negb_true_iff in Hq. unfold create_heartBtInt in Hh.
  apply elem_of_cons in Hin as [->|Hin]; [|apply list_elem_of_singleton in Hin as ->].
  - right. rewrite bool_decide_eq_false_2 in Hh by done. injection Hh as <-. rewrite bool_decide_eq_true_2 in Hq by done. done.
  - left. rewrite bool_decide_eq_true_2 in Hh by done. apply result_bind_Ok in Hh as (h' & Hh & ([] & Hg & [= ->])%result_bind_Ok).
    apply guard_or_Ok, negb_true_iff, Z.leb_gt in Hg. done.
Qed.

Lemma session_times_Ok settings nonStop st et :
  session_times settings nonStop = Ok (st, et) ->
  (time_setting settings START_TIME = Ok st /\ time_setting settings END_TIME = Ok et) \/ (nonStop = true /\ et = midnight).
Proof.
  unfold session_times. change (get_time settings) with (time_setting settings).
  destruct (time_setting settings START_TIME) as [v|[]], nonStop; try done; try (intros [= <- <-]; by right);
    destruct (time_setting settings END_TIME) as [v'|[]]; try done; intros [= <- <-]; auto.
Qed.

Lemma session_schedule_Ok settings s :
  session_schedule settings = Ok s ->
  (startDay s < 0 <-> endDay s < 0) /\ isNonStopSession s = value_of getBool settings NON_STOP_SESSION false /\
  useLocalTime s = value_of getBool settings USE_LOCAL_TIME false /\ (startDay s, endDay s) = session_days settings /\
  (if isNonStopSession s then startDay s < 0 /\ endDay s < 0 /\ startTime s = midnight /\ endTime s = midnight
   else time_setting settings START_TIME = Ok (startTime s) /\ time_setting settings END_TIME = Ok (endTime s)).
Proof.
  unfold session_schedule. intros (ul & Hul & (ns & Hns & ([sd ed] & Hd & E)%result_bind_Ok)%result_bind_Ok)%result_bind_Ok.
  apply result_bind_Ok in E as ([st et] & Ht & ([] & G1 & ([] & G2 & ([] & G3 & [= <-])%result_bind_Ok)%result_bind_Ok)%result_bind_Ok).
  apply guard_or_Ok, negb_true_iff in G1, G2, G3. cbn [startDay endDay isNonStopSession startTime endTime useLocalTime].
  apply andb_false_iff in G1, G2. apply try_pair_Ok in Hd. split_and!.
  - lia.
  - unfold value_of. rewrite Hns. by destruct ns.
  - unfold value_of. rewrite Hul. by destruct ul.
  - unfold session_days. destruct (getDay settings START_DAY) as [v|] eqn:Es; destruct Hd as [-> ->]; [|done].
    pose proof (getDay_range _ _ _ Es). destruct (getDay settings END_DAY) as [v'|] eqn:Ee; simpl in *; [done|]. f_equal. lia.
  - apply session_times_Ok in Ht. destruct (default false ns); [|by destruct Ht as [?|[? _]]]. cbn [andb] in G3.
    apply orb_false_iff in G3 as [[[? ?]%orb_false_iff E1]%orb_false_iff E2]. apply negb_false_iff, dt_eq_spec in E1, E2. split_and!; [lia | lia | done | done].
Qed.

Lemma logon_time_range_Ok settings s r :
  session_schedule settings = Ok s -> logon_time_range settings s = Ok r ->
  exists logonTime logoutTime logonDay logoutDay,
    r = time_range (useLocalTime s) logonTime logoutTime logonDay logoutDay /\
    logonTime = read_or (time_setting settings LOGON_TIME) (startTime s) /\ logoutTime = read_or (time_setting settings LOGOUT_TIME) (endTime s) /\
    (logonDay, logoutDay) = logon_days settings /\
    isInRange_day (sessionTimeRange s) logonTime logonDay = true /\ isInRange_day (sessionTimeRange s) logoutTime logoutDay = true.
Proof.
  intros (_ & _ & _ & Hd & _)%session_schedule_Ok. unfold logon_time_range.
  intros ([ld od] & Ed & (lt & Hlt & (ot & Hot & ([] & G1 & ([] & G2 & [= <-])%result_bind_Ok)%result_bind_Ok)%result_bind_Ok)%result_bind_Ok)%result_bind_Ok.
  apply guard_or_Ok in G1, G2. apply try_time_Ok in Hlt, Hot. apply try_pair_Ok in Ed. exists lt, ot, ld, od. split_and!; try done.
  unfold logon_days. rewrite <- Hd. by destruct (getDay settings LOGON_DAY); destruct Ed as [-> ->].
Qed.

Lemma value_of_eq {X} (get : Dictionary -> str -> result X) settings key v d :
  optional get settings key = Ok v -> value_of get settings key d = default d v.
Proof. unfold value_of. intros ->. by destruct v. Qed.

Lemma apply_settings_follows settings nonStop (o o' : SessionObject S) :
  apply_settings settings nonStop o = Ok o' ->
  (exists i p r l d t, o_config o = setLogonTime t (setSenderDefaultApplVerID d (default_Config i p r l))) ->
  nonStop = value_of getBool settings NON_STOP_SESSION false -> follows settings (o_config o').
Proof.
  intros E (i & p & r & l & d & t & Ec) Hn. assert (m_isNonStopSession (o_config o) = false) as H0 by by rewrite Ec.
  destruct (apply_settings_eq _ _ _ _ E H0) as (v1 & v2 & v3 & v4 & v5 & v6 & v7 & v8 & v9 & v10 & v11 & v12 & v13 & v14 & v15 & H1 & H2 & H3 & H4 & H5 & H6 & H7 & H8 & H9 & H10 & H11 & H12 & H13 & H14 & H15 & Eo & _).
  rewrite Eo, Ec. clear Eo E H0 Ec.
  assert (forall {X} (f : Config -> X) (g : X -> Config -> Config) v c, (forall x c, f (g x c) = x) -> f (maybe g v c) = default (f c) v) as own
    by (intros X f g v c Hg; destruct v; [apply Hg | done]).
  constructor; rewrite ?(value_of_eq _ _ _ _ _ H1), ?(value_of_eq _ _ _ _ _ H2), ?(value_of_eq _ _ _ _ _ H3), ?(value_of_eq _ _ _ _ _ H4),
    ?(value_of_eq _ _ _ _ _ H7), ?(value_of_eq _ _ _ _ _ H8), ?(value_of_eq _ _ _ _ _ H9), ?(value_of_eq _ _ _ _ _ H10),
    ?(value_of_eq _ _ _ _ _ H11), ?(value_of_eq _ _ _ _ _ H12), ?(value_of_eq _ _ _ _ _ H13), ?(value_of_eq _ _ _ _ _ H14),
    ?(value_of_eq _ _ _ _ _ H15); through_setters.
  all: try (rewrite own by (by intros ? []); through_setters; done).
  rewrite precision_settings by (by through_setters). cbv zeta. by rewrite !(value_of_eq _ _ _ _ _ H12).
Qed.

(** A session that is created is found under its identifier, initiates exactly
    when its ConnectionType says so, with the heartbeat interval of the settings,
    has a schedule of both days or of none, and none when it never stops, takes
    logons inside its session time only, and its times, its days, its addresses,
    its dictionaries and every switch and timeout are what its settings say or else
    the default. A day of a pair that lacks its first day, or whose first day is no
    day, is not taken for one of the settings ([end_day_ignored],
    [illegal_day_ignored]). *)
Theorem created_as_configured sessionID settings address w w' o p :
  table_ok read_dictionary (w_dictionaries w) ->
  reachable onCreate p -> w_registry w = p_registry p -> p_live p !! address = None ->
  create sessionID settings address w = (w', Ok o) -> created sessionID settings address w' o.
Proof.
  intros Ht Hp Hw Ha. pose proof (reachable_ok _ _ Hp) as Hr. rewrite <- Hw in Hr. rewrite create_eq.
  destruct (transparent_create_provider read_dictionary sessionID settings _ Ht) as [_ Hprov].
  destruct (create_connectionType settings) as [c|] eqn:Ec; [|done]. cbv zeta.
  destruct (prepare sessionID settings c _) as [[[[pr d] s] h]|] eqn:Ep; [|done].
  destruct (new_Session sessionID pr (sessionTimeRange s) h address (w_registry w)) as [r [o1|]] eqn:En; [|done].
  destruct (finish settings s d o1) as [o2|] eqn:Ef; [|done]. intros [= <- <-].
  apply result_bind_Ok in Ep as (? & Epr & (? & Ed & (? & Es & (? & Eh & [= -> -> -> ->])%result_bind_Ok)%result_bind_Ok)%result_bind_Ok).
  apply new_Session_Ok in En as (Eo & Ei & Eb & El1 & El2 & Eal & Econ).
  apply result_bind_Ok in Ef as (lr & Elr & Ea).
  destruct (create_heartBtInt_Ok _ _ _ Ec Eh) as (Econn & Hh). destruct (session_schedule_Ok _ _ Es) as (Hd & Hn & Hl & Hdays & Hstop).
  destruct (logon_time_range_Ok _ _ _ Es Elr) as (lt & ot & ld & od & Er & Elt & Eot & Eld & Hl1 & Hl2).
  set (o3 := configure _ _) in Ea. assert (o_config o3 = setLogonTime lr (setSenderDefaultApplVerID d (default_Config sessionID pr (sessionTimeRange s) (bool_decide (is_Some create_log))))) as E3
    by (subst o3; cbn [o_config configure]; by rewrite Eo).
  assert (follows settings (o_config o2)) as Hf by (eapply apply_settings_follows; [exact Ea | rewrite E3; by eexists _, _, _, _, _, _ | done]).
  destruct (apply_settings_eq _ _ _ _ Ea) as (v1 & v2 & v3 & v4 & v5 & v6 & v7 & v8 & v9 & v10 & v11 & v12 & v13 & v14 & v15 & H1 & H2 & H3 & H4 & H5 & H6 & _ & _ & _ & _ & _ & _ & _ & _ & _ & Ecfg & Et1 & Et2 & Einit & Ehb & v16 & H16 & Ead);
    [by rewrite E3|].
  assert (m_sessionID (o_config o2) = sessionID /\ m_sessionTime (o_config o2) = sessionTimeRange s /\ m_logonTime (o_config o2) = lr /\
    m_senderDefaultApplVerID (o_config o2) = d /\ m_dataDictionaryProvider (o_config o2) = pr) as (C1 & C2 & C3 & C4 & C5)
    by (rewrite Ecfg; split_and!; through_setters; by rewrite E3).
  assert (forall x, m_startDay (time_range x (startTime s) (endTime s) (startDay s) (endDay s)) = startDay s /\
    m_endDay (time_range x (startTime s) (endTime s) (startDay s) (endDay s)) = endDay s) as Hds by by intros [].
  constructor; rewrite ?C1, ?C2, ?C3, ?C4, ?C5; try done.
  - cbn [w_registry]. unfold construct, addSession in Econ. destruct (tm_find id_text sessionID _) eqn:Efi; [done|]. cbn [negb] in Econ.
    destruct (onCreate sessionID); [|done]. injection Econ as <-. apply tm_find_set. by destruct Hr.
  - rewrite Einit. change (m_initiate (o_state o3)) with (m_initiate (o_state o1)). rewrite Ei. intros Hh0.
    destruct Hh as [(-> & Hg & Hp0)|(_ & _ & ->)]; [|done]. exists h. split_and!; try done. by rewrite Ehb.
  - rewrite Einit. change (m_initiate (o_state o3)) with (m_initiate (o_state o1)). rewrite Ei. intros Hh0%negb_false_iff%Z.eqb_eq.
    destruct Hh as [(_ & _ & Hp0)|(-> & Hq & _)]; [lia | done].
  - unfold sessionTimeRange. destruct (Hds (useLocalTime s)) as [-> ->]. exact Hd.
  - rewrite (follows_nonStop _ _ Hf), <- Hn. intros Hns. rewrite Hns in Hstop. destruct Hstop as (D1 & D2 & T1 & T2).
    exists (useLocalTime s), (startDay s), (endDay s). unfold sessionTimeRange. by rewrite T1, T2.
  - exists (startTime s), (endTime s). cbv zeta. rewrite (follows_nonStop _ _ Hf), <- Hn, <- Hl, <- Hdays, <- Eld, <- Elt, <- Eot, Er.
    split_and!; [|apply time_range_is..]. destruct (isNonStopSession s); [by destruct Hstop as (_ & _ & ?) | done].
  - by exists (useLocalTime s), lt, ot, ld, od.
  - rewrite Et1, Et2. change (o_state o3) with (o_state o1). by rewrite El1, El2, (value_of_eq _ _ _ _ _ H5), (value_of_eq _ _ _ _ _ H6).
  - rewrite Ead, (value_of_eq _ _ _ _ _ H16). change (m_allowedRemoteAddresses o3) with (m_allowedRemoteAddresses o1). rewrite Eal. by destruct v16.
  - destruct (m_isFIXT sessionID); [|by injection Ed as <-]. destruct (getString settings DEFAULT_APPLVERID false) as [v|]; [|done]. exists v. split; [done|]. by injection Ed.
  - by rewrite <- Hprov, Epr.
Qed.
End Creating.

(** ** Examples *)

(** Settings read from a configuration of one session. *)
Definition ex_dictionary (lines : list string) : Dictionary :=
  let text := text_of (map lit (["[SESSION]"; "BeginString=FIX.4.2"; "SenderCompID=ME"; "TargetCompID=YOU"; "UseDataDictionary=N"]%string ++ lines)) in
  match read_SessionSettings no_environment text (new_SessionSettings false) with
  | Ok s => match settings_of s (ex_id "YOU") with Ok d => d | Throw _ => default_Dictionary end
  | Throw _ => default_Dictionary
  end.

(** No dictionary can be read; the store is as it was left the day before. *)
Definition ex_read_dictionary (path : str) (preserve : bool) : result DataDictionary := Throw (ConfigError path).
Definition ex_today : DateTime := DateTime_fraction 2024 3 5 12 0 0 0 9.
Definition ex_yesterday : DateTime := DateTime_fraction 2024 3 4 12 0 0 0 9.
Definition ex_kept_store (now : DateTime) (sessionID : SessionID) : result MemoryStore := Ok (mkMemoryStore [(6, lit "m")] 7 9 ex_yesterday).
Definition ex_onCreate (sessionID : SessionID) : result unit := Ok ().

Definition ex_create (settings : Dictionary) : World * result (SessionObject MemoryStore) :=
  create ex_read_dictionary ex_kept_store None ex_onCreate (fun _ => ex_today) (fun _ => Build_tm 0 0 0 0 0 0)
    (ex_id "YOU") settings 1 (mkWorld [] (p_registry ex_process)).

Definition ex_settings_day : Dictionary :=
  Eval vm_compute in ex_dictionary ["ConnectionType=initiator"; "HeartBtInt=30"; "StartTime=08:00:00"; "EndTime=17:00:00"; "ResetOnLogon=Y"]%string.
Definition ex_settings_bad : Dictionary :=
  Eval vm_compute in ex_dictionary ["ConnectionType=acceptor"; "StartTime=08:00:00"; "EndTime=17:00:00"; "LogonTime=07:00:00"]%string.

Lemma ex_free : p_live ex_process !! 1 = None.
Proof. vm_compute. reflexivity. Qed.

Lemma created_as_configured_witness :
  exists w o, ex_create ex_settings_day = (w, Ok o) /\ created ex_read_dictionary (ex_id "YOU") ex_settings_day 1 w o /\
    m_resetOnLogon (o_config o) = true /\ st_getNextSenderMsgSeqNum (m_pStore (o_state o)) = Ok 1.
Proof.
  destruct (ex_create ex_settings_day) as [w [o|e]] eqn:E; [|vm_compute in E; discriminate E].
  exists w, o. split; [done|]. split.
  - exact (created_as_configured ex_read_dictionary ex_kept_store None ex_onCreate (fun _ => ex_today) (fun _ => Build_tm 0 0 0 0 0 0)
           (ex_id "YOU") ex_settings_day 1 (mkWorld [] (p_registry ex_process)) w o ex_process (table_ok_empty _) ex_reachable eq_refl ex_free E).
  - vm_compute in E. injection E as <- <-. split; reflexivity.
Defined.

Lemma create_failure_clean_witness :
  exists w e, ex_create ex_settings_bad = (w, Throw e) /\ w_registry w = p_registry ex_process.
Proof.
  destruct (ex_create ex_settings_bad) as [w [o|e]] eqn:E; [vm_compute in E; discriminate E|].
  exists w, e. split; [done|].
  exact (create_failure_clean ex_read_dictionary ex_kept_store None ex_onCreate (fun _ => ex_today) (fun _ => Build_tm 0 0 0 0 0 0)
           (ex_id "YOU") ex_settings_bad 1 (mkWorld [] (p_registry ex_process)) w e ex_process ex_reachable eq_refl ex_free E).
Defined.

(** ** What goes wrong *)

(** An EndDay without a StartDay is not an error: the attempt to read StartDay
    ends the block that reads both, and the session is daily. *)
Lemma end_day_ignored :
  session_schedule (ex_dictionary ["ConnectionType=acceptor"; "StartTime=08:00:00"; "EndTime=17:00:00"; "EndDay=friday"]%string) =
    Ok (mkSchedule false false (-1) (-1) (UtcTimeOnly_millis 8 0 0 0) (UtcTimeOnly_millis 17 0 0 0)).
Proof. vm_compute. reflexivity. Qed.

(** Nor is a StartDay that names no day: the exception for an illegal value is
    taken for a missing one. *)
Lemma illegal_day_ignored :
  session_schedule (ex_dictionary ["ConnectionType=acceptor"; "StartTime=08:00:00"; "EndTime=17:00:00"; "StartDay=m"; "EndDay=friday"]%string) =
    Ok (mkSchedule false false (-1) (-1) (UtcTimeOnly_millis 8 0 0 0) (UtcTimeOnly_millis 17 0 0 0)).
Proof. vm_compute. reflexivity. Qed.

(** A session that never stops loses its sequence numbers when it is created on
    a later day than its store: the constructor compares the days, since it is
    told that the session never stops only after it. *)
Lemma non_stop_reset_on_restart :
  exists o, (ex_create (ex_dictionary ["ConnectionType=initiator"; "HeartBtInt=30"; "NonStopSession=Y"]%string)).2 = Ok o /\
    m_isNonStopSession (o_config o) = true /\ st_getNextSenderMsgSeqNum (m_pStore (o_state o)) = Ok 1 /\
    st_getNextTargetMsgSeqNum (m_pStore (o_state o)) = Ok 1.
Proof. eexists. split; [vm_compute; reflexivity|]. split_and!; reflexivity. Qed.
