(* ===== verification/SessionLogic.v ===== *)
(** * Reasoning about session operations

    [keeps P post m]: from every world of [P] the program [m] ends, normally or by
    an exception, in a world of [P], and a value it returns satisfies [post]. The
    rules follow the program's structure; the tactic [keep] applies them, with the
    lemmas of the hint database [session] for the operations a program calls.

    The frame section takes any [P] that the session's few primitive effects keep
    and derives it for every operation of the session below the handlers. *)
From S2P Require Import Prelude Convertors Values DateTime TimeConvertors TimeRange MessageSorters OrdMap Field FieldMap.
From S2P Require Import DictData Message DictValidate Layout SessionID MessageStore SessionState Provider Session.

Create HintDb session discriminated.
#[export] Hint Constants Opaque : session.

(** ** Rules *)

Section Rules.
Context {S A : Type}.
Implicit Types (P : World S A -> Prop).

Definition keeps {X} P (post : X -> Prop) (m : M S A X) : Prop :=
  forall w, P w -> P (fst (m w)) /\ forall x, snd (m w) = Ok x -> post x.

Definition any {X} : X -> Prop := fun _ => True.

Lemma keeps_weaken {X} P (post post' : X -> Prop) m :
  keeps P post m -> (forall x, post x -> post' x) -> keeps P post' m.
Proof. intros H Hp w Hw. destruct (H w Hw) as [H1 H2]. split; [done|]. intros x Hx. by apply Hp, H2. Qed.

Lemma keeps_any {X} P (post : X -> Prop) m : keeps P post m -> keeps P any m.
Proof. intros H. by eapply keeps_weaken. Qed.

Lemma keeps_ret {X} P (post : X -> Prop) x : post x -> keeps P post (mret x).
Proof. intros H w Hw. split; [done|]. by intros y [= <-]. Qed.

Lemma keeps_lift {X} P (r : result X) : keeps P (fun x => r = Ok x) (lift r).
Proof. by intros w Hw. Qed.

Lemma keeps_raise {X} P (post : X -> Prop) e : keeps P post (raise e).
Proof. by intros w Hw. Qed.

Lemma keeps_bind {X Y} P (mid : X -> Prop) (post : Y -> Prop) m f :
  keeps P mid m -> (forall x, mid x -> keeps P post (f x)) -> keeps P post (x ← m; f x).
Proof.
  intros Hm Hf w Hw. unfold mbind, M_bind. specialize (Hm w Hw) as [H1 H2].
  destruct (m w) as [w' [x|e]]; [|done]. by apply Hf; [apply H2|].
Qed.

Lemma keeps_try {X} P (post : X -> Prop) m handler :
  keeps P post m -> (forall e h, handler e = Some h -> keeps P post h) -> keeps P post (try_catch m handler).
Proof.
  intros Hm Hh w Hw. unfold try_catch. specialize (Hm w Hw) as [H1 H2].
  destruct (m w) as [w' [x|e]]; [done|]. destruct (handler e) as [h|] eqn:E; [by apply (Hh e) | done].
Qed.

Lemma keeps_when P b m : keeps P any m -> keeps P any (when b m).
Proof. intros H. destruct b; [done|]. by apply keeps_ret. Qed.

Lemma keeps_gets {X} P (f : World S A -> X) : keeps P any (gets f).
Proof. by intros w Hw. Qed.

Lemma keeps_read {X} P (f : SessionState S -> X) : keeps P any (read f).
Proof. by intros w Hw. Qed.

Lemma keeps_read_result {X} P (f : SessionState S -> result X) : keeps P any (read_result f).
Proof. by intros w Hw. Qed.

(** [spec P m Q E]: from [P], a normal end is in [Q] and an exception leaves [E]. *)
Definition spec {X} P (m : M S A X) (Q : X -> World S A -> Prop) (E : World S A -> Prop) : Prop :=
  forall w, P w -> match snd (m w) with Ok x => Q x (fst (m w)) | Throw _ => E (fst (m w)) end.

Lemma spec_bind {X Y} P Q R E (m : M S A X) (f : X -> M S A Y) :
  spec P m Q E -> (forall x, spec (Q x) (f x) R E) -> spec P (x ← m; f x) R E.
Proof.
  intros Hm Hf w Hw. unfold mbind, M_bind. specialize (Hm w Hw).
  destruct (m w) as [w' [x|e]]; [|done]. by apply Hf.
Qed.

Lemma spec_weaken {X} P P' Q Q' E E' (m : M S A X) :
  spec P m Q E -> (forall w, P' w -> P w) -> (forall x w, Q x w -> Q' x w) -> (forall w, E w -> E' w) -> spec P' m Q' E'.
Proof.
  intros Hm Hp Hq He w Hw. specialize (Hm w (Hp w Hw)). destruct (snd (m w)); auto.
Qed.

Lemma spec_assume {X} (p : Prop) P Q E (m : M S A X) : (forall w, P w -> p) -> (p -> spec P m Q E) -> spec P m Q E.
Proof. intros Hp Hm w Hw. apply Hm; eauto. Qed.

Lemma keeps_spec {X} P (post : X -> Prop) m : keeps P post m <-> spec P m (fun x w => P w /\ post x) P.
Proof.
  split; intros Hm w Hw.
  - destruct (Hm w Hw) as [Hp Hx]. destruct (snd (m w)); auto.
  - specialize (Hm w Hw). destruct (snd (m w)); [|done]. destruct Hm. split; [done|]. by intros y [= <-].
Qed.

Lemma spec_to_keeps {X} P (m : M S A X) : spec P m (fun _ => P) P -> keeps P any m.
Proof. intros Hm. apply keeps_spec. by eapply spec_weaken. Qed.

(** A step on the way that keeps [P]. *)
Lemma spec_quiet {X Y} P Q E (m : M S A X) (f : X -> M S A Y) :
  keeps P any m -> (forall w, P w -> E w) -> (forall x, spec P (f x) Q E) -> spec P (x ← m; f x) Q E.
Proof.
  intros Hm HP Hf. eapply spec_bind.
  - eapply spec_weaken; [by apply keeps_spec, Hm | done | intros x w Hw; exact Hw | done].
  - intros x. eapply spec_weaken; [apply (Hf x) | by intros w [] | done | done].
Qed.

Lemma spec_ret {X} P E (x : X) : spec P (mret x) (fun y w => y = x /\ P w) E.
Proof. by intros w Hw. Qed.

Lemma spec_lift {X} P E (r : result X) : (forall w, P w -> E w) -> spec P (lift r) (fun x w => r = Ok x /\ P w) E.
Proof. intros He w Hw. unfold lift. cbn. destruct r; auto. Qed.

Lemma spec_lift_bind {X Y} P Q E (r : result X) (f : X -> M S A Y) :
  (forall w, P w -> E w) -> (forall x, r = Ok x -> spec P (f x) Q E) -> spec P (x ← lift r; f x) Q E.
Proof.
  intros He Hf w Hw. unfold mbind, M_bind, lift. destruct r as [x|e]; [by apply Hf | cbn; auto].
Qed.

Lemma spec_raise {X} P (Q : X -> _) e : spec P (raise e) Q P.
Proof. by intros w Hw. Qed.

Lemma spec_read_result {X} P (f : SessionState S -> result X) :
  spec P (read_result f) (fun x w => P w /\ f (w_state w) = Ok x) P.
Proof. intros w Hw. unfold read_result. cbn. by destruct (f (w_state w)) eqn:E. Qed.

Lemma spec_read {X} P E (f : SessionState S -> X) : spec P (read f) (fun x w => P w /\ x = f (w_state w)) E.
Proof. by intros w Hw. Qed.

Lemma spec_try {X} P Q E E' (m : M S A X) handler :
  spec P m Q E -> (forall e h, handler e = Some h -> spec E h Q E') -> (forall w, E w -> E' w) ->
  spec P (try_catch m handler) Q E'.
Proof.
  intros Hm Hh He w Hw. specialize (Hm w Hw). unfold try_catch. destruct (m w) as [w' [x|e]]; [done|].
  cbn in Hm. destruct (handler e) as [h|] eqn:Eh; [by apply (Hh e) | cbn; auto].
Qed.
End Rules.

#[export] Hint Resolve keeps_lift keeps_gets keeps_read keeps_read_result keeps_raise : session.

(** Of a message a step returns, the header is kept laid out; of other values, what
    the lemma for the step says. *)
Ltac keep_step :=
  lazymatch goal with
  | |- keeps _ _ (let _ := _ in _) => cbv zeta
  | |- keeps _ _ (mbind _ _) =>
      first [ eapply keeps_bind; [solve [eauto 3 with session]|]
            | apply (keeps_bind (X := Message) _ header_ok)
            | apply (keeps_bind _ any) ];
      [.. | intros ? ?]
  | |- keeps _ _ (if ?b then _ else _) => destruct b eqn:?
  | |- keeps _ _ (match ?x with _ => _ end) => destruct x eqn:?
  | |- keeps _ _ (mret _) => apply keeps_ret; try solve [exact I | eauto 5 with session]
  | |- keeps _ _ (when _ _) => apply keeps_when
  | |- keeps _ _ (try_catch _ _) => apply keeps_try; [|intros [] ? [= <-]]
  | |- _ => first [solve [eauto 3 with session] | solve [eapply keeps_any; eauto 3 with session]]
  end.
Ltac keep := repeat keep_step.

Lemma type_of_getField m t : getField (m_header m) FIELD.MsgType = Ok t -> type_of m = t.
Proof.
  unfold getField, getFieldRef, type_of. destruct (getFieldIfSet _ _); [|done]. by intros [= <-].
Qed.

Lemma str_eqb_eq a b : str_eqb a b = true -> a = b.
Proof. apply bool_decide_eq_true. Qed.

(** The number a message carries. *)
Definition number_of (m : Message) : result Z :=
  f ← getFieldRef (m_header m) FIELD.MsgSeqNum; SeqNumField_valueOf f.

(** The message carries the number expected next. *)
Definition at_target {S A} `{MessageStore S} (m : Message) (w : World S A) : Prop :=
  exists n, number_of m = Ok n /\ state_getNextTarget (w_state w) = Ok n.

Section Checks.
Context {S A : Type} `{MessageStore S} `{Env A}.

Lemma spec_tooHigh n (p E : World S A -> Prop) :
  (forall w, p w -> E w) ->
  spec p (isTargetTooHigh n) (fun b w => p w /\ exists t, state_getNextTarget (w_state w) = Ok t /\ b = (t <? n)) E.
Proof.
  intros Hp. unfold isTargetTooHigh. eapply spec_bind.
  - eapply spec_weaken; [apply (spec_read_result p) | done | intros x w Hw; exact Hw | done].
  - intros t w [Hw Ht]. cbn. eauto.
Qed.

Lemma spec_tooLow n (p E : World S A -> Prop) :
  (forall w, p w -> E w) ->
  spec p (isTargetTooLow n) (fun b w => p w /\ exists t, state_getNextTarget (w_state w) = Ok t /\ b = (n <? t)) E.
Proof.
  intros Hp. unfold isTargetTooLow. eapply spec_bind.
  - eapply spec_weaken; [apply (spec_read_result p) | done | intros x w Hw; exact Hw | done].
  - intros t w [Hw Ht]. cbn. eauto.
Qed.

End Checks.

(** ** The frame *)

(** The actions that touch neither the store nor a delivery. *)
Definition silent (a : action) : bool :=
  match a with
  | LogEvent _ | LogIncoming _ | LogOutgoing _ | Responder_send _ | Responder_disconnect
  | Called_onLogon | Called_onLogout | Called_toAdmin _ | Called_toApp _ | Called_fromAdmin _ => true
  | _ => false
  end.

(** The callbacks hand back a message whose header is laid out when they got one. *)
Class Application_ok {A} (app : Application A) := {
  toAdmin_ok m a : header_ok m -> header_ok (fst (snd (toAdmin app m a)));
  toApp_ok m a : header_ok m -> header_ok (fst (snd (toApp app m a)))
}.

(** The orders a session's dictionary gives are of [int]s. *)
Class Dictionary_ok (d : DataDictionary) := {
  header_fields_ok : Forall int_field (m_headerOrderedFields d);
  message_fields_ok t o : getMessageOrderedFields t d = Ok o -> built_order o
}.

(** [P] reads the store, the queue and the history only, not whether the queue was
    cleared, and a silent action keeps it. *)
Class Quiet {S A : Type} (P : World S A -> Prop) := {
  quiet_ext w w' :
    w_history w' = w_history w -> m_pStore (w_state w') = m_pStore (w_state w) ->
    m_queue (w_state w') = m_queue (w_state w) \/ m_queue (w_state w') = [] -> P w -> P w';
  quiet_note a w w' :
    silent a = true -> w_history w' = a :: w_history w -> w_state w' = w_state w -> P w -> P w'
}.

(** And so do the operations that change the store. *)
Class Frame {S A : Type} `{MessageStore S} `{Env A} (P : World S A -> Prop) := {
  frame_quiet : Quiet P;
  frame_reset : keeps P any reset_state;
  frame_refresh : keeps P any refresh;
  frame_incr : keeps P any incrNextTarget;
  frame_send message num admin : (num = 0 -> header_ok message) -> keeps P any (sendSequenced message num admin)
}.
#[export] Existing Instance frame_quiet.

Section Quiet.
Context {S A : Type} (P : World S A -> Prop) `{!Quiet P}.

Lemma keeps_put f :
  (forall s, m_pStore (f s) = m_pStore s) -> (forall s, m_queue (f s) = m_queue s \/ m_queue (f s) = []) ->
  keeps P any (put_state f).
Proof. intros Hs Hq w Hw. split; [|done]. by apply (quiet_ext w); cbn. Qed.

Lemma keeps_set_responder b : keeps P any (set_responder b).
Proof. intros w Hw. split; [|done]. apply (quiet_ext w); cbn; auto. Qed.

Lemma keeps_setTarget v : keeps P any (setTargetDefaultApplVerID v).
Proof. intros w Hw. split; [|done]. apply (quiet_ext w); cbn; auto. Qed.

Lemma keeps_tick clock : keeps P any (tick clock).
Proof. intros w Hw. split; [|done]. apply (quiet_ext w); cbn; auto. Qed.

Lemma keeps_note a : silent a = true -> keeps P any (note a).
Proof. intros Ha w Hw. split; [|done]. by apply (quiet_note a w). Qed.

Lemma keeps_call {X} a (f : A -> A * X) : silent a = true -> keeps P (fun x => exists app, x = snd (f app)) (call a f).
Proof.
  intros Ha w Hw. unfold call. destruct (f (w_app w)) as [app x] eqn:E. cbn. split; [by apply (quiet_note a w)|].
  intros y [= <-]. exists (w_app w). by rewrite E.
Qed.


(** A quiet predicate and a property of the store. *)
Lemma quiet_and_store (p : S -> Prop) : Quiet (fun w => P w /\ p (m_pStore (w_state w))).
Proof.
  split.
  - intros w w' Hh Hs Hq [Hw Hp]. split; [by apply (quiet_ext w)|]. by rewrite Hs.
  - intros a w w' Ha Hh Hs [Hw Hp]. split; [by apply (quiet_note a w)|]. by rewrite Hs.
Qed.
End Quiet.

Lemma keeps_isLoggedOn {S A} (P : World S A -> Prop) : keeps P any isLoggedOn. Proof. apply keeps_read. Qed.
Lemma keeps_isEnabled {S A} (P : World S A -> Prop) : keeps P any isEnabled. Proof. apply keeps_read. Qed.

#[export] Hint Extern 0 (Frame _) => exact _ : session.
#[export] Hint Extern 0 (Quiet _) => exact _ : session.
#[export] Hint Resolve keeps_set_responder keeps_setTarget keeps_isLoggedOn keeps_isEnabled keeps_tick : session.
#[export] Hint Extern 1 (keeps _ _ (note _)) => (apply keeps_note; [exact _ | reflexivity]) : session.
#[export] Hint Extern 1 (keeps _ _ (call _ _)) => (apply keeps_call; [exact _ | reflexivity]) : session.
#[export] Hint Extern 1 (keeps _ _ (put_state _)) =>
  (apply keeps_put; [exact _ | reflexivity | intros; first [left; reflexivity | right; reflexivity]]) : session.

Section QuietOperations.
Context {S A : Type} `{MessageStore S} `{Env A} (P : World S A -> Prop) `{!Quiet P}.

Lemma keeps_timestamp : keeps P any timestamp. Proof. by apply keeps_tick. Qed.
Lemma keeps_sender : keeps P any getExpectedSenderNum. Proof. apply keeps_read_result. Qed.
Lemma keeps_target : keeps P any getExpectedTargetNum. Proof. apply keeps_read_result. Qed.
Hint Resolve keeps_timestamp keeps_sender keeps_target : session.

Lemma keeps_onEvent text : keeps P any (onEvent text).
Proof. unfold onEvent. keep. Qed.
Lemma keeps_onIncoming text : keeps P any (onIncoming text).
Proof. unfold onIncoming. keep. Qed.
Lemma keeps_onOutgoing text : keeps P any (onOutgoing text).
Proof. unfold onOutgoing. keep. Qed.
Hint Resolve keeps_onEvent keeps_onIncoming keeps_onOutgoing : session.

Lemma keeps_LOGEX m : keeps P any m -> keeps P any (LOGEX m).
Proof.
  intros Hm. unfold LOGEX. apply keeps_try; [done|]. intros e h Hh. destruct (is_exception e); [|done].
  injection Hh as <-. keep.
Qed.

Lemma keeps_checkSessionTime now : keeps P any (checkSessionTime now).
Proof. unfold checkSessionTime. keep. Qed.
Lemma keeps_isGoodTime f : keeps P any (isGoodTime f).
Proof. unfold isGoodTime. keep. Qed.
Lemma keeps_tooHigh n : keeps P any (isTargetTooHigh n).
Proof. unfold isTargetTooHigh. keep. Qed.
Lemma keeps_tooLow n : keeps P any (isTargetTooLow n).
Proof. unfold isTargetTooLow. keep. Qed.
Lemma keeps_shouldSendReset : keeps P any shouldSendReset.
Proof. unfold shouldSendReset. keep. Qed.
Hint Resolve keeps_checkSessionTime keeps_isGoodTime keeps_tooHigh keeps_tooLow keeps_shouldSendReset : session.

Lemma keeps_send_string text : keeps P any (send_string text).
Proof. unfold send_string. keep. Qed.

End QuietOperations.

#[export] Hint Resolve keeps_timestamp keeps_sender keeps_target keeps_onEvent keeps_onIncoming keeps_onOutgoing keeps_LOGEX
  keeps_checkSessionTime keeps_isGoodTime keeps_tooHigh keeps_tooLow keeps_shouldSendReset keeps_send_string : session.

Section Operations.
Context {S A : Type} `{MessageStore S} `{Env A} `{!Application_ok application} `{!Dictionary_ok sessionDD}.
Context (P : World S A -> Prop) `{!Frame P}.

Lemma keeps_reset_state : keeps P any reset_state. Proof. by apply frame_reset. Qed.
Lemma keeps_refresh : keeps P any refresh. Proof. by apply frame_refresh. Qed.
Lemma keeps_incr : keeps P any incrNextTarget. Proof. by apply frame_incr. Qed.
Hint Resolve keeps_reset_state keeps_refresh keeps_incr : session.

(** Headers the session builds are laid out. *)
Lemma laid_out_set_ids h : laid_out h -> laid_out (set_ids h).
Proof. intros Hh. unfold set_ids. by repeat (apply laid_out_setField; [done|]). Qed.

Lemma keeps_insertSendingTime h : laid_out h -> keeps P laid_out (insertSendingTime h).
Proof. intros Hh. unfold insertSendingTime. keep. by apply laid_out_setField. Qed.

Lemma keeps_insertOrigSendingTime h now : laid_out h -> keeps P laid_out (insertOrigSendingTime h now).
Proof. intros Hh. unfold insertOrigSendingTime. keep. by apply laid_out_setField. Qed.

Lemma keeps_fill m : header_ok m -> keeps P header_ok (fill m).
Proof.
  intros Hm. unfold fill. keep_step. keep_step. keep_step. eapply keeps_bind.
  - apply keeps_insertSendingTime, laid_out_setField; [done|]. by apply laid_out_set_ids.
  - intros h Hh. by apply keeps_ret.
Qed.

Lemma keeps_newMessage t : keeps P header_ok (newMessage t).
Proof.
  unfold newMessage. destruct (negb _).
  - apply keeps_ret. by apply laid_out_setField; [|apply header_ok_new].
  - eapply keeps_bind; [apply keeps_lift|]. intros ho Hho. keep_step.
    apply (keeps_bind _ any); [keep|]. intros mo _. apply keeps_ret.
    apply laid_out_setField; [done|]. apply laid_out_new.
    unfold getHeaderOrderedFields in Hho. pose proof header_fields_ok as Hf.
    destruct (m_headerOrderedFields sessionDD); [done|]. injection Hho as <-. by apply order_of_built.
Qed.
Hint Resolve keeps_insertSendingTime keeps_insertOrigSendingTime keeps_fill keeps_newMessage header_ok_reverseRoute : session.

Lemma keeps_reject_field reject field text :
  header_ok reject -> keeps P header_ok (populateRejectReason_field reject field text).
Proof. intros Hr. unfold populateRejectReason_field. keep; exact Hr. Qed.

Lemma keeps_call_to a f m :
  (forall app, header_ok m -> header_ok (fst (snd (f m app)))) -> (forall x, silent (a x) = true) ->
  header_ok m -> keeps P header_ok (call_to a f m).
Proof.
  intros Hf Ha Hm. unfold call_to. eapply keeps_bind; [apply keeps_call; [exact _ | done]|].
  intros [m' r] [app E]. keep. specialize (Hf app Hm). by rewrite <- E in Hf.
Qed.

Definition prepared_ok (o : option Message) : Prop := match o with Some m => header_ok m | None => True end.

Lemma keeps_prepareToSend message num admin :
  header_ok message -> keeps P prepared_ok (prepareToSend message num admin).
Proof.
  intros Hm. unfold prepareToSend. cbv zeta.
  eapply keeps_bind; [apply keeps_insertSendingTime|].
  { destruct (negb _); [apply laid_out_setField; [done|] | apply laid_out_removeField]; by apply laid_out_set_ids. }
  intros h Hh. apply keeps_try.
  - destruct admin.
    + eapply keeps_bind; [apply keeps_call_to; [apply toAdmin_ok | done | exact Hh]|]. intros m' Hm'. by apply keeps_ret.
    + keep_step. apply (keeps_bind _ any); [keep|]. intros [] _; [by apply keeps_ret|]. apply keeps_try.
      * eapply keeps_bind; [apply keeps_call_to; [apply toApp_ok | done | exact Hh]|]. intros m' Hm'. by apply keeps_ret.
      * intros [] ? [= <-]. by apply keeps_ret.
  - intros [] ? [= <-]. keep_step. by apply keeps_ret.
Qed.
Hint Resolve keeps_reject_field keeps_prepareToSend : session.

Lemma keeps_sendRaw message num : header_ok message -> keeps P any (sendRaw message num).
Proof.
  intros Hm. unfold sendRaw. cbv zeta. eapply keeps_bind; [by apply keeps_prepareToSend|].
  intros [m|] Hp; [|by apply keeps_ret]. by apply frame_send.
Qed.

Lemma keeps_send message : header_ok message -> keeps P any (send message).
Proof. intros Hm. apply keeps_sendRaw. by do 2 apply laid_out_removeField. Qed.

Lemma keeps_callback a f : silent a = true -> keeps P any (callback a f).
Proof. intros Ha. unfold callback. eapply keeps_bind; [apply keeps_call; [exact _ | done]|]. intros r _. keep. Qed.
Hint Resolve keeps_sendRaw keeps_send : session.
Hint Extern 1 (keeps _ _ (callback _ _)) => (apply keeps_callback; [reflexivity]) : session.

Lemma keeps_disconnect : keeps P any disconnect.
Proof. unfold disconnect. keep. Qed.
Hint Resolve keeps_disconnect : session.
End Operations.

#[export] Hint Resolve keeps_reset_state keeps_refresh keeps_incr keeps_fill keeps_newMessage header_ok_reverseRoute keeps_reject_field
  keeps_prepareToSend keeps_sendRaw keeps_send keeps_disconnect : session.
#[export] Hint Resolve keeps_insertSendingTime keeps_insertOrigSendingTime : session.
#[export] Hint Extern 1 (keeps _ _ (callback _ _)) => (apply keeps_callback; [exact _ | reflexivity]) : session.

(** Header of a message after changes to its body. *)
Ltac header_of_body :=
  repeat match goal with
  | |- header_ok (put_field ?m _) => change (header_ok m)
  | |- header_ok (populateRejectReason ?m _) => change (header_ok m)
  | |- header_ok (reverseRoute _ _) => apply header_ok_reverseRoute
  | |- header_ok (if ?b then _ else _) => destruct b
  | |- header_ok (match ?x with _ => _ end) => destruct x
  end; assumption.
#[export] Hint Extern 1 (header_ok _) => header_of_body : session.

Section Generate.
Context {S A : Type} `{MessageStore S} `{Env A} `{!Application_ok application} `{!Dictionary_ok sessionDD}.
Context (P : World S A -> Prop) `{!Frame P}.

Lemma keeps_newSequenceReset b e : keeps P header_ok (newSequenceReset b e).
Proof.
  unfold newSequenceReset. eapply keeps_bind; [eauto with session|]. intros m Hm.
  eapply keeps_bind; [apply keeps_fill; [exact _..|]; by apply laid_out_setField|]. intros m' Hm'. do 2 keep_step.
  eapply keeps_bind; [by apply keeps_insertOrigSendingTime|]. intros h Hh. apply keeps_ret.
  by apply laid_out_setField.
Qed.
Hint Resolve keeps_newSequenceReset : session.

Lemma keeps_generateSequenceReset b e : keeps P any (generateSequenceReset b e).
Proof. unfold generateSequenceReset. keep. Qed.

Lemma keeps_generateHeartbeat : keeps P any generateHeartbeat.
Proof. unfold generateHeartbeat. keep. Qed.

Lemma keeps_generateHeartbeat_reply m : keeps P any (generateHeartbeat_reply m).
Proof. unfold generateHeartbeat_reply. keep. Qed.

Lemma keeps_generateTestRequest id : keeps P any (generateTestRequest id).
Proof. unfold generateTestRequest. keep. Qed.

Lemma keeps_generateLogout text : keeps P any (generateLogout text).
Proof. unfold generateLogout. keep. Qed.
Hint Resolve keeps_generateSequenceReset keeps_generateHeartbeat keeps_generateHeartbeat_reply keeps_generateTestRequest
  keeps_generateLogout : session.

Lemma keeps_generateResendRequest b n : keeps P any (generateResendRequest b n).
Proof. unfold generateResendRequest. keep. Qed.

Lemma keeps_generateLogon : keeps P any generateLogon.
Proof. unfold generateLogon. keep. Qed.

Lemma keeps_generateLogon_reply m : keeps P any (generateLogon_reply m).
Proof. unfold generateLogon_reply. keep. Qed.
Hint Resolve keeps_generateResendRequest keeps_generateLogon keeps_generateLogon_reply : session.

Lemma keeps_skip_rejected t f : keeps P any (skip_rejected t f).
Proof. unfold skip_rejected. keep. Qed.
Hint Resolve keeps_skip_rejected : session.

Lemma keeps_generateReject m err field : keeps P any (generateReject m err field).
Proof. unfold generateReject. keep. Qed.

Lemma keeps_generateReject_text m text field : keeps P any (generateReject_text m text field).
Proof. unfold generateReject_text. keep. Qed.

Lemma keeps_generateBusinessReject m err field : keeps P any (generateBusinessReject m err field).
Proof. unfold generateBusinessReject. keep. Qed.
End Generate.

#[export] Hint Resolve keeps_newSequenceReset keeps_generateSequenceReset keeps_generateHeartbeat keeps_generateHeartbeat_reply
  keeps_generateTestRequest keeps_generateLogout keeps_generateResendRequest keeps_generateLogon keeps_generateLogon_reply
  keeps_skip_rejected keeps_generateReject keeps_generateReject_text keeps_generateBusinessReject : session.

Section Receive.
Context {S A : Type} `{MessageStore S} `{Env A} `{!Application_ok application} `{!Dictionary_ok sessionDD}.
Context (P : World S A -> Prop) `{!Frame P}.

Lemma keeps_reset : keeps P any reset.
Proof. unfold reset. keep. Qed.
Hint Resolve keeps_reset : session.

Lemma keeps_setResponder b : keeps P any (setResponder b).
Proof. unfold setResponder. keep. Qed.

Lemma keeps_doBadTime m : keeps P any (doBadTime m).
Proof. unfold doBadTime. keep. Qed.
Lemma keeps_doBadCompID m : keeps P any (doBadCompID m).
Proof. unfold doBadCompID. keep. Qed.
Lemma keeps_doPossDup m : keeps P any (doPossDup m).
Proof. unfold doPossDup. keep. Qed.
Hint Resolve keeps_doPossDup : session.
Lemma keeps_doTargetTooLow m : keeps P any (doTargetTooLow m).
Proof. unfold doTargetTooLow. keep. Qed.

(** Retransmission *)
Lemma keeps_resend m : keeps P any (resend m).
Proof.
  unfold resend. do 3 keep_step. eapply keeps_bind; [|intros h _; eapply keeps_bind; [|intros h' _; apply keeps_try]].
  - unfold insertOrigSendingTime. apply (keeps_bind _ any); [keep|]. intros t _. by apply (keeps_ret _ any).
  - unfold insertSendingTime. keep_step. apply (keeps_bind _ any); [keep|]. intros t _. by apply (keeps_ret _ any).
  - unfold call_to. apply (keeps_bind _ any).
    + eapply keeps_bind; [apply keeps_call; [exact _ | done]|]. intros [m' r] _. keep_step. by apply keeps_ret.
    + intros m' _. by apply keeps_ret.
  - intros [] ? [= <-]. by apply keeps_ret.
Qed.

Lemma keeps_addSequenceReset b e rs : keeps P any (addSequenceReset b e rs).
Proof. unfold addSequenceReset. keep. Qed.
Hint Resolve keeps_resend keeps_addSequenceReset : session.

Lemma keeps_resend_one r s : keeps P any (resend_one r s).
Proof. unfold resend_one. keep. Qed.
Hint Resolve keeps_resend_one : session.

Lemma keeps_resend_loop messages r : keeps P any (resend_loop r messages).
Proof.
  revert r. induction messages as [|s messages IH]; intros r; cbn [resend_loop]; [by apply keeps_ret|].
  keep_step. apply IH.
Qed.
Hint Resolve keeps_resend_loop : session.

Lemma keeps_plan_retransmits b e : keeps P any (plan_retransmits b e).
Proof. unfold plan_retransmits. keep. Qed.

Lemma keeps_send_retransmits rs : keeps P any (send_retransmits rs).
Proof.
  induction rs as [|r rs IH]; cbn [send_retransmits]; [by apply keeps_ret|].
  apply (keeps_bind _ any); [|intros ? _; keep_step; exact IH]. destruct (negb _) eqn:E.
  - apply frame_send. intros En. by rewrite En in E.
  - keep.
Qed.
Hint Resolve keeps_plan_retransmits keeps_send_retransmits : session.

Lemma keeps_generateRetransmits b e : keeps P any (generateRetransmits b e).
Proof. unfold generateRetransmits. keep. Qed.
Hint Resolve keeps_generateRetransmits : session.

Lemma keeps_retransmit_after_logon m : keeps P any (retransmit_after_logon m).
Proof. unfold retransmit_after_logon. keep. Qed.

Lemma keeps_check_next_expected m : keeps P any (check_next_expected m).
Proof. unfold check_next_expected. keep. Qed.

(** The timer *)
Lemma keeps_next_logon_timer now : keeps P any (next_logon_timer now).
Proof. unfold next_logon_timer. keep. Qed.
Lemma keeps_next_heartbeat_timer : keeps P any next_heartbeat_timer.
Proof. unfold next_heartbeat_timer. keep. Qed.
Hint Resolve keeps_next_logon_timer keeps_next_heartbeat_timer : session.

Lemma keeps_next_timer_body now : keeps P any (next_timer_body now).
Proof. unfold next_timer_body. keep. Qed.
Hint Resolve keeps_next_timer_body : session.

Lemma keeps_next_timer now : keeps P any (next_timer now).
Proof. unfold next_timer. keep. Qed.
End Receive.

#[export] Hint Resolve keeps_reset keeps_setResponder keeps_doBadTime keeps_doBadCompID keeps_doPossDup keeps_doTargetTooLow
  keeps_resend keeps_addSequenceReset keeps_generateRetransmits keeps_retransmit_after_logon keeps_check_next_expected
  keeps_next_timer : session.
