(* ===== verification/SessionExample.v ===== *)
(** * A session to try the theorems on

    An initiator ME of a FIX.4.2 session with YOU, on a memory store, with no
    dictionary and an application that accepts everything, and the text of messages
    YOU may send. The witnesses of the session's theorems run it. *)
From S2P Require Import Prelude Convertors Values DateTime TimeConvertors TimeRange MessageSorters OrdMap Field FieldMap.
From S2P Require Import DictData Message DictValidate Layout SessionID MessageStore SessionState Provider Session SessionLogic.

Definition ex_now : DateTime := DateTime_fraction 2024 2 29 23 59 58 0 9.

Definition ex_application : Application unit :=
  mkApplication (fun a => (a, Ok ())) (fun a => (a, Ok ())) (fun m a => (a, (m, Ok ()))) (fun m a => (a, (m, Ok ())))
    (fun m a => (a, Ok ())) (fun m a => (a, Ok ())).

Definition ex_id : SessionID := new_SessionID (lit "FIX.4.2") (lit "ME") (lit "YOU") [].

(** In session all day. *)
Definition ex_range : TimeRange := new_TimeRange (mkDateTime 0 0) (mkDateTime 0 0) 0 0 false.

Definition ex_config : Config := default_Config ex_id new_DataDictionaryProvider ex_range false.

#[export] Instance ex_env : Env unit :=
  mkEnv unit ex_config ex_application (fun _ => ex_now) (fun _ => ex_now) (fun _ => Build_tm 0 0 0 0 0 0) (fun _ => true).

#[export] Instance ex_application_ok : Application_ok (@application unit ex_env).
Proof. by split. Qed.

#[export] Instance ex_dictionary_ok : Dictionary_ok (@sessionDD unit ex_env).
Proof. split; [constructor | done]. Qed.

(** As the initiator's factory leaves it, with a connection. *)
Definition ex_start : World MemoryStore unit :=
  mkWorld (set_initiate true (set_heartBtInt (IntField FIELD.HeartBtInt 30) (new_SessionState ex_now (new_MemoryStore ex_now))))
    [] true tt 0 [].

(** A message of YOU. *)
Definition ex_message (t : string) (n : Z) (body : list FieldBase) : Message :=
  let h := fold_left setField
    [Field FIELD.BeginString (lit "FIX.4.2"); Field FIELD.MsgType (lit t); Field FIELD.SenderCompID (lit "YOU");
     Field FIELD.TargetCompID (lit "ME"); SeqNumField FIELD.MsgSeqNum n; Field FIELD.SendingTime (lit "20240229-23:59:58")]
    (m_header new_Message) in
  with_body (with_header new_Message h) (fold_left setField body (m_body new_Message)).

Definition ex_text (t : string) (n : Z) (body : list FieldBase) : str :=
  match toString_default (ex_message t n body) with Ok (s, _) => s | Throw _ => [] end.

Definition ex_logon : str := ex_text "A" 1 [Field FIELD.EncryptMethod (lit "0"); Field FIELD.HeartBtInt (lit "30")].
Definition ex_order (n : Z) : str := ex_text "D" n [Field 11 (lit "X")].
