(* ===== verification/SessionDrain.v ===== *)
(** * Draining the queue

    Messages received ahead of their turn wait in a queue under their numbers.
    [nextQueued] and the handlers call each other to take them out; here is shown
    that this ends, within fuel for one call per queued message, and that nothing
    is left at the number expected next. The store and the application may do
    anything. *)
From S2P Require Import Prelude Convertors Values DateTime TimeConvertors TimeRange MessageSorters OrdMap Field FieldMap.
From S2P Require Import DictData Message DictValidate Layout SessionID MessageStore SessionState Provider Session SessionLogic.

(** A queue is a map of messages by the number they carry. *)
Definition keyed (p : Z * Message) : Prop := number_of (snd p) = Ok (fst p).
Definition queue_ok (q : list (Z * Message)) : Prop := ordered q /\ Forall keyed q.

Lemma queue_ok_nil : queue_ok [].
Proof. split; [apply ordered_nil | constructor]. Qed.

Lemma queue_ok_set n m q : number_of m = Ok n -> queue_ok q -> queue_ok (map_set n m q) /\ (length (map_set n m q) <= S (length q))%nat.
Proof.
  intros Hm [Ho Hk]. split; [split; [by apply ordered_set|]|].
  - clear Ho. induction Hk as [|[k x] q Hx Hq IH]; cbn; [by repeat constructor|]. repeat case_bool; by repeat constructor.
  - clear Ho Hk. induction q as [|[k x] q IH]; cbn; [done|]. repeat case_bool; cbn; lia.
Qed.

Lemma queue_ok_erase n q : queue_ok q -> queue_ok (map_erase n q).
Proof.
  intros [Ho Hk]. split; [by apply ordered_erase|]. clear Ho. induction Hk as [|[k x] q Hx Hq IH]; cbn; [constructor|].
  case_bool; [done | by constructor].
Qed.

Lemma queue_ok_drop n q : queue_ok q -> queue_ok (drop_below n q) /\ (length (drop_below n q) <= length q)%nat.
Proof.
  intros [Ho Hk]. destruct (drop_below_suffix n q) as [pre E]. split; [split; [by apply drop_below_ordered|]|].
  - rewrite E in Hk. by apply Forall_app in Hk as [_ Hk].
  - rewrite E at 2. rewrite length_app. lia.
Qed.

Lemma queue_ok_lookup n q m : queue_ok q -> map_lookup n q = Some m -> number_of m = Ok n.
Proof.
  intros [_ Hk]. induction Hk as [|[k x] q Hx Hq IH]; cbn; [done|]. case_bool; [|done]. intros [= <-]. by subst.
Qed.

(** ** Two programs that do the same *)

Section Same.
Context {S A : Type}.
Implicit Types (P Q R : World S A -> Prop).

(** From [P], [m1] and [m2] agree and end in [Q]. *)
Definition same {X} P (m1 m2 : M S A X) Q : Prop := forall w, P w -> m1 w = m2 w /\ Q (fst (m1 w)).

Lemma same_keeps {X} P post (m : M S A X) : keeps P post m -> same P m m P.
Proof. intros Hm w Hw. split; [done|]. by apply Hm. Qed.

Lemma same_bind {X Y} P Q R (m1 m2 : M S A X) (f1 f2 : X -> M S A Y) :
  same P m1 m2 Q -> (forall x, same Q (f1 x) (f2 x) R) -> (forall w, Q w -> R w) -> same P (x ← m1; f1 x) (x ← m2; f2 x) R.
Proof.
  intros Hm Hf HR w Hw. unfold mbind, M_bind. destruct (Hm w Hw) as [<- HQ]. destruct (m1 w) as [w' [x|e]]; [by apply Hf|].
  split; [done|]. by apply HR.
Qed.

(** A step that both make. *)
Lemma same_step {X Y} P R (m : M S A X) (f1 f2 : X -> M S A Y) :
  keeps P any m -> (forall x, same P (f1 x) (f2 x) R) -> (forall w, P w -> R w) -> same P (x ← m; f1 x) (x ← m; f2 x) R.
Proof. intros Hm Hf HR. apply (same_bind _ P); [by eapply same_keeps | done | done]. Qed.

Lemma same_lift {X Y} P R (r : result X) (f1 f2 : X -> M S A Y) :
  (forall x, r = Ok x -> same P (f1 x) (f2 x) R) -> (forall w, P w -> R w) -> same P (x ← lift r; f1 x) (x ← lift r; f2 x) R.
Proof.
  intros Hf HR w Hw. unfold mbind, M_bind, lift. destruct r as [x|e]; [by apply Hf|]. split; [done|]. by apply HR.
Qed.

Lemma same_weaken {X} P P' Q Q' (m1 m2 : M S A X) :
  same P m1 m2 Q -> (forall w, P' w -> P w) -> (forall w, Q w -> Q' w) -> same P' m1 m2 Q'.
Proof. intros Hm HP HQ w Hw. destruct (Hm w (HP w Hw)). auto. Qed.

Lemma same_spec {X} P Q (m : M S A X) : spec P m (fun _ => Q) Q -> same P m m Q.
Proof. intros Hm w Hw. specialize (Hm w Hw). split; [done|]. by destruct (snd (m w)). Qed.

Lemma same_try {X} P Q (m1 m2 : M S A X) handler :
  same P m1 m2 Q -> (forall e h, handler e = Some h -> keeps Q any h) -> same P (try_catch m1 handler) (try_catch m2 handler) Q.
Proof.
  intros Hm Hh w Hw. destruct (Hm w Hw) as [E HQ]. unfold try_catch. rewrite <- E. destruct (m1 w) as [w' [x|e]]; [done|].
  cbn in HQ. destruct (handler e) as [h|] eqn:Eh; [|done]. split; [done|]. by apply (Hh e h Eh).
Qed.
End Same.

(** Both branch on the same test. *)
Ltac same_if := match goal with |- same _ (if ?b then _ else _) _ _ => destruct b eqn:? end.

(** ** Worlds with a queue of at most [n] messages *)

Section Bounded.
Context {S A : Type} `{MessageStore S} `{Env A}.

Definition bounded (n : nat) (w : World S A) : Prop := queue_ok (m_queue (w_state w)) /\ (length (m_queue (w_state w)) <= n)%nat.

Lemma bounded_weaken n n' w : (n <= n')%nat -> bounded n w -> bounded n' w.
Proof. intros Hn [Hq Hl]. split; [done|]. lia. Qed.

#[export] Instance bounded_quiet n : Quiet (bounded n).
Proof.
  split; unfold bounded.
  - intros w w' _ _ [->| ->]; [done|]. intros _. split; [split; [apply ordered_nil | constructor] | cbn; lia].
  - intros a w w' _ _ -> Hw. done.
Qed.

(** A call of the store leaves the queue, or clears it. *)
Lemma keeps_store_call {X} n a (f : SessionState S -> SessionState S * result X) :
  (forall s, m_queue (fst (f s)) = m_queue s \/ m_queue (fst (f s)) = []) -> keeps (bounded n) any (store_call a f).
Proof.
  intros Hf w [Hq Hl]. split; [|done]. unfold store_call, bounded. specialize (Hf (w_state w)).
  destruct (f (w_state w)) as [s r]. cbn in *. destruct Hf as [->| ->]; [done|].
  split; [split; [apply ordered_nil | constructor] | cbn; lia].
Qed.

Lemma keeps_reset_state_bounded n : keeps (bounded n) any reset_state.
Proof.
  unfold reset_state. keep_step. apply keeps_store_call. intros s. unfold state_reset.
  destruct (st_reset x (m_pStore s)) as [st []]; cbn; auto.
Qed.

Lemma keeps_set_bounded n k m : keeps (bounded n) any (store_call (Store_set k m) (state_set k m)).
Proof. apply keeps_store_call. intros s. unfold state_set. destruct (st_set k m (m_pStore s)). by left. Qed.

Lemma keeps_incrSender_bounded n : keeps (bounded n) any (store_call Store_incrNextSender state_incrNextSender).
Proof. apply keeps_store_call. intros s. unfold state_incrNextSender. destruct (st_incrNextSenderMsgSeqNum (m_pStore s)). by left. Qed.

Lemma keeps_setTarget_bounded n k : keeps (bounded n) any (store_call (Store_setNextTarget k) (state_setNextTarget k)).
Proof. apply keeps_store_call. intros s. unfold state_setNextTarget. destruct (st_setNextTargetMsgSeqNum k (m_pStore s)). by left. Qed.

Lemma keeps_persist_bounded n m text : keeps (bounded n) any (persist m text).
Proof.
  pose proof (keeps_set_bounded n). pose proof (keeps_incrSender_bounded n). unfold persist. keep.
Qed.

Lemma keeps_reset_for_logon_bounded n m : keeps (bounded n) any (reset_for_logon m).
Proof.
  pose proof (keeps_reset_state_bounded n). unfold reset_for_logon. keep_step. destruct (negb _); [by apply keeps_ret|].
  apply (keeps_bind _ any); [keep|]. intros flag _. apply (keeps_bind _ any); [|intros m' _; keep_step; by apply keeps_ret].
  destruct flag; [|by apply keeps_ret]. keep_step. keep_step. by apply keeps_ret.
Qed.

#[export] Instance bounded_frame n : Frame (bounded n).
Proof.
  pose proof (keeps_persist_bounded n). pose proof (keeps_reset_for_logon_bounded n). split.
  - apply _.
  - apply keeps_reset_state_bounded.
  - unfold refresh. keep_step. apply keeps_store_call. intros s. unfold state_refresh. destruct (st_refresh x (m_pStore s)). by left.
  - apply keeps_store_call. intros s. unfold state_incrNextTarget. destruct (st_incrNextTargetMsgSeqNum (m_pStore s)). by left.
  - intros m num admin _. unfold sendSequenced. apply keeps_try; [|intros [] ? [= <-]; keep].
    do 2 keep_step. apply (keeps_bind _ any); [keep|]. intros seq _. cbv zeta. destruct admin.
    + apply (keeps_bind _ any); [done|]. intros m' _. apply (keeps_bind _ any); [keep|]. intros [text m2] _. keep.
    + keep_step. apply (keeps_bind _ any); [keep|]. intros [] _; [by apply keeps_ret|].
      apply (keeps_bind _ any); [keep|]. intros [text m2] _. keep.
Qed.
End Bounded.

(** ** Receiving *)

Section Receive.
Context {S A : Type} `{MessageStore S} `{Env A} `{!Application_ok application} `{!Dictionary_ok sessionDD}.
Implicit Types n : nat.

(** Before a message is handled: it may still join the queue, or it comes out of
    the queue at its turn and cannot. *)
Definition incoming n (n' : nat) (m : Message) (w : World S A) : Prop :=
  bounded n w /\ (n' = Datatypes.S n \/ n' = n /\ type_of m <> MsgType_Logon /\ at_target m w).

#[export] Instance incoming_quiet n n' m : Quiet (incoming n n' m).
Proof.
  apply (quiet_and_store (bounded n) (fun s => n' = Datatypes.S n \/ n' = n /\ type_of m <> MsgType_Logon /\
    exists k, number_of m = Ok k /\ st_getNextTargetMsgSeqNum s = Ok k)).
Qed.

Lemma incoming_bounded n n' m w : incoming n n' m w -> bounded n' w.
Proof. intros [Hw [->|[-> _]]]; [|done]. eapply bounded_weaken; [|exact Hw]. lia. Qed.

Lemma bounded_incoming n n' m w : incoming n n' m w -> bounded n w.
Proof. by intros [Hw _]. Qed.
Hint Resolve incoming_bounded bounded_incoming : core.

Lemma bounded_S n (w : World S A) : bounded n w -> bounded (Datatypes.S n) w.
Proof. apply bounded_weaken. lia. Qed.
Hint Resolve bounded_S : core.

(** What keeps the first bound, where the second is enough. *)
Lemma spec_bounded {X} n n' m (p : M S A X) : keeps (bounded n) any p -> (n <= n')%nat ->
  spec (incoming n n' m) p (fun _ => bounded n') (bounded n').
Proof.
  intros Hp Hn. eapply spec_weaken; [by apply keeps_spec, Hp | by apply bounded_incoming | |].
  - intros x w [Hw _]. by eapply bounded_weaken.
  - intros w Hw. by eapply bounded_weaken.
Qed.

Lemma spec_queue n m k : number_of m = Ok k ->
  spec (S := S) (A := A) (bounded n) (put_state (queue k m)) (fun _ => bounded (Datatypes.S n)) (bounded (Datatypes.S n)).
Proof.
  intros Hk w [Hq Hl]. cbn. destruct (queue_ok_set k m _ Hk Hq) as [Hq' Hl']. split; [done|]. cbn. lia.
Qed.

Lemma number_of_lifts m f k :
  getFieldRef (m_header m) FIELD.MsgSeqNum = Ok f -> SeqNumField_valueOf f = Ok k -> number_of m = Ok k.
Proof. unfold number_of. by intros -> Hk. Qed.

Lemma spec_doTargetTooHigh n m :
  spec (bounded n) (doTargetTooHigh m) (fun _ => bounded (Datatypes.S n)) (bounded (Datatypes.S n)).
Proof.
  unfold doTargetTooHigh. apply spec_quiet; [keep | eauto |]. intros b.
  apply spec_lift_bind; [eauto|]. intros f Hf. apply spec_lift_bind; [eauto|]. intros k Hk.
  do 2 (apply spec_quiet; [keep | eauto |]; intros ?).
  eapply spec_bind; [apply spec_queue; by eapply number_of_lifts|]. intros [].
  eapply spec_weaken; [apply (proj1 (keeps_spec (bounded (Datatypes.S n)) any _)); keep | done | by intros ? w [] | done].
Qed.

(** Without the check for a gap nothing joins the queue. *)
Lemma keeps_low_checks n m b : keeps (bounded n) any (verify_checks m false b).
Proof.
  unfold verify_checks. cbv zeta. do 4 keep_step. apply (keeps_bind _ any); [keep|]. intros k _. keep_step.
  destruct (negb _); [keep|]. keep_step. destruct (negb _); [keep|]. destruct (negb _); [keep|].
  eapply keeps_bind; [by apply (keeps_ret _ (fun x => x = false))|]. intros ? ->. cbn. keep.
Qed.

Lemma spec_high_checks n n' m b : (n <= n')%nat ->
  spec (incoming n n' m) (verify_checks m true b) (fun _ => bounded n') (bounded n').
Proof.
  intros Hn. unfold verify_checks. cbv zeta. cbn [orb]. do 4 (apply spec_quiet; [keep | eauto |]; intros ?).
  apply (spec_bind _ (fun k w => number_of m = Ok k /\ incoming n n' m w)).
  { apply spec_lift_bind; [eauto|]. intros f Hf w Hw. unfold lift. cbn.
    destruct (SeqNumField_valueOf f) eqn:Hk; [|by eauto]. split; [by eapply number_of_lifts | done]. }
  intros k. apply (spec_assume (number_of m = Ok k)); [by intros w []|]. intros Hk.
  apply (spec_weaken (incoming n n' m) _ (fun _ => bounded n') _ (bounded n') _); [|by intros w [_ Hw] | done | done].
  apply spec_quiet; [keep | eauto |]. intros valid. destruct (negb valid).
  { apply spec_bounded; [keep | done]. }
  apply spec_quiet; [keep | eauto |]. intros good. destruct (negb good).
  { apply spec_bounded; [keep | done]. }
  destruct (negb _).
  { apply spec_bounded; [keep | done]. }
  eapply spec_bind; [apply (spec_tooHigh k (incoming n n' m)); eauto|]. intros [].
  - apply (spec_weaken (fun w => n' = Datatypes.S n /\ bounded n w) _ (fun _ => bounded n') _ (bounded n') _); [| | done | done].
    + apply (spec_assume (n' = Datatypes.S n)); [by intros w []|]. intros ->.
      apply (spec_weaken (bounded n) _ (fun _ => bounded (Datatypes.S n)) _ (bounded (Datatypes.S n)) _); [|by intros w [_ Hw] | done | done].
      eapply spec_bind; [apply spec_doTargetTooHigh|]. intros _ w Hw. exact Hw.
    + intros w ([Hw Hcase] & t & Ht & Hb). split; [|done]. destruct Hcase as [-> |(_ & _ & k' & Hk' & Ht')]; [done|].
      rewrite Hk in Hk'. injection Hk' as <-. rewrite Ht in Ht'. injection Ht' as ->.
      symmetry in Hb. apply Z.ltb_lt in Hb. lia.
  - eapply spec_weaken; [apply (proj1 (keeps_spec (bounded n) any _)); keep | by intros w ([Hw _] & _) | |].
    + intros ? w [Hw _]. by eapply bounded_weaken.
    + intros w Hw. by eapply bounded_weaken.
Qed.

Lemma keeps_call_bounded {X} n a (f : A -> A * X) : keeps (bounded n) any (@call S A X a f).
Proof. intros w Hw. unfold call. by destruct (f (w_app w)). Qed.
Hint Resolve keeps_call_bounded : session.

Lemma keeps_fromCallback n t m : keeps (bounded n) any (fromCallback t m).
Proof. unfold fromCallback, callback. keep. Qed.
Hint Resolve keeps_fromCallback : session.

Lemma keeps_accepted n m (ok : bool) :
  keeps (bounded n) any (if negb ok then mret false
                         else now ← timestamp; _ ← put_state (fun s => set_testRequest 0 (set_lastReceivedTime now s));
                              _ ← fromCallback (type_of m) m; mret true).
Proof. keep. Qed.

Lemma keeps_verify_low n m b : keeps (bounded n) any (verify m false b).
Proof.
  unfold verify. apply (keeps_bind _ any); [|intros ok _; apply keeps_accepted].
  apply keeps_try; [apply keeps_low_checks|]. intros e h Hh. destruct (is_exception e); [|done]. injection Hh as <-. keep.
Qed.

Lemma bounded_verify n n' m a b : (n <= n')%nat ->
  spec (incoming n n' m) (verify m a b) (fun _ => bounded n') (bounded n').
Proof.
  intros Hn. destruct a; [|by apply spec_bounded; [apply keeps_verify_low|]].
  unfold verify. apply (spec_bind _ (fun _ => bounded n')).
  - eapply spec_try; [by apply spec_high_checks | | done]. intros e h Hh. destruct (is_exception e); [|done].
    injection Hh as <-. eapply spec_weaken; [apply (proj1 (keeps_spec (bounded n') any _)); keep | done | by intros ? w [] | done].
  - intros ok. eapply spec_weaken; [apply (proj1 (keeps_spec _ any _)), keeps_accepted | done | by intros ? w [] | done].
Qed.

(** ** The handlers, with two ways of draining the queue that agree *)

Section Drains.
Context (n n' : nat) (Hn : (n <= n')%nat) (d1 d2 : M S A unit) (Hd : same (bounded n') d1 d2 (bounded n')).

Lemma same_incr_drain : same (bounded n') (_ ← incrNextTarget; d1) (_ ← incrNextTarget; d2) (bounded n').
Proof. apply same_step; [keep | by intros _ | done]. Qed.

Lemma same_verify {X} m a b (f1 f2 : bool -> M S A X) :
  (forall ok, same (bounded n') (f1 ok) (f2 ok) (bounded n')) ->
  same (incoming n n' m) (ok ← verify m a b; f1 ok) (ok ← verify m a b; f2 ok) (bounded n').
Proof. intros Hf. apply (same_bind _ (bounded n')); [by apply same_spec, bounded_verify | done | done]. Qed.

Lemma same_mret {X} (x : X) P : same P (mret x : M S A X) (mret x) P.
Proof. by intros w Hw. Qed.

Lemma same_nextHeartbeat m : same (incoming n n' m) (nextHeartbeat d1 m) (nextHeartbeat d2 m) (bounded n').
Proof. apply same_verify. intros []; [apply same_incr_drain | apply same_mret]. Qed.

Lemma same_nextTestRequest m : same (incoming n n' m) (nextTestRequest d1 m) (nextTestRequest d2 m) (bounded n').
Proof.
  apply same_verify. intros []; [|apply same_mret]. apply same_step; [keep | intros _; apply same_incr_drain | done].
Qed.

Lemma same_nextReject m : same (incoming n n' m) (nextReject d1 m) (nextReject d2 m) (bounded n').
Proof. apply same_verify. intros []; [apply same_incr_drain | apply same_mret]. Qed.

Lemma keeps_clearQueueUpTo k : keeps (bounded n') any (put_state (S := S) (A := A) (clearQueueUpTo k)).
Proof. intros w [Hq Hl]. split; [|done]. cbn. destruct (queue_ok_drop k _ Hq). split; [done|]. cbn. lia. Qed.

Lemma same_nextSequenceReset m : same (incoming n n' m) (nextSequenceReset d1 m) (nextSequenceReset d2 m) (bounded n').
Proof.
  pose proof (keeps_setTarget_bounded (S := S) (A := A) n'). pose proof keeps_clearQueueUpTo. unfold nextSequenceReset.
  apply same_step; [keep | | eauto]. intros fill. apply same_verify. intros []; [|apply same_mret]. cbn [negb].
  destruct (getFieldIfSet (m_body m) FIELD.NewSeqNo) as [f|]; [|apply same_mret].
  do 3 (apply same_step; [keep | | done]; intros ?). destruct (_ <? _).
  - do 2 (apply same_step; [keep | | done]; intros ?). exact Hd.
  - eapply same_keeps. keep.
Qed.

(** What does not drain. *)
Lemma same_spec_handler {X} m (p : M S A X) : spec (incoming n n' m) p (fun _ => bounded n') (bounded n') ->
  same (incoming n n' m) p p (bounded n').
Proof. apply same_spec. Qed.

Lemma spec_after_verify {X} m a b (f : bool -> M S A X) : (forall ok, keeps (bounded n') any (f ok)) ->
  spec (incoming n n' m) (ok ← verify m a b; f ok) (fun _ => bounded n') (bounded n').
Proof.
  intros Hf. eapply spec_bind; [by apply bounded_verify|]. intros ok.
  eapply spec_weaken; [apply (proj1 (keeps_spec _ any _)), Hf | done | by intros ? w [] | done].
Qed.

Lemma keeps_nextLogout_bounded k m : keeps (bounded k) any (nextLogout m).
Proof. pose proof (keeps_verify_low k m false). unfold nextLogout. keep. Qed.

Lemma spec_nextResendRequest m : spec (incoming n n' m) (nextResendRequest m) (fun _ => bounded n') (bounded n').
Proof. apply spec_after_verify. intros ok. keep. Qed.

Lemma spec_next_app m : spec (incoming n n' m) (next_app m) (fun _ => bounded n') (bounded n').
Proof. apply spec_after_verify. intros ok. keep. Qed.

(** A Logon that is ahead of its turn joins the queue. *)
Lemma spec_queue_logon m k : number_of m = Ok k ->
  spec (bounded n)
    (expected ← getExpectedTargetNum;
     _ ← onEvent (lit "Expecting retransmits FROM: " ++ SEQNUM_convert expected ++ lit " TO: " ++ SEQNUM_convert (u64 (k - 1)));
     put_state (fun s => set_resendRange (expected, u64 (k - 1)) (queue k m s)))
    (fun _ => bounded (Datatypes.S n)) (bounded (Datatypes.S n)).
Proof.
  intros Hk. do 2 (apply spec_quiet; [keep | eauto |]; intros ?).
  intros w [Hq Hl]. cbn. destruct (queue_ok_set k m _ Hk Hq) as [Hq' Hl']. split; [done|]. cbn. lia.
Qed.

Context (Hlogon : n' = Datatypes.S n).

Lemma bounded_after (w : World S A) : bounded n w -> bounded n' w.
Proof. intros Hw. by eapply bounded_weaken. Qed.
Hint Resolve bounded_after : core.

Lemma same_before {X} (p : M S A X) : keeps (bounded n) any p -> same (bounded n) p p (bounded n').
Proof. intros Hp. eapply same_weaken; [by eapply same_keeps | done | eauto]. Qed.

Lemma same_accept_logon m flag : same (bounded n) (accept_logon d1 m flag) (accept_logon d2 m flag) (bounded n').
Proof.
  unfold accept_logon. do 2 (apply same_step; [keep | | eauto]; intros ?).
  match goal with |- same _ (match ?o with Some _ => _ | None => _ end) _ _ => destruct o as [after|] end; [|by apply same_before, keeps_ret].
  do 3 (apply same_step; [keep | | eauto]; intros ?).
  apply same_lift; [|eauto]. intros f Hf. apply same_lift; [|eauto]. intros k Hk.
  apply same_step; [keep | | eauto]. intros high. apply (same_bind _ (bounded n')).
  - destruct (high && negb flag).
    + apply same_spec. rewrite Hlogon. destruct (m_sendNextExpectedMsgSeqNum config).
      * apply spec_queue_logon. by eapply number_of_lifts.
      * apply spec_doTargetTooHigh.
    + apply same_step; [keep | intros _ | eauto]. eapply same_weaken; [exact Hd | eauto | done].
  - intros []. eapply same_keeps. keep.
  - done.
Qed.

Lemma same_nextLogon m now : same (incoming n n' m) (nextLogon d1 m now) (nextLogon d2 m now) (bounded n').
Proof.
  pose proof (keeps_verify_low n m). eapply same_weaken; [|by intros w [Hw _]; exact Hw | done].
  unfold nextLogon. do 4 (apply same_step; [keep | | eauto]; intros ?).
  do 2 (same_if; [apply same_before; keep|]).
  do 3 (apply same_step; [keep | | eauto]; intros ?). same_if; [apply same_before; keep|].
  apply same_step; [keep | | eauto]. intros []; cbn [negb]; [|apply same_before; keep].
  do 3 (apply same_step; [keep | | eauto]; intros ?). same_if; [apply same_before; keep | apply same_accept_logon].
Qed.
End Drains.

Section Dispatch.
Context (n n' : nat) (Hn : (n <= n')%nat) (d1 d2 : M S A unit) (Hd : same (bounded n') d1 d2 (bounded n')).

Lemma same_then {X} P Q (p1 p2 : M S A unit) (x : X) : same P p1 p2 Q -> same P (_ ← p1; mret x) (_ ← p2; mret x) Q.
Proof. intros Hp. by apply (same_bind _ Q); [|intros [] w Hw|]. Qed.

Lemma same_dispatch m now : same (incoming n n' m) (dispatch d1 m now) (dispatch d2 m now) (bounded n').
Proof.
  unfold dispatch. cbv zeta. apply same_lift; [|by eauto using incoming_bounded]. intros t Ht%type_of_getField.
  do 3 (apply same_step; [keep | | by eauto using incoming_bounded]; intros ?).
  same_if; [eapply same_weaken; [by apply (same_keeps _ any), keeps_raise | done | by eauto using incoming_bounded]|].
  do 3 (apply same_step; [keep | | by eauto using incoming_bounded]; intros ?).
  destruct (str_eqb t MsgType_Logon) eqn:El.
  { apply str_eqb_eq in El. apply same_then. intros w [Hw Hcase].
    destruct Hcase as [->|(_ & Hne & _)]; [|by rewrite Ht, El in Hne]. refine (same_nextLogon n _ Hn d1 d2 Hd eq_refl m now w _). split; [done | by left]. }
  repeat same_if; try apply same_then.
  - by apply same_nextHeartbeat.
  - by apply same_nextTestRequest.
  - by apply same_nextSequenceReset.
  - apply same_spec, spec_bounded; [apply keeps_nextLogout_bounded | done].
  - by apply same_spec, spec_nextResendRequest.
  - by apply same_nextReject.
  - by apply same_spec, spec_next_app.
Qed.

Lemma bounded_on_exception k m e h : on_exception m e = Some h -> keeps (bounded k) any h.
Proof.
  pose proof (keeps_nextLogout_bounded k m).
  intros Hh. destruct e; cbn [on_exception] in Hh; try discriminate Hh; injection Hh as <-; keep.
Qed.

Lemma same_next_message m now queued :
  same (incoming n n' m) (next_message d1 m now queued) (next_message d2 m now queued) (bounded n').
Proof.
  unfold next_message. apply (same_bind _ (bounded n')); [| | done].
  - apply same_try.
    + apply same_step; [keep | | by eauto using incoming_bounded]. intros inTime.
      same_if; [|apply same_dispatch]. apply same_spec, spec_bounded; [keep | done].
    + intros e h Hh. destruct (on_exception m e) as [h'|] eqn:E; [|done]. injection Hh as <-.
      apply (bounded_on_exception n') in E. keep.
  - intros go. same_if; [apply same_mret|]. apply (same_bind _ (bounded n')); [| | done].
    + destruct queued; [apply same_mret | exact Hd].
    + intros []. eapply same_keeps. keep.
Qed.
End Dispatch.

(** ** The loop

    [nextQueued] with another program in place of running out of fuel. *)
Fixpoint nextQueued_or (base : M S A unit) (fuel : nat) (now : DateTime) : M S A unit :=
  match fuel with
  | O => base
  | Datatypes.S fuel =>
      num ← getExpectedTargetNum;
      more ← nextQueued_num (nextQueued_or base fuel now) num now;
      if more : bool then nextQueued_or base fuel now else mret ()
  end.

Lemma nextQueued_or_raise fuel now : nextQueued_or (raise OutOfFuel) fuel now = nextQueued fuel now.
Proof. induction fuel as [|fuel IH]; cbn [nextQueued nextQueued_or]; [done|]. by rewrite IH. Qed.

(** What is done with a message that comes out of the queue. *)
Definition process_queued (drain : M S A unit) (num : Z) (m : Message) (now : DateTime) : M S A bool :=
  _ ← onEvent (lit "Processing QUEUED message: " ++ SEQNUM_convert num);
  msgType ← lift (getField (m_header m) FIELD.MsgType);
  _ ← (if str_eqb msgType MsgType_Logon || str_eqb msgType MsgType_ResendRequest then incrNextTarget
       else next_message drain m now true);
  mret true.

Lemma same_process_queued n num m d1 d2 now :
  same (bounded n) d1 d2 (bounded n) ->
  same (fun w => bounded n w /\ at_target m w) (process_queued d1 num m now) (process_queued d2 num m now) (bounded n).
Proof.
  intros Hd. pose proof (quiet_and_store (bounded (S := S) (A := A) n) (fun s => exists k, number_of m = Ok k /\ st_getNextTargetMsgSeqNum s = Ok k)).
  apply same_step; [by apply keeps_onEvent | | by intros w []]. intros _. apply same_lift; [|by intros w []].
  intros t Ht%type_of_getField. apply same_then. destruct (str_eqb t MsgType_Logon) eqn:El; cbn [orb].
  { eapply same_weaken; [apply (same_keeps (bounded n) any); keep | by intros w [] | done]. }
  same_if.
  { eapply same_weaken; [apply (same_keeps (bounded n) any); keep | by intros w [] | done]. }
  eapply same_weaken; [by apply (same_next_message n n); [done | exact Hd] | | done].
  intros w [Hw Ha]. split; [done|]. right. split_and!; [done | | done]. intros E. rewrite Ht in E. subst t.
  unfold str_eqb in El. by rewrite bool_decide_eq_true_2 in El.
Qed.

Definition with_state (w : World S A) (s : SessionState S) : World S A :=
  mkWorld s (w_targetDefaultApplVerID w) (w_responder w) (w_app w) (w_ticks w) (w_history w).

Lemma nextQueued_num_eq d num now w :
  nextQueued_num d num now w =
    match map_lookup num (m_queue (w_state w)) with
    | Some m => process_queued d num m now (with_state w (set_queue (map_erase num (m_queue (w_state w))) (w_state w)))
    | None => (w, Ok false)
    end.
Proof. unfold nextQueued_num, read, gets, mbind, M_bind, retrieve. by destruct (map_lookup num _). Qed.

Lemma bounded_taken n num m w :
  bounded n w -> map_lookup num (m_queue (w_state w)) = Some m -> state_getNextTarget (w_state w) = Ok num ->
  let w' := with_state w (set_queue (map_erase num (m_queue (w_state w))) (w_state w)) in
  exists k, n = Datatypes.S k /\ bounded k w' /\ at_target m w'.
Proof.
  intros [Hq Hl] Hm Ht. cbv zeta. pose proof (erase_length num (m_queue (w_state w))) as Hlen. rewrite Hm in Hlen.
  specialize (Hlen ltac:(done)). destruct n as [|k]; [lia|]. exists k. split_and!; [done | | ].
  - split; [by apply queue_ok_erase | cbn; lia].
  - exists num. split; [by apply (queue_ok_lookup _ (m_queue (w_state w))) | done].
Qed.

(** Fuel above the length of the queue is never used up. *)
Lemma same_nextQueued n fuel1 fuel2 base1 base2 now : (n < fuel1)%nat -> (n < fuel2)%nat ->
  same (bounded n) (nextQueued_or base1 fuel1 now) (nextQueued_or base2 fuel2 now) (bounded n).
Proof.
  revert fuel1 fuel2. induction n as [n IH] using lt_wf_ind. intros [|fuel1] [|fuel2] H1 H2; [lia..|].
  cbn [nextQueued_or]. intros w Hw. unfold getExpectedTargetNum, read_result, mbind, M_bind.
  destruct (state_getNextTarget (w_state w)) as [num|] eqn:Et; [|done]. rewrite !nextQueued_num_eq.
  destruct (map_lookup num (m_queue (w_state w))) as [m|] eqn:Em; [|done].
  destruct (bounded_taken _ _ _ _ Hw Em Et) as (k & -> & Hw'). cbv zeta in Hw'.
  assert (same (bounded k) (nextQueued_or base1 fuel1 now) (nextQueued_or base2 fuel2 now) (bounded k)) as Hd by (apply IH; lia).
  destruct (same_process_queued k num m _ _ now Hd _ Hw') as [E Hw2]. rewrite <- E.
  revert Hw2. generalize (process_queued (nextQueued_or base1 fuel1 now) num m now (with_state w (set_queue (map_erase num (m_queue (w_state w))) (w_state w)))).
  intros [w2 [[]|]] Hw2; cbn in *.
  - destruct (Hd w2 Hw2) as [E2 Hw3]. split; [done|]. by apply bounded_S.
  - split; [done|]. by apply bounded_S.
  - split; [done|]. by apply bounded_S.
Qed.

(** When the loop ends normally no message is left at the number expected next. *)
Lemma nextQueued_drains fuel now w w' t :
  nextQueued fuel now w = (w', Ok ()) -> state_getNextTarget (w_state w') = Ok t -> map_lookup t (m_queue (w_state w')) = None.
Proof.
  revert w. induction fuel as [|fuel IH]; intros w; cbn [nextQueued]; [done|].
  unfold getExpectedTargetNum, read_result, mbind, M_bind.
  destruct (state_getNextTarget (w_state w)) as [num|] eqn:Et; [|done]. rewrite nextQueued_num_eq.
  destruct (map_lookup num (m_queue (w_state w))) as [m|] eqn:Em.
  - unfold process_queued at 1. unfold mbind, M_bind.
    destruct (onEvent _ _) as [w1 []]; [|done]. destruct (lift _ w1) as [w2 [ty|]]; [|done].
    destruct (_ w2) as [w3 []]; [|done]. cbn. apply IH.
  - intros [= <-] Ht. rewrite Et in Ht. by injection Ht as <-.
Qed.
End Receive.
