(* ===== verification/SessionSequence.v ===== *)
(** * The sequence numbers of a session

    An abstract machine of the two counters and the stored messages says which
    calls a session may make to its store and its application, and in which order.
    Every operation of [Session.v] is a run of that machine: a message is stored
    under the number it is sent with, an application message is delivered only
    under the number expected next, and that number is used up at once when the
    application took it. *)
From S2P Require Import Prelude Convertors Values DateTime TimeConvertors TimeRange MessageSorters OrdMap Field FieldMap.
From S2P Require Import DictData Message DictValidate Layout SessionID MessageStore SessionState Provider Session SessionLogic.

(** ** The machine *)

(** The store's contents; an epoch, which a reset or a wrap of the target's counter
    ends; and whether a message was delivered whose number is to be used up. *)
Record Sequence := mkSequence { q_contents : Contents; q_epoch : nat; q_due : bool }.

Definition with_messages (c : Contents) (m : gmap Z str) : Contents := mkContents m (c_sender c) (c_target c) (c_creation c).
Definition with_sender (c : Contents) (n : Z) : Contents := mkContents (c_messages c) n (c_target c) (c_creation c).
Definition with_target (c : Contents) (n : Z) : Contents := mkContents (c_messages c) (c_sender c) n (c_creation c).

(** The expected number is used up. *)
Definition advance (q : Sequence) : Sequence :=
  let c := q_contents q in
  let next := u64 (c_target c + 1) in
  mkSequence (with_target c next) (if next =? 0 then S (q_epoch q) else q_epoch q) false.

Definition seq_step (a : action) (q : Sequence) : option Sequence :=
  let c := q_contents q in
  if q_due q then match a with Store_incrNextTarget => Some (advance q) | _ => None end
  else
    match a with
    | Store_set n m => if n =? c_sender c then Some (mkSequence (with_messages c (<[n := m]> (c_messages c))) (q_epoch q) false) else None
    | Store_incrNextSender => Some (mkSequence (with_sender c (u64 (c_sender c + 1))) (q_epoch q) false)
    | Store_incrNextTarget => Some (advance q)
    | Store_setNextTarget n => if (c_target c <? n) && (n <? 2 ^ 64) then Some (mkSequence (with_target c n) (q_epoch q) false) else None
    | Store_reset now => Some (mkSequence (mkContents ∅ 1 1 now) (S (q_epoch q)) false)
    | Called_fromApp m n returned =>
        match number_of m with
        | Ok k => if (k =? n) && (n =? c_target c) then Some (mkSequence c (q_epoch q) returned) else None
        | Throw _ => None
        end
    | Store_setNextSender _ | Store_refresh => None
    | _ => Some q
    end.

(** A run, oldest action first. *)
Fixpoint seq_run (l : list action) (q : Sequence) : option Sequence :=
  match l with
  | [] => Some q
  | a :: l => q ← seq_step a q; seq_run l q
  end.

Lemma seq_run_app l l' q : seq_run (l ++ l') q = (q' ← seq_run l q; seq_run l' q').
Proof. revert q. induction l as [|a l IH]; intros q; simpl; [done|]. destruct (seq_step a q); simpl; [apply IH | done]. Qed.

Lemma seq_step_silent a q : silent a = true -> q_due q = false -> seq_step a q = Some q.
Proof. intros Ha Hd. unfold seq_step. rewrite Hd. by destruct a. Qed.

(** ** What is delivered *)

(** The deliveries that returned, as epoch and number. *)
Fixpoint delivered (l : list action) (q : Sequence) : list (nat * Z) :=
  match l with
  | [] => []
  | a :: l =>
      match seq_step a q with
      | None => []
      | Some q' =>
          match a with
          | Called_fromApp m n true => (q_epoch q, n) :: delivered l q'
          | _ => delivered l q'
          end
      end
  end.

Definition before (x y : nat * Z) : Prop := (fst x < fst y)%nat \/ (fst x = fst y /\ snd x < snd y).

(** The next number that may be delivered. *)
Definition front (q : Sequence) : nat * Z := (q_epoch q, c_target (q_contents q)).

Lemma before_trans x y z : before x y -> before y z -> before x z.
Proof. unfold before. lia. Qed.

Definition not_after (x y : nat * Z) : Prop := x = y \/ before x y.

Lemma not_after_before x y z : not_after x y -> before y z -> before x z.
Proof. intros [->|H] H'; [done | by eapply before_trans]. Qed.

Lemma not_after_trans x y z : not_after x y -> not_after y z -> not_after x z.
Proof. intros H [->|H']; [done|]. right. by eapply not_after_before. Qed.

Lemma advance_front q : seqnum (c_target (q_contents q)) -> before (front q) (front (advance q)).
Proof.
  unfold advance, front, before, seqnum. cbn [q_epoch q_contents c_target with_target fst snd]. intros Hr.
  destruct (Z.eqb_spec (u64 (c_target (q_contents q) + 1)) 0) as [E|E]; [lia|]. right. split; [done|].
  unfold u64, wrap_u in *. rewrite Z.mod_small; [lia|]. split; [lia|].
  destruct (decide (c_target (q_contents q) + 1 = 2 ^ 64)) as [Hw|]; [by rewrite Hw, Z_mod_same_full in E | lia].
Qed.

Definition target_ok (q : Sequence) : Prop := seqnum (c_target (q_contents q)).

Lemma seq_step_front a q q' :
  target_ok q -> seq_step a q = Some q' ->
  target_ok q' /\ not_after (front q) (front q') /\ (q_due q = true -> before (front q) (front q')).
Proof.
  intros Ht Hs. unfold seq_step in Hs. destruct (q_due q) eqn:Ed.
  - destruct a; try done. injection Hs as <-. pose proof (advance_front q Ht).
    split_and!; [apply seqnum_incr | by right | done].
  - assert (forall q1, front q1 = front q -> target_ok q1 /\ not_after (front q) (front q1) /\ (false = true -> before (front q) (front q1))) as Hsame.
    { intros q1 E. split_and!; [|by left | done]. unfold front in E. injection E as _ E. unfold target_ok. by rewrite E. }
    destruct a; try done; try (injection Hs as <-; by apply Hsame).
    + destruct (number_of message) as [k|]; [|done]. destruct (_ && _); [|done]. injection Hs as <-. by apply Hsame.
    + destruct (_ =? _); [|done]. injection Hs as <-. by apply Hsame.
    + destruct (Z.ltb_spec (c_target (q_contents q)) n); [|done]. destruct (Z.ltb_spec n (2 ^ 64)); [|done].
      injection Hs as <-. unfold target_ok, seqnum in *. cbn. split_and!; [lia | lia | | done].
      right. right. cbn. lia.
    + injection Hs as <-. pose proof (advance_front q Ht). split_and!; [apply seqnum_incr | by right | done].
    + injection Hs as <-. split_and!; [apply seqnum_one | | done]. right. left. cbn. lia.
Qed.

(** Deliveries lie ahead of the front, and each ahead of the earlier ones. *)
Lemma delivered_after l q :
  target_ok q ->
  StronglySorted before (delivered l q) /\
  Forall (fun x => if q_due q then before (front q) x else not_after (front q) x) (delivered l q).
Proof.
  revert q. induction l as [|a l IH]; intros q Ht; simpl; [by split; constructor|].
  destruct (seq_step a q) as [q'|] eqn:Es; [|by split; constructor].
  destruct (seq_step_front a q q' Ht Es) as (Ht' & Hf & Hd). destruct (IH q' Ht') as [Hs Hall].
  assert (Forall (fun x => if q_due q then before (front q) x else not_after (front q) x) (delivered l q')) as Hall'.
  { eapply Forall_impl; [exact Hall|]. intros x Hx. destruct (q_due q).
    - specialize (Hd eq_refl). destruct (q_due q'); [by eapply before_trans|]. destruct Hx as [<-|Hx]; [done|]. by eapply before_trans.
    - destruct (q_due q'); [|by eapply not_after_trans]. right. by eapply not_after_before. }
  destruct a as [| | | | | | | | | |m n []| | | | | | |]; try (by split).
  unfold seq_step in Es. destruct (q_due q) eqn:Ed; [done|]. destruct (number_of m) as [k|]; [|done].
  destruct (Z.eqb_spec k n) as [_|]; [|done]. destruct (Z.eqb_spec n (c_target (q_contents q))) as [E|]; [|done].
  injection Es as <-. assert ((q_epoch q, n) = front q) as -> by (unfold front; by rewrite E).
  split; [|constructor; [by left | done]]. by constructor.
Qed.

(** ** A world that a run of the machine leads to *)

Lemma in_range_seqnum n : in_range uint64_t n = true <-> seqnum n.
Proof. unfold in_range, VALUE_MIN, VALUE_MAX, seqnum. cbn. rewrite andb_true_iff, !Z.leb_le. lia. Qed.

Lemma valueOf_seqnum f n : SeqNumField_valueOf f = Ok n -> seqnum n.
Proof.
  unfold SeqNumField_valueOf, valueOf, IntT_of_string. destruct (IntT_convert uint64_t (getString f)) as [k|] eqn:E; [|done].
  intros [= ->]. rewrite IntT_convert_eq in E by apply engine_uint64. destruct (decimal_value _ _) as [v|]; [|done].
  destruct (in_range uint64_t v) eqn:Er; [|done]. injection E as ->. by apply in_range_seqnum.
Qed.

(** A number written in a field is read back. *)
Lemma valueOf_SeqNumField f n : seqnum n -> getString f = SEQNUM_convert n -> SeqNumField_valueOf f = Ok n.
Proof.
  intros Hn%in_range_seqnum E. unfold SeqNumField_valueOf, valueOf, IntT_of_string, SEQNUM_convert in *.
  by rewrite E, IntT_convert_eq, decimal_value_integer_chars, Hn by (done || apply engine_uint64).
Qed.

(** The calls the laws of the store speak of: a message it can hold, a time it can
    keep, no reload from what another program may have written, no number given by
    an operator. *)
Definition admissible {S} `{StoreLaws S} (a : action) : Prop :=
  match a with
  | Store_set _ m => st_storable m
  | Store_reset now => st_datable now
  | Store_refresh | Store_setNextSender _ => False
  | _ => True
  end.

Section Tracks.
Context {S A : Type} `{StoreLaws S}.
Implicit Types (w : World S A).
Implicit Type l : list action.

Definition store_of w : S := m_pStore (w_state w).

Definition start w : Sequence := mkSequence (st_contents (store_of w)) 0 false.

(** The history since [w0], of admissible calls, is a run that ends in the store's
    contents, with a delivery due or not. *)
Definition tracks (due : bool) (w0 w : World S A) : Prop :=
  exists l, w_history w = l ++ w_history w0 /\
    (Forall admissible l -> st_inv (store_of w) /\
       exists e, seq_run (reverse l) (start w0) = Some (mkSequence (st_contents (store_of w)) e due)).

Lemma tracks_refl w : st_inv (store_of w) -> tracks false w w.
Proof. intros Hi. exists []. split; [done|]. intros _. split; [done|]. by exists 0%nat. Qed.

(** One more action. *)
Lemma tracks_step due due' a w0 w w' :
  tracks due w0 w -> w_history w' = a :: w_history w ->
  (admissible a -> st_inv (store_of w) ->
     st_inv (store_of w') /\
     forall e, exists e', seq_step a (mkSequence (st_contents (store_of w)) e due) =
                    Some (mkSequence (st_contents (store_of w')) e' due')) ->
  tracks due' w0 w'.
Proof.
  intros (l & Hl & Hrun) Hh Hstep. exists (a :: l). split; [by rewrite Hh, Hl|].
  intros [Ha Hadm]%Forall_cons. destruct (Hrun Hadm) as (Hi & e & He). destruct (Hstep Ha Hi) as (Hi' & Hstep').
  split; [done|]. destruct (Hstep' e) as [e' He']. exists e'.
  by rewrite reverse_cons, seq_run_app, He; simpl; rewrite He'.
Qed.

Lemma tracks_ext due w0 w w' :
  w_history w' = w_history w -> m_pStore (w_state w') = m_pStore (w_state w) -> tracks due w0 w -> tracks due w0 w'.
Proof. unfold tracks, store_of. by intros -> ->. Qed.

#[export] Instance tracks_quiet w0 : Quiet (tracks false w0).
Proof.
  split.
  - intros w w' Hh Hs _. by apply tracks_ext.
  - intros a w w' Ha Hh Hs Hw. apply (tracks_step _ _ _ _ _ _ Hw Hh). unfold store_of. rewrite Hs.
    intros _ Hi. split; [done|]. intros e. exists e. by apply seq_step_silent.
Qed.

(** A call of the store that the machine follows, when the store's law for it holds. *)
Lemma tracks_store_call {X} due due' w0 a (f : SessionState S -> SessionState S * result X) :
  (forall s, admissible a -> st_inv (m_pStore s) ->
     exists s' r, f s = (s', r) /\ st_inv (m_pStore s') /\
     forall e, exists e', seq_step a (mkSequence (st_contents (m_pStore s)) e due) =
                    Some (mkSequence (st_contents (m_pStore s')) e' due')) ->
  forall w, tracks due w0 w -> tracks due' w0 (fst (@store_call S A X a f w)).
Proof.
  intros Hf w Hw. unfold store_call. destruct (f (w_state w)) as [s' r] eqn:E. cbn.
  eapply (tracks_step _ _ _ _ _ _ Hw); [reflexivity|]. intros Ha Hi.
  destruct (Hf (w_state w) Ha Hi) as (s1 & r1 & E1 & Hi1 & Hstep). rewrite E in E1. injection E1 as <- <-. done.
Qed.

Lemma tracks_incrTarget due w0 w : tracks due w0 w -> tracks false w0 (fst (@store_call S A _ Store_incrNextTarget state_incrNextTarget w)).
Proof.
  revert w. apply tracks_store_call. intros s _ Hi. unfold state_incrNextTarget.
  destruct (st_incrTarget_spec _ Hi) as (s' & -> & Hi' & Hc). eexists _, _. split_and!; [done | done |].
  intros e. cbn. rewrite Hc. by destruct due; eexists.
Qed.

Lemma tracks_incrSender w0 w : tracks false w0 w -> tracks false w0 (fst (@store_call S A _ Store_incrNextSender state_incrNextSender w)).
Proof.
  revert w. apply tracks_store_call. intros s _ Hi. unfold state_incrNextSender.
  destruct (st_incrSender_spec _ Hi) as (s' & -> & Hi' & Hc). eexists _, _. split_and!; [done | done |].
  intros e. cbn. rewrite Hc. by eexists.
Qed.

Lemma tracks_reset now w0 w : tracks false w0 w -> tracks false w0 (fst (@store_call S A _ (Store_reset now) (state_reset now) w)).
Proof.
  revert w. apply tracks_store_call. intros s Ha Hi. unfold state_reset.
  destruct (st_reset_spec _ _ Hi Ha) as (s' & -> & Hi' & Hc). eexists _, _. split_and!; [done | done |].
  intros e. cbn. rewrite Hc. by eexists.
Qed.

Lemma tracks_refresh clock w0 w : tracks false w0 w -> tracks false w0 (fst (@store_call S A _ Store_refresh (state_refresh clock) w)).
Proof. revert w. apply tracks_store_call. intros s Ha. done. Qed.

Lemma tracks_setTarget n w0 w :
  seqnum n -> (forall t, state_getNextTarget (w_state w) = Ok t -> t < n) -> tracks false w0 w ->
  tracks false w0 (fst (@store_call S A _ (Store_setNextTarget n) (state_setNextTarget n) w)).
Proof.
  intros Hn Ht Hw. unfold store_call. destruct (state_setNextTarget n (w_state w)) as [s' r] eqn:E. cbn.
  eapply (tracks_step _ _ _ _ _ _ Hw); [reflexivity|]. intros _ Hi. unfold state_setNextTarget in E. unfold store_of in *.
  destruct (st_setTarget_spec n _ Hi Hn) as (s1 & E1 & Hi1 & Hc). rewrite E1 in E. injection E as <- <-.
  cbn [w_state m_pStore set_store]. split; [done|]. intros e. exists e. rewrite Hc. unfold seq_step. cbn [q_due q_contents q_epoch].
  rewrite (proj2 (Z.ltb_lt _ _)) by (apply Ht; unfold state_getNextTarget; by rewrite st_target_spec).
  by rewrite (proj2 (Z.ltb_lt _ _)) by apply Hn.
Qed.

(** The sender's number and its message. *)
Lemma tracks_set n m w0 w :
  (st_inv (store_of w) -> state_getNextSender (w_state w) = Ok n) -> tracks false w0 w ->
  tracks false w0 (fst (@store_call S A _ (Store_set n m) (state_set n m) w)).
Proof.
  intros Hn Hw. unfold store_call. destruct (state_set n m (w_state w)) as [s' r] eqn:E. cbn.
  eapply (tracks_step _ _ _ _ _ _ Hw); [reflexivity|]. intros Ha Hi. unfold state_set in E. unfold store_of in *.
  specialize (Hn Hi). unfold state_getNextSender in Hn. rewrite st_sender_spec in Hn by done. injection Hn as <-.
  destruct (st_set_spec (c_sender (st_contents (m_pStore (w_state w)))) m _ Hi) as (s1 & E1 & Hi1 & Hc);
    [by apply st_numbers | done |].
  rewrite E1 in E. injection E as <- <-. cbn [w_state m_pStore set_store]. split; [done|]. intros e. exists e.
  rewrite Hc. unfold seq_step. cbn [q_due q_contents q_epoch]. by rewrite Z.eqb_refl.
Qed.
End Tracks.

(** ** Sending *)

Section Send.
Context {S A : Type} `{StoreLaws S} `{Env A}.
Context (w0 : World S A).
Abbreviation T := (tracks false w0).

(** The message carries the sender's next number. *)
Definition numbered (m : Message) (w : World S A) : Prop :=
  header_ok m /\ exists n, header_text FIELD.MsgSeqNum m = Some (SEQNUM_convert n) /\ state_getNextSender (w_state w) = Ok n.

Lemma header_text_set t v m : header_ok m -> tag t -> header_text t (in_header m (fun h => setField h (Field t v))) = Some v.
Proof. intros Hm Ht. unfold header_text. cbn [m_header in_header with_header]. by rewrite laid_out_get_set, Z.eqb_refl. Qed.

Lemma header_ok_set t v m : header_ok m -> tag t -> header_ok (in_header m (fun h => setField h (Field t v))).
Proof. intros Hm Ht. by apply laid_out_setField. Qed.

Lemma keeps_reset_state_tracks : keeps T any reset_state.
Proof.
  unfold reset_state. keep_step. intros w Hw. split; [|done]. by apply tracks_reset.
Qed.

Lemma keeps_refresh_tracks : keeps T any refresh.
Proof. unfold refresh. keep_step. intros w Hw. split; [|done]. by apply tracks_refresh. Qed.

Lemma keeps_incr_tracks : keeps T any incrNextTarget.
Proof. intros w Hw. split; [|done]. by apply (tracks_incrTarget false). Qed.

Lemma spec_persist m text : spec (fun w => T w /\ numbered m w) (persist m text) (fun _ => T) T.
Proof.
  unfold persist. intros w [Hw (Hm & n & Htext & Hn)].
  unfold header_text in Htext. unfold mbind, M_bind, lift, getFieldRef.
  destruct (getFieldIfSet (m_header m) FIELD.MsgSeqNum) as [f|]; [|done]. injection Htext as Hf. cbn [of_option].
  assert (forall w', T w' -> match snd (store_call Store_incrNextSender state_incrNextSender w') with
            | Ok _ => T (fst (store_call Store_incrNextSender state_incrNextSender w'))
            | Throw _ => T (fst (store_call Store_incrNextSender state_incrNextSender w')) end) as Hincr.
  { intros w' Hw'. apply tracks_incrSender in Hw'. by destruct (snd _). }
  destruct (m_persistMessages config); [|by apply Hincr].
  destruct (SeqNumField_valueOf f) as [num|e] eqn:Ev; [|done].
  pose proof (tracks_set num text w0 w) as Hset.
  destruct (store_call (Store_set num text) (state_set num text) w) as [w' r]. cbn in Hset.
  assert (T w') as Hw'.
  { apply Hset; [|done]. intros Hi. rewrite Hn. f_equal. unfold state_getNextSender in Hn.
    rewrite st_sender_spec in Hn by done. injection Hn as <-.
    rewrite (valueOf_SeqNumField f (c_sender (st_contents (m_pStore (w_state w))))) in Ev; [by injection Ev | by apply st_numbers | done]. }
  destruct r; [|done]. by apply Hincr.
Qed.

#[export] Instance numbered_quiet m : Quiet (fun w => T w /\ numbered m w).
Proof.
  apply (quiet_and_store _ (fun s => header_ok m /\ exists n, header_text FIELD.MsgSeqNum m = Some (SEQNUM_convert n) /\
                                       st_getNextSenderMsgSeqNum s = Ok n)).
Qed.

Lemma spec_number m :
  header_ok m ->
  spec T (num ← getExpectedSenderNum; mret (in_header m (fun h => setField h (SeqNumField FIELD.MsgSeqNum num))))
    (fun m' w => T w /\ numbered m' w) T.
Proof.
  intros Hm. eapply spec_bind; [apply spec_read_result|]. intros n w [Hw Hn]. cbn. split; [done|].
  split; [by apply header_ok_set|]. exists n. split; [by apply header_text_set | done].
Qed.

Lemma spec_reset_for_logon m :
  spec (fun w => T w /\ numbered m w) (reset_for_logon m) (fun m' w => T w /\ numbered m' w) T.
Proof.
  unfold reset_for_logon. apply spec_quiet; [keep | by intros w [] |]. intros received.
  destruct (negb _).
  { intros w Hw. exact Hw. }
  apply spec_quiet; [keep | by intros w [] |]. intros flag.
  apply (spec_bind _ (fun m' w => T w /\ numbered m' w)).
  - destruct flag; [|intros w Hw; exact Hw].
    apply (spec_assume (header_ok m)); [by intros w (_ & Hm & _)|]. intros Hm.
    apply (spec_weaken T _ (fun m' w => T w /\ numbered m' w) _ T _); [|by intros w [] | done | done].
    apply spec_quiet; [apply keeps_reset_state_tracks | done |]. intros _. by apply spec_number.
  - intros m'. apply spec_quiet; [keep | by intros w [] |]. intros _ w Hw. exact Hw.
Qed.

Lemma keeps_reset_for_logon m : keeps T any (reset_for_logon m).
Proof. pose proof keeps_reset_state_tracks. unfold reset_for_logon. keep_step. destruct (negb _); [by apply keeps_ret|].
  apply (keeps_bind _ any); [keep|]. intros flag _. apply (keeps_bind _ any); [|intros m' _; keep_step; by apply keeps_ret].
  destruct flag; [|by apply keeps_ret]. keep_step. keep_step. by apply keeps_ret.
Qed.

Lemma numbered_toString m text m' w :
  toString_default m = Ok (text, m') -> numbered m w -> numbered m' w.
Proof.
  intros E (Hm & n & Ht & Hn). pose proof E as E'. unfold toString_default, toString in E. cbv zeta in E.
  apply result_bind_Ok in E as (sum & _ & E). injection E as _ <-. split.
  - by apply laid_out_setField.
  - exists n. split; [|done]. rewrite <- Ht. by apply (toString_default_header m text).
Qed.

(** What follows persisting only sends. *)
Lemma keeps_sendSequenced_num m num admin : num <> 0 -> keeps T any (sendSequenced m num admin).
Proof.
  intros Hn. pose proof keeps_reset_for_logon. unfold sendSequenced. rewrite (proj2 (Z.eqb_neq num 0)) by done. cbn [negb].
  apply keeps_try; [|intros [] ? [= <-]; keep].
  do 2 keep_step. eapply keeps_bind; [by apply (keeps_ret _ any)|]. intros seq _. cbv zeta. destruct admin.
  - apply (keeps_bind _ any); [done|]. intros m' _. apply (keeps_bind _ any); [keep|]. intros [text m2] _. keep.
  - keep_step. apply (keeps_bind _ any); [keep|]. intros [] _; [by apply keeps_ret|].
    apply (keeps_bind _ any); [keep|]. intros [text m2] _. keep.
Qed.

Lemma keeps_sendSequenced_next m admin : header_ok m -> keeps T any (sendSequenced m 0 admin).
Proof.
  intros Hm. unfold sendSequenced. cbn [Z.eqb negb].
  apply keeps_try; [|intros [] ? [= <-]; keep].
  do 2 keep_step. apply spec_to_keeps. eapply spec_bind; [apply spec_read_result|]. intros seq. cbv zeta.
  apply (spec_weaken (fun w => T w /\ numbered (in_header m (fun h => setField h (SeqNumField FIELD.MsgSeqNum seq))) w)
           _ (fun _ => T) _ T _); [| | done | done].
  2:{ intros w [Hw Hn]. split; [done|]. split; [by apply header_ok_set|]. exists seq. split; [by apply header_text_set | done]. }
  destruct admin.
  - eapply spec_bind; [apply spec_reset_for_logon|]. intros m1. eapply spec_bind; [apply spec_lift; by intros w []|].
    intros [text m2]. apply (spec_weaken (fun w => T w /\ numbered m2 w) _ (fun _ => T) _ T _); [| | done | done].
    2:{ intros w (E & Hw & Hn). split; [done|]. by eapply numbered_toString. }
    eapply spec_bind; [apply spec_persist|]. intros [].
    eapply spec_weaken; [apply (proj1 (keeps_spec T any _)); keep | done | by intros ? w [] | done].
  - apply spec_quiet; [keep | by intros w [] |]. intros on.
    apply spec_quiet; [keep | by intros w [] |]. intros [].
    { intros w [Hw _]. exact Hw. }
    eapply spec_bind; [apply spec_lift; by intros w []|].
    intros [text m2]. apply (spec_weaken (fun w => T w /\ numbered m2 w) _ (fun _ => T) _ T _); [| | done | done].
    2:{ intros w (E & Hw & Hn). split; [done|]. by eapply numbered_toString. }
    eapply spec_bind; [apply spec_persist|]. intros [].
    eapply spec_weaken; [apply (proj1 (keeps_spec T any _)); keep | done | by intros ? w [] | done].
Qed.

#[export] Instance tracks_frame : Frame T.
Proof.
  split.
  - apply _.
  - apply keeps_reset_state_tracks.
  - apply keeps_refresh_tracks.
  - apply keeps_incr_tracks.
  - intros m num admin Hm. destruct (decide (num = 0)) as [->|Hn]; [by apply keeps_sendSequenced_next, Hm|].
    by apply keeps_sendSequenced_num.
Qed.
End Send.

(** ** Receiving *)

Section Receive.
Context {S A : Type} `{StoreLaws S} `{Env A} `{!Application_ok application} `{!Dictionary_ok sessionDD}.
Context (w0 : World S A).
Abbreviation T := (tracks false w0).

Lemma keeps_put_store f : (forall s, m_pStore (f s) = m_pStore s) -> keeps T any (put_state f).
Proof. intros Hf w Hw. split; [|done]. by apply (tracks_ext _ _ w); cbn. Qed.
Hint Extern 2 (keeps (tracks _ _) _ (put_state _)) => (apply keeps_put_store; reflexivity) : session.

Lemma keeps_doTargetTooHigh m : keeps T any (doTargetTooHigh m).
Proof. unfold doTargetTooHigh. keep. Qed.
Hint Resolve keeps_doTargetTooHigh : session.

Lemma keeps_verify_checks m a b : keeps T any (verify_checks m a b).
Proof. unfold verify_checks. keep. Qed.
Hint Resolve keeps_verify_checks : session.

#[export] Instance at_target_quiet m : Quiet (fun w => T w /\ at_target m w).
Proof. apply (quiet_and_store _ (fun s => exists n, number_of m = Ok n /\ st_getNextTargetMsgSeqNum s = Ok n)). Qed.

(** The branches where the message is refused. *)
Lemma spec_refused (P' : World S A -> Prop) (m : M S A bool) msg :
  keeps T (fun ok => ok = false) m -> (forall w, P' w -> T w) ->
  spec P' m (fun ok w => T w /\ (ok = true -> at_target msg w)) T.
Proof.
  intros Hm HP. eapply spec_weaken; [by apply keeps_spec, Hm | done | | done]. by intros x w [Hw ->].
Qed.

Lemma spec_verify_checks m :
  spec T (verify_checks m true true) (fun ok w => T w /\ (ok = true -> at_target m w)) T.
Proof.
  unfold verify_checks. cbv zeta. cbn [orb].
  do 4 (apply spec_quiet; [keep | done |]; intros ?).
  apply (spec_bind _ (fun n w => number_of m = Ok n /\ T w)).
  { change (spec T (f ← lift (getFieldRef (m_header m) FIELD.MsgSeqNum); lift (SeqNumField_valueOf f))
              (fun n w => number_of m = Ok n /\ T w) T).
    unfold number_of. eapply spec_bind; [by apply spec_lift|]. intros f.
    eapply spec_weaken; [apply (spec_lift (fun w => getFieldRef (m_header m) FIELD.MsgSeqNum = Ok f /\ T w) T); by intros w [] | done | | done].
    intros n w (E & Ef & Hw). split; [|done]. by rewrite Ef. }
  intros n. apply (spec_assume (number_of m = Ok n)); [by intros w []|]. intros Hn.
  apply (spec_weaken T _ (fun ok w => T w /\ (ok = true -> at_target m w)) _ T _); [|by intros w [] | done | done].
  apply spec_quiet; [keep | done |]. intros valid. destruct (negb valid); [apply spec_raise|].
  apply spec_quiet; [keep | done |]. intros good.
  destruct (negb good); [apply spec_refused; [keep | done]|].
  destruct (negb _); [apply spec_refused; [keep | done]|].
  eapply spec_bind; [by apply (spec_tooHigh _ T)|]. intros [].
  { apply spec_refused; [keep | by intros w []]. }
  eapply spec_bind; [apply spec_tooLow; by intros w []|]. intros [].
  { apply spec_refused; [keep | by intros w [[] _]]. }
  apply (spec_weaken (fun w => T w /\ at_target m w) _ (fun ok w => T w /\ (ok = true -> at_target m w)) _ T _); [| | done | done].
  2:{ intros w [[Hw (t & Ht & Hhigh)] (t' & Ht' & Hlow)]. split; [done|]. exists n. split; [done|].
      rewrite Ht' in Ht. injection Ht as ->. symmetry in Hhigh, Hlow. apply Z.ltb_ge in Hhigh, Hlow. rewrite Ht'. f_equal. lia. }
  do 2 (apply spec_quiet; [keep | by intros w [] |]; intros ?).
  apply spec_quiet; [keep | by intros w [] |]. intros _ w [Hw Ha]. cbn. done.
Qed.

(** The delivery of an application message. *)
Lemma spec_fromApp t m :
  isAdminMsgType t = false ->
  spec (fun w => T w /\ at_target m w) (fromCallback t m) (fun _ => tracks true w0) T.
Proof.
  intros Ha w [Hw (n & Hn & Ht)]. unfold fromCallback. rewrite Ha. unfold mbind, M_bind, getExpectedTargetNum, read_result.
  rewrite Ht. unfold gets, callback, mbind, M_bind, call. destruct (fromApp application m (w_app w)) as [app r] eqn:E. cbn.
  assert (forall w', w_history w' = Called_fromApp m n (is_Ok r) :: w_history w -> w_state w' = w_state w ->
            tracks (is_Ok r) w0 w') as Hstep.
  { intros w' Hh Hs. apply (tracks_step _ _ _ _ _ _ Hw Hh). unfold store_of. rewrite Hs. intros _ Hi. split; [done|].
    intros e. exists e. unfold seq_step. cbn [q_due q_contents q_epoch]. rewrite Hn, Z.eqb_refl.
    unfold state_getNextTarget in Ht. rewrite st_target_spec in Ht by done. injection Ht as <-. by rewrite Z.eqb_refl. }
  destruct r; by apply Hstep.
Qed.

(** An administrative message changes nothing of the sequence when it is passed on. *)
Lemma keeps_fromAdmin t m : isAdminMsgType t = true -> keeps T any (fromCallback t m).
Proof. intros Ha. unfold fromCallback. rewrite Ha. keep. Qed.

Lemma keeps_checked m a b :
  keeps T any (try_catch (verify_checks m a b)
    (fun e => if is_exception e then Some (_ ← onEvent (exn_what e); _ ← disconnect; mret false) else None)).
Proof.
  apply keeps_try; [keep|]. intros e h Hh. destruct (is_exception e); [|done]. injection Hh as <-. keep.
Qed.

Lemma keeps_verify m a b : isAdminMsgType (type_of m) = true -> keeps T any (verify m a b).
Proof.
  intros Ha. pose proof (keeps_fromAdmin _ m Ha). unfold verify. apply (keeps_bind _ any); [apply keeps_checked|].
  intros ok _. keep.
Qed.

Lemma spec_verify m :
  isAdminMsgType (type_of m) = false ->
  spec T (verify m true true) (fun ok w => tracks ok w0 w) T.
Proof.
  intros Ha. unfold verify. apply (spec_bind _ (fun ok w => T w /\ (ok = true -> at_target m w))).
  - eapply spec_try; [apply spec_verify_checks | | done]. intros e h Hh. destruct (is_exception e); [|done].
    injection Hh as <-. apply spec_refused; [keep | done].
  - intros [].
    + cbn [negb]. apply (spec_weaken (fun w => T w /\ at_target m w) _ (fun ok w => tracks ok w0 w) _ T _);
        [| intros w [Hw Hx]; split; [done | by apply Hx] | done | done].
      do 2 (apply spec_quiet; [keep | by intros w [] |]; intros ?).
      eapply spec_bind; [by apply spec_fromApp|]. intros [] w Hw. exact Hw.
    + intros w [Hw _]. exact Hw.
Qed.

Lemma keeps_next_app m : keeps T any (next_app m).
Proof.
  unfold next_app. destruct (isAdminMsgType (type_of m)) eqn:Ha.
  - apply (keeps_bind _ any); [by apply keeps_verify|]. intros ok _. keep.
  - apply spec_to_keeps. eapply spec_bind; [by apply spec_verify|]. intros []; [|intros w Hw; exact Hw].
    intros w Hw. cbn. apply tracks_incrTarget in Hw. unfold incrNextTarget, mbind, M_bind.
    by destruct (store_call _ _ w) as [w' []].
Qed.

(** The handlers, whatever keeps the run going when they drain the queue. *)
Hint Resolve keeps_next_app : session.

Lemma keeps_nextLogout m : isAdminMsgType (type_of m) = true -> keeps T any (nextLogout m).
Proof. intros Ha. pose proof (keeps_verify m false false Ha). unfold nextLogout. keep. Qed.

Lemma keeps_nextResendRequest m : isAdminMsgType (type_of m) = true -> keeps T any (nextResendRequest m).
Proof. intros Ha. pose proof (keeps_verify m false false Ha). unfold nextResendRequest. keep. Qed.

Section Drain.
Context (drain : M S A unit) (Hdrain : keeps T any drain).

Lemma keeps_accept_logon m flag : keeps T any (accept_logon drain m flag).
Proof. unfold accept_logon. keep. Qed.

Lemma keeps_nextLogon m now : isAdminMsgType (type_of m) = true -> keeps T any (nextLogon drain m now).
Proof.
  intros Ha. pose proof (fun a b => keeps_verify m a b Ha). pose proof keeps_accept_logon. unfold nextLogon. keep.
Qed.

Lemma keeps_nextHeartbeat m : isAdminMsgType (type_of m) = true -> keeps T any (nextHeartbeat drain m).
Proof. intros Ha. pose proof (keeps_verify m true true Ha). unfold nextHeartbeat. keep. Qed.

Lemma keeps_nextTestRequest m : isAdminMsgType (type_of m) = true -> keeps T any (nextTestRequest drain m).
Proof. intros Ha. pose proof (keeps_verify m true true Ha). unfold nextTestRequest. keep. Qed.

Lemma keeps_nextReject m : isAdminMsgType (type_of m) = true -> keeps T any (nextReject drain m).
Proof. intros Ha. pose proof (keeps_verify m false true Ha). unfold nextReject. keep. Qed.

(** A SequenceReset only raises the target. *)
Lemma keeps_raise_target n {X} (f : unit -> M S A X) t :
  seqnum n -> t < n -> (forall x, keeps T any (f x)) ->
  spec (fun w => T w /\ state_getNextTarget (w_state w) = Ok t)
    (x ← store_call (Store_setNextTarget n) (state_setNextTarget n); f x) (fun _ => T) T.
Proof.
  intros Hn Ht Hf. apply (spec_bind _ (fun _ => T)).
  - intros w [Hw Hg]. assert (T (fst (store_call (Store_setNextTarget n) (state_setNextTarget n) w))) as Hw'.
    { apply tracks_setTarget; [done | | done]. intros t' Ht'. rewrite Hg in Ht'. by injection Ht' as <-. }
    by destruct (snd _).
  - intros x. eapply spec_weaken; [apply keeps_spec, Hf | done | by intros ? w [] | done].
Qed.

Lemma keeps_nextSequenceReset m : isAdminMsgType (type_of m) = true -> keeps T any (nextSequenceReset drain m).
Proof.
  intros Ha. pose proof (fun a b => keeps_verify m a b Ha). unfold nextSequenceReset.
  apply (keeps_bind _ any); [keep|]. intros fill _. keep_step. destruct (negb _); [keep|].
  destruct (getFieldIfSet (m_body m) FIELD.NewSeqNo) as [f|]; [|keep].
  apply spec_to_keeps. eapply spec_bind; [apply spec_read_result|]. intros t.
  eapply spec_bind; [apply spec_lift; by intros w []|]. intros n.
  apply (spec_assume (SeqNumField_valueOf f = Ok n)); [by intros w []|]. intros Hn%valueOf_seqnum.
  apply (spec_weaken (fun w => T w /\ state_getNextTarget (w_state w) = Ok t) _ (fun _ => T) _ T _); [|by intros w [_ ?] | done | done].
  pose proof (quiet_and_store T (fun s => st_getNextTargetMsgSeqNum s = Ok t)).
  apply spec_quiet; [by apply keeps_onEvent | by intros w [] |].
  intros []. destruct (Z.ltb_spec t n) as [Hlt|].
  - apply keeps_raise_target; [done | done |]. intros []. keep.
  - eapply spec_weaken; [apply (proj1 (keeps_spec T any _)); keep | by intros w [] | by intros ? w [] | done].
Qed.

Lemma keeps_dispatch m now : keeps T any (dispatch drain m now).
Proof.
  unfold dispatch. cbv zeta. eapply keeps_bind; [apply keeps_lift|]. intros t Ht%type_of_getField.
  do 3 keep_step. destruct (negb _); [keep|].
  apply (keeps_bind _ any); [keep|]. intros _ _. keep_step. apply (keeps_bind _ any); [keep|]. intros _ _.
  repeat match goal with
  | |- keeps _ _ (if str_eqb ?x ?y then _ else _) =>
      destruct (str_eqb x y) eqn:E;
        [apply str_eqb_eq in E; rewrite E in Ht; assert (isAdminMsgType (type_of m) = true) by (rewrite Ht; reflexivity);
         apply (keeps_bind _ any); [|intros; by apply (keeps_ret _ any)]|clear E]
  end.
  - by apply keeps_nextLogon.
  - by apply keeps_nextHeartbeat.
  - by apply keeps_nextTestRequest.
  - by apply keeps_nextSequenceReset.
  - by apply keeps_nextLogout.
  - by apply keeps_nextResendRequest.
  - by apply keeps_nextReject.
  - by apply keeps_next_app.
Qed.

Lemma keeps_on_exception m e h : on_exception m e = Some h -> keeps T any h.
Proof.
  intros Hh. destruct e; cbn [on_exception] in Hh; try discriminate Hh; injection Hh as <-; try solve [keep].
  eapply keeps_bind; [apply keeps_lift|]. intros t Ht%type_of_getField. destruct (str_eqb t MsgType_Logout) eqn:E; [|keep].
  apply str_eqb_eq in E. apply keeps_nextLogout. by rewrite Ht, E.
Qed.

Lemma keeps_next_message m now queued : keeps T any (next_message drain m now queued).
Proof.
  unfold next_message. apply (keeps_bind _ any).
  - apply keeps_try.
    + apply (keeps_bind _ any); [keep|]. intros inTime _. destruct (negb _); [keep | apply keeps_dispatch].
    + intros e h Hh. destruct (on_exception m e) as [h'|] eqn:E; [|done]. injection Hh as <-.
      apply keeps_on_exception in E. keep.
  - intros go _. keep.
Qed.

Lemma keeps_nextQueued_num n now : keeps T any (nextQueued_num drain n now).
Proof.
  pose proof keeps_next_message. unfold nextQueued_num. apply spec_to_keeps.
  eapply spec_bind; [apply spec_read|]. intros [[m s]|]; [|by intros w [Hw _]].
  eapply (spec_bind _ (fun _ => T)).
  - intros w [Hw E]. cbn. apply (tracks_ext _ _ w); [done | | done]. cbn. unfold retrieve in E.
    destruct (map_lookup n (m_queue (w_state w))); [|done]. cbn in E. by injection E as _ ->.
  - intros _. eapply spec_weaken; [apply (proj1 (keeps_spec T any _)); keep | done | by intros ? w [] | done].
Qed.
End Drain.

Lemma keeps_nextQueued fuel now : keeps T any (nextQueued fuel now).
Proof.
  induction fuel as [|fuel IH]; cbn [nextQueued]; [apply keeps_raise|].
  pose proof (keeps_nextQueued_num _ IH). keep.
Qed.

Lemma keeps_next m now : keeps T any (next m now).
Proof. intros w Hw. by apply (keeps_next_message _ (keeps_nextQueued _ _)). Qed.

Lemma keeps_next_string s now : keeps T any (next_string s now).
Proof. pose proof keeps_next. unfold next_string. keep. Qed.
End Receive.
