(* ===== verification/SessionRetransmit.v ===== *)
(** * What a session resends

    A ResendRequest is answered from the stored messages: application messages again,
    gap fills over the rest. Here: the answer covers every number asked for once, in
    order, when all of them are stored; and what goes wrong when the last are not. *)
From S2P Require Import Prelude Convertors Values DateTime TimeConvertors TimeRange MessageSorters OrdMap Field FieldMap.
From S2P Require Import DictData Message DictValidate Layout SessionID MessageStore SessionState Provider Session SessionLogic.
From S2P Require Import SessionExample SessionSequence.

(** The number a SequenceReset moves to. *)
Definition new_seq_no (m : Message) : result Z :=
  f ← getFieldRef (m_body m) FIELD.NewSeqNo; SeqNumField_valueOf f.

(** The number that comes after a retransmission that starts at [b]; [None] when a
    number is left out or comes twice. *)
Fixpoint covers (b : Z) (rs : list Retransmit) : option Z :=
  match rs with
  | [] => Some b
  | r :: rs =>
      if rt_gapFillSeqNum r =? 0 then
        match number_of (rt_message r) with Ok n => if n =? b then covers (b + 1) rs else None | Throw _ => None end
      else if rt_gapFillSeqNum r =? b then
        match new_seq_no (rt_message r) with Ok n => if b <? n then covers n rs else None | Throw _ => None end
      else None
  end.

Lemma covers_app b l l' : covers b (l ++ l') = (b' ← covers b l; covers b' l').
Proof.
  revert b. induction l as [|r l IH]; intros b; cbn [app covers]; [done|]. destruct (_ =? 0).
  - destruct (number_of _); [|done]. by destruct (_ =? b).
  - destruct (_ =? b); [|done]. destruct (new_seq_no _); [|done]. by destruct (b <? _).
Qed.

(** The callbacks leave the numbers of a message alone. *)
Class Transparent {A} (app : Application A) := {
  toAdmin_newSeqNo m a : snd (snd (toAdmin app m a)) = Ok () /\ new_seq_no (fst (snd (toAdmin app m a))) = new_seq_no m;
  toApp_number m a : number_of (fst (snd (toApp app m a))) = number_of m
}.

Lemma number_of_text m m' n :
  header_text FIELD.MsgSeqNum m' = header_text FIELD.MsgSeqNum m -> number_of m = Ok n -> number_of m' = Ok n.
Proof.
  unfold header_text, number_of, getFieldRef.
  destruct (getFieldIfSet (m_header m) _) as [f|], (getFieldIfSet (m_header m') _) as [f'|]; cbn; try done.
  intros [= E]. unfold SeqNumField_valueOf, valueOf. rewrite E. by destruct (IntT_of_string _ _) as [|[]].
Qed.

(** Every world. *)
Definition anywhere {S A} : World S A -> Prop := fun _ => True.

#[export] Instance anywhere_quiet {S A} : Quiet (@anywhere S A).
Proof. by split. Qed.

Section Retransmit.
Context {S A : Type} `{StoreLaws S} `{Env A} `{!Application_ok application} `{!Dictionary_ok sessionDD} `{!Transparent application}.
Abbreviation yields := (keeps (@anywhere S A)).

(** ** Gap fills *)

Lemma laid_out_newMessage t : isAdminMsgType t = true -> yields (fun m => laid_out (m_body m)) (newMessage t).
Proof.
  intros Ht. unfold newMessage. destruct (negb _).
  - apply keeps_ret. apply laid_out_new, built_mode.
  - do 2 keep_step. eapply keeps_bind.
    + rewrite Ht, orb_true_r. apply keeps_lift.
    + intros o Ho. apply keeps_ret. cbn. apply laid_out_new. exact (message_fields_ok t o Ho).
Qed.

Lemma fill_body m : yields (fun m' => m_body m' = m_body m) (fill m).
Proof. unfold fill. do 3 keep_step. apply (keeps_bind _ any); [|intros h _; by apply keeps_ret].
  unfold insertSendingTime. keep_step. apply (keeps_bind _ any); [keep|]. intros text _. by apply (keeps_ret _ any).
Qed.

Lemma new_seq_no_set body n f : laid_out body -> seqnum n -> getTag f = FIELD.GapFillFlag ->
  forall m, m_body m = setField (setField body (SeqNumField FIELD.NewSeqNo n)) f -> new_seq_no m = Ok n.
Proof.
  intros Hb Hn Hf m E. unfold new_seq_no, getFieldRef. rewrite E.
  assert (tag (getTag f)) as Ht by (by rewrite Hf).
  pose proof (laid_out_get_set (setField body (SeqNumField FIELD.NewSeqNo n)) f FIELD.NewSeqNo
                ltac:(by apply laid_out_setField) Ht ltac:(done)) as Hget.
  rewrite Hf, (laid_out_get_set body) in Hget by done.
  cbn in Hget. destruct (getFieldIfSet _ _) as [g|]; [|done]. cbn in Hget. injection Hget as Hg. cbn.
  by apply valueOf_SeqNumField.
Qed.

Lemma newSequenceReset_newSeqNo b e : seqnum e -> yields (fun m => new_seq_no m = Ok e) (newSequenceReset b e).
Proof.
  intros He. unfold newSequenceReset. eapply keeps_bind; [by apply laid_out_newMessage|]. intros m Hm. cbv zeta.
  eapply keeps_bind; [apply fill_body|]. intros m' Hm'. do 2 keep_step.
  apply (keeps_bind _ any).
  { unfold insertOrigSendingTime. apply (keeps_bind _ any); [keep|]. intros text _. by apply (keeps_ret _ any). }
  intros h _. apply keeps_ret. apply (new_seq_no_set (m_body m) e (BoolField FIELD.GapFillFlag true) Hm He eq_refl).
  unfold put_field, in_body. cbn [m_body with_body with_header]. rewrite Hm'. reflexivity.
Qed.

Lemma prepared_newSeqNo m num e : new_seq_no m = Ok e ->
  yields (fun o => exists m', o = Some m' /\ new_seq_no m' = Ok e) (prepareToSend m num true).
Proof.
  intros Hm. unfold prepareToSend. cbv zeta. apply (keeps_bind _ any).
  { unfold insertSendingTime. keep_step. apply (keeps_bind _ any); [keep|]. intros text _. by apply (keeps_ret _ any). }
  intros h _. intros w _. split; [done|]. unfold try_catch, call_to, call, mbind, M_bind.
  pose proof (toAdmin_newSeqNo (with_header m h) (w_app w)) as [Hok Hn].
  destruct (toAdmin application (with_header m h) (w_app w)) as [app [m' r]]. cbn in Hok, Hn. subst r. cbn.
  intros o [= <-]. exists m'. split; [done|]. rewrite Hn. exact Hm.
Qed.

Lemma addSequenceReset_covers b e rs start : seqnum e -> b <> 0 -> b < e -> covers start rs = Some b ->
  yields (fun rs' => covers start rs' = Some e) (addSequenceReset b e rs).
Proof.
  intros He Hb Hlt Hc. unfold addSequenceReset. eapply keeps_bind; [by apply newSequenceReset_newSeqNo|]. intros m Hm.
  eapply keeps_bind; [exact (prepared_newSeqNo m b e Hm)|]. intros o (m' & -> & Hm'). apply keeps_ret.
  rewrite covers_app, Hc. cbn [mbind option_bind covers rt_gapFillSeqNum rt_message].
  rewrite (proj2 (Z.eqb_neq b 0)), Z.eqb_refl, Hm', (proj2 (Z.ltb_lt b e)) by done. done.
Qed.

(** ** Resent messages *)

Lemma header_text_setField t h f m : laid_out h -> tag (getTag f) -> tag t -> t <> getTag f ->
  header_text t (with_header m (setField h f)) = header_text t (with_header m h).
Proof. intros Hh Hf Ht Hne. unfold header_text. cbn [m_header with_header]. rewrite laid_out_get_set by done. by rewrite (proj2 (Z.eqb_neq _ _)). Qed.

Lemma insertOrigSendingTime_number h now m n : laid_out h -> number_of (with_header m h) = Ok n ->
  yields (fun h' => laid_out h' /\ number_of (with_header m h') = Ok n) (insertOrigSendingTime h now).
Proof.
  intros Hh Hn. unfold insertOrigSendingTime. keep_step. apply keeps_ret. split; [by apply laid_out_setField|].
  eapply number_of_text; [|exact Hn]. by apply header_text_setField.
Qed.

Lemma insertSendingTime_number h m n : laid_out h -> number_of (with_header m h) = Ok n ->
  yields (fun h' => laid_out h' /\ number_of (with_header m h') = Ok n) (insertSendingTime h).
Proof.
  intros Hh Hn. unfold insertSendingTime. do 2 keep_step. apply keeps_ret. split; [by apply laid_out_setField|].
  eapply number_of_text; [|exact Hn]. by apply header_text_setField.
Qed.

Lemma resend_number m n : header_ok m -> number_of m = Ok n ->
  yields (fun o => match o with Some m' => number_of m' = Ok n | None => True end) (resend m).
Proof.
  intros Hm Hn. unfold resend. do 3 keep_step.
  eapply keeps_bind; [by apply (insertOrigSendingTime_number _ _ m n)|]. intros h [Hh Hhn].
  eapply keeps_bind; [apply (insertSendingTime_number _ m n)|].
  - by apply laid_out_setField.
  - eapply number_of_text; [|exact Hhn]. by apply header_text_setField.
  - intros h' [Hh' Hhn']. apply keeps_try; [|intros [] ? [= <-]; by apply keeps_ret].
    intros w _. split; [done|]. unfold call_to, call, mbind, M_bind.
    pose proof (toApp_number (with_header m h') (w_app w)) as Hnum.
    destruct (toApp application (with_header m h') (w_app w)) as [app [m' r]]. cbn in Hnum. cbn. destruct r; [|done].
    intros o [= <-]. by rewrite Hnum.
Qed.

(** A stored text that decodes to a message with the number. *)
Definition decodes (s : str) (n : Z) : Prop := exists m, decode_stored s = Ok m /\ header_ok m /\ number_of m = Ok n.

(** After the messages of [b .. k - 1]. *)
Definition resent_to (b k : Z) (r : resending) : Prop :=
  r_current r = k /\ b <= k /\ (k = b \/ r_msgSeqNum r = k - 1) /\
  (if r_begin r =? 0 then covers b (r_retransmits r) = Some k
   else b <= r_begin r < k /\ covers b (r_retransmits r) = Some (r_begin r)).

Lemma covers_resent b k rs m event : covers b rs = Some k -> number_of m = Ok k ->
  covers b (rs ++ [mkRetransmit m 0 event]) = Some (k + 1).
Proof.
  intros Hc Hn. rewrite covers_app, Hc. cbn [mbind option_bind covers rt_gapFillSeqNum rt_message]. by rewrite Hn, !Z.eqb_refl.
Qed.

Lemma u64_next k : 0 <= k < 2 ^ 64 - 1 -> u64 (k + 1) = k + 1.
Proof. intros Hk. unfold u64, wrap_u. apply Z.mod_small. lia. Qed.

Lemma resend_one_covers b k r s : 1 <= b -> k < 2 ^ 64 - 1 -> decodes s k -> resent_to b k r ->
  yields (resent_to b (k + 1)) (resend_one r s).
Proof.
  intros Hb Hk (m & Hm & Hok & Hn) (Hcur & Hbk & _ & Hcov). unfold resend_one. rewrite Hm.
  eapply keeps_bind; [apply keeps_lift|]. intros ? [= <-]. eapply keeps_bind; [apply keeps_lift|]. intros f Hf.
  keep_step. eapply keeps_bind; [apply keeps_lift|]. intros n Hv.
  assert (n = k) as ->. { unfold number_of in Hn. rewrite Hf in Hn. cbn in Hn. rewrite Hv in Hn. by injection Hn. }
  cbv zeta. rewrite Hcur, Z.eqb_refl, u64_next by lia. cbn [negb andb].
  assert (resent_to b (k + 1) (mkResending (r_retransmits r) k (if r_begin r =? 0 then k else r_begin r) (k + 1) false)) as Hskip.
  { split_and!; [done | lia | right; cbn; lia |]. cbn. destruct (Z.eqb_spec (r_begin r) 0).
    - rewrite (proj2 (Z.eqb_neq k 0)) by lia. split; [lia | done].
    - rewrite (proj2 (Z.eqb_neq _ 0)) by done. destruct Hcov. split; [lia | done]. }
  destruct (isAdminMsgType _); [by apply keeps_ret|].
  eapply keeps_bind; [by apply resend_number|]. intros [m'|] Hm'; [|by apply keeps_ret].
  eapply (keeps_bind _ (fun rs => covers b rs = Some k)).
  - destruct (Z.eqb_spec (r_begin r) 0); cbn [negb]; [by apply keeps_ret|]. destruct Hcov.
    apply addSequenceReset_covers; [unfold seqnum; lia | done | lia | done].
  - intros rs Hrs. apply keeps_ret. split_and!; [done | lia | right; cbn; lia |]. cbn. by apply covers_resent.
Qed.

Lemma resend_loop_covers b ss : 1 <= b -> forall k r,
  k + Z.of_nat (length ss) < 2 ^ 64 ->
  (forall i s, ss !! i = Some s -> decodes s (k + Z.of_nat i)) -> resent_to b k r ->
  yields (resent_to b (k + Z.of_nat (length ss))) (resend_loop r ss).
Proof.
  intros Hb. induction ss as [|s ss IH]; intros k r Hlen Hs Hr; cbn [resend_loop].
  - apply keeps_ret. cbn. by rewrite Z.add_0_r.
  - cbn [length] in Hlen. rewrite Nat2Z.inj_succ in Hlen. eapply keeps_bind.
    + apply (resend_one_covers b k); [done | lia | | done]. specialize (Hs 0%nat s eq_refl). by rewrite Z.add_0_r in Hs.
    + intros r' Hr'. cbn [length]. rewrite Nat2Z.inj_succ. replace (k + Z.succ (Z.of_nat (length ss))) with (k + 1 + Z.of_nat (length ss)) by lia.
      apply IH; [lia | | done]. intros i x Hx. specialize (Hs (Datatypes.S i) x Hx). rewrite Nat2Z.inj_succ in Hs.
      by replace (k + 1 + Z.of_nat i) with (k + Z.succ (Z.of_nat i)) by lia.
Qed.

Lemma plan_covers b ss w : 1 <= b -> ss <> [] -> b + Z.of_nat (length ss) < 2 ^ 64 ->
  (forall i s, ss !! i = Some s -> decodes s (b + Z.of_nat i)) ->
  state_get b (b + Z.of_nat (length ss) - 1) (w_state w) = Ok ss ->
  forall rs, snd (plan_retransmits b (b + Z.of_nat (length ss) - 1) w) = Ok rs -> covers b rs = Some (b + Z.of_nat (length ss)).
Proof.
  intros Hb Hne Hlen Hs Hget. unfold plan_retransmits, mbind, M_bind, read_result at 1. rewrite Hget.
  assert ((0 < length ss)%nat) as Hpos by (destruct ss; [done | cbn; lia]). revert w Hget.
  enough (yields (fun rs => covers b rs = Some (b + Z.of_nat (length ss)))
    (nextSenderMsgSeqNum ← getExpectedSenderNum;
     r ← resend_loop (mkResending [] 0 0 b false) ss;
     retransmits ← (if negb (r_begin r =? 0) then addSequenceReset (r_begin r) (u64 (r_msgSeqNum r + 1)) (r_retransmits r)
                    else mret (r_retransmits r));
     if r_msgSeqNum r <? b + Z.of_nat (length ss) - 1 then
       let endSeqNo := u64 (b + Z.of_nat (length ss) - 1 + 1) in
       let endSeqNo := if nextSenderMsgSeqNum <? endSeqNo then nextSenderMsgSeqNum else endSeqNo in
       let beginSeqNo := if r_appMessageJustSent r then u64 (r_msgSeqNum r + 1) else b in
       addSequenceReset beginSeqNo endSeqNo retransmits
     else mret retransmits)) as Hy.
  { intros w _. by apply Hy. }
  keep_step. eapply keeps_bind.
  - apply (resend_loop_covers b ss Hb b); [done | done |]. split_and!; [done | lia | by left | done].
  - intros r (Hcur & _ & Hlast & Hcov). destruct Hlast as [|Hlast]; [lia|].
    eapply (keeps_bind _ (fun rs => covers b rs = Some (b + Z.of_nat (length ss)))).
    + destruct (Z.eqb_spec (r_begin r) 0); cbn [negb]; [by apply keeps_ret|]. destruct Hcov.
      rewrite Hlast, u64_next by lia. replace (b + Z.of_nat (length ss) - 1 + 1) with (b + Z.of_nat (length ss)) by lia.
      apply addSequenceReset_covers; [unfold seqnum; lia | done | lia | done].
    + intros rs Hrs. rewrite Hlast, Z.ltb_irrefl. by apply keeps_ret.
Qed.
End Retransmit.

(** C4 A range of numbers asked for again, all of them stored, is answered over: in
    order, every number either goes with its message or lies under one gap fill,
    none is left out and none comes twice, whichever messages the application
    declines to send again. *)
Theorem resend_covers {S A} `{StoreLaws S} `{Env A} `{!Application_ok application} `{!Dictionary_ok sessionDD}
    `{!Transparent application} (b e : Z) (ss : list str) (w : World S A) rs :
  st_inv (store_of w) -> run_from (st_contents (store_of w)) b e ss -> 1 <= b <= e -> e < 2 ^ 64 - 1 ->
  Z.of_nat (length ss) = e - b + 1 -> (forall i s, ss !! i = Some s -> decodes s (b + Z.of_nat i)) ->
  snd (plan_retransmits b e w) = Ok rs -> covers b rs = Some (e + 1).
Proof.
  intros Hi Hrun Hb He Hlen Hs Hp. pose proof (plan_covers b ss w) as Hc.
  replace (b + Z.of_nat (length ss) - 1) with e in Hc by lia. replace (b + Z.of_nat (length ss)) with (e + 1) in Hc by lia.
  apply Hc; [lia | by intros -> ; cbn in Hlen; lia | lia | done | | done].
  apply (st_get_spec b e ss (store_of w)); [done | lia | lia | done].
Qed.

(** A text that decodes to a number, by evaluation. *)
Definition decodes_b `{Env A} (s : str) (n : Z) : bool :=
  match decode_stored s with
  | Ok m =>
      let h := m_header m in
      bool_decide (m_mode (m_order h) = header) && (m_delim (m_order h) =? 0) && bool_decide (m_groupOrder (m_order h) = []) &&
      (m_mask (m_order h) =? 0) && forallb (fun f => (0 <? getTag f) && (getTag f <? 2 ^ 31)) (m_fields h) &&
      is_sorted (m_order h) (m_fields h) && match number_of m with Ok k => k =? n | Throw _ => false end
  | Throw _ => false
  end.

Lemma decodes_b_correct `{Env A} s n : decodes_b s n = true -> decodes s n.
Proof.
  unfold decodes_b, decodes. destruct (decode_stored s) as [m|]; [|done]. cbv zeta. rewrite !andb_true_iff.
  intros ((((((Hm & Hd) & Hg) & Hk) & Ht) & Hs) & Hn). exists m. split; [done|].
  apply bool_decide_eq_true in Hm, Hg. apply Z.eqb_eq in Hd, Hk.
  assert (m_order (m_header m) = new_message_order header) as Eo.
  { destruct (m_order (m_header m)). cbn in *. by subst. }
  assert (built_order (m_order (m_header m))) as Hb by (rewrite Eo; constructor).
  assert (tags_ok (m_fields (m_header m))) as Htags.
  { apply Forall_forall. intros f Hf. rewrite forallb_forall in Ht. specialize (Ht f ltac:(by apply list_elem_of_In)).
    apply andb_true_iff in Ht as [H1 H2]. apply Z.ltb_lt in H1, H2. done. }
  split; [|destruct (number_of m); [by apply Z.eqb_eq in Hn as -> | done]].
  split_and!; [done | by apply is_sorted_sorted | done].
Qed.

#[export] Instance ex_transparent : Transparent (@application unit ex_env).
Proof. by split. Qed.

(** A Logon and two orders were sent. *)
Definition ex_sent : World MemoryStore unit :=
  let w := ex_start in
  let w := fst (next_timer ex_now w) in
  let w := fst (next_string ex_logon ex_now w) in
  let w := fst (send (ex_message "D" 0 []) w) in
  fst (send (ex_message "D" 0 []) w).

Definition ex_stored : list str := map snd (m_messages (m_pStore (w_state ex_sent))).

Fixpoint decodes_from `{Env A} (b : Z) (ss : list str) : bool :=
  match ss with [] => true | s :: ss => decodes_b s b && decodes_from (b + 1) ss end.

Lemma decodes_from_correct `{Env A} ss : forall b, decodes_from b ss = true ->
  forall i s, ss !! i = Some s -> decodes s (b + Z.of_nat i).
Proof.
  induction ss as [|x ss IH]; intros b; [done|]. cbn [decodes_from]. intros [Hx Hs]%andb_true_iff [|i] s.
  - intros [= <-]. rewrite Z.add_0_r. by apply decodes_b_correct.
  - cbn. intros Hi. specialize (IH _ Hs i s Hi). rewrite Nat2Z.inj_succ. by replace (b + Z.succ (Z.of_nat i)) with (b + 1 + Z.of_nat i) by lia.
Qed.

Lemma ex_sent_inv : st_inv (store_of ex_sent).
Proof.
  assert (keys (m_messages (store_of ex_sent)) = [1; 2; 3]) as E by (vm_compute; reflexivity).
  assert (m_nextSenderMsgSeqNum (store_of ex_sent) = 4) as Es by (vm_compute; reflexivity).
  assert (m_nextTargetMsgSeqNum (store_of ex_sent) = 2) as Et by (vm_compute; reflexivity).
  split_and!; [unfold ordered; rewrite E; by repeat constructor | rewrite Es; unfold seqnum; lia | rewrite Et; unfold seqnum; lia].
Qed.

Lemma ex_sent_run : run_from (st_contents (store_of ex_sent)) 1 3 ex_stored.
Proof.
  assert (length ex_stored = 3%nat) as El by (vm_compute; reflexivity). split; rewrite El; [|lia].
  intros [|[|[|i]]] Hi; [..|lia]; (split; [lia | vm_compute; reflexivity]).
Qed.

Lemma resend_covers_witness :
  exists rs, snd (plan_retransmits 1 3 ex_sent) = Ok rs /\ map rt_gapFillSeqNum rs = [1; 0; 0] /\ covers 1 rs = Some (3 + 1).
Proof.
  destruct (plan_retransmits 1 3 ex_sent) as [w' [rs|]] eqn:E; [|exfalso; vm_compute in E; discriminate].
  exists rs. split; [reflexivity|]. split; [vm_compute in E; injection E as _ <-; reflexivity|].
  apply (resend_covers 1 3 ex_stored ex_sent rs).
  - apply ex_sent_inv.
  - apply ex_sent_run.
  - lia.
  - lia.
  - vm_compute. reflexivity.
  - apply decodes_from_correct. vm_compute. reflexivity.
  - by rewrite E.
Defined.

(** When the last numbers of the range are not stored and the message before them is
    not sent again, the second gap fill starts where the first did, not where it
    ended: the numbers after it stay a gap. *)
Definition ex_hole : World MemoryStore unit := fst (setNextSenderMsgSeqNum 3 (fst (next_timer ex_now ex_start))).

Lemma trailing_gap_restarts :
  match snd (plan_retransmits 1 2 ex_hole) with
  | Ok rs => map (fun r => (rt_gapFillSeqNum r, new_seq_no (rt_message r))) rs = [(1, Ok 2); (1, Ok 3)] /\ covers 1 rs = None
  | Throw _ => False
  end.
Proof. vm_compute. by split. Qed.
