(* ===== verification/SessionProps.v ===== *)
(** * What a session does

    The theorems on the session as its callers use it: on any sequence of received
    messages, timer ticks, sends and settings. *)
From S2P Require Import Prelude Convertors Values DateTime TimeConvertors TimeRange MessageSorters OrdMap Field FieldMap.
From S2P Require Import DictData Message DictValidate Layout SessionID MessageStore SessionState Provider Session SessionLogic.
From S2P Require Import SessionExample SessionDrain SessionSequence.

(** What the connection, the clock and the application may do to a session. *)
Inductive event :=
| Received (msg : str) (now : DateTime)
| Received_message (message : Message) (now : DateTime)
| Timer (now : DateTime)
| Send (message : Message)
| SetResponder (pR : bool)
| Logon
| Logout (reason : str)
| Disconnect
| Reset.

Section Events.
Context {S A : Type} `{MessageStore S} `{Env A}.

Definition run_event (e : event) : M S A unit :=
  match e with
  | Received msg now => next_string msg now
  | Received_message message now => next message now
  | Timer now => next_timer now
  | Send message => _ ← send message; mret ()
  | SetResponder pR => setResponder pR
  | Logon => logon
  | Logout reason => logout reason
  | Disconnect => disconnect
  | Reset => reset
  end.

(** One after another; an exception ends its event. *)
Definition run_events (es : list event) (w : World S A) : World S A := fold_left (fun w e => fst (run_event e w)) es w.
End Events.

Definition event_ok (e : event) : Prop := match e with Send m => header_ok m | _ => True end.

(** The messages the application took. *)
Definition taken (l : list action) : list Message :=
  omap (fun a => match a with Called_fromApp m _ true => Some m | _ => None end) l.

Section Runs.
Context {S A : Type} `{StoreLaws S} `{Env A} `{!Application_ok application} `{!Dictionary_ok sessionDD}.

Lemma keeps_run_event w0 e : event_ok e -> keeps (@tracks S A _ _ false w0) any (run_event e).
Proof.
  intros He. destruct e; cbn [run_event event_ok] in *.
  - apply keeps_next_string.
  - apply keeps_next.
  - keep.
  - keep.
  - keep.
  - unfold Session.logon. keep.
  - unfold Session.logout. keep.
  - keep.
  - keep.
Qed.

Lemma tracks_run es w0 w : Forall event_ok es -> tracks false w0 w -> tracks false w0 (run_events es w).
Proof.
  intros He. revert w. induction He as [|e es He Hes IH]; intros w Hw; [done|]. cbn. apply IH. by apply keeps_run_event.
Qed.
End Runs.

(** ** The queue *)

Section Queue.
Context {S A : Type} `{MessageStore S} `{Env A} `{!Application_ok application} `{!Dictionary_ok sessionDD}.

Lemma same_next n fuel base m now : (Datatypes.S n < fuel)%nat ->
  forall w, bounded n w -> (length (m_queue (w_state w)) = n) ->
    next_message (nextQueued_or base fuel now) m now false w = next m now w /\ bounded (Datatypes.S n) (fst (next (S := S) (A := A) m now w)).
Proof.
  intros Hf w Hw Hl. unfold next, enough_fuel. rewrite Hl, <- nextQueued_or_raise.
  assert (same (bounded (Datatypes.S n)) (nextQueued_or (raise OutOfFuel) (Datatypes.S (Datatypes.S n)) now)
            (nextQueued_or base fuel now) (bounded (S := S) (A := A) (Datatypes.S n))) as Hd.
  { apply same_nextQueued; first [exact _ | lia]. }
  destruct (same_next_message n (Datatypes.S n) ltac:(lia) _ _ Hd m now false w) as [E Hb].
  - split; [done | by left].
  - split; [symmetry; exact E | exact Hb].
Qed.

Lemma bounded_next n m now w : bounded n w -> bounded (Datatypes.S n) (fst (next (S := S) (A := A) m now w)).
Proof.
  intros [Hq Hl]. destruct (same_next (length (m_queue (w_state w))) (Datatypes.S (Datatypes.S (length (m_queue (w_state w)))))
    (raise OutOfFuel) m now ltac:(lia) w) as [_ Hb]; [by split | done |]. eapply bounded_weaken; [|exact Hb]. lia.
Qed.

(** One event adds at most one message. *)
Lemma bounded_event n e w : event_ok e -> bounded n w -> bounded (S := S) (A := A) (Datatypes.S n) (fst (run_event e w)).
Proof.
  intros He Hw. assert (forall p : M S A unit, keeps (bounded n) any p -> bounded (Datatypes.S n) (fst (p w))) as Hk.
  { intros p Hp. apply bounded_S. by apply Hp. }
  destruct e; cbn [run_event event_ok] in *.
  - assert (spec (bounded n) (next_string msg now) (fun _ => bounded (S := S) (A := A) (Datatypes.S n)) (bounded (Datatypes.S n))) as Hs.
    { unfold next_string. apply (spec_try _ _ (bounded (Datatypes.S n))); [| |done].
      - apply spec_quiet; [keep | apply bounded_S |]. intros []. apply spec_lift_bind; [apply bounded_S|]. intros m _ w' Hw'.
        pose proof (bounded_next n m now w' Hw'). by destruct (snd _).
      - intros [] h [= <-]. eapply spec_weaken; [apply (proj1 (keeps_spec (bounded (Datatypes.S n)) any _)); keep | done | by intros ? w' [] | done]. }
    specialize (Hs w Hw). by destruct (snd _).
  - by apply bounded_next.
  - apply Hk. keep.
  - apply Hk. keep.
  - apply Hk. keep.
  - apply Hk. unfold Session.logon. keep.
  - apply Hk. unfold Session.logout. keep.
  - apply Hk. keep.
  - apply Hk. keep.
Qed.

Lemma bounded_run es n w : Forall event_ok es -> bounded n w -> bounded (S := S) (A := A) (n + length es) (run_events es w).
Proof.
  intros He. revert n w. induction He as [|e es He Hes IH]; intros n w Hw; [by rewrite Nat.add_0_r|].
  cbn. rewrite Nat.add_succ_r, <- Nat.add_succ_l. apply IH. by apply bounded_event.
Qed.
End Queue.

Lemma taken_delivered l q q' :
  seq_run l q = Some q' -> Forall2 (fun m p => number_of m = Ok (snd p)) (taken l) (delivered l q).
Proof.
  revert q. induction l as [|a l IH]; intros q Hr; [constructor|]. cbn in Hr. cbn [delivered].
  destruct (seq_step a q) as [q1|] eqn:Es; [|done]. cbn in Hr. specialize (IH q1 Hr).
  destruct a as [| | | | | | | | | |m n []| | | | | | |]; try exact IH. cbn. constructor; [|exact IH].
  unfold seq_step in Es. destruct (q_due q); [done|]. destruct (number_of m) as [k|] eqn:Ek; [|done].
  destruct (Z.eqb_spec k n) as [<-|]; done.
Qed.

(** The memory store's laws speak of every call but two. *)
Lemma memory_admissible l :
  forallb (fun a => match a with Store_refresh | Store_setNextSender _ => false | _ => true end) l = true ->
  Forall (@admissible MemoryStore _ _) l.
Proof.
  induction l as [|a l IH]; [constructor|]. cbn [forallb]. intros [Ha Hl]%andb_true_iff. constructor; [by destruct a | auto].
Qed.

Definition ex_events : list event :=
  [Timer ex_now; Received ex_logon ex_now; Received (ex_order 3) ex_now; Received (ex_order 2) ex_now;
   Received (ex_order 2) ex_now].

Lemma ex_start_inv : st_inv (store_of ex_start).
Proof. split_and!; [constructor | by unfold seqnum; cbn; lia | by unfold seqnum; cbn; lia]. Qed.

(** C1 Whatever a session receives and is asked to do, in any order, the calls it
    makes are a run of the abstract sequence machine, which ends in the contents of
    the store: each message is stored under the sender's next number, the target's
    number is only advanced by one or raised, an application message is delivered
    only under the number expected next, and the very next call then uses that
    number up. The store may be any that keeps its laws; the calls have to be ones
    its laws speak of. *)
Theorem session_sequence {S A} `{StoreLaws S} `{Env A} `{!Application_ok application} `{!Dictionary_ok sessionDD}
    (es : list event) (w : World S A) :
  st_inv (store_of w) -> Forall event_ok es ->
  exists l, w_history (run_events es w) = l ++ w_history w /\
    (Forall admissible l -> st_inv (store_of (run_events es w)) /\
       exists e, seq_run (reverse l) (start w) = Some (mkSequence (st_contents (store_of (run_events es w))) e false)).
Proof. intros Hi He. by apply (tracks_run es w w He), tracks_refl. Qed.

Lemma session_sequence_witness :
  exists l, w_history (run_events ex_events ex_start) = l ++ w_history ex_start /\
    (Forall admissible l -> st_inv (store_of (run_events ex_events ex_start)) /\
       exists e, seq_run (reverse l) (start ex_start) =
                 Some (mkSequence (st_contents (store_of (run_events ex_events ex_start))) e false)).
Proof. apply (session_sequence ex_events ex_start); [exact ex_start_inv | repeat constructor]. Defined.

(** C2 The messages the application took, in the order it took them, carry numbers
    that strictly increase within an epoch, which a reset or a wrap of the counter
    ends: none is delivered twice, and none after a later one. *)
Theorem delivered_in_order {S A} `{StoreLaws S} `{Env A} `{!Application_ok application} `{!Dictionary_ok sessionDD}
    (es : list event) (w : World S A) l :
  st_inv (store_of w) -> Forall event_ok es -> w_history (run_events es w) = l ++ w_history w -> Forall admissible l ->
  Forall2 (fun m p => number_of m = Ok (snd p)) (taken (reverse l)) (delivered (reverse l) (start w)) /\
  StronglySorted before (delivered (reverse l) (start w)).
Proof.
  intros Hi He Hl Ha. destruct (tracks_run es w w He (tracks_refl w Hi)) as (l' & Hl' & Hrun).
  rewrite Hl in Hl'. apply app_inv_tail in Hl' as <-. destruct (Hrun Ha) as (_ & e & Hr). split.
  - by eapply taken_delivered.
  - apply delivered_after. by apply st_numbers.
Qed.

Lemma delivered_in_order_witness :
  let l := w_history (run_events ex_events ex_start) in
  delivered (reverse l) (start ex_start) = [(0%nat, 2); (0%nat, 3)] /\
  Forall2 (fun m p => number_of m = Ok (snd p)) (taken (reverse l)) (delivered (reverse l) (start ex_start)) /\
  StronglySorted before (delivered (reverse l) (start ex_start)).
Proof.
  split; [vm_compute; reflexivity|]. apply (delivered_in_order ex_events ex_start).
  - exact ex_start_inv.
  - repeat constructor.
  - symmetry. apply app_nil_r.
  - apply memory_admissible. vm_compute. reflexivity.
Defined.

(** C3 Taking messages out of the queue ends: whatever program stands for running
    out of fuel, and however much more fuel there is, a received message is handled
    in the same way. Nothing is assumed of the store or of what the application
    does. *)
Theorem next_terminates {S A} `{MessageStore S} `{Env A} `{!Application_ok application} `{!Dictionary_ok sessionDD}
    (base : M S A unit) (fuel : nat) (m : Message) (now : DateTime) (w : World S A) :
  queue_ok (m_queue (w_state w)) -> (enough_fuel w <= fuel)%nat ->
  next_message (nextQueued_or base fuel now) m now false w = next m now w.
Proof.
  intros Hq Hf. apply (same_next (length (m_queue (w_state w)))); [unfold enough_fuel in Hf; lia | by split | done].
Qed.

Lemma next_terminates_witness :
  let m := ex_message "D" 3 [] in
  next_message (nextQueued_or (mret ()) 2 ex_now) m ex_now false ex_start = next m ex_now ex_start.
Proof. apply (next_terminates (mret ()) 2); [exact queue_ok_nil | apply le_n]. Defined.

(** C25 The queue stays a map of messages by the numbers they carry, and each event
    adds at most one message to it. *)
Theorem queue_wellformed {S A} `{MessageStore S} `{Env A} `{!Application_ok application} `{!Dictionary_ok sessionDD}
    (es : list event) (w : World S A) :
  Forall event_ok es -> queue_ok (m_queue (w_state w)) ->
  queue_ok (m_queue (w_state (run_events es w))) /\
  (length (m_queue (w_state (run_events es w))) <= length (m_queue (w_state w)) + length es)%nat.
Proof. intros He Hq. by apply (bounded_run es (length (m_queue (w_state w)))). Qed.

Lemma queue_wellformed_witness :
  let w := run_events [Timer ex_now; Received ex_logon ex_now; Received (ex_order 3) ex_now] ex_start in
  map fst (m_queue (w_state w)) = [3] /\
  queue_ok (m_queue (w_state w)) /\ (length (m_queue (w_state w)) <= 0 + 3)%nat.
Proof.
  split; [vm_compute; reflexivity|].
  apply (queue_wellformed [Timer ex_now; Received ex_logon ex_now; Received (ex_order 3) ex_now] ex_start);
    [repeat constructor | exact queue_ok_nil].
Defined.

(** C23 Draining, given fuel for the queue's length, never runs out of it; and when it
    ends normally no message is left in the queue at the number expected next: each
    one whose turn had come was handled. *)
Theorem queue_drained {S A} `{MessageStore S} `{Env A} `{!Application_ok application} `{!Dictionary_ok sessionDD}
    (fuel : nat) (now : DateTime) (w : World S A) :
  queue_ok (m_queue (w_state w)) -> (length (m_queue (w_state w)) < fuel)%nat ->
  (forall base, nextQueued_or base fuel now w = nextQueued fuel now w) /\
  (forall w' t, nextQueued fuel now w = (w', Ok ()) -> state_getNextTarget (w_state w') = Ok t ->
     map_lookup t (m_queue (w_state w')) = None).
Proof.
  intros Hq Hf. split; [|by intros w' t; apply nextQueued_drains]. intros base. rewrite <- nextQueued_or_raise.
  assert (same (bounded (length (m_queue (w_state w)))) (nextQueued_or base fuel now) (nextQueued_or (raise OutOfFuel) fuel now)
            (bounded (S := S) (A := A) (length (m_queue (w_state w))))) as Hs by (apply same_nextQueued; first [exact _ | lia]).
  by apply Hs.
Qed.

(** The order numbered 3 waits for 2, which is then used up. *)
Definition ex_waiting : World MemoryStore unit :=
  fst (incrNextTarget (run_events [Timer ex_now; Received ex_logon ex_now; Received (ex_order 3) ex_now] ex_start)).

Lemma queue_drained_witness :
  map fst (m_queue (w_state ex_waiting)) = [3] /\
  (forall base, nextQueued_or base 2 ex_now ex_waiting = nextQueued 2 ex_now ex_waiting) /\
  (forall w' t, nextQueued 2 ex_now ex_waiting = (w', Ok ()) -> state_getNextTarget (w_state w') = Ok t ->
     map_lookup t (m_queue (w_state w')) = None) /\
  taken (w_history (fst (nextQueued 2 ex_now ex_waiting))) <> [].
Proof.
  split; [vm_compute; reflexivity|].
  destruct (queue_drained 2 ex_now ex_waiting) as [H1 H2].
  - assert (queue_ok (m_queue (w_state ex_waiting))) as Hq; [|exact Hq].
    apply (keeps_incr (bounded 3) (run_events [Timer ex_now; Received ex_logon ex_now; Received (ex_order 3) ex_now] ex_start)).
    apply (bounded_run [Timer ex_now; Received ex_logon ex_now; Received (ex_order 3) ex_now] 0 ex_start); [repeat constructor | split; [exact queue_ok_nil | cbn; lia]].
  - change (2)%nat with (Datatypes.S 1). vm_compute. lia.
  - split; [exact H1|]. split; [exact H2|]. vm_compute. discriminate.
Defined.

(** ** Sending *)

Section Send.
Context {S A : Type} `{StoreLaws S} `{Env A}.

Definition logged_on (w : World S A) : Prop := m_receivedLogon (w_state w) && m_sentLogon (w_state w) = true.

Lemma isLoggedOn_eq w : logged_on w -> isLoggedOn w = (w, Ok true).
Proof. unfold logged_on, isLoggedOn, read, gets. by intros ->. Qed.

(** The calls of [send_string], newest first. *)
Definition sent (responder : bool) (text : str) : list action :=
  if responder then Responder_send text :: (if m_pLog config then [LogOutgoing text] else []) else [].

Lemma send_string_history text w : w_history (fst (send_string text w)) = sent (w_responder w) text ++ w_history w /\
  w_state (fst (send_string text w)) = w_state w /\ exists b, snd (send_string (S := S) text w) = Ok b.
Proof.
  unfold send_string, sent, gets, onOutgoing, when, mbind, M_bind, note. cbn. destruct (w_responder w); cbn; [|eauto].
  destruct (m_pLog config); cbn; eauto.
Qed.

(** What a message that is sent under number [n] does to the store, and with which
    calls: with [PersistMessages=N] only the number is used up. *)
Definition stored (n : Z) (text : str) : list action :=
  Store_incrNextSender :: (if m_persistMessages config then [Store_set n text] else []).

Definition stored_contents (n : Z) (text : str) (c : Contents) : Contents :=
  mkContents (if m_persistMessages config then <[n := text]> (c_messages c) else c_messages c) (u64 (n + 1)) (c_target c) (c_creation c).

Lemma persist_stores m text w n :
  st_inv (store_of w) -> st_storable text -> number_of m = Ok n ->
  n = c_sender (st_contents (store_of w)) ->
  exists w', persist m text w = (w', Ok ()) /\ w_history w' = stored n text ++ w_history w /\
    w_responder w' = w_responder w /\ m_receivedLogon (w_state w') = m_receivedLogon (w_state w) /\ m_sentLogon (w_state w') = m_sentLogon (w_state w) /\
    st_inv (store_of w') /\ st_contents (store_of w') = stored_contents n text (st_contents (store_of w)).
Proof.
  intros Hi Ht Hm En. unfold number_of, mbind, result_bind in Hm. unfold stored, stored_contents.
  unfold persist, mbind, M_bind, lift. destruct (getFieldRef (m_header m) FIELD.MsgSeqNum) as [f|]; [|done].
  destruct (m_persistMessages config).
  - rewrite Hm. destruct (st_set_spec n text (store_of w) Hi) as (s1 & E1 & Hi1 & Hc1); [rewrite En; by apply st_numbers | done |].
    unfold store_call, state_set. fold (store_of w). rewrite E1. cbn. unfold state_incrNextSender. cbn.
    destruct (st_incrSender_spec s1 Hi1) as (s2 & E2 & Hi2 & Hc2). rewrite E2. eexists. split; [reflexivity|]. cbn.
    split_and!; [done..|]. cbn. rewrite Hc2, Hc1. cbn. by rewrite <- En.
  - unfold store_call, mret, M_ret, state_incrNextSender. cbn. fold (store_of w).
    destruct (st_incrSender_spec (store_of w) Hi) as (s2 & E2 & Hi2 & Hc2). rewrite E2. eexists. split; [reflexivity|]. cbn.
    split_and!; [done..|]. cbn. rewrite Hc2. cbn. by rewrite <- En.
Qed.
End Send.

Lemma number_of_set n m : header_ok m -> seqnum n -> number_of (in_header m (fun h => setField h (SeqNumField FIELD.MsgSeqNum n))) = Ok n.
Proof.
  intros Hm Hn. pose proof (header_text_set FIELD.MsgSeqNum (SEQNUM_convert n) m Hm ltac:(done)) as Ht.
  unfold number_of, getFieldRef, header_text in *. cbn [m_header in_header with_header] in *.
  unfold SeqNumField. destruct (getFieldIfSet _ _) as [f|]; [|done]. cbn in Ht. injection Ht as Hf. cbn. by apply valueOf_SeqNumField.
Qed.

Lemma number_of_toString m text m' n : header_ok m -> seqnum n -> toString_default m = Ok (text, m') ->
  header_text FIELD.MsgSeqNum m = Some (SEQNUM_convert n) -> number_of m' = Ok n.
Proof.
  intros Hm Hn E Ht. pose proof (toString_default_header m text m' FIELD.MsgSeqNum Hm ltac:(done) ltac:(done) E) as Ht'.
  rewrite Ht in Ht'. clear Ht. unfold number_of, getFieldRef, header_text in *. destruct (getFieldIfSet _ _) as [f|]; [|done].
  cbn in Ht'. injection Ht' as Hf. cbn. by apply valueOf_SeqNumField.
Qed.

Lemma type_of_set t v m : header_ok m -> tag t -> t <> FIELD.MsgType -> type_of (in_header m (fun h => setField h (Field t v))) = type_of m.
Proof.
  intros Hm Ht Hne. assert (forall m, type_of m = default [] (header_text FIELD.MsgType m)) as E.
  { intros m'. unfold type_of, header_text. by destruct (getFieldIfSet _ _). }
  rewrite !E. unfold header_text. cbn [m_header in_header with_header].
  rewrite laid_out_get_set by done. rewrite (proj2 (Z.eqb_neq _ _)); [done|]. intros E'. by apply Hne.
Qed.

(** C24 A message other than a Logon, of the application or of the session, that is sent
    while logged on: it is stored under the sender's next number, with
    [PersistMessages=Y], and that number used up, before it goes to the connection; with
    [PersistMessages=N] nothing is stored and the number is used up all the same. What
    goes out is the message's encoding with that number, which is what was stored. *)
Theorem send_stores_first {S A} `{StoreLaws S} `{Env A} (m m' : Message) (admin : bool) (text : str) (n : Z) (w : World S A) :
  header_ok m -> st_inv (store_of w) -> c_sender (st_contents (store_of w)) = n -> logged_on w -> st_storable text ->
  (admin = true -> type_of m <> MsgType_Logon) ->
  toString_default (in_header m (fun h => setField h (SeqNumField FIELD.MsgSeqNum n))) = Ok (text, m') ->
  exists w', sendSequenced m 0 admin w = (w', Ok true) /\
    w_history w' = sent (w_responder w) text ++ stored n text ++ w_history w /\
    st_inv (store_of w') /\ st_contents (store_of w') = stored_contents n text (st_contents (store_of w)).
Proof.
  intros Hm Hi <- Hlog Ht Hno E. unfold logged_on in Hlog. set (n := c_sender (st_contents (store_of w))) in *.
  set (w1 := mkWorld (set_lastSentTime (timestamper (w_ticks w)) (w_state w)) (w_targetDefaultApplVerID w) (w_responder w)
               (w_app w) (Datatypes.S (w_ticks w)) (w_history w) : World S A).
  assert (number_of m' = Ok n) as Hn.
  { eapply number_of_toString; [| | exact E |]; [by apply laid_out_setField | by apply st_numbers |]. by apply header_text_set. }
  destruct (persist_stores m' text w1 n Hi Ht Hn eq_refl) as (w2 & E2 & Hh & Hr & Hl1 & Hl2 & Hi2 & Hc).
  destruct (send_string_history text w2) as (Hh3 & Hs3 & b & Hb).
  exists (fst (send_string text w2)). split.
  2: { rewrite Hh3, Hr, Hh. unfold store_of. rewrite Hs3. done. }
  unfold sendSequenced, try_catch, mbind, M_bind, timestamp, tick, put_state. cbn [w_state w_targetDefaultApplVerID w_responder w_app w_ticks w_history]. fold w1.
  unfold getExpectedSenderNum, read_result, state_getNextSender. cbn [Z.eqb negb].
  rewrite (st_sender_spec (m_pStore (w_state w1))) by exact Hi. cbv zeta.
  change (c_sender (st_contents (m_pStore (w_state w1)))) with n.
  destruct admin.
  - unfold reset_for_logon, SeqNumField, read, gets, mbind, M_bind. rewrite type_of_set by done.
    unfold str_eqb at 1. rewrite bool_decide_eq_false_2 by auto. cbn [andb negb].
    unfold mret, M_ret, lift. unfold SeqNumField in E. rewrite E, E2.
    rewrite (isLoggedOn_eq w2) by (unfold logged_on; by rewrite Hl1, Hl2). rewrite orb_true_r.
    destruct (send_string text w2) as [w3 r]. cbn in Hb. by rewrite Hb.
  - rewrite (isLoggedOn_eq w1) by exact Hlog. unfold mret, M_ret, lift. rewrite E, E2.
    rewrite (isLoggedOn_eq w2) by (unfold logged_on; by rewrite Hl1, Hl2).
    destruct (send_string text w2) as [w3 r]. cbn in Hb. by rewrite Hb.
Qed.

Lemma ex_run_inv es : Forall event_ok es ->
  forallb (fun a => match a with Store_refresh | Store_setNextSender _ => false | _ => true end) (w_history (run_events es ex_start)) = true ->
  st_inv (store_of (run_events es ex_start)).
Proof.
  intros He Ha. destruct (tracks_run es ex_start ex_start He (tracks_refl _ ex_start_inv)) as (l & Hl & Hrun).
  cbn [w_history ex_start] in Hl. rewrite app_nil_r in Hl. apply Hrun. rewrite <- Hl. by apply memory_admissible.
Qed.

Lemma laid_out_fold fields h : tags_ok fields -> laid_out h -> laid_out (fold_left setField fields h).
Proof. intros Hf. revert h. induction Hf as [|f fields Hf _ IH]; intros h Hh; [done|]. by apply IH, laid_out_setField. Qed.

Lemma ex_message_ok t n body : header_ok (ex_message t n body).
Proof. apply laid_out_fold; [by repeat apply List.Forall_cons | apply header_ok_new]. Qed.

Definition ex_logged_on : World MemoryStore unit := run_events [Timer ex_now; Received ex_logon ex_now] ex_start.

Lemma send_stores_first_witness :
  exists text w', sendSequenced (ex_message "D" 0 []) 0 false ex_logged_on = (w', Ok true) /\
    w_history w' = sent (w_responder ex_logged_on) text ++ [Store_incrNextSender; Store_set 2 text] ++ w_history ex_logged_on /\
    st_inv (store_of w') /\ st_contents (store_of w') = stored_contents 2 text (st_contents (store_of ex_logged_on)).
Proof.
  destruct (toString_default (in_header (ex_message "D" 0 []) (fun h => setField h (SeqNumField FIELD.MsgSeqNum 2)))) as [[text m']|] eqn:E;
    [|exfalso; vm_compute in E; discriminate].
  exists text. refine (send_stores_first (ex_message "D" 0 []) m' false text 2 ex_logged_on _ _ _ _ _ _ _).
  - apply ex_message_ok.
  - apply ex_run_inv; [repeat constructor | vm_compute; reflexivity].
  - vm_compute. reflexivity.
  - vm_compute. reflexivity.
  - exact I.
  - done.
  - exact E.
Defined.

(** ** Refusing a message that comes twice *)

Section TooLow.
Context {S A : Type} `{MessageStore S} `{Env A}.

Definition disconnected (w : World S A) : Prop :=
  w_responder w = false /\ m_receivedLogon (w_state w) = false /\ m_sentLogon (w_state w) = false /\ m_sentLogout (w_state w) = false /\
  m_queue (w_state w) = [].

Lemma reset_state_flags w : let w' := fst (reset_state (S := S) w) in
  w_responder w' = w_responder w /\ m_receivedLogon (w_state w') = m_receivedLogon (w_state w) /\
  m_sentLogon (w_state w') = m_sentLogon (w_state w) /\ m_sentLogout (w_state w') = m_sentLogout (w_state w) /\
  (m_queue (w_state w) = [] -> m_queue (w_state w') = []).
Proof.
  unfold reset_state, mbind, M_bind, timestamp, tick, store_call. cbn. unfold state_reset. cbn.
  destruct (st_reset _ _) as [st []]; cbn; auto.
Qed.

Definition no_connection (w : World S A) : Prop :=
  w_responder w = false /\ m_receivedLogon (w_state w) = false /\ m_sentLogon (w_state w) = false.

(** Ending normally, [disconnect] leaves nothing of the connection. *)
Lemma spec_disconnect P E : (forall w, E w) -> spec P disconnect (fun _ => disconnected) E.
Proof.
  intros HE. unfold disconnect.
  apply (spec_bind _ (fun r w => w_responder w = r)); [done|]. intros r.
  apply (spec_bind _ (fun _ w => w_responder w = false)).
  { intros w Hw. unfold when, onEvent, when, mbind, M_bind, note, set_responder. destruct r; [|done].
    by destruct (m_pLog config). }
  intros _. apply (spec_bind _ (fun b w => w_responder w = false /\ b = m_receivedLogon (w_state w) || m_sentLogon (w_state w))); [done|].
  intros b. apply (spec_bind _ (fun _ => no_connection)).
  { intros w [Hr Hb]. unfold when, no_connection. destruct b; cbn; [done|]. symmetry in Hb. by apply orb_false_iff in Hb as [-> ->]. }
  intros _. apply (spec_bind _ (fun _ => no_connection)).
  { intros w Hw. unfold when, callback, call, mbind, M_bind, lift. destruct b; [|done].
    destruct (onLogout application (w_app w)) as [a' [[]|]]; [done | apply HE]. }
  intros _. apply (spec_bind _ (fun _ => disconnected)); [by intros w (Hr & H1 & H2)|].
  intros _. apply (spec_bind _ (fun _ => disconnected)).
  { intros w (Hr & H1 & H2 & H3 & Hq). unfold when. destruct (m_resetOnDisconnect config); [|done].
    pose proof (reset_state_flags w) as (E1 & E2 & E3 & E4 & E5). destruct (snd _); [|apply HE].
    unfold disconnected. rewrite E1, E2, E3, E4. split_and!; auto. }
  intros _ w Hw. exact Hw.
Qed.

Lemma isGoodTime_state f w : w_state (fst (isGoodTime (S := S) f w)) = w_state w.
Proof.
  unfold isGoodTime. destruct (negb _); [done|]. unfold timestamp, tick, mbind, M_bind, lift. cbn.
  by destruct (valueOf _ f).
Qed.

(** The checks for a number below the one expected, without [PossDupFlag]: they do
    not end normally. *)
Lemma spec_low_checks m a n t :
  number_of m = Ok n -> n < t -> getFieldIfSet (m_header m) FIELD.PossDupFlag = None ->
  (forall f w, getFieldRef (m_header m) FIELD.SendingTime = Ok f -> snd (isGoodTime (S := S) f w) = Ok true) ->
  (forall s u, getField (m_header m) FIELD.SenderCompID = Ok s -> getField (m_header m) FIELD.TargetCompID = Ok u -> isCorrectCompID s u = true) ->
  spec (fun w => state_getNextTarget (w_state w) = Ok t) (verify_checks m a true) (fun _ _ => False) (fun _ => True).
Proof.
  intros Hn Hlt Hdup Hgood Hid. set (P := fun w : World S A => state_getNextTarget (w_state w) = Ok t).
  unfold verify_checks. cbv zeta. rewrite orb_true_r.
  apply spec_lift_bind; [done|]. intros f _. apply spec_lift_bind; [done|]. intros s Hs. apply spec_lift_bind; [done|]. intros u Hu.
  apply spec_lift_bind; [done|]. intros g Hg. apply (spec_bind _ (fun k w => k = n /\ P w)).
  { apply spec_lift_bind; [done|]. intros h Hh w Hw. unfold lift. cbn. unfold number_of in Hn. rewrite Hh in Hn. cbn in Hn. by rewrite Hn. }
  intros k. apply (spec_assume (k = n)); [by intros w []|]. intros ->. apply (spec_weaken P _ (fun _ _ => False) _ (fun _ => True) _); [|by intros w [] | done | done].
  apply (spec_bind _ (fun _ => P)); [by intros w Hw|]. intros valid. destruct (negb valid); [by intros w Hw|].
  apply (spec_bind _ (fun b w => b = true /\ P w)); [|intros good].
  { intros w Hw. rewrite (Hgood g w Hg). split; [done|]. unfold P. by rewrite isGoodTime_state. }
 
  apply (spec_assume (good = true)); [by intros w []|]. intros ->. cbn [negb]. rewrite (Hid s u Hs Hu). cbn [negb].
  apply (spec_weaken P _ (fun _ _ => False) _ (fun _ => True) _); [|by intros w [] | done | done].
  apply (spec_bind _ (fun b w => b = false /\ P w)).
  { intros w Hw. destruct a; [|done]. unfold isTargetTooHigh, mbind, M_bind, getExpectedTargetNum, read_result. rewrite Hw. cbn.
    split; [apply Z.ltb_ge; lia | done]. }
  intros high. apply (spec_assume (high = false)); [by intros w []|]. intros ->. cbn [negb].
  apply (spec_weaken P _ (fun _ _ => False) _ (fun _ => True) _); [|by intros w [] | done | done].
  apply (spec_bind _ (fun b w => b = true /\ P w)).
  { intros w Hw. unfold isTargetTooLow, mbind, M_bind, getExpectedTargetNum, read_result. rewrite Hw. cbn.
    split; [apply Z.ltb_lt; lia | done]. }
  intros low. apply (spec_assume (low = true)); [by intros w []|]. intros ->. cbn [negb].
  eapply (spec_bind _ (fun _ _ => False)); [|by intros ? w []]. unfold doTargetTooLow. rewrite Hdup.
  apply (spec_bind _ (fun b _ => b = false)); [by intros w Hw|]. intros dup. apply (spec_assume (dup = false)); [by intros w Hw|]. intros ->. cbn [negb].
  apply spec_lift_bind; [done|]. intros h _. apply (spec_bind _ (fun _ _ => True)).
  { intros w _. unfold getExpectedTargetNum, read_result. cbn. by destruct (state_getNextTarget _). }
  intros x. apply spec_lift_bind; [done|]. intros y _. cbv zeta. apply (spec_bind _ (fun _ _ => True)); [|by intros ? w Hw].
  intros w _. by destruct (snd _).
Qed.
End TooLow.

(** A message that comes with a number below the one expected, and does not say
    that it may be a duplicate, is never accepted: unless a callback or the store
    breaks off with something that is no exception, or [onLogout] throws, the session
    ends disconnected, logged off and with an empty queue. *)
Theorem too_low_disconnects {S A} `{MessageStore S} `{Env A} (m : Message) (a : bool) (n t : Z) (w w' : World S A) ok :
  number_of m = Ok n -> state_getNextTarget (w_state w) = Ok t -> n < t ->
  getFieldIfSet (m_header m) FIELD.PossDupFlag = None ->
  (forall f w, getFieldRef (m_header m) FIELD.SendingTime = Ok f -> snd (isGoodTime (S := S) f w) = Ok true) ->
  (forall s u, getField (m_header m) FIELD.SenderCompID = Ok s -> getField (m_header m) FIELD.TargetCompID = Ok u -> isCorrectCompID s u = true) ->
  verify m a true w = (w', Ok ok) -> ok = false /\ disconnected w'.
Proof.
  intros Hn Ht Hlt Hdup Hgood Hid Hv.
  enough (spec (fun w => state_getNextTarget (w_state w) = Ok t) (verify m a true)
            (fun ok w => ok = false /\ disconnected w) (fun _ => True)) as Hs.
  { specialize (Hs w Ht). by rewrite Hv in Hs. }
  unfold verify. apply (spec_bind _ (fun ok w => ok = false /\ disconnected w)).
  - eapply spec_try; [eapply spec_weaken; [by apply (spec_low_checks m a n t) | done | by intros ? w1 [] | intros w1 Hw1; exact Hw1] | | done]. intros e h Hh. cbn in Hh. destruct (is_exception e); [|done].
    injection Hh as <-. apply (spec_bind _ (fun _ _ => True)).
    { intros w1 _. by destruct (snd _). }
    intros []. eapply spec_bind; [by apply spec_disconnect|]. intros [] w1 Hw1. done.
  - intros b. apply (spec_assume (b = false)); [by intros w1 []|]. intros -> w1 [_ Hw1]. done.
Qed.

Definition ex_twice : World MemoryStore unit := run_events [Timer ex_now; Received ex_logon ex_now; Received (ex_order 2) ex_now] ex_start.

Lemma too_low_disconnects_witness :
  exists w', verify (ex_message "D" 2 []) true true ex_twice = (w', Ok false) /\ disconnected w'.
Proof.
  exists (fst (verify (ex_message "D" 2 []) true true ex_twice)). split; [vm_compute; reflexivity|].
  apply (proj2 (A := false = false)).
  apply (too_low_disconnects (ex_message "D" 2 []) true 2 3 ex_twice (fst (verify (ex_message "D" 2 []) true true ex_twice)) false).
  - vm_compute. reflexivity.
  - vm_compute. reflexivity.
  - lia.
  - vm_compute. reflexivity.
  - intros f w E. vm_compute in E. injection E as <-. vm_compute. reflexivity.
  - intros s u Es Eu. vm_compute in Es, Eu. injection Es as <-. injection Eu as <-. vm_compute. reflexivity.
  - vm_compute. reflexivity.
Defined.

(** ** Where the code surprises *)

(** A Reject that comes ahead of its turn uses up the number of the message that is
    missing; no resend is asked for. *)
Lemma reject_skips_a_gap :
  let w := run_events [Received (ex_text "3" 5 [Field FIELD.RefSeqNum (lit "1")]) ex_now] ex_logged_on in
  state_getNextTarget (w_state ex_logged_on) = Ok 2 /\ state_getNextTarget (w_state w) = Ok 3 /\
  m_queue (w_state w) = [] /\ m_resendRange (w_state w) = (0, 0).
Proof. vm_compute. by split_and!. Qed.

(** The first number a ResendRequest asks for is cut to an [int]. *)
Lemma resend_begin_truncated : u64 (i32 (2 ^ 32 + 1)) = 1 /\ u64 (i32 (2 ^ 31)) = 2 ^ 64 - 2 ^ 31.
Proof. by split. Qed.

(** [disconnect] keeps the reason for a logout: it reads it where it would clear it. *)
Lemma disconnect_keeps_reason :
  m_logoutReason (w_state (run_events [Logout (lit "bye"); Disconnect] ex_logged_on)) = lit "bye".
Proof. vm_compute. reflexivity. Qed.
