(* ===== verification/Sockets.v ===== *)
(** * Sockets as the engine sees them ([src/C++/Utility.cpp])

    What the system has open and what its calls will answer. The answers are part
    of the state: the numbers given to new sockets, how much a [send] takes, what a
    [recv] returns, what [poll] reports. Closing a number that is not open is
    recorded, so that theorems can exclude it. The clocks are functions of how
    often a clock was read. *)
From S2P Require Import Prelude DateTime.

Class Clocks := {
  monotonicMillis : nat -> Z;     (* the steady clock, in milliseconds *)
  time_ : nat -> Z;               (* [::time], in seconds *)
  utc_now : nat -> DateTime       (* [UtcTimeStamp::now()] *)
}.

Definition INVALID_SOCKET_HANDLE : Z := -1.

(** The events [poll] reports for one descriptor; [r_other] is [POLLHUP] and
    [POLLNVAL], which nothing looks at. *)
Record Revents := mkRevents { r_in : bool; r_pri : bool; r_out : bool; r_err : bool; r_other : bool }.

Definition no_events : Revents := mkRevents false false false false false.

Inductive poll_outcome :=
| PollInterrupted                    (* [EINTR] *)
| PollFailed                         (* any other error *)
| PollReports (l : list Revents).    (* for the descriptors in their order *)

Inductive recv_outcome :=
| RecvData (data : str)        (* no characters at the end of the stream *)
| RecvFailed (error : str).    (* with what [strerror] says *)

Record Kernel := mkKernel {
  k_open : gset Z;              (* descriptors that are open *)
  k_closed_twice : list Z;      (* numbers that were closed when they were not open *)
  k_news : list Z;              (* numbers for the sockets to come, -1 for a failure *)
  k_sends : list Z;             (* how much the sends to come take, negative for an error *)
  k_recvs : list recv_outcome;  (* what the recvs to come return *)
  k_polls : list poll_outcome;
  k_ticks : nat;                (* how often a clock was read *)
  k_sent : list (Z * str)       (* what was taken, by socket *)
}.

Definition with_open (open : gset Z) (k : Kernel) : Kernel :=
  mkKernel open (k_closed_twice k) (k_news k) (k_sends k) (k_recvs k) (k_polls k) (k_ticks k) (k_sent k).

(** A number for a new socket: none is given that is open. *)
Definition socket_new (k : Kernel) : Z * Kernel :=
  match k_news k with
  | [] => (INVALID_SOCKET_HANDLE, k)
  | s :: news =>
      let k' open := mkKernel open (k_closed_twice k) news (k_sends k) (k_recvs k) (k_polls k) (k_ticks k) (k_sent k) in
      if (s <? 0) || bool_decide (s ∈ k_open k) then (INVALID_SOCKET_HANDLE, k' (k_open k)) else (s, k' ({[s]} ∪ k_open k))
  end.

Definition socket_close (s : Z) (k : Kernel) : Kernel :=
  if bool_decide (s ∈ k_open k) then with_open (k_open k ∖ {[s]}) k
  else mkKernel (k_open k) (k_closed_twice k ++ [s]) (k_news k) (k_sends k) (k_recvs k) (k_polls k) (k_ticks k) (k_sent k).

(** [socket_send]: at most what there is; when the answers run out, all of it. *)
Definition socket_send (s : Z) (data : str) (k : Kernel) : Z * Kernel :=
  let '(result, sends) := match k_sends k with
                          | [] => (Z.of_nat (length data), [])
                          | r :: sends => (if r <? 0 then -1 else Z.min r (Z.of_nat (length data)), sends)
                          end in
  (result, mkKernel (k_open k) (k_closed_twice k) (k_news k) sends (k_recvs k) (k_polls k) (k_ticks k)
             (k_sent k ++ [(s, take (Z.to_nat result) data)])).

(** [socket_recv] into a buffer of [size] characters. When the answers run out
    nothing came and the call fails ([EAGAIN]). *)
Definition socket_recv (size : nat) (k : Kernel) : recv_outcome * Kernel :=
  match k_recvs k with
  | [] => (RecvFailed (lit "Resource temporarily unavailable"), k)
  | r :: recvs =>
      (match r with RecvData data => RecvData (take size data) | RecvFailed _ => r end,
       mkKernel (k_open k) (k_closed_twice k) (k_news k) (k_sends k) recvs (k_polls k) (k_ticks k) (k_sent k))
  end.

Definition socket_isValid (s : Z) : bool := 0 <=? s.

(** One [poll]; when the answers run out it times out. *)
Definition socket_poll (k : Kernel) : poll_outcome * Kernel :=
  match k_polls k with
  | [] => (PollReports [], k)
  | answer :: polls =>
      (answer, mkKernel (k_open k) (k_closed_twice k) (k_news k) (k_sends k) (k_recvs k) polls (k_ticks k) (k_sent k))
  end.

(** A clock is read. *)
Definition tick (k : Kernel) : nat * Kernel :=
  (k_ticks k, mkKernel (k_open k) (k_closed_twice k) (k_news k) (k_sends k) (k_recvs k) (k_polls k) (Datatypes.S (k_ticks k)) (k_sent k)).

(** ** Lemmas *)

Lemma socket_new_open s k k' :
  socket_new k = (s, k') -> (s = INVALID_SOCKET_HANDLE /\ k_open k' = k_open k) \/ (0 <= s /\ (s ∉ k_open k) /\ k_open k' = {[s]} ∪ k_open k).
Proof.
  unfold socket_new. destruct (k_news k) as [|n news]; [intros [= <- <-]; by left|].
  destruct (Z.ltb_spec n 0); simpl; [intros [= <- <-]; by left|]. case_bool_decide; intros [= <- <-]; [by left | right]. done.
Qed.

Lemma socket_new_closed s k k' : socket_new k = (s, k') -> k_closed_twice k' = k_closed_twice k.
Proof.
  unfold socket_new. destruct (k_news k) as [|n news]; [by intros [= <- <-]|]. by destruct (_ || _); intros [= <- <-].
Qed.

Lemma socket_close_open s k : s ∈ k_open k -> k_open (socket_close s k) = k_open k ∖ {[s]} /\ k_closed_twice (socket_close s k) = k_closed_twice k.
Proof. intros H. unfold socket_close. by rewrite bool_decide_eq_true_2. Qed.

Lemma socket_send_open s data k : k_open (socket_send s data k).2 = k_open k /\ k_closed_twice (socket_send s data k).2 = k_closed_twice k.
Proof. unfold socket_send. by destruct (k_sends k). Qed.

Lemma socket_recv_open size k : k_open (socket_recv size k).2 = k_open k /\ k_closed_twice (socket_recv size k).2 = k_closed_twice k.
Proof. unfold socket_recv. by destruct (k_recvs k). Qed.

Lemma socket_poll_open k : k_open (socket_poll k).2 = k_open k /\ k_closed_twice (socket_poll k).2 = k_closed_twice k.
Proof. unfold socket_poll. by destruct (k_polls k). Qed.

(** A [send] takes a front part of its data, not longer than it says. *)
Lemma socket_send_spec s data k :
  let '(result, k') := socket_send s data k in
  -1 <= result <= Z.of_nat (length data) /\ k_sent k' = k_sent k ++ [(s, take (Z.to_nat result) data)].
Proof. unfold socket_send. destruct (k_sends k) as [|r sends]; [split; [lia | done]|]. destruct (Z.ltb_spec r 0); (split; [lia | done]). Qed.
