(* ===== verification/Monitor.v ===== *)
(** * The socket monitor ([src/C++/SocketMonitor_UNIX.h], [SocketMonitor_UNIX.cpp])

    The reactor under the single-threaded transports: three sets of sockets, the
    queue of dropped ones, and [block], which reports dropped sockets or else what
    [poll] says. What is reported goes to a strategy, here a record of functions on
    a world that has the monitor, the system and the strategy's own state. Other
    threads only call [signal], and [drop] when they disconnect a session. *)
From stdpp Require Import sorting.
From S2P Require Import Prelude Sockets.

Record SocketMonitor := mkMonitor {
  mon_timeout : Z;                (* [m_timeout], seconds *)
  mon_ticks : Z;                  (* [m_ticks], milliseconds *)
  m_signal : Z;
  m_interrupt : Z;
  m_connectSockets : gset Z;
  m_readSockets : gset Z;
  m_writeSockets : gset Z;
  m_dropped : list Z;
  m_owner : bool;                 (* [block] was called: the sets have an owner *)
  pipe : list Z                   (* sockets signalled and not yet received *)
}.

Record World (C : Type) := mkWorld { w_mon : SocketMonitor; w_kernel : Kernel; w_client : C }.
Arguments mkWorld {C}.
Arguments w_mon {C}.
Arguments w_kernel {C}.
Arguments w_client {C}.

(** What runs on the monitor's thread: it changes the world, and ends or throws. *)
Definition R (C X : Type) : Type := World C -> World C * result X.

#[export] Instance R_ret {C} : MRet (R C) := fun X x w => (w, Ok x).
#[export] Instance R_bind {C} : MBind (R C) := fun X Y f m w =>
  match m w with
  | (w, Ok x) => f x w
  | (w, Throw e) => (w, Throw e)
  end.

(** [std::set] iterates in increasing order. *)
Definition ascending (X : gset Z) : list Z := merge_sort Z.le (elements X).

Section Operations.
Context {C : Type}.
Implicit Types (w : World C) (s : Z).

Definition set_mon (f : SocketMonitor -> SocketMonitor) w : World C := mkWorld (f (w_mon w)) (w_kernel w) (w_client w).
Definition set_kernel (f : Kernel -> Kernel) w : World C := mkWorld (w_mon w) (f (w_kernel w)) (w_client w).
Definition set_client (f : C -> C) w : World C := mkWorld (w_mon w) (w_kernel w) (f (w_client w)).

Definition raise {X} (e : exn) : R C X := fun w => (w, Throw e).
Definition lift {X} (r : result X) : R C X := fun w => (w, r).
Definition gets {X} (f : World C -> X) : R C X := fun w => (w, Ok (f w)).
Definition when (b : bool) (m : R C unit) : R C unit := if b then m else mret ().
Definition try_catch {X} (m : R C X) (handler : exn -> option (R C X)) : R C X := fun w =>
  match m w with
  | (w, Throw e) => match handler e with Some h => h w | None => (w, Throw e) end
  | r => r
  end.

(** Operations of the monitor, of the system, of the strategy's own state. *)
Definition on_mon {X} (f : SocketMonitor -> X * SocketMonitor) : R C X := fun w =>
  let '(x, m) := f (w_mon w) in (mkWorld m (w_kernel w) (w_client w), Ok x).
Definition on_kernel {X} (f : Kernel -> X * Kernel) : R C X := fun w =>
  let '(x, k) := f (w_kernel w) in (mkWorld (w_mon w) k (w_client w), Ok x).
Definition on_client (f : C -> C) : R C unit := fun w => (set_client f w, Ok ()).

(** The three sets and the queue. *)
Definition with_sets (connect read write : gset Z) (dropped : list Z) (m : SocketMonitor) : SocketMonitor :=
  mkMonitor (mon_timeout m) (mon_ticks m) (m_signal m) (m_interrupt m) connect read write dropped (m_owner m) (pipe m).
Definition with_pipe (p : list Z) (m : SocketMonitor) : SocketMonitor :=
  mkMonitor (mon_timeout m) (mon_ticks m) (m_signal m) (m_interrupt m) (m_connectSockets m) (m_readSockets m) (m_writeSockets m)
    (m_dropped m) (m_owner m) p.
Definition with_ticks (t : Z) (m : SocketMonitor) : SocketMonitor :=
  mkMonitor (mon_timeout m) t (m_signal m) (m_interrupt m) (m_connectSockets m) (m_readSockets m) (m_writeSockets m)
    (m_dropped m) (m_owner m) (pipe m).
Definition with_owner (m : SocketMonitor) : SocketMonitor :=
  mkMonitor (mon_timeout m) (mon_ticks m) (m_signal m) (m_interrupt m) (m_connectSockets m) (m_readSockets m) (m_writeSockets m)
    (m_dropped m) true (pipe m).

Definition addConnect s (m : SocketMonitor) : bool * SocketMonitor :=
  if bool_decide (s ∈ m_connectSockets m) then (false, m)
  else (true, with_sets ({[s]} ∪ m_connectSockets m) (m_readSockets m) (m_writeSockets m) (m_dropped m) m).

Definition addRead s (m : SocketMonitor) : bool * SocketMonitor :=
  if bool_decide (s ∈ m_readSockets m) then (false, m)
  else (true, with_sets (m_connectSockets m) ({[s]} ∪ m_readSockets m) (m_writeSockets m) (m_dropped m) m).

Definition addWrite s (m : SocketMonitor) : bool * SocketMonitor :=
  if negb (bool_decide (s ∈ m_readSockets m)) then (false, m)
  else if bool_decide (s ∈ m_writeSockets m) then (false, m)
  else (true, with_sets (m_connectSockets m) (m_readSockets m) ({[s]} ∪ m_writeSockets m) (m_dropped m) m).

Definition registered (m : SocketMonitor) s : bool :=
  bool_decide (s ∈ m_readSockets m) || bool_decide (s ∈ m_writeSockets m) || bool_decide (s ∈ m_connectSockets m).

(** [drop], called by the thread that blocks, or before there is one. The socket is
    shut down and forgotten, and stays open until its drop was reported. *)
Definition mon_drop s (m : SocketMonitor) : bool * SocketMonitor :=
  if registered m s then
    (true, with_sets (m_connectSockets m ∖ {[s]}) (m_readSockets m ∖ {[s]}) (m_writeSockets m ∖ {[s]}) (m_dropped m ++ [s]) m)
  else (false, m).

(** [drop] on another thread: the socket is shut down, and nothing else. *)
Definition drop_outside s (m : SocketMonitor) : bool * SocketMonitor := if m_owner m then (true, m) else mon_drop s m.

Definition signal s (m : SocketMonitor) : SocketMonitor := with_pipe (pipe m ++ [s]) m.

Definition unsignal s (m : SocketMonitor) : SocketMonitor :=
  with_sets (m_connectSockets m) (m_readSockets m) (m_writeSockets m ∖ {[s]}) (m_dropped m) m.

(** How long [poll] waits, in milliseconds; [now] is the monotonic clock. The
    timeout [block] was given is not used. *)
Definition getTimeval_at (now : Z) (m : SocketMonitor) : Z * SocketMonitor :=
  let period := mon_timeout m * 1000 in
  let elapsed := now - mon_ticks m in
  if (period <=? elapsed) || (elapsed <? 0) then (period, with_ticks now m) else (period - elapsed, m).

Definition sleepIfEmpty (poll : bool) (m : SocketMonitor) : bool :=
  negb poll && bool_decide (m_readSockets m = ∅) && bool_decide (m_writeSockets m = ∅) && bool_decide (m_connectSockets m = ∅).

(** ** [block] *)

Context `{Clocks}.

Definition getTimeval (poll : bool) : R C Z :=
  if poll then mret 0
  else
    timeout ← gets (fun w => mon_timeout (w_mon w));
    if timeout =? 0 then mret 0
    else
      n ← on_kernel tick;
      on_mon (getTimeval_at (monotonicMillis n)).

(** [SocketMonitor::Strategy]. *)
Record Strategy := mkStrategy {
  onConnect : Z -> R C unit;
  onEvent : Z -> R C unit;
  onWrite : Z -> R C unit;
  onError : Z -> R C unit;
  onErrors : R C unit;      (* [onError(SocketMonitor &)] *)
  onTimeout : R C unit
}.

Section Block.
Context (strategy : Strategy).

Definition pop_dropped (m : SocketMonitor) : unit * SocketMonitor :=
  ((), with_sets (m_connectSockets m) (m_readSockets m) (m_writeSockets m) (tail (m_dropped m)) m).

(** One dropped socket: its report, then the socket is closed. *)
Definition report_one s : R C unit :=
  _ ← onError strategy s;
  _ ← on_mon pop_dropped;
  on_kernel (fun k => ((), socket_close s k)).

(** The loop over dropped sockets, which returns when there are none left; a report
    may drop more. *)
Fixpoint report_dropped (fuel : nat) : R C unit :=
  match fuel with
  | O => raise OutOfFuel
  | S fuel =>
      dropped ← gets (fun w => m_dropped (w_mon w));
      match dropped with
      | [] => mret ()
      | s :: _ => _ ← report_one s; report_dropped fuel
      end
  end.

Definition take_signal (m : SocketMonitor) : unit * SocketMonitor :=
  let '(socket, rest) := match pipe m with [] => (0, []) | socket :: rest => (socket, rest) end in
  ((), (addWrite socket (with_pipe rest m)).2).

Definition processRead s : R C unit :=
  interrupt ← gets (fun w => m_interrupt (w_mon w));
  if s =? interrupt then on_mon take_signal else onEvent strategy s.

Definition connected s (m : SocketMonitor) : unit * SocketMonitor :=
  ((), with_sets (m_connectSockets m ∖ {[s]}) ({[s]} ∪ m_readSockets m) (m_writeSockets m) (m_dropped m) m).

Definition processWrite s : R C unit :=
  connecting ← gets (fun w => bool_decide (s ∈ m_connectSockets (w_mon w)));
  if connecting : bool then _ ← on_mon (connected s); onConnect strategy s else onWrite strategy s.

Definition processError s : R C unit := onError strategy s.

(** What is reported of one descriptor, whatever an earlier report did to it. *)
Definition process_one (p : Z * Revents) : R C unit :=
  _ ← when (r_in p.2 || r_pri p.2) (processRead p.1);
  _ ← when (r_out p.2) (processWrite p.1);
  when (r_err p.2) (processError p.1).

Fixpoint processPollList (pfds : list (Z * Revents)) : R C unit :=
  match pfds with
  | [] => mret ()
  | p :: pfds => _ ← process_one p; processPollList pfds
  end.

(** [buildSet]: the descriptors with the events asked for; errors are reported
    whether asked for or not. *)
Definition buildSet (sockets : gset Z) (events : Revents) : list (Z * Revents) := map (fun s => (s, events)) (ascending sockets).

Definition poll_list (m : SocketMonitor) : list (Z * Revents) :=
  buildSet (m_readSockets m) (mkRevents true true false true true) ++
  buildSet (m_connectSockets m) (mkRevents false false true true true) ++
  buildSet (m_writeSockets m) (mkRevents false false true true true).

Definition masked (asked : Z * Revents) (reported : option Revents) : Z * Revents :=
  let r := default no_events reported in
  (asked.1, mkRevents (r_in asked.2 && r_in r) (r_pri asked.2 && r_pri r) (r_out asked.2 && r_out r) (r_err asked.2 && r_err r) (r_other r)).

Fixpoint reported (asked : list (Z * Revents)) (l : list Revents) : list (Z * Revents) :=
  match asked with
  | [] => []
  | a :: asked => masked a (head l) :: reported asked (tail l)
  end.

Definition any_event (p : Z * Revents) : bool := r_in p.2 || r_pri p.2 || r_out p.2 || r_err p.2 || r_other p.2.

(** [poll], again after [EINTR]; every call computes its time to wait. *)
Fixpoint poll_loop (fuel : nat) (poll : bool) : R C poll_outcome :=
  _ ← getTimeval poll;
  answer ← on_kernel socket_poll;
  match answer with
  | PollInterrupted => match fuel with O => raise OutOfFuel | S fuel => poll_loop fuel poll end
  | _ => mret answer
  end.

(** [block]: [drops] bounds the reports. *)
Definition block (drops : nat) (poll : bool) : R C unit :=
  _ ← on_mon (fun m => ((), with_owner m));
  m ← gets w_mon;
  match m_dropped m with
  | _ :: _ => report_dropped drops
  | [] =>
      if sleepIfEmpty poll m then onTimeout strategy
      else
        fuel ← gets (fun w => length (k_polls (w_kernel w)));
        answer ← poll_loop fuel poll;
        match answer with
        | PollReports l =>
            let pfds := reported (poll_list m) l in
            if existsb any_event pfds then processPollList pfds else onTimeout strategy
        | _ => onErrors strategy
        end
  end.
End Block.
End Operations.

(** [SocketMonitor(timeout)]: two descriptors for the signals. *)
Definition new_SocketMonitor (timeout ticks signal interrupt : Z) : SocketMonitor :=
  mkMonitor timeout ticks signal interrupt ∅ {[interrupt]} ∅ [] false [].

(** [~SocketMonitor]. *)
Definition destroy_SocketMonitor (m : SocketMonitor) (k : Kernel) : Kernel :=
  let k := fold_left (fun k s => socket_close s k) (ascending (m_readSockets m)) k in
  let k := fold_left (fun k s => if bool_decide (s ∈ m_readSockets m) then k else socket_close s k) (ascending (m_connectSockets m)) k in
  let k := fold_left (fun k s => socket_close s k) (m_dropped m) k in
  socket_close (m_signal m) k.
