(* ===== verification/MonitorProps.v ===== *)
(** * What the monitor promises, whatever the strategy

    A strategy is lawful when it acts through the monitor's operations. For any
    lawful strategy the sets stay coherent, and every descriptor the monitor was
    given is closed exactly once; reporting dropped sockets ends. *)
From stdpp Require Import sorting relations.
From S2P Require Import Prelude DateTime Sockets Monitor.

Lemma elem_of_ascending s X : s ∈ ascending X <-> s ∈ X.
Proof. unfold ascending. rewrite merge_sort_Permutation. apply elem_of_elements. Qed.

Lemma NoDup_ascending X : NoDup (ascending X).
Proof. unfold ascending. rewrite merge_sort_Permutation. apply NoDup_elements. Qed.

(** ** Rules *)

Section Rules.
Context {C : Type}.

Definition preserves {X} (P : World C -> Prop) (m : R C X) : Prop := forall w, P w -> P (m w).1.

Lemma preserves_bind {X Y} P (m : R C X) (f : X -> R C Y) : preserves P m -> (forall x, preserves P (f x)) -> preserves P (x ← m; f x).
Proof. intros Hm Hf w Hw. unfold mbind, R_bind. specialize (Hm w Hw). destruct (m w) as [w' [x|e]]; [by apply Hf | done]. Qed.

Lemma preserves_when P b (m : R C unit) : preserves P m -> preserves P (when b m).
Proof. intros Hm w Hw. destruct b; [by apply Hm | done]. Qed.
End Rules.

Section Laws.
Context {C : Type}.
Implicit Types (w : World C) (s : Z).

(** ** Actions *)

(** What code on the monitor's thread may do in one step; with [opens] also open
    sockets. *)
Inductive action (opens : bool) : World C -> World C -> Prop :=
| act_client f w : action opens w (set_client f w)
| act_connect w s k :
    opens = true -> socket_new (w_kernel w) = (s, k) -> 0 <= s ->
    action opens w (mkWorld (addConnect s (w_mon w)).2 k (w_client w))
| act_listen w s k :
    opens = true -> socket_new (w_kernel w) = (s, k) -> 0 <= s ->
    action opens w (mkWorld (addRead s (w_mon w)).2 k (w_client w))
| act_no_socket w s k : socket_new (w_kernel w) = (s, k) -> s < 0 -> action opens w (mkWorld (w_mon w) k (w_client w))
| act_addWrite s w : action opens w (set_mon (fun m => (addWrite s m).2) w)
| act_drop s w : action opens w (set_mon (fun m => (mon_drop s m).2) w)
| act_drop_outside s w : action opens w (set_mon (fun m => (drop_outside s m).2) w)
| act_signal s w : action opens w (set_mon (signal s) w)
| act_unsignal s w : action opens w (set_mon (unsignal s) w)
| act_send s data w : action opens w (set_kernel (fun k => (socket_send s data k).2) w)
| act_recv size w : action opens w (set_kernel (fun k => (socket_recv size k).2) w)
| act_tick w : action opens w (set_kernel (fun k => (tick k).2) w).

Definition acts (opens : bool) : World C -> World C -> Prop := rtc (action opens).

(** A computation that acts so. *)
Definition does {X} (opens : bool) (m : R C X) : Prop := forall w, acts opens w (m w).1.

(** A strategy that acts so; what it does on an error opens nothing. *)
Class Lawful (strategy : Strategy (C := C)) : Prop := {
  law_onConnect s : does true (onConnect strategy s);
  law_onEvent s : does true (onEvent strategy s);
  law_onWrite s : does true (onWrite strategy s);
  law_onError s : does false (onError strategy s);
  law_onErrors : does true (onErrors strategy);
  law_onTimeout : does true (onTimeout strategy)
}.

Lemma acts_weaken w w' : acts false w w' -> acts true w w'.
Proof.
  induction 1 as [w|w1 w2 w3 H _ IH]; [done|]. eapply rtc_l; [|exact IH].
  destruct H; try done; [apply act_client | by eapply act_no_socket | apply act_addWrite | apply act_drop | apply act_drop_outside | apply act_signal
    | apply act_unsignal | apply act_send | apply act_recv | apply act_tick].
Qed.

(** ** The invariant *)

(** [given]: what is open besides what the monitor has, with [sg], its end of the
    signals. *)
Context (sg : Z).

Record mon_inv (given : gset Z) (w : World C) : Prop := {
  inv_write : m_writeSockets (w_mon w) ⊆ m_readSockets (w_mon w);
  inv_connect : m_connectSockets (w_mon w) ## m_readSockets (w_mon w);
  inv_dropped s : s ∈ m_dropped (w_mon w) -> (s ∉ m_connectSockets (w_mon w)) /\ (s ∉ m_readSockets (w_mon w));
  inv_nodup : NoDup (m_dropped (w_mon w));
  inv_given s : s ∈ given -> (s ∉ m_connectSockets (w_mon w)) /\ (s ∉ m_readSockets (w_mon w)) /\ (s ∉ m_dropped (w_mon w));
  inv_open : k_open (w_kernel w) = given ∪ m_connectSockets (w_mon w) ∪ m_readSockets (w_mon w) ∪ list_to_set (m_dropped (w_mon w));
  inv_closed : k_closed_twice (w_kernel w) = [];
  inv_signal : m_signal (w_mon w) = sg /\ sg ∈ given
}.

(** Only the sets, the queue and what is open matter. *)
Lemma mon_inv_ext given w w' :
  m_writeSockets (w_mon w') = m_writeSockets (w_mon w) -> m_connectSockets (w_mon w') = m_connectSockets (w_mon w) ->
  m_readSockets (w_mon w') = m_readSockets (w_mon w) -> m_dropped (w_mon w') = m_dropped (w_mon w) ->
  k_open (w_kernel w') = k_open (w_kernel w) -> k_closed_twice (w_kernel w') = k_closed_twice (w_kernel w) ->
  m_signal (w_mon w') = m_signal (w_mon w) -> mon_inv given w -> mon_inv given w'.
Proof. intros E1 E2 E3 E4 E5 E6 E7 [H1 H2 H3 H4 H5 H6 H7 H8]. split; rewrite ?E1, ?E2, ?E3, ?E4, ?E5, ?E6, ?E7; done. Qed.

Lemma mon_inv_drop given s w : mon_inv given w -> mon_inv given (set_mon (fun m => (mon_drop s m).2) w).
Proof.
  intros [H1 H2 H3 H4 H5 H6 H7 H8]. destruct w as [m k c]. unfold mon_drop, set_mon. simpl in *.
  destruct (registered m s) eqn:E; [|by split].
  assert (s ∈ m_readSockets m \/ s ∈ m_connectSockets m) as Hs.
  { unfold registered in E. rewrite !orb_true_iff, !bool_decide_eq_true in E. set_solver. }
  assert (s ∉ m_dropped m) as Hnd by (intros Hd%H3; tauto).
  split; simpl; [set_solver | set_solver | | | | | done | done].
  - intros s' [Hd|Hd%list_elem_of_singleton]%elem_of_app; [destruct (H3 s' Hd); set_solver | set_solver].
  - apply NoDup_app. split_and!; [done | | apply NoDup_singleton]. intros s' Hd Hd'%list_elem_of_singleton. congruence.
  - intros s' Hg. destruct (H5 s' Hg) as (Ha & Hb & Hc). split_and!; [set_solver.. |].
    rewrite elem_of_app, list_elem_of_singleton. intros [?| ->]; [done | tauto].
  - rewrite H6, list_to_set_app_L. simpl. rewrite union_empty_r_L. apply set_eq. intros x.
    rewrite !elem_of_union, !elem_of_difference, elem_of_singleton. destruct (decide (x = s)) as [ ->|]; tauto.
Qed.

Lemma mon_inv_addWrite given s w : mon_inv given w -> mon_inv given (set_mon (fun m => (addWrite s m).2) w).
Proof.
  intros [H1 H2 H3 H4 H5 H6 H7 H8]. destruct w as [m k c]. unfold addWrite, set_mon. simpl in *.
  case_bool_decide; simpl; [|by split]. case_bool_decide; simpl; [by split|]. split; simpl; try done. set_solver.
Qed.

Lemma mon_inv_new given w s k (read : bool) :
  mon_inv given w -> socket_new (w_kernel w) = (s, k) -> 0 <= s ->
  mon_inv given (mkWorld (if read then (addRead s (w_mon w)).2 else (addConnect s (w_mon w)).2) k (w_client w)).
Proof.
  intros [H1 H2 H3 H4 H5 H6 H7 H8] Hnew Hs. destruct w as [m k0 c]. simpl in *.
  pose proof (socket_new_closed _ _ _ Hnew) as Ec. apply socket_new_open in Hnew as [[ -> _]|(_ & Hno & Ho)]; [done|].
  rewrite H6 in Hno. rewrite !not_elem_of_union, not_elem_of_list_to_set in Hno. destruct Hno as (((Hg & Hc) & Hr) & Hd).
  destruct read; unfold addRead, addConnect; rewrite bool_decide_eq_false_2 by done; simpl.
  - split; simpl; [set_solver | set_solver | | done | | | congruence | done].
    + intros s' Hs'. destruct (H3 s' Hs'). set_solver.
    + intros s' Hs'. destruct (H5 s' Hs') as (?&?&?). set_solver.
    + rewrite Ho, H6. set_solver.
  - split; simpl; [set_solver | set_solver | | done | | | congruence | done].
    + intros s' Hs'. destruct (H3 s' Hs'). set_solver.
    + intros s' Hs'. destruct (H5 s' Hs') as (?&?&?). set_solver.
    + rewrite Ho, H6. set_solver.
Qed.

Lemma mon_inv_action given opens w w' : action opens w w' -> mon_inv given w -> mon_inv given w'.
Proof.
  intros H Hw. destruct H as [f w|w s k _ Hnew Hs|w s k _ Hnew Hs|w s k Hnew Hs|s w|s w|s w|s w|s w|s data w|size w|w].
  - by eapply mon_inv_ext; [..|exact Hw].
  - by apply (mon_inv_new given w s k false).
  - by apply (mon_inv_new given w s k true).
  - pose proof (socket_new_closed _ _ _ Hnew). apply socket_new_open in Hnew as [[ -> E]|[? _]]; [|lia].
    by eapply mon_inv_ext; [..|exact Hw].
  - by apply mon_inv_addWrite.
  - by apply mon_inv_drop.
  - unfold drop_outside, set_mon. destruct (m_owner (w_mon w)); [|by apply mon_inv_drop]. by eapply mon_inv_ext; [..|exact Hw].
  - by eapply mon_inv_ext; [..|exact Hw].
  - destruct Hw as [H1 H2 H3 H4 H5 H6 H7 H8]. split; simpl; try done. set_solver.
  - destruct (socket_send_open s data (w_kernel w)). by eapply mon_inv_ext; [..|exact Hw].
  - destruct (socket_recv_open size (w_kernel w)). by eapply mon_inv_ext; [..|exact Hw].
  - by eapply mon_inv_ext; [..|exact Hw].
Qed.

Lemma mon_inv_acts given opens w w' : acts opens w w' -> mon_inv given w -> mon_inv given w'.
Proof. induction 1 as [w|w1 w2 w3 H _ IH]; [done|]. intros Hw. apply IH. by eapply mon_inv_action. Qed.

(** Sockets are dropped at the back of the queue. *)
Lemma acts_dropped opens w w' : acts opens w w' -> exists l, m_dropped (w_mon w') = m_dropped (w_mon w) ++ l.
Proof.
  induction 1 as [w|w1 w2 w3 H _ [l IH]]; [exists []; by rewrite app_nil_r|]. rewrite IH.
  assert (exists l', m_dropped (w_mon w2) = m_dropped (w_mon w1) ++ l') as [l' ->]; [|exists (l' ++ l); by rewrite app_assoc].
  assert (forall s m, exists l', m_dropped (mon_drop s m).2 = m_dropped m ++ l') as Hdrop.
  { intros s m. unfold mon_drop. destruct (registered m s); [by exists [s] | exists []; by rewrite app_nil_r]. }
  clear IH. destruct H as [f w|w s k _ _ _|w s k _ _ _|w s k _ _|s w|s w|s w|s w|s w|s data w|size w|w]; simpl;
    try (by exists []; rewrite app_nil_r).
  - exists []. unfold addConnect. case_bool_decide; by rewrite app_nil_r.
  - exists []. unfold addRead. case_bool_decide; by rewrite app_nil_r.
  - exists []. unfold addWrite. repeat (case_bool_decide; simpl); by rewrite app_nil_r.
  - apply Hdrop.
  - unfold drop_outside. destruct (m_owner (w_mon w)); [exists []; by rewrite app_nil_r | apply Hdrop].
Qed.

(** ** Reports end *)

(** The sockets that may still be reported. *)
Definition reportable (w : World C) : nat :=
  (size (m_connectSockets (w_mon w)) + size (m_readSockets (w_mon w)) + length (m_dropped (w_mon w)))%nat.

Lemma reportable_drop given s w : mon_inv given w -> (reportable (set_mon (fun m => (mon_drop s m).2) w) <= reportable w)%nat.
Proof.
  intros [H1 H2 _ _ _ _ _ _]. unfold reportable, mon_drop, set_mon. simpl. destruct (registered (w_mon w) s) eqn:E; simpl; [|lia].
  rewrite length_app. simpl. unfold registered in E. rewrite !orb_true_iff, !bool_decide_eq_true in E.
  assert (forall X : gset Z, (size (X ∖ {[s]}) <= size X)%nat) as Hle by (intros X; apply subseteq_size; set_solver).
  assert (forall X : gset Z, s ∈ X -> (size (X ∖ {[s]}) + 1 = size X)%nat) as Hlt.
  { intros X HX. rewrite size_difference by set_solver. rewrite size_singleton. assert (size X <> 0%nat) as Hne; [|lia].
    intros Hz%size_empty_inv. set_solver. }
  assert (s ∈ m_readSockets (w_mon w) \/ s ∈ m_connectSockets (w_mon w)) as [Hs|Hs] by set_solver.
  - specialize (Hlt _ Hs). specialize (Hle (m_connectSockets (w_mon w))). lia.
  - specialize (Hlt _ Hs). specialize (Hle (m_readSockets (w_mon w))). lia.
Qed.

Lemma reportable_acts given w w' : acts false w w' -> mon_inv given w -> (reportable w' <= reportable w)%nat.
Proof.
  induction 1 as [w|w1 w2 w3 H _ IH]; [done|]. intros Hw. specialize (IH (mon_inv_action _ _ _ _ H Hw)). etransitivity; [exact IH|].
  clear IH. destruct H as [f w|w s k H _ _|w s k H _ _|w s k _ _|s w|s w|s w|s w|s w|s data w|size w|w]; try done.
  - unfold reportable, addWrite, set_mon. simpl. by repeat (case_bool_decide; simpl).
  - by eapply reportable_drop.
  - unfold drop_outside. destruct (m_owner (w_mon w)) eqn:E; [by unfold set_mon; simpl; rewrite ?E|].
    eapply reportable_drop in Hw. unfold set_mon in *. simpl in *. rewrite E. exact Hw.
Qed.

(** A socket that was connecting is read from now on. *)
Lemma mon_inv_connected given s w :
  mon_inv given w -> s ∈ m_connectSockets (w_mon w) -> mon_inv given (set_mon (fun m => (connected s m).2) w).
Proof.
  intros [H1 H2 H3 H4 H5 H6 H7 H8] Hs. destruct w as [m k c]. unfold set_mon. split; simpl in *; try done.
  - clear - H1. set_solver.
  - clear - H2. set_solver.
  - intros s' Hs'. destruct (H3 s' Hs'). set_solver.
  - intros s' Hs'. destruct (H5 s' Hs') as (?&?&?). set_solver.
  - rewrite H6. apply set_eq. intros x. rewrite !elem_of_union, elem_of_difference, elem_of_singleton. destruct (decide (x = s)) as [ ->|]; tauto.
Qed.

Context `{Clocks} (strategy : Strategy (C := C)) `{!Lawful strategy}.

(** One report: what the strategy does, then the socket is closed. *)
Lemma report_one_fst s w :
  (report_one strategy s w).1 =
  match onError strategy s w with
  | (w1, Ok _) => set_kernel (socket_close s) (set_mon (fun m => (pop_dropped m).2) w1)
  | (w1, Throw _) => w1
  end.
Proof. unfold report_one, mbind, R_bind. by destruct (onError strategy s w) as [w1 [[]|e]]. Qed.

Lemma report_one_inv given s rest w :
  mon_inv given w -> m_dropped (w_mon w) = s :: rest ->
  mon_inv given (report_one strategy s w).1 /\
  ((report_one strategy s w).2 = Ok () -> (reportable (report_one strategy s w).1 < reportable w)%nat /\
    exists l, m_dropped (w_mon (report_one strategy s w).1) = rest ++ l).
Proof.
  intros Hw Hd. pose proof (law_onError s w) as Ha. pose proof (mon_inv_acts given _ _ _ Ha Hw) as Hi.
  pose proof (reportable_acts _ _ _ Ha Hw) as Hr. apply acts_dropped in Ha as [l Hl]. rewrite Hd in Hl.
  rewrite report_one_fst. unfold report_one, mbind, R_bind.
  destruct (onError strategy s w) as [w1 [[]|e]]; [|done]. destruct w1 as [m k c]. unfold reportable in *. simpl in *.
  destruct Hi as [H1 H2 H3 H4 H5 H6 H7 H8]. simpl in *. rewrite Hl in *. simpl in *.
  apply NoDup_cons in H4 as [Hs H4]. assert (s ∈ k_open k) as Ho by (rewrite H6; set_solver).
  destruct (socket_close_open s k Ho) as [E1 E2]. split; [|intros _; split; [lia | by exists l]]. split; simpl; rewrite ?Hl; simpl; try done.
  - intros s' Hs'. apply H3. by right.
  - intros s' Hs'. destruct (H5 s' Hs') as (?&?&?). set_solver.
  - rewrite E1, H6. assert (s ∈ s :: rest ++ l) as Hin by left. destruct (H3 s Hin) as [Hc Hr'].
    assert (s ∉ given) as Hg by (intros Hg%H5; tauto). apply set_eq. intros x.
    rewrite elem_of_difference, !elem_of_union, elem_of_singleton, !elem_of_list_to_set.
    destruct (decide (x = s)) as [ ->|Hne]; [tauto|]. tauto.
  - congruence.
Qed.

Lemma report_dropped_unfold fuel w :
  report_dropped strategy (S fuel) w =
  match m_dropped (w_mon w) with
  | [] => (w, Ok ())
  | s :: _ => match report_one strategy s w with (w, Ok _) => report_dropped strategy fuel w | (w, Throw e) => (w, Throw e) end
  end.
Proof. simpl. unfold mbind, R_bind, gets. destruct (m_dropped (w_mon w)); [done|]. by destruct (report_one strategy z w) as [w1 [[]|e]]. Qed.

Lemma report_dropped_inv given fuel : preserves (mon_inv given) (report_dropped strategy fuel).
Proof.
  induction fuel as [|fuel IH]; intros w Hw; [done|]. rewrite report_dropped_unfold. destruct (m_dropped (w_mon w)) as [|s rest] eqn:E; [done|].
  destruct (report_one_inv _ _ _ _ Hw E) as [H1 _]. destruct (report_one strategy s w) as [w1 [[]|e]]; [by apply IH | done].
Qed.

(** ** One block *)

Lemma does_preserves {X} given opens (m : R C X) : does opens m -> preserves (mon_inv given) m.
Proof. intros Hm w Hw. eapply mon_inv_acts; [apply Hm | done]. Qed.

Lemma process_one_inv given p : preserves (mon_inv given) (process_one strategy p).
Proof.
  unfold process_one. repeat (apply preserves_bind; [apply preserves_when | intros _]); [| |apply preserves_when].
  - intros w Hw. unfold processRead, mbind, R_bind, gets. destruct (_ =? _); [|by apply (does_preserves given true _ (law_onEvent p.1))].
    unfold on_mon, take_signal. destruct (pipe (w_mon w)) as [|socket rest];
      [apply (mon_inv_addWrite given 0 (set_mon (with_pipe []) w)) | apply (mon_inv_addWrite given socket (set_mon (with_pipe rest) w))];
      by (eapply mon_inv_ext; [..|exact Hw]).
  - intros w Hw. unfold processWrite, mbind, R_bind, gets. case_bool_decide as Hc; [|by apply (does_preserves given true _ (law_onWrite p.1))].
    apply (does_preserves given true _ (law_onConnect p.1)). by apply mon_inv_connected.
  - eapply does_preserves, law_onError.
Qed.

Lemma processPollList_inv given pfds : preserves (mon_inv given) (processPollList strategy pfds).
Proof. induction pfds as [|p pfds IH]; [by intros w Hw|]. simpl. apply preserves_bind; [apply process_one_inv | intros _; exact IH]. Qed.

Lemma getTimeval_inv given poll : preserves (mon_inv given) (getTimeval poll).
Proof.
  intros w Hw. unfold getTimeval, mbind, R_bind, gets. destruct poll; [done|]. destruct (_ =? 0); [done|].
  unfold on_kernel, on_mon, getTimeval_at. simpl. destruct (_ || _); by (eapply mon_inv_ext; [..|exact Hw]).
Qed.

Lemma poll_loop_inv given fuel poll : preserves (mon_inv given) (poll_loop fuel poll).
Proof.
  assert (preserves (mon_inv given) (on_kernel socket_poll)) as Hp.
  { intros w Hw. unfold on_kernel. pose proof (socket_poll_open (w_kernel w)) as [E1 E2]. destruct (socket_poll (w_kernel w)) as [a k].
    by eapply mon_inv_ext; [..|exact Hw]. }
  induction fuel as [|fuel IH]; simpl; (apply preserves_bind; [apply getTimeval_inv | intros _]);
    (apply preserves_bind; [exact Hp | intros []]); (apply IH || by intros w Hw).
Qed.

(** Waiting in [poll] moves no socket. *)
Record same_sockets (w w' : World C) : Prop := {
  ss_client : w_client w' = w_client w;
  ss_connect : m_connectSockets (w_mon w') = m_connectSockets (w_mon w);
  ss_read : m_readSockets (w_mon w') = m_readSockets (w_mon w);
  ss_dropped : m_dropped (w_mon w') = m_dropped (w_mon w);
  ss_open : k_open (w_kernel w') = k_open (w_kernel w)
}.

Lemma same_sockets_trans w1 w2 w3 : same_sockets w1 w2 -> same_sockets w2 w3 -> same_sockets w1 w3.
Proof. intros [A1 A2 A3 A4 A5] [B1 B2 B3 B4 B5]. split; congruence. Qed.

Lemma getTimeval_same poll w : same_sockets w (getTimeval poll w).1.
Proof.
  unfold getTimeval, mbind, R_bind, gets. destruct poll; [done|]. destruct (_ =? 0); [done|].
  unfold on_kernel, on_mon, getTimeval_at. simpl. by destruct (_ || _).
Qed.

Lemma poll_loop_same fuel poll : forall w, same_sockets w (poll_loop fuel poll w).1.
Proof.
  assert (forall w : World C, same_sockets w (on_kernel socket_poll w).1) as Hp.
  { intros w. unfold on_kernel, socket_poll. by destruct (k_polls (w_kernel w)). }
  induction fuel as [|fuel IH]; intros w; simpl; unfold mbind, R_bind; pose proof (getTimeval_same poll w) as H1;
    destruct (getTimeval poll w) as [w1 [x|e]]; try done; specialize (Hp w1); destruct (on_kernel socket_poll w1) as [w2 [[| |l]|e]]; simpl in *;
    try (by eapply same_sockets_trans).
  eapply same_sockets_trans; [exact H1|]. eapply same_sockets_trans; [exact Hp | apply IH].
Qed.

Lemma block_inv given drops poll : preserves (mon_inv given) (block strategy drops poll).
Proof.
  unfold block. apply preserves_bind; [intros w Hw; by eapply mon_inv_ext; [..|exact Hw]|]. intros _.
  apply preserves_bind; [by intros w Hw|]. intros m. destruct (m_dropped m) as [|s rest]; [|apply report_dropped_inv].
  destruct (sleepIfEmpty poll m); [eapply does_preserves, law_onTimeout|].
  apply preserves_bind; [by intros w Hw|]. intros fuel. apply preserves_bind; [apply poll_loop_inv|].
  intros [| |l]; try (eapply does_preserves, law_onErrors). simpl.
  destruct (existsb _ _); [apply processPollList_inv | eapply does_preserves, law_onTimeout].
Qed.

(** [EINTR] is answered by another [poll] until there is another answer. *)
Lemma poll_loop_answers fuel poll w :
  (length (k_polls (w_kernel w)) <= fuel)%nat -> exists w' answer, poll_loop fuel poll w = (w', Ok answer) /\ answer <> PollInterrupted.
Proof.
  assert (forall w, exists w' x, getTimeval poll w = (w', Ok x) /\ k_polls (w_kernel w') = k_polls (w_kernel w)) as Ht.
  { intros w0. unfold getTimeval, mbind, R_bind, gets. destruct poll; [by eexists _, _|]. destruct (_ =? 0); [by eexists _, _|].
    unfold on_kernel, on_mon, getTimeval_at. simpl. destruct (_ || _); by eexists _, _. }
  revert w. induction fuel as [|fuel IH]; intros w Hf; simpl; unfold mbind, R_bind;
    destruct (Ht w) as (w1 & x & -> & Ek); unfold on_kernel, socket_poll; destruct (k_polls (w_kernel w1)) as [|[] polls] eqn:E;
    try (eexists _, _; split; [reflexivity | done]).
  - rewrite <- Ek in Hf. simpl in Hf. lia.
  - apply IH. simpl. rewrite <- Ek in Hf. simpl in Hf. lia.
Qed.

(** ** Each drop is reported once *)

(** [s] is left the queue of drops and is closed, and nothing else. *)
Definition closes (s : Z) (w w' : World C) : Prop :=
  m_dropped (w_mon w') = tail (m_dropped (w_mon w)) /\ k_open (w_kernel w') = k_open (w_kernel w) ∖ {[s]} /\
  k_closed_twice (w_kernel w') = k_closed_twice (w_kernel w) /\ w_client w' = w_client w /\
  m_connectSockets (w_mon w') = m_connectSockets (w_mon w) /\ m_readSockets (w_mon w') = m_readSockets (w_mon w) /\
  m_writeSockets (w_mon w') = m_writeSockets (w_mon w).

(** The sockets [L] are reported from [w] to [w'], one after the other: each is first in
    the queue and open when its report starts and when it ends, and then closed; a report
    that throws is the last. *)
Inductive reports : list Z -> World C -> World C -> result unit -> Prop :=
| reports_none w : m_dropped (w_mon w) = [] -> reports [] w w (Ok ())
| reports_throws s w w' e :
    head (m_dropped (w_mon w)) = Some s -> s ∈ k_open (w_kernel w) -> onError strategy s w = (w', Throw e) ->
    s ∈ k_open (w_kernel w') -> reports [s] w w' (Throw e)
| reports_next s L w w1 w2 w' r :
    head (m_dropped (w_mon w)) = Some s -> s ∈ k_open (w_kernel w) -> onError strategy s w = (w1, Ok ()) ->
    s ∈ k_open (w_kernel w1) -> closes s w1 w2 -> reports L w2 w' r -> reports (s :: L) w w' r.

Lemma reports_left L w w' r : reports L w w' r -> r = Ok () -> m_dropped (w_mon w') = [].
Proof. induction 1; [done | done | auto]. Qed.

Lemma dropped_open given s w : mon_inv given w -> s ∈ m_dropped (w_mon w) -> s ∈ k_open (w_kernel w).
Proof. intros Hw Hs. rewrite (inv_open _ _ Hw). apply elem_of_union_r. by apply elem_of_list_to_set. Qed.

(** One report, of the first in the queue. *)
Lemma report_one_reports given s rest w :
  mon_inv given w -> m_dropped (w_mon w) = s :: rest ->
  match report_one strategy s w with
  | (w2, Ok _) => forall L w' r, reports L w2 w' r -> reports (s :: L) w w' r
  | (w1, Throw e) => reports [s] w w1 (Throw e)
  end.
Proof.
  intros Hw Hd. pose proof (law_onError s w) as Ha. pose proof (mon_inv_acts given _ _ _ Ha Hw) as Hi.
  apply acts_dropped in Ha as [l Hl]. rewrite Hd in Hl.
  assert (s ∈ k_open (w_kernel w)) as Ho by (eapply dropped_open; [exact Hw | rewrite Hd; left]).
  assert (s ∈ k_open (w_kernel (onError strategy s w).1)) as Ho1 by (eapply dropped_open; [exact Hi | rewrite Hl; left]).
  assert (head (m_dropped (w_mon w)) = Some s) as Hh by by rewrite Hd.
  unfold report_one, mbind, R_bind. destruct (onError strategy s w) as [w1 [[]|e]] eqn:E; simpl in Ho1; [|by eapply reports_throws].
  destruct (socket_close_open s (w_kernel w1) Ho1) as [E1 E2]. intros L w' r. by eapply reports_next.
Qed.

(** The monitor knows nothing of a socket. *)
Definition unknown (s : Z) (w : World C) : Prop :=
  (s ∉ m_connectSockets (w_mon w)) /\ (s ∉ m_readSockets (w_mon w)) /\ (s ∉ m_dropped (w_mon w)).

Lemma unknown_drop given s s' w : mon_inv given w -> unknown s w -> unknown s (set_mon (fun m => (mon_drop s' m).2) w).
Proof.
  intros Hw (H1 & H2 & H3). unfold unknown, mon_drop, set_mon. simpl. destruct (registered (w_mon w) s') eqn:E; [|done]. simpl.
  unfold registered in E. rewrite !orb_true_iff, !bool_decide_eq_true in E. pose proof (inv_write _ _ Hw) as Hwr.
  split_and!; [set_solver..|]. rewrite elem_of_app, list_elem_of_singleton. intros [?| ->]; [done | set_solver].
Qed.

Lemma unknown_acts given s w w' : acts false w w' -> mon_inv given w -> unknown s w -> unknown s w'.
Proof.
  induction 1 as [w|w1 w2 w3 Hact _ IH]; [done|]. intros Hw Hs. apply IH; [by eapply mon_inv_action|].
  clear IH. destruct Hact as [f w|w s' k E _ _|w s' k E _ _|w s' k _ _|s' w|s' w|s' w|s' w|s' w|s' data w|size w|w]; try done.
  - unfold unknown, addWrite, set_mon. simpl. by repeat (case_bool_decide; simpl).
  - by eapply unknown_drop.
  - unfold drop_outside. destruct (m_owner (w_mon w)) eqn:E; [by unfold unknown, set_mon; simpl; rewrite ?E|].
    eapply (unknown_drop given s s') in Hs; [|done]. unfold set_mon in *. simpl in *. by rewrite E.
Qed.

Lemma unknown_report given s s' rest w :
  mon_inv given w -> m_dropped (w_mon w) = s' :: rest -> unknown s w -> unknown s (report_one strategy s' w).1.
Proof.
  intros Hw Hd Hs. pose proof (law_onError s' w) as Ha. pose proof (unknown_acts given s _ _ Ha Hw Hs) as (H1 & H2 & H3).
  rewrite report_one_fst. destruct (onError strategy s' w) as [w1 [[]|e]]; [|done]. unfold unknown. simpl. split_and!; [done..|].
  intros Hin. apply H3. simpl. destruct (m_dropped (w_mon w1)); [done | by right].
Qed.

Lemma reported_unknown given s rest w :
  mon_inv given w -> m_dropped (w_mon w) = s :: rest -> (report_one strategy s w).2 = Ok () -> unknown s (report_one strategy s w).1.
Proof.
  intros Hw Hd. pose proof (law_onError s w) as Ha. pose proof (mon_inv_acts given _ _ _ Ha Hw) as Hi.
  apply acts_dropped in Ha as [l Hl]. rewrite Hd in Hl. rewrite report_one_fst. unfold report_one, mbind, R_bind.
  destruct (onError strategy s w) as [w1 [[]|e]]; [|done]. intros _. unfold unknown. simpl in *. rewrite Hl. simpl.
  destruct (inv_dropped _ _ Hi s) as [? ?]; [simpl; rewrite Hl; left|]. pose proof (inv_nodup _ _ Hi) as Hn. simpl in Hn. rewrite Hl in Hn.
  by apply NoDup_cons in Hn as [? _].
Qed.

Lemma report_dropped_once given fuel w X :
  mon_inv given w -> (reportable w < fuel)%nat -> Forall (fun s => unknown s w) X ->
  exists L, reports L w (report_dropped strategy fuel w).1 (report_dropped strategy fuel w).2 /\ NoDup L /\ Forall (fun s => s ∉ X) L /\
    ((report_dropped strategy fuel w).2 = Ok () -> m_dropped (w_mon w) `prefix_of` L).
Proof.
  revert w X. induction fuel as [|fuel IH]; intros w X Hw Hf HX; [lia|]. rewrite report_dropped_unfold. destruct (m_dropped (w_mon w)) as [|s rest] eqn:E.
  - exists []. split_and!; [by apply reports_none | constructor | constructor|]. intros _. done.
  - assert (s ∉ X) as HsX.
    { intros Hs. rewrite Forall_forall in HX. destruct (HX s Hs) as (_ & _ & Hno). apply Hno. rewrite E. left. }
    destruct (report_one_inv _ _ _ _ Hw E) as [H1 H2]. pose proof (reported_unknown _ _ _ _ Hw E) as H3.
    pose proof (report_one_reports _ _ _ _ Hw E) as Hrep.
    assert (Forall (fun s' => unknown s' (report_one strategy s w).1) X) as H4.
    { eapply Forall_impl; [exact HX|]. intros s' Hs'. by eapply unknown_report. }
    destruct (report_one strategy s w) as [w1 [[]|e]]; simpl in *.
    + destruct (H2 eq_refl) as [H5 [l Hl]]. specialize (H3 eq_refl).
      destruct (IH w1 (s :: X) H1 ltac:(lia)) as (L & EL & Hn & HL & Hp); [by constructor|].
      exists (s :: L). split_and!.
      * by apply Hrep.
      * apply NoDup_cons. split; [|done]. intros Hin. rewrite Forall_forall in HL. apply (HL s Hin). left.
      * constructor; [done|]. eapply Forall_impl; [exact HL|]. intros s' Hs' ?. apply Hs'. by right.
      * intros Hok. apply prefix_cons. etransitivity; [|exact (Hp Hok)]. rewrite Hl. by exists l.
    + exists [s]. split_and!; [done | apply NoDup_singleton | by repeat constructor | done].
Qed.

(** ** Runs *)

(** What happens to a monitor: blocks, and what the rest of the code does between them. *)
Inductive mon_run : World C -> World C -> Prop :=
| run_start w : mon_run w w
| run_block w w' drops poll : mon_run w w' -> mon_run w (block strategy drops poll w').1
| run_acts w w' w'' : mon_run w w' -> acts true w' w'' -> mon_run w w''.

Lemma mon_inv_run given w w' : mon_run w w' -> mon_inv given w -> mon_inv given w'.
Proof.
  induction 1 as [w|w w1 drops poll _ IH|w w1 w2 _ IH Ha]; [done | |]; intros Hw; specialize (IH Hw); [by apply block_inv | by eapply mon_inv_acts].
Qed.
End Laws.

(** ** Destruction *)

(** Closing different open descriptors. *)
Lemma close_all l k :
  NoDup l -> (forall s, s ∈ l -> s ∈ k_open k) ->
  k_open (fold_left (fun k s => socket_close s k) l k) = k_open k ∖ list_to_set l /\
  k_closed_twice (fold_left (fun k s => socket_close s k) l k) = k_closed_twice k.
Proof.
  revert k. induction l as [|s l IH]; intros k Hn Ho; [simpl; split; [set_solver | done]|].
  apply NoDup_cons in Hn as [Hs Hn]. destruct (socket_close_open s k) as [E1 E2]; [apply Ho; left|]. simpl.
  destruct (IH (socket_close s k)) as [E3 E4]; [done | |rewrite E3, E4, E1; split; [set_solver | done]].
  intros s' Hs'. rewrite E1. assert (s' ∈ k_open k) by (apply Ho; by right). set_solver.
Qed.

Lemma close_unread (X : gset Z) l k :
  (forall s, s ∈ l -> s ∉ X) ->
  fold_left (fun k s => if bool_decide (s ∈ X) then k else socket_close s k) l k = fold_left (fun k s => socket_close s k) l k.
Proof.
  revert k. induction l as [|s l IH]; intros k Hl; [done|]. simpl. rewrite bool_decide_eq_false_2 by (apply Hl; left).
  apply IH. intros s' Hs'. apply Hl. by right.
Qed.

Lemma destroy_inv {C} sg given (w : World C) :
  mon_inv sg given w ->
  let k := destroy_SocketMonitor (w_mon w) (w_kernel w) in k_open k = given ∖ {[sg]} /\ k_closed_twice k = [].
Proof.
  intros [H1 H2 H3 H4 H5 H6 H7 [Hsg H8]]. destruct w as [m k c]. unfold destroy_SocketMonitor. simpl in *. rewrite Hsg.
  assert (forall X, list_to_set (ascending X) =@{gset Z} X) as Hasc.
  { intros X. apply set_eq. intros x. by rewrite elem_of_list_to_set, elem_of_ascending. }
  rewrite close_unread. 2: { intros s Hs%elem_of_ascending. set_solver. }
  destruct (close_all (ascending (m_readSockets m)) k) as [E1 E2]; [apply NoDup_ascending | intros s Hs%elem_of_ascending; set_solver|].
  set (k1 := fold_left _ (ascending (m_readSockets m)) k) in *. rewrite Hasc in E1.
  destruct (close_all (ascending (m_connectSockets m)) k1) as [E3 E4]; [apply NoDup_ascending | intros s Hs%elem_of_ascending; set_solver|].
  set (k2 := fold_left _ (ascending (m_connectSockets m)) k1) in *. rewrite Hasc in E3.
  destruct (close_all (m_dropped m) k2) as [E5 E6]; [done | intros s Hs; destruct (H3 s Hs); set_solver|].
  set (k3 := fold_left _ (m_dropped m) k2) in *. destruct (H5 _ H8) as (Ha & Hb & Hc).
  assert (k_open k3 = given) as Eg.
  { rewrite E5, E3, E1, H6. apply set_eq. intros x. rewrite !elem_of_difference, !elem_of_union, elem_of_list_to_set.
    split; [tauto|]. intros Hx. destruct (H5 x Hx). tauto. }
  destruct (socket_close_open sg k3) as [E7 E8]; [by rewrite Eg|]. rewrite E7, Eg, E8, E6, E4, E2. done.
Qed.

(** ** Properties *)

(** A monitor just made, with its two descriptors. *)
Definition start_world {C} (timeout ticks sg it : Z) (k : Kernel) (c : C) : World C :=
  mkWorld (new_SocketMonitor timeout ticks sg it) k c.

Lemma start_inv {C} timeout ticks sg it k (c : C) :
  sg <> it -> sg ∈ k_open k -> it ∈ k_open k -> k_closed_twice k = [] -> mon_inv sg (k_open k ∖ {[it]}) (start_world timeout ticks sg it k c).
Proof.
  intros Hne H1 H2 H3. split; simpl; [set_solver | set_solver | by intros s ?%elem_of_nil | constructor | | | done | set_solver].
  - intros s Hs. split_and!; [set_solver | set_solver | by intros ?%elem_of_nil].
  - apply set_eq. intros x. rewrite !elem_of_union, elem_of_difference, elem_of_singleton. destruct (decide (x = it)); set_solver.
Qed.

(** C28 A block that finds dropped sockets reports each of them, and those dropped
    meanwhile, once and in the order they were dropped. A socket is open while its report
    runs and closed when the report is out; a report that throws ends the block, and
    otherwise no drop is left. *)
Theorem drops_reported_once {C} `{Clocks} (strategy : Strategy (C := C)) `{!Lawful strategy} sg given drops poll w :
  mon_inv sg given w -> m_dropped (w_mon w) <> [] -> (reportable w < drops)%nat ->
  exists L, let '(w', r) := block strategy drops poll w in
    reports strategy L (set_mon with_owner w) w' r /\ NoDup L /\
    (r = Ok () -> m_dropped (w_mon w) `prefix_of` L /\ m_dropped (w_mon w') = []).
Proof.
  intros Hw Hd Hf. assert (mon_inv sg given (set_mon with_owner w)) as Ho by by eapply mon_inv_ext; [..|exact Hw].
  destruct (report_dropped_once sg strategy given drops _ [] Ho Hf (List.Forall_nil _)) as (L & E & Hn & _ & HL).
  exists L. assert (block strategy drops poll w = report_dropped strategy drops (set_mon with_owner w)) as ->.
  { unfold block, mbind, R_bind, on_mon, gets. simpl. by destruct (m_dropped (w_mon w)). }
  destruct (report_dropped strategy drops (set_mon with_owner w)) as [w' r]. simpl in *.
  split_and!; [done | done|]. intros Hok. split; [by apply HL | by eapply reports_left].
Qed.

(** A strategy that looks at nothing, with two sockets dropped. *)
Definition ex_strategy : Strategy (C := unit) :=
  mkStrategy (fun _ => mret ()) (fun _ => mret ()) (fun _ => mret ()) (fun _ => mret ()) (mret ()) (mret ()).

#[local] Instance ex_lawful : Lawful ex_strategy.
Proof. split; intros; intros w; apply rtc_refl. Qed.

#[local] Instance ex_clocks : Clocks := {
  monotonicMillis n := 1000 * Z.of_nat n;
  time_ n := Z.of_nat n;
  utc_now n := mkDateTime 2451545 (Z.of_nat n * 1000000000)
}.

Definition ex_dropped : World unit :=
  mkWorld (mkMonitor 1 0 3 4 ∅ {[4]} ∅ [8; 7] true []) (mkKernel {[3; 4; 7; 8]} [] [] [] [] [] 0 []) tt.

Lemma drops_reported_once_witness :
  k_open (w_kernel (block ex_strategy 4 false ex_dropped).1) = {[3; 4]} /\
  exists L, let '(w', r) := block ex_strategy 4 false ex_dropped in
    reports ex_strategy L (set_mon with_owner ex_dropped) w' r /\ NoDup L /\
    (r = Ok () -> [8; 7] `prefix_of` L /\ m_dropped (w_mon w') = []).
Proof.
  split; [by vm_compute|].
  apply (drops_reported_once ex_strategy 3 {[3]} 4 false ex_dropped); [|done|vm_compute; lia].
  split; simpl.
  - set_solver.
  - set_solver.
  - intros s. set_solver.
  - by apply (bool_decide_unpack _).
  - intros s. set_solver.
  - set_solver.
  - done.
  - set_solver.
Defined.
