(* ===== verification/Connection.v ===== *)
(** * A connection's sending side ([src/C++/SocketConnection.h], [SocketConnection.cpp])

    [send] writes what the socket takes and queues the rest; the queue is written
    when the monitor finds the socket writable. The functions are on a connection
    and the system; that the monitor is to be signalled is part of the result. *)
From S2P Require Import Prelude Convertors DateTime Parser Sockets Monitor.

Record SocketConnection := mkConnection {
  c_socket : Z;
  c_parser : Parser;
  c_sendQueue : list str;
  c_sendLength : nat;
  c_sessions : gset str;           (* the sessions it may be for, by their strings *)
  c_session : option str;          (* [m_pSession] *)
  c_setupStartTime : Z
}.

Definition with_queue (queue : list str) (len : nat) (c : SocketConnection) : SocketConnection :=
  mkConnection (c_socket c) (c_parser c) queue len (c_sessions c) (c_session c) (c_setupStartTime c).
Definition with_parser (p : Parser) (c : SocketConnection) : SocketConnection :=
  mkConnection (c_socket c) p (c_sendQueue c) (c_sendLength c) (c_sessions c) (c_session c) (c_setupStartTime c).
Definition with_session (session : option str) (c : SocketConnection) : SocketConnection :=
  mkConnection (c_socket c) (c_parser c) (c_sendQueue c) (c_sendLength c) (c_sessions c) session (c_setupStartTime c).

(** The two constructors, of an accepted connection and of one for a session. *)
Definition accepted_connection (s : Z) (sessions : gset str) (now : Z) : SocketConnection :=
  mkConnection s new_Parser [] 0 sessions None now.
Definition initiated_connection (s : Z) (sessionID : str) (session : option str) (now : Z) : SocketConnection :=
  mkConnection s new_Parser [] 0 {[sessionID]} session now.

Definition getSecondsFromSetupStart (now : Z) (c : SocketConnection) : Z := i32 (now - c_setupStartTime c).

(** The loop of [processQueue]: whether the queue is empty, and what is left. *)
Fixpoint process_queue (s : Z) (len : nat) (queue : list str) (k : Kernel) : bool * (list str * nat) * Kernel :=
  match queue with
  | [] => (true, ([], len), k)
  | msg :: rest =>
      let '(result, k) := socket_send s (drop len msg) k in
      if result <=? 0 then (false, (queue, len), k)
      else
        let len := (len + Z.to_nat result)%nat in
        if (len <? length msg)%nat then (false, (queue, len), k)
        else process_queue s 0 rest k
  end.

Definition processQueue (c : SocketConnection) (k : Kernel) : bool * SocketConnection * Kernel :=
  let '(done, (queue, len), k) := process_queue (c_socket c) (c_sendLength c) (c_sendQueue c) k in
  (done, with_queue queue len c, k).

(** [signal()] signals the monitor when one message waits. *)
Definition to_signal (c : SocketConnection) : bool := (length (c_sendQueue c) =? 1)%nat.

(** [send(message)]: whether the monitor is signalled, the connection, the system. *)
Definition conn_send (message : str) (c : SocketConnection) (k : Kernel) : bool * SocketConnection * Kernel :=
  match c_sendQueue c with
  | [] =>
      let '(result, k) := socket_send (c_socket c) message k in
      let sent := if 0 <? result then Z.to_nat result else 0%nat in
      if (sent =? length message)%nat then (false, c, k)
      else let c := with_queue [drop sent message] 0 c in (to_signal c, c, k)
  | queue =>
      let '(_, c, k) := processQueue (with_queue (queue ++ [message]) (c_sendLength c) c) k in
      (to_signal c, c, k)
  end.

(** [unsignal()] when nothing waits. *)
Definition to_unsignal (c : SocketConnection) : bool := (length (c_sendQueue c) =? 0)%nat.

(** ** What is on its way *)

(** What was taken on a socket, and what waits in a connection. *)
Definition taken (s : Z) (k : Kernel) : str := concat (map (fun p => if p.1 =? s then p.2 else []) (k_sent k)).
Definition waiting (c : SocketConnection) : str := drop (c_sendLength c) (concat (c_sendQueue c)).

(** The part written is of the first message, which is not written whole. *)
Definition queue_ok (c : SocketConnection) : Prop :=
  match c_sendQueue c with
  | [] => c_sendLength c = 0%nat
  | msg :: _ => (c_sendLength c <= length msg)%nat
  end.

Lemma taken_send s data k :
  let '(result, k') := socket_send s data k in taken s k' = taken s k ++ take (Z.to_nat result) data.
Proof.
  pose proof (socket_send_spec s data k) as H. destruct (socket_send s data k) as [result k']. destruct H as [_ H].
  unfold taken. rewrite H, map_app, concat_app. simpl. by rewrite Z.eqb_refl, app_nil_r.
Qed.

Lemma taken_other s s' data k : s <> s' -> taken s (socket_send s' data k).2 = taken s k.
Proof.
  intros Hne. pose proof (socket_send_spec s' data k) as H. destruct (socket_send s' data k) as [result k']. destruct H as [_ H].
  unfold taken. simpl. rewrite H, map_app, concat_app. simpl. rewrite (proj2 (Z.eqb_neq s' s)) by congruence. by rewrite !app_nil_r.
Qed.

(** Writing from the queue moves its front to the system. *)
Lemma process_queue_spec s queue len k :
  match queue with [] => len = 0%nat | msg :: _ => (len <= length msg)%nat end ->
  let '(done, (queue', len'), k') := process_queue s len queue k in
  taken s k' ++ drop len' (concat queue') = taken s k ++ drop len (concat queue) /\
  match queue' with [] => len' = 0%nat | msg :: _ => (len' <= length msg)%nat end /\ (done = true <-> queue' = []).
Proof.
  revert len k. induction queue as [|msg rest IH]; intros len k Hlen; [simpl; subst; done|].
  cbn [process_queue]. pose proof (taken_send s (drop len msg) k) as Ht. pose proof (socket_send_spec s (drop len msg) k) as Hr.
  destruct (socket_send s (drop len msg) k) as [result k1]. destruct Hr as [Hr _]. rewrite length_drop in Hr.
  assert (drop len (concat (msg :: rest)) = drop len msg ++ concat rest) as Ec by (simpl; by rewrite drop_app_le).
  destruct (Z.leb_spec result 0).
  - rewrite Ht. replace (Z.to_nat result) with 0%nat by lia. rewrite take_0, app_nil_r. done.
  - destruct (Nat.ltb_spec (len + Z.to_nat result) (length msg)).
    + rewrite Ht, Ec. split_and!; [|lia|done]. simpl. rewrite drop_app_le by lia.
      rewrite <- app_assoc. f_equal. rewrite app_assoc. f_equal. rewrite <- drop_drop. apply take_drop.
    + specialize (IH 0%nat k1). destruct (process_queue s 0 rest k1) as [[done [queue' len']] k'].
      destruct IH as (H1 & H2 & H3); [destruct rest; lia|]. split_and!; [|done|done]. rewrite H1, Ht, Ec, drop_0, <- app_assoc. do 2 f_equal.
      rewrite take_ge; [done|]. rewrite length_drop. lia.
Qed.

Lemma processQueue_spec c k :
  queue_ok c ->
  let '(done, c', k') := processQueue c k in
  taken (c_socket c) k' ++ waiting c' = taken (c_socket c) k ++ waiting c /\ queue_ok c' /\ c_socket c' = c_socket c /\
  (done = true <-> c_sendQueue c' = []).
Proof.
  intros Hc. unfold processQueue, waiting. pose proof (process_queue_spec (c_socket c) (c_sendQueue c) (c_sendLength c) k Hc) as H.
  destruct (process_queue _ _ _ _) as [[done [queue len]] k']. destruct H as (H1 & H2 & H3). done.
Qed.

Lemma conn_send_spec m c k :
  queue_ok c ->
  let '(signalled, c', k') := conn_send m c k in
  taken (c_socket c) k' ++ waiting c' = (taken (c_socket c) k ++ waiting c) ++ m /\ queue_ok c' /\ c_socket c' = c_socket c /\
  (c_sendQueue c = [] -> c_sendQueue c' <> [] -> signalled = true).
Proof.
  intros Hc. unfold conn_send. destruct (c_sendQueue c) as [|msg rest] eqn:Eq.
  - unfold queue_ok in Hc. rewrite Eq in Hc. pose proof (taken_send (c_socket c) m k) as Ht. pose proof (socket_send_spec (c_socket c) m k) as Hr.
    destruct (socket_send (c_socket c) m k) as [result k1]. destruct Hr as [Hr _].
    assert (waiting c = []) as Ew by (unfold waiting; by rewrite Eq, Hc). rewrite Ew, app_nil_r.
    assert ((if 0 <? result then Z.to_nat result else 0%nat) = Z.to_nat result) as -> by (case_bool; lia).
    destruct (Nat.eqb_spec (Z.to_nat result) (length m)) as [El|El].
    + rewrite Ht, El, firstn_all, Ew, app_nil_r. split_and!; [done | unfold queue_ok; by rewrite Eq | done | congruence].
    + rewrite Ht. split_and!; [|simpl; unfold queue_ok; simpl; lia | done | done]. unfold waiting. simpl.
      by rewrite app_nil_r, drop_0, <- app_assoc, take_drop.
  - set (c1 := with_queue ((msg :: rest) ++ [m]) (c_sendLength c) c). unfold queue_ok in Hc. rewrite Eq in Hc.
    pose proof (processQueue_spec c1 k Hc) as H. destruct (processQueue c1 k) as [[done c'] k']. destruct H as (H1 & H2 & H3 & _).
    split_and!; [|done|done|done]. change (c_socket c1) with (c_socket c) in H1. rewrite H1, <- app_assoc.
    assert (waiting c1 = waiting c ++ m) as ->; [|done]. unfold waiting. rewrite Eq. unfold c1. cbn [c_sendQueue c_sendLength with_queue].
    rewrite concat_app. cbn [concat]. rewrite app_nil_r, drop_app_le by (rewrite length_app; lia). done.
Qed.

(** ** A connection under its monitor *)

(** What happens to one connection: its session sends, the monitor takes a signal
    from its pipe, or finds the socket writable and the queue is written
    ([onWrite] of the initiator and the acceptor); other sockets are signalled. *)
Inductive conn_event :=
| Sends (message : str)
| TakesSignal
| Writable
| OtherSignal (s : Z).

Definition conn_step (e : conn_event) (st : SocketConnection * SocketMonitor * Kernel) : SocketConnection * SocketMonitor * Kernel :=
  let '(c, m, k) := st in
  match e with
  | Sends message =>
      let '(signalled, c, k) := conn_send message c k in
      (c, if signalled then signal (c_socket c) m else m, k)
  | TakesSignal =>
      match pipe m with
      | [] => (c, m, k)
      | s :: rest => (c, (addWrite s (with_pipe rest m)).2, k)
      end
  | Writable =>
      if bool_decide (c_socket c ∈ m_writeSockets m) then
        let '(done, c, k) := processQueue c k in
        (c, if done && to_unsignal c then unsignal (c_socket c) m else m, k)
      else (c, m, k)
  | OtherSignal s => (c, signal s m, k)
  end.

Definition conn_steps (l : list conn_event) (st : SocketConnection * SocketMonitor * Kernel) : SocketConnection * SocketMonitor * Kernel :=
  fold_left (fun st e => conn_step e st) l st.

Definition messages_of (l : list conn_event) : str := concat (omap (fun e => match e with Sends m => Some m | _ => None end) l).

(** What waits will be written: the monitor watches the socket for that, or will. *)
Definition attended (c : SocketConnection) (m : SocketMonitor) : Prop :=
  c_sendQueue c <> [] -> c_socket c ∈ m_writeSockets m \/ c_socket c ∈ pipe m.

(** Of one event: the bytes, the queue, the attention. *)
Lemma conn_step_spec e c m k c' m' k' :
  queue_ok c -> attended c m -> c_socket c ∈ m_readSockets m -> conn_step e (c, m, k) = (c', m', k') ->
  taken (c_socket c) k' ++ waiting c' = (taken (c_socket c) k ++ waiting c) ++ messages_of [e] /\
  queue_ok c' /\ attended c' m' /\ c_socket c' = c_socket c /\ c_socket c ∈ m_readSockets m'.
Proof.
  intros Hc Ha Hr. destruct e as [message| | |s]; unfold messages_of; simpl; rewrite ?app_nil_r.
  - pose proof (conn_send_spec message c k Hc) as H. destruct (conn_send message c k) as [[signalled c1] k1]. destruct H as (H1 & H2 & H3 & H4).
    intros [= <- <- <-]. split_and!; [done | done | | done | by destruct signalled].
    intros Hne. rewrite H3. destruct (decide (c_sendQueue c = [])) as [E|E]; [rewrite H4 by done; right; simpl; set_solver|].
    destruct (Ha E) as [?|?]; [left | right]; destruct signalled; simpl; set_solver.
  - destruct (pipe m) as [|s rest] eqn:Ep; intros [= <- <- <-]; split_and!; try done.
    + intros Hne. unfold addWrite. simpl. destruct (Ha Hne) as [Hw|Hp].
      * left. do 2 (case_bool_decide; simpl; try done). set_solver.
      * rewrite Ep in Hp. apply elem_of_cons in Hp as [<-|Hp].
        -- left. rewrite bool_decide_eq_true_2 by done. simpl. case_bool_decide; simpl; [done | set_solver].
        -- right. by do 2 (case_bool_decide; simpl; try done).
    + unfold addWrite. simpl. by do 2 (case_bool_decide; simpl; try done).
  - case_bool_decide as Hw; [|intros [= <- <- <-]; done].
    pose proof (processQueue_spec c k Hc) as H. destruct (processQueue c k) as [[done c1] k1]. destruct H as (H1 & H2 & H3 & H4).
    intros [= <- <- <-]. split_and!; [done..| | done |].
    + intros Hne. left. rewrite H3. unfold to_unsignal. destruct (c_sendQueue c1); [done|]. simpl. by rewrite andb_false_r.
    + by destruct (done && to_unsignal c1).
  - intros [= <- <- <-]. split_and!; try done. intros Hne. destruct (Ha Hne); [by left | right; simpl; set_solver].
Qed.

Lemma conn_steps_spec l : forall c m k c' m' k',
  queue_ok c -> attended c m -> c_socket c ∈ m_readSockets m -> conn_steps l (c, m, k) = (c', m', k') ->
  taken (c_socket c) k' ++ waiting c' = (taken (c_socket c) k ++ waiting c) ++ messages_of l /\ attended c' m' /\ queue_ok c'.
Proof.
  induction l as [|e l IH]; intros c m k c' m' k' Hc Ha Hr.
  - unfold conn_steps, messages_of. simpl. intros [= <- <- <-]. by rewrite app_nil_r.
  - change (conn_steps (e :: l) (c, m, k)) with (conn_steps l (conn_step e (c, m, k))). destruct (conn_step e (c, m, k)) as [[c1 m1] k1] eqn:E. intros H.
    destruct (conn_step_spec _ _ _ _ _ _ _ Hc Ha Hr E) as (H1 & H2 & H3 & H4 & H5). rewrite <- H4 in H5.
    destruct (IH _ _ _ _ _ _ H2 H3 H5 H) as (H6 & H7 & H8). split_and!; [|done|done]. rewrite H4, H1 in H6. rewrite H6, <- app_assoc. f_equal.
    unfold messages_of. simpl. by destruct e; simpl; rewrite ?app_nil_r.
Qed.

(** C26 Whatever part of its data each send takes, and however sends, signals and
    writes alternate, what the system took on a new connection's socket followed by
    what waits is the messages sent, in their order; and while something waits the
    monitor watches the socket for writing or is signalled to. *)
Theorem sent_in_order s sessionID session now l m k c' m' k' :
  s ∈ m_readSockets m -> taken s k = [] ->
  conn_steps l (initiated_connection s sessionID session now, m, k) = (c', m', k') ->
  taken s k' ++ waiting c' = messages_of l /\ attended c' m'.
Proof.
  intros Hr Ht Hl. destruct (conn_steps_spec l (initiated_connection s sessionID session now) m k c' m' k') as (H1 & H2 & _); [done | by intros [] | done | done |].
  simpl in H1. by rewrite Ht in H1.
Qed.

(** Five of the first message's six characters are taken and the second waits behind
    it; a write takes what is left of the first and two of the second. *)
Definition ex_sends : list conn_event :=
  [Sends (lit "8=FIX."); Sends (lit "10=001"); TakesSignal; Writable; OtherSignal 9].

Definition ex_monitor : SocketMonitor := mkMonitor 1 0 3 4 ∅ {[4; 7]} ∅ [] true [].
Definition ex_kernel : Kernel := mkKernel {[3; 4; 7]} [] [] [5; -1; 1; 2] [] [] 0 [].

Lemma sent_in_order_witness :
  exists c' m' k', conn_steps ex_sends (initiated_connection 7 (lit "S") None 0, ex_monitor, ex_kernel) = (c', m', k') /\
    waiting c' = lit "=001" /\ taken 7 k' ++ waiting c' = lit "8=FIX.10=001" /\ attended c' m'.
Proof.
  destruct (conn_steps ex_sends (initiated_connection 7 (lit "S") None 0, ex_monitor, ex_kernel)) as [[c' m'] k'] eqn:E.
  exists c', m', k'. split; [done|]. split; [vm_compute in E; by injection E as <- _ _|].
  apply (sent_in_order 7 (lit "S") None 0 ex_sends ex_monitor ex_kernel); [simpl; set_solver | done | done].
Defined.
