(* ===== verification/Engine.v ===== *)
(** * Sessions and connections on a reactor ([src/C++/SocketConnection.h], [SocketConnection.cpp])

    The state the single-threaded transports share, between the monitor and the
    sessions. Sessions are objects with an interface; connections are on a heap, as
    the code has them behind pointers: a pointer that is followed after its
    connection was deleted breaks the engine. A session and its connection point to each
    other, the session to its responder, the connection to its session. *)
From S2P Require Import Prelude DateTime Parser Sockets Monitor Connection.

(** ** What a transport needs of a session *)

(** What a session asks of its responder. *)
Inductive call := CallSend (message : str) | CallDisconnect.

#[export] Instance call_eq_dec : EqDecision call.
Proof. solve_decision. Defined.

(** A call on a session: the session after it, what it asked of its responder, and
    how the call ended. *)
Abbreviation session_call S := (S -> S * list call * result unit).

Class SessionInterface (S : Type) := {
  so_isEnabled : S -> bool;
  so_isLoggedOn : S -> bool;
  so_receivedLogon : S -> bool;
  so_isSessionTime : DateTime -> S -> bool;
  so_hasResponder : S -> bool;
  so_isAcceptor : S -> bool;
  so_getAllowedRemoteAddresses : S -> gset str;
  so_setResponder : session_call S;               (* a responder is given *)
  so_disconnect : session_call S;
  so_next : str -> DateTime -> session_call S;    (* a message *)
  so_timer : DateTime -> session_call S;          (* the timer *)
  so_logon : session_call S;
  so_logout : session_call S
}.

(** Sessions are named by the strings their identifiers are compared by. *)
Record Engine (S : Type) := mkEngine {
  e_sessions : gmap str S;
  e_responder : gmap str nat;              (* [Session::m_pResponder], where it is not null *)
  e_heap : gmap nat SocketConnection;
  e_fresh : nat;                           (* no pointer from here on was given out *)
  e_registered : gset str;                 (* [Session::s_registered] *)
  e_broken : bool                          (* a pointer that is null or dangles was followed *)
}.
Arguments mkEngine {S}.
Arguments e_sessions {S}.
Arguments e_responder {S}.
Arguments e_heap {S}.
Arguments e_fresh {S}.
Arguments e_registered {S}.
Arguments e_broken {S}.

Section Engine.
Context {S T : Type} `{SessionInterface S} `{Clocks}.
Abbreviation R := (R (Engine S * T)).

Definition engine (w : World (Engine S * T)) : Engine S := (w_client w).1.
Definition transport (w : World (Engine S * T)) : T := (w_client w).2.
Definition on_engine (f : Engine S -> Engine S) : R unit := on_client (fun c => (f c.1, c.2)).
Definition on_transport (f : T -> T) : R unit := on_client (fun c => (c.1, f c.2)).

Definition set_sessions (f : gmap str S -> gmap str S) (e : Engine S) : Engine S :=
  mkEngine (f (e_sessions e)) (e_responder e) (e_heap e) (e_fresh e) (e_registered e) (e_broken e).
Definition set_responders (f : gmap str nat -> gmap str nat) (e : Engine S) : Engine S :=
  mkEngine (e_sessions e) (f (e_responder e)) (e_heap e) (e_fresh e) (e_registered e) (e_broken e).
Definition set_heap (f : gmap nat SocketConnection -> gmap nat SocketConnection) (e : Engine S) : Engine S :=
  mkEngine (e_sessions e) (e_responder e) (f (e_heap e)) (e_fresh e) (e_registered e) (e_broken e).
Definition set_registered (f : gset str -> gset str) (e : Engine S) : Engine S :=
  mkEngine (e_sessions e) (e_responder e) (e_heap e) (e_fresh e) (f (e_registered e)) (e_broken e).

(** [UtcTimeStamp::now()] and [::time(0)]. *)
Definition now_utc : R DateTime := n ← on_kernel tick; mret (utc_now n).
Definition now_seconds : R Z := n ← on_kernel tick; mret (time_ n).

(** ** Pointers *)

Definition dangling {X} : R X :=
  _ ← on_engine (fun e => mkEngine (e_sessions e) (e_responder e) (e_heap e) (e_fresh e) (e_registered e) true);
  raise Undefined.

Definition deref (p : nat) : R SocketConnection :=
  o ← gets (fun w => e_heap (engine w) !! p);
  match o with Some c => mret c | None => dangling end.

(** A connection after a change of its members. *)
Definition store (p : nat) (c : SocketConnection) : R unit := on_engine (set_heap (<[p := c]>)).

Definition alloc (c : SocketConnection) : R nat :=
  p ← gets (fun w => e_fresh (engine w));
  _ ← on_engine (fun e => mkEngine (e_sessions e) (e_responder e) (<[p := c]> (e_heap e)) (Datatypes.S p) (e_registered e) (e_broken e));
  mret p.

Definition free (p : nat) : R unit := on_engine (set_heap (delete p)).

(** A session by the pointer a connection has of it. *)
Definition session (id : str) : R S :=
  o ← gets (fun w => e_sessions (engine w) !! id);
  match o with Some s => mret s | None => dangling end.

(** ** The responder *)

(** [SocketMonitor::drop], on the reactor's thread. *)
Definition drop_socket (s : Z) : R bool := on_mon (mon_drop s).

(** [SocketConnection::disconnect]; a connection of these transports has its monitor. *)
Definition connection_disconnect (p : nat) : R unit := c ← deref p; _ ← drop_socket (c_socket c); mret ().

(** [SocketConnection::send] *)
Definition connection_send (p : nat) (message : str) : R unit :=
  c ← deref p;
  '(signalled, c) ← on_kernel (fun k => let '(signalled, c, k) := conn_send message c k in ((signalled, c), k));
  _ ← store p c;
  when signalled (on_mon (fun m => ((), signal (c_socket c) m))).

(** What session [id] asks of its responder, when it has one. *)
Definition run_call (id : str) (c : call) : R unit :=
  o ← gets (fun w => e_responder (engine w) !! id);
  match o with
  | None => mret ()
  | Some p =>
      match c with
      | CallSend message => connection_send p message
      | CallDisconnect =>
          _ ← connection_disconnect p;
          on_engine (set_responders (delete id))
      end
  end.

Fixpoint run_calls (id : str) (l : list call) : R unit :=
  match l with [] => mret () | c :: l => _ ← run_call id c; run_calls id l end.

(** A call on a session: its own state first, then what it asked of its responder,
    which answers it nothing. *)
Definition on_session (id : str) (f : session_call S) : R unit :=
  s ← session id;
  let '(s, calls, r) := f s in
  _ ← on_engine (set_sessions (<[id := s]>));
  _ ← run_calls id calls;
  lift r.

(** [Session::setResponder(&connection)] *)
Definition setResponder (id : str) (p : nat) : R unit :=
  _ ← on_session id so_setResponder;
  on_engine (set_responders (<[id := p]>)).

(** ** Connections *)

Definition BUFSIZ : nat := Z.to_nat 8192.

(** [~SocketConnection] and the end of its storage. *)
Definition delete_connection (p : nat) : R unit :=
  c ← deref p;
  _ ← (match c_session c with
       | Some id => on_engine (set_registered (fun r => r ∖ {[id]}))
       | None => mret ()
       end);
  free p.

Definition readFromSocket (p : nat) : R unit :=
  c ← deref p;
  r ← on_kernel (socket_recv BUFSIZ);
  match r with
  | RecvFailed error => raise (SocketRecvFailed error)
  | RecvData [] => raise (SocketRecvFailed (lit "Connection reset by peer."))
  | RecvData data => parser ← lift (addToStream data (c_parser c)); store p (with_parser parser c)
  end.

(** [readMessage(msg)]: whether to go on, and what [msg] holds. *)
Definition connection_readMessage (p : nat) (msg : str) : R (bool * str) :=
  c ← deref p;
  let '(parser, r) := readMessage (c_parser c) msg in
  _ ← store p (with_parser parser c);
  mret r.

(** One message for the session of a connection, in [readMessages]. *)
Definition hand_over (p : nat) (id message : str) : R unit :=
  now ← now_utc;
  try_catch (on_session id (so_next message now))
    (fun e => match e with
              | InvalidMessage _ =>
                  Some (s ← session id;
                        when (negb (so_isLoggedOn s)) (c ← deref p; _ ← drop_socket (c_socket c); mret ()))
              | _ => None
              end).

Fixpoint readMessages_loop (fuel : nat) (p : nat) (id message : str) : R unit :=
  match fuel with
  | O => raise OutOfFuel
  | Datatypes.S fuel =>
      '(more, message) ← connection_readMessage p message;
      if more : bool then
        _ ← hand_over p id message;
        readMessages_loop fuel p id message
      else mret ()
  end.

(** A pass that goes on shortens the parser's buffer. *)
Definition readMessages (p : nat) : R unit :=
  c ← deref p;
  match c_session c with
  | None => mret ()
  | Some id => readMessages_loop (length (m_buffer (c_parser c)) + 2) p id []
  end.

Definition connection_onTimeout (p : nat) : R unit :=
  c ← deref p;
  match c_session c with
  | None => mret ()
  | Some id => now ← now_utc; on_session id (so_timer now)
  end.

(** [processQueue()], and [unsignal()] when it says that the queue is empty: what
    both transports do when a socket is writable. *)
Definition connection_onWrite (p : nat) : R unit :=
  c ← deref p;
  '(done, c) ← on_kernel (fun k => let '(done, c, k) := processQueue c k in ((done, c), k));
  _ ← store p c;
  when (done && to_unsignal c) (on_mon (fun m => ((), unsignal (c_socket c) m))).
End Engine.
