(* ===== verification/EngineProps.v ===== *)
(** * Pointers between sessions and connections

    What keeps them valid: a session's responder is a live connection of that session.
    A computation is safe when it keeps that and only lets sockets go through the
    monitor's queue of dropped ones; every operation of the shared part is safe. *)
From stdpp Require Import sorting relations.
From S2P Require Import Prelude DateTime Parser Sockets Monitor MonitorProps Connection Engine.

(** ** Sessions that keep their promises *)

(** A call that has no responder asks for none; one that asked for a disconnection
    has given its responder up, and one that did not has kept it. *)
Definition lawful_call {S} `{SessionInterface S} (f : session_call S) : Prop :=
  forall s, let '(s', calls, _) := f s in
    (so_hasResponder s = false -> so_hasResponder s' = false) /\
    (so_hasResponder s = true -> (so_hasResponder s' = false <-> CallDisconnect ∈ calls)).

(** A call that may send; a disconnection is not among what it asks. *)
Definition sends_only {S} `{SessionInterface S} (f : session_call S) : Prop := lawful_call f /\ forall x, CallDisconnect ∉ (f x).1.2.

Class SessionLaws (S : Type) `{SessionInterface S} : Prop := {
  law_disconnect : lawful_call so_disconnect;
  law_disconnected s : so_hasResponder (so_disconnect s).1.1 = false;
  law_next message now : lawful_call (so_next message now);
  law_timer now : lawful_call (so_timer now);
  law_logon : lawful_call so_logon;
  law_logout : lawful_call so_logout;
  (** a responder is set when the call returns, else the call is like the others *)
  law_setResponder s : let '(s', calls, r) := so_setResponder s in
    match r with
    | Ok _ => so_hasResponder s' = true
    | Throw _ =>
        (so_hasResponder s = false -> so_hasResponder s' = false) /\
        (so_hasResponder s = true -> (so_hasResponder s' = false <-> CallDisconnect ∈ calls))
    end
}.

(** ** Pointers *)

(** Two connections with one socket and one session. *)
Definition same_ends (c c' : SocketConnection) : Prop := c_socket c' = c_socket c /\ c_session c' = c_session c.

Section Props.
Context {S T : Type} `{SessionInterface S} `{Clocks}.
Abbreviation W := (World (Engine S * T)).
Abbreviation R := (R (Engine S * T)).
Implicit Types (w : W) (e : Engine S) (id : str) (s : Z) (p : nat).

(** [except] is a session that is between two states. *)
Record engine_ok (except : option str) e : Prop := {
  eo_responder id p : e_responder e !! id = Some p -> exists c, e_heap e !! p = Some c /\ c_session c = Some id;
  eo_session p c id : e_heap e !! p = Some c -> c_session c = Some id -> is_Some (e_sessions e !! id);
  eo_fresh p : is_Some (e_heap e !! p) -> (p < e_fresh e)%nat;
  eo_has id (x : S) : except <> Some id -> e_sessions e !! id = Some x -> (so_hasResponder x = true <-> is_Some (e_responder e !! id));
  eo_broken : e_broken e = false
}.

(** What time does to the engine while no connection comes or goes. *)
Record evolves w w' : Prop := {
  ev_transport : transport w' = transport w;
  ev_heap p : (fun c => (c_socket c, c_session c)) <$> (e_heap (engine w') !! p) = (fun c => (c_socket c, c_session c)) <$> (e_heap (engine w) !! p);
  ev_sessions id : is_Some (e_sessions (engine w') !! id) <-> is_Some (e_sessions (engine w) !! id);
  ev_responder id p : e_responder (engine w') !! id = Some p -> e_responder (engine w) !! id = Some p;
  ev_gone id p c :
    e_responder (engine w) !! id = Some p -> e_responder (engine w') !! id = None -> e_heap (engine w) !! p = Some c ->
    (c_socket c ∉ m_connectSockets (w_mon w')) /\ (c_socket c ∉ m_readSockets (w_mon w'));
  ev_fresh : e_fresh (engine w') = e_fresh (engine w);
  ev_registered : e_registered (engine w') = e_registered (engine w);
  ev_connect : m_connectSockets (w_mon w') ⊆ m_connectSockets (w_mon w);
  ev_read : m_readSockets (w_mon w') ⊆ m_readSockets (w_mon w);
  ev_out s : s ∈ m_connectSockets (w_mon w) \/ s ∈ m_readSockets (w_mon w) ->
    s ∈ m_connectSockets (w_mon w') \/ s ∈ m_readSockets (w_mon w') \/ s ∈ m_dropped (w_mon w');
  ev_dropped s : s ∈ m_dropped (w_mon w) -> s ∈ m_dropped (w_mon w')
}.

Lemma evolves_refl w : evolves w w.
Proof. split; try done; [congruence | tauto]. Qed.

Lemma ev_heap_Some w w' p c :
  evolves w w' -> e_heap (engine w) !! p = Some c -> exists c', e_heap (engine w') !! p = Some c' /\ same_ends c c'.
Proof.
  intros Hev E. pose proof (ev_heap _ _ Hev p) as Hh. rewrite E in Hh. destruct (e_heap (engine w') !! p) as [c'|]; [|done].
  simpl in Hh. exists c'. unfold same_ends. split; [done|]. by injection Hh as -> ->.
Qed.

Lemma ev_heap_back w w' p c' :
  evolves w w' -> e_heap (engine w') !! p = Some c' -> exists c, e_heap (engine w) !! p = Some c /\ same_ends c c'.
Proof.
  intros Hev E. pose proof (ev_heap _ _ Hev p) as Hh. rewrite E in Hh. destruct (e_heap (engine w) !! p) as [c|]; [|done].
  simpl in Hh. exists c. unfold same_ends. split; [done|]. by injection Hh as -> ->.
Qed.

Lemma evolves_trans w1 w2 w3 : evolves w1 w2 -> evolves w2 w3 -> evolves w1 w3.
Proof.
  intros H1 H2. split.
  - by rewrite (ev_transport _ _ H2), (ev_transport _ _ H1).
  - intros p. by rewrite (ev_heap _ _ H2), (ev_heap _ _ H1).
  - intros id. by rewrite (ev_sessions _ _ H2), (ev_sessions _ _ H1).
  - intros id p E. by apply (ev_responder _ _ H1), (ev_responder _ _ H2).
  - intros id p c E1 E3 Ec. destruct (e_responder (engine w2) !! id) as [p'|] eqn:E2.
    + pose proof (ev_responder _ _ H1 _ _ E2) as E1'. rewrite E1 in E1'. injection E1' as <-.
      destruct (ev_heap_Some _ _ _ _ H1 Ec) as (c' & Ec' & <- & _). by apply (ev_gone _ _ H2 id p).
    + destruct (ev_gone _ _ H1 id p c E1 E2 Ec) as [Ha Hb]. pose proof (ev_connect _ _ H2). pose proof (ev_read _ _ H2). set_solver.
  - by rewrite (ev_fresh _ _ H2), (ev_fresh _ _ H1).
  - by rewrite (ev_registered _ _ H2), (ev_registered _ _ H1).
  - etransitivity; [apply (ev_connect _ _ H2) | apply (ev_connect _ _ H1)].
  - etransitivity; [apply (ev_read _ _ H2) | apply (ev_read _ _ H1)].
  - intros s Hs. destruct (ev_out _ _ H1 s Hs) as [?|[?|Hd]]; [apply (ev_out _ _ H2); auto.. |]. do 2 right. by apply (ev_dropped _ _ H2).
  - intros s Hs. by apply (ev_dropped _ _ H2), (ev_dropped _ _ H1).
Qed.

(** ** Safe computations *)

Definition any {X} : X -> Prop := fun _ => True.

Definition safe {X} (except : option str) (P : W -> Prop) (Q : X -> Prop) (m : R X) : Prop :=
  forall w, engine_ok except (engine w) -> P w ->
    engine_ok except (engine (m w).1) /\ evolves w (m w).1 /\ forall x, (m w).2 = Ok x -> Q x.

Definition stable (P : W -> Prop) : Prop := forall w w', evolves w w' -> P w -> P w'.

Lemma safe_ret {X} x0 P (Q : X -> Prop) x : Q x -> safe x0 P Q (mret x).
Proof. intros Hx w Hw _. split_and!; [done | apply evolves_refl | by intros y [= <-]]. Qed.

Lemma safe_raise {X} x0 P (Q : X -> Prop) exn : safe x0 P Q (raise exn).
Proof. intros w Hw _. split_and!; [done | apply evolves_refl | done]. Qed.

Lemma safe_lift {X} x0 P (r : result X) : safe x0 P (fun x => r = Ok x) (lift r).
Proof. intros w Hw _. split_and!; [done | apply evolves_refl | done]. Qed.

Lemma safe_gets {X} x0 P (f : W -> X) : safe x0 P any (gets f).
Proof. intros w Hw _. split_and!; [done | apply evolves_refl | done]. Qed.

Lemma safe_bind {X Y} x0 P (Q : X -> Prop) (Q' : Y -> Prop) (m : R X) (f : X -> R Y) :
  stable P -> safe x0 P Q m -> (forall x, Q x -> safe x0 P Q' (f x)) -> safe x0 P Q' (x ← m; f x).
Proof.
  intros HP Hm Hf w Hw HPw. unfold mbind, R_bind. destruct (Hm w Hw HPw) as (H1 & H2 & H3). destruct (m w) as [w' [x|ex]]; [|done].
  destruct (Hf x (H3 x eq_refl) w' H1 (HP _ _ H2 HPw)) as (H4 & H5 & H6). simpl in *. split_and!; [done | by eapply evolves_trans | done].
Qed.

Lemma safe_try {X} x0 P (Q : X -> Prop) (m : R X) handler :
  stable P -> safe x0 P Q m -> (forall ex h, handler ex = Some h -> safe x0 P Q h) -> safe x0 P Q (try_catch m handler).
Proof.
  intros HP Hm Hh w Hw HPw. unfold try_catch. destruct (Hm w Hw HPw) as (H1 & H2 & H3). destruct (m w) as [w' [x|ex]]; [done|].
  destruct (handler ex) as [h|] eqn:E; [|done]. destruct (Hh ex h E w' H1 (HP _ _ H2 HPw)) as (H4 & H5 & H6). simpl in *.
  split_and!; [done | by eapply evolves_trans | done].
Qed.

Lemma safe_when x0 P b (m : R unit) : safe x0 P any m -> safe x0 P any (when b m).
Proof. intros Hm. destruct b; [done | by apply safe_ret]. Qed.

Lemma safe_weaken {X} x0 P P' (Q Q' : X -> Prop) m :
  safe x0 P Q m -> (forall w, P' w -> P w) -> (forall x, Q x -> Q' x) -> safe x0 P' Q' m.
Proof. intros Hm HP HQ w Hw HPw. destruct (Hm w Hw (HP w HPw)) as (H1 & H2 & H3). split_and!; [done | done | auto]. Qed.

(** Operations of the monitor that let sockets go to the queue only. *)
Definition goes (m m' : SocketMonitor) : Prop :=
  m_connectSockets m' ⊆ m_connectSockets m /\ m_readSockets m' ⊆ m_readSockets m /\
  (forall s, s ∈ m_connectSockets m \/ s ∈ m_readSockets m -> s ∈ m_connectSockets m' \/ s ∈ m_readSockets m' \/ s ∈ m_dropped m') /\
  (forall s, s ∈ m_dropped m -> s ∈ m_dropped m').

Definition lets_go (f : SocketMonitor -> SocketMonitor) : Prop := forall m, goes m (f m).

Lemma goes_refl m : goes m m.
Proof. split_and!; [done | done | tauto | done]. Qed.

Lemma evolves_mon w m k : goes (w_mon w) m -> evolves w (mkWorld m k (w_client w)).
Proof.
  intros (H1 & H2 & H3 & H4). split; try done. unfold engine. simpl. congruence.
Qed.

Lemma safe_on_kernel {X} x0 P (f : Kernel -> X * Kernel) : safe x0 P any (on_kernel f).
Proof. intros w Hw _. unfold on_kernel. destruct (f (w_kernel w)) as [x k]. split_and!; [done | apply evolves_mon, goes_refl | done]. Qed.

Lemma safe_on_mon {X} x0 P (f : SocketMonitor -> X * SocketMonitor) : lets_go (fun m => (f m).2) -> safe x0 P any (on_mon f).
Proof.
  intros Hf w Hw _. unfold on_mon. specialize (Hf (w_mon w)). simpl in Hf. destruct (f (w_mon w)) as [x m]. split_and!; [done | by apply evolves_mon | done].
Qed.

Lemma lets_go_signal s : lets_go (signal s).
Proof. intros m. split_and!; [done | done | simpl; tauto | done]. Qed.
Lemma lets_go_unsignal s : lets_go (unsignal s).
Proof. intros m. split_and!; [done | done | simpl; tauto | done]. Qed.
Lemma lets_go_drop s : lets_go (fun m => (mon_drop s m).2).
Proof.
  intros m. unfold mon_drop. destruct (registered m s); [|apply goes_refl]. unfold goes. simpl. split_and!; [set_solver..| |].
  - intros s' Hs'. destruct (decide (s' = s)) as [ ->|Hne]; [do 2 right; apply elem_of_app; right; left | set_solver].
  - intros s' Hs'. apply elem_of_app. by left.
Qed.

Lemma safe_drop_socket x0 P s : safe x0 P any (drop_socket s).
Proof. apply safe_on_mon, lets_go_drop. Qed.

(** ** Connections that are live *)

Definition live p s (o : option str) w : Prop := exists c, e_heap (engine w) !! p = Some c /\ c_socket c = s /\ c_session c = o.

Lemma live_stable p s o : stable (live p s o).
Proof. intros w w' Hev (c & E & Hs & Ho). destruct (ev_heap_Some _ _ _ _ Hev E) as (c' & E' & E1 & E2). exists c'. by rewrite E1, E2. Qed.

Lemma live_back p s o w w' : evolves w w' -> live p s o w' -> live p s o w.
Proof. intros Hev (c' & E & Hs & Ho). destruct (ev_heap_back _ _ _ _ Hev E) as (c & E' & E1 & E2). exists c. by rewrite <- E1, <- E2. Qed.

Lemma safe_deref x0 p s o : safe x0 (live p s o) (fun c => c_socket c = s /\ c_session c = o) (deref p).
Proof.
  intros w Hw (c & E & Hs & Ho). unfold deref, mbind, R_bind, gets. rewrite E. split_and!; [done | apply evolves_refl | by intros x [= <-]].
Qed.

Lemma engine_ok_store x0 e p c c' :
  engine_ok x0 e -> e_heap e !! p = Some c -> same_ends c c' -> engine_ok x0 (set_heap (<[p := c']>) e).
Proof.
  intros [H1 H2 H3 H4 H5] E [Es Eo]. split; simpl; [| | |done|done].
  - intros id q Hq. destruct (H1 id q Hq) as (d & Ed & Hd). destruct (decide (q = p)) as [ ->|Hne].
    + exists c'. rewrite lookup_insert_eq. split; [done|]. congruence.
    + exists d. by rewrite lookup_insert_ne.
  - intros q d id. destruct (decide (q = p)) as [ ->|Hne]; [|rewrite lookup_insert_ne by done; exact (H2 q d id)].
    rewrite lookup_insert_eq. intros [= <-]. rewrite Eo. exact (H2 p c id E).
  - intros q. destruct (decide (q = p)) as [ ->|Hne]; [|rewrite lookup_insert_ne by done; exact (H3 q)]. intros _. apply H3. by eexists.
Qed.

Lemma safe_store x0 p s o c : c_socket c = s -> c_session c = o -> safe x0 (live p s o) any (store p c).
Proof.
  intros Hs Ho w Hw (c0 & E & Hs0 & Ho0). assert (same_ends c0 c) as Hsame by (unfold same_ends; by rewrite Hs, Ho).
  split_and!; [by eapply engine_ok_store | | done]. split; try done; [|unfold engine; simpl; congruence | tauto].
  intros q. simpl. destruct (decide (q = p)) as [ ->|Hne]; [|by rewrite lookup_insert_ne].
  rewrite lookup_insert_eq. change (w_client w).1 with (engine w). rewrite E. simpl. destruct Hsame as [-> ->]. done.
Qed.

Lemma safe_kernel {X} x0 P (Q : X -> Prop) (f : Kernel -> X * Kernel) : (forall k, Q (f k).1) -> safe x0 P Q (on_kernel f).
Proof.
  intros HQ w Hw HPw. destruct (safe_on_kernel x0 P f w Hw HPw) as (H1 & H2 & _). split_and!; [done..|].
  unfold on_kernel. specialize (HQ (w_kernel w)). destruct (f (w_kernel w)) as [x k]. by intros y [= <-].
Qed.

Lemma conn_send_ends m c k : same_ends c (conn_send m c k).1.2.
Proof.
  unfold conn_send, processQueue. destruct (c_sendQueue c) as [|msg rest].
  - destruct (socket_send _ _ _) as [r k']. by destruct (_ =? _)%nat.
  - by destruct (process_queue _ _ _ _) as [[done [queue len]] k'].
Qed.

Lemma safe_connection_send x0 p m s o : safe x0 (live p s o) any (connection_send p m).
Proof.
  unfold connection_send. eapply safe_bind; [apply live_stable | apply safe_deref |]. intros c [Hs Ho].
  apply (safe_bind _ _ (fun r => same_ends c r.2)); [apply live_stable | apply safe_kernel |].
  { intros k. pose proof (conn_send_ends m c k) as He. by destruct (conn_send m c k) as [[b c'] k']. }
  intros [b c'] [E1 E2]. simpl in *. eapply safe_bind; [apply live_stable | |intros _ _].
  - apply safe_store; congruence.
  - apply safe_when, safe_on_mon, lets_go_signal.
Qed.

Lemma safe_connection_disconnect x0 p s o : safe x0 (live p s o) any (connection_disconnect p).
Proof.
  unfold connection_disconnect. eapply safe_bind; [apply live_stable | apply safe_deref |]. intros c _.
  eapply safe_bind; [apply live_stable | apply safe_drop_socket |]. intros _ _. by apply safe_ret.
Qed.

(** ** What a session asks of its responder *)

Lemma deref_Some p c w : e_heap (engine w) !! p = Some c -> deref p w = (w, Ok c).
Proof. intros E. unfold deref, mbind, R_bind, gets. by rewrite E. Qed.

Lemma connection_send_ends p m c w :
  e_heap (engine w) !! p = Some c ->
  (connection_send p m w).2 = Ok () /\ e_sessions (engine (connection_send p m w).1) = e_sessions (engine w) /\
  e_responder (engine (connection_send p m w).1) = e_responder (engine w).
Proof.
  intros E. unfold connection_send, mbind, R_bind. rewrite (deref_Some _ _ _ E). unfold on_kernel.
  destruct (conn_send m c (w_kernel w)) as [[b c'] k]. simpl. by destruct b.
Qed.

Lemma connection_disconnect_ends p c w :
  e_heap (engine w) !! p = Some c ->
  (connection_disconnect p w).2 = Ok () /\ engine (connection_disconnect p w).1 = engine w /\
  w_mon (connection_disconnect p w).1 = (mon_drop (c_socket c) (w_mon w)).2.
Proof.
  intros E. unfold connection_disconnect, mbind, R_bind. rewrite (deref_Some _ _ _ E). unfold drop_socket, on_mon.
  by destruct (mon_drop (c_socket c) (w_mon w)).
Qed.

Lemma dropped_gone s m : (s ∉ m_connectSockets (mon_drop s m).2) /\ (s ∉ m_readSockets (mon_drop s m).2).
Proof.
  unfold mon_drop. destruct (registered m s) eqn:E; simpl; [set_solver|]. unfold registered in E.
  rewrite !orb_false_iff, !bool_decide_eq_false in E. tauto.
Qed.

(** Giving a responder up. *)
Lemma unset_responder w id :
  engine_ok (Some id) (engine w) ->
  (forall p c, e_responder (engine w) !! id = Some p -> e_heap (engine w) !! p = Some c ->
     (c_socket c ∉ m_connectSockets (w_mon w)) /\ (c_socket c ∉ m_readSockets (w_mon w))) ->
  let w' := (on_engine (T := T) (set_responders (delete id)) w).1 in engine_ok (Some id) (engine w') /\ evolves w w'.
Proof.
  intros [H1 H2 H3 H4 H5] Hgone. split.
  - split; simpl; try done.
    + intros id' p. destruct (decide (id' = id)) as [ ->|]; [by rewrite lookup_delete_eq | rewrite lookup_delete_ne by done; apply H1].
    + intros id' x Hne. rewrite lookup_delete_ne by congruence. by apply H4.
  - split; try done; simpl; [| |tauto].
    + intros id' p. destruct (decide (id' = id)) as [ ->|]; [by rewrite lookup_delete_eq | by rewrite lookup_delete_ne].
    + intros id' p c Hr. destruct (decide (id' = id)) as [ ->|]; [intros _ Hc; by eapply Hgone|]. rewrite lookup_delete_ne by done. unfold engine in *. congruence.
Qed.

Lemma run_call_spec w id c :
  engine_ok (Some id) (engine w) ->
  exists w', run_call id c w = (w', Ok ()) /\ engine_ok (Some id) (engine w') /\ evolves w w' /\ e_sessions (engine w') = e_sessions (engine w) /\
    e_responder (engine w') = match c with CallSend _ => e_responder (engine w) | CallDisconnect => delete id (e_responder (engine w)) end.
Proof.
  intros Hw. unfold run_call, mbind at 1, R_bind at 1, gets. destruct (e_responder (engine w) !! id) as [p|] eqn:Er.
  2: { exists w. split_and!; [done | done | apply evolves_refl | done|]. destruct c; [done|]. by rewrite delete_id. }
  destruct (eo_responder _ _ Hw _ _ Er) as (conn & Ec & Eid). assert (live p (c_socket conn) (Some id) w) as Hl by by exists conn.
  destruct c as [m|].
  - destruct (safe_connection_send _ p m _ _ w Hw Hl) as (H1 & H2 & _). destruct (connection_send_ends p m conn w Ec) as (E1 & E2 & E3).
    destruct (connection_send p m w) as [w' r]. simpl in *. subst r. by exists w'.
  - destruct (safe_connection_disconnect _ p _ _ w Hw Hl) as (H1 & H2 & _). destruct (connection_disconnect_ends p conn w Ec) as (E1 & E2 & E3).
    unfold mbind, R_bind. destruct (connection_disconnect p w) as [w' r]. simpl in *. subst r.
    destruct (unset_responder w' id) as [H3 H4].
    { by rewrite E2. }
    { intros p' c'. rewrite E2, Er. intros [= <-]. rewrite Ec. intros [= <-]. rewrite E3. apply dropped_gone. }
    eexists. split; [reflexivity|]. split_and!; [done | by eapply evolves_trans | by rewrite <- E2 | simpl; by rewrite <- E2].
Qed.

Lemma run_calls_spec id l : forall w,
  engine_ok (Some id) (engine w) ->
  exists w', run_calls id l w = (w', Ok ()) /\ engine_ok (Some id) (engine w') /\ evolves w w' /\ e_sessions (engine w') = e_sessions (engine w) /\
    e_responder (engine w') = if bool_decide (CallDisconnect ∈ l) then delete id (e_responder (engine w)) else e_responder (engine w).
Proof.
  induction l as [|c l IH]; intros w Hw; [by exists w; split_and!; try apply evolves_refl|]. simpl.
  destruct (run_call_spec w id c Hw) as (w1 & E1 & H1 & Hev1 & Es1 & Er1). destruct (IH w1 H1) as (w2 & E2 & H2 & Hev2 & Es2 & Er2).
  exists w2. unfold mbind, R_bind. rewrite E1. split_and!; [done | done | by eapply evolves_trans | congruence|]. rewrite Er2, Er1.
  destruct c as [m|].
  - assert (CallDisconnect ∈ CallSend m :: l <-> CallDisconnect ∈ l) as Hiff by (rewrite elem_of_cons; naive_solver).
    by rewrite (bool_decide_ext _ _ Hiff).
  - rewrite (bool_decide_eq_true_2 (CallDisconnect ∈ CallDisconnect :: l)) by left. case_bool_decide; [apply delete_delete_eq | done].
Qed.

(** ** Calls on sessions *)

Lemma session_Some id x w : e_sessions (engine w) !! id = Some x -> session id w = (w, Ok x).
Proof. intros E. unfold session, mbind, R_bind, gets. by rewrite E. Qed.

(** A session changes, and its calls are made. *)
Lemma session_calls w id x x' calls :
  engine_ok None (engine w) -> e_sessions (engine w) !! id = Some x ->
  exists w', run_calls id calls (on_engine (T := T) (set_sessions (<[id := x']>)) w).1 = (w', Ok ()) /\
    engine_ok (Some id) (engine w') /\ evolves w w' /\ e_sessions (engine w') = <[id := x']> (e_sessions (engine w)) /\
    e_responder (engine w') = if bool_decide (CallDisconnect ∈ calls) then delete id (e_responder (engine w)) else e_responder (engine w).
Proof.
  intros [H1 H2 H3 H4 H5] E. set (w1 := (on_engine (T := T) (set_sessions (<[id := x']>)) w).1).
  assert (engine_ok (Some id) (engine w1)) as Hw1.
  { split; simpl; try done.
    - intros p c id' Hc Hid. destruct (decide (id' = id)) as [ ->|]; [rewrite lookup_insert_eq; by eexists | rewrite lookup_insert_ne by done; exact (H2 p c id' Hc Hid)].
    - intros id' y Hne. rewrite lookup_insert_ne by congruence. by apply H4. }
  assert (evolves w w1) as Hev.
  { split; try done; simpl; [| |tauto].
    - intros id'. destruct (decide (id' = id)) as [ ->|]; [rewrite lookup_insert_eq; change (w_client w).1 with (engine w); rewrite E; by split; eexists | by rewrite lookup_insert_ne].
    - unfold engine. congruence. }
  destruct (run_calls_spec id calls w1 Hw1) as (w2 & E2 & H6 & H7 & H8 & H9). exists w2. split_and!; [done | done | by eapply evolves_trans | done | done].
Qed.

(** A session that has a responder exactly when the engine has one for it. *)
Lemma engine_ok_settle e id x :
  engine_ok (Some id) e -> e_sessions e !! id = Some x -> (so_hasResponder x = true <-> is_Some (e_responder e !! id)) -> engine_ok None e.
Proof.
  intros [H1 H2 H3 H4 H5] E Hx. split; try done. intros id' y _ E'. destruct (decide (id' = id)) as [ ->|Hne]; [|apply H4; congruence].
  rewrite E in E'. by injection E' as <-.
Qed.

(** What a call does to the responder, as the session says. *)
Definition keeps_word (x x' : S) (calls : list call) : Prop :=
  (so_hasResponder x = false -> so_hasResponder x' = false) /\
  (so_hasResponder x = true -> (so_hasResponder x' = false <-> CallDisconnect ∈ calls)).

Lemma engine_ok_word w w' id x x' calls :
  engine_ok None (engine w) -> engine_ok (Some id) (engine w') -> e_sessions (engine w) !! id = Some x ->
  e_sessions (engine w') = <[id := x']> (e_sessions (engine w)) ->
  e_responder (engine w') = (if bool_decide (CallDisconnect ∈ calls) then delete id (e_responder (engine w)) else e_responder (engine w)) ->
  keeps_word x x' calls -> engine_ok None (engine w').
Proof.
  intros Hw Hw' E Es Er [Hn Hy]. apply (engine_ok_settle _ id x'); [done | by rewrite Es, lookup_insert_eq|].
  pose proof (eo_has _ _ Hw id x ltac:(done) E) as Hx. rewrite Er. destruct (so_hasResponder x).
  - specialize (Hy eq_refl). assert (is_Some (e_responder (engine w) !! id)) as Hs by by apply Hx. case_bool_decide as Hc.
    + rewrite lookup_delete_eq. rewrite (proj2 Hy) by done. split; [done | by intros [? ?]].
    + destruct (so_hasResponder x'); [done|]. exfalso. by apply Hc, Hy.
  - rewrite Hn by done. assert (e_responder (engine w) !! id = None) as Hnone by (apply eq_None_not_Some; intros Hs%Hx; done).
    split; [done|]. case_bool_decide; [by rewrite lookup_delete_eq; intros [? ?] | by rewrite Hnone; intros [? ?]].
Qed.

Definition known id w : Prop := is_Some (e_sessions (engine w) !! id).

Lemma known_stable id : stable (known id).
Proof. intros w w' Hev Hk. by apply (ev_sessions _ _ Hev). Qed.

Lemma safe_session id : safe None (known id) any (session id).
Proof. intros w Hw [x E]. rewrite (session_Some _ _ _ E). split_and!; [done | apply evolves_refl | done]. Qed.

Lemma safe_on_session id f : lawful_call f -> safe None (known id) any (on_session id f).
Proof.
  intros Hf w Hw [x E]. unfold on_session, mbind, R_bind. rewrite (session_Some _ _ _ E). specialize (Hf x). destruct (f x) as [[x' calls] r].
  destruct (session_calls w id x x' calls Hw E) as (w' & E' & H1 & H2 & H3 & H4). unfold on_engine in *. simpl in *.
  unfold on_client in *. simpl in *. rewrite E'. unfold lift. simpl. split_and!; [|done|done]. by eapply (engine_ok_word w w').
Qed.

(** ** Operations of a connection *)

Lemma live_known x0 p s id w : engine_ok x0 (engine w) -> live p s (Some id) w -> known id w.
Proof. intros Hw (c & E & _ & Eo). by eapply eo_session. Qed.

Lemma safe_known {X} P (Q : X -> Prop) id (m : R X) p s :
  safe None (known id) Q m -> (forall w, P w -> live p s (Some id) w) -> safe None P Q m.
Proof. intros Hm HP w Hw HPw. apply Hm; [done|]. eapply live_known; [done | by apply HP]. Qed.

Lemma safe_tick {X} x0 P (f : nat -> X) : safe x0 P any (n ← on_kernel tick; mret (f n)).
Proof.
  intros w Hw _. unfold mbind, R_bind, on_kernel. simpl. split_and!; [done | apply evolves_mon, goes_refl | done].
Qed.

(** A connection that nothing points to goes. *)
Lemma engine_ok_free x0 e p :
  engine_ok x0 e -> (forall id, e_responder e !! id <> Some p) -> engine_ok x0 (set_heap (delete p) e).
Proof.
  intros [E1 E2 E3 E4 E5] Hnob. split; simpl; try done.
  - intros id' q Hq. destruct (E1 id' q Hq) as (d & Ed & Hd). exists d. rewrite lookup_delete_ne; [done|]. intros ->. by apply (Hnob id').
  - intros q d id'. destruct (decide (q = p)) as [ ->|Hne]; [by rewrite lookup_delete_eq | rewrite lookup_delete_ne by done; exact (E2 q d id')].
  - intros q Hq. apply E3. destruct (decide (q = p)) as [ ->|Hne]; [rewrite lookup_delete_eq in Hq; by destruct Hq | by rewrite lookup_delete_ne in Hq].
Qed.

Lemma engine_ok_registered x0 f e : engine_ok x0 e -> engine_ok x0 (set_registered f e).
Proof. by intros [E1 E2 E3 E4 E5]. Qed.

(** Nothing was followed that dangles. *)
Definition unbroken w : Prop := e_broken (engine w) = false.

Context `{!SessionLaws S}.

(** A session that was disconnected has no responder. *)
Lemma on_session_disconnect id w :
  engine_ok None (engine w) -> known id w -> e_responder (engine (on_session id so_disconnect w).1) !! id = None.
Proof.
  intros Hw [x E]. destruct (safe_on_session id so_disconnect law_disconnect w Hw ltac:(by exists x)) as [Hok _]. revert Hok.
  unfold on_session, mbind, R_bind. rewrite (session_Some _ _ _ E). pose proof (law_disconnected x) as Hx. destruct (so_disconnect x) as [[x' calls] r].
  destruct (session_calls w id x x' calls Hw E) as (w' & E' & H1 & H2 & H3 & H4). unfold on_engine, on_client in *. simpl in *. rewrite E'. simpl.
  intros Hok. apply eq_None_not_Some. intros Hr. apply (eo_has _ _ Hok id x') in Hr; [congruence | done | by rewrite H3, lookup_insert_eq].
Qed.

(** A disconnection that does not throw changes no other session. *)
Lemma on_session_quiet id x w :
  engine_ok None (engine w) -> e_sessions (engine w) !! id = Some x -> (so_disconnect x).2 = Ok () ->
  exists w', on_session id so_disconnect w = (w', Ok ()) /\ engine_ok None (engine w') /\ evolves w w' /\ e_responder (engine w') !! id = None /\
    forall id', id' <> id -> e_sessions (engine w') !! id' = e_sessions (engine w) !! id'.
Proof.
  intros Hw E Hx. assert (known id w) as Hk by by exists x. pose proof (on_session_disconnect id w Hw Hk) as Hr.
  destruct (safe_on_session id so_disconnect law_disconnect w Hw Hk) as (H1 & H2 & _). revert Hr H1 H2.
  unfold on_session, mbind, R_bind. rewrite (session_Some _ _ _ E). destruct (so_disconnect x) as [[x' calls] r]. simpl in Hx. subst r.
  destruct (session_calls w id x x' calls Hw E) as (w' & E' & _ & _ & H3 & _). unfold on_engine, on_client in *. simpl in *. rewrite E'. simpl.
  intros Hr H1 H2. exists w'. split_and!; try done. intros id' Hne. by rewrite H3, lookup_insert_ne.
Qed.

(** How the disconnection of a session ends. *)
Lemma on_session_result id x w :
  engine_ok None (engine w) -> e_sessions (engine w) !! id = Some x -> (on_session id so_disconnect w).2 = (so_disconnect x).2.
Proof.
  intros Hw E. unfold on_session, mbind, R_bind. rewrite (session_Some _ _ _ E). destruct (so_disconnect x) as [[x' calls] r].
  destruct (session_calls w id x x' calls Hw E) as (w' & E' & _). unfold on_engine, on_client in *. simpl in *. by rewrite E'.
Qed.

(** A session is given a responder: what its call did, then the pointer. *)
Lemma setResponder_spec id s p w :
  engine_ok None (engine w) -> live p s (Some id) w ->
  let w2 := (on_session id so_setResponder w).1 in
  evolves w w2 /\
  match setResponder id p w with
  | (w', Ok _) => w' = (on_engine (set_responders (<[id := p]>)) w2).1 /\ engine_ok (Some id) (engine w2) /\ engine_ok None (engine w')
  | (w', Throw _) => w' = w2 /\ engine_ok None (engine w2)
  end.
Proof.
  intros He Hlive. destruct (live_known _ _ _ _ _ He Hlive) as [x Ex]. unfold setResponder, mbind at 1, R_bind at 1.
  unfold on_session, mbind, R_bind. rewrite (session_Some _ _ _ Ex). pose proof (law_setResponder x) as Hlaw.
  destruct (so_setResponder x) as [[x' calls] r].
  destruct (session_calls w id x x' calls He Ex) as (w2 & E2 & He2 & Hev & Es & Er). unfold on_engine, on_client in *. simpl in *.
  rewrite E2. unfold lift. simpl. split; [done|]. destruct r as [[]|e]; [|split; [done | by eapply (engine_ok_word w w2)]].
  split_and!; [done | done|]. set (w3 := set_client (fun c => (set_responders <[id:=p]> c.1, c.2)) w2).
  destruct (live_stable p s (Some id) w w2 Hev Hlive) as (c & Ec & _ & Eo).
  assert (e_responder (engine w3) !! id = Some p) as Hrp by (unfold w3; simpl; by rewrite lookup_insert_eq).
  assert (forall id', id' <> id -> e_responder (engine w3) !! id' = e_responder (engine w2) !! id') as Hrn
    by (intros id' Hne; unfold w3; simpl; by rewrite lookup_insert_ne).
  apply (engine_ok_settle _ id x').
  - destruct He2 as [F1 F2 F3 F4 F5]. split; try done.
    + intros id' q. destruct (decide (id' = id)) as [ ->|Hne]; [|rewrite Hrn by done; apply F1]. rewrite Hrp. intros [= <-]. by exists c.
    + intros id' y Hne. rewrite Hrn by congruence. by apply F4.
  - simpl. change ((w_client w2).1) with (engine w2). by rewrite Es, lookup_insert_eq.
  - rewrite Hlaw, Hrp. by split; eexists.
Qed.

Lemma safe_readFromSocket p s o : safe None (live p s o) any (readFromSocket p).
Proof.
  unfold readFromSocket. eapply safe_bind; [apply live_stable | apply safe_deref|]. intros c [Hs Ho].
  eapply safe_bind; [apply live_stable | apply safe_on_kernel|]. intros [[|ch data]|error] _; try apply safe_raise.
  eapply safe_bind; [apply live_stable | apply safe_lift|]. intros parser _. by apply safe_store.
Qed.

Lemma safe_readMessage p s o msg : safe None (live p s o) any (connection_readMessage p msg).
Proof.
  unfold connection_readMessage. eapply safe_bind; [apply live_stable | apply safe_deref|]. intros c [Hs Ho].
  destruct (readMessage (c_parser c) msg) as [parser r]. eapply safe_bind; [apply live_stable | by apply safe_store|].
  intros _ _. by apply safe_ret.
Qed.

Lemma safe_hand_over p s id m : safe None (live p s (Some id)) any (hand_over p id m).
Proof.
  unfold hand_over. eapply safe_bind; [apply live_stable | apply safe_tick|]. intros now _. apply safe_try; [apply live_stable | |].
  - eapply safe_known; [apply safe_on_session, law_next | done].
  - intros [] h; try done. intros [= <-]. eapply safe_bind; [apply live_stable | eapply safe_known; [apply safe_session | done]|].
    intros x _. apply safe_when. eapply safe_bind; [apply live_stable | apply safe_deref|]. intros c _.
    eapply safe_bind; [apply live_stable | apply safe_drop_socket|]. intros b _. by apply safe_ret.
Qed.

Lemma safe_readMessages_loop fuel p s id m : safe None (live p s (Some id)) any (readMessages_loop fuel p id m).
Proof.
  revert m. induction fuel as [|fuel IH]; intros m; simpl; [apply safe_raise|].
  eapply safe_bind; [apply live_stable | apply safe_readMessage|]. intros [[|] m'] _; [|by apply safe_ret].
  eapply safe_bind; [apply live_stable | apply safe_hand_over|]. intros _ _. apply IH.
Qed.

Lemma safe_readMessages p s o : safe None (live p s o) any (readMessages p).
Proof.
  unfold readMessages. eapply safe_bind; [apply live_stable | apply safe_deref|]. intros c [_ ->].
  destruct o as [id|]; [apply safe_readMessages_loop | by apply safe_ret].
Qed.

Lemma safe_onTimeout p s o : safe None (live p s o) any (connection_onTimeout p).
Proof.
  unfold connection_onTimeout. eapply safe_bind; [apply live_stable | apply safe_deref|]. intros c [_ ->].
  destruct o as [id|]; [|by apply safe_ret]. eapply safe_bind; [apply live_stable | apply safe_tick|]. intros now _.
  eapply safe_known; [apply safe_on_session, law_timer | done].
Qed.

Lemma safe_onWrite p s o : safe None (live p s o) any (connection_onWrite p).
Proof.
  unfold connection_onWrite. eapply safe_bind; [apply live_stable | apply safe_deref|]. intros c [Hs Ho].
  apply (safe_bind _ _ (fun r => same_ends c r.2)); [apply live_stable | apply safe_kernel |].
  { intros k. unfold processQueue. by destruct (process_queue _ _ _ _) as [[done [queue len]] k']. }
  intros [b c'] [E1 E2]. simpl in *. eapply safe_bind; [apply live_stable | |intros _ _].
  - apply safe_store; congruence.
  - apply safe_when, safe_on_mon, lets_go_unsignal.
Qed.
End Props.

(** ** What the shared operations do to the monitor and the system *)

Create HintDb does.

Section Does.
Context {C : Type}.

Lemma does_ret {X} opens (x : X) : does (C := C) opens (mret x).
Proof. intros w. apply rtc_refl. Qed.
Lemma does_raise {X} opens exn : does (C := C) (X := X) opens (raise exn).
Proof. intros w. apply rtc_refl. Qed.
Lemma does_lift {X} opens (r : result X) : does (C := C) opens (lift r).
Proof. intros w. apply rtc_refl. Qed.
Lemma does_gets {X} opens (f : World C -> X) : does opens (gets f).
Proof. intros w. apply rtc_refl. Qed.
Lemma does_on_client opens f : does (C := C) opens (on_client f).
Proof. intros w. apply rtc_once, act_client. Qed.

Lemma does_bind {X Y} opens (m : R C X) (f : X -> R C Y) : does opens m -> (forall x, does opens (f x)) -> does opens (x ← m; f x).
Proof.
  intros Hm Hf w. unfold mbind, R_bind. specialize (Hm w). destruct (m w) as [w' [x|e]]; [|done]. etransitivity; [exact Hm | apply Hf].
Qed.

Lemma does_try {X} opens (m : R C X) handler : does opens m -> (forall e h, handler e = Some h -> does opens h) -> does opens (try_catch m handler).
Proof.
  intros Hm Hh w. unfold try_catch. specialize (Hm w). destruct (m w) as [w' [x|e]]; [done|].
  destruct (handler e) as [h|] eqn:E; [|done]. etransitivity; [exact Hm | by eapply Hh].
Qed.

Lemma does_when opens b (m : R C unit) : does opens m -> does opens (when b m).
Proof. intros Hm. destruct b; [done | apply does_ret]. Qed.

Lemma does_weaken {X} (m : R C X) : does false m -> does true m.
Proof. intros Hm w. apply acts_weaken, Hm. Qed.

Lemma does_tick opens : does (C := C) opens (on_kernel tick).
Proof. intros w. apply rtc_once, act_tick. Qed.

Lemma does_recv opens size : does (C := C) opens (on_kernel (socket_recv size)).
Proof.
  intros w. pose proof (act_recv opens size w) as Ha. unfold on_kernel, set_kernel in *. destruct (socket_recv size (w_kernel w)) as [x k].
  by apply rtc_once.
Qed.

Lemma does_drop_socket opens s : does (C := C) opens (on_mon (mon_drop s)).
Proof.
  intros w. pose proof (act_drop opens s w) as Ha. unfold on_mon, set_mon in *. destruct (mon_drop s (w_mon w)) as [x m]. by apply rtc_once.
Qed.

Lemma does_signal opens s : does (C := C) opens (on_mon (fun m => ((), signal s m))).
Proof. intros w. apply rtc_once, act_signal. Qed.
Lemma does_unsignal opens s : does (C := C) opens (on_mon (fun m => ((), unsignal s m))).
Proof. intros w. apply rtc_once, act_unsignal. Qed.

(** Sending, once or from the queue, is a sequence of sends. *)
Lemma acts_process_queue opens (w : World C) s queue : forall len k,
  acts opens (mkWorld (w_mon w) k (w_client w)) (mkWorld (w_mon w) (process_queue s len queue k).2 (w_client w)).
Proof.
  induction queue as [|msg rest IH]; intros len k; simpl; [apply rtc_refl|].
  pose proof (act_send opens s (drop len msg) (mkWorld (w_mon w) k (w_client w))) as Ha. unfold set_kernel in Ha. simpl in Ha.
  destruct (socket_send s (drop len msg) k) as [result k']. simpl in Ha. destruct (_ <=? 0); [by apply rtc_once|].
  destruct (_ <? _)%nat; [by apply rtc_once|]. eapply rtc_l; [exact Ha | apply IH].
Qed.

Lemma does_processQueue opens c : does (C := C) opens (on_kernel (fun k => let '(done, c, k) := processQueue c k in ((done, c), k))).
Proof.
  intros w. unfold on_kernel, processQueue. pose proof (acts_process_queue opens w (c_socket c) (c_sendQueue c) (c_sendLength c) (w_kernel w)) as Ha.
  destruct (process_queue _ _ _ _) as [[done [queue len]] k]. by destruct w.
Qed.

Lemma does_conn_send opens m c : does (C := C) opens (on_kernel (fun k => let '(signalled, c, k) := conn_send m c k in ((signalled, c), k))).
Proof.
  intros w. unfold on_kernel, conn_send. destruct (c_sendQueue c) as [|msg rest].
  - pose proof (act_send opens (c_socket c) m w) as Ha. unfold set_kernel in Ha. destruct (socket_send (c_socket c) m (w_kernel w)) as [result k].
    simpl in *. destruct (_ =? _)%nat; by apply rtc_once.
  - set (queue := (msg :: rest) ++ [m]). unfold processQueue. cbn [c_socket c_sendQueue c_sendLength with_queue].
    pose proof (acts_process_queue opens w (c_socket c) queue (c_sendLength c) (w_kernel w)) as Ha.
    destruct (process_queue _ _ _ _) as [[done [q len]] k]. by destruct w.
Qed.

(** A new socket is watched, or was not made. *)
Lemma does_new_connect :
  does (C := C) true
    (socket ← on_kernel socket_new; _ ← when (negb (socket =? INVALID_SOCKET_HANDLE)) (_ ← on_mon (addConnect socket); mret ()); mret socket).
Proof.
  intros w. unfold mbind, R_bind, on_kernel. destruct (socket_new (w_kernel w)) as [s k] eqn:E.
  destruct (socket_new_open _ _ _ E) as [[ -> Ho]|(Hs & Hno & Ho)]; simpl.
  - by apply rtc_once, act_no_socket with (s := INVALID_SOCKET_HANDLE).
  - destruct (Z.eqb_spec s INVALID_SOCKET_HANDLE) as [ ->|_]; [done|]. simpl. unfold mbind, R_bind, on_mon. simpl.
    pose proof (act_connect true w s k eq_refl E Hs) as Ha. destruct (addConnect s (w_mon w)) as [b m]. simpl in *. by apply rtc_once.
Qed.
End Does.

Ltac does_step :=
  first
    [ apply does_ret | apply does_raise | apply does_lift | apply does_gets | apply does_on_client | apply does_tick | apply does_recv
    | apply does_drop_socket | apply does_signal | apply does_unsignal | apply does_processQueue | apply does_conn_send
    | solve [auto with does]
    | apply does_bind; [|intros ?]
    | apply does_when
    | apply does_try; [|let e := fresh "e" in let h := fresh "h" in let E := fresh "E" in
                         intros e h E; repeat (first [discriminate E | injection E as <- | destruct e | case_match])]
    | match goal with
      | |- does _ (match ?x with _ => _ end) => destruct x
      | |- does _ (let '(_, _) := ?x in _) => destruct x
      end ].
Ltac does_all := repeat does_step.

Section EngineDoes.
Context {S T : Type} `{SessionInterface S} `{Clocks}.
Abbreviation R := (R (Engine S * T)).

Lemma does_dangling {X} opens : does opens (dangling (S := S) (T := T) (X := X)).
Proof. unfold dangling, on_engine. does_all. Qed.
Hint Resolve does_dangling : does.

Lemma does_deref opens p : does opens (deref (S := S) (T := T) p).
Proof. unfold deref. does_all. Qed.
Lemma does_session opens id : does opens (session (S := S) (T := T) id).
Proof. unfold session. does_all. Qed.
Lemma does_on_engine opens f : does opens (on_engine (S := S) (T := T) f).
Proof. unfold on_engine. does_all. Qed.
Lemma does_on_transport opens f : does opens (on_transport (S := S) (T := T) f).
Proof. unfold on_transport. does_all. Qed.
Hint Resolve does_deref does_session does_on_engine does_on_transport : does.

Lemma does_store opens p c : does opens (store (S := S) (T := T) p c).
Proof. unfold store. does_all. Qed.
Lemma does_alloc opens c : does opens (alloc (S := S) (T := T) c).
Proof. unfold alloc. does_all. Qed.
Lemma does_free opens p : does opens (free (S := S) (T := T) p).
Proof. unfold free. does_all. Qed.
Hint Resolve does_store does_alloc does_free : does.

Lemma does_connection_send opens p m : does opens (connection_send (S := S) (T := T) p m).
Proof. unfold connection_send. does_all. Qed.
Lemma does_connection_disconnect opens p : does opens (connection_disconnect (S := S) (T := T) p).
Proof. unfold connection_disconnect, drop_socket. does_all. Qed.
Hint Resolve does_connection_send does_connection_disconnect : does.

Lemma does_run_calls opens id l : does opens (run_calls (S := S) (T := T) id l).
Proof. induction l as [|c l IH]; simpl; [does_all|]. apply does_bind; [unfold run_call; does_all | intros _; exact IH]. Qed.
Hint Resolve does_run_calls : does.

Lemma does_on_session opens id f : does opens (on_session (S := S) (T := T) id f).
Proof. unfold on_session. does_all. Qed.
Hint Resolve does_on_session : does.

Lemma does_setResponder opens id p : does opens (setResponder (S := S) (T := T) id p).
Proof. unfold setResponder. does_all. Qed.
Lemma does_delete_connection opens p : does opens (delete_connection (S := S) (T := T) p).
Proof. unfold delete_connection. does_all. Qed.
Lemma does_readFromSocket opens p : does opens (readFromSocket (S := S) (T := T) p).
Proof. unfold readFromSocket. does_all. Qed.
Lemma does_readMessage opens p m : does opens (connection_readMessage (S := S) (T := T) p m).
Proof. unfold connection_readMessage. does_all. Qed.
Lemma does_hand_over opens p id m : does opens (hand_over (S := S) (T := T) p id m).
Proof. unfold hand_over, now_utc, drop_socket. does_all. Qed.
Hint Resolve does_readMessage does_hand_over : does.

Lemma does_readMessages opens p : does opens (readMessages (S := S) (T := T) p).
Proof.
  unfold readMessages. apply does_bind; [does_all|]. intros c. destruct (c_session c) as [id|]; [|does_all].
  generalize (length (m_buffer (c_parser c)) + 2)%nat, (@nil ascii). intros fuel. induction fuel as [|fuel IH]; intros m; simpl; [does_all|].
  apply does_bind; [does_all|]. intros [[|] m']; [|does_all]. apply does_bind; [does_all | intros _; apply IH].
Qed.

Lemma does_onTimeout opens p : does opens (connection_onTimeout (S := S) (T := T) p).
Proof. unfold connection_onTimeout, now_utc. does_all. Qed.
Lemma does_onWrite opens p : does opens (connection_onWrite (S := S) (T := T) p).
Proof. unfold connection_onWrite. does_all. Qed.
End EngineDoes.

#[export] Hint Resolve does_dangling does_deref does_session does_on_engine does_on_transport does_store does_alloc does_free
  does_connection_send does_connection_disconnect does_run_calls does_on_session does_setResponder does_delete_connection
  does_readFromSocket does_readMessage does_hand_over does_readMessages does_onTimeout does_onWrite : does.
