(* ===== verification/Triples.v ===== *)
(** * Rules for what runs on the reactor's thread

    From a precondition, a computation that ends normally leaves its postcondition, and
    one that throws its exceptional postcondition. *)
From S2P Require Import Prelude Sockets Monitor.

Section Triples.
Context {C : Type}.

(** From [P], a normal end is in [Q] and an exception leaves [E]. *)
Definition triple {X} (P : World C -> Prop) (m : R C X) (Q : X -> World C -> Prop) (E : World C -> Prop) : Prop :=
  forall w, P w -> match m w with (w', Ok x) => Q x w' | (w', Throw _) => E w' end.

Lemma triple_bind {X Y} P (m : R C X) (f : X -> R C Y) Q Q' E :
  triple P m Q E -> (forall x, triple (Q x) (f x) Q' E) -> triple P (x ← m; f x) Q' E.
Proof. intros Hm Hf w Hw. unfold mbind, R_bind. specialize (Hm w Hw). destruct (m w) as [w' [x|e]]; [by apply Hf | done]. Qed.

Lemma triple_ret {X} (P : World C -> Prop) (x : X) Q E : (forall w, P w -> Q x w) -> triple P (mret x) Q E.
Proof. intros H w Hw. by apply H. Qed.

Lemma triple_lift {X} (P : World C -> Prop) (r : result X) : triple P (lift r) (fun x w => r = Ok x /\ P w) P.
Proof. intros w Hw. unfold lift. by destruct r. Qed.

Lemma triple_raise {X} (P : World C -> Prop) e (Q : X -> World C -> Prop) : triple P (raise e) Q P.
Proof. by intros w Hw. Qed.

Lemma triple_gets {X} (P : World C -> Prop) (f : World C -> X) E : triple P (gets f) (fun x w => x = f w /\ P w) E.
Proof. by intros w Hw. Qed.

Lemma triple_when P b (m : R C unit) E : triple P m (fun _ => P) E -> triple P (when b m) (fun _ => P) E.
Proof. intros Hm. destruct b; [done | by apply triple_ret]. Qed.

Lemma triple_try {X} P (m : R C X) handler Q E E' :
  triple P m Q E -> (forall e h, handler e = Some h -> triple E h Q E') -> (forall w, E w -> E' w) -> triple P (try_catch m handler) Q E'.
Proof.
  intros Hm Hh HE w Hw. unfold try_catch. specialize (Hm w Hw). destruct (m w) as [w' [x|e]]; [done|].
  destruct (handler e) as [h|] eqn:Eh; [by apply (Hh e h Eh) | by apply HE].
Qed.

Lemma triple_weaken {X} (P P' : World C -> Prop) (m : R C X) (Q Q' : X -> World C -> Prop) (E E' : World C -> Prop) :
  triple P m Q E -> (forall w, P' w -> P w) -> (forall x w, Q x w -> Q' x w) -> (forall w, E w -> E' w) -> triple P' m Q' E'.
Proof. intros Hm HP HQ HE w Hw. specialize (Hm w (HP w Hw)). destruct (m w) as [w' [x|e]]; auto. Qed.
End Triples.
