(* ===== verification/Reactor.v ===== *)
(** * A pass of the reactor, for any transport

    What a transport's invariant needs of its handlers, so that [block] keeps it: the
    monitor's own moves keep the invariant, the handlers do, and the report of a dropped
    socket leaves the transport without it. *)
From stdpp Require Import sorting relations.
From S2P Require Import Prelude Sockets Monitor MonitorProps Connection Engine EngineProps Triples.

Lemma closed_open s k : k_open (socket_close s k) ⊆ k_open k.
Proof. unfold socket_close. case_bool_decide; simpl; set_solver. Qed.

Section Reactor.
Context {C : Type} `{Clocks} (sg : Z) (given : gset Z) (strategy : Strategy (C := C)) `{!Lawful strategy}.
Abbreviation W := (World C).
Implicit Types (w : W) (s : Z).

(** The invariant, what is left when a handler throws, and that the transport does not have a socket. *)
Context (I E : W -> Prop) (gone : Z -> W -> Prop).

Hypothesis I_mon : forall w, I w -> mon_inv sg given w.
Hypothesis I_E : forall w, I w -> E w.
Hypothesis I_moves : forall w m k,
  I w -> goes (w_mon w) m -> mon_inv sg given (mkWorld m k (w_client w)) -> k_open k ⊆ k_open (w_kernel w) -> I (mkWorld m k (w_client w)).
Hypothesis event_ok : forall s, triple I (onEvent strategy s) (fun _ => I) E.
Hypothesis write_ok : forall s, triple I (onWrite strategy s) (fun _ => I) E.
Hypothesis error_ok : forall s, triple I (onError strategy s) (fun _ => I) E.
Hypothesis errors_ok : triple I (onErrors strategy) (fun _ => I) E.
Hypothesis timeout_ok : triple I (onTimeout strategy) (fun _ => I) E.
Hypothesis connect_ok : forall w s, I w -> s ∈ m_connectSockets (w_mon w) ->
  match onConnect strategy s (set_mon (fun m => (connected s m).2) w) with (w', Ok _) => I w' | (w', Throw _) => E w' end.
Hypothesis dropped_ok : forall s w, I w -> s ∈ m_dropped (w_mon w) ->
  match onError strategy s w with (w', Ok _) => I w' /\ gone s w' | (w', Throw _) => E w' end.
Hypothesis popped_ok : forall w s rest, I w -> gone s w -> m_dropped (w_mon w) = s :: rest ->
  let w' := set_kernel (socket_close s) (set_mon (fun m => (pop_dropped m).2) w) in mon_inv sg given w' -> I w'.

Lemma reactor_same w w' : I w -> same_sockets w w' -> mon_inv sg given w' -> I w'.
Proof.
  intros Hw [E1 E2 E3 E4 E5] Hm. destruct w' as [m k c]. simpl in *. subst c. apply I_moves; [done | | done | by rewrite E5].
  unfold goes. rewrite E2, E3, E4. split_and!; [done | done | tauto | done].
Qed.

Lemma reactor_report_one s rest w : I w -> m_dropped (w_mon w) = s :: rest ->
  match report_one strategy s w with (w', Ok _) => I w' | (w', Throw _) => E w' end.
Proof.
  intros Hw Hd. pose proof (report_one_inv sg strategy given s rest w (I_mon _ Hw) Hd) as [Hm _]. revert Hm.
  assert (s ∈ m_dropped (w_mon w)) as Hs by (rewrite Hd; left). pose proof (dropped_ok s w Hw Hs) as H1.
  pose proof (law_onError s w : acts false w (onError strategy s w).1) as Ha. apply acts_dropped in Ha as [l Hl]. rewrite Hd in Hl.
  unfold report_one, mbind, R_bind. destruct (onError strategy s w) as [w1 [[]|e]]; [|done]. destruct H1 as [Hw1 Hno]. intros Hm.
  by apply (popped_ok w1 s (rest ++ l)).
Qed.

Lemma reactor_report_dropped fuel : triple I (report_dropped strategy fuel) (fun _ => I) E.
Proof.
  induction fuel as [|fuel IH]; intros w Hw; [by apply I_E|]. rewrite report_dropped_unfold.
  destruct (m_dropped (w_mon w)) as [|s rest] eqn:Ed; [done|]. pose proof (reactor_report_one s rest w Hw Ed) as H1.
  destruct (report_one strategy s w) as [w1 [[]|e]]; [by apply IH | done].
Qed.

Lemma reactor_read s : triple I (processRead strategy s) (fun _ => I) E.
Proof.
  intros w Hw. unfold processRead, mbind, R_bind, gets. destruct (_ =? _); [|by apply event_ok]. unfold on_mon, take_signal.
  assert (forall socket rest, I (mkWorld (addWrite socket (with_pipe rest (w_mon w))).2 (w_kernel w) (w_client w))) as Hadd.
  { intros socket rest. apply I_moves; [done | | | done].
    - unfold addWrite. repeat (case_bool_decide; simpl); (split_and!; [done | done | simpl; tauto | done]).
    - apply (mon_inv_addWrite sg given socket (set_mon (with_pipe rest) w)). by eapply mon_inv_ext; [..|apply (I_mon _ Hw)]. }
  destruct (pipe (w_mon w)); apply Hadd.
Qed.

Lemma reactor_write s : triple I (processWrite strategy s) (fun _ => I) E.
Proof.
  intros w Hw. unfold processWrite, mbind at 1, R_bind at 1, gets. case_bool_decide as Hc; [exact (connect_ok w s Hw Hc) | by apply write_ok].
Qed.

Lemma reactor_one x : triple I (process_one strategy x) (fun _ => I) E.
Proof.
  unfold process_one.
  assert (forall b (m : R C unit), triple I m (fun _ => I) E -> triple I (when b m) (fun _ => I) E) as Hwhen
    by (intros [] m Hm; [done | by apply triple_ret]).
  eapply triple_bind; [apply Hwhen, reactor_read|]. intros []. eapply triple_bind; [apply Hwhen, reactor_write|]. intros []. apply Hwhen, error_ok.
Qed.

Lemma reactor_list l : triple I (processPollList strategy l) (fun _ => I) E.
Proof. induction l as [|x l IH]; [by apply triple_ret|]. simpl. eapply triple_bind; [apply reactor_one | intros []; exact IH]. Qed.

(** [block] keeps the invariant. *)
Lemma reactor_block drops poll : triple I (block strategy drops poll) (fun _ => I) E.
Proof.
  unfold block. eapply (triple_bind _ _ _ (fun _ => I)).
  { intros w Hw. apply I_moves; [done | split_and!; [done | done | simpl; tauto | done] | | done]. by eapply mon_inv_ext; [..|apply (I_mon _ Hw)]. }
  intros _. eapply (triple_bind _ _ _ (fun _ => I)); [by intros w Hw|]. intros m. destruct (m_dropped m); [|apply reactor_report_dropped].
  destruct (sleepIfEmpty poll m); [apply timeout_ok|].
  eapply (triple_bind _ _ _ (fun _ => I)); [by intros w Hw|]. intros fuel.
  eapply (triple_bind _ _ _ (fun _ => I)).
  { intros w Hw. pose proof (poll_loop_same fuel poll w) as Hs. pose proof (poll_loop_inv sg given fuel poll w (I_mon _ Hw)) as Hm.
    assert (I (poll_loop fuel poll w).1) by by eapply reactor_same. destruct (poll_loop fuel poll w) as [w' [x|e]]; [done | by apply I_E]. }
  intros [| |l]; [apply errors_ok | apply errors_ok|]. simpl. destruct (existsb _ _); [apply reactor_list | apply timeout_ok].
Qed.
End Reactor.
