(* ===== verification/Initiator.v ===== *)
(** * The socket initiator ([src/C++/Initiator.h], [Initiator.cpp], [SocketInitiator.h], [SocketInitiator.cpp], [SocketConnector.cpp])

    A session of the initiator is disconnected, pending or connected. The reactor
    connects disconnected sessions when they are due, hands what sockets report to
    their connections, and runs the sessions' timers once a second. *)
From stdpp Require Import sorting.
From S2P Require Import Prelude DateTime Convertors Values Settings SocketSettings Parser Sockets Monitor Connection Engine.

Record Initiator := mkInitiator {
  i_pending : gset str;
  i_connected : gset str;
  i_disconnected : gset str;
  i_lastConnectAttempt : gmap str Z;
  i_hosts : Attempts;                     (* [m_hostDetailsProvider] *)
  i_pendingConnections : gmap Z nat;
  i_connections : gmap Z nat;
  i_lastConnect : Z;                      (* the second of the last sweep *)
  i_stop : bool
}.

Definition with_states (pending connected disconnected : gset str) (i : Initiator) : Initiator :=
  mkInitiator pending connected disconnected (i_lastConnectAttempt i) (i_hosts i) (i_pendingConnections i) (i_connections i)
    (i_lastConnect i) (i_stop i).
Definition with_attempts (attempts : gmap str Z) (hosts : Attempts) (i : Initiator) : Initiator :=
  mkInitiator (i_pending i) (i_connected i) (i_disconnected i) attempts hosts (i_pendingConnections i) (i_connections i)
    (i_lastConnect i) (i_stop i).
Definition with_connections (pending connections : gmap Z nat) (i : Initiator) : Initiator :=
  mkInitiator (i_pending i) (i_connected i) (i_disconnected i) (i_lastConnectAttempt i) (i_hosts i) pending connections
    (i_lastConnect i) (i_stop i).
Definition with_lastConnect (now : Z) (i : Initiator) : Initiator :=
  mkInitiator (i_pending i) (i_connected i) (i_disconnected i) (i_lastConnectAttempt i) (i_hosts i) (i_pendingConnections i)
    (i_connections i) now (i_stop i).
Definition with_stop (b : bool) (i : Initiator) : Initiator :=
  mkInitiator (i_pending i) (i_connected i) (i_disconnected i) (i_lastConnectAttempt i) (i_hosts i) (i_pendingConnections i)
    (i_connections i) (i_lastConnect i) b.

(** [setPending], [setConnected], [setDisconnected]. *)
Definition setPending (id : str) (i : Initiator) : Initiator :=
  with_states ({[id]} ∪ i_pending i) (i_connected i ∖ {[id]}) (i_disconnected i ∖ {[id]}) i.
Definition setConnected (id : str) (i : Initiator) : Initiator :=
  with_states (i_pending i ∖ {[id]}) ({[id]} ∪ i_connected i) (i_disconnected i ∖ {[id]}) i.
Definition setDisconnected (id : str) (i : Initiator) : Initiator :=
  with_states (i_pending i ∖ {[id]}) (i_connected i ∖ {[id]}) ({[id]} ∪ i_disconnected i) i.

(** [std::set] and [std::map] of session identifiers go by their strings. *)
Definition str_le (a b : str) : Prop := str_ltb b a = false.
#[export] Instance str_le_dec a b : Decision (str_le a b) := decide (str_ltb b a = false).
Definition ascending_ids (X : gset str) : list str := merge_sort str_le (elements X).

Lemma elem_of_ascending_ids id X : id ∈ ascending_ids X <-> id ∈ X.
Proof. unfold ascending_ids. rewrite merge_sort_Permutation. apply elem_of_elements. Qed.

Lemma NoDup_ascending_ids X : NoDup (ascending_ids X).
Proof. unfold ascending_ids. rewrite merge_sort_Permutation. apply NoDup_elements. Qed.

Definition reconnectInterval (settings : Dictionary) : result Z :=
  if dict_has settings RECONNECT_INTERVAL then getInt settings RECONNECT_INTERVAL else mret 30.

Section Initiator.
Context {S : Type} `{SessionInterface S} `{Clocks} (settings : gmap str Dictionary).
Abbreviation R := (R (Engine S * Initiator)).
Implicit Types (id : str) (s : Z) (d : Dictionary).

Definition state {X} (f : Initiator -> X) : R X := gets (fun w => f (transport w)).

(** ** Connecting *)

(** [SocketConnector::connect]. The options, the binding and the request go to the
    system, which reports their outcome to the monitor. *)
Definition connector_connect : R Z :=
  socket ← on_kernel socket_new;
  _ ← when (negb (socket =? INVALID_SOCKET_HANDLE)) (_ ← on_mon (addConnect socket); mret ());
  mret socket.

(** [new SocketConnection(initiator, id, socket, monitor)]; [Initiator::getSession]
    gives the session its responder, and the session is what it returns. The time is
    read last. *)
Definition new_connection id s : R nat :=
  p ← alloc (initiated_connection s id (Some id) 0);
  try_catch
    (_ ← setResponder id p;
     now ← now_seconds;
     _ ← store p (initiated_connection s id (Some id) now);
     mret p)
    (fun e => Some (_ ← free p; raise e)).

Definition doConnect_body id d : R unit :=
  pSession ← session id;
  now ← now_utc;
  if negb (so_isSessionTime now pSession) then mret ()
  else
    now ← now_seconds;
    attempts ← state i_hosts;
    let '(attempts, host) := getHost now id d attempts in
    _ ← on_transport (fun i => with_attempts (i_lastConnectAttempt i) attempts i);
    _ ← lift host;
    _ ← lift (reconnectInterval d);
    _ ← lift (getSocketNoDelay d);
    _ ← lift (getSocketBufferSize d SOCKET_SEND_BUFFER_SIZE);
    _ ← lift (getSocketBufferSize d SOCKET_RECEIVE_BUFFER_SIZE);
    socket ← connector_connect;
    _ ← on_transport (setPending id);
    p ← new_connection id socket;
    on_transport (fun i => with_connections (<[socket := p]> (i_pendingConnections i)) (i_connections i) i).

Definition doConnect id d : R unit :=
  try_catch (doConnect_body id d) (fun e => if is_exception e then Some (mret ()) else None).

(** [Initiator::connect]: one disconnected session. *)
Definition connect_one (now : Z) id : R unit :=
  o ← gets (fun w => e_sessions (engine w) !! id);
  match o with
  | None => mret ()
  | Some pSession =>
      if negb (so_isEnabled pSession) then mret ()
      else
        utc ← now_utc;
        if negb (so_isSessionTime utc pSession) then mret ()
        else
          d ← lift (of_option (ConfigError (lit "Session not found")) (settings !! id));
          last ← state (fun i => i_lastConnectAttempt i !! id);
          interval ← (match last with None => mret 0 | Some _ => lift (reconnectInterval d) end);
          if match last with Some last => i32 (now - last) <? interval | None => false end then mret ()
          else
            _ ← on_transport (fun i => with_attempts (<[id := now]> (i_lastConnectAttempt i)) (i_hosts i) i);
            doConnect id d
  end.

Fixpoint connect_all (now : Z) (l : list str) : R unit :=
  match l with [] => mret () | id :: l => _ ← connect_one now id; connect_all now l end.

Definition connect : R unit :=
  n ← on_kernel tick;
  disconnected ← state i_disconnected;
  connect_all (i32 (Z.quot (monotonicMillis n) 1000)) (ascending_ids disconnected).

(** ** What the reactor reports *)

(** The session of a connection, whose identifier is asked for. *)
Definition session_of (p : nat) : R str :=
  c ← deref p;
  match c_session c with Some id => mret id | None => dangling end.

Definition i_onConnect s : R unit :=
  o ← state (fun i => i_pendingConnections i !! s);
  match o with
  | None => mret ()
  | Some p =>
      _ ← on_transport (fun i => with_connections (delete s (i_pendingConnections i)) (<[s := p]> (i_connections i)) i);
      id ← session_of p;
      _ ← on_transport (setConnected id);
      connection_onTimeout p
  end.

Definition i_onWrite s : R unit :=
  o ← state (fun i => i_connections i !! s);
  match o with None => mret () | Some p => connection_onWrite p end.

(** [SocketConnection::read(connector)] *)
Definition connector_read (p : nat) : R bool :=
  c ← deref p;
  match c_session c with
  | None => mret false
  | Some _ =>
      try_catch (_ ← readFromSocket p; _ ← readMessages p; mret true)
        (fun e => match e with SocketRecvFailed _ | MessageParseError _ => Some (mret false) | _ => None end)
  end.

Definition i_onData s : R bool :=
  o ← state (fun i => i_connections i !! s);
  match o with None => mret false | Some p => connector_read p end.

Definition i_onDisconnect s : R unit :=
  i ← state (fun i => i_connections i !! s);
  j ← state (fun i => i_pendingConnections i !! s);
  match (match j with Some p => Some p | None => i end) with
  | None => mret ()
  | Some p =>
      id ← session_of p;
      _ ← on_transport (setDisconnected id);
      _ ← on_session id so_disconnect;
      _ ← on_transport (setDisconnected id);
      _ ← delete_connection p;
      on_transport (fun i => with_connections (delete s (i_pendingConnections i)) (delete s (i_connections i)) i)
  end.

Fixpoint time_out_all (l : list nat) : R unit :=
  match l with [] => mret () | p :: l => _ ← connection_onTimeout p; time_out_all l end.

(** The connections in the order of their sockets. *)
Definition in_order (m : gmap Z nat) : list nat := omap (fun s => m !! s) (ascending (dom m)).

Definition i_onTimeout : R unit :=
  _ ← connect;
  connections ← state i_connections;
  time_out_all (in_order connections).

(** [ConnectorWrapper] *)
Definition connector_strategy : Strategy (C := Engine S * Initiator) :=
  mkStrategy i_onConnect
    (fun s => b ← i_onData s; when (negb b) (i_onDisconnect s))
    i_onWrite
    (fun s => b ← drop_socket s; when (negb b) (i_onDisconnect s))
    i_onTimeout
    i_onTimeout.

(** ** The loop *)

(** The sweep, at most once in each second. *)
Definition sweep : R unit :=
  now ← now_seconds;
  last ← state i_lastConnect;
  when (negb (now =? last)) (_ ← on_transport (with_lastConnect now); i_onTimeout).

(** One pass of [onStart]'s loop, and what [onPoll] does while it is not stopped. *)
Definition pass (drops : nat) (poll : bool) : R unit := _ ← block connector_strategy drops poll; sweep.

(** [isLoggedOn()]: some connected session is. *)
Fixpoint any_logged_on (l : list str) : R bool :=
  match l with
  | [] => mret false
  | id :: l => s ← session id; if so_isLoggedOn s then mret true else any_logged_on l
  end.

Definition isLoggedOn : R bool := connected ← state i_connected; any_logged_on (ascending_ids connected).

(** [onStart] after the loop: sessions log out, for five seconds at most. *)
Fixpoint log_out (fuel drops : nat) (start : Z) : R unit :=
  match fuel with
  | O => raise OutOfFuel
  | Datatypes.S fuel =>
      b ← isLoggedOn;
      if b : bool then
        _ ← block connector_strategy drops false;
        now ← now_seconds;
        if start <=? now - 5 then mret () else log_out fuel drops start
      else mret ()
  end.

(** [onPoll()] *)
Definition onPoll (drops : nat) : R bool :=
  stopped ← state i_stop;
  start ← (if stopped : bool then now_seconds else mret 0);
  on ← (if stopped : bool then isLoggedOn else mret true);
  if negb on then mret false
  else
    now ← (if stopped : bool then now_seconds else mret 0);
    if stopped && (start <=? now - 5) then mret false
    else _ ← pass drops true; mret true.
End Initiator.
