(* ===== verification/InitiatorProps.v ===== *)
(** * What the initiator guarantees

    For any sessions that keep their promises and anything the system answers: no
    descriptor is lost, no pointer dangles, and the initiator's account of its
    sessions is true. *)
From stdpp Require Import sorting relations.
From S2P Require Import Prelude DateTime Convertors Values Settings SocketSettings Parser Sockets Monitor MonitorProps Connection Engine EngineProps Triples Reactor Initiator.

(** ** The strategy is lawful *)

Section Lawful.
Context {S : Type} `{SessionInterface S} `{Clocks} (settings : gmap str Dictionary).

Lemma does_state {X} opens (f : Initiator -> X) : does opens (state (S := S) f).
Proof. apply does_gets. Qed.
Hint Resolve does_state : does.

Lemma does_connector_connect : does true (connector_connect (S := S)).
Proof. apply does_new_connect. Qed.
Hint Resolve does_connector_connect : does.

Lemma does_new_connection opens id s : does opens (new_connection (S := S) id s).
Proof. unfold new_connection, now_seconds. does_all. Qed.
Hint Resolve does_new_connection : does.

Lemma does_doConnect id d : does true (doConnect (S := S) id d).
Proof. unfold doConnect, doConnect_body, now_utc, now_seconds. does_all. Qed.
Hint Resolve does_doConnect : does.

Lemma does_connect : does true (connect (S := S) settings).
Proof.
  unfold connect. apply does_bind; [does_all|]. intros n. apply does_bind; [does_all|]. intros disconnected.
  generalize (i32 (Z.quot (monotonicMillis n) 1000)). intros now. induction (ascending_ids disconnected) as [|id l IH]; simpl; [does_all|].
  apply does_bind; [|intros _; exact IH]. unfold connect_one, now_utc. does_all.
Qed.
Hint Resolve does_connect : does.

Lemma does_session_of opens p : does opens (session_of (S := S) p).
Proof. unfold session_of. does_all. Qed.
Hint Resolve does_session_of : does.

Lemma does_i_onConnect opens s : does opens (i_onConnect (S := S) s).
Proof. unfold i_onConnect. does_all. Qed.
Lemma does_i_onWrite opens s : does opens (i_onWrite (S := S) s).
Proof. unfold i_onWrite. does_all. Qed.
Lemma does_i_onData opens s : does opens (i_onData (S := S) s).
Proof. unfold i_onData, connector_read. does_all. Qed.
Lemma does_i_onDisconnect opens s : does opens (i_onDisconnect (S := S) s).
Proof. unfold i_onDisconnect. does_all. Qed.
Hint Resolve does_i_onConnect does_i_onWrite does_i_onData does_i_onDisconnect : does.

Lemma does_i_onTimeout : does true (i_onTimeout (S := S) settings).
Proof.
  unfold i_onTimeout. apply does_bind; [does_all|]. intros _. apply does_bind; [does_all|]. intros connections.
  induction (in_order connections) as [|p l IH]; simpl; [does_all|]. apply does_bind; [does_all | intros _; exact IH].
Qed.
Hint Resolve does_i_onTimeout : does.

#[export] Instance connector_lawful : Lawful (connector_strategy (S := S) settings).
Proof. split; intros; unfold connector_strategy; cbn [onConnect onEvent onWrite onError onErrors onTimeout]; unfold drop_socket; does_all. Qed.

Lemma does_sweep : does true (sweep (S := S) settings).
Proof. unfold sweep, now_seconds. does_all. Qed.
End Lawful.

#[export] Hint Resolve does_state does_connector_connect does_new_connection does_doConnect does_connect does_session_of does_i_onConnect
  does_i_onWrite does_i_onData does_i_onDisconnect does_i_onTimeout does_sweep : does.

(** ** The invariant *)

Section Invariant.
Context {S : Type} `{SessionInterface S} `{Clocks} `{!SessionLaws S} (settings : gmap str Dictionary).
Context (sg : Z) (given : gset Z) (ids : gset str).
Abbreviation W := (World (Engine S * Initiator)).
Abbreviation R := (R (Engine S * Initiator)).
Implicit Types (w : W) (id : str) (s : Z) (p : nat).

(** A connection of a table: it is live, its session is in a state [X], and the
    monitor watches its socket in [sets] and is its session's responder, or the
    socket was dropped and will be reported; -1 is the socket that was never made. *)
Definition entry_ok w (X : gset str) (sets : gset Z) s p : Prop :=
  exists id, live p s (Some id) w /\ id ∈ X /\
    (s < 0 \/ s ∈ m_dropped (w_mon w) \/ (s ∈ sets /\ e_responder (engine w) !! id = Some p)).

Definition entry w s p : Prop := i_pendingConnections (transport w) !! s = Some p \/ i_connections (transport w) !! s = Some p.

Definition positive w : Prop := forall s, s ∈ k_open (w_kernel w) -> 0 <= s.

(** [except] is a session between two states, as in [engine_ok]. *)
Record init_at (except : option str) w : Prop := {
  io_engine : engine_ok except (engine w);
  io_ids : dom (e_sessions (engine w)) = ids;
  io_mon : mon_inv sg given w;
  io_positive : positive w;
  io_partition : i_pending (transport w) ∪ i_connected (transport w) ∪ i_disconnected (transport w) = ids;
  io_disjoint : i_pending (transport w) ## i_connected (transport w) /\ i_pending (transport w) ## i_disconnected (transport w) /\
                i_connected (transport w) ## i_disconnected (transport w);
  io_pending s p : i_pendingConnections (transport w) !! s = Some p ->
    entry_ok w (i_pending (transport w)) (m_connectSockets (w_mon w)) s p;
  io_connections s p : i_connections (transport w) !! s = Some p ->
    0 <= s /\ entry_ok w (i_connected (transport w)) (m_readSockets (w_mon w)) s p;
  io_apart s p q : i_pendingConnections (transport w) !! s = Some p -> i_connections (transport w) !! s = Some q -> False;
  io_one s1 p1 s2 p2 id : entry w s1 p1 -> entry w s2 p2 -> live p1 s1 (Some id) w -> live p2 s2 (Some id) w -> s1 = s2;
  io_connected id : id ∈ i_connected (transport w) -> exists s p, i_connections (transport w) !! s = Some p /\ live p s (Some id) w
}.

Abbreviation init_ok := (init_at None).

Lemma entry_evolves w w' X sets sets' s p :
  evolves w w' -> (forall s, s ∈ sets -> s ∈ sets' \/ s ∈ m_dropped (w_mon w')) ->
  sets' ⊆ m_connectSockets (w_mon w') ∪ m_readSockets (w_mon w') -> entry_ok w X sets s p -> entry_ok w' X sets' s p.
Proof.
  intros Hev Hsets Hsub (id & Hl & Hid & Hor). exists id. split_and!; [by apply (live_stable _ _ _ w) | done|].
  destruct Hor as [?|[Hd|[Hs Hr]]]; [by left | right; left; by apply (ev_dropped _ _ Hev)|].
  destruct (Hsets s Hs) as [Hs'|Hd]; [|auto]. destruct (e_responder (engine w') !! id) as [p'|] eqn:Er.
  - pose proof (ev_responder _ _ Hev _ _ Er) as Er'. rewrite Hr in Er'. injection Er' as <-. auto.
  - destruct Hl as (c & Ec & Es & _). destruct (ev_gone _ _ Hev id p c Hr Er Ec) as [Ha Hb]. rewrite Es in Ha, Hb. set_solver.
Qed.

(** While no connection comes or goes. *)
Lemma init_evolves x w w' :
  init_ok w -> evolves w w' -> engine_ok x (engine w') -> mon_inv sg given w' -> positive w' -> init_at x w'.
Proof.
  intros [H1 H2 H3 H4 H5 H6 H7 H8 H9 H10 H11] Hev He Hm Hp.
  assert (forall s, s ∈ m_connectSockets (w_mon w) -> s ∈ m_connectSockets (w_mon w') \/ s ∈ m_dropped (w_mon w')) as Hc.
  { intros s Hs. destruct (ev_out _ _ Hev s) as [?|[Hr|?]]; [by left | by left | | by right]. pose proof (inv_connect _ _ _ H3). pose proof (ev_read _ _ Hev). set_solver. }
  assert (forall s, s ∈ m_readSockets (w_mon w) -> s ∈ m_readSockets (w_mon w') \/ s ∈ m_dropped (w_mon w')) as Hr.
  { intros s Hs. destruct (ev_out _ _ Hev s) as [Hr|[?|?]]; [by right | | by left | by right]. pose proof (inv_connect _ _ _ H3). pose proof (ev_connect _ _ Hev). set_solver. }
  split; unfold entry in *; rewrite ?(ev_transport _ _ Hev); try done.
  - rewrite <- H2. apply set_eq. intros id. rewrite !elem_of_dom. apply (ev_sessions _ _ Hev).
  - intros s p E. eapply entry_evolves; [exact Hev | exact Hc | set_solver | by apply H7].
  - intros s p E. destruct (H8 s p E) as [? ?]. split; [done|]. eapply entry_evolves; [exact Hev | exact Hr | set_solver | done].
  - intros s1 p1 s2 p2 id E1 E2 L1 L2. eapply H10; [exact E1 | exact E2 | by eapply live_back | by eapply live_back].
  - intros id Hid. destruct (H11 id Hid) as (s & p & E & Hl). exists s, p. split; [done | by apply (live_stable _ _ _ w)].
Qed.

Lemma action_positive opens w w' : action opens w w' -> positive w -> positive w'.
Proof.
  assert (forall s k k', socket_new k = (s, k') -> (forall s, s ∈ k_open k -> 0 <= s) -> forall s, s ∈ k_open k' -> 0 <= s) as Hnew.
  { intros s k k' E Hk s'. destruct (socket_new_open _ _ _ E) as [[_ ->]|(Hs & _ & ->)]; [apply Hk|]. rewrite elem_of_union, elem_of_singleton. intros [ ->|?]; auto. }
  intros Ha Hp. destruct Ha as [f w|w s k _ E _|w s k _ E _|w s k E _|s w|s w|s w|s w|s w|s data w|size w|w]; try done;
    try (unfold positive in *; simpl; by eapply Hnew).
  - unfold positive in *. simpl. by rewrite (proj1 (socket_send_open _ _ _)).
  - unfold positive in *. simpl. by rewrite (proj1 (socket_recv_open _ _)).
Qed.

Lemma acts_positive opens w w' : acts opens w w' -> positive w -> positive w'.
Proof. induction 1 as [w|w1 w2 w3 Ha _ IH]; [done|]. intros Hp. by eapply IH, action_positive. Qed.

(** A safe computation keeps the invariant. *)
Lemma init_safe {X} P (Q : X -> Prop) (m : R X) :
  safe None P Q m -> does true m -> triple (fun w => init_ok w /\ P w) m (fun x w => init_ok w /\ Q x) init_ok.
Proof.
  intros Hs Hd w [Hw HP]. destruct (Hs w (io_engine _ _ Hw) HP) as (H1 & H2 & H3). specialize (Hd w).
  assert (init_ok (m w).1) as Hi.
  { eapply init_evolves; [exact Hw | done | done | eapply mon_inv_acts; [exact Hd | apply Hw] | eapply acts_positive; [exact Hd | apply Hw]]. }
  destruct (m w) as [w' [x|e]]; auto.
Qed.

(** ** Connecting *)

(** The initiator's own members that the invariant does not read. *)
Lemma init_transport f :
  (forall i, i_pending (f i) = i_pending i /\ i_connected (f i) = i_connected i /\ i_disconnected (f i) = i_disconnected i /\
             i_pendingConnections (f i) = i_pendingConnections i /\ i_connections (f i) = i_connections i) ->
  forall w, init_ok w -> init_ok (on_transport (S := S) f w).1.
Proof.
  intros Hf w [H1 H2 H3 H4 H5 H6 H7 H8 H9 H10 H11]. unfold on_transport, on_client, set_client. simpl.
  destruct w as [m k [e i]]. unfold entry, entry_ok, positive, live, transport, engine in *. simpl in *.
  destruct (Hf i) as (E1 & E2 & E3 & E4 & E5).
  split; unfold entry, entry_ok, positive, live, transport, engine; simpl; rewrite ?E1, ?E2, ?E3, ?E4, ?E5; try done.
  by eapply mon_inv_ext; [..|exact H3].
Qed.

(** Moving a session from one state to another. *)
Lemma move_partition (A B D : gset str) id :
  id ∈ A -> A ∪ B ∪ D = ids -> A ## B -> A ## D -> B ## D ->
  (A ∖ {[id]}) ∪ ({[id]} ∪ B) ∪ (D ∖ {[id]}) = ids /\ A ∖ {[id]} ## {[id]} ∪ B /\ A ∖ {[id]} ## D ∖ {[id]} /\ {[id]} ∪ B ## D ∖ {[id]}.
Proof.
  intros H1 <- H2 H3 H4. split_and!; [|set_solver..]. apply set_eq. intros x. rewrite !elem_of_union, !elem_of_difference, elem_of_singleton.
  destruct (decide (x = id)) as [ ->|]; [|tauto]. assert (id ∉ B) by set_solver. tauto.
Qed.

(** A session that is about to get a connection on socket [s]. *)
Record connecting id s w : Prop := {
  cn_ok : init_ok w;
  cn_pending : id ∈ i_pending (transport w);
  cn_unused s' p' : entry w s' p' -> ~ live p' s' (Some id) w;
  cn_new : i_connections (transport w) !! s = None;
  cn_socket : s < 0 \/ ((s ∈ m_connectSockets (w_mon w) \/ s ∈ m_dropped (w_mon w)) /\ (s ∉ m_readSockets (w_mon w)))
}.

Lemma connecting_evolves id s w w' : connecting id s w -> evolves w w' -> init_ok w' -> connecting id s w'.
Proof.
  intros [H1 H2 H3 H4 H5] Hev Hi. split; unfold entry in *; rewrite ?(ev_transport _ _ Hev); try done.
  - intros s' p' He Hl. apply (H3 s' p' He). by eapply live_back.
  - destruct H5 as [?|[Hs Hr]]; [by left | right]. pose proof (ev_read _ _ Hev) as Hrr. split; [|set_solver].
    destruct Hs as [Hs|Hd]; [|right; by apply (ev_dropped _ _ Hev)]. destruct (ev_out _ _ Hev s) as [?|[?|?]]; [by left | by left | set_solver | by right].
Qed.

(** A session in [disconnected] has no connection. *)
Lemma disconnected_unused id w s p : init_ok w -> id ∈ i_disconnected (transport w) -> entry w s p -> ~ live p s (Some id) w.
Proof.
  intros Hw Hid [E|E] (c & Ec & _ & Eo).
  - destruct (io_pending _ _ Hw s p E) as (id' & (c' & Ec' & _ & Eo') & Hid' & _). rewrite Ec in Ec'. injection Ec' as <-. rewrite Eo in Eo'.
    injection Eo' as <-. destruct (io_disjoint _ _ Hw) as (_ & Hd & _). set_solver.
  - destruct (io_connections _ _ Hw s p E) as (_ & id' & (c' & Ec' & _ & Eo') & Hid' & _). rewrite Ec in Ec'. injection Ec' as <-. rewrite Eo in Eo'.
    injection Eo' as <-. destruct (io_disjoint _ _ Hw) as (_ & _ & Hd). set_solver.
Qed.

(** Only what is connected or pending, and the tables, matters. *)
Lemma init_states w pending connected disconnected :
  init_ok w -> pending ∪ connected ∪ disconnected = ids -> pending ## connected -> pending ## disconnected -> connected ## disconnected ->
  (forall s p id, i_pendingConnections (transport w) !! s = Some p -> live p s (Some id) w -> id ∈ i_pending (transport w) -> id ∈ pending) ->
  (forall s p id, i_connections (transport w) !! s = Some p -> live p s (Some id) w -> id ∈ i_connected (transport w) -> id ∈ connected) ->
  connected ⊆ i_connected (transport w) ->
  init_ok (on_transport (S := S) (with_states pending connected disconnected) w).1.
Proof.
  intros [H1 H2 H3 H4 H5 H6 H7 H8 H9 H10 H11] Hu Hd1 Hd2 Hd3 Hp Hc Hsub. destruct w as [m k [e i]].
  unfold entry, entry_ok, positive, live, on_transport, on_client, set_client, transport, engine in *. simpl in *.
  split; unfold entry, entry_ok, positive, live, transport, engine; simpl; try done.
  - by eapply mon_inv_ext; [..|exact H3].
  - intros s p E. destruct (H7 s p E) as (id & Hl & Hid & Hor). exists id. split_and!; [done | by eapply Hp | done].
  - intros s p E. destruct (H8 s p E) as (Hs & id & Hl & Hid & Hor). split; [done|]. exists id. split_and!; [done | by eapply Hc | done].
  - intros id Hid. apply H11. set_solver.
Qed.

Lemma connector_connect_ok id :
  triple (fun w => init_ok w /\ id ∈ i_disconnected (transport w)) (connector_connect (S := S))
    (fun s w => (init_ok w /\ id ∈ i_disconnected (transport w)) /\ i_connections (transport w) !! s = None /\
       (s < 0 \/ ((s ∈ m_connectSockets (w_mon w) \/ s ∈ m_dropped (w_mon w)) /\ (s ∉ m_readSockets (w_mon w)))))
    init_ok.
Proof.
  intros w [Hw Hid]. pose proof (does_connector_connect w) as Hd. pose proof (mon_inv_acts sg given _ _ _ Hd (io_mon _ _ Hw)) as Hm.
  pose proof (acts_positive _ _ _ Hd (io_positive _ _ Hw)) as Hp. clear Hd. revert Hm Hp.
  unfold connector_connect, mbind, R_bind, on_kernel. destruct (socket_new (w_kernel w)) as [s k] eqn:E.
  assert (forall s, 0 <= s -> s ∉ k_open (w_kernel w) -> i_connections (transport w) !! s = None) as Hnone.
  { intros s' Hs' Hno. apply eq_None_not_Some. intros [p Ep]. destruct (io_connections _ _ Hw s' p Ep) as (_ & id' & _ & _ & Hor).
    apply Hno. rewrite (inv_open _ _ _ (io_mon _ _ Hw)). destruct Hor as [?|[Hin|[Hin _]]]; [lia | |].
    - apply elem_of_union. right. by apply elem_of_list_to_set.
    - set_solver. }
  destruct (socket_new_open _ _ _ E) as [[ -> Ho]|(Hs & Hno & Ho)]; simpl.
  - intros Hm Hp. split_and!.
    + destruct Hw as [H1 H2 H3 H4 H5 H6 H7 H8 H9 H10 H11]. split; try done.
    + done.
    + apply eq_None_not_Some. intros [p Ep]. destruct (io_connections _ _ Hw _ p Ep). done.
    + left. done.
  - destruct (Z.eqb_spec s INVALID_SOCKET_HANDLE) as [ ->|_]; [done|]. simpl. unfold mbind, R_bind, on_mon, addConnect.
    pose proof (inv_open _ _ _ (io_mon _ _ Hw)) as Hopen. rewrite Hopen in Hno. rewrite !not_elem_of_union, not_elem_of_list_to_set in Hno.
    destruct Hno as (((Hg & Hc) & Hr) & Hdr). simpl. rewrite bool_decide_eq_false_2 by done. simpl. intros Hm Hp. split_and!.
    + destruct Hw as [H1 H2 H3 H4 H5 H6 H7 H8 H9 H10 H11]. split; try done.
      intros s' p E'. destruct (H7 s' p E') as (id' & Hl & Hid' & Hor). exists id'. split_and!; [done | done|]. simpl. set_solver.
    + done.
    + apply Hnone; [done|]. rewrite Hopen, !not_elem_of_union, not_elem_of_list_to_set. tauto.
    + right. simpl. set_solver.
Qed.

(** A connection that was just made, before the tables have it. *)
Record fresh_conn id s p w : Prop := {
  fc_connecting : connecting id s w;
  fc_live : live p s (Some id) w;
  fc_nobody id' : e_responder (engine w) !! id' <> Some p;
  fc_unlisted s' : ~ entry w s' p
}.

Lemma entry_live w s p : init_ok w -> entry w s p -> is_Some (e_heap (engine w) !! p).
Proof.
  intros Hw [E|E].
  - destruct (io_pending _ _ Hw s p E) as (id & (c & Ec & _) & _). by eexists.
  - destruct (io_connections _ _ Hw s p E) as (_ & id & (c & Ec & _) & _). by eexists.
Qed.

Lemma alloc_ok id s c w :
  connecting id s w -> c_socket c = s -> c_session c = Some id ->
  exists p w', alloc c w = (w', Ok p) /\ fresh_conn id s p w'.
Proof.
  intros Hcn Hs Ho. destruct Hcn as [Hw H2 H3 H4 H5]. pose proof Hw as [G1 G2 G3 G4 G5 G6 G7 G8 G9 G10 G11].
  set (p := e_fresh (engine w)). assert (e_heap (engine w) !! p = None) as Hnone.
  { apply eq_None_not_Some. intros Hin. pose proof (eo_fresh _ _ G1 p Hin). unfold p in *. lia. }
  set (w' := (alloc c w).1).
  assert (forall q, q <> p -> e_heap (engine w') !! q = e_heap (engine w) !! q) as Hold by (intros q Hq; unfold w'; simpl; by rewrite lookup_insert_ne).
  assert (forall q, is_Some (e_heap (engine w) !! q) -> q <> p) as Hne by (intros q Hq ->; by rewrite Hnone in Hq; destruct Hq).
  assert (forall q s o, live q s o w -> live q s o w') as Hl.
  { intros q s' o (c' & Ec & ?). exists c'. rewrite Hold; [done|]. apply Hne. by eexists. }
  assert (forall q s' o, is_Some (e_heap (engine w) !! q) -> live q s' o w' -> live q s' o w) as Hlb.
  { intros q s' o Hq (c' & Ec & ?). exists c'. by rewrite <- Hold by (by apply Hne). }
  assert (forall X sets s' q, entry_ok w X sets s' q -> entry_ok w' X sets s' q) as Hentry.
  { intros X sets s' q (id' & Hlive & ? & ?). exists id'. split_and!; [by apply Hl | done | done]. }
  assert (init_ok w') as Hw'.
  { split; try done.
    - destruct G1 as [E1 E2 E3 E4 E5]. split; try done.
      + intros id' q Hq. destruct (E1 id' q Hq) as (d & Ed & Hd). exists d. rewrite Hold; [done | apply Hne; by eexists].
      + intros q d id' Ed Hd. destruct (decide (q = p)) as [ ->|Hq].
        * unfold w' in Ed. simpl in Ed. rewrite lookup_insert_eq in Ed. injection Ed as <-. rewrite Ho in Hd. injection Hd as <-.
          change (is_Some (e_sessions (engine w) !! id)). apply elem_of_dom. rewrite G2. rewrite <- G5. set_solver.
        * rewrite Hold in Ed by done. by eapply E2.
      + intros q Hq. change (e_fresh (engine w')) with (Datatypes.S p). destruct (decide (q = p)); [lia|]. rewrite Hold in Hq by done.
        specialize (E3 q Hq). unfold p. lia.
    - by eapply mon_inv_ext; [..|exact G3].
    - intros s' q E. apply Hentry. by apply G7.
    - intros s' q E. destruct (G8 s' q E). split; [done | by apply Hentry].
    - intros s1 p1 s2 p2 id' En1 En2 L1 L2. eapply G10; [exact En1 | exact En2 | |]; apply Hlb; try done; by eapply entry_live.
    - intros id' Hid. destruct (G11 id' Hid) as (s' & q & E & Hlive). exists s', q. split; [done | by apply Hl]. }
  exists p, w'. split; [done|]. split.
  - split; try done. intros s' q He Hlive. apply (H3 s' q He). apply Hlb; [by eapply entry_live | done].
  - exists c. split_and!; [|done|done]. unfold w'. simpl. by rewrite lookup_insert_eq.
  - intros id' Hr. destruct (eo_responder _ _ G1 id' p Hr) as (d & Ed & _). congruence.
  - intros s' He. destruct (entry_live w s' p Hw He) as [d Ed]. congruence.
Qed.

Lemma fresh_evolves id s p w w' : fresh_conn id s p w -> evolves w w' -> init_ok w' -> fresh_conn id s p w'.
Proof.
  intros [H1 H2 H3 H4] Hev Hi. split.
  - by eapply connecting_evolves.
  - by apply (live_stable _ _ _ w).
  - intros id' Hr. by apply (H3 id'), (ev_responder _ _ Hev).
  - intros s' He. apply (H4 s'). unfold entry in *. by rewrite <- (ev_transport _ _ Hev).
Qed.

(** The session's new responder. *)
Lemma setResponder_ok id s p :
  triple (fresh_conn id s p) (setResponder (S := S) id p)
    (fun _ w => connecting id s w /\ live p s (Some id) w /\ e_responder (engine w) !! id = Some p) (fresh_conn id s p).
Proof.
  intros w Hf. pose proof (cn_ok _ _ _ (fc_connecting _ _ _ _ Hf)) as Hw. pose proof (fc_live _ _ _ _ Hf) as Hlive.
  destruct (setResponder_spec id s p w (io_engine _ _ Hw) Hlive) as [Hev Hs]. pose proof (does_on_session true id so_setResponder w) as Hd.
  set (w2 := (on_session id so_setResponder w).1) in *.
  pose proof (mon_inv_acts _ _ _ _ _ Hd (io_mon _ _ Hw)) as Hm. pose proof (acts_positive _ _ _ Hd (io_positive _ _ Hw)) as Hp.
  destruct (setResponder id p w) as [w3 [[]|e]].
  - destruct Hs as (-> & He2 & He3). pose proof (init_evolves (Some id) _ _ Hw Hev He2 Hm Hp) as Hi2. clear Hd Hm Hp.
    destruct Hf as [[Hcw H2 H3 H4 H5] _ Hnob Hunl].
    assert (forall s' q, entry w2 s' q -> ~ live q s' (Some id) w2) as H3'.
    { intros s' q En Hl. apply (H3 s' q); [unfold entry in *; by rewrite <- (ev_transport _ _ Hev) | by eapply live_back]. }
    pose proof (live_stable p s (Some id) w w2 Hev Hlive) as Hlive2. unfold on_engine, on_client in *. simpl in *.
    set (w3 := set_client (fun c => (set_responders <[id:=p]> c.1, c.2)) w2) in *.
    assert (e_responder (engine w3) !! id = Some p) as Hrp by (unfold w3; simpl; by rewrite lookup_insert_eq).
    assert (forall id', id' <> id -> e_responder (engine w3) !! id' = e_responder (engine w2) !! id') as Hrn
      by (intros id' Hne; unfold w3; simpl; by rewrite lookup_insert_ne).
    assert (forall X sets s' q, (forall id, live q s' (Some id) w2 -> entry w2 s' q) -> entry_ok w2 X sets s' q -> entry_ok w3 X sets s' q) as Hentry.
    { intros X sets s' q Hen (id' & Hl & Hx & Hor). exists id'. split_and!; [done | done|].
      destruct (decide (id' = id)) as [ ->|Hne]; [exfalso; by apply (H3' s' q (Hen _ Hl))|]. by rewrite Hrn. }
    assert (init_ok w3) as Hi3.
    { destruct Hi2 as [G1 G2 G3 G4 G5 G6 G7 G8 G9 G10 G11]. split; try done.
      - by eapply mon_inv_ext; [..|exact G3].
      - intros s' q E. apply Hentry; [intros ? ?; by left | by apply G7].
      - intros s' q E. destruct (G8 s' q E). split; [done | apply Hentry; [intros ? ?; by right | done]]. }
    split_and!; [|done|done]. split; try done.
    + change (transport w3) with (transport w2). by rewrite (ev_transport _ _ Hev).
    + change (transport w3) with (transport w2). by rewrite (ev_transport _ _ Hev).
    + destruct H5 as [?|[Hs Hr]]; [by left | right]. pose proof (ev_read _ _ Hev) as Hrr. change (w_mon w3) with (w_mon w2). split; [|set_solver].
      destruct Hs as [Hs|Hdr]; [|right; by apply (ev_dropped _ _ Hev)]. destruct (ev_out _ _ Hev s) as [?|[?|?]]; [by left | by left | set_solver | by right].
  - destruct Hs as [-> He3]. eapply fresh_evolves; [exact Hf | exact Hev | by eapply init_evolves].
Qed.

Lemma free_ok w p : init_ok w -> (forall id, e_responder (engine w) !! id <> Some p) -> (forall s, ~ entry w s p) ->
  init_ok (free (S := S) (T := Initiator) p w).1.
Proof.
  intros [G1 G2 G3 G4 G5 G6 G7 G8 G9 G10 G11] Hnob Hunl. set (w' := (free p w).1).
  assert (forall q, q <> p -> e_heap (engine w') !! q = e_heap (engine w) !! q) as Hold by (intros q Hq; unfold w'; simpl; by rewrite lookup_delete_ne).
  assert (forall q s o, q <> p -> live q s o w -> live q s o w') as Hl.
  { intros q s o Hq (c & Ec & ?). exists c. by rewrite Hold. }
  assert (forall q s o, q <> p -> live q s o w' -> live q s o w) as Hlb.
  { intros q s o Hq (c & Ec & ?). exists c. by rewrite <- Hold. }
  assert (forall s q, entry w s q -> q <> p) as Hne by (intros s q He ->; by apply (Hunl s)).
  assert (forall X sets s q, entry w s q -> entry_ok w X sets s q -> entry_ok w' X sets s q) as Hentry.
  { intros X sets s q He (id & Hlive & ? & ?). exists id. split_and!; [apply Hl; [by eapply Hne | done] | done | done]. }
  split; try done.
  - by apply engine_ok_free.
  - by eapply mon_inv_ext; [..|exact G3].
  - intros s q E. apply Hentry; [by left | by apply G7].
  - intros s q E. destruct (G8 s q E). split; [done | apply Hentry; [by right | done]].
  - intros s1 p1 s2 p2 id En1 En2 L1 L2. eapply G10; [exact En1 | exact En2 | |]; apply Hlb; try done; by eapply Hne.
  - intros id Hid. destruct (G11 id Hid) as (s & q & E & Hlive). exists s, q. split; [done | apply Hl; [eapply Hne; by right | done]].
Qed.

Lemma new_connection_ok id s :
  triple (connecting id s) (new_connection (S := S) id s)
    (fun p w => connecting id s w /\ live p s (Some id) w /\ e_responder (engine w) !! id = Some p) init_ok.
Proof.
  intros w Hcn. unfold new_connection, mbind at 1, R_bind at 1.
  destruct (alloc_ok id s (initiated_connection s id (Some id) 0) w Hcn eq_refl eq_refl) as (p & w1 & E & Hf). rewrite E. clear E. revert w1 Hf. clear w Hcn.
  apply (triple_try _ _ _ _ (fresh_conn id s p)).
  - eapply triple_bind; [apply setResponder_ok|]. intros _ w (Hcn & Hl & Hr).
    assert (safe None (live p s (Some id)) (fun p' => p' = p)
              (now ← now_seconds; _ ← store p (initiated_connection s id (Some id) now); mret p : R nat)) as Hs.
    { unfold now_seconds. eapply safe_bind; [apply live_stable | apply safe_tick|]. intros now _.
      eapply safe_bind; [apply live_stable | by apply safe_store|]. intros _ _. by apply safe_ret. }
    assert (does true (now ← now_seconds; _ ← store p (initiated_connection s id (Some id) now); mret p : R nat)) as Hd by (unfold now_seconds; does_all).
    pose proof (init_safe _ _ _ Hs Hd w (conj (cn_ok _ _ _ Hcn) Hl)) as Hi.
    destruct (Hs w (io_engine _ _ (cn_ok _ _ _ Hcn)) Hl) as (H1 & H2 & H3).
    unfold mbind, R_bind, now_seconds, on_kernel, store, on_engine, on_client, mret, R_ret in *. simpl in *.
    match type of Hi with init_at _ ?w2 /\ _ => set (w' := w2) in * end. destruct Hi as [Hi _].
    assert (connecting id s w') as Hcn' by by eapply connecting_evolves.
    split_and!; [done | by apply (live_stable _ _ _ w) | done].
  - intros e h [= <-] w [Hcn _ Hnob Hunl]. exact (free_ok w p (cn_ok _ _ _ Hcn) Hnob Hunl).
  - intros w Hf. apply Hf.
Qed.

(** The tables have the new connection. *)
Lemma listed_ok id s p w :
  connecting id s w -> live p s (Some id) w -> e_responder (engine w) !! id = Some p ->
  init_ok (on_transport (S := S) (fun i => with_connections (<[s := p]> (i_pendingConnections i)) (i_connections i) i) w).1.
Proof.
  intros [Hw H2 H3 H4 H5] Hl Hr. destruct Hw as [G1 G2 G3 G4 G5 G6 G7 G8 G9 G10 G11].
  set (w' := (on_transport _ w).1).
  assert (forall s' q, entry w' s' q -> (s' = s /\ q = p) \/ (s' <> s \/ i_connections (transport w) !! s = Some q) /\ entry w s' q) as Hen.
  { intros s' q [E|E]; [|by destruct (decide (s' = s)) as [ ->|]; [right; split; [right|right] | right; split; [left|right]]]. change (<[s := p]> (i_pendingConnections (transport w)) !! s' = Some q) in E.
    destruct (decide (s' = s)) as [ ->|Hne]; [rewrite lookup_insert_eq in E; injection E as <-; by left|].
    rewrite lookup_insert_ne in E by done. right. split; [by left | by left]. }
  split; try done.
  - by eapply mon_inv_ext; [..|exact G3].
  - intros s' q E. change (<[s := p]> (i_pendingConnections (transport w)) !! s' = Some q) in E.
    destruct (decide (s' = s)) as [ ->|Hne]; [|rewrite lookup_insert_ne in E by done; by apply G7].
    rewrite lookup_insert_eq in E. injection E as <-. exists id. split_and!; [done | done|].
    destruct H5 as [?|[[Hs|Hs] _]]; [by left | right; right; done | right; by left].
  - intros s' q q' E. change (<[s := p]> (i_pendingConnections (transport w)) !! s' = Some q) in E.
    destruct (decide (s' = s)) as [ ->|Hne]; [|rewrite lookup_insert_ne in E by done; by eapply G9]. intros E'.
    change (i_connections (transport w) !! s = Some q') in E'. congruence.
  - intros s1 p1 s2 p2 id' En1 En2 L1 L2. destruct (Hen _ _ En1) as [[ -> ->]|[_ En1']], (Hen _ _ En2) as [[ -> ->]|[_ En2']].
    + done.
    + exfalso. assert (id' = id) as ->; [|by apply (H3 s2 p2 En2')]. destruct L1 as (c & Ec & _ & Eo), Hl as (c' & Ec' & _ & Eo').
      change (e_heap (engine w) !! p = Some c) in Ec. congruence.
    + exfalso. assert (id' = id) as ->; [|by apply (H3 s1 p1 En1')]. destruct L2 as (c & Ec & _ & Eo), Hl as (c' & Ec' & _ & Eo').
      change (e_heap (engine w) !! p = Some c) in Ec. congruence.
    + by apply (G10 s1 p1 s2 p2 id').
Qed.

(** ** The transport's own state, through what does not touch it *)

Definition keeps_transport {X} (m : R X) : Prop := forall w, transport (m w).1 = transport w.

Lemma kt_bind {X Y} (m : R X) (f : X -> R Y) : keeps_transport m -> (forall x, keeps_transport (f x)) -> keeps_transport (x ← m; f x).
Proof. intros Hm Hf w. unfold mbind, R_bind. specialize (Hm w). destruct (m w) as [w' [x|e]]; [|done]. etransitivity; [apply Hf | exact Hm]. Qed.

Lemma kt_connector_connect : keeps_transport (connector_connect (S := S)).
Proof.
  apply kt_bind; [intros w; unfold on_kernel; by destruct (socket_new (w_kernel w))|]. intros s. apply kt_bind; [|done].
  destruct (negb _); [|done]. apply kt_bind; [intros w; unfold on_mon; by destruct (addConnect s (w_mon w)) | done].
Qed.

Lemma kt_run_calls id l : keeps_transport (run_calls id l).
Proof.
  induction l as [|c l IH]; [done|]. simpl. apply kt_bind; [|intros _; exact IH]. intros w. unfold run_call, mbind, R_bind, gets.
  destruct (e_responder (engine w) !! id) as [p|]; [|done].
  assert (forall w, transport (deref p w).1 = transport w) as Hd by (intros w'; unfold deref, mbind, R_bind, gets; by destruct (e_heap (engine w') !! p)).
  destruct c as [m|].
  - unfold connection_send, mbind, R_bind. specialize (Hd w). destruct (deref p w) as [w1 [c|e]]; [|done]. unfold on_kernel.
    destruct (conn_send m c (w_kernel w1)) as [[b c'] k]. simpl. by destruct b.
  - unfold connection_disconnect, mbind, R_bind. specialize (Hd w). destruct (deref p w) as [w1 [c|e]]; [|done]. unfold drop_socket, on_mon.
    by destruct (mon_drop (c_socket c) (w_mon w1)).
Qed.

Lemma kt_on_session id f : keeps_transport (on_session id f).
Proof.
  apply kt_bind; [intros w; unfold session, mbind, R_bind, gets; by destruct (e_sessions (engine w) !! id)|]. intros x. destruct (f x) as [[x' calls] r].
  apply kt_bind; [done|]. intros _. apply kt_bind; [apply kt_run_calls | done].
Qed.

Lemma kt_new_connection id s : keeps_transport (new_connection id s).
Proof.
  apply kt_bind; [done|]. intros p w. unfold try_catch.
  assert (keeps_transport (_ ← setResponder id p; now ← now_seconds; _ ← store p (initiated_connection s id (Some id) now); mret p)) as Hk.
  { apply kt_bind; [apply kt_bind; [apply kt_on_session | done] | done]. }
  specialize (Hk w). by destruct ((_ ← setResponder id p; now ← now_seconds; _ ← store p (initiated_connection s id (Some id) now); mret p) w) as [w' [q|e]].
Qed.

Lemma triple_transport {X} P (m : R X) Q E t :
  triple P m Q E -> keeps_transport m ->
  triple (fun w => P w /\ transport w = t) m (fun x w => Q x w /\ transport w = t) (fun w => E w /\ transport w = t).
Proof.
  intros Hm Hk w [Hw Ht]. specialize (Hm w Hw). specialize (Hk w). rewrite Ht in Hk. destruct (m w) as [w' [x|e]]; done.
Qed.

(** ** [connect] *)

(** The invariant, and sessions that are disconnected. *)
Definition waiting_for (X : gset str) w : Prop := init_ok w /\ X ⊆ i_disconnected (transport w).

Lemma waiting_stable X : stable (T := Initiator) (fun w => X ⊆ i_disconnected (transport w)).
Proof. intros w w' Hev H1. by rewrite (ev_transport _ _ Hev). Qed.

Lemma waiting_safe {X} D (m : R X) : safe None (fun w => D ⊆ i_disconnected (transport w)) any m -> does true m ->
  triple (waiting_for D) m (fun _ => waiting_for D) (waiting_for D).
Proof.
  intros Hs Hd w [Hw HD]. pose proof (init_safe _ any m Hs Hd w (conj Hw HD)) as H1. destruct (Hs w (io_engine _ _ Hw) HD) as (_ & Hev & _).
  pose proof (waiting_stable D _ _ Hev HD) as H2. destruct (m w) as [w' [x|e]]; [by destruct H1 | done].
Qed.

Lemma waiting_weaken D D' w : waiting_for D w -> D' ⊆ D -> waiting_for D' w.
Proof. intros [? ?] ?. split; [done | set_solver]. Qed.

Lemma init_session id D : id ∈ ids -> triple (waiting_for D) (session (S := S) id) (fun _ => waiting_for D) (waiting_for D).
Proof.
  intros Hid w [Hw HD]. assert (is_Some (e_sessions (engine w) !! id)) as [x Ex] by (apply elem_of_dom; by rewrite (io_ids _ _ Hw)).
  by rewrite (session_Some _ _ _ Ex).
Qed.

Lemma waiting_tick {X} D (f : nat -> X) : triple (waiting_for D) (n ← on_kernel tick; mret (f n) : R X) (fun _ => waiting_for D) (waiting_for D).
Proof. apply waiting_safe; [apply safe_tick | does_all]. Qed.

Lemma triple_keep_lift {X} (P : W -> Prop) (r : result X) : triple P (lift r) (fun _ => P) P.
Proof. intros w Hw. unfold lift. by destruct r. Qed.

(** From the request for a socket on. *)
Lemma connect_socket_ok id D :
  id ∉ D ->
  triple (waiting_for ({[id]} ∪ D))
    (socket ← connector_connect; _ ← on_transport (setPending id); p ← new_connection id socket;
     on_transport (fun i => with_connections (<[socket := p]> (i_pendingConnections i)) (i_connections i) i) : R unit)
    (fun _ => waiting_for D) (waiting_for D).
Proof.
  intros HnD w [Hw HD]. unfold mbind at 1, R_bind at 1.
  assert (id ∈ i_disconnected (transport w)) as Hid by set_solver.
  pose proof (connector_connect_ok id w (conj Hw Hid)) as Hc.
  assert (transport (connector_connect (S := S) w).1 = transport w) as Ht.
  { apply kt_connector_connect. }
  destruct (connector_connect w) as [w1 [s|e]]; simpl in Ht; [|split; [done | rewrite Ht; set_solver]].
  destruct Hc as ((Hw1 & Hid1) & Hnone & Hsock). unfold mbind at 1, R_bind at 1.
  set (w2 := (on_transport (S := S) (setPending id) w1).1).
  assert (connecting id s w2) as Hcn.
  { destruct (io_disjoint _ _ Hw1) as (Hd1 & Hd2 & Hd3). split.
    - apply init_states; [exact Hw1 | | set_solver | set_solver | set_solver | | | set_solver].
      + rewrite <- (io_partition _ _ Hw1). apply set_eq. intros x. destruct (decide (x = id)); set_solver.
      + intros s' p' id' _ _ Hin. set_solver.
      + intros s' p' id' E Hl Hin. assert (id' <> id) by (intros ->; set_solver). set_solver.
    - unfold w2. simpl. set_solver.
    - intros s' p' He Hl. by apply (disconnected_unused id w1 s' p' Hw1 Hid1).
    - done.
    - done. }
  change (match (p ← new_connection id s; on_transport (fun i => with_connections (<[s:=p]> (i_pendingConnections i)) (i_connections i) i)) w2
          with (w', Ok _) => waiting_for D w' | (w', Throw _) => waiting_for D w' end).
  assert (D ⊆ i_disconnected (transport w2)) as HD2.
  { unfold w2. simpl. change ((w_client w1).2) with (transport w1). rewrite Ht. set_solver. }
  unfold mbind, R_bind. pose proof (triple_transport _ _ _ _ _ (new_connection_ok id s) (kt_new_connection id s) w2 (conj Hcn eq_refl)) as Hn.
  destruct (new_connection id s w2) as [w3 [p|e]].
  - destruct Hn as ((Hcn3 & Hl & Hr) & Ht3). split; [by eapply listed_ok|]. change (D ⊆ i_disconnected (transport w3)). by rewrite Ht3.
  - destruct Hn as [Hi Ht3]. split; [done | by rewrite Ht3].
Qed.

Lemma doConnect_ok id d D :
  id ∉ D -> id ∈ ids -> triple (waiting_for ({[id]} ∪ D)) (doConnect (S := S) id d) (fun _ => waiting_for D) (waiting_for D).
Proof.
  intros HnD Hids. apply (triple_try _ _ _ _ (waiting_for D)); [|intros e h Hh; destruct (is_exception e); [injection Hh as <-; by apply triple_ret | done] | done].
  assert (forall w, waiting_for ({[id]} ∪ D) w -> waiting_for D w) as Hweak by (intros w Hw; eapply waiting_weaken; [done | set_solver]).
  assert (forall X (m : R X), triple (waiting_for ({[id]} ∪ D)) m (fun _ => waiting_for ({[id]} ∪ D)) (waiting_for ({[id]} ∪ D)) ->
          triple (waiting_for ({[id]} ∪ D)) m (fun _ => waiting_for ({[id]} ∪ D)) (waiting_for D)) as Hgo.
  { intros X m Hm. by eapply triple_weaken; [exact Hm | | |]. }
  unfold doConnect_body. eapply triple_bind; [by apply Hgo, init_session|]. intros x.
  eapply triple_bind; [apply Hgo, waiting_tick|]. intros now. destruct (negb _); [by apply triple_ret|].
  eapply triple_bind; [apply Hgo, waiting_tick|]. intros seconds.
  eapply triple_bind; [apply Hgo; by intros w Hw|]. intros attempts. destruct (getHost seconds id d attempts) as [attempts' host].
  eapply triple_bind; [apply Hgo|intros []].
  { intros w [Hw HD]. split; [apply (init_transport (fun i => with_attempts (i_lastConnectAttempt i) attempts' i)); done | done]. }
  do 5 (eapply triple_bind; [apply Hgo, triple_keep_lift | intros ?]). by apply connect_socket_ok.
Qed.

Lemma connect_one_ok now id D :
  id ∉ D -> id ∈ ids -> triple (waiting_for ({[id]} ∪ D)) (connect_one (S := S) settings now id) (fun _ => waiting_for D) (waiting_for D).
Proof.
  intros HnD Hids.
  assert (forall w, waiting_for ({[id]} ∪ D) w -> waiting_for D w) as Hweak by (intros w Hw; eapply waiting_weaken; [done | set_solver]).
  assert (forall X (m : R X), triple (waiting_for ({[id]} ∪ D)) m (fun _ => waiting_for ({[id]} ∪ D)) (waiting_for ({[id]} ∪ D)) ->
          triple (waiting_for ({[id]} ∪ D)) m (fun _ => waiting_for ({[id]} ∪ D)) (waiting_for D)) as Hgo.
  { intros X m Hm. by eapply triple_weaken; [exact Hm | | |]. }
  unfold connect_one. eapply triple_bind; [apply Hgo; by intros w Hw|]. intros [x|]; [|by apply triple_ret].
  destruct (negb _); [by apply triple_ret|]. eapply triple_bind; [apply Hgo, waiting_tick|]. intros utc.
  destruct (negb _); [by apply triple_ret|]. eapply triple_bind; [apply Hgo, triple_keep_lift|]. intros d.
  eapply triple_bind; [apply Hgo; by intros w Hw|]. intros last.
  eapply triple_bind; [apply Hgo; destruct last; [apply triple_keep_lift | by apply triple_ret]|]. intros interval.
  destruct (match last with Some last => _ | None => false end); [by apply triple_ret|].
  eapply triple_bind; [apply Hgo|intros []; by apply doConnect_ok].
  intros w [Hw HD]. split; [apply (init_transport (fun i => with_attempts (<[id := now]> (i_lastConnectAttempt i)) (i_hosts i) i)); done | done].
Qed.

Lemma connect_all_ok now l :
  NoDup l -> (forall id, id ∈ l -> id ∈ ids) ->
  triple (waiting_for (list_to_set l)) (connect_all (S := S) settings now l) (fun _ => init_ok) init_ok.
Proof.
  induction l as [|id l IH]; intros Hn Hids; simpl; [apply triple_ret; by intros w [Hw _]|]. apply NoDup_cons in Hn as [Hni Hn].
  eapply triple_bind.
  - eapply triple_weaken; [apply (connect_one_ok now id (list_to_set l)) | done | done | by intros w [Hw _]]; [by rewrite elem_of_list_to_set | apply Hids; left].
  - intros []. apply IH; [done|]. intros id' Hin. apply Hids. by right.
Qed.

Lemma connect_ok : triple init_ok (connect (S := S) settings) (fun _ => init_ok) init_ok.
Proof.
  unfold connect. eapply triple_bind.
  { eapply triple_weaken; [apply (init_safe (fun _ => True) any) | by intros w Hw | intros x w [Hw _]; exact Hw | done]; [apply safe_on_kernel | does_all]. }
  intros n w Hw. unfold mbind, R_bind, state, gets.
  assert (waiting_for (list_to_set (ascending_ids (i_disconnected (transport w)))) w) as Hwait.
  { split; [done|]. intros id. by rewrite elem_of_list_to_set, elem_of_ascending_ids. }
  apply (connect_all_ok _ _ (NoDup_ascending_ids _)); [|exact Hwait]. intros id. rewrite elem_of_ascending_ids. rewrite <- (io_partition _ _ Hw). set_solver.
Qed.

(** ** The handlers *)

(** Every safe handler on a connection of the tables. *)
Lemma entry_is_live w s p : init_ok w -> entry w s p -> exists id, live p s (Some id) w.
Proof.
  intros Hw [E|E].
  - destruct (io_pending _ _ Hw s p E) as (id & Hl & _). by exists id.
  - destruct (io_connections _ _ Hw s p E) as (_ & id & Hl & _). by exists id.
Qed.

Lemma on_live {X} s p o (Q : X -> Prop) (m : R X) :
  safe None (live p s o) Q m -> does true m -> forall w, init_ok w -> live p s o w ->
  match m w with (w', Ok x) => init_ok w' /\ Q x | (w', Throw _) => init_ok w' end.
Proof. intros Hs Hd w Hw Hl. exact (init_safe _ _ _ Hs Hd w (conj Hw Hl)). Qed.

Lemma time_out_all_ok l w :
  init_ok w -> (forall p, p ∈ l -> exists s id, live p s (Some id) w) ->
  match time_out_all (S := S) l w with (w', Ok _) => init_ok w' | (w', Throw _) => init_ok w' end.
Proof.
  revert w. induction l as [|p l IH]; intros w Hw Hl; [done|]. simpl. unfold mbind, R_bind.
  destruct (Hl p) as (s & id & Hlive); [left|].
  pose proof (on_live s p (Some id) any _ (safe_onTimeout p s (Some id)) (does_onTimeout true p) w Hw Hlive) as H1.
  destruct (safe_onTimeout p s (Some id) w (io_engine _ _ Hw) Hlive) as (_ & Hev & _).
  destruct (connection_onTimeout p w) as [w' [[]|e]]; [|done]. destruct H1 as [Hw' _]. apply IH; [done|].
  intros q Hq. destruct (Hl q) as (s' & id' & Hl'); [by right|]. exists s', id'. by apply (live_stable _ _ _ w).
Qed.

Lemma i_onTimeout_ok : triple init_ok (i_onTimeout (S := S) settings) (fun _ => init_ok) init_ok.
Proof.
  unfold i_onTimeout. eapply triple_bind; [apply connect_ok|]. intros _ w Hw. unfold mbind, R_bind, state, gets.
  apply time_out_all_ok; [done|]. intros p Hp. unfold in_order in Hp. apply list_elem_of_omap in Hp as (s & _ & Es).
  destruct (entry_is_live w s p Hw) as [id Hl]; [by right | by exists s, id].
Qed.

Lemma i_onWrite_ok s : triple init_ok (i_onWrite (S := S) s) (fun _ => init_ok) init_ok.
Proof.
  intros w Hw. unfold i_onWrite, mbind, R_bind, state, gets. destruct (i_connections (transport w) !! s) as [p|] eqn:E; [|done].
  destruct (entry_is_live w s p Hw) as [id Hl]; [by right|].
  pose proof (on_live s p (Some id) any _ (safe_onWrite p s (Some id)) (does_onWrite true p) w Hw Hl) as H1.
  by destruct (connection_onWrite p w) as [w' [[]|e]]; [destruct H1|].
Qed.

Lemma safe_connector_read p s id : safe None (live p s (Some id)) any (connector_read (S := S) p).
Proof.
  unfold connector_read. eapply safe_bind; [apply live_stable | apply safe_deref|]. intros c [_ ->].
  apply safe_try; [apply live_stable | |].
  - eapply safe_bind; [apply live_stable | apply safe_readFromSocket|]. intros _ _.
    eapply safe_bind; [apply live_stable | apply safe_readMessages|]. intros _ _. by apply safe_ret.
  - intros [] h; try done; intros [= <-]; by apply safe_ret.
Qed.

Lemma i_onData_ok s : triple init_ok (i_onData (S := S) s) (fun _ => init_ok) init_ok.
Proof.
  intros w Hw. unfold i_onData, mbind, R_bind, state, gets. destruct (i_connections (transport w) !! s) as [p|] eqn:E; [|done].
  destruct (entry_is_live w s p Hw) as [id Hl]; [by right|].
  assert (does true (connector_read (S := S) p)) as Hd by (unfold connector_read; does_all).
  pose proof (on_live s p (Some id) any _ (safe_connector_read p s id) Hd w Hw Hl) as H1.
  by destruct (connector_read p w) as [w' [b|e]]; [destruct H1|].
Qed.

(** A socket that was connecting is connected: the monitor moves it, the tables
    move its connection. *)
Lemma moved_ok w s p id :
  init_ok w -> s ∈ m_connectSockets (w_mon w) -> i_pendingConnections (transport w) !! s = Some p -> live p s (Some id) w ->
  let w1 := set_mon (fun m => (connected s m).2) w in
  init_ok (on_transport (S := S) (setConnected id)
    (on_transport (S := S) (fun i => with_connections (delete s (i_pendingConnections i)) (<[s := p]> (i_connections i)) i) w1).1).1.
Proof.
  intros Hw Hs Ep Hl w1. pose proof (mon_inv_connected sg given s w (io_mon _ _ Hw) Hs) as Hm.
  destruct (io_pending _ _ Hw s p Ep) as (id' & Hl' & Hid & Hor).
  assert (id' = id) as -> by (destruct Hl as (c & Ec & _ & Eo), Hl' as (c' & Ec' & _ & Eo'); congruence). clear Hl'.
  pose proof Hw as [G1 G2 G3 G4 G5 (D1 & D2 & D3) G7 G8 G9 G10 G11].
  assert (forall s' q, s' <> s -> i_pendingConnections (transport w) !! s' = Some q -> ~ live q s' (Some id) w) as Hother.
  { intros s' q Hne E Hl'. apply Hne. apply (G10 s' q s p id); [by left | by left | done | done]. }
  assert (forall X sets sets' s' q, entry_ok w X sets s' q -> sets ⊆ sets' -> exists id', live q s' (Some id') w /\ id' ∈ X /\
    (s' < 0 \/ s' ∈ m_dropped (w_mon w) \/ (s' ∈ sets' /\ e_responder (engine w) !! id' = Some q))) as Hgrow.
  { intros X sets sets' s' q (id' & ? & ? & Hor') Hsub. exists id'. set_solver. }
  assert (0 <= s) as Hpos.
  { apply (io_positive _ _ Hw). rewrite (inv_open _ _ _ (io_mon _ _ Hw)). set_solver. }
  assert (s ∉ m_dropped (w_mon w)) as Hnd by (intros Hd%(inv_dropped _ _ _ (io_mon _ _ Hw)); tauto).
  destruct w as [m k [e i]]. unfold w1, entry, entry_ok, positive, live, on_transport, on_client, set_client, set_mon, transport, engine in *. simpl in *.
  split; unfold entry, entry_ok, positive, live, transport, engine; simpl; try done.
  - by eapply mon_inv_ext; [..|exact Hm].
  - by apply move_partition.
  - by apply (move_partition (i_pending i) (i_connected i) (i_disconnected i)).
  - intros s' q E. apply lookup_delete_Some in E as [Hne E]. destruct (G7 s' q E) as (id' & Hl' & Hid' & Hor').
    assert (id' <> id) by (intros ->; by apply (Hother s' q)). exists id'. split_and!; [done | clear - Hid' H1; set_solver|].
    clear - Hor' Hne. set_solver.
  - intros s' q. destruct (decide (s' = s)) as [ ->|Hne].
    + rewrite lookup_insert_eq. intros [= <-]. split; [done|]. exists id. split_and!; [done | clear; set_solver|].
      destruct Hor as [?|[?|[_ Hr]]]; [lia | done | right; right]. split; [clear; set_solver | done].
    + rewrite lookup_insert_ne by done. intros E. destruct (G8 s' q E) as (Hp' & id' & Hl' & Hid' & Hor'). split; [done|]. exists id'.
      clear - Hl' Hid' Hor'. set_solver.
  - intros s' q q' E. apply lookup_delete_Some in E as [Hne E]. rewrite lookup_insert_ne by done. by eapply G9.
  - assert (forall s' q, delete s (i_pendingConnections i) !! s' = Some q \/ <[s:=p]> (i_connections i) !! s' = Some q ->
        i_pendingConnections i !! s' = Some q \/ i_connections i !! s' = Some q) as Hback.
    { intros s' q [E|E]; [apply lookup_delete_Some in E as [_ E]; by left|]. destruct (decide (s' = s)) as [ ->|Hne]; [rewrite lookup_insert_eq in E; injection E as <-; by left | rewrite lookup_insert_ne in E by done; by right]. }
    intros s1 p1 s2 p2 id' E1%Hback E2%Hback. by apply G10.
  - intros id' Hid'. destruct (decide (id' = id)) as [ ->|Hne]; [exists s, p; by rewrite lookup_insert_eq|].
    destruct (G11 id') as (s' & q & E & Hl'); [set_solver|]. exists s', q. split; [|done]. rewrite lookup_insert_ne; [done|].
    intros ->. by apply (G9 s' p q).
Qed.

Lemma session_of_live p s id w : live p s (Some id) w -> session_of (S := S) p w = (w, Ok id).
Proof. intros (c & Ec & _ & Eo). unfold session_of, mbind, R_bind. by rewrite (deref_Some _ _ _ Ec), Eo. Qed.

(** [processWrite] of a socket that was connecting. *)
Lemma onConnect_ok w s :
  init_ok w -> s ∈ m_connectSockets (w_mon w) ->
  match i_onConnect (S := S) s (set_mon (fun m => (connected s m).2) w) with (w', _) => init_ok w' end.
Proof.
  intros Hw Hs. unfold i_onConnect, mbind at 1, R_bind at 1, state, gets. set (w1 := set_mon _ w). change (transport w1) with (transport w).
  destruct (i_pendingConnections (transport w) !! s) as [p|] eqn:E.
  - destruct (entry_is_live w s p Hw) as [id Hl]; [by left|]. pose proof (moved_ok w s p id Hw Hs E Hl) as Hok. fold w1 in Hok. cbv zeta in Hok.
    unfold mbind at 1, R_bind at 1.
    set (w2 := (on_transport (S := S) (fun i => with_connections (delete s (i_pendingConnections i)) (<[s := p]> (i_connections i)) i) w1).1) in *.
    set (w3 := (on_transport (S := S) (setConnected id) w2).1) in *.
    assert (live p s (Some id) w3) as Hl3 by done.
    change (let (w', _) := (id ← session_of p; _ ← on_transport (setConnected id); connection_onTimeout p) w2 in init_ok w').
    unfold mbind, R_bind. rewrite (session_of_live p s id w2 Hl3). change (let (w', _) := connection_onTimeout p w3 in init_ok w').
    pose proof (on_live s p (Some id) any _ (safe_onTimeout p s (Some id)) (does_onTimeout true p) w3 Hok Hl3) as H1.
    by destruct (connection_onTimeout p w3) as [w' [[]|e]]; [destruct H1|].
  - pose proof (mon_inv_connected sg given s w (io_mon _ _ Hw) Hs) as Hm.
    assert (s ∉ m_dropped (w_mon w)) as Hnd by (intros Hd%(inv_dropped _ _ _ (io_mon _ _ Hw)); tauto).
    destruct Hw as [G1 G2 G3 G4 G5 G6 G7 G8 G9 G10 G11]. split; try done.
    + intros s' q E'. change (i_pendingConnections (transport w) !! s' = Some q) in E'. assert (s' <> s) by congruence.
      destruct (G7 s' q E') as (id' & Hl & Hid & Hor). exists id'. split_and!; [done | done|]. simpl. set_solver.
    + intros s' q E'. destruct (G8 s' q E') as (Hp & id' & Hl & Hid & Hor). split; [done|]. exists id'. split_and!; [done | done|]. simpl. set_solver.
Qed.

(** ** A connection goes *)

(** What [onDisconnect] leaves when the session is disconnected. *)
Definition without s p id w : W :=
  let w := (on_transport (S := S) (setDisconnected id) w).1 in
  let w := (on_engine (S := S) (T := Initiator) (fun e => set_heap (delete p) (set_registered (fun r => r ∖ {[id]}) e)) w).1 in
  (on_transport (S := S) (fun i => with_connections (delete s (i_pendingConnections i)) (delete s (i_connections i)) i) w).1.

Lemma without_ok w w2 s p id :
  init_ok w -> entry w s p -> live p s (Some id) w ->
  evolves (on_transport (S := S) (setDisconnected id) w).1 w2 -> engine_ok None (engine w2) -> mon_inv sg given w2 -> positive w2 ->
  e_responder (engine w2) !! id = None ->
  init_ok (without s p id w2).
Proof.
  intros Hw He Hl Hev He2 Hm Hp Hr. set (w1 := (on_transport _ w).1) in *. pose proof Hw as [G1 G2 G3 G4 G5 (D1 & D2 & D3) G7 G8 G9 G10 G11].
  pose proof (ev_transport _ _ Hev) as Ht.
  assert (transport w1 = setDisconnected id (transport w)) as Ht1 by done. rewrite Ht1 in Ht.
  assert (live p s (Some id) w2) as Hl2 by by apply (live_stable _ _ _ w1).
  assert (id ∈ ids) as Hid by (rewrite <- G2; apply elem_of_dom; by eapply (live_known None)).
  assert (forall s' q, s' <> s -> entry w s' q -> q <> p) as Hne.
  { intros s' q Hs' He' ->. destruct (entry_is_live w s' p Hw He') as (id' & (c & Ec & Es & _)). destruct Hl as (c' & Ec' & Es' & _). congruence. }
  assert (forall s' q id', s' <> s -> entry w s' q -> live q s' (Some id') w -> id' <> id) as Hid'.
  { intros s' q id' Hs' He' Hl' ->. apply Hs'. by apply (G10 s' q s p id). }
  set (w5 := without s p id w2).
  assert (forall q, q <> p -> e_heap (engine w5) !! q = e_heap (engine w2) !! q) as Hheap by (intros q Hq; unfold w5; simpl; by rewrite lookup_delete_ne).
  assert (forall s' q id', q <> p -> live q s' (Some id') w2 -> live q s' (Some id') w5) as Hl5.
  { intros s' q id' Hq (c & Ec & ?). exists c. by rewrite Hheap. }
  assert (forall s' q id', q <> p -> live q s' (Some id') w5 -> live q s' (Some id') w) as Hl5b.
  { intros s' q id' Hq (c & Ec & ?). apply (live_back _ _ _ w1 w2 Hev). exists c. by rewrite <- Hheap. }
  assert (transport w5 = with_connections (delete s (i_pendingConnections (transport w))) (delete s (i_connections (transport w)))
            (setDisconnected id (setDisconnected id (transport w)))) as Ht5.
  { change (transport w5) with (with_connections (delete s (i_pendingConnections (transport w2))) (delete s (i_connections (transport w2)))
      (setDisconnected id (transport w2))). by rewrite Ht. }
  assert (forall X X' sets sets' s' q, s' <> s -> entry w s' q -> entry_ok w2 X sets s' q -> (forall x, x ∈ X -> x <> id -> x ∈ X') -> sets ⊆ sets' ->
            entry_ok w5 X' sets' s' q) as Hentry.
  { intros X X' sets sets' s' q Hs' He' (id' & Hl' & Hx & Hor) HX Hsets. exists id'.
    assert (id' <> id) by (eapply Hid'; [exact Hs' | exact He' | by apply (live_back _ _ _ w1 w2 Hev)]).
    split_and!; [apply Hl5; [by eapply Hne | done] | auto|]. destruct Hor as [?|[?|[? ?]]]; [by left | by right; left | right; right; split; [set_solver | done]]. }
  split.
  - unfold w5. apply engine_ok_free; [by apply engine_ok_registered|]. intros id' Hr'. change (e_responder (engine w2) !! id' = Some p) in Hr'.
    destruct (eo_responder _ _ He2 id' p Hr') as (c & Ec & Eo). destruct Hl2 as (c' & Ec' & _ & Eo'). congruence.
  - change (dom (e_sessions (engine w2)) = ids). rewrite <- G2. apply set_eq. intros x. rewrite !elem_of_dom. apply (ev_sessions _ _ Hev).
  - by eapply mon_inv_ext; [..|exact Hm].
  - done.
  - rewrite Ht5. simpl. rewrite <- G5 in Hid. rewrite <- G5. apply set_eq. intros x. destruct (decide (x = id)); set_solver.
  - rewrite Ht5. simpl. split_and!; set_solver.
  - intros s' q. rewrite Ht5. simpl. intros E. apply lookup_delete_Some in E as [Hs' E].
    eapply (Hentry (i_pending (transport w))); [done | by left | | set_solver | reflexivity].
    eapply (entry_evolves w1); [exact Hev | | set_solver | by apply G7]. intros x Hx.
    destruct (ev_out _ _ Hev x) as [?|[Hrd|?]]; [by left | by left | | by right]. pose proof (inv_connect _ _ _ G3). pose proof (ev_read _ _ Hev) as Hrr.
    change (m_readSockets (w_mon w1)) with (m_readSockets (w_mon w)) in Hrr. change (m_connectSockets (w_mon w1)) with (m_connectSockets (w_mon w)) in Hx. set_solver.
  - intros s' q. rewrite Ht5. simpl. intros E. apply lookup_delete_Some in E as [Hs' E]. destruct (G8 s' q E) as [Hpos Hent]. split; [done|].
    eapply (Hentry (i_connected (transport w))); [done | by right | | set_solver | reflexivity].
    eapply (entry_evolves w1); [exact Hev | | set_solver | exact Hent]. intros x Hx.
    destruct (ev_out _ _ Hev x) as [Hrd|[?|?]]; [by right | | by left | by right]. pose proof (inv_connect _ _ _ G3). pose proof (ev_connect _ _ Hev) as Hrr.
    change (m_readSockets (w_mon w1)) with (m_readSockets (w_mon w)) in Hx. change (m_connectSockets (w_mon w1)) with (m_connectSockets (w_mon w)) in Hrr. set_solver.
  - intros s' q q'. rewrite Ht5. simpl. intros E E'. apply lookup_delete_Some in E as [_ E]. apply lookup_delete_Some in E' as [_ E']. by eapply G9.
  - assert (forall s' q, entry w5 s' q -> s' <> s /\ entry w s' q) as Hback.
    { intros s' q. unfold entry. rewrite Ht5. simpl. rewrite !lookup_delete_Some. naive_solver. }
    intros s1 p1 s2 p2 id' [Hs1 E1]%Hback [Hs2 E2]%Hback L1 L2. apply (G10 s1 p1 s2 p2 id'); [done | done | apply Hl5b; [exact (Hne _ _ Hs1 E1) | done] | apply Hl5b; [exact (Hne _ _ Hs2 E2) | done]].
  - intros id'. rewrite Ht5. simpl. intros Hin. destruct (G11 id') as (s' & q & E & Hl'); [set_solver|].
    assert (s' <> s) as Hs'.
    { intros ->. assert (q = p) as ->; [destruct He as [E'|E']; [exfalso; by eapply G9 | congruence]|].
      destruct Hl as (c & Ec & _ & Eo), Hl' as (c' & Ec' & _ & Eo'). rewrite Ec in Ec'. injection Ec' as <-. rewrite Eo in Eo'. injection Eo' as <-. set_solver. }
    exists s', q. split; [by rewrite lookup_delete_ne|]. apply Hl5; [eapply Hne; [done | by right]|]. by apply (live_stable _ _ _ w1).
Qed.

Abbreviation unbroken := (unbroken (S := S) (T := Initiator)).

Lemma init_unbroken w : init_ok w -> unbroken w.
Proof. intros Hw. apply Hw. Qed.

Definition no_entry s w : Prop := forall p, ~ entry w s p.

Lemma i_onDisconnect_ok s : triple init_ok (i_onDisconnect (S := S) s) (fun _ w => init_ok w /\ no_entry s w) unbroken.
Proof.
  intros w Hw. unfold i_onDisconnect, mbind at 1, R_bind at 1, state, gets, mbind at 1, R_bind at 1, gets.
  destruct (match i_pendingConnections (transport w) !! s with Some p => Some p | None => i_connections (transport w) !! s end) as [p|] eqn:E.
  2: { split; [done|]. intros p [E'|E']; rewrite E' in E; [done|]. by destruct (i_pendingConnections (transport w) !! s). }
  assert (entry w s p) as He by (destruct (i_pendingConnections (transport w) !! s) as [q|] eqn:Eq; [injection E as <-; by left | by right]).
  destruct (entry_is_live w s p Hw He) as [id Hl]. unfold mbind at 1, R_bind at 1. rewrite (session_of_live p s id w Hl).
  unfold mbind at 1, R_bind at 1. set (w1 := (on_transport (S := S) (setDisconnected id) w).1).
  change (match (_ ← on_session id so_disconnect; _ ← on_transport (setDisconnected id); _ ← delete_connection p;
                 on_transport (fun i => with_connections (delete s (i_pendingConnections i)) (delete s (i_connections i)) i)) w1
          with (w', Ok _) => init_ok w' /\ no_entry s w' | (w', Throw _) => unbroken w' end).
  pose proof (io_engine _ _ Hw : engine_ok None (engine w1)) as He1.
  pose proof (does_on_session true id so_disconnect w1) as Hd.
  pose proof (on_session_disconnect id w1 He1 (live_known _ _ _ _ _ He1 (Hl : live p s (Some id) w1))) as Hr.
  destruct (safe_on_session id so_disconnect law_disconnect w1 He1 (live_known _ _ _ _ _ He1 (Hl : live p s (Some id) w1))) as (He2 & Hev & _).
  unfold mbind at 1, R_bind at 1. destruct (on_session id so_disconnect w1) as [w2 [[]|e]]; [|apply He2]. simpl in *.
  assert (live p s (Some id) w2) as (c & Ec & Es & Eo) by by apply (live_stable _ _ _ w1).
  assert (init_ok (without s p id w2)) as Hok.
  { eapply without_ok; try done; [eapply mon_inv_acts; [exact Hd|] | eapply acts_positive; [exact Hd | apply Hw]]. by eapply mon_inv_ext; [..|apply (io_mon _ _ Hw)]. }
  unfold mbind at 1, R_bind at 1. set (w3 := (on_transport (S := S) (setDisconnected id) w2).1).
  change (match (_ ← delete_connection p; on_transport (fun i => with_connections (delete s (i_pendingConnections i)) (delete s (i_connections i)) i)) w3
          with (w', Ok _) => init_ok w' /\ no_entry s w' | (w', Throw _) => unbroken w' end).
  unfold delete_connection, mbind, R_bind. rewrite (deref_Some p c w3 Ec), Eo. split; [exact Hok|].
  intros q [Eq|Eq]; simpl in Eq; by rewrite lookup_delete_eq in Eq.
Qed.

(** ** A pass of the reactor *)

Lemma init_mon w m k :
  init_ok w -> goes (w_mon w) m -> mon_inv sg given (mkWorld m k (w_client w)) -> k_open k ⊆ k_open (w_kernel w) ->
  init_ok (mkWorld m k (w_client w)).
Proof.
  intros Hw Hg Hm Hk. eapply init_evolves; [exact Hw | by apply evolves_mon | apply Hw | done|].
  intros s Hs. apply (io_positive _ _ Hw), Hk, Hs.
Qed.

Lemma popped_ok w s rest :
  init_ok w -> no_entry s w -> m_dropped (w_mon w) = s :: rest ->
  let w' := set_kernel (socket_close s) (set_mon (fun m => (pop_dropped m).2) w) in mon_inv sg given w' -> init_ok w'.
Proof.
  intros Hw Hno Hd w' Hm. assert (m_dropped (w_mon w') = rest) as Hd' by (simpl; by rewrite Hd).
  destruct Hw as [G1 G2 G3 G4 G5 G6 G7 G8 G9 G10 G11].
  assert (forall X sets s' q, entry w s' q -> entry_ok w X sets s' q -> entry_ok w' X sets s' q) as Hentry.
  { intros X sets s' q He (id & Hl & Hid & Hor). exists id. split_and!; [done | done|]. destruct Hor as [?|[Hin|?]]; [by left | | by right; right].
    right; left. rewrite Hd'. rewrite Hd in Hin. apply elem_of_cons in Hin as [ ->|?]; [by destruct (Hno q He) | done]. }
  split; try done.
  - intros s' Hs'. apply G4. exact (closed_open s (w_kernel w) s' Hs').
  - intros s' q E. apply Hentry; [by left | by apply G7].
  - intros s' q E. destruct (G8 s' q E). split; [done | apply Hentry; [by right | done]].
Qed.

Abbreviation strategy := (connector_strategy (S := S) settings).

Lemma onEvent_ok s : triple init_ok (onEvent strategy s) (fun _ => init_ok) unbroken.
Proof.
  simpl. eapply triple_bind; [eapply triple_weaken; [apply (i_onData_ok s) | done | intros x w Hw; exact Hw | apply init_unbroken]|].
  intros []; simpl; [by apply triple_ret|]. eapply triple_weaken; [apply (i_onDisconnect_ok s) | done | by intros x w [Hw _] | done].
Qed.

Lemma onError_ok s : triple init_ok (onError strategy s) (fun _ => init_ok) unbroken.
Proof.
  simpl. eapply triple_bind.
  - eapply triple_weaken; [apply (init_safe (fun _ => True) any) | by intros w Hw | intros x w [Hw _]; exact Hw | apply init_unbroken];
      [apply safe_drop_socket | apply does_drop_socket].
  - intros []; simpl; [by apply triple_ret|]. eapply triple_weaken; [apply (i_onDisconnect_ok s) | done | by intros x w [Hw _] | done].
Qed.

(** The report of a dropped socket, whose connection goes. *)
Lemma onError_dropped s w : init_ok w -> s ∈ m_dropped (w_mon w) ->
  match onError strategy s w with (w', Ok _) => init_ok w' /\ no_entry s w' | (w', Throw _) => unbroken w' end.
Proof.
  intros Hw Hs. simpl. unfold mbind, R_bind, drop_socket, on_mon, mon_drop.
  assert (registered (w_mon w) s = false) as ->.
  { destruct (inv_dropped _ _ _ (io_mon _ _ Hw) s Hs) as [Hc Hr]. pose proof (inv_write _ _ _ (io_mon _ _ Hw)) as Hsub.
    unfold registered. rewrite !orb_false_iff, !bool_decide_eq_false. set_solver. }
  destruct w as [m k c]. exact (i_onDisconnect_ok s _ Hw).
Qed.

Lemma onTimeout_ok : triple init_ok (i_onTimeout (S := S) settings) (fun _ => init_ok) unbroken.
Proof. eapply triple_weaken; [apply i_onTimeout_ok | done | done | apply init_unbroken]. Qed.

Lemma errors_ok : triple init_ok (onErrors strategy) (fun _ => init_ok) unbroken.
Proof.
  simpl. eapply triple_weaken; [apply i_onTimeout_ok | done | done | apply init_unbroken].
Qed.

Lemma block_ok drops poll : triple init_ok (block strategy drops poll) (fun _ => init_ok) unbroken.
Proof.
  eapply (reactor_block sg given strategy init_ok unbroken no_entry).
  - intros w Hw. apply Hw.
  - apply init_unbroken.
  - intros w m k. apply init_mon.
  - intros s. apply onEvent_ok.
  - intros s. eapply triple_weaken; [apply (i_onWrite_ok s) | done | done | apply init_unbroken].
  - apply onError_ok.
  - apply errors_ok.
  - apply onTimeout_ok.
  - intros w s Hw Hs. pose proof (onConnect_ok w s Hw Hs) as H1. simpl.
    destruct (i_onConnect s _) as [w' [[]|e]]; [exact H1 | by apply init_unbroken].
  - apply onError_dropped.
  - apply popped_ok.
Qed.

Lemma sweep_ok : triple init_ok (sweep (S := S) settings) (fun _ => init_ok) unbroken.
Proof.
  unfold sweep. eapply (triple_bind _ _ _ (fun _ => init_ok)).
  { eapply triple_weaken; [apply (init_safe (fun _ => True) any) | by intros w Hw | by intros x w [Hw _] | apply init_unbroken]; [apply safe_tick | unfold now_seconds; does_all]. }
  intros now. eapply (triple_bind _ _ _ (fun _ => init_ok)); [by intros w Hw|]. intros last. destruct (negb _); [|by apply triple_ret].
  eapply (triple_bind _ _ _ (fun _ => init_ok)); [|intros _; apply onTimeout_ok]. intros w Hw. by apply (init_transport (with_lastConnect now)).
Qed.

Lemma pass_ok drops poll : triple init_ok (pass (S := S) settings drops poll) (fun _ => init_ok) unbroken.
Proof. unfold pass. eapply triple_bind; [apply block_ok | intros []; apply sweep_ok]. Qed.
End Invariant.
