(* ===== verification/SessionResponder.v ===== *)
(** * A session and its responder

    Whatever a session does, it gives its responder up exactly when it asks it to
    disconnect, and never gets one but from [setResponder]. One lemma for each
    operation of [Session], by the rules for the monad. *)
From S2P Require Import Prelude DateTime SessionID FieldMap Field MessageStore SessionState Message Session.

Section Responder.
Context {S A : Type}.

(** From [w] to [w']. *)
Definition hangs_up (w w' : World S A) : Prop :=
  exists l, w_history w' = l ++ w_history w /\
    (w_responder w = false -> w_responder w' = false) /\
    (w_responder w = true -> (w_responder w' = false <-> Responder_disconnect ∈ l)).

Definition hangs {X} (m : M S A X) : Prop := forall w, hangs_up w (fst (m w)).

Lemma hangs_up_refl w : hangs_up w w.
Proof. exists []. split_and!; [done | done|]. intros ->. split; [done | by intros ?%elem_of_nil]. Qed.

Lemma hangs_up_trans w1 w2 w3 : hangs_up w1 w2 -> hangs_up w2 w3 -> hangs_up w1 w3.
Proof.
  intros (l1 & E1 & F1 & T1) (l2 & E2 & F2 & T2). exists (l2 ++ l1). split_and!; [by rewrite E2, E1, app_assoc | auto|].
  intros Hw. specialize (T1 Hw). rewrite elem_of_app. destruct (w_responder w2); [|naive_solver]. specialize (T2 eq_refl). naive_solver.
Qed.

(** Nothing about the responder. *)
Lemma hangs_up_same w w' l :
  w_history w' = l ++ w_history w -> w_responder w' = w_responder w -> Responder_disconnect ∉ l -> hangs_up w w'.
Proof. intros Hh Hr Hl. exists l. split_and!; [done | by rewrite Hr|]. intros ->%(eq_trans Hr). split; [done | by intros ?%Hl]. Qed.

Lemma hangs_ret {X} (x : X) : hangs (mret x : M S A X). Proof. intros w. apply hangs_up_refl. Qed.
Lemma hangs_raise {X} e : hangs (raise e : M S A X). Proof. intros w. apply hangs_up_refl. Qed.
Lemma hangs_lift {X} (r : result X) : hangs (lift r : M S A X). Proof. intros w. apply hangs_up_refl. Qed.
Lemma hangs_gets {X} (f : World S A -> X) : hangs (gets f). Proof. intros w. apply hangs_up_refl. Qed.
Lemma hangs_read {X} (f : SessionState S -> X) : hangs (read f : M S A X). Proof. intros w. apply hangs_up_refl. Qed.
Lemma hangs_read_result {X} (f : SessionState S -> result X) : hangs (read_result f : M S A X). Proof. intros w. apply hangs_up_refl. Qed.
Lemma hangs_put_state f : hangs (put_state f : M S A unit). Proof. intros w. by apply (hangs_up_same _ _ []); [..|apply not_elem_of_nil]. Qed.
Lemma hangs_setTarget v : hangs (setTargetDefaultApplVerID v : M S A unit). Proof. intros w. by apply (hangs_up_same _ _ []); [..|apply not_elem_of_nil]. Qed.
Lemma hangs_tick c : hangs (tick c : M S A DateTime.DateTime). Proof. intros w. by apply (hangs_up_same _ _ []); [..|apply not_elem_of_nil]. Qed.

Lemma not_hung a : a <> Responder_disconnect -> Responder_disconnect ∉ [a].
Proof. intros Ha ?%list_elem_of_singleton. congruence. Qed.

Lemma hangs_note a : a <> Responder_disconnect -> hangs (note a : M S A unit).
Proof. intros Ha w. apply (hangs_up_same _ _ [a]); [done | done | by apply not_hung]. Qed.
Lemma hangs_call {X} a (f : A -> A * X) : a <> Responder_disconnect -> hangs (call a f : M S A X).
Proof. intros Ha w. unfold call. destruct (f (w_app w)). apply (hangs_up_same _ _ [a]); [done | done | by apply not_hung]. Qed.
Lemma hangs_store_call {X} a (f : SessionState S -> SessionState S * result X) : a <> Responder_disconnect -> hangs (store_call a f : M S A X).
Proof. intros Ha w. unfold store_call. destruct (f (w_state w)). apply (hangs_up_same _ _ [a]); [done | done | by apply not_hung]. Qed.

Lemma hangs_bind {X Y} (m : M S A X) (f : X -> M S A Y) : hangs m -> (forall x, hangs (f x)) -> hangs (x ← m; f x).
Proof.
  intros Hm Hf w. unfold mbind, M_bind. specialize (Hm w). destruct (m w) as [w' [x|e]]; [|done].
  eapply hangs_up_trans; [exact Hm | apply Hf].
Qed.
Lemma hangs_try {X} (m : M S A X) handler : hangs m -> (forall e h, handler e = Some h -> hangs h) -> hangs (try_catch m handler).
Proof.
  intros Hm Hh w. unfold try_catch. specialize (Hm w). destruct (m w) as [w' [x|e]]; [done|]. destruct (handler e) as [h|] eqn:E; [|done].
  eapply hangs_up_trans; [exact Hm | by eapply Hh].
Qed.
Lemma hangs_when b (m : M S A unit) : hangs m -> hangs (when b m).
Proof. intros Hm. destruct b; [done | apply hangs_ret]. Qed.
End Responder.

Create HintDb hangs discriminated.
#[export] Hint Constants Opaque : hangs.
#[export] Hint Resolve hangs_ret hangs_raise hangs_lift hangs_gets hangs_read hangs_read_result hangs_put_state hangs_setTarget hangs_tick : hangs.

Ltac hang_step :=
  first
    [ solve [eauto 2 with hangs]
    | match goal with
      | |- hangs (let _ := _ in _) => cbv zeta
      | |- hangs (mbind _ _) => apply hangs_bind; [|intros ?]
      | |- hangs (when _ _) => apply hangs_when
      | |- hangs (note _) => apply hangs_note; discriminate
      | |- hangs (call _ _) => apply hangs_call; discriminate
      | |- hangs (store_call _ _) => apply hangs_store_call; discriminate
      | |- hangs (try_catch _ _) =>
          let e := fresh "e" in let h := fresh "h" in let E := fresh "E" in
          apply hangs_try; [|intros e h E; repeat (first [discriminate E | injection E as <- | destruct e | case_match])]
      | |- hangs (match ?x with _ => _ end) => destruct x
      end ].
Ltac hang := repeat hang_step.

Section Operations.
Context {S A : Type} `{MessageStore S} `{Env A}.
Abbreviation M := (M S A).

Lemma hangs_timestamp : hangs (timestamp : M DateTime).
Proof. unfold timestamp. hang. Qed.
Hint Resolve hangs_timestamp : hangs.
Lemma hangs_onEvent (text : str) : hangs (onEvent text : M unit).
Proof. unfold onEvent. hang. Qed.
Hint Resolve hangs_onEvent : hangs.
Lemma hangs_onIncoming (string : str) : hangs (onIncoming string : M unit).
Proof. unfold onIncoming. hang. Qed.
Hint Resolve hangs_onIncoming : hangs.
Lemma hangs_onOutgoing (string : str) : hangs (onOutgoing string : M unit).
Proof. unfold onOutgoing. hang. Qed.
Hint Resolve hangs_onOutgoing : hangs.
Lemma hangs_LOGEX (m : M unit) : hangs m -> hangs (LOGEX m : M unit).
Proof. intros Hm. unfold LOGEX. hang. Qed.
Hint Resolve hangs_LOGEX : hangs.
Lemma hangs_getExpectedSenderNum : hangs (getExpectedSenderNum : M Z).
Proof. unfold getExpectedSenderNum. hang. Qed.
Hint Resolve hangs_getExpectedSenderNum : hangs.
Lemma hangs_getExpectedTargetNum : hangs (getExpectedTargetNum : M Z).
Proof. unfold getExpectedTargetNum. hang. Qed.
Hint Resolve hangs_getExpectedTargetNum : hangs.
Lemma hangs_incrNextTarget : hangs (incrNextTarget : M unit).
Proof. unfold incrNextTarget. hang. Qed.
Hint Resolve hangs_incrNextTarget : hangs.
Lemma hangs_reset_state : hangs (reset_state : M unit).
Proof. unfold reset_state. hang. Qed.
Hint Resolve hangs_reset_state : hangs.
Lemma hangs_refresh : hangs (refresh : M unit).
Proof. unfold refresh. hang. Qed.
Hint Resolve hangs_refresh : hangs.
Lemma hangs_isEnabled : hangs (isEnabled : M bool).
Proof. unfold isEnabled. hang. Qed.
Hint Resolve hangs_isEnabled : hangs.
Lemma hangs_isLoggedOn : hangs (isLoggedOn : M bool).
Proof. unfold isLoggedOn. hang. Qed.
Hint Resolve hangs_isLoggedOn : hangs.
Lemma hangs_logon : hangs (logon : M unit).
Proof. unfold logon. hang. Qed.
Hint Resolve hangs_logon : hangs.
Lemma hangs_logout (reason : str) : hangs (logout reason : M unit).
Proof. unfold logout. hang. Qed.
Hint Resolve hangs_logout : hangs.
Lemma hangs_setNextSenderMsgSeqNum (num : Z) : hangs (setNextSenderMsgSeqNum num : M unit).
Proof. unfold setNextSenderMsgSeqNum. hang. Qed.
Hint Resolve hangs_setNextSenderMsgSeqNum : hangs.
Lemma hangs_setNextTargetMsgSeqNum (num : Z) : hangs (setNextTargetMsgSeqNum num : M unit).
Proof. unfold setNextTargetMsgSeqNum. hang. Qed.
Hint Resolve hangs_setNextTargetMsgSeqNum : hangs.
Lemma hangs_isGoodTime (sendingTime : FieldBase) : hangs (isGoodTime sendingTime : M bool).
Proof. unfold isGoodTime. hang. Qed.
Hint Resolve hangs_isGoodTime : hangs.
Lemma hangs_checkSessionTime (now : DateTime) : hangs (checkSessionTime now : M bool).
Proof. unfold checkSessionTime. hang. Qed.
Hint Resolve hangs_checkSessionTime : hangs.
Lemma hangs_isTargetTooHigh (msgSeqNum : Z) : hangs (isTargetTooHigh msgSeqNum : M bool).
Proof. unfold isTargetTooHigh. hang. Qed.
Hint Resolve hangs_isTargetTooHigh : hangs.
Lemma hangs_isTargetTooLow (msgSeqNum : Z) : hangs (isTargetTooLow msgSeqNum : M bool).
Proof. unfold isTargetTooLow. hang. Qed.
Hint Resolve hangs_isTargetTooLow : hangs.
Lemma hangs_shouldSendReset : hangs (shouldSendReset : M bool).
Proof. unfold shouldSendReset. hang. Qed.
Hint Resolve hangs_shouldSendReset : hangs.
Lemma hangs_insertSendingTime (h : FieldMap) : hangs (insertSendingTime h : M FieldMap).
Proof. unfold insertSendingTime. hang. Qed.
Hint Resolve hangs_insertSendingTime : hangs.
Lemma hangs_insertOrigSendingTime (h : FieldMap) (now : DateTime) : hangs (insertOrigSendingTime h now : M FieldMap).
Proof. unfold insertOrigSendingTime. hang. Qed.
Hint Resolve hangs_insertOrigSendingTime : hangs.
Lemma hangs_fill (m : Message) : hangs (fill m : M Message).
Proof. unfold fill. hang. Qed.
Hint Resolve hangs_fill : hangs.
Lemma hangs_newMessage (msgType : str) : hangs (newMessage msgType : M Message).
Proof. unfold newMessage. hang. Qed.
Hint Resolve hangs_newMessage : hangs.
Lemma hangs_populateRejectReason_field (reject : Message) (field : Z) (text : str) : hangs (populateRejectReason_field reject field text : M Message).
Proof. unfold populateRejectReason_field. hang. Qed.
Hint Resolve hangs_populateRejectReason_field : hangs.
Lemma hangs_send_string (string : str) : hangs (send_string string : M bool).
Proof. unfold send_string. hang. Qed.
Hint Resolve hangs_send_string : hangs.
Lemma hangs_persist (message : Message) (messageString : str) : hangs (persist message messageString : M unit).
Proof. unfold persist. hang. Qed.
Hint Resolve hangs_persist : hangs.
Lemma hangs_call_to (a : Message -> action) f (message : Message) : (forall m, a m <> Responder_disconnect) -> hangs (call_to a f message : M Message).
Proof. intros Ha. unfold call_to. apply hangs_bind; [apply hangs_call, Ha|]. intros [m r]. hang. Qed.
Hint Extern 1 (hangs (call_to _ _ _)) => (apply hangs_call_to; intros; discriminate) : hangs.
Lemma hangs_prepareToSend (message : Message) (num : Z) (admin : bool) : hangs (prepareToSend message num admin : M (option Message)).
Proof. unfold prepareToSend. hang. Qed.
Hint Resolve hangs_prepareToSend : hangs.
Lemma hangs_reset_for_logon (message : Message) : hangs (reset_for_logon message : M Message).
Proof. unfold reset_for_logon. hang. Qed.
Hint Resolve hangs_reset_for_logon : hangs.
Lemma hangs_sendSequenced (message : Message) (num : Z) (admin : bool) : hangs (sendSequenced message num admin : M bool).
Proof. unfold sendSequenced. hang. Qed.
Hint Resolve hangs_sendSequenced : hangs.
Lemma hangs_sendRaw (message : Message) (num : Z) : hangs (sendRaw message num : M bool).
Proof. unfold sendRaw. hang. Qed.
Hint Resolve hangs_sendRaw : hangs.
Lemma hangs_send (message : Message) : hangs (send message : M bool).
Proof. unfold send. hang. Qed.
Hint Resolve hangs_send : hangs.
Lemma hangs_callback a f : a <> Responder_disconnect -> hangs (callback a f : M unit).
Proof. intros Ha. unfold callback. apply hangs_bind; [by apply hangs_call|]. intros r. hang. Qed.
Hint Extern 1 (hangs (callback _ _)) => (apply hangs_callback; discriminate) : hangs.
(** Asking the responder to disconnect and giving it up go together. *)
Lemma hangs_give_up : hangs (responder ← gets w_responder; when responder (_ ← onEvent (lit "Disconnecting"); _ ← note Responder_disconnect; set_responder false) : M unit).
Proof.
  intros w. unfold mbind, M_bind, gets. destruct (w_responder w) eqn:Er; [|apply hangs_up_refl]. simpl.
  unfold onEvent, when. destruct (m_pLog config); simpl;
    [exists [Responder_disconnect; LogEvent (lit "Disconnecting")] | exists [Responder_disconnect]];
    (split_and!; [done | congruence | intros _; split; [intros _; by left | done]]).
Qed.

Lemma hangs_disconnect : hangs (disconnect : M unit).
Proof.
  assert (forall f : M unit, hangs f -> hangs (responder ← gets w_responder; _ ← when responder (_ ← onEvent (lit "Disconnecting"); _ ← note Responder_disconnect; set_responder false); f)) as Hseq.
  { intros f Hf. pose proof (hangs_bind _ (fun _ => f) hangs_give_up (fun _ => Hf)) as H1. intros w. specialize (H1 w). revert H1.
    unfold mbind, M_bind, gets. by destruct (when _ _ w) as [w' [[]|e]]. }
  unfold disconnect. apply Hseq. hang.
Qed.
Hint Resolve hangs_disconnect : hangs.
Lemma hangs_generateLogon : hangs (generateLogon : M unit).
Proof. unfold generateLogon. hang. Qed.
Hint Resolve hangs_generateLogon : hangs.
Lemma hangs_generateLogon_reply (aLogon : Message) : hangs (generateLogon_reply aLogon : M unit).
Proof. unfold generateLogon_reply. hang. Qed.
Hint Resolve hangs_generateLogon_reply : hangs.
Lemma hangs_generateResendRequest (beginString : str) (msgSeqNum : Z) : hangs (generateResendRequest beginString msgSeqNum : M unit).
Proof. unfold generateResendRequest. hang. Qed.
Hint Resolve hangs_generateResendRequest : hangs.
Lemma hangs_newSequenceReset (beginSeqNo endSeqNo : Z) : hangs (newSequenceReset beginSeqNo endSeqNo : M Message).
Proof. unfold newSequenceReset. hang. Qed.
Hint Resolve hangs_newSequenceReset : hangs.
Lemma hangs_generateSequenceReset (beginSeqNo endSeqNo : Z) : hangs (generateSequenceReset beginSeqNo endSeqNo : M unit).
Proof. unfold generateSequenceReset. hang. Qed.
Hint Resolve hangs_generateSequenceReset : hangs.
Lemma hangs_generateHeartbeat : hangs (generateHeartbeat : M unit).
Proof. unfold generateHeartbeat. hang. Qed.
Hint Resolve hangs_generateHeartbeat : hangs.
Lemma hangs_generateHeartbeat_reply (testRequest : Message) : hangs (generateHeartbeat_reply testRequest : M unit).
Proof. unfold generateHeartbeat_reply. hang. Qed.
Hint Resolve hangs_generateHeartbeat_reply : hangs.
Lemma hangs_generateTestRequest (id : str) : hangs (generateTestRequest id : M unit).
Proof. unfold generateTestRequest. hang. Qed.
Hint Resolve hangs_generateTestRequest : hangs.
Lemma hangs_skip_rejected (msgType : str) (msgSeqNum : FieldBase) : hangs (skip_rejected msgType msgSeqNum : M unit).
Proof. unfold skip_rejected. hang. Qed.
Hint Resolve hangs_skip_rejected : hangs.
Lemma hangs_generateReject (message : Message) (err field : Z) : hangs (generateReject message err field : M unit).
Proof. unfold generateReject. hang. Qed.
Hint Resolve hangs_generateReject : hangs.
Lemma hangs_generateReject_text (message : Message) (text : str) (field : Z) : hangs (generateReject_text message text field : M unit).
Proof. unfold generateReject_text. hang. Qed.
Hint Resolve hangs_generateReject_text : hangs.
Lemma hangs_generateBusinessReject (message : Message) (err field : Z) : hangs (generateBusinessReject message err field : M unit).
Proof. unfold generateBusinessReject. hang. Qed.
Hint Resolve hangs_generateBusinessReject : hangs.
Lemma hangs_generateLogout (text : str) : hangs (generateLogout text : M unit).
Proof. unfold generateLogout. hang. Qed.
Hint Resolve hangs_generateLogout : hangs.
Lemma hangs_reset : hangs (reset : M unit).
Proof. unfold reset. hang. Qed.
Hint Resolve hangs_reset : hangs.
Lemma hangs_doBadTime (msg : Message) : hangs (doBadTime msg : M unit).
Proof. unfold doBadTime. hang. Qed.
Hint Resolve hangs_doBadTime : hangs.
Lemma hangs_doBadCompID (msg : Message) : hangs (doBadCompID msg : M unit).
Proof. unfold doBadCompID. hang. Qed.
Hint Resolve hangs_doBadCompID : hangs.
Lemma hangs_doPossDup (msg : Message) : hangs (doPossDup msg : M bool).
Proof. unfold doPossDup. hang. Qed.
Hint Resolve hangs_doPossDup : hangs.
Lemma hangs_doTargetTooLow (msg : Message) : hangs (doTargetTooLow msg : M bool).
Proof. unfold doTargetTooLow. hang. Qed.
Hint Resolve hangs_doTargetTooLow : hangs.
Lemma hangs_doTargetTooHigh (msg : Message) : hangs (doTargetTooHigh msg : M unit).
Proof. unfold doTargetTooHigh. hang. Qed.
Hint Resolve hangs_doTargetTooHigh : hangs.
Lemma hangs_fromCallback (msgType : str) (msg : Message) : hangs (fromCallback msgType msg : M unit).
Proof. unfold fromCallback. hang. Qed.
Hint Resolve hangs_fromCallback : hangs.
Lemma hangs_verify_checks (msg : Message) (checkTooHigh checkTooLow : bool) : hangs (verify_checks msg checkTooHigh checkTooLow : M bool).
Proof. unfold verify_checks. hang. Qed.
Hint Resolve hangs_verify_checks : hangs.
Lemma hangs_verify (msg : Message) (checkTooHigh checkTooLow : bool) : hangs (verify msg checkTooHigh checkTooLow : M bool).
Proof. unfold verify. hang. Qed.
Hint Resolve hangs_verify : hangs.
Lemma hangs_resend (message : Message) : hangs (resend message : M (option Message)).
Proof. unfold resend. hang. Qed.
Hint Resolve hangs_resend : hangs.
Lemma hangs_addSequenceReset (gapBegin gapEnd : Z) (retransmits : list Retransmit) : hangs (addSequenceReset gapBegin gapEnd retransmits : M (list Retransmit)).
Proof. unfold addSequenceReset. hang. Qed.
Hint Resolve hangs_addSequenceReset : hangs.
Lemma hangs_resend_one (r : resending) (s : str) : hangs (resend_one r s : M resending).
Proof. unfold resend_one. hang. Qed.
Hint Resolve hangs_resend_one : hangs.
Lemma hangs_resend_loop messages : forall r, hangs (resend_loop r messages : M resending).
Proof. induction messages as [|s messages IH]; intros r; simpl; hang. Qed.
Hint Resolve hangs_resend_loop : hangs.
Lemma hangs_plan_retransmits (beginSeqNo endSeqNo : Z) : hangs (plan_retransmits beginSeqNo endSeqNo : M (list Retransmit)).
Proof. unfold plan_retransmits. hang. Qed.
Hint Resolve hangs_plan_retransmits : hangs.
Lemma hangs_send_retransmits retransmits : hangs (send_retransmits retransmits : M unit).
Proof. induction retransmits as [|r retransmits IH]; simpl; hang. Qed.
Hint Resolve hangs_send_retransmits : hangs.
Lemma hangs_generateRetransmits (beginSeqNo endSeqNo : Z) : hangs (generateRetransmits beginSeqNo endSeqNo : M unit).
Proof. unfold generateRetransmits. hang. Qed.
Hint Resolve hangs_generateRetransmits : hangs.
Lemma hangs_next_logon_timer (now : DateTime) : hangs (next_logon_timer now : M unit).
Proof. unfold next_logon_timer. hang. Qed.
Hint Resolve hangs_next_logon_timer : hangs.
Lemma hangs_next_heartbeat_timer : hangs (next_heartbeat_timer : M unit).
Proof. unfold next_heartbeat_timer. hang. Qed.
Hint Resolve hangs_next_heartbeat_timer : hangs.
Lemma hangs_next_timer_body (now : DateTime) : hangs (next_timer_body now : M unit).
Proof. unfold next_timer_body. hang. Qed.
Hint Resolve hangs_next_timer_body : hangs.
Lemma hangs_next_timer (now : DateTime) : hangs (next_timer now : M unit).
Proof. unfold next_timer. hang. Qed.
Hint Resolve hangs_next_timer : hangs.
Lemma hangs_check_next_expected (logon : Message) : hangs (check_next_expected logon : M (option bool)).
Proof. unfold check_next_expected. hang. Qed.
Hint Resolve hangs_check_next_expected : hangs.
Lemma hangs_retransmit_after_logon (logon : Message) : hangs (retransmit_after_logon logon : M unit).
Proof. unfold retransmit_after_logon. hang. Qed.
Hint Resolve hangs_retransmit_after_logon : hangs.
Lemma hangs_accept_logon (drain : M unit) (logon : Message) (resetSeqNumFlag : bool) : hangs drain -> hangs (accept_logon drain logon resetSeqNumFlag : M unit).
Proof. intros Hd. unfold accept_logon. hang. Qed.
Hint Resolve hangs_accept_logon : hangs.
Lemma hangs_nextLogon (drain : M unit) (logon : Message) (now : DateTime) : hangs drain -> hangs (nextLogon drain logon now : M unit).
Proof. intros Hd. unfold nextLogon. hang. Qed.
Hint Resolve hangs_nextLogon : hangs.
Lemma hangs_nextHeartbeat (drain : M unit) (heartbeat : Message) : hangs drain -> hangs (nextHeartbeat drain heartbeat : M unit).
Proof. intros Hd. unfold nextHeartbeat. hang. Qed.
Hint Resolve hangs_nextHeartbeat : hangs.
Lemma hangs_nextTestRequest (drain : M unit) (testRequest : Message) : hangs drain -> hangs (nextTestRequest drain testRequest : M unit).
Proof. intros Hd. unfold nextTestRequest. hang. Qed.
Hint Resolve hangs_nextTestRequest : hangs.
Lemma hangs_nextLogout (logout : Message) : hangs (nextLogout logout : M unit).
Proof. unfold nextLogout. hang. Qed.
Hint Resolve hangs_nextLogout : hangs.
Lemma hangs_nextReject (drain : M unit) (reject : Message) : hangs drain -> hangs (nextReject drain reject : M unit).
Proof. intros Hd. unfold nextReject. hang. Qed.
Hint Resolve hangs_nextReject : hangs.
Lemma hangs_nextSequenceReset (drain : M unit) (sequenceReset : Message) : hangs drain -> hangs (nextSequenceReset drain sequenceReset : M unit).
Proof. intros Hd. unfold nextSequenceReset. hang. Qed.
Hint Resolve hangs_nextSequenceReset : hangs.
Lemma hangs_nextResendRequest (resendRequest : Message) : hangs (nextResendRequest resendRequest : M unit).
Proof. unfold nextResendRequest. hang. Qed.
Hint Resolve hangs_nextResendRequest : hangs.
Lemma hangs_next_app (message : Message) : hangs (next_app message : M bool).
Proof. unfold next_app. hang. Qed.
Hint Resolve hangs_next_app : hangs.
Lemma hangs_dispatch (drain : M unit) (message : Message) (now : DateTime) : hangs drain -> hangs (dispatch drain message now : M bool).
Proof. intros Hd. unfold dispatch. hang. Qed.
Hint Resolve hangs_dispatch : hangs.
Lemma hangs_on_exception message e (h : M unit) : on_exception message e = Some h -> hangs h.
Proof. intros E. destruct e; simpl in E; try discriminate E; injection E as <-; hang. Qed.
Lemma hangs_next_message (drain : M unit) (message : Message) (now : DateTime) (queued : bool) : hangs drain -> hangs (next_message drain message now queued : M unit).
Proof.
  intros Hd. unfold next_message. apply hangs_bind; [|intros b; hang]. apply hangs_try; [hang|].
  intros e h. destruct (on_exception message e) as [h'|] eqn:E; [|done]. intros [= <-]. pose proof (hangs_on_exception _ _ _ E). hang.
Qed.
Hint Resolve hangs_next_message : hangs.
Lemma hangs_nextQueued_num (drain : M unit) (num : Z) (now : DateTime) : hangs drain -> hangs (nextQueued_num drain num now : M bool).
Proof. intros Hd. unfold nextQueued_num. hang. Qed.
Hint Resolve hangs_nextQueued_num : hangs.
Lemma hangs_nextQueued fuel now : hangs (nextQueued fuel now : M unit).
Proof. induction fuel as [|fuel IH]; simpl; hang. Qed.
Hint Resolve hangs_nextQueued : hangs.
Lemma hangs_next message now : hangs (next message now : M unit).
Proof. intros w. apply (hangs_next_message _ _ _ _ (hangs_nextQueued _ _)). Qed.
Hint Resolve hangs_next : hangs.
Lemma hangs_next_string (msg : str) (now : DateTime) : hangs (next_string msg now : M unit).
Proof. unfold next_string. hang. Qed.
Hint Resolve hangs_next_string : hangs.
End Operations.

#[export] Hint Resolve hangs_timestamp hangs_onEvent hangs_onIncoming hangs_onOutgoing hangs_LOGEX
  hangs_getExpectedSenderNum hangs_getExpectedTargetNum hangs_incrNextTarget hangs_reset_state hangs_refresh
  hangs_isEnabled hangs_isLoggedOn hangs_logon hangs_logout hangs_setNextSenderMsgSeqNum hangs_setNextTargetMsgSeqNum
  hangs_isGoodTime hangs_checkSessionTime hangs_isTargetTooHigh hangs_isTargetTooLow hangs_shouldSendReset
  hangs_insertSendingTime hangs_insertOrigSendingTime hangs_fill hangs_newMessage hangs_populateRejectReason_field
  hangs_send_string hangs_persist hangs_prepareToSend hangs_reset_for_logon hangs_sendSequenced hangs_sendRaw
  hangs_send hangs_disconnect hangs_generateLogon hangs_generateLogon_reply hangs_generateResendRequest
  hangs_newSequenceReset hangs_generateSequenceReset hangs_generateHeartbeat hangs_generateHeartbeat_reply
  hangs_generateTestRequest hangs_skip_rejected hangs_generateReject hangs_generateReject_text
  hangs_generateBusinessReject hangs_generateLogout hangs_reset hangs_doBadTime hangs_doBadCompID hangs_doPossDup
  hangs_doTargetTooLow hangs_doTargetTooHigh hangs_fromCallback hangs_verify_checks hangs_verify hangs_resend
  hangs_addSequenceReset hangs_resend_one hangs_resend_loop hangs_plan_retransmits hangs_send_retransmits
  hangs_generateRetransmits hangs_next_logon_timer hangs_next_heartbeat_timer hangs_next_timer_body hangs_next_timer
  hangs_check_next_expected hangs_retransmit_after_logon hangs_accept_logon hangs_nextLogon hangs_nextHeartbeat
  hangs_nextTestRequest hangs_nextLogout hangs_nextReject hangs_nextSequenceReset hangs_nextResendRequest
  hangs_next_app hangs_dispatch hangs_next_message hangs_nextQueued_num hangs_nextQueued hangs_next hangs_next_string
  : hangs.
#[export] Hint Extern 1 (hangs (call_to _ _ _)) => (apply hangs_call_to; intros; discriminate) : hangs.
#[export] Hint Extern 1 (hangs (callback _ _)) => (apply hangs_callback; discriminate) : hangs.

(** [setResponder]: a call that returns has set the responder. *)
Section SetResponder.
Context {S A : Type} `{MessageStore S} `{Env A}.

Lemma setResponder_ends b (w : World S A) :
  match setResponder b w with (w', Ok _) => w_responder w' = b | (w', Throw _) => hangs_up w w' end.
Proof.
  assert (hangs (_ ← when (m_refreshOnLogon config) refresh; now ← timestamp; inTime ← checkSessionTime now; when (negb inTime) reset : M S A unit)) as Hh by hang.
  specialize (Hh w). revert Hh. unfold setResponder, mbind, M_bind.
  destruct (when (m_refreshOnLogon config) refresh w) as [w1 [[]|e]]; [|done]. destruct (timestamp w1) as [w2 [now|e]]; [|done].
  destruct (checkSessionTime now w2) as [w3 [b'|e]]; [|done]. destruct (when (negb b') reset w3) as [w4 [[]|e]]; done.
Qed.

(** [disconnect] leaves none. *)
Lemma disconnect_ends (w : World S A) : w_responder (fst (disconnect w)) = false.
Proof.
  assert (w_responder (fst ((responder ← gets w_responder; when responder (_ ← onEvent (lit "Disconnecting"); _ ← note Responder_disconnect; set_responder false) : M S A unit) w)) = false) as H1.
  { unfold mbind, M_bind, gets. destruct (w_responder w) eqn:E; [|done]. unfold when, onEvent, when. by destruct (m_pLog config). }
  set (rest := (loggedOut ← read (fun s => m_receivedLogon s || m_sentLogon s);
     _ ← when loggedOut (put_state (fun s => set_sentLogon false (set_receivedLogon false s)));
     _ ← when loggedOut (callback Called_onLogout (onLogout application));
     _ ← put_state (fun s => clearQueue (set_sentReset false (set_receivedReset false (set_sentLogout false s))));
     _ ← when (m_resetOnDisconnect config) reset_state;
     put_state (set_resendRange (0, 0))) : M S A unit).
  assert (hangs rest) as Hr by (unfold rest; hang).
  change (w_responder (fst ((responder ← gets w_responder;
    _ ← when responder (_ ← onEvent (lit "Disconnecting"); _ ← note Responder_disconnect; set_responder false); rest) w)) = false).
  revert H1. unfold mbind, M_bind, gets. destruct (when (w_responder w) _ w) as [w1 [[]|e]]; [|done]. simpl. intros H1.
  destruct (Hr w1) as (l & _ & Hf & _). by apply Hf.
Qed.
End SetResponder.
