(* ===== verification/SessionBox.v ===== *)
(** * Sessions as the transports use them

    [Session] behind the interface of [Engine]: its environment and its world in one
    object, and what it asked of its responder taken from its history. *)
From S2P Require Import Prelude DateTime Engine EngineProps.
From S2P Require Session SessionState MessageStore SessionResponder.

Record SessionBox (S A : Type) := mkSessionBox {
  bx_env : Session.Env A;
  bx_world : Session.World S A;
  bx_allowed : gset str          (* [m_allowedRemoteAddresses] *)
}.
Arguments mkSessionBox {S A}.
Arguments bx_env {S A}.
Arguments bx_world {S A}.
Arguments bx_allowed {S A}.

(** What is asked of the responder, in order; the history has the latest first. *)
Definition call_of (a : Session.action) : option call :=
  match a with
  | Session.Responder_send string => Some (CallSend string)
  | Session.Responder_disconnect => Some CallDisconnect
  | _ => None
  end.

Definition calls_of (history : list Session.action) : list call := omap call_of (reverse history).

Section Box.
Context {S A : Type} `{!MessageStore.MessageStore S}.
Implicit Types (b : SessionBox S A).

Definition with_world (w : Session.World S A) b : SessionBox S A := mkSessionBox (bx_env b) w (bx_allowed b).

(** The world with an empty history. *)
Definition forget (w : Session.World S A) : Session.World S A :=
  Session.mkWorld (Session.w_state w) (Session.w_targetDefaultApplVerID w) (Session.w_responder w) (Session.w_app w) (Session.w_ticks w) [].

(** An operation of a session as a call of the interface. *)
Definition boxed (m : Session.Env A -> Session.M S A unit) : session_call (SessionBox S A) := fun b =>
  let '(w, r) := m (bx_env b) (forget (bx_world b)) in (with_world w b, calls_of (Session.w_history w), r).

#[export] Instance session_interface : SessionInterface (SessionBox S A) := {
  so_isEnabled b := SessionState.m_enabled (Session.w_state (bx_world b));
  so_isLoggedOn b := SessionState.m_receivedLogon (Session.w_state (bx_world b)) && SessionState.m_sentLogon (Session.w_state (bx_world b));
  so_receivedLogon b := SessionState.m_receivedLogon (Session.w_state (bx_world b));
  so_isSessionTime now b := @Session.isSessionTime A (bx_env b) now;
  so_hasResponder b := Session.w_responder (bx_world b);
  so_isAcceptor b := negb (SessionState.m_initiate (Session.w_state (bx_world b)));
  so_getAllowedRemoteAddresses := bx_allowed;
  so_setResponder := boxed (fun env => @Session.setResponder S A _ env true);
  so_disconnect := boxed (fun env => @Session.disconnect S A _ env);
  so_next message now := boxed (fun env => @Session.next_string S A _ env message now);
  so_timer now := boxed (fun env => @Session.next_timer S A _ env now);
  so_logon := boxed (fun env => @Session.logon S A);
  so_logout := boxed (fun env => @Session.logout S A [])
}.

(** ** The interface's laws *)

Lemma elem_of_calls history : CallDisconnect ∈ calls_of history <-> Session.Responder_disconnect ∈ history.
Proof.
  unfold calls_of. rewrite list_elem_of_omap. split.
  - intros (a & Ha & E). destruct a; simpl in E; try discriminate E. by apply elem_of_reverse.
  - intros Ha. exists Session.Responder_disconnect. split; [by apply elem_of_reverse | done].
Qed.

Lemma hangs_up_word env (w w' : Session.World S A) b :
  w = forget (bx_world b) -> SessionResponder.hangs_up w w' ->
  keeps_word b (mkSessionBox env w' (bx_allowed b)) (calls_of (Session.w_history w')).
Proof.
  intros -> (l & El & Hf & Ht). simpl in *. rewrite app_nil_r in El. unfold keeps_word. simpl. split; [done|]. intros Hr.
  rewrite elem_of_calls, El. by apply Ht.
Qed.

Lemma boxed_lawful m : (forall env, SessionResponder.hangs (m env)) -> lawful_call (boxed m).
Proof.
  intros Hm b. unfold boxed. specialize (Hm (bx_env b) (forget (bx_world b))). destruct (m (bx_env b) (forget (bx_world b))) as [w' r].
  by apply (hangs_up_word (bx_env b) _ _ b eq_refl).
Qed.

#[export] Instance session_laws : SessionLaws (SessionBox S A).
Proof.
  split.
  - apply boxed_lawful. intros env. apply SessionResponder.hangs_disconnect.
  - intros b. simpl. unfold boxed. pose proof (@SessionResponder.disconnect_ends S A _ (bx_env b) (forget (bx_world b))) as Hd.
    by destruct (Session.disconnect (forget (bx_world b))) as [w r].
  - intros message now. apply boxed_lawful. intros env. apply SessionResponder.hangs_next_string.
  - intros now. apply boxed_lawful. intros env. apply SessionResponder.hangs_next_timer.
  - apply boxed_lawful. intros env. apply SessionResponder.hangs_logon.
  - apply boxed_lawful. intros env. apply SessionResponder.hangs_logout.
  - intros b. simpl. unfold boxed. pose proof (@SessionResponder.setResponder_ends S A _ (bx_env b) true (forget (bx_world b))) as Hd.
    destruct (Session.setResponder true (forget (bx_world b))) as [w [[]|e]]; [done|].
    by apply (hangs_up_word (bx_env b) _ _ b eq_refl).
Qed.
End Box.
