(* ===== verification/InitiatorRuns.v ===== *)
(** * Runs of the initiator, and what they guarantee

    A run starts with a monitor just made and every session disconnected; then the
    reactor connects and passes, other threads send, and the initiator is stopped. *)
From stdpp Require Import sorting relations.
From S2P Require Import Prelude DateTime Convertors Values Settings SocketSettings Parser Sockets Monitor MonitorProps Connection Engine EngineProps Triples Initiator InitiatorProps.
From S2P Require Session SessionState SessionExample.
From S2P Require Import MessageStore SessionBox.

(** ** What starts *)

(** After [initialize], which disconnects each session it makes. *)
Definition new_initiator (ids : gset str) : Initiator := mkInitiator ∅ ∅ ids ∅ ∅ ∅ ∅ 0 false.

Definition new_engine {S} (sessions : gmap str S) : Engine S := mkEngine sessions ∅ ∅ 0 ∅ false.

Section Runs.
Context {S : Type} `{SessionInterface S} `{Clocks} (settings : gmap str Dictionary).
Abbreviation W := (World (Engine S * Initiator)).
Implicit Types (w : W).

(** [SocketConnector(1)] has the monitor, with the two ends of its signals. *)
Definition start (sessions : gmap str S) (ticks sg it : Z) (k : Kernel) : W :=
  start_world 1 ticks sg it k (new_engine sessions, new_initiator (dom sessions)).

(** The sessions that were made and the descriptors that are open. *)
Record can_start (sessions : gmap str S) (sg it : Z) (k : Kernel) : Prop := {
  cs_sessions id x : sessions !! id = Some x -> so_hasResponder x = false;
  cs_pipe : sg <> it /\ sg ∈ k_open k /\ it ∈ k_open k;
  cs_open s : s ∈ k_open k -> 0 <= s;
  cs_closed : k_closed_twice k = []
}.

(** Every step ends: what throws leaves the reactor's thread. Other threads only call
    what sends. *)
Inductive init_run (w0 : W) : W -> Prop :=
| run_new : init_run w0 w0
| run_connect w w' : init_run w0 w -> connect settings w = (w', Ok ()) -> init_run w0 w'
| run_pass w w' drops poll : init_run w0 w -> pass settings drops poll w = (w', Ok ()) -> init_run w0 w'
| run_block' w w' drops poll :
    init_run w0 w -> block (connector_strategy settings) drops poll w = (w', Ok ()) -> init_run w0 w'
| run_call' w id f : init_run w0 w -> is_Some (e_sessions (engine w) !! id) -> sends_only f -> init_run w0 (on_session id f w).1
| run_stop w : init_run w0 w -> init_run w0 (on_transport (with_stop true) w).1.

Context `{!SessionLaws S}.

Lemma start_ok sessions ticks sg it k :
  can_start sessions sg it k -> init_at sg (k_open k ∖ {[it]}) (dom sessions) None (start sessions ticks sg it k).
Proof.
  intros [H1 (H2 & H3 & H4) H5 H6]. unfold start, start_world. split; unfold entry, transport, engine; simpl; try done.
  - split; simpl; try done.
    + intros p [c Hc]. by rewrite lookup_empty in Hc.
    + intros id x _ E. rewrite (H1 id x E). split; [done | by intros [? ?]].
  - by apply start_inv.
  - set_solver.
  - intros s1 p1 s2 p2 id [E|E]; by rewrite lookup_empty in E.
Qed.

Lemma ok_of {P : W -> Prop} {X} (m : W -> W * result X) (w w' : W) (x : X) (E : W -> Prop) :
  triple P m (fun _ => P) E -> P w -> m w = (w', Ok x) -> P w'.
Proof. intros Hm Hw Em. specialize (Hm w Hw). by rewrite Em in Hm. Qed.

Lemma run_ok sg given ids w0 w : init_at sg given ids None w0 -> init_run w0 w -> init_at sg given ids None w.
Proof.
  intros Hw0 Hr. induction Hr as [|w w' _ IH E|w w' drops poll _ IH E|w w' drops poll _ IH E|w id f _ IH Hid [Hf _]|w _ IH]; [done|..].
  - by eapply ok_of; [apply connect_ok|..].
  - by eapply ok_of; [apply pass_ok|..].
  - by eapply ok_of; [apply block_ok|..].
  - pose proof (init_safe sg given ids (known id) any (on_session id f) (safe_on_session id f Hf) (does_on_session true id f) w (conj IH Hid)) as Hs.
    destruct (on_session id f w) as [w' [x|e]]; [apply Hs | done].
  - by apply init_transport.
Qed.

(** A pass keeps the monitor's invariant even when it throws. *)
Lemma pass_mon sg given drops poll w : mon_inv sg given w -> mon_inv sg given (pass settings drops poll w).1.
Proof.
  intros Hw. unfold pass, mbind, R_bind. pose proof (block_inv sg (connector_strategy settings) given drops poll w Hw) as Hb.
  destruct (block (connector_strategy settings) drops poll w) as [w1 [[]|e]]; [|exact Hb]. eapply mon_inv_acts; [apply does_sweep | exact Hb].
Qed.

(** ** The reactor *)

(** C5 Every run of the initiator, for any sessions that keep their promises and
    whatever the system answers, keeps its account true: each session is
    disconnected, pending or connected, and only one of these; a connected session
    has one connection, a live one, whose socket the monitor watches and which is
    its responder, unless the socket was dropped and will be reported; and no
    pointer that dangles is followed, in the next step either. *)
Theorem initiator_sound sessions ticks sg it k w :
  can_start sessions sg it k -> init_run (start sessions ticks sg it k) w ->
  init_at sg (k_open k ∖ {[it]}) (dom sessions) None w /\
  forall drops poll,
    e_broken (engine (connect settings w).1) = false /\ e_broken (engine (pass settings drops poll w).1) = false.
Proof.
  intros Hs Hr. pose proof (run_ok _ _ _ _ _ (start_ok sessions ticks sg it k Hs) Hr) as Hw. split; [done|]. intros drops poll. split.
  - pose proof (connect_ok settings _ _ _ w Hw) as Hc. destruct (connect settings w) as [w' [[]|e]]; by apply init_unbroken in Hc.
  - pose proof (pass_ok settings _ _ _ drops poll w Hw) as Hp. destruct (pass settings drops poll w) as [w' [[]|e]]; [by apply init_unbroken in Hp | done].
Qed.

(** C6 However a run of the initiator ends, with a last pass that may throw, the
    end of its monitor has closed every descriptor that it or a connection had, its
    own two included, none twice, and no other. *)
Theorem initiator_descriptors sessions ticks sg it k w drops poll :
  can_start sessions sg it k -> init_run (start sessions ticks sg it k) w ->
  let w' := (pass settings drops poll w).1 in
  let k' := destroy_SocketMonitor (w_mon w') (w_kernel w') in
  k_closed_twice k' = [] /\ k_open k' = k_open k ∖ {[it]} ∖ {[sg]}.
Proof.
  intros Hs Hr. pose proof (run_ok _ _ _ _ _ (start_ok sessions ticks sg it k Hs) Hr) as Hw.
  by destruct (destroy_inv _ _ _ (pass_mon _ _ drops poll w (io_mon _ _ _ _ _ Hw))).
Qed.
End Runs.

(** ** A run *)

(** ME connects to YOU on localhost: the third descriptor is 7, which is writable at
    the first poll; the second is interrupted, the third brings YOU's Logon. *)
#[local] Instance ex_clocks : Clocks := {
  monotonicMillis n := 1000 * Z.of_nat n;
  time_ n := Z.of_nat n;
  utc_now n := SessionExample.ex_now
}.

Definition ex_box : SessionBox MemoryStore unit :=
  mkSessionBox SessionExample.ex_env (Session.mkWorld (Session.w_state SessionExample.ex_start) [] false tt 0 []) ∅.
Definition ex_name : str := lit "FIX.4.2:ME->YOU".
Definition ex_sessions : gmap str (SessionBox MemoryStore unit) := {[ex_name := ex_box]}.
Definition ex_dictionary : gmap str Dictionary :=
  {[ex_name := ex_settings [("SocketConnectHost", "localhost"); ("SocketConnectPort", "5001")]%string]}.

Definition ex_writable : Revents := mkRevents false false true false false.
Definition ex_readable : Revents := mkRevents true false false false false.
Definition ex_polls : list poll_outcome :=
  [PollReports [no_events; ex_writable]; PollInterrupted; PollReports [no_events; ex_readable]].

Definition ex_system (news : list Z) (recvs : list recv_outcome) : Kernel := mkKernel {[3; 4]} [] news [] recvs ex_polls 0 [].

Definition ex_begin (news : list Z) (recvs : list recv_outcome) : World (Engine (SessionBox MemoryStore unit) * Initiator) :=
  start ex_sessions 0 3 4 (ex_system news recvs).
Definition ex_connect news recvs := connect ex_dictionary (ex_begin news recvs).
Definition ex_pass news recvs := pass ex_dictionary 4 false (ex_connect news recvs).1.
Definition ex_pass2 news recvs := pass ex_dictionary 4 false (ex_pass news recvs).1.

Lemma ex_can_start news recvs : can_start ex_sessions 3 4 (ex_system news recvs).
Proof.
  split; simpl; [|set_solver|set_solver by lia|done]. intros id x. unfold ex_sessions. rewrite lookup_singleton. case_decide; [|done]. by intros [= <-].
Qed.

Definition ex_logged_on := ex_pass2 [7] [RecvData SessionExample.ex_logon].

(** A closed fact, by computing. *)
Ltac by_vm :=
  match goal with
  | |- snd _ = _ => vm_compute; reflexivity
  | |- ?P => refine (@bool_decide_eq_true_1 P _ _); vm_compute; reflexivity
  end.

Lemma ended {X Y} (p : X * result Y) (y : Y) : p.2 = Ok y -> p = (p.1, Ok y).
Proof. destruct p as [x r]. simpl. by intros ->. Qed.

Lemma ex_run : init_run ex_dictionary (ex_begin [7] [RecvData SessionExample.ex_logon]) ex_logged_on.1.
Proof.
  eapply run_pass; [|exact (ended ex_logged_on () ltac:(by_vm))].
  eapply run_pass; [|exact (ended (ex_pass [7] [RecvData SessionExample.ex_logon]) () ltac:(by_vm))].
  eapply run_connect; [apply run_new | exact (ended (ex_connect [7] [RecvData SessionExample.ex_logon]) () ltac:(by_vm))].
Qed.

(** The run ends logged on. *)
Lemma initiator_sound_witness :
  (isLoggedOn ex_logged_on.1).2 = Ok true /\
  init_at 3 ({[3; 4]} ∖ {[4]}) (dom ex_sessions) None ex_logged_on.1 /\
  forall drops poll,
    e_broken (engine (connect ex_dictionary ex_logged_on.1).1) = false /\
    e_broken (engine (pass ex_dictionary drops poll ex_logged_on.1).1) = false.
Proof.
  split; [by_vm|].
  exact (initiator_sound ex_dictionary ex_sessions 0 3 4 _ _ (ex_can_start [7] [RecvData SessionExample.ex_logon]) ex_run).
Defined.

(** When the initiator ends here, the socket of the session is closed too. *)
Lemma initiator_descriptors_witness :
  7 ∈ k_open (w_kernel ex_logged_on.1) /\
  let w' := (pass ex_dictionary 4 false ex_logged_on.1).1 in
  let k' := destroy_SocketMonitor (w_mon w') (w_kernel w') in
  k_closed_twice k' = [] /\ k_open k' = {[3; 4]} ∖ {[4]} ∖ {[3]}.
Proof.
  split; [by_vm|].
  exact (initiator_descriptors ex_dictionary ex_sessions 0 3 4 _ _ 4 false (ex_can_start [7] [RecvData SessionExample.ex_logon]) ex_run).
Defined.

(** ** Two ways to lose a session *)

(** [doConnect] does not look at the socket it got. When the system has none to
    give, the session waits for a connection that the monitor does not watch. *)
Lemma no_socket_pends :
  let w := (ex_connect [] []).1 in
  (ex_connect [] []).2 = Ok () /\ i_pending (transport w) = {[ex_name]} /\
  i_pendingConnections (transport w) !! INVALID_SOCKET_HANDLE = Some 0%nat /\ m_connectSockets (w_mon w) = ∅.
Proof. cbv zeta. do 3 (split; [by_vm|]). by_vm. Qed.

Section Outside.
Context {S : Type} `{SessionInterface S} `{Clocks}.

(** [Session::disconnect] on another thread than the reactor's: the drop shuts the
    socket down and no more, and the session forgets its responder. *)
Definition disconnect_outside (id : str) : R (Engine S * Initiator) unit :=
  s ← session id;
  let '(s, calls, r) := so_disconnect s in
  _ ← on_engine (set_sessions (<[id := s]>));
  o ← gets (fun w => e_responder (engine w) !! id);
  _ ← (match o with
       | None => mret ()
       | Some p =>
           c ← deref p;
           _ ← on_mon (drop_outside (c_socket c));
           on_engine (set_responders (delete id))
       end);
  lift r.
End Outside.

(** The reactor then reads the end of the stream. Its session has no responder to
    disconnect, so the socket stays open and watched, and no connection is left
    that would be told. *)
Definition ex_left :=
  pass ex_dictionary 4 false (disconnect_outside ex_name (ex_pass [7] [RecvData []]).1).1.

Lemma outside_disconnect_leaks :
  let w := ex_left.1 in
  ex_left.2 = Ok () /\ i_disconnected (transport w) = {[ex_name]} /\ i_connections (transport w) = ∅ /\
  7 ∈ m_readSockets (w_mon w) /\ 7 ∈ k_open (w_kernel w) /\ m_dropped (w_mon w) = [].
Proof.
  cbv zeta. do 5 (split; [by_vm|]). by_vm.
Qed.
