(* ===== verification/InitiatorPace.v ===== *)
(** * When the initiator connects a session

    [connect] attempts the disconnected sessions that are due, and no other: they are
    enabled, in their session time, and their own interval has passed. *)
From S2P Require Import Prelude DateTime Convertors Values Settings SocketSettings Parser Sockets Monitor Connection Engine Initiator MessageStore SessionBox InitiatorRuns.

Section Pace.
Context {S : Type} `{SessionInterface S} `{Clocks} (settings : gmap str Dictionary).
Abbreviation W := (World (Engine S * Initiator)).
Abbreviation R := (R (Engine S * Initiator)).
Implicit Types (w : W) (id : str).

Definition attempts w : gmap str Z := i_lastConnectAttempt (transport w).
Definition sessions w : gmap str S := e_sessions (engine w).

(** ** What leaves attempts and other sessions alone *)

Definition tame {X} id (m : R X) : Prop := forall w,
  attempts (m w).1 = attempts w /\ forall id', id' <> id -> sessions (m w).1 !! id' = sessions w !! id'.

Lemma tame_bind {X Y} id (m : R X) (f : X -> R Y) : tame id m -> (forall x, tame id (f x)) -> tame id (x ← m; f x).
Proof.
  intros Hm Hf w. unfold mbind, R_bind. destruct (Hm w) as [E1 E2]. destruct (m w) as [w' [x|e]]; [|done]. destruct (Hf x w') as [E3 E4]. simpl in *.
  split; [congruence|]. intros id' Hne. by rewrite E4, E2.
Qed.

Lemma tame_try {X} id (m : R X) handler : tame id m -> (forall e h, handler e = Some h -> tame id h) -> tame id (try_catch m handler).
Proof.
  intros Hm Hh w. unfold try_catch. destruct (Hm w) as [E1 E2]. destruct (m w) as [w' [x|e]]; [done|].
  destruct (handler e) as [h|] eqn:E; [|done]. destruct (Hh e h E w') as [E3 E4]. simpl in *.
  split; [congruence|]. intros id' Hne. by rewrite E4, E2.
Qed.

Lemma tame_same {X} id (m : R X) : (forall w, w_client (m w).1 = w_client w) -> tame id m.
Proof. intros Hm w. unfold attempts, sessions, transport, engine. by rewrite Hm. Qed.

Lemma tame_transport id f : (forall i, i_lastConnectAttempt (f i) = i_lastConnectAttempt i) -> tame id (on_transport (S := S) f).
Proof. intros Hf w. split; [apply Hf | done]. Qed.

Lemma tame_engine id f : (forall e, e_sessions (f e) = e_sessions e) -> tame id (on_engine (T := Initiator) f).
Proof. intros Hf w. split; [done|]. intros id' _. unfold sessions, engine. simpl. by rewrite Hf. Qed.

Lemma tame_on_kernel {X} id (f : Kernel -> X * Kernel) : tame id (on_kernel f : R X).
Proof. apply tame_same. intros w. unfold on_kernel. by destruct (f (w_kernel w)). Qed.
Lemma tame_on_mon {X} id (f : SocketMonitor -> X * SocketMonitor) : tame id (on_mon f : R X).
Proof. apply tame_same. intros w. unfold on_mon. by destruct (f (w_mon w)). Qed.
Lemma tame_when id b (m : R unit) : tame id m -> tame id (when b m).
Proof. intros Hm. destruct b; [done | by apply tame_same]. Qed.
End Pace.

Create HintDb tame.
Ltac tame_step :=
  match goal with
  | |- tame _ (mret _) => by apply tame_same
  | |- tame _ (raise _) => by apply tame_same
  | |- tame _ (lift _) => by apply tame_same
  | |- tame _ (gets _) => by apply tame_same
  | |- tame _ (state _) => by apply tame_same
  | |- tame _ (on_kernel _) => apply tame_on_kernel
  | |- tame _ (on_mon _) => apply tame_on_mon
  | |- tame _ (when _ _) => apply tame_when
  | |- tame _ (on_transport _) => by apply tame_transport
  | |- tame _ (on_engine _) => by apply tame_engine
  | |- tame _ _ => solve [auto with tame]
  | |- tame _ (mbind _ _) => apply tame_bind; [|intros ?]
  | |- tame _ (match ?x with _ => _ end) => destruct x
  end.
Ltac tame_all := repeat tame_step.

Section Spec.
Context {S : Type} `{SessionInterface S} `{Clocks} (settings : gmap str Dictionary).
Abbreviation W := (World (Engine S * Initiator)).
Abbreviation R := (R (Engine S * Initiator)).
Implicit Types (w : W) (id : str).

Lemma tame_dangling {X} id : tame id (dangling (S := S) : R X).
Proof. unfold dangling. tame_all. Qed.
Hint Resolve tame_dangling : tame.
Lemma tame_deref id p : tame id (deref (S := S) (T := Initiator) p).
Proof. unfold deref. tame_all. Qed.
Lemma tame_session id id' : tame id (session (S := S) (T := Initiator) id').
Proof. unfold session. tame_all. Qed.
Hint Resolve tame_deref tame_session : tame.
Lemma tame_run_calls id id' l : tame id (run_calls (S := S) (T := Initiator) id' l).
Proof.
  induction l as [|c l IH]; simpl; [tame_all|]. apply tame_bind; [|intros ?; exact IH].
  unfold run_call, connection_send, connection_disconnect, store, drop_socket. tame_all.
Qed.
Hint Resolve tame_run_calls : tame.

Lemma tame_on_session id f : tame id (on_session (S := S) (T := Initiator) id f).
Proof.
  unfold on_session. apply tame_bind; [tame_all|]. intros x. destruct (f x) as [[x' calls] r]. apply tame_bind; [|intros ?; tame_all].
  intros w. split; [done|]. intros id' Hne. unfold sessions, engine. simpl. by rewrite lookup_insert_ne.
Qed.
Hint Resolve tame_on_session : tame.

Lemma tame_doConnect id d : tame id (doConnect (S := S) id d).
Proof.
  unfold doConnect. apply tame_try; [|intros e h; destruct (is_exception e); [intros [= <-]; tame_all | done]].
  unfold doConnect_body, connector_connect, new_connection, setResponder, now_utc, now_seconds, alloc, store. tame_all.
  all: try (apply tame_try; [|intros e h [= <-]; unfold free]; tame_all).
Qed.

(** ** Sessions that are due *)

(** Enabled, with settings, and its interval has passed since the last attempt. *)
Definition due (now : Z) w id (x : S) : Prop :=
  sessions w !! id = Some x /\ so_isEnabled x = true /\ exists d, settings !! id = Some d /\
  forall last, attempts w !! id = Some last -> exists interval, reconnectInterval d = Ok interval /\ interval <= i32 (now - last).

Lemma due_same now w w' id x : sessions w' !! id = sessions w !! id -> attempts w' !! id = attempts w !! id -> due now w id x -> due now w' id x.
Proof. unfold due. by intros -> ->. Qed.

(** Clocks are read and nothing else happens. *)
Definition idle w w0 : Prop :=
  exists j, w0 = mkWorld (w_mon w) (Nat.iter j (fun k => (tick k).2) (w_kernel w)) (w_client w).

(** The second of an attempt is kept. *)
Definition record (now : Z) id : W -> W :=
  set_client (fun c => (c.1, with_attempts (<[id := now]> (i_lastConnectAttempt c.2)) (i_hosts c.2) c.2)).

(** From [w] to [w'] the sessions [ids] were attempted, one after the other: for each its
    second was kept and [doConnect] ran on what there was then, and but for the last one
    it returned. In between clocks were read. *)
Inductive attempting (now : Z) : list str -> W -> W -> Prop :=
| attempts_no_more w w' : idle w w' -> attempting now [] w w'
| attempts_next id ids d w w0 w' :
    idle w w0 -> settings !! id = Some d -> (ids <> [] -> (doConnect id d (record now id w0)).2 = Ok ()) ->
    attempting now ids (doConnect id d (record now id w0)).1 w' -> attempting now (id :: ids) w w'.

Lemma idle_refl w : idle w w.
Proof. exists 0%nat. by destruct w. Qed.

Lemma idle_trans w w1 w2 : idle w w1 -> idle w1 w2 -> idle w w2.
Proof. intros [i ->] [j ->]. exists (j + i)%nat. simpl. by rewrite Nat.iter_add. Qed.

Lemma attempting_idle now ids w w1 w' : idle w w1 -> attempting now ids w1 w' -> attempting now ids w w'.
Proof.
  intros Hi Hat. inversion Hat as [? ? Hi'|? ? ? ? w0 ? Hi']; subst; [apply attempts_no_more; by eapply idle_trans|].
  eapply attempts_next; [by eapply idle_trans | done..].
Qed.

(** What one turn of the loop is, for its session. *)
Definition turn (b : bool) (now : Z) id w (w' : W) (r : result unit) : Prop :=
  if b then exists d w0, idle w w0 /\ settings !! id = Some d /\ doConnect id d (record now id w0) = (w', r) else idle w w'.

Definition turned (now : Z) id w (w' : W) (r : result unit) : Prop :=
  exists b, turn b now id w w' r /\
    (b = true -> exists x n, due now w id x /\ so_isSessionTime (utc_now n) x = true) /\
    (r = Ok () -> forall x, due now w id x -> (forall n, so_isSessionTime (utc_now n) x = true) -> b = true).

Lemma turned_not now id w w' r :
  idle w w' -> (r = Ok () -> forall x, due now w id x -> (forall n, so_isSessionTime (utc_now n) x = true) -> False) ->
  turned now id w w' r.
Proof. intros Hi Hn. exists false. split_and!; [done | done|]. intros Hok x Hd Hx. destruct (Hn Hok x Hd Hx). Qed.

Lemma turn_others b now id w w' r : turn b now id w w' r ->
  attempts w' !! id = (if b then Some now else attempts w !! id) /\
  forall id', id' <> id -> sessions w' !! id' = sessions w !! id' /\ attempts w' !! id' = attempts w !! id'.
Proof.
  destruct b; simpl; [|by intros [j ->]]. intros (d & w0 & [j ->] & _ & E). match type of E with doConnect _ _ ?w1 = _ => set (start := w1) in E end.
  destruct (tame_doConnect id d start) as [E1 E2]. rewrite E in E1, E2. simpl in E1, E2.
  assert (attempts start = <[id := now]> (attempts w)) as E3 by done.
  split; [by rewrite E1, E3, lookup_insert_eq|]. intros id' Hne. by rewrite E1, E3, lookup_insert_ne, E2 by done.
Qed.

Lemma connect_one_spec now id w : turned now id w (connect_one settings now id w).1 (connect_one settings now id w).2.
Proof.
  unfold connect_one, mbind, R_bind, gets. destruct (e_sessions (engine w) !! id) as [x|] eqn:Ex.
  2: { apply turned_not; [apply idle_refl|]. intros _ y (Hy & _). unfold sessions in Hy. congruence. }
  assert (forall y, due now w id y -> y = x) as Hy by (intros y (Hy & _); unfold sessions in Hy; congruence).
  destruct (so_isEnabled x) eqn:Ee; simpl.
  2: { apply turned_not; [apply idle_refl|]. intros _ y Hd _. pose proof (Hy y Hd) as ->. destruct Hd as (_ & Hd & _). congruence. }
  unfold now_utc, mbind, R_bind, on_kernel. simpl.
  set (w0 := mkWorld (w_mon w) _ (w_client w)).
  assert (idle w w0) as Hi by by exists 1%nat.
  destruct (so_isSessionTime (utc_now (k_ticks (w_kernel w))) x) eqn:Et; simpl.
  2: { apply turned_not; [done|]. intros _ y Hd Hn. rewrite (Hy y Hd) in Hn. specialize (Hn (k_ticks (w_kernel w))). congruence. }
  destruct (settings !! id) as [d|] eqn:Ed; simpl; [|by apply turned_not].
  change (i_lastConnectAttempt (transport w0)) with (attempts w).
  assert (forall interval, (forall last, attempts w !! id = Some last -> reconnectInterval d = Ok interval /\ interval <= i32 (now - last)) ->
            turned now id w (doConnect id d (record now id w0)).1 (doConnect id d (record now id w0)).2) as Hdo.
  { intros interval Hl. exists true. split_and!; [exists d, w0; split_and!; [done | done | by destruct (doConnect _ _ _)] | | done].
    intros _. exists x, (k_ticks (w_kernel w)). split; [|done]. split_and!; [done..|]. exists d. split; [done|]. intros last El. exists interval. by apply Hl. }
  destruct (attempts w !! id) as [last|] eqn:Ea; simpl.
  - destruct (reconnectInterval d) as [interval|e] eqn:Ei; [|by apply turned_not]. simpl.
    destruct (Z.ltb_spec (i32 (now - last)) interval).
    + apply turned_not; [done|]. intros _ y (_ & _ & d' & Ed' & Hi') _. destruct (Hi' last Ea) as (i & Ei' & Hle).
      rewrite Ed in Ed'. injection Ed' as <-. rewrite Ei in Ei'. injection Ei' as <-. lia.
    + apply (Hdo interval). by intros ? [= <-].
  - by apply (Hdo 0).
Qed.

(** What the loop did, in [w'] after [w]: [ids] are the sessions it attempted. *)
Record looped (now : Z) (l ids : list str) w w' (r : result unit) : Prop := {
  lp_attempting : attempting now ids w w';
  lp_subset : ids `sublist_of` l;
  lp_in id : id ∈ ids -> attempts w' !! id = Some now /\ exists x n, due now w id x /\ so_isSessionTime (utc_now n) x = true;
  lp_out id : (id ∉ ids) -> attempts w' !! id = attempts w !! id;
  lp_sessions id : (id ∉ l) -> sessions w' !! id = sessions w !! id;
  lp_all : r = Ok () -> forall id x, id ∈ l -> due now w id x -> (forall n, so_isSessionTime (utc_now n) x = true) -> id ∈ ids
}.

Lemma looped_throws now id l w w' e : turned now id w w' (Throw e) -> exists ids, looped now (id :: l) ids w w' (Throw e).
Proof.
  intros (b' & Ht & Hd & _). destruct (turn_others _ _ _ _ _ _ Ht) as [H1 H2]. destruct b'; simpl in Ht.
  - exists [id]. destruct Ht as (d & w0 & Hi & Hs & E). split.
    + eapply attempts_next; [done | done | done |]. rewrite E. apply attempts_no_more, idle_refl.
    + apply sublist_skip, sublist_nil_l.
    + intros id' ->%list_elem_of_singleton. split; [done | by apply Hd].
    + intros id' Hni. apply H2. intros ->. apply Hni. by left.
    + intros id' Hni. apply H2. intros ->. apply Hni. by left.
    + done.
  - exists []. split; [by apply attempts_no_more | apply sublist_nil_l | by intros id' ?%elem_of_nil | by destruct Ht as [j ->] | by destruct Ht as [j ->] | done].
Qed.

Lemma looped_goes_on now id l ids w w1 w' r :
  (id ∉ l) -> turned now id w w1 (Ok ()) -> looped now l ids w1 w' r -> exists ids', looped now (id :: l) ids' w w' r.
Proof.
  intros Hni (b & Ht & Hd & Hall) [L1 L2 L3 L4 L5 L6]. destruct (turn_others _ _ _ _ _ _ Ht) as [H1 H2].
  assert (id ∉ ids) as Hni' by (intros Hin; apply Hni; by eapply sublist_subseteq).
  assert (forall id', id' <> id -> forall x, due now w1 id' x <-> due now w id' x) as Hdue.
  { intros id' Hne x. destruct (H2 id' Hne). by split; apply due_same. }
  exists (if b then id :: ids else ids). split.
  - destruct b; simpl in Ht; [|by eapply attempting_idle]. destruct Ht as (d & w0 & Hi & Hs & E).
    eapply attempts_next; [done | done | by rewrite E | by rewrite E].
  - destruct b; [by apply sublist_skip | by apply sublist_cons].
  - intros id' Hin. destruct (decide (id' = id)) as [ ->|Hne].
    + destruct b; [|done]. rewrite L4 by done. split; [done | by apply Hd].
    + assert (id' ∈ ids) as Hin' by (destruct b; [by apply elem_of_cons in Hin as [?|?] | done]).
      destruct (L3 id' Hin') as (E & x & n & Hx & Hn). split; [done|]. exists x, n. split; [by apply Hdue | done].
  - intros id' Hin. destruct (decide (id' = id)) as [ ->|Hne].
    + rewrite L4 by done. rewrite H1. destruct b; [destruct Hin; by left | done].
    + rewrite L4 by (intros ?; apply Hin; destruct b; [by right | done]). by apply H2.
  - intros id' Hin. apply not_elem_of_cons in Hin as [Hne Hin]. rewrite L5 by done. by apply H2.
  - intros Hok id' x [ ->|Hin]%elem_of_cons Hx Hn; [rewrite (Hall eq_refl x Hx Hn); by left|].
    assert (id' <> id) as Hne by by intros ->. assert (id' ∈ ids) by (eapply L6; [done | done | by apply Hdue | done]). destruct b; [by right | done].
Qed.

Lemma connect_all_spec now l : NoDup l -> forall w, exists ids, looped now l ids w (connect_all settings now l w).1 (connect_all settings now l w).2.
Proof.
  induction 1 as [|id l Hni _ IH]; intros w.
  - exists []. split; [apply attempts_no_more, idle_refl | done | by intros id ?%elem_of_nil | done | done | by intros _ id x ?%elem_of_nil].
  - cbn [connect_all]. unfold mbind, R_bind. pose proof (connect_one_spec now id w) as H1.
    destruct (connect_one settings now id w) as [w1 [[]|e]]; simpl in H1; [|by eapply looped_throws].
    destruct (IH w1) as [ids Hl]. by eapply looped_goes_on.
Qed.

(** C27 [connect] attempts sessions [ids], in order and each once: an attempt is a run of
    [doConnect] on the state there is then, after its second was kept, and but for reading
    clocks that is all [connect] does. These are sessions that are disconnected, enabled,
    in their session time, and whose own interval has passed since their last attempt;
    the attempts of the others are as they were. When it ends, it has attempted each of
    them. *)
Theorem connect_due w :
  let now := i32 (Z.quot (monotonicMillis (k_ticks (w_kernel w))) 1000) in
  let w' := (connect settings w).1 in
  exists ids, attempting now ids w w' /\ ids `sublist_of` ascending_ids (i_disconnected (transport w)) /\
    (forall id, id ∈ ids -> attempts w' !! id = Some now /\ exists x n, due now w id x /\ so_isSessionTime (utc_now n) x = true) /\
    (forall id, (id ∉ ids) -> attempts w' !! id = attempts w !! id) /\
    ((connect settings w).2 = Ok () -> forall id x, id ∈ i_disconnected (transport w) -> due now w id x ->
       (forall n, so_isSessionTime (utc_now n) x = true) -> id ∈ ids).
Proof.
  intros now w'. destruct (connect_all_spec now _ (NoDup_ascending_ids (i_disconnected (transport w)))
    (mkWorld (w_mon w) (tick (w_kernel w)).2 (w_client w))) as [ids [L1 L2 L3 L4 L5 L6]].
  exists ids. split_and!; [|done | exact L3 | exact L4 | intros Hok id x Hin; apply L6; [done | by apply elem_of_ascending_ids]].
  eapply attempting_idle; [|exact L1]. by exists 1%nat.
Qed.
End Spec.

#[local] Existing Instance InitiatorRuns.ex_clocks.

(** At the start ME has not been attempted: [connect] attempts it and gets descriptor 7. *)
Lemma connect_due_witness :
  (ex_connect [7] []).2 = Ok () /\ 7 ∈ k_open (w_kernel (ex_connect [7] []).1) /\
  exists ids, attempting ex_dictionary 0 ids (ex_begin [7] []) (ex_connect [7] []).1 /\ ex_name ∈ ids.
Proof.
  assert ((ex_connect [7] []).2 = Ok ()) as E by by_vm. split; [exact E|]. split; [by_vm|].
  destruct (connect_due ex_dictionary (ex_begin [7] [])) as (ids & H & _ & _ & _ & Hall). exists ids. split; [exact H|].
  apply (Hall E ex_name ex_box).
  - by_vm.
  - split; [reflexivity|]. split; [vm_compute; reflexivity|]. eexists. split; [reflexivity|]. intros last Hl. discriminate Hl.
  - intros n. vm_compute. reflexivity.
Defined.
