(* ===== verification/Delivery.v ===== *)
(** * From the bytes of a connection to the calls of its session

    What a connection reads goes through its parser; each message the parser gives is
    one call of [next] on the connection's session, in order. *)
From S2P Require Import Prelude DateTime Sockets Monitor Connection Engine EngineProps Triples Initiator InitiatorProps InitiatorRuns.
From S2P Require Parser Session SessionExample.
From S2P Require Import MessageStore SessionBox.

Section Delivery.
Context {S T : Type} `{SessionInterface S} `{Clocks} `{!SessionLaws S}.
Abbreviation W := (World (Engine S * T)).
Abbreviation R := (R (Engine S * T)).
Implicit Types (w : W) (id m : str) (p : nat).

Definition parser_at p w : option Parser.Parser := c_parser <$> e_heap (engine w) !! p.

(** A session after it was given a message at a time. *)
Definition given (x : S) (d : str * DateTime) : S := (so_next d.1 d.2 x).1.1.

(** ** Calls leave the parsers alone *)

Lemma conn_send_parser m c k : c_parser (conn_send m c k).1.2 = c_parser c.
Proof.
  unfold conn_send, processQueue. destruct (c_sendQueue c) as [|msg rest].
  - destruct (socket_send _ _ _) as [r k']. by destruct (_ =? _)%nat.
  - by destruct (process_queue _ _ _ _) as [[done [queue len]] k'].
Qed.

Lemma connection_send_parser p0 p m w : parser_at p0 (connection_send p m w).1 = parser_at p0 w.
Proof.
  unfold connection_send, mbind, R_bind, deref, mbind, R_bind, gets. destruct (e_heap (engine w) !! p) as [c|] eqn:E; [|done]. cbn.
  unfold on_kernel. pose proof (conn_send_parser m c (w_kernel w)) as Hc. destruct (conn_send m c (w_kernel w)) as [[b c'] k]. simpl in *.
  assert (parser_at p0 (mkWorld (w_mon w) k (set_heap <[p := c']> (engine w), (w_client w).2)) = parser_at p0 w) as Hp.
  { unfold parser_at, engine. simpl. destruct (decide (p0 = p)) as [ ->|]; [|by rewrite lookup_insert_ne].
    rewrite lookup_insert_eq. change ((w_client w).1) with (engine w). rewrite E. simpl. by rewrite Hc. }
  by destruct b.
Qed.

Lemma run_call_parser p0 id c w : parser_at p0 (run_call id c w).1 = parser_at p0 w.
Proof.
  unfold run_call, mbind at 1, R_bind at 1, gets. destruct (e_responder (engine w) !! id) as [p|]; [|done].
  destruct c as [m|]; [apply connection_send_parser|].
  unfold connection_disconnect, deref, drop_socket, on_mon, mbind, R_bind, gets. destruct (e_heap (engine w) !! p) as [c|]; [|done].
  simpl. by destruct (mon_drop (c_socket c) (w_mon w)).
Qed.

Lemma run_calls_parser p0 id l : forall w, parser_at p0 (run_calls id l w).1 = parser_at p0 w.
Proof.
  induction l as [|c l IH]; intros w; [done|]. simpl. unfold mbind, R_bind. rewrite <- (run_call_parser p0 id c w).
  by destruct (run_call id c w) as [w' [[]|e]].
Qed.

(** ** One call *)

Lemma on_session_spec id (f : session_call S) x w :
  engine_ok None (engine w) -> e_sessions (engine w) !! id = Some x ->
  let '(w', r) := on_session id f w in
  e_sessions (engine w') = <[id := (f x).1.1]> (e_sessions (engine w)) /\ r = (f x).2 /\ forall p, parser_at p w' = parser_at p w.
Proof.
  intros Hw E. unfold on_session, mbind, R_bind. rewrite (session_Some _ _ _ E). destruct (f x) as [[x' calls] r].
  pose proof (fun p => run_calls_parser p id calls (on_engine (T := T) (set_sessions (<[id := x']>)) w).1) as Hp.
  destruct (session_calls w id x x' calls Hw E) as (w' & E' & _ & _ & H3 & _). rewrite E' in Hp.
  unfold on_engine, on_client in *. simpl in *. by rewrite E'.
Qed.

(** A connection of a session, and what its parser holds. *)
Record reads p id (parser : Parser.Parser) w : Prop := {
  rd_engine : engine_ok None (engine w);
  rd_conn : exists c, e_heap (engine w) !! p = Some c /\ c_session c = Some id /\ c_parser c = parser
}.

Definition swallowed (r : result unit) : result unit := match r with Throw (InvalidMessage _) => Ok () | _ => r end.

Lemma hand_over_spec p id m x parser w :
  reads p id parser w -> e_sessions (engine w) !! id = Some x ->
  exists now, let '(w', r) := hand_over p id m w in
    reads p id parser w' /\ e_sessions (engine w') !! id = Some (given x (m, now)) /\ r = swallowed (so_next m now x).2.
Proof.
  intros [Hw (c & Ec & Es & Ep)] Ex. assert (live p (c_socket c) (Some id) w) as Hl by by exists c.
  destruct (safe_hand_over p (c_socket c) id m w Hw Hl) as (H1 & H2 & _). revert H1 H2.
  unfold hand_over, now_utc, mbind, R_bind, on_kernel, mret, R_ret. simpl. set (w0 := mkWorld _ _ _).
  intros Ha Hb. exists (utc_now (k_ticks (w_kernel w))). set (now := utc_now _) in *. unfold try_catch in *.
  pose proof (on_session_spec id (so_next m now) x w0 Hw Ex) as Hs. destruct (on_session id (so_next m now) w0) as [w1 r].
  destruct Hs as (H4 & -> & H6).
  assert (forall w2, engine w2 = engine w1 -> engine_ok None (engine w2) -> evolves w w2 ->
    reads p id parser w2 /\ e_sessions (engine w2) !! id = Some (given x (m, now)) /\
    swallowed (so_next m now x).2 = swallowed (so_next m now x).2) as Hend.
  { intros w2 E2 Hok Hev. destruct (ev_heap_Some _ _ _ _ Hev Ec) as (c' & Ec' & _ & Es').
    split; [split; [done|]|by rewrite E2, H4, lookup_insert_eq].
    exists c'. split_and!; [done | congruence|]. specialize (H6 p). unfold parser_at in H6. rewrite <- E2, Ec' in H6. simpl in H6.
    change (engine w0) with (engine w) in H6. rewrite Ec in H6. simpl in H6. congruence. }
  destruct (so_next m now x).2 as [[]|e]; simpl in *; [by apply Hend|]. destruct e; simpl in *; try by apply Hend.
  assert (e_sessions (engine w1) !! id = Some (given x (m, now))) as E1 by by rewrite H4, lookup_insert_eq.
  unfold when in *. rewrite (session_Some _ _ _ E1) in Ha, Hb |- *. destruct (so_isLoggedOn (given x (m, now))); simpl in *; [by apply Hend|].
  specialize (H6 p). unfold parser_at in H6. change (engine w0) with (engine w) in H6. rewrite Ec in H6.
  destruct (e_heap (engine w1) !! p) as [c1|] eqn:E2; [|done]. rewrite (deref_Some _ _ _ E2) in Ha, Hb |- *.
  unfold drop_socket, on_mon in *. destruct (mon_drop (c_socket c1) (w_mon w1)) as [b mon]. simpl in *. by apply Hend.
Qed.

(** ** The loop *)

Lemma connection_readMessage_spec p id msg parser w :
  reads p id parser w ->
  exists w', connection_readMessage p msg w = (w', Ok (Parser.readMessage parser msg).2) /\
    reads p id (Parser.readMessage parser msg).1 w' /\ e_sessions (engine w') = e_sessions (engine w).
Proof.
  intros [Hw (c & Ec & Es & Ep)]. unfold connection_readMessage, mbind, R_bind. rewrite (deref_Some _ _ _ Ec), Ep.
  destruct (Parser.readMessage parser msg) as [q r] eqn:Er. eexists. split; [reflexivity|]. split; [|done]. split.
  - by eapply engine_ok_store.
  - exists (with_parser q c). unfold engine. simpl. rewrite lookup_insert_eq. done.
Qed.

(** A pass that goes on has taken characters from the buffer. *)
Lemma readMessage_shrinks parser msg :
  (Parser.readMessage parser msg).2.1 = true ->
  (length (Parser.m_buffer (Parser.readMessage parser msg).1) < length (Parser.m_buffer parser))%nat.
Proof.
  unfold Parser.readMessage. destruct (Parser.readFixMessage_drops parser) as (k & Hk & Hs & He).
  destruct (Parser.readFixMessage parser) as [q [[s|]|e]]; simpl in *; [|done|]; intros _; rewrite Hk, length_drop.
  - destruct (Hs s eq_refl) as (g & ? & _). lia.
  - destruct (He e eq_refl). lia.
Qed.

(** What was given to the session, and why reading stopped. *)
Record delivered p id (x : S) (ms : list str) parser w' (r : result unit) (l : list (str * DateTime)) : Prop := {
  dl_prefix : map fst l `prefix_of` ms;
  dl_session : e_sessions (engine w') !! id = Some (fold_left given l x);
  dl_engine : exists parser', reads p id parser' w';
  dl_end : match r with
           | Ok _ => map fst l = ms /\ reads p id parser w'
           | Throw e => exists before m now, l = before ++ [(m, now)] /\ (so_next m now (fold_left given before x)).2 = Throw e
           end
}.

Lemma swallowed_throw r e : swallowed r = Throw e -> r = Throw e.
Proof. destruct r as [[]|[]]; simpl; congruence. Qed.

Lemma readMessages_loop_delivers p id fuel fuel' : forall parser msg x w,
  reads p id parser w -> e_sessions (engine w) !! id = Some x ->
  (length (Parser.m_buffer parser) < fuel)%nat -> (length (Parser.m_buffer parser) < fuel')%nat ->
  let '(ms, parser') := Parser.readMessages_loop fuel' parser msg in
  let '(w', r) := readMessages_loop fuel p id msg w in
  exists l, delivered p id x ms parser' w' r l.
Proof.
  revert fuel'. induction fuel as [|fuel IH]; intros fuel' parser msg x w Hr Ex Hf Hf'; [lia|]. destruct fuel' as [|fuel']; [lia|].
  cbn [Parser.readMessages_loop readMessages_loop]. unfold mbind at 1, R_bind at 1.
  destruct (connection_readMessage_spec p id msg parser w Hr) as (w1 & -> & Hr1 & Es1). pose proof (readMessage_shrinks parser msg) as Hs.
  destruct (Parser.readMessage parser msg) as [parser1 [[|] msg']]; simpl in *.
  2: { exists []. split; simpl; [done | congruence | by eexists | done]. }
  rewrite <- Es1 in Ex. destruct (hand_over_spec p id msg' x parser1 w1 Hr1 Ex) as (now & Hh).
  unfold mbind, R_bind. destruct (hand_over p id msg' w1) as [w2 r]. destruct Hh as (Hr2 & Ex2 & Er). specialize (Hs eq_refl).
  destruct r as [[]|e].
  - specialize (IH fuel' parser1 msg' _ w2 Hr2 Ex2 ltac:(lia) ltac:(lia)).
    destruct (Parser.readMessages_loop fuel' parser1 msg') as [ms parser2]. destruct (readMessages_loop fuel p id msg' w2) as [w3 r3].
    destruct IH as (l & [H1 H2 H3 H4]). exists ((msg', now) :: l). split; simpl; [by apply prefix_cons | done | done|].
    destruct r3 as [[]|e]; [by destruct H4 as [-> ?]|]. destruct H4 as (before & m & t & -> & He). by exists ((msg', now) :: before), m, t.
  - destruct (Parser.readMessages_loop fuel' parser1 msg') as [ms parser2]. exists [(msg', now)]. split; simpl.
    + apply prefix_cons, prefix_nil.
    + done.
    + by eexists.
    + exists [], msg', now. split; [done|]. by apply swallowed_throw.
Qed.

Lemma readMessages_delivers p id parser x w :
  reads p id parser w -> e_sessions (engine w) !! id = Some x ->
  let '(ms, parser') := Parser.readMessages parser in
  let '(w', r) := readMessages p w in
  exists l, delivered p id x ms parser' w' r l.
Proof.
  intros Hr Ex. destruct (rd_conn _ _ _ _ Hr) as (c & Ec & Es & Ep). unfold readMessages, mbind, R_bind.
  rewrite (deref_Some _ _ _ Ec), Es, Ep. apply readMessages_loop_delivers; [done | done | lia | lia].
Qed.

(** ** What is left to receive *)

Definition recvs w : list recv_outcome := k_recvs (w_kernel w).
Definition keeps_recvs {X} (m : R X) : Prop := forall w, recvs (m w).1 = recvs w.

Lemma recvs_bind {X Y} (m : R X) (f : X -> R Y) : keeps_recvs m -> (forall x, keeps_recvs (f x)) -> keeps_recvs (x ← m; f x).
Proof.
  intros Hm Hf w. unfold mbind, R_bind. rewrite <- (Hm w). destruct (m w) as [w' [x|e]]; [apply Hf | done].
Qed.

Lemma recvs_try {X} (m : R X) handler : keeps_recvs m -> (forall e h, handler e = Some h -> keeps_recvs h) -> keeps_recvs (try_catch m handler).
Proof.
  intros Hm Hh w. unfold try_catch. rewrite <- (Hm w). destruct (m w) as [w' [x|e]]; [done|]. destruct (handler e) eqn:E; [by eapply Hh | done].
Qed.

Lemma recvs_kernel {X} (f : Kernel -> X * Kernel) : (forall k, k_recvs (f k).2 = k_recvs k) -> keeps_recvs (on_kernel f).
Proof. intros Hf w. unfold on_kernel, recvs. specialize (Hf (w_kernel w)). by destruct (f (w_kernel w)). Qed.

Lemma recvs_mon {X} (f : SocketMonitor -> X * SocketMonitor) : keeps_recvs (on_mon f).
Proof. intros w. unfold on_mon, recvs. by destruct (f (w_mon w)). Qed.

Lemma recvs_when b (m : R unit) : keeps_recvs m -> keeps_recvs (when b m).
Proof. intros Hm. by destruct b. Qed.

Lemma socket_send_recvs s data k : k_recvs (socket_send s data k).2 = k_recvs k.
Proof. unfold socket_send. by destruct (k_sends k). Qed.

Lemma process_queue_recvs s queue : forall len k, k_recvs (process_queue s len queue k).2 = k_recvs k.
Proof.
  induction queue as [|m rest IH]; intros len k; [done|]. cbn [process_queue].
  rewrite <- (socket_send_recvs s (drop len m) k). destruct (socket_send s (drop len m) k) as [r k']. simpl.
  destruct (_ <=? _); [done|]. destruct (_ <? _)%nat; [done | apply IH].
Qed.

Lemma conn_send_recvs m c k : k_recvs (conn_send m c k).2 = k_recvs k.
Proof.
  unfold conn_send, processQueue. destruct (c_sendQueue c) as [|msg rest].
  - rewrite <- (socket_send_recvs (c_socket c) m k). destruct (socket_send _ _ _) as [r k']. by destruct (_ =? _)%nat.
  - cbn [c_socket c_sendLength c_sendQueue with_queue]. set (queue := (msg :: rest) ++ [m]). rewrite <- (process_queue_recvs (c_socket c) queue (c_sendLength c) k).
    by destruct (process_queue _ _ _ _) as [[done [q len]] k'].
Qed.
End Delivery.

Ltac keeps_step :=
  match goal with
  | |- keeps_recvs (mret _) => by intros ?
  | |- keeps_recvs (raise _) => by intros ?
  | |- keeps_recvs (lift _) => by intros ?
  | |- keeps_recvs (gets _) => by intros ?
  | |- keeps_recvs (on_engine _) => by intros ?
  | |- keeps_recvs (on_kernel tick) => by apply recvs_kernel
  | |- keeps_recvs (on_mon _) => apply recvs_mon
  | |- keeps_recvs (when _ _) => apply recvs_when
  | |- keeps_recvs (mbind _ _) => apply recvs_bind; [|intros ?]
  | |- keeps_recvs (match ?x with _ => _ end) => destruct x
  end.
Ltac keeps_all := repeat keeps_step.

Section Reading.
Context {S T : Type} `{SessionInterface S} `{Clocks} `{!SessionLaws S}.

Lemma keeps_deref p : keeps_recvs (deref (S := S) (T := T) p).
Proof. unfold deref, dangling. keeps_all. Qed.

Lemma keeps_run_calls id l : keeps_recvs (run_calls (S := S) (T := T) id l).
Proof.
  induction l as [|c l IH]; simpl; [keeps_all|]. apply recvs_bind; [|intros ?; exact IH]. unfold run_call. keeps_all.
  - unfold connection_send. apply recvs_bind; [apply keeps_deref|]. intros c. apply recvs_bind; [|intros []; unfold store; keeps_all].
    apply recvs_kernel. intros k. rewrite <- (conn_send_recvs message c k). by destruct (conn_send message c k) as [[b c'] k'].
  - unfold connection_disconnect, drop_socket. apply recvs_bind; [apply keeps_deref | intros ?; keeps_all].
Qed.

Lemma keeps_hand_over p id m : keeps_recvs (hand_over (S := S) (T := T) p id m).
Proof.
  unfold hand_over, now_utc. apply recvs_bind; [keeps_all|]. intros now. apply recvs_try.
  - unfold on_session, session, dangling. keeps_all. apply keeps_run_calls.
  - intros [] h; try done. intros [= <-]. unfold session, dangling, drop_socket. keeps_all. apply keeps_deref.
Qed.

Lemma keeps_readMessages p : keeps_recvs (readMessages (S := S) (T := T) p).
Proof.
  unfold readMessages. apply recvs_bind; [apply keeps_deref|]. intros c. destruct (c_session c) as [id|]; [|keeps_all].
  generalize (length (Parser.m_buffer (c_parser c)) + 2)%nat, (@nil ascii). intros fuel. induction fuel as [|fuel IH]; intros m; simpl; [keeps_all|].
  apply recvs_bind; [|intros [[|] m']; [|keeps_all]].
  - unfold connection_readMessage, store. apply recvs_bind; [apply keeps_deref | intros ?; keeps_all].
  - apply recvs_bind; [apply keeps_hand_over | intros ?; apply IH].
Qed.
End Reading.

(** ** Reading what arrives *)

Section Stream.
Context {S : Type} `{SessionInterface S} `{Clocks} `{!SessionLaws S}.
Abbreviation W := (World (Engine S * Initiator)).
Implicit Types (w : W) (id m : str) (p : nat).

(** The socket is found readable [n] times. *)
Fixpoint read_times (n : nat) p : R (Engine S * Initiator) bool :=
  match n with
  | O => mret true
  | Datatypes.S n => b ← connector_read p; if b : bool then read_times n p else mret false
  end.

Lemma readFromSocket_spec p id parser data rest parser' w :
  reads p id parser w -> recvs w = RecvData data :: rest -> data <> [] -> (length data <= BUFSIZ)%nat ->
  Parser.addToStream data parser = Ok parser' ->
  exists w', readFromSocket p w = (w', Ok ()) /\ reads p id parser' w' /\ recvs w' = rest /\ e_sessions (engine w') = e_sessions (engine w).
Proof.
  intros [Hw (c & Ec & Es & Ep)] Hr Hd Hl Ha. unfold readFromSocket, mbind, R_bind. rewrite (deref_Some _ _ _ Ec).
  unfold on_kernel, socket_recv. unfold recvs in Hr. rewrite Hr, take_ge by done. destruct data as [|ch data]; [done|].
  rewrite Ep, Ha. eexists. split; [reflexivity|]. split_and!; [|done|done]. split.
  - by eapply engine_ok_store.
  - exists (with_parser parser' c). unfold engine. simpl. rewrite lookup_insert_eq. done.
Qed.

(** Stopped in a call of the session. *)
Definition stopped (x : S) (l : list (str * DateTime)) : Prop :=
  exists before m now e, l = before ++ [(m, now)] /\ (so_next m now (fold_left given before x)).2 = Throw e.

Lemma connector_read_spec p id parser x data rest ms parser' w :
  reads p id parser w -> e_sessions (engine w) !! id = Some x ->
  recvs w = RecvData data :: rest -> data <> [] -> (length data <= BUFSIZ)%nat -> Parser.receive parser data = Ok (ms, parser') ->
  let '(w', r) := connector_read p w in
  exists l, map fst l `prefix_of` ms /\ e_sessions (engine w') !! id = Some (fold_left given l x) /\ recvs w' = rest /\
    ((r = Ok true /\ map fst l = ms /\ reads p id parser' w') \/ (r <> Ok true /\ stopped x l)).
Proof.
  intros Hr Ex Hrec Hd Hl. unfold Parser.receive. destruct (Parser.addToStream data parser) as [q|] eqn:Ea; [|done]. simpl. intros [= Em].
  destruct (rd_conn _ _ _ _ Hr) as (c & Ec & Es & Ep).
  destruct (readFromSocket_spec p id parser data rest q w Hr Hrec Hd Hl Ea) as (w1 & E1 & Hr1 & Hrec1 & Es1).
  unfold connector_read, mbind at 1, R_bind at 1. rewrite (deref_Some _ _ _ Ec), Es. unfold try_catch, mbind, R_bind. rewrite E1. rewrite <- Es1 in Ex.
  pose proof (readMessages_delivers p id q x w1 Hr1 Ex) as Hm. rewrite Em in Hm. pose proof (keeps_readMessages p w1) as Hk.
  destruct (readMessages p w1) as [w2 r]. destruct Hm as (l & [H1 H2 H3 H4]). simpl in Hk.
  assert (recvs w2 = rest) as Hrec2 by congruence.
  destruct r as [[]|e]; [exists l; destruct H4; split_and!; [done..|]; by left|].
  assert (stopped x l) as Hst by (destruct H4 as (before & m & now & H4); by exists before, m, now, e).
  destruct e; simpl; exists l; (split_and!; [done..|]; right; split; [done | exact Hst]).
Qed.

Lemma read_times_spec p id chunks : forall parser x ms parser' w,
  reads p id parser w -> e_sessions (engine w) !! id = Some x -> recvs w = map RecvData chunks ->
  Forall (fun c => c <> [] /\ (length c <= BUFSIZ)%nat) chunks -> Parser.receive_all parser chunks = Ok (ms, parser') ->
  let '(w', r) := read_times (length chunks) p w in
  exists l, map fst l `prefix_of` ms /\ e_sessions (engine w') !! id = Some (fold_left given l x) /\
    ((r = Ok true /\ map fst l = ms) \/ (r <> Ok true /\ stopped x l)).
Proof.
  induction chunks as [|chunk chunks IH]; intros parser x ms parser' w Hr Ex Hrec Hc.
  { intros [= <- <-]. exists []. split_and!; [done | done | by left]. }
  apply Forall_cons in Hc as [[Hd Hl] Hc]. cbn [Parser.receive_all]. destruct (Parser.receive parser chunk) as [[first q]|] eqn:E; [|done].
  simpl. destruct (Parser.receive_all q chunks) as [[more q']|] eqn:E2; [|done]. intros [= <- <-].
  pose proof (connector_read_spec p id parser x chunk _ first q w Hr Ex Hrec Hd Hl E) as Hs.
  unfold mbind, R_bind. destruct (connector_read p w) as [w1 r]. destruct Hs as (l & H1 & H2 & H3 & [(-> & H4 & H5)|[Hne Hst]]).
  - specialize (IH q _ more q' w1 H5 H2 H3 Hc E2). destruct (read_times (length chunks) p w1) as [w2 r2].
    destruct IH as (l2 & H6 & H7 & H8). exists (l ++ l2). rewrite map_app, fold_left_app, H4. split_and!; [by apply prefix_app | done|].
    destruct H8 as [[-> ->]|[Hne (before & m & now & e & -> & He)]]; [by left | right]. split; [done|].
    exists (l ++ before), m, now, e. by rewrite <- app_assoc, fold_left_app.
  - assert (match r with Ok true => read_times (length chunks) p w1 | Ok false => (w1, Ok false) | Throw e => (w1, Throw e) end =
      (w1, match r with Ok _ => Ok false | Throw e => Throw e end)) as E3 by by destruct r as [[]|].
    assert (exists l, map fst l `prefix_of` first ++ more /\ e_sessions (engine w1) !! id = Some (fold_left given l x) /\ stopped x l) as (l' & H5 & H6 & H7).
    { exists l. split_and!; [by apply prefix_app_r | done | done]. }
    destruct r as [[]|e]; [done | |]; (exists l'; split_and!; [done | done | by right]).
Qed.

(** C10 End to end, from the socket to the session: framed messages that arrive in
    chunks cut anywhere are given to the connection's session, each once and in
    order, with nothing else; all of them, unless a call of the session throws,
    which is then the last. *)
Theorem stream_reaches_session p id x ms chunks w :
  reads p id Parser.new_Parser w -> e_sessions (engine w) !! id = Some x -> recvs w = map RecvData chunks ->
  Forall (fun c => c <> [] /\ (length c <= BUFSIZ)%nat) chunks ->
  Forall Parser.framed ms -> concat chunks = concat ms ->
  Forall (fun m => Forall (fun c => Z.of_nat (length m) + Z.of_nat (length c) <= Parser.MAX_MESSAGE_SIZE) chunks) ms ->
  let '(w', r) := read_times (length chunks) p w in
  exists l, map fst l `prefix_of` ms /\ e_sessions (engine w') !! id = Some (fold_left given l x) /\
    ((r = Ok true /\ map fst l = ms) \/ (r <> Ok true /\ stopped x l)).
Proof.
  intros Hr Ex Hrec Hc Hf E Hsize.
  destruct (Parser.receive_all_frames chunks Parser.new_Parser ms) as (parser & Hp & _); [by left | done | done | by left | by left | done |].
  by eapply read_times_spec.
Qed.
End Stream.

(** ** YOU's Logon in two pieces *)

#[local] Existing Instance ex_clocks.

Definition ex_body : str := drop 15 (take (length SessionExample.ex_logon - 8) SessionExample.ex_logon).
Definition ex_pieces : list str := [take 30 SessionExample.ex_logon; drop 30 SessionExample.ex_logon].
Definition ex_connected := (ex_pass [7] (map RecvData ex_pieces)).1.

Lemma ex_connected_ok : engine_ok None (engine ex_connected).
Proof.
  refine (io_engine _ _ _ _ _ (run_ok ex_dictionary 3 _ _ _ _ (start_ok ex_sessions 0 3 4 _ (ex_can_start [7] (map RecvData ex_pieces))) _)).
  eapply run_pass; [|exact (ended (ex_pass [7] (map RecvData ex_pieces)) () ltac:(by_vm))].
  eapply run_connect; [apply run_new | exact (ended (ex_connect [7] (map RecvData ex_pieces)) () ltac:(by_vm))].
Qed.

(** The connection of the session, which is the first, before it reads. *)
Lemma ex_reads : reads 0 ex_name Parser.new_Parser ex_connected.
Proof.
  split; [apply ex_connected_ok|]. destruct (e_heap (engine ex_connected) !! 0%nat) as [c|] eqn:E; [|vm_compute in E; discriminate E].
  exists c. vm_compute in E. injection E as <-. by split_and!.
Qed.

Lemma stream_reaches_session_witness :
  (read_times 2 0 ex_connected).2 = Ok true /\
  exists x l, e_sessions (engine ex_connected) !! ex_name = Some x /\ map fst l = [SessionExample.ex_logon] /\
    e_sessions (engine (read_times 2 0 ex_connected).1) !! ex_name = Some (fold_left given l x).
Proof.
  assert ((read_times 2 0 ex_connected).2 = Ok true) as Hend by by_vm. split; [done|].
  destruct (e_sessions (engine ex_connected) !! ex_name) as [x|] eqn:Ex; [|vm_compute in Ex; discriminate Ex]. exists x.
  pose proof (stream_reaches_session 0 ex_name x [SessionExample.ex_logon] ex_pieces ex_connected ex_reads Ex) as Ht.
  change (length ex_pieces) with 2%nat in Ht. destruct (read_times 2 0 ex_connected) as [w' r]. simpl in Hend. subst r.
  destruct Ht as (l & _ & E & [[_ El]|[Hne _]]); [vm_compute; reflexivity | | | | | exists l; exact (conj eq_refl (conj El E)) | destruct Hne; reflexivity].
  - do 2 (constructor; [split; [vm_compute; discriminate | apply Nat.leb_le; vm_compute; reflexivity]|]). constructor.
  - constructor; [|constructor].
    assert (SessionExample.ex_logon = Parser.frame (lit "FIX.4.2") (lit "56") ex_body (lit "213")) as -> by (vm_compute; reflexivity).
    apply Parser.framed_intro; by_compute.
  - vm_compute. reflexivity.
  - constructor; [|constructor]. do 2 (constructor; [by_compute|]). constructor.
Defined.
