(* ===== verification/Acceptor.v ===== *)
(** * The socket acceptor ([src/C++/Acceptor.h], [Acceptor.cpp], [SocketAcceptor.h], [SocketAcceptor.cpp], [SocketServer.h], [SocketServer.cpp])

    Listeners accept connections. A connection reads its first message before it has a
    session: the message must be the Logon of a session of the port that no other
    connection serves. Connections that do not log on are dropped in time. *)
From stdpp Require Import sorting.
From S2P Require Import Prelude DateTime Convertors Values Field FieldMap Message SessionID Settings SocketSettings Parser Sockets Monitor Connection Engine Initiator.

(** ** What else is asked of the system *)

(** Addresses and errors are, as the clocks are, functions of how often the system was asked. *)
Class Addresses := {
  socket_hostport : nat -> Z -> Z;      (* the port a socket is bound to *)
  socket_peername : nat -> Z -> str;    (* the address at the other end *)
  socket_error : nat -> str             (* the text of the last error *)
}.

(** [accept] makes a socket; the answers are those of [socket_new]. *)
Definition socket_accept (s : Z) (k : Kernel) : Z * Kernel :=
  if negb (socket_isValid s) then (INVALID_SOCKET_HANDLE, k) else socket_new k.

(** ** State *)

Record SocketInfo := mkSocketInfo {
  si_socket : Z;
  si_port : Z;
  si_noDelay : bool;
  si_sendBufSize : Z;
  si_rcvBufSize : Z
}.

(** The acceptor, and its server while there is one. *)
Record Acceptor := mkAcceptor {
  a_sessions : gset str;                     (* [m_sessions] *)
  a_maxPendingConnections : Z;
  a_stop : bool;
  a_server : bool;                           (* [m_pServer] is not null *)
  a_socketToInfo : gmap Z SocketInfo;
  a_portToInfo : gmap Z SocketInfo;
  a_portToSessions : gmap Z (gset str);
  a_sessionToPort : gmap str Z;
  a_connections : gmap Z nat;
  a_lastPreSessionSweep : Z
}.

Definition with_server (server : bool) (socketToInfo portToInfo : gmap Z SocketInfo) (a : Acceptor) : Acceptor :=
  mkAcceptor (a_sessions a) (a_maxPendingConnections a) (a_stop a) server socketToInfo portToInfo (a_portToSessions a)
    (a_sessionToPort a) (a_connections a) (a_lastPreSessionSweep a).
Definition with_ports (portToSessions : gmap Z (gset str)) (sessionToPort : gmap str Z) (a : Acceptor) : Acceptor :=
  mkAcceptor (a_sessions a) (a_maxPendingConnections a) (a_stop a) (a_server a) (a_socketToInfo a) (a_portToInfo a) portToSessions
    sessionToPort (a_connections a) (a_lastPreSessionSweep a).
Definition with_accepted (connections : gmap Z nat) (a : Acceptor) : Acceptor :=
  mkAcceptor (a_sessions a) (a_maxPendingConnections a) (a_stop a) (a_server a) (a_socketToInfo a) (a_portToInfo a)
    (a_portToSessions a) (a_sessionToPort a) connections (a_lastPreSessionSweep a).
Definition with_lastSweep (now : Z) (a : Acceptor) : Acceptor :=
  mkAcceptor (a_sessions a) (a_maxPendingConnections a) (a_stop a) (a_server a) (a_socketToInfo a) (a_portToInfo a)
    (a_portToSessions a) (a_sessionToPort a) (a_connections a) now.
Definition with_stopped (b : bool) (a : Acceptor) : Acceptor :=
  mkAcceptor (a_sessions a) (a_maxPendingConnections a) b (a_server a) (a_socketToInfo a) (a_portToInfo a)
    (a_portToSessions a) (a_sessionToPort a) (a_connections a) (a_lastPreSessionSweep a).

(** The session a Logon is for: the message's ends are the session's, reversed. The
    three fields and, for [getSession], the type. *)
Definition reversed_id (h : FieldMap) : result str :=
  beginString ← getField h FIELD.BeginString;
  senderCompID ← getField h FIELD.SenderCompID;
  targetCompID ← getField h FIELD.TargetCompID;
  mret (sid_toString (new_SessionID beginString targetCompID senderCompID [])).

(** [Session::lookupSession(message, true)], but for the table. *)
Definition addressee (message : str) : result (option str) :=
  '(found, m) ← setStringHeader new_Message message;
  if negb found then Ok None
  else match reversed_id (m_header m) with Ok id => Ok (Some id) | Throw _ => Ok None end.

(** [MaxPendingConnections], in [initialize]. *)
Definition read_maxPending (defaults : Dictionary) : result Z :=
  if dict_has defaults MAX_PENDING_CONNECTIONS then
    maxPending ← getInt defaults MAX_PENDING_CONNECTIONS;
    _ ← guard_or (0 <=? maxPending) (ConfigError (MAX_PENDING_CONNECTIONS ++ lit " must not be negative"));
    mret maxPending
  else mret 0.

(** [onConfigure] *)
Definition onConfigure (sessionSettings : SessionSettings) : result unit :=
  _ ← for_each (fun sessionID =>
         settings ← settings_of sessionSettings sessionID;
         _ ← getPortSetting settings SOCKET_ACCEPT_PORT true;
         if dict_has settings SOCKET_REUSE_ADDRESS then _ ← getBool settings SOCKET_REUSE_ADDRESS; mret () else mret ())
       (getSessions sessionSettings);
  _ ← rejectSocketQueuedWrites sessionSettings (lit "SocketAcceptor");
  checkSocketOptionsPerPort sessionSettings.

Section Acceptor.
Context {S : Type} `{SessionInterface S} `{Clocks} `{Addresses}.
Abbreviation R := (R (Engine S * Acceptor)).
Implicit Types (id message : str) (s : Z) (p : nat).

Definition astate {X} (f : Acceptor -> X) : R X := gets (fun w => f (transport w)).

(** An answer of the system that is a function of how often it was asked. *)
Definition asked {X} (f : nat -> X) : R X := n ← on_kernel tick; mret (f n).

(** ** The server *)

(** [SocketServer::add(port, ...)]; [socket_createAcceptor] makes a socket, and closes
    it again when it cannot be bound. *)
Definition server_add (port : Z) (noDelay : bool) (sendBufSize rcvBufSize : Z) : R Z :=
  o ← astate (fun a => a_portToInfo a !! port);
  match o with
  | Some info => mret (si_socket info)
  | None =>
      socket ← on_kernel socket_new;
      if socket =? INVALID_SOCKET_HANDLE then what ← asked socket_error; raise (SocketException what)
      else
        _ ← on_mon (addRead socket);
        let info := mkSocketInfo socket port noDelay sendBufSize rcvBufSize in
        _ ← on_transport (fun a => with_server (a_server a) (<[socket := info]> (a_socketToInfo a)) (<[port := info]> (a_portToInfo a)) a);
        mret socket
  end.

Definition server_accept s : R Z :=
  result ← on_kernel (socket_accept s);
  _ ← when (negb (result =? INVALID_SOCKET_HANDLE)) (_ ← on_mon (addConnect result); mret ());
  mret result.

Fixpoint drop_all (l : list Z) : R unit :=
  match l with [] => mret () | s :: l => _ ← drop_socket s; drop_all l end.

(** [SocketServer::close] *)
Definition server_close : R unit :=
  listeners ← astate (fun a => ascending (dom (a_socketToInfo a)));
  _ ← drop_all listeners;
  on_transport (fun a => with_server (a_server a) ∅ ∅ a).

(** [delete m_pServer; m_pServer = 0;] the server has the monitor. *)
Definition delete_server : R unit :=
  m ← gets w_mon;
  _ ← on_kernel (fun k => ((), destroy_SocketMonitor m k));
  on_transport (with_server false ∅ ∅).

Definition isListener s : R bool := astate (fun a => bool_decide (is_Some (a_socketToInfo a !! s))).

(** ** Listening *)

(** One session of [onInitialize]. *)
Definition add_listener (sessionSettings : SessionSettings) (sessionID : SessionID) : R unit :=
  settings ← lift (settings_of sessionSettings sessionID);
  port ← lift (getPortSetting settings SOCKET_ACCEPT_PORT true);
  reuseAddress ← lift (if dict_has settings SOCKET_REUSE_ADDRESS then getBool settings SOCKET_REUSE_ADDRESS else mret true);
  noDelay ← lift (getSocketNoDelay settings);
  sendBufSize ← lift (getSocketBufferSize settings SOCKET_SEND_BUFFER_SIZE);
  rcvBufSize ← lift (getSocketBufferSize settings SOCKET_RECEIVE_BUFFER_SIZE);
  acceptSocket ← try_catch (server_add port noDelay sendBufSize rcvBufSize)
    (fun e => match e with
              | SocketException _ =>
                  Some (_ ← delete_server;
                        raise (RuntimeError (lit "Unable to create, bind, or listen to port " ++ to_string_int port ++
                                             lit " (" ++ exn_what e ++ lit ")")))
              | _ => None
              end);
  let id := sid_toString sessionID in
  hostport ← asked (fun n => socket_hostport n acceptSocket);
  _ ← on_transport (fun a => with_ports (<[hostport := {[id]} ∪ default ∅ (a_portToSessions a !! hostport)]> (a_portToSessions a))
                               (a_sessionToPort a) a);
  hostport ← asked (fun n => socket_hostport n acceptSocket);
  on_transport (fun a => with_ports (a_portToSessions a) (<[id := hostport]> (a_sessionToPort a)) a).

Fixpoint add_listeners (sessionSettings : SessionSettings) (l : list SessionID) : R unit :=
  match l with [] => mret () | sessionID :: l => _ ← add_listener sessionSettings sessionID; add_listeners sessionSettings l end.

(** [onInitialize], when the server was made. *)
Definition onInitialize (sessionSettings : SessionSettings) : R unit := add_listeners sessionSettings (getSessions sessionSettings).

(** ** The first message *)

(** [isValidSession()]: the session is one of the port's, and no connection has it. *)
Definition isValidSession (found : option str) (c : SocketConnection) : R bool :=
  match found with
  | None => mret false
  | Some id =>
      registered ← gets (fun w => bool_decide (id ∈ e_registered (engine w)));
      mret (negb registered && bool_decide (id ∈ c_sessions c))
  end.

(** [Session::lookupSession(message, true)] *)
Definition lookup_message message : R (option str) :=
  o ← lift (addressee message);
  match o with
  | None => mret None
  | Some id => gets (fun w => match e_sessions (engine w) !! id with Some _ => Some id | None => None end)
  end.

(** [Acceptor::getSession(message, responder)] *)
Definition getSession message p : R (option str) :=
  '(found, m) ← lift (setStringHeader new_Message message);
  if negb found then mret None
  else
    try_catch
      (id ← lift (reversed_id (m_header m));
       msgType ← lift (getField (m_header m) FIELD.MsgType);
       if negb (bool_decide (msgType = lit "A")) then mret None
       else
         known ← astate (fun a => bool_decide (id ∈ a_sessions a));
         if known : bool then _ ← setResponder id p; mret (Some id) else mret None)
      (fun e => match e with FieldNotFound _ _ => Some (mret None) | _ => None end).

(** [Session::registerSession] *)
Definition registerSession id : R unit :=
  known ← gets (fun w => bool_decide (is_Some (e_sessions (engine w) !! id)));
  when known (on_engine (set_registered (fun r => {[id]} ∪ r))).

(** [m_pSession = ...] *)
Definition set_session p (o : option str) : R unit := c ← deref p; store p (with_session o c).

Definition drop_connection p : R unit := c ← deref p; _ ← drop_socket (c_socket c); mret ().

(** A session that has the connection as its responder: the address is looked at
    before the message is. *)
Definition hand_first p id message : R bool :=
  pSession ← session id;
  c ← deref p;
  remote_address ← (if so_isAcceptor pSession then asked (fun n => socket_peername n (c_socket c)) else mret []);
  let allowed := so_getAllowedRemoteAddresses pSession in
  if so_isAcceptor pSession && negb (bool_decide (allowed = ∅)) && negb (bool_decide (remote_address ∈ allowed))
  then _ ← drop_connection p; mret false
  else
    now ← now_utc;
    _ ← on_session id (so_next message now);
    _ ← registerSession id;
    mret true.

Definition first_message p : R bool :=
  _ ← readFromSocket p;
  '(more, message) ← connection_readMessage p [];
  if negb more then mret true
  else
    found ← lookup_message message;
    c ← deref p;
    valid ← isValidSession found c;
    _ ← set_session p (if valid : bool then found else None);
    bound ← (if valid : bool then getSession message p else mret None);
    _ ← set_session p bound;
    match bound with
    | None => _ ← drop_connection p; mret false
    | Some id => hand_first p id message
    end.

(** [SocketConnection::read(acceptor, server)] *)
Definition acceptor_read p : R bool :=
  c ← deref p;
  try_catch
    (match c_session c with
     | None => first_message p
     | Some _ => _ ← readFromSocket p; _ ← readMessages p; mret true
     end)
    (fun e => match e with
              | SocketRecvFailed _ | InvalidMessage _ | MessageParseError _ => Some (_ ← drop_connection p; mret false)
              | _ => None
              end).

(** ** What the reactor reports *)

(** Whether a connection is past its setup: its session has received a Logon. *)
Definition logged_on (c : SocketConnection) : R bool :=
  match c_session c with
  | None => mret false
  | Some id => pSession ← session id; mret (so_receivedLogon pSession)
  end.

Fixpoint count_pending (l : list nat) : R Z :=
  match l with
  | [] => mret 0
  | p :: l =>
      c ← deref p;
      on ← logged_on c;
      pending ← count_pending l;
      mret (if on : bool then pending else pending + 1)
  end.

Definition pendingConnections : R Z := connections ← astate a_connections; count_pending (in_order connections).

(** [onConnect(server, a, s)]: [s] was accepted on [a]. *)
Definition a_onConnect a s : R unit :=
  if negb (socket_isValid s) then mret ()
  else
    o ← astate (fun t => a_connections t !! s);
    match o with
    | Some _ => mret ()
    | None =>
        maxPending ← astate a_maxPendingConnections;
        full ← (if 0 <? maxPending then pending ← pendingConnections; mret (maxPending <=? pending) else mret false);
        if full : bool then _ ← drop_socket s; mret ()
        else
          port ← asked (fun n => socket_hostport n a);
          sessions ← astate (fun t => default ∅ (a_portToSessions t !! port));
          _ ← on_transport (fun t => with_ports (<[port := sessions]> (a_portToSessions t)) (a_sessionToPort t) t);
          now ← now_seconds;
          p ← alloc (accepted_connection s sessions now);
          on_transport (fun t => with_accepted (<[s := p]> (a_connections t)) t)
    end.

Definition a_onWrite s : R unit :=
  o ← astate (fun a => a_connections a !! s);
  match o with None => mret () | Some p => connection_onWrite p end.

Definition a_onData s : R bool :=
  o ← astate (fun a => a_connections a !! s);
  match o with None => mret false | Some p => acceptor_read p end.

(** The session of a connection is disconnected, and the connection deleted. *)
Definition end_connection p : R unit :=
  c ← deref p;
  _ ← (match c_session c with Some id => on_session id so_disconnect | None => mret () end);
  delete_connection p.

Definition a_onDisconnect s : R unit :=
  o ← astate (fun a => a_connections a !! s);
  match o with
  | None => mret ()
  | Some p => _ ← end_connection p; on_transport (fun a => with_accepted (delete s (a_connections a)) a)
  end.

Fixpoint a_time_out_all (l : list nat) : R unit :=
  match l with [] => mret () | p :: l => _ ← connection_onTimeout p; a_time_out_all l end.

Definition a_onTimeout : R unit := connections ← astate a_connections; a_time_out_all (in_order connections).

(** [ServerWrapper] *)
Definition server_onError s : R unit := _ ← a_onDisconnect s; _ ← drop_socket s; mret ().

Definition server_onEvent s : R unit :=
  listener ← isListener s;
  if listener : bool then accepted ← server_accept s; a_onConnect s accepted
  else b ← a_onData s; when (negb b) (server_onError s).

Definition server_strategy : Strategy (C := Engine S * Acceptor) :=
  mkStrategy (fun _ => mret ()) server_onEvent a_onWrite server_onError (mret ()) a_onTimeout.

(** [SocketServer::block]: false when a listener is not valid. *)
Definition server_block (drops : nat) (poll : bool) : R bool :=
  valid ← astate (fun a => forallb socket_isValid (ascending (dom (a_socketToInfo a))));
  if negb valid then mret false else _ ← block server_strategy drops poll; mret true.

(** ** The sweep *)

(** More than ten seconds without a Logon. *)
Definition expire_one (now : Z) (entry : Z * nat) : R unit :=
  c ← deref entry.2;
  on ← logged_on c;
  when (negb on && (10 <? getSecondsFromSetupStart now c)) (_ ← drop_socket entry.1; mret ()).

Fixpoint expire_all (now : Z) (l : list (Z * nat)) : R unit :=
  match l with [] => mret () | entry :: l => _ ← expire_one now entry; expire_all now l end.

Definition entries_in_order (m : gmap Z nat) : list (Z * nat) := omap (fun s => pair s <$> m !! s) (ascending (dom m)).

Definition expirePendingReads : R unit :=
  server ← astate a_server;
  connections ← astate a_connections;
  if negb server || bool_decide (connections = ∅) then mret ()
  else
    now ← now_seconds;
    last ← astate a_lastPreSessionSweep;
    if now =? last then mret ()
    else
      _ ← on_transport (with_lastSweep now);
      _ ← a_onTimeout;
      connections ← astate a_connections;
      expire_all now (entries_in_order connections).

(** ** The loop *)

(** One turn of [onStart]'s loop, which goes on while it is true. *)
Definition a_pass (drops : nat) (poll : bool) : R bool :=
  b ← server_block drops poll;
  _ ← when b expirePendingReads;
  mret b.

Fixpoint a_any_logged_on (l : list str) : R bool :=
  match l with
  | [] => mret false
  | id :: l => pSession ← session id; if so_isLoggedOn pSession then mret true else a_any_logged_on l
  end.

Definition a_isLoggedOn : R bool := ids ← astate a_sessions; a_any_logged_on (ascending_ids ids).

(** After the loop: sessions log out, for five seconds at most. *)
Fixpoint a_log_out (fuel drops : nat) (start : Z) : R unit :=
  match fuel with
  | O => raise OutOfFuel
  | Datatypes.S fuel =>
      b ← a_isLoggedOn;
      if b : bool then
        _ ← server_block drops false;
        now ← now_seconds;
        if start <=? now - 5 then mret () else a_log_out fuel drops start
      else mret ()
  end.

Fixpoint end_all (l : list nat) : R unit :=
  match l with [] => mret () | p :: l => _ ← end_connection p; end_all l end.

Definition disconnectRemaining : R unit :=
  connections ← astate a_connections;
  _ ← end_all (in_order connections);
  on_transport (with_accepted ∅).

(** How [onStart] ends. *)
Definition finish : R unit := _ ← disconnectRemaining; _ ← server_close; delete_server.

(** [onPoll()] *)
Definition a_onPoll (drops : nat) : R bool :=
  server ← astate a_server;
  if negb server then mret false
  else
    stopped ← astate a_stop;
    start ← (if stopped : bool then now_seconds else mret 0);
    on ← (if stopped : bool then a_isLoggedOn else mret true);
    if negb on then mret false
    else
      now ← (if stopped : bool then now_seconds else mret 0);
      if stopped && (start <=? now - 5) then mret false
      else _ ← server_block drops true; _ ← expirePendingReads; mret true.

(** [~SocketAcceptor] *)
Definition destroy_acceptor : R unit :=
  _ ← disconnectRemaining;
  server ← astate a_server;
  when server delete_server.
End Acceptor.
