(* ===== verification/AcceptorProps.v ===== *)
(** * What the acceptor guarantees

    For any sessions that keep their promises and anything the system answers: a
    session is served by one connection, the connections on the heap are those of the
    table, and no pointer dangles. *)
From stdpp Require Import sorting relations.
From S2P Require Import Prelude DateTime Convertors Values Field FieldMap Message Settings SocketSettings Parser Sockets Monitor MonitorProps Connection Engine EngineProps Triples Reactor Initiator Acceptor.

(** ** The strategy is lawful *)

Section Lawful.
Context {S : Type} `{SessionInterface S} `{Clocks} `{Addresses}.

Lemma does_astate {X} opens (f : Acceptor -> X) : does opens (astate (S := S) f).
Proof. apply does_gets. Qed.
Lemma does_asked {X} opens (f : nat -> X) : does opens (asked (S := S) f).
Proof. unfold asked. does_all. Qed.
Hint Resolve does_astate does_asked : does.

Lemma server_accept_valid s : socket_isValid s = true -> server_accept (S := S) s =
  (socket ← on_kernel socket_new; _ ← when (negb (socket =? INVALID_SOCKET_HANDLE)) (_ ← on_mon (addConnect socket); mret ()); mret socket).
Proof. intros Hs. unfold server_accept, socket_accept. by rewrite Hs. Qed.

Lemma server_accept_invalid s w : socket_isValid s = false -> server_accept (S := S) s w = (w, Ok INVALID_SOCKET_HANDLE).
Proof. intros Hs. unfold server_accept, socket_accept. rewrite Hs. by destruct w. Qed.

Lemma does_server_accept s : does true (server_accept (S := S) s).
Proof.
  destruct (socket_isValid s) eqn:E; [rewrite (server_accept_valid s E); apply does_new_connect|].
  intros w. rewrite (server_accept_invalid s w E). apply rtc_refl.
Qed.

Lemma does_set_session opens p o : does opens (set_session (S := S) p o).
Proof. unfold set_session. does_all. Qed.
Lemma does_drop_connection opens p : does opens (drop_connection (S := S) p).
Proof. unfold drop_connection, drop_socket. does_all. Qed.
Lemma does_getSession opens m p : does opens (getSession (S := S) m p).
Proof. unfold getSession. does_all. Qed.
Hint Resolve does_server_accept does_set_session does_drop_connection does_getSession : does.

Lemma does_hand_first opens p id m : does opens (hand_first (S := S) p id m).
Proof. unfold hand_first, registerSession, now_utc. does_all. Qed.
Lemma does_first_message opens p : does opens (first_message (S := S) p).
Proof. unfold first_message, lookup_message, isValidSession. does_all. Qed.
Hint Resolve does_first_message : does.
Lemma does_acceptor_read opens p : does opens (acceptor_read (S := S) p).
Proof. unfold acceptor_read. does_all. Qed.
Lemma does_logged_on opens c : does opens (logged_on (S := S) c).
Proof. unfold logged_on. does_all. Qed.
Hint Resolve does_acceptor_read does_logged_on : does.
Lemma does_count_pending opens l : does opens (count_pending (S := S) l).
Proof. induction l as [|p l IH]; simpl; does_all. Qed.
Hint Resolve does_count_pending : does.
Lemma does_end_connection opens p : does opens (end_connection (S := S) p).
Proof. unfold end_connection. does_all. Qed.
Hint Resolve does_end_connection : does.

Lemma does_a_onConnect opens a s : does opens (a_onConnect (S := S) a s).
Proof. unfold a_onConnect, pendingConnections, drop_socket, now_seconds. does_all. Qed.
Lemma does_a_onWrite opens s : does opens (a_onWrite (S := S) s).
Proof. unfold a_onWrite. does_all. Qed.
Lemma does_a_onData opens s : does opens (a_onData (S := S) s).
Proof. unfold a_onData. does_all. Qed.
Lemma does_a_onDisconnect opens s : does opens (a_onDisconnect (S := S) s).
Proof. unfold a_onDisconnect. does_all. Qed.
Lemma does_a_onTimeout opens : does opens (a_onTimeout (S := S)).
Proof.
  unfold a_onTimeout. apply does_bind; [does_all|]. intros connections. induction (in_order connections) as [|p l IH]; simpl; does_all.
Qed.
Hint Resolve does_a_onConnect does_a_onWrite does_a_onData does_a_onDisconnect does_a_onTimeout : does.

Lemma does_server_onError opens s : does opens (server_onError (S := S) s).
Proof. unfold server_onError, drop_socket. does_all. Qed.
Hint Resolve does_server_onError : does.

#[export] Instance server_lawful : Lawful (server_strategy (S := S)).
Proof.
  split; intros; unfold server_strategy; cbn [onConnect onEvent onWrite onError onErrors onTimeout]; unfold server_onEvent, isListener; does_all.
Qed.

Lemma does_expirePendingReads : does true (expirePendingReads (S := S)).
Proof.
  unfold expirePendingReads, now_seconds. does_all. induction (entries_in_order x5) as [|entry l IH]; simpl; [does_all|].
  apply does_bind; [unfold expire_one, drop_socket; does_all | intros _; exact IH].
Qed.

Lemma does_end_all opens l : does opens (end_all (S := S) l).
Proof. induction l as [|p l IH]; simpl; does_all. Qed.
Lemma does_drop_all opens l : does opens (drop_all (S := S) l).
Proof. induction l as [|s l IH]; simpl; unfold drop_socket; does_all. Qed.
End Lawful.

#[export] Hint Resolve does_astate does_asked does_server_accept does_set_session does_drop_connection does_getSession does_first_message
  does_acceptor_read does_logged_on does_count_pending does_end_connection does_a_onConnect does_a_onWrite does_a_onData does_a_onDisconnect
  does_a_onTimeout does_server_onError does_expirePendingReads does_end_all does_drop_all : does.

(** ** The invariant *)

Section Invariant.
Context {S : Type} `{SI : SessionInterface S} `{CL : Clocks} `{AD : Addresses} `{SL : !SessionLaws S}.
Context (sg : Z) (given : gset Z).
Abbreviation W := (World (Engine S * Acceptor)).
Abbreviation R := (R (Engine S * Acceptor)).
Implicit Types (w : W) (id : str) (s : Z) (p : nat).

Definition conns w : gmap Z nat := a_connections (transport w).
Definition watched s w : Prop := s ∈ m_connectSockets (w_mon w) \/ s ∈ m_readSockets (w_mon w).

(** A connection that has a session: it is the session's responder, unless its socket
    was dropped and will be reported. *)
Definition serves s p id w : Prop := s ∈ m_dropped (w_mon w) \/ (watched s w /\ e_responder (engine w) !! id = Some p).

(** The connections of the table are those of the heap. [except] is a socket whose
    connection is being given its session. *)
Record acc_at (except : option Z) w : Prop := {
  ao_engine : engine_ok None (engine w);
  ao_mon : mon_inv sg given w;
  ao_conn s p : conns w !! s = Some p -> exists o, live p s o w /\ (watched s w \/ s ∈ m_dropped (w_mon w)) /\
    (except = Some s \/ forall id, o = Some id -> id ∈ e_registered (engine w) /\ serves s p id w);
  ao_one s1 p1 s2 p2 id : conns w !! s1 = Some p1 -> conns w !! s2 = Some p2 -> live p1 s1 (Some id) w -> live p2 s2 (Some id) w -> s1 = s2;
  ao_registered id : id ∈ e_registered (engine w) -> exists s p, conns w !! s = Some p /\ live p s (Some id) w;
  ao_heap p : is_Some (e_heap (engine w) !! p) -> exists s, conns w !! s = Some p;
  ao_sessions id : id ∈ a_sessions (transport w) -> is_Some (e_sessions (engine w) !! id)
}.

Abbreviation acc_ok := (acc_at None).

Lemma acc_weaken x w : acc_ok w -> acc_at x w.
Proof. intros [H1 H2 H3 H4 H5 H6]. split; try done. intros s p E. destruct (H3 s p E) as (o & ? & ? & [?|?]); [done|]. exists o. auto. Qed.

Lemma live_unique p s s' o o' w : live p s o w -> live p s' o' w -> s = s' /\ o = o'.
Proof. intros (c & E & <- & <-) (c' & E' & <- & <-). rewrite E in E'. by injection E' as <-. Qed.

Lemma serves_stable p s id w w' : live p s (Some id) w -> evolves w w' -> serves s p id w -> serves s p id w'.
Proof.
  intros (c & Ec & Es & _) Hev [Hd|[Hw Hr]]; [left; by apply (ev_dropped _ _ Hev)|].
  destruct (e_responder (engine w') !! id) as [q|] eqn:E.
  - pose proof (ev_responder _ _ Hev _ _ E). destruct (ev_out _ _ Hev s Hw) as [?|[?|?]]; [right | right | by left]; (split; [first [by left | by right]|congruence]).
  - left. destruct (ev_gone _ _ Hev id p c Hr E Ec) as [H3 H4]. rewrite Es in H3, H4. destruct (ev_out _ _ Hev s Hw) as [?|[?|?]]; done.
Qed.

Lemma acc_evolves x w w' : acc_at x w -> evolves w w' -> engine_ok None (engine w') -> mon_inv sg given w' -> acc_at x w'.
Proof.
  intros [G1 G2 G3 G4 G5 G6 G7] Hev He Hm. assert (conns w' = conns w) as Ec by (unfold conns; by rewrite (ev_transport _ _ Hev)).
  pose proof (fun p s o => live_stable p s o w w' Hev) as Hl. pose proof (fun p s o => live_back p s o w w' Hev) as Hb.
  split; try done; rewrite ?Ec.
  - intros s p E. destruct (G3 s p E) as (o & Hlive & Hw & Hx). exists o. split_and!; [by apply Hl | |].
    + destruct Hw as [Hw|Hd]; [destruct (ev_out _ _ Hev s Hw) as [?|[?|?]]; [left; by left | left; by right | by right] | right; by apply (ev_dropped _ _ Hev)].
    + destruct Hx as [?|Hx]; [by left | right]. intros id ->. destruct (Hx id eq_refl) as [Hr Hs]. rewrite (ev_registered _ _ Hev).
      split; [done | by eapply serves_stable].
  - intros s1 p1 s2 p2 id E1 E2 L1 L2. apply (G4 s1 p1 s2 p2 id); auto.
  - intros id. rewrite (ev_registered _ _ Hev). intros Hr. destruct (G5 id Hr) as (s & p & E & Hlive). exists s, p. split; [done | by apply Hl].
  - intros p [c E]. destruct (ev_heap_back _ _ _ _ Hev E) as (c' & E' & _). apply G6. by eexists.
  - rewrite (ev_transport _ _ Hev). intros id Hid. by apply (ev_sessions _ _ Hev), G7.
Qed.

(** A safe computation keeps the invariant, and what time does not change. *)
Lemma acc_safe {X} x P (Q : X -> Prop) (m : R X) :
  stable P -> safe None P Q m -> does true m ->
  triple (fun w => acc_at x w /\ P w) m (fun r w => acc_at x w /\ P w /\ Q r) (fun w => acc_at x w /\ P w).
Proof.
  intros HP Hs Hd w [Hw HPw]. destruct (Hs w (ao_engine _ _ Hw) HPw) as (H1 & H2 & H3). specialize (Hd w).
  pose proof (HP _ _ H2 HPw) as HP'.
  assert (acc_at x (m w).1) as Hi by (eapply acc_evolves; [done | done | done | eapply mon_inv_acts; [exact Hd | apply Hw]]).
  destruct (m w) as [w' [r|e]]; auto.
Qed.

(** The acceptor's other members. *)
Lemma acc_transport x f w :
  (forall a, a_connections (f a) = a_connections a /\ a_sessions (f a) = a_sessions a) -> acc_at x w -> acc_at x (on_transport (S := S) f w).1.
Proof.
  intros Hf [G1 G2 G3 G4 G5 G6 G7]. assert (conns (on_transport (S := S) f w).1 = conns w) as Ec by (unfold conns; simpl; apply Hf).
  split; try done; rewrite ?Ec; try done; [by eapply mon_inv_ext; [..|exact G2]|].
  intros id. unfold transport. simpl. rewrite (proj2 (Hf _)). exact (G7 id).
Qed.

Lemma acc_live x w s p : acc_at x w -> conns w !! s = Some p -> exists o, live p s o w.
Proof. intros Hw E. destruct (ao_conn _ _ Hw s p E) as (o & Hl & _). by exists o. Qed.

Lemma conns_stable s p : stable (fun w => conns w !! s = Some p).
Proof. intros w w' Hev E. unfold conns. by rewrite (ev_transport _ _ Hev). Qed.

Lemma acc_unbroken x w : acc_at x w -> unbroken w.
Proof. intros Hw. apply Hw. Qed.

(** The monitor and the system change, and let no socket of ours out of sight. *)
Lemma acc_mon x w m k :
  acc_at x w -> (forall s, watched s w -> watched s (mkWorld m k (w_client w)) \/ s ∈ m_dropped m) ->
  (forall s, s ∈ m_dropped (w_mon w) -> s ∈ m_dropped m) -> mon_inv sg given (mkWorld m k (w_client w)) -> acc_at x (mkWorld m k (w_client w)).
Proof.
  intros [G1 G2 G3 G4 G5 G6 G7] Hw Hd Hm. split; try done. intros s p E. destruct (G3 s p E) as (o & Hl & Hin & Hx). exists o. split_and!; [done | |].
  - destruct Hin as [Hin|Hin]; [exact (Hw s Hin) | right; exact (Hd s Hin)].
  - destruct Hx as [?|Hx]; [by left | right]. intros id Ho. destruct (Hx id Ho) as [Hr [Hs|[Hs Hp]]]; (split; [done|]).
    + left. exact (Hd s Hs).
    + destruct (Hw s Hs) as [?|?]; [by right | by left].
Qed.

Lemma acc_goes w m k :
  acc_ok w -> goes (w_mon w) m -> mon_inv sg given (mkWorld m k (w_client w)) -> k_open k ⊆ k_open (w_kernel w) -> acc_ok (mkWorld m k (w_client w)).
Proof.
  intros Hw (_ & _ & H3 & H4) Hm _. apply acc_mon; [done | | exact H4 | done]. intros s Hs. destruct (H3 s Hs) as [?|[?|?]]; [left; by left | left; by right | by right].
Qed.

(** A connection that is gone needs no exception. *)
Lemma acc_settle x s w : acc_at x w -> x = None \/ x = Some s -> conns w !! s = None -> acc_ok w.
Proof.
  intros [G1 G2 G3 G4 G5 G6 G7] Hx Hno. split; try done. intros s' p E. destruct (G3 s' p E) as (o & Hl & Hw & Hor). exists o. split_and!; [done | done|].
  right. destruct Hor as [Hor|?]; [|done]. destruct Hx as [ ->| ->]; [done|]. injection Hor as ->. congruence.
Qed.

(** A socket that is watched, or whose drop will be reported. *)
Definition held s w : Prop := watched s w \/ s ∈ m_dropped (w_mon w).

Lemma held_stable s : stable (held s).
Proof.
  intros w w' Hev [Hw|Hd]; [|right; by apply (ev_dropped _ _ Hev)].
  destruct (ev_out _ _ Hev s Hw) as [?|[?|?]]; [left; by left | left; by right | by right].
Qed.

Lemma stable_and (P Q : W -> Prop) : stable P -> stable Q -> stable (fun w => P w /\ Q w).
Proof. intros HP HQ w w' Hev [H1 H2]. split; [by eapply HP | by eapply HQ]. Qed.

(** The connections of the table can be followed. *)
Definition all_live (l : list nat) w : Prop := forall p, p ∈ l -> exists s o, live p s o w.

Lemma all_live_stable l : stable (all_live l).
Proof. intros w w' Hev Hl p Hp. destruct (Hl p Hp) as (s & o & Hp'). exists s, o. by eapply live_stable. Qed.

Lemma conns_live x w : acc_at x w -> all_live (in_order (conns w)) w.
Proof.
  intros Hw p Hp. unfold in_order in Hp. apply list_elem_of_omap in Hp as (s & _ & Es). destruct (acc_live x w s p Hw Es) as [o Hl]. by exists s, o.
Qed.

Lemma safe_ex {X Y} (P : Y -> W -> Prop) (Q : X -> Prop) (m : R X) :
  (forall y, safe None (P y) Q m) -> safe None (fun w => exists y, P y w) Q m.
Proof. intros Hm w Hw [y Hy]. exact (Hm y w Hw Hy). Qed.

Lemma safe_pre {X} (P P' : W -> Prop) (Q : X -> Prop) (m : R X) : safe None P Q m -> (forall w, P' w -> P w) -> safe None P' Q m.
Proof. intros Hm HP. by eapply safe_weaken. Qed.

(** A connection that can be followed, with the session it has. *)
Definition alive p w : Prop := exists s o, live p s o w.

Lemma alive_stable p : stable (alive p).
Proof. intros w w' Hev (s & o & Hl). exists s, o. by eapply live_stable. Qed.

Lemma safe_alive {X} p (Q : X -> Prop) (m : R X) : (forall s o, safe None (live p s o) Q m) -> safe None (alive p) Q m.
Proof. intros Hm w Hw (s & o & Hl). exact (Hm s o w Hw Hl). Qed.

Lemma safe_logged_on p s o c : c_session c = o -> safe None (live p s o) any (logged_on (S := S) c).
Proof.
  intros Ho. unfold logged_on. rewrite Ho. destruct o as [id|]; [|by apply safe_ret].
  eapply safe_bind; [apply live_stable | eapply safe_known; [apply safe_session | done]|]. intros x _. by apply safe_ret.
Qed.

Lemma safe_count_pending l : safe None (all_live l) any (count_pending (S := S) l).
Proof.
  induction l as [|p l IH]; simpl; [by apply safe_ret|]. intros w Hw Hl. destruct (Hl p) as (s & o & Hp); [left|].
  refine ((_ : safe None (fun w => live p s o w /\ all_live l w) any _) w Hw (conj Hp (fun q Hq => Hl q ltac:(by right)))).
  assert (stable (fun w => live p s o w /\ all_live l w)) as Hst by (apply stable_and; [apply live_stable | apply all_live_stable]).
  eapply safe_bind; [exact Hst | eapply safe_pre; [apply (safe_deref None p s o) | by intros ? [? ?]]|]. intros c [_ Ho].
  eapply safe_bind; [exact Hst | eapply safe_pre; [by apply (safe_logged_on p s o) | by intros ? [? ?]]|]. intros on _.
  eapply safe_bind; [exact Hst | eapply safe_pre; [exact IH | by intros ? [? ?]]|]. intros n _. by apply safe_ret.
Qed.

Lemma safe_time_out_all l : safe None (all_live l) any (a_time_out_all (S := S) l).
Proof.
  induction l as [|p l IH]; simpl; [by apply safe_ret|].
  eapply safe_bind; [apply all_live_stable | |].
  - intros w Hw Hl. destruct (Hl p) as (s & o & Hp); [left|]. exact (safe_onTimeout p s o w Hw Hp).
  - intros _ _. eapply safe_pre; [exact IH|]. intros w Hl q Hq. apply Hl. by right.
Qed.

Lemma safe_expire_all now l : safe None (all_live l.*2) any (expire_all (S := S) now l).
Proof.
  induction l as [|[s' p] l IH]; simpl; [by apply safe_ret|].
  eapply safe_bind; [apply all_live_stable | |].
  - intros w Hw Hl. destruct (Hl p) as (s & o & Hp); [left|]. refine ((_ : safe None (live p s o) any _) w Hw Hp). unfold expire_one. simpl.
    eapply safe_bind; [apply live_stable | apply safe_deref|]. intros c [_ Ho].
    eapply safe_bind; [apply live_stable | by apply safe_logged_on|]. intros on _. apply safe_when.
    eapply safe_bind; [apply live_stable | apply safe_drop_socket|]. intros _ _. by apply safe_ret.
  - intros _ _. eapply safe_pre; [exact IH|]. intros w Hl q Hq. apply Hl. by right.
Qed.

Lemma safe_drop_connection p : safe None (alive p) any (drop_connection (S := S) p).
Proof.
  apply safe_alive. intros s o. unfold drop_connection. eapply safe_bind; [apply live_stable | apply safe_deref|]. intros c _.
  eapply safe_bind; [apply live_stable | apply safe_drop_socket|]. intros _ _. by apply safe_ret.
Qed.

(** A safe computation, where only the invariant is wanted. *)
Lemma acc_keeps {X} x P (m : R X) :
  stable P -> safe None P any m -> does true m -> triple (fun w => acc_at x w /\ P w) m (fun _ w => acc_at x w /\ P w) (fun w => acc_at x w /\ P w).
Proof. intros HP Hs Hd. eapply triple_weaken; [apply (acc_safe x P any m HP Hs Hd) | done | | done]. intros y w (? & ? & _). done. Qed.

Lemma acc_tick {X} x P (f : nat -> X) : stable P ->
  triple (fun w => acc_at x w /\ P w) (n ← on_kernel tick; mret (f n) : R X) (fun _ w => acc_at x w /\ P w) (fun w => acc_at x w /\ P w).
Proof. intros HP. apply acc_keeps; [done | apply safe_tick | does_all]. Qed.

(** ** A connection comes *)

Lemma acc_watched_open s w : mon_inv sg given w -> held s w -> s ∈ k_open (w_kernel w).
Proof. intros Hm Hs. rewrite (inv_open _ _ _ Hm), !elem_of_union, elem_of_list_to_set. destruct Hs as [[?|?]|?]; auto. Qed.

(** An accepted socket is new: no connection has it. *)
Lemma server_accept_ok a :
  triple acc_ok (server_accept (S := S) a) (fun s w => acc_ok w /\ (0 <= s -> held s w /\ conns w !! s = None)) unbroken.
Proof.
  destruct (socket_isValid a) eqn:Ea.
  2: { intros w Hw. rewrite (server_accept_invalid a w Ea). split; [done|]. unfold INVALID_SOCKET_HANDLE. lia. }
  intros w Hw. pose proof (does_server_accept (S := S) a w) as Hd. pose proof (mon_inv_acts _ _ _ _ _ Hd (ao_mon _ _ Hw)) as Hm. clear Hd. revert Hm.
  rewrite (server_accept_valid a Ea). unfold mbind, R_bind, on_kernel. destruct (socket_new (w_kernel w)) as [s k] eqn:E.
  destruct (socket_new_open _ _ _ E) as [[ -> Ho]|(Hs & Hno & Ho)]; simpl.
  - intros Hm. split; [apply acc_mon; auto | unfold INVALID_SOCKET_HANDLE; lia].
  - destruct (Z.eqb_spec s INVALID_SOCKET_HANDLE) as [ ->|_]; [done|]. simpl. unfold mbind, R_bind, on_mon, addConnect. simpl.
    assert (~ held s w) as Hnh by (intros Hh; apply Hno; by eapply acc_watched_open; [apply Hw|]).
    assert (conns w !! s = None) as Hnone.
    { apply eq_None_not_Some. intros [p Ep]. destruct (ao_conn _ _ Hw s p Ep) as (o & _ & Hh & _). by apply Hnh. }
    assert (s ∉ m_connectSockets (w_mon w)) as Hnc by (intros Hc; apply Hnh; left; by left).
    rewrite bool_decide_eq_false_2 by done. simpl. intros Hm. split; [|intros _; split; [left; left; simpl; set_solver | done]].
    apply acc_mon; [done | | done | done]. intros s' [Hs'|Hs']; left; [left; simpl; set_solver | by right].
Qed.

(** The table has a connection just made. *)
Lemma accepted_ok s c w :
  acc_ok w -> conns w !! s = None -> held s w -> c_socket c = s -> c_session c = None ->
  match (p ← alloc c; on_transport (fun t => with_accepted (<[s := p]> (a_connections t)) t)) w with
  | (w', Ok _) => acc_ok w' | (w', Throw _) => unbroken w' end.
Proof.
  intros Hw Hnone Hheld Hs Ho. set (p := e_fresh (engine w)).
  assert (e_heap (engine w) !! p = None) as Hp.
  { apply eq_None_not_Some. intros Hin. pose proof (eo_fresh _ _ (ao_engine _ _ Hw) p Hin). unfold p in *. lia. }
  unfold mbind, R_bind, alloc. simpl. match goal with |- acc_at None ?w2 => set (w' := w2) end.
  assert (forall q, q <> p -> e_heap (engine w') !! q = e_heap (engine w) !! q) as Hold by (intros q Hq; unfold w'; simpl; by rewrite lookup_insert_ne).
  assert (e_heap (engine w') !! p = Some c) as Hnew by (unfold w'; simpl; by rewrite lookup_insert_eq).
  assert (conns w' = <[s := p]> (conns w)) as Hconns by done.
  assert (forall q s o, live q s o w -> live q s o w') as Hl.
  { intros q s' o (c' & Ec & ?). exists c'. rewrite Hold; [done|]. intros ->. congruence. }
  assert (forall q s' o, q <> p -> live q s' o w' -> live q s' o w) as Hlb.
  { intros q s' o Hq (c' & Ec & ?). exists c'. by rewrite <- Hold. }
  assert (forall s' q, conns w !! s' = Some q -> s' <> s /\ q <> p) as Hne.
  { intros s' q E. split; [congruence|]. intros ->. destruct (acc_live _ _ _ _ Hw E) as (o & c' & Ec & _). congruence. }
  destruct Hw as [G1 G2 G3 G4 G5 G6 G7]. split.
  - destruct G1 as [E1 E2 E3 E4 E5]. split; try done.
    + intros id q Hq. destruct (E1 id q Hq) as (d & Ed & Hd). exists d. rewrite Hold; [done | congruence].
    + intros q d id Ed Hd. destruct (decide (q = p)) as [ ->|Hq]; [congruence|]. rewrite Hold in Ed by done. exact (E2 q d id Ed Hd).
    + intros q Hq. change (e_fresh (engine w')) with (Datatypes.S p). destruct (decide (q = p)); [lia|]. rewrite Hold in Hq by done.
      specialize (E3 q Hq). unfold p. lia.
  - by eapply mon_inv_ext; [..|exact G2].
  - intros s' q. rewrite Hconns. destruct (decide (s' = s)) as [ ->|Hs'].
    + rewrite lookup_insert_eq. intros [= <-]. exists None. split_and!; [by exists c | exact Hheld | by right].
    + rewrite lookup_insert_ne by done. intros E. destruct (G3 s' q E) as (o & Hlive & Hin & Hor). exists o. split_and!; [by apply Hl | done | done].
  - intros s1 p1 s2 p2 id. rewrite Hconns. intros E1 E2 L1 L2.
    assert (forall s' q, <[s := p]> (conns w) !! s' = Some q -> live q s' (Some id) w' -> conns w !! s' = Some q /\ live q s' (Some id) w) as Hback.
    { intros s' q E L. destruct (decide (s' = s)) as [ ->|Hs'].
      - rewrite lookup_insert_eq in E. injection E as <-. destruct L as (c' & Ec & _ & Eo). congruence.
      - rewrite lookup_insert_ne in E by done. split; [done|]. apply Hlb; [|done]. by apply (Hne s'). }
    destruct (Hback _ _ E1 L1), (Hback _ _ E2 L2). by apply (G4 s1 p1 s2 p2 id).
  - intros id Hr. destruct (G5 id Hr) as (s' & q & E & Hlive). exists s', q. destruct (Hne _ _ E). rewrite Hconns, lookup_insert_ne by done.
    split; [done | by apply Hl].
  - intros q Hq. destruct (decide (q = p)) as [ ->|Hne']; [exists s; by rewrite Hconns, lookup_insert_eq|]. rewrite Hold in Hq by done.
    destruct (G6 q Hq) as [s' E]. exists s'. destruct (Hne _ _ E). by rewrite Hconns, lookup_insert_ne.
  - exact G7.
Qed.

Lemma a_onConnect_ok a s :
  triple (fun w => acc_ok w /\ (0 <= s -> held s w /\ conns w !! s = None)) (a_onConnect (S := S) a s) (fun _ => acc_ok) unbroken.
Proof.
  unfold a_onConnect. unfold socket_isValid. destruct (Z.leb_spec 0 s) as [Hs|Hs]; simpl; [|apply triple_ret; by intros w [Hw _]].
  set (P := fun w => held s w /\ conns w !! s = None).
  assert (stable P) as HP by (apply stable_and; [apply held_stable|]; intros w w' Hev E; unfold conns; by rewrite (ev_transport _ _ Hev)).
  apply (triple_weaken (fun w => acc_ok w /\ P w) _ _ (fun _ => acc_ok) _ unbroken); [|by intros w [Hw Hh]; split; [done | apply Hh]|done..].
  assert (forall X (m : R X), safe None (fun _ => True) any m -> does true m ->
            triple (fun w => acc_ok w /\ P w) m (fun _ w => acc_ok w /\ P w) unbroken) as Hgo.
  { intros X m Hm Hd. eapply triple_weaken; [apply (acc_keeps None P m HP) | done | done | intros w [Hw _]; by eapply acc_unbroken]; [by eapply safe_pre | done]. }
  eapply triple_bind; [by apply Hgo; [apply safe_gets | apply does_gets]|]. intros [p|]; [apply triple_ret; by intros w [Hw _]|].
  eapply triple_bind; [by apply Hgo; [apply safe_gets | apply does_gets]|]. intros maxPending.
  eapply triple_bind.
  { instantiate (1 := fun _ w => acc_ok w /\ P w). destruct (0 <? maxPending); [|by apply triple_ret]. unfold pendingConnections.
    eapply (triple_bind _ _ _ (fun _ w => acc_ok w /\ P w)); [|intros n; by apply triple_ret].
    intros w [Hw HPw]. unfold mbind, R_bind, astate, gets. pose proof (conns_live None w Hw) as Hl.
    assert (stable (fun w' => P w' /\ all_live (in_order (conns w)) w')) as Hst by (apply stable_and; [done | apply all_live_stable]).
    pose proof (acc_keeps None _ (count_pending (S := S) (in_order (conns w))) Hst ltac:(eapply safe_pre; [apply safe_count_pending | by intros ? [? ?]]) (does_count_pending true _) w
                  (conj Hw (conj HPw Hl))) as Hc.
    unfold conns in *. destruct (count_pending (in_order (a_connections (transport w))) w) as [w' [n|e]]; [tauto | eapply acc_unbroken; apply Hc]. }
  intros [].
  { eapply triple_bind; [apply Hgo; [apply safe_drop_socket | apply does_drop_socket]|]. intros b. apply triple_ret. by intros w [Hw _]. }
  eapply triple_bind; [apply Hgo; [apply safe_tick | apply does_asked]|]. intros port.
  eapply triple_bind; [by apply Hgo; [apply safe_gets | apply does_gets]|]. intros sessions.
  eapply (triple_bind _ _ _ (fun _ w => acc_ok w /\ P w)).
  { intros w [Hw HPw]. split; [|done]. by apply (acc_transport None). }
  intros _. eapply triple_bind; [apply Hgo; [apply safe_tick | unfold now_seconds; does_all]|]. intros now w (Hw & Hh & Hn). by apply accepted_ok.
Qed.

(** ** A connection goes *)

(** The session of a connection was disconnected; the connection is deleted and leaves
    the table. *)
Definition removed s p (o : option str) w : W :=
  let w := (on_engine (S := S) (T := Acceptor)
              (set_registered (fun r => match o with Some id => r ∖ {[id]} | None => r end)) w).1 in
  let w := (free (S := S) (T := Acceptor) p w).1 in
  (on_transport (S := S) (fun a => with_accepted (delete s (a_connections a)) a) w).1.

Lemma removed_ok x s p o w :
  acc_at x w -> x = None \/ x = Some s -> conns w !! s = Some p -> live p s o w ->
  (forall id, o = Some id -> e_responder (engine w) !! id = None) ->
  acc_ok (removed s p o w) /\ conns (removed s p o w) !! s = None.
Proof.
  intros [G1 G2 G3 G4 G5 G6 G7] Hx E Hl Hr. set (w' := removed s p o w).
  assert (conns w' = delete s (conns w)) as Hconns by done.
  split; [|by rewrite Hconns, lookup_delete_eq].
  assert (forall q, q <> p -> e_heap (engine w') !! q = e_heap (engine w) !! q) as Hold by (intros q Hq; unfold w'; simpl; by rewrite lookup_delete_ne).
  assert (forall q s' o', q <> p -> live q s' o' w -> live q s' o' w') as Hk.
  { intros q s' o' Hq (c & Ec & ?). exists c. by rewrite Hold. }
  assert (forall q s' o', q <> p -> live q s' o' w' -> live q s' o' w) as Hkb.
  { intros q s' o' Hq (c & Ec & ?). exists c. by rewrite <- Hold. }
  assert (forall s' q, s' <> s -> conns w !! s' = Some q -> q <> p) as Hne.
  { intros s' q Hs' E' ->. destruct (G3 s' p E') as (o' & Hl' & _). by destruct (live_unique _ _ _ _ _ _ Hl Hl'). }
  assert (forall id, o = Some id -> forall s' q, s' <> s -> conns w !! s' = Some q -> live q s' (Some id) w -> False) as Hone.
  { intros id -> s' q Hs' E' Hl'. by apply Hs', (G4 s' q s p id). }
  split.
  - apply engine_ok_free; [by apply engine_ok_registered|]. intros id Hq. change (e_responder (engine w) !! id = Some p) in Hq.
    destruct (eo_responder _ _ G1 id p Hq) as (c & Ec & Eo). destruct Hl as (c' & Ec' & _ & Eo'). rewrite (Hr id) in Hq; congruence.
  - by eapply mon_inv_ext; [..|exact G2].
  - intros s' q. rewrite Hconns. intros [Hs' E']%lookup_delete_Some. destruct (G3 s' q E') as (o' & Hl' & Hin & Hor).
    exists o'. split_and!; [apply Hk; [by eapply Hne | done] | done | right]. destruct Hor as [Hor|Hor]; [destruct Hx; congruence|].
    intros id ->. destruct (Hor id eq_refl) as [Hreg Hs]. split; [|exact Hs]. unfold w'. simpl. destruct o as [id0|]; [|exact Hreg].
    apply elem_of_difference. split; [exact Hreg|]. rewrite elem_of_singleton. intros ->. by eapply (Hone id0).
  - intros s1 p1 s2 p2 id. rewrite Hconns. intros [Hs1 E1]%lookup_delete_Some [Hs2 E2]%lookup_delete_Some L1 L2.
    apply (G4 s1 p1 s2 p2 id); [done | done | apply Hkb; [by eapply (Hne s1) | done] | apply Hkb; [by eapply (Hne s2) | done]].
  - intros id Hreg. assert (id ∈ e_registered (engine w) /\ o <> Some id) as [Hreg' Hno].
    { unfold w' in Hreg. simpl in Hreg. destruct o as [id0|]; [|done]. apply elem_of_difference in Hreg as [? Hn]. split; [done|]. intros [= ->]. set_solver. }
    destruct (G5 id Hreg') as (s' & q & E' & Hl').
    assert (s' <> s) as Hs' by (intros ->; rewrite E in E'; injection E' as <-; destruct (live_unique _ _ _ _ _ _ Hl Hl'); congruence).
    exists s', q. split; [by rewrite Hconns, lookup_delete_ne | apply Hk; [by eapply Hne | done]].
  - intros q Hq. destruct (decide (q = p)) as [ ->|Hqp].
    + exfalso. unfold w' in Hq. simpl in Hq. rewrite lookup_delete_eq in Hq. by destruct Hq.
    + rewrite Hold in Hq by done. destruct (G6 q Hq) as [s' E']. exists s'. rewrite Hconns, lookup_delete_ne; [done|]. intros ->. congruence.
  - exact G7.
Qed.

(** [~SocketConnection] of a connection that is live. *)
Lemma delete_connection_live p s o w :
  live p s o w -> delete_connection p w =
    ((free (S := S) (T := Acceptor) p
        (on_engine (S := S) (T := Acceptor) (set_registered (fun r => match o with Some id => r ∖ {[id]} | None => r end)) w).1).1, Ok ()).
Proof.
  intros (c & Ec & _ & Eo). unfold delete_connection, mbind, R_bind. rewrite (deref_Some _ _ _ Ec), Eo. destruct o as [id|]; [done|].
  destruct w as [m k [[ss rs h f r b] t]]. done.
Qed.

(** A session is disconnected; it is the one of a connection of ours. *)
Lemma disconnect_session x id w :
  acc_at x w -> known id w ->
  match on_session id so_disconnect w with
  | (w', Ok _) => acc_at x w' /\ evolves w w' /\ e_responder (engine w') !! id = None
  | (w', Throw _) => acc_at x w'
  end.
Proof.
  intros Hw Hk. pose proof (on_session_disconnect id w (ao_engine _ _ Hw) Hk) as Hr.
  destruct (safe_on_session id so_disconnect law_disconnect w (ao_engine _ _ Hw) Hk) as (H1 & H2 & _).
  pose proof (acc_keeps x (known id) _ (known_stable id) (safe_on_session id so_disconnect law_disconnect) (does_on_session true id so_disconnect) w (conj Hw Hk)) as Ha.
  destruct (on_session id so_disconnect w) as [w' [[]|e]]; [|apply Ha]. split_and!; [apply Ha | done | done].
Qed.

Lemma a_onDisconnect_ok x s :
  x = None \/ x = Some s ->
  triple (acc_at x) (a_onDisconnect (S := S) s) (fun _ w => acc_ok w /\ conns w !! s = None) unbroken.
Proof.
  intros Hx w Hw. unfold a_onDisconnect, mbind at 1, R_bind at 1, astate, gets. fold (conns w).
  destruct (conns w !! s) as [p|] eqn:E; [|split; [by eapply acc_settle | done]].
  destruct (acc_live _ _ _ _ Hw E) as [o Hl]. pose proof Hl as (c & Ec & _ & Eo).
  unfold end_connection, mbind, R_bind. rewrite (deref_Some _ _ _ Ec), Eo. destruct o as [id|].
  - pose proof (disconnect_session x id w Hw (live_known _ _ _ _ _ (ao_engine _ _ Hw) Hl)) as Hd.
    destruct (on_session id so_disconnect w) as [w1 [[]|e]]; [|by eapply acc_unbroken]. destruct Hd as (Hw1 & Hev & Hr).
    pose proof (live_stable _ _ _ _ _ Hev Hl) as Hl1. rewrite (delete_connection_live _ _ _ _ Hl1).
    apply (removed_ok x s p (Some id) w1); [done | done | by apply (conns_stable s p w) | done | by intros id' [= <-]].
  - unfold mret, R_ret. rewrite (delete_connection_live _ _ _ _ Hl). by apply (removed_ok x s p None w).
Qed.

Lemma acc_drop x s P : stable P -> triple (fun w => acc_at x w /\ P w) (drop_socket s) (fun _ w => acc_at x w /\ P w) unbroken.
Proof.
  intros HP. eapply triple_weaken; [apply (acc_keeps x P _ HP) | done | done | intros w [Hw _]; by eapply acc_unbroken]; [apply safe_drop_socket | apply does_drop_socket].
Qed.

Lemma server_onError_ok x s :
  x = None \/ x = Some s ->
  triple (acc_at x) (server_onError (S := S) s) (fun _ w => acc_ok w /\ conns w !! s = None) unbroken.
Proof.
  intros Hx. unfold server_onError. eapply triple_bind; [by apply a_onDisconnect_ok|]. intros u.
  eapply triple_bind; [apply acc_drop; intros w w' Hev E; unfold conns; by rewrite (ev_transport _ _ Hev)|]. intros b. by apply triple_ret.
Qed.

(** ** The first message *)

(** A connection of the table whose message is being handled. *)
Definition handled s p w : Prop := acc_at (Some s) w /\ conns w !! s = Some p.

Definition free_name id w : Prop := id ∉ e_registered (engine w).
Definition no_responder p w : Prop := forall id, e_responder (engine w) !! id <> Some p.

(** A connection is given a session, or has it taken, while it is nobody's responder. *)
Lemma rebind_ok s p o o' c w :
  handled s p w -> no_responder p w -> e_heap (engine w) !! p = Some c -> c_socket c = s -> c_session c = o ->
  (forall id, o = Some id -> free_name id w) -> (forall id, o' = Some id -> free_name id w /\ known id w) ->
  let w' := (store (S := S) (T := Acceptor) p (with_session o' c) w).1 in
  handled s p w' /\ live p s o' w' /\ no_responder p w'.
Proof.
  intros [[G1 G2 G3 G4 G5 G6 G7] E] Hno Ec Hs Ho Hfree Hfree' w'.
  assert (forall q, q <> p -> e_heap (engine w') !! q = e_heap (engine w) !! q) as Hold by (intros q Hq; unfold w'; simpl; by rewrite lookup_insert_ne).
  assert (e_heap (engine w') !! p = Some (with_session o' c)) as Hnew by (unfold w'; simpl; by rewrite lookup_insert_eq).
  assert (live p s o' w') as Hlive by (by eexists).
  assert (live p s o w) as Hlive0 by (by exists c).
  assert (forall q s' o1, q <> p -> live q s' o1 w -> live q s' o1 w') as Hk.
  { intros q s' o1 Hq (c' & Ec' & ?). exists c'. by rewrite Hold. }
  assert (forall q s' o1, q <> p -> live q s' o1 w' -> live q s' o1 w) as Hkb.
  { intros q s' o1 Hq (c' & Ec' & ?). exists c'. by rewrite <- Hold. }
  assert (forall s' q, s' <> s -> conns w !! s' = Some q -> q <> p) as Hne.
  { intros s' q Hs' E' ->. destruct (G3 s' p E') as (o1 & Hl' & _). by destruct (live_unique _ _ _ _ _ _ Hlive0 Hl'). }
  assert (forall s' q id, s' <> s -> conns w !! s' = Some q -> live q s' (Some id) w -> id ∈ e_registered (engine w)) as Hreg.
  { intros s' q id Hs' E' Hl'. destruct (G3 s' q E') as (o1 & Hl1 & _ & [Hx|Hx]); [congruence|]. destruct (live_unique _ _ _ _ _ _ Hl' Hl1) as [_ <-]. by apply Hx. }
  split_and!; [|exact Hlive | exact Hno]. split; [|exact E]. split.
  - destruct G1 as [E1 E2 E3 E4 E5]. split; try done.
    + intros id q Hq. destruct (E1 id q Hq) as (d & Ed & Hd). exists d. rewrite Hold; [done|]. intros ->. by apply (Hno id).
    + intros q d id Ed Hd. destruct (decide (q = p)) as [ ->|Hq]; [|rewrite Hold in Ed by done; exact (E2 q d id Ed Hd)].
      rewrite Hnew in Ed. injection Ed as <-. by apply (Hfree' id Hd).
    + intros q Hq. destruct (decide (q = p)) as [ ->|Hqp]; [|rewrite Hold in Hq by done; exact (E3 q Hq)]. apply E3. by eexists.
  - by eapply mon_inv_ext; [..|exact G2].
  - intros s' q E'. change (conns w !! s' = Some q) in E'. destruct (decide (s' = s)) as [ ->|Hs'].
    + rewrite E in E'. injection E' as <-. destruct (G3 s p E) as (o1 & _ & Hin & _). exists o'. split_and!; [done | exact Hin | by left].
    + destruct (G3 s' q E') as (o1 & Hl1 & Hin & Hor). exists o1. split_and!; [apply Hk; [by eapply Hne | done] | exact Hin | exact Hor].
  - assert (forall s' q id, conns w !! s' = Some q -> live q s' (Some id) w' -> s' <> s -> id ∈ e_registered (engine w)) as Hother.
    { intros s' q id E' Hl' Hs'. apply (Hreg s' q id); [done | done | apply Hkb; [by eapply Hne | done]]. }
    assert (forall q id, conns w !! s = Some q -> live q s (Some id) w' -> free_name id w) as Hhere.
    { intros q id E' Hl'. rewrite E in E'. injection E' as <-. apply (Hfree' id). by destruct (live_unique _ _ _ _ _ _ Hlive Hl'). }
    intros s1 p1 s2 p2 id E1 E2 L1 L2. change (conns w !! s1 = Some p1) in E1. change (conns w !! s2 = Some p2) in E2.
    destruct (decide (s1 = s)) as [ ->|H1], (decide (s2 = s)) as [ ->|H2]; [done|..].
    + by destruct (Hhere _ _ E1 L1 (Hother _ _ _ E2 L2 H2)).
    + by destruct (Hhere _ _ E2 L2 (Hother _ _ _ E1 L1 H1)).
    + apply (G4 s1 p1 s2 p2 id); [done | done | apply Hkb; [by eapply (Hne s1) | done] | apply Hkb; [by eapply (Hne s2) | done]].
  - intros id Hr. change (id ∈ e_registered (engine w)) in Hr. destruct (G5 id Hr) as (s' & q & E' & Hl'). exists s', q. split; [exact E'|].
    apply Hk; [|done]. intros ->. destruct (live_unique _ _ _ _ _ _ Hlive0 Hl') as [_ ->]. by apply (Hfree id eq_refl).
  - intros q Hq. destruct (decide (q = p)) as [ ->|Hqp]; [by exists s|]. rewrite Hold in Hq by done. destruct (G6 q Hq) as [s' E']. by exists s'.
  - exact G7.
Qed.

(** A connection without a session. *)
Definition unnamed s p w : Prop := conns w !! s = Some p /\ live p s None w.

Lemma unnamed_stable s p : stable (unnamed s p).
Proof. apply stable_and; [apply conns_stable | apply live_stable]. Qed.

(** A connection with the session its first message named, which is free. *)
Definition named id s p w : Prop := conns w !! s = Some p /\ live p s (Some id) w /\ free_name id w /\ no_responder p w.

(** It is the session's responder. *)
Definition served id s p w : Prop := conns w !! s = Some p /\ live p s (Some id) w /\ free_name id w /\ serves s p id w.

Lemma named_stable id s p : stable (named id s p).
Proof.
  intros w w' Hev (H1 & H2 & H3 & H4). split_and!; [by eapply conns_stable | by eapply live_stable | |].
  - unfold free_name. by rewrite (ev_registered _ _ Hev).
  - intros id' Hr. by apply (H4 id'), (ev_responder _ _ Hev).
Qed.

Lemma served_stable id s p : stable (served id s p).
Proof.
  intros w w' Hev (H1 & H2 & H3 & H4). split_and!; [by eapply conns_stable | by eapply live_stable | | by eapply serves_stable].
  unfold free_name. by rewrite (ev_registered _ _ Hev).
Qed.

Lemma live_no_responder p s w : acc_at (Some s) w -> live p s None w -> no_responder p w.
Proof.
  intros Hw (c & Ec & _ & Eo) id Hr. destruct (eo_responder _ _ (ao_engine _ _ Hw) id p Hr) as (c' & Ec' & Eo'). congruence.
Qed.

(** [Session::setResponder] of the first message's session. *)
Lemma first_responder id s p :
  triple (fun w => acc_at (Some s) w /\ named id s p w) (setResponder (S := S) id p)
    (fun _ w => acc_at (Some s) w /\ served id s p w) (fun w => acc_at (Some s) w /\ named id s p w).
Proof.
  intros w [Hw Hn]. pose proof Hn as (HE & Hl & Hfree & Hno).
  destruct (setResponder_spec id s p w (ao_engine _ _ Hw) Hl) as [Hev Hs]. pose proof (does_on_session true id so_setResponder w) as Hd.
  set (w2 := (on_session id so_setResponder w).1) in *. pose proof (mon_inv_acts _ _ _ _ _ Hd (ao_mon _ _ Hw)) as Hm.
  pose proof (named_stable id s p _ _ Hev Hn) as Hn2.
  destruct (setResponder id p w) as [w3 [[]|e]]; [|destruct Hs as [-> He]; split; [by eapply acc_evolves | done]].
  destruct Hs as (-> & _ & He3). destruct Hn2 as (HE2 & Hl2 & Hfree2 & _).
  pose proof Hw as [G1 G2 G3 G4 G5 G6 G7]. unfold on_engine, on_client in *. simpl in *.
  set (w3 := set_client (fun c => (set_responders <[id:=p]> c.1, c.2)) w2) in *.
  assert (conns w3 = conns w) as Hc by (unfold conns, transport; simpl; change ((w_client w2).2) with (transport w2); by rewrite (ev_transport _ _ Hev)).
  assert (forall q s' o, live q s' o w -> live q s' o w3) as Hk by (intros q s' o Hq; apply (live_stable q s' o _ _ Hev Hq)).
  assert (forall q s' o, live q s' o w3 -> live q s' o w) as Hkb by (intros q s' o Hq; by apply (live_back q s' o _ _ Hev)).
  assert (forall s', held s' w -> held s' w3) as Hheld by (intros s'; apply (held_stable s' _ _ Hev)).
  assert (serves s p id w3) as Hserves.
  { destruct (G3 s p HE) as (o & _ & Hin & _). destruct (Hheld s Hin) as [Hwa|?]; [right|by left]. split; [exact Hwa|]. unfold w3. simpl. by rewrite lookup_insert_eq. }
  assert (e_registered (engine w3) = e_registered (engine w)) as Hreg by apply (ev_registered _ _ Hev).
  split; [split|].
  - exact He3.
  - by eapply mon_inv_ext; [..|exact Hm].
  - rewrite Hc. intros s' q E. destruct (G3 s' q E) as (o & Hlq & Hin & Hor). exists o. split_and!; [by apply Hk | by apply Hheld|].
    destruct Hor as [?|Hor]; [by left | right]. intros id' ->. destruct (Hor id' eq_refl) as [Hr Hs']. rewrite Hreg. split; [done|].
    destruct (serves_stable q s' id' _ _ Hlq Hev Hs') as [?|[Hwa Hr']]; [by left | right; split; [exact Hwa|]].
    unfold w3. simpl. rewrite lookup_insert_ne; [exact Hr'|]. by intros <-.
  - rewrite Hc. intros s1 p1 s2 p2 id' E1 E2 L1 L2. apply (G4 s1 p1 s2 p2 id'); auto.
  - rewrite Hreg, Hc. intros id' Hr. destruct (G5 id' Hr) as (s' & q & E & Hq). exists s', q. auto.
  - rewrite Hc. intros q [c Eq]. destruct (ev_heap_back _ _ _ _ Hev Eq) as (c' & Eq' & _). apply G6. by eexists.
  - change (transport w3) with (transport w2). rewrite (ev_transport _ _ Hev). intros id' Hid. by apply (ev_sessions _ _ Hev), G7.
  - split_and!; [by rewrite Hc | exact Hl2 | exact Hfree2 | exact Hserves].
Qed.

Lemma getSession_ok id s p message :
  addressee message = Ok (Some id) ->
  triple (fun w => acc_at (Some s) w /\ named id s p w) (getSession (S := S) message p)
    (fun o w => acc_at (Some s) w /\ match o with Some id' => id' = id /\ served id s p w | None => named id s p w end)
    (fun w => acc_at (Some s) w /\ named id s p w).
Proof.
  unfold addressee, getSession. intros Ha. set (P := fun w => acc_at (Some s) w /\ named id s p w).
  destruct (setStringHeader new_Message message) as [[found m]|e]; [|done]. cbn [mbind result_bind] in Ha.
  destruct found; [|done]. cbn [negb] in Ha. destruct (reversed_id (m_header m)) as [id0|e] eqn:Er; [|done]. injection Ha as ->.
  eapply (triple_bind _ _ _ (fun r w => r = (true, m) /\ P w)); [intros w Hw; by split|]. intros [b m'] w [[= -> ->] Hw]. revert w Hw. cbn [negb].
  apply (triple_try _ _ _ _ P); [| |done].
  - eapply (triple_bind _ _ _ (fun id' w => id' = id /\ P w)); [intros w Hw; unfold lift; rewrite Er; by split|]. intros id' w [-> Hw]. revert w Hw.
    eapply (triple_bind _ _ _ (fun _ => P)); [intros w Hw; unfold lift; by destruct (getField (m_header m) FIELD.MsgType)|]. intros msgType.
    destruct (negb _); [by apply triple_ret; intros w [? ?]|].
    eapply (triple_bind _ _ _ (fun _ => P)); [by intros w Hw|]. intros []; [|by apply triple_ret; intros w [? ?]].
    eapply (triple_bind _ _ _ (fun _ w => acc_at (Some s) w /\ served id s p w)); [apply first_responder|]. intros _. apply triple_ret. intros w [? ?]. by split_and!.
  - intros [] h; try done. intros [= <-]. by apply triple_ret; intros w [? ?].
Qed.

Lemma lookup_message_ok message P :
  triple P (lookup_message (S := S) message) (fun o w => P w /\ forall id, o = Some id -> addressee message = Ok (Some id) /\ known id w) P.
Proof.
  unfold lookup_message. eapply triple_bind; [apply triple_lift|]. intros [id|] w [Ha Hw]; [|by split].
  unfold gets. destruct (e_sessions (engine w) !! id) as [x|] eqn:E; (split; [done|]); [|done]. intros id' [= <-]. split; [done | by exists x].
Qed.

(** The session goes to the connection for good. *)
Lemma registered_ok id s p w :
  acc_at (Some s) w -> served id s p w -> known id w ->
  acc_ok (on_engine (S := S) (T := Acceptor) (set_registered (fun r => {[id]} ∪ r)) w).1.
Proof.
  intros [G1 G2 G3 G4 G5 G6 G7] (E & Hl & Hfree & Hs) Hk. set (w' := (on_engine _ w).1). assert (conns w' = conns w) as Hc by done.
  assert (forall id', id' ∈ e_registered (engine w') <-> id' = id \/ id' ∈ e_registered (engine w)) as Hreg.
  { intros id'. unfold w'. simpl. by rewrite elem_of_union, elem_of_singleton. }
  split; try done.
  - by apply engine_ok_registered.
  - by eapply mon_inv_ext; [..|exact G2].
  - intros s' q E'. rewrite Hc in E'. destruct (G3 s' q E') as (o & Hlq & Hin & Hor). exists o. split_and!; [exact Hlq | exact Hin | right].
    intros id' Ho. rewrite Hreg. destruct Hor as [[= <-]|Hor]; [|destruct (Hor id' Ho) as [? Hs']; split; [by right | exact Hs']].
    rewrite E in E'. injection E' as <-. destruct (live_unique _ _ _ _ _ _ Hl Hlq) as [_ <-]. injection Ho as <-. split; [by left | exact Hs].
  - intros id' [ ->|Hr]%Hreg; [by exists s, p | exact (G5 id' Hr)].
Qed.

Lemma registerSession_ok id s p :
  triple (fun w => acc_at (Some s) w /\ served id s p w) (registerSession (S := S) id) (fun _ => acc_ok) unbroken.
Proof.
  intros w [Hw Hs]. pose proof Hs as (_ & Hl & _). destruct (live_known _ _ _ _ _ (ao_engine _ _ Hw) Hl) as [x Ex].
  unfold registerSession, mbind, R_bind, gets. rewrite Ex. rewrite bool_decide_eq_true_2 by done. apply (registered_ok id s p); [done | done | by exists x].
Qed.

Lemma handled_alive s p w : handled s p w -> alive p w.
Proof. intros [Hw E]. destruct (acc_live _ _ _ _ Hw E) as [o Hl]. by exists s, o. Qed.

Lemma drop_connection_ok s p :
  triple (handled s p) (drop_connection (S := S) p) (fun _ w => handled s p w) (handled s p).
Proof.
  assert (stable (fun w => conns w !! s = Some p /\ alive p w)) as Hst by (apply stable_and; [apply conns_stable | apply alive_stable]).
  eapply triple_weaken; [apply (acc_keeps (Some s) _ _ Hst) | | |].
  - eapply safe_pre; [apply safe_drop_connection | by intros w [_ ?]].
  - apply does_drop_connection.
  - intros w Hw. split_and!; [apply Hw | apply Hw | by eapply handled_alive].
  - intros _ w (? & ? & _). done.
  - intros w (? & ? & _). done.
Qed.

(** What is left of the invariant when [read] has answered. *)
Definition answered s (b : bool) w : Prop := if b then acc_ok w else acc_at (Some s) w.

Lemma refused_false s p :
  triple (handled s p) (_ ← drop_connection (S := S) p; mret false) (fun b w => answered s b w /\ b = false) (handled s p).
Proof. eapply triple_bind; [apply drop_connection_ok|]. intros u. apply triple_ret. by intros w [Hw _]. Qed.

Lemma refused s p : triple (handled s p) (_ ← drop_connection (S := S) p; mret false) (answered s) (handled s p).
Proof. eapply triple_weaken; [apply refused_false | done | by intros b w [? _] | done]. Qed.

Lemma hand_first_ok id s p message :
  triple (fun w => acc_at (Some s) w /\ served id s p w) (hand_first (S := S) p id message)
    (fun b w => answered s b w /\ (b = true -> live p s (Some id) w)) (handled s p).
Proof.
  set (P := fun w => acc_at (Some s) w /\ served id s p w). assert (forall w, P w -> handled s p w) as HP by (intros w (Hw & HE & _); by split).
  assert (forall X (Q : X -> Prop) (m : R X), safe None (live p s (Some id)) Q m -> does true m -> triple P m (fun x w => P w /\ Q x) (handled s p)) as Hgo.
  { intros X Q m Hm Hd. eapply triple_weaken; [apply (acc_safe (Some s) (served id s p) Q m (served_stable id s p)) | done | | intros w Hw; by apply HP];
      [eapply safe_pre; [exact Hm | by intros w (_ & ? & _)] | done|]. intros x w (? & ? & ?). done. }
  assert (safe None (live p s (Some id)) any (session id : R S)) as Hsession by (eapply safe_known; [apply safe_session | done]).
  unfold hand_first. eapply (triple_bind _ _ _ _ _ _ (Hgo _ _ _ Hsession (does_session true id))). intros x.
  eapply triple_bind; [eapply triple_weaken; [apply (Hgo _ _ _ (safe_deref None p s (Some id)) (does_deref true p)) | by intros w [? _] | done | done]|]. intros c.
  eapply (triple_bind _ _ _ (fun _ => P)).
  { eapply triple_weaken; [apply (Hgo _ any) | by intros w [? _] | by intros y w [? _] | done].
    - destruct (so_isAcceptor x); [apply safe_tick | by apply safe_ret].
    - destruct (so_isAcceptor x); [apply does_asked | apply does_ret]. }
  intros remote. destruct (_ && _ && _); [eapply triple_weaken; [apply refused_false | exact HP | by intros b w [Hw ->] | done]|].
  eapply (triple_bind _ _ _ (fun _ => P)); [eapply triple_weaken; [apply (Hgo _ any); [apply safe_tick | unfold now_utc; does_all] | done | by intros y w [? _] | done]|]. intros now.
  eapply (triple_bind _ _ _ (fun _ => P)).
  { eapply triple_weaken; [apply (Hgo _ any); [eapply safe_known; [apply safe_on_session, law_next | done] | apply does_on_session] | done | by intros y w [? _] | done]. }
  intros _ w Hw. pose proof (registerSession_ok id s p w Hw) as Hr. unfold mbind, R_bind.
  assert ((registerSession (S := S) id w).2 = Ok () /\ e_heap (engine (registerSession (S := S) id w).1) = e_heap (engine w)) as [He Hh].
  { unfold registerSession, mbind, R_bind, gets. by destruct (bool_decide _). }
  destruct (registerSession id w) as [w' [[]|e]]; [|done]. split; [exact Hr|]. intros _. destruct Hw as (_ & _ & (c0 & Ec & ?) & _). exists c0. simpl in Hh. by rewrite Hh.
Qed.

Lemma set_session_live p s o o' w :
  live p s o w -> exists c, e_heap (engine w) !! p = Some c /\ c_socket c = s /\ c_session c = o /\
    set_session (S := S) p o' w = ((store (S := S) (T := Acceptor) p (with_session o' c) w).1, Ok ()).
Proof. intros (c & Ec & Es & Eo). exists c. split_and!; try done. unfold set_session, mbind, R_bind. by rewrite (deref_Some _ _ _ Ec). Qed.

(** The session it already has. *)
Lemma set_same s p o : safe None (live p s o) any (set_session (S := S) p o).
Proof. unfold set_session. eapply safe_bind; [apply live_stable | apply safe_deref|]. intros c [Hs Ho]. by apply safe_store. Qed.

Lemma isValidSession_ok found c w :
  exists b, isValidSession (S := S) found c w = (w, Ok b) /\ (b = true -> exists id, found = Some id /\ free_name id w).
Proof.
  unfold isValidSession. destruct found as [id|]; [|by exists false]. unfold mbind, R_bind, gets. eexists. split; [reflexivity|].
  rewrite andb_true_iff, negb_true_iff, bool_decide_eq_false. intros [? _]. by exists id.
Qed.

(** The message is a Logon for a session that is free. *)
Lemma bind_ok id s p message :
  addressee message = Ok (Some id) ->
  triple (fun w => acc_at (Some s) w /\ named id s p w)
    (bound ← getSession (S := S) message p;
     _ ← set_session p bound;
     match bound with None => _ ← drop_connection p; mret false | Some id => hand_first p id message end)
    (answered s) (handled s p).
Proof.
  intros Ha. eapply triple_bind; [eapply triple_weaken; [by apply (getSession_ok id s p) | done | done | by intros w (? & ? & _)]|]. intros [id'|].
  - intros w (Hw & -> & Hs). revert w Hw Hs. assert (forall w, acc_at (Some s) w /\ served id s p w -> handled s p w) as HP by (intros w (? & ? & _); by split).
    assert (triple (fun w => acc_at (Some s) w /\ served id s p w) (_ ← set_session (S := S) p (Some id); hand_first p id message) (answered s) (handled s p)) as Ht.
    { eapply triple_bind; [eapply triple_weaken; [apply (acc_keeps (Some s) (served id s p)) | done | done | exact HP]|].
      - apply served_stable.
      - eapply safe_pre; [apply (set_same s p (Some id)) | by intros w (_ & ? & _)].
      - apply does_set_session.
      - intros u. eapply triple_weaken; [apply hand_first_ok | intros w Hw; exact Hw | by intros b w [? _] | done]. }
    intros w Hw Hs. exact (Ht w (conj Hw Hs)).
  - intros w (Hw & HE & Hl & Hfree & Hno). destruct (set_session_live p s (Some id) None w Hl) as (c & Ec & Es & Eo & Eset).
    destruct (rebind_ok s p (Some id) None c w (conj Hw HE) Hno Ec Es Eo) as (Hh & _); [by intros ? [= <-] | done|].
    unfold mbind at 1, R_bind at 1. rewrite Eset. exact (refused s p _ Hh).
Qed.

Lemma not_bound s p :
  triple (fun w => acc_ok w /\ unnamed s p w)
    (_ ← set_session (S := S) p None; _ ← set_session p None; _ ← drop_connection p; mret false) (answered s) (handled s p).
Proof.
  set (P := fun w => acc_ok w /\ unnamed s p w).
  assert (forall w, P w -> handled s p w) as HP by (intros w (Hw & HE & _); split; [by apply acc_weaken | done]).
  assert (triple P (set_session (S := S) p None) (fun _ => P) (handled s p)) as Hset.
  { eapply triple_weaken; [apply (acc_keeps None (unnamed s p)) | done | done | exact HP].
    - apply unnamed_stable.
    - eapply safe_pre; [apply (set_same s p None) | by intros w (_ & ?)].
    - apply does_set_session. }
  eapply triple_bind; [exact Hset|]. intros u. eapply triple_bind; [exact Hset|]. intros u'.
  eapply triple_weaken; [apply refused | exact HP | done | done].
Qed.

Lemma first_message_ok s p : triple (fun w => acc_ok w /\ unnamed s p w) (first_message (S := S) p) (answered s) (handled s p).
Proof.
  set (P := fun w => acc_ok w /\ unnamed s p w).
  assert (forall w, P w -> handled s p w) as HP by (intros w (Hw & HE & _); split; [by apply acc_weaken | done]).
  assert (forall X (m : R X), safe None (live p s None) any m -> does true m -> triple P m (fun _ => P) (handled s p)) as Hgo.
  { intros X m Hm Hd. eapply triple_weaken; [apply (acc_keeps None (unnamed s p) m (unnamed_stable s p)) | done | done | exact HP]; [|done].
    eapply safe_pre; [exact Hm | by intros w (_ & ?)]. }
  unfold first_message. eapply triple_bind; [apply Hgo; [apply safe_readFromSocket | apply does_readFromSocket]|]. intros u.
  eapply triple_bind; [apply Hgo; [apply safe_readMessage | apply does_readMessage]|]. intros [[|] message]; cbn [negb]; [|by apply triple_ret; intros w [? _]].
  eapply triple_bind; [eapply triple_weaken; [apply (lookup_message_ok message P) | done | done | exact HP]|]. intros found w [Hw Hfound].
  pose proof Hw as (Hok & HE & Hl). pose proof Hl as (c & Ec & Es & Eo). unfold mbind at 1, R_bind at 1. rewrite (deref_Some _ _ _ Ec).
  destruct (isValidSession_ok found c w) as (b & Eb & Hb). unfold mbind at 1, R_bind at 1. rewrite Eb. destruct b; [|exact (not_bound s p w Hw)].
  destruct (Hb eq_refl) as (id & -> & Hfree). destruct (Hfound id eq_refl) as [Ha Hk].
  destruct (set_session_live p s None (Some id) w Hl) as (c' & Ec' & Es' & Eo' & Eset).
  assert (no_responder p w) as Hno by (by eapply live_no_responder; [apply acc_weaken|]).
  destruct (rebind_ok s p None (Some id) c' w (HP w Hw) Hno Ec' Es' Eo') as ([Hw1 HE1] & Hl1 & Hno1); [done | by intros ? [= <-]|].
  unfold mbind at 1, R_bind at 1. rewrite Eset. apply (bind_ok id s p message Ha). split; [exact Hw1|]. by split_and!.
Qed.

Lemma acceptor_read_ok s p :
  triple (fun w => acc_ok w /\ conns w !! s = Some p) (acceptor_read (S := S) p) (answered s) (handled s p).
Proof.
  intros w [Hw HE]. destruct (acc_live _ _ _ _ Hw HE) as [o Hl]. pose proof Hl as (c & Ec & Es & Eo).
  unfold acceptor_read, mbind at 1, R_bind at 1. rewrite (deref_Some _ _ _ Ec).
  refine ((_ : triple (fun w => acc_ok w /\ conns w !! s = Some p /\ live p s o w) _ (answered s) (handled s p)) w (conj Hw (conj HE Hl))).
  rewrite Eo. apply (triple_try _ _ _ _ (handled s p)); [| |done].
  - destruct o as [id|]; [|apply first_message_ok].
    set (Q := fun w => conns w !! s = Some p /\ live p s (Some id) w).
    assert (stable Q) as HQ by (apply stable_and; [apply conns_stable | apply live_stable]).
    assert (forall X (m : R X), safe None (live p s (Some id)) any m -> does true m ->
              triple (fun w => acc_ok w /\ Q w) m (fun _ w => acc_ok w /\ Q w) (handled s p)) as Hgo.
    { intros X m Hm Hd. eapply triple_weaken; [apply (acc_keeps None Q m HQ) | done | done | intros w' (Hw' & HE' & _); split; [by apply acc_weaken | done]]; [|done].
      eapply safe_pre; [exact Hm | by intros w' (_ & ?)]. }
    eapply triple_bind; [apply Hgo; [apply safe_readFromSocket | apply does_readFromSocket]|]. intros u.
    eapply triple_bind; [apply Hgo; [apply safe_readMessages | apply does_readMessages]|]. intros u'. by apply triple_ret; intros w' [? _].
  - intros [] h; try done; intros [= <-]; apply refused.
Qed.

(** ** The handlers, and a pass *)

Definition no_connection s w : Prop := conns w !! s = None.

Lemma a_onData_ok s : triple acc_ok (a_onData (S := S) s) (answered s) unbroken.
Proof.
  intros w Hw. unfold a_onData, mbind, R_bind, astate, gets. fold (conns w). destruct (conns w !! s) as [p|] eqn:E; [|by apply acc_weaken].
  pose proof (acceptor_read_ok s p w (conj Hw E)) as H1. destruct (acceptor_read p w) as [w' [b|e]]; [done | by apply (acc_unbroken (Some s)); destruct H1].
Qed.

Abbreviation strategy := (server_strategy (S := S)).

Lemma server_onEvent_ok s : triple acc_ok (onEvent strategy s) (fun _ => acc_ok) unbroken.
Proof.
  simpl. unfold server_onEvent. eapply (triple_bind _ _ _ (fun _ => acc_ok)); [by intros w Hw|]. intros [].
  - eapply triple_bind; [apply server_accept_ok | intros accepted; apply a_onConnect_ok].
  - eapply triple_bind; [apply a_onData_ok|]. intros []; simpl; [by apply triple_ret|].
    eapply triple_weaken; [apply (server_onError_ok (Some s) s); by right | done | by intros u w [Hw _] | done].
Qed.

(** What is safe on connections of the table, in a computation that reads the table. *)
Lemma on_conns {X} (f : gmap Z nat -> R X) :
  (forall m, safe None (all_live (in_order m)) any (f m)) -> (forall m, does true (f m)) ->
  triple acc_ok (connections ← astate a_connections; f connections) (fun _ => acc_ok) unbroken.
Proof.
  intros Hs Hd w Hw. unfold mbind, R_bind, astate, gets. fold (conns w).
  pose proof (acc_keeps None _ (f (conns w)) (all_live_stable _) (Hs _) (Hd _) w (conj Hw (conns_live None w Hw))) as H1.
  destruct (f (conns w) w) as [w' [x|e]]; [apply H1 | eapply acc_unbroken; apply H1].
Qed.

Lemma a_onTimeout_ok : triple acc_ok (a_onTimeout (S := S)) (fun _ => acc_ok) unbroken.
Proof.
  apply on_conns; [intros m; apply safe_time_out_all|]. intros m. induction (in_order m) as [|p l IH]; simpl; [does_all|].
  apply does_bind; [does_all | intros _; exact IH].
Qed.

Lemma a_onWrite_ok s : triple acc_ok (a_onWrite (S := S) s) (fun _ => acc_ok) unbroken.
Proof.
  intros w Hw. unfold a_onWrite, mbind, R_bind, astate, gets. fold (conns w). destruct (conns w !! s) as [p|] eqn:E; [|done].
  destruct (acc_live _ _ _ _ Hw E) as [o Hl].
  pose proof (acc_keeps None _ _ (live_stable p s o) (safe_onWrite p s o) (does_onWrite true p) w (conj Hw Hl)) as H1.
  destruct (connection_onWrite p w) as [w' [x|e]]; [apply H1 | eapply acc_unbroken; apply H1].
Qed.

Lemma acc_popped w s rest :
  acc_ok w -> no_connection s w -> m_dropped (w_mon w) = s :: rest ->
  let w' := set_kernel (socket_close s) (set_mon (fun m => (pop_dropped m).2) w) in mon_inv sg given w' -> acc_ok w'.
Proof.
  intros Hw Hno Hd w' Hm. assert (m_dropped (w_mon w') = rest) as Hd' by (simpl; by rewrite Hd). destruct Hw as [G1 G2 G3 G4 G5 G6 G7]. split; try done.
  intros s' p E. destruct (G3 s' p E) as (o & Hl & Hin & Hor). change (conns w !! s' = Some p) in E.
  assert (s' <> s) as Hne by (intros ->; unfold no_connection in Hno; congruence).
  assert (s' ∈ m_dropped (w_mon w) -> s' ∈ m_dropped (w_mon w')) as Hkeep by (rewrite Hd', Hd, elem_of_cons; naive_solver).
  exists o. split_and!; [exact Hl | destruct Hin; auto | right]. destruct Hor as [?|Hor]; [done|]. intros id Ho. destruct (Hor id Ho) as [Hr [Hs|Hs]]; (split; [exact Hr|]); [left; auto | by right].
Qed.

Lemma server_reactor drops poll : triple acc_ok (block strategy drops poll) (fun _ => acc_ok) unbroken.
Proof.
  eapply (reactor_block sg given strategy acc_ok unbroken no_connection).
  - intros w Hw. apply Hw.
  - apply acc_unbroken.
  - apply acc_goes.
  - apply server_onEvent_ok.
  - apply a_onWrite_ok.
  - intros s. eapply triple_weaken; [apply (server_onError_ok None s); by left | done | by intros u w [Hw _] | done].
  - by apply triple_ret.
  - apply a_onTimeout_ok.
  - intros w s Hw Hs. apply (acc_mon None w); [done | | done |].
    + intros s' [Hs'|Hs']; left; [|right; simpl; set_solver]. destruct (decide (s' = s)) as [ ->|]; [right; simpl; set_solver | left; simpl; set_solver].
    + apply (mon_inv_connected sg given s w (ao_mon _ _ Hw) Hs).
  - intros s w Hw _. exact (server_onError_ok None s ltac:(by left) w Hw).
  - apply acc_popped.
Qed.

Lemma server_block_ok drops poll : triple acc_ok (server_block (S := S) drops poll) (fun _ => acc_ok) unbroken.
Proof.
  unfold server_block. eapply (triple_bind _ _ _ (fun _ => acc_ok)); [by intros w Hw|]. intros valid. destruct (negb valid); [by apply triple_ret|].
  eapply triple_bind; [apply server_reactor|]. intros u. by apply triple_ret.
Qed.

Lemma acc_read {X} (f : W -> X) : triple acc_ok (gets f) (fun _ => acc_ok) unbroken.
Proof. by intros w Hw. Qed.

Lemma acc_clock {X} (f : nat -> X) : triple acc_ok (n ← on_kernel tick; mret (f n) : R X) (fun _ => acc_ok) unbroken.
Proof.
  eapply triple_weaken; [apply (acc_tick None (fun _ => True)) | by intros w Hw | by intros x w [Hw _] | intros w [Hw _]; by eapply acc_unbroken]. done.
Qed.

Lemma entries_live x w : acc_at x w -> all_live (entries_in_order (conns w)).*2 w.
Proof.
  intros Hw p Hp. apply list_elem_of_fmap in Hp as ([s q] & -> & Hin). unfold entries_in_order in Hin.
  apply list_elem_of_omap in Hin as (s' & _ & Es). destruct (conns w !! s') as [q'|] eqn:E; [|done]. simpl in Es. injection Es as <- <-.
  destruct (acc_live _ _ _ _ Hw E) as [o Hl]. by exists s', o.
Qed.

Lemma expire_all_ok now : triple acc_ok (connections ← astate a_connections; expire_all (S := S) now (entries_in_order connections)) (fun _ => acc_ok) unbroken.
Proof.
  intros w Hw. unfold mbind, R_bind, astate, gets. fold (conns w).
  assert (does true (expire_all (S := S) now (entries_in_order (conns w)))) as Hd.
  { induction (entries_in_order (conns w)) as [|entry l IH]; simpl; [does_all|]. apply does_bind; [unfold expire_one, drop_socket; does_all | intros _; exact IH]. }
  pose proof (acc_keeps None _ _ (all_live_stable _) (safe_expire_all now _) Hd w (conj Hw (entries_live None w Hw))) as H1.
  destruct (expire_all now (entries_in_order (conns w)) w) as [w' [x|e]]; [apply H1 | eapply acc_unbroken; apply H1].
Qed.

Lemma expirePendingReads_ok : triple acc_ok (expirePendingReads (S := S)) (fun _ => acc_ok) unbroken.
Proof.
  unfold expirePendingReads. eapply triple_bind; [apply acc_read|]. intros server. eapply triple_bind; [apply acc_read|]. intros connections.
  destruct (negb server || _); [by apply triple_ret|]. eapply triple_bind; [apply acc_clock|]. intros now.
  eapply triple_bind; [apply acc_read|]. intros last. destruct (_ =? _); [by apply triple_ret|].
  eapply (triple_bind _ _ _ (fun _ => acc_ok)); [intros w Hw; by apply (acc_transport None (with_lastSweep now))|]. intros u.
  eapply triple_bind; [apply a_onTimeout_ok|]. intros u'. apply expire_all_ok.
Qed.

Lemma a_pass_ok drops poll : triple acc_ok (a_pass (S := S) drops poll) (fun _ => acc_ok) unbroken.
Proof.
  unfold a_pass. eapply triple_bind; [apply server_block_ok|]. intros b.
  eapply (triple_bind _ _ _ (fun _ => acc_ok)); [destruct b; [apply expirePendingReads_ok | by apply triple_ret]|]. intros u. by apply triple_ret.
Qed.
End Invariant.
