(* ===== verification/AcceptorRuns.v ===== *)
(** * Runs of the acceptor, and what they guarantee

    A run starts with a server just made; then the acceptor listens and passes, other
    threads send, and the acceptor is stopped, logs its sessions out and ends. *)
From stdpp Require Import sorting relations.
From S2P Require Import Prelude DateTime Convertors Values Settings SocketSettings Parser Sockets Monitor MonitorProps Connection Engine EngineProps Triples Reactor Initiator Acceptor AcceptorProps InitiatorRuns.
From S2P Require Session SessionState SessionExample.
From S2P Require Import MessageStore SessionBox.

(** ** What starts *)

(** With a server, before it listens. *)
Definition new_acceptor (ids : gset str) (maxPendingConnections : Z) : Acceptor :=
  mkAcceptor ids maxPendingConnections false true ∅ ∅ ∅ ∅ ∅ 0.

Section Steps.
Context {S : Type} `{SI : SessionInterface S} `{CL : Clocks} `{AD : Addresses} `{SL : !SessionLaws S}.
Context (sg : Z) (given : gset Z).
Abbreviation W := (World (Engine S * Acceptor)).
Abbreviation R := (R (Engine S * Acceptor)).
Implicit Types (w : W) (id : str) (s : Z) (p : nat).
Abbreviation acc_ok := (acc_at sg given None).

(** ** Listening *)

Lemma server_add_ok port noDelay sendBufSize rcvBufSize :
  triple acc_ok (server_add (S := S) port noDelay sendBufSize rcvBufSize) (fun _ => acc_ok) acc_ok.
Proof.
  unfold server_add. eapply (triple_bind _ _ _ (fun _ => acc_ok)); [by intros w Hw|]. intros [info|]; [by apply triple_ret|].
  intros w Hw. unfold mbind at 1, R_bind at 1, on_kernel. destruct (socket_new (w_kernel w)) as [s k] eqn:E.
  destruct (socket_new_open _ _ _ E) as [[ -> _]|(Hs & _ & _)].
  - assert (acc_ok (mkWorld (w_mon w) k (w_client w))) as Hw1.
    { apply acc_mon; auto. eapply mon_inv_acts; [apply rtc_once, (act_no_socket false) with (s := INVALID_SOCKET_HANDLE); [exact E | done] | apply Hw]. }
    rewrite Z.eqb_refl. unfold asked. unfold mbind, R_bind, on_kernel. simpl.
    pose proof (acc_clock sg given socket_error _ Hw1) as Hc. unfold mbind, R_bind, on_kernel in Hc. simpl in Hc. exact Hc.
  - destruct (Z.eqb_spec s INVALID_SOCKET_HANDLE) as [ ->|_]; [done|].
    pose proof (mon_inv_acts sg given _ _ _ (rtc_once _ _ (act_listen true w s k eq_refl E Hs)) (ao_mon _ _ _ _ Hw)) as Hm.
    assert (acc_ok (mkWorld (addRead s (w_mon w)).2 k (w_client w))) as Hw1.
    { apply acc_mon; [done | | | done].
      - intros s' Hs'. left. unfold watched, addRead in *. case_bool_decide; simpl; set_solver.
      - intros s' Hs'. unfold addRead. by case_bool_decide. }
    unfold mbind, R_bind, on_mon. simpl. destruct (addRead s (w_mon w)) as [b m]. simpl in *. by apply (acc_transport sg given None).
Qed.

Lemma acc_lift {X} (r : result X) : triple acc_ok (lift r) (fun _ => acc_ok) (unbroken (T := Acceptor)).
Proof. intros w Hw. unfold lift. destruct r; [done | by eapply acc_unbroken]. Qed.

Lemma delete_server_unbroken : triple (unbroken (S := S)) delete_server (fun _ => unbroken) unbroken.
Proof. by intros w Hw. Qed.

Lemma add_listener_ok sessionSettings sessionID : triple acc_ok (add_listener (S := S) sessionSettings sessionID) (fun _ => acc_ok) unbroken.
Proof.
  unfold add_listener. do 6 (eapply triple_bind; [apply acc_lift | intros ?]).
  eapply triple_bind.
  - apply (triple_try _ _ _ _ acc_ok); [apply server_add_ok | | apply acc_unbroken].
    intros e h. destruct e; try done. intros [= <-].
    eapply triple_bind; [eapply triple_weaken; [apply delete_server_unbroken | apply acc_unbroken | done | done]|]. intros u. by intros w Hw.
  - intros s. eapply triple_bind; [apply acc_clock|]. intros hostport.
    eapply (triple_bind _ _ _ (fun _ => acc_ok)); [intros w Hw; by apply (acc_transport sg given None)|]. intros u.
    eapply triple_bind; [apply acc_clock|]. intros hostport' w Hw. by apply (acc_transport sg given None).
Qed.

Lemma onInitialize_ok sessionSettings : triple acc_ok (onInitialize (S := S) sessionSettings) (fun _ => acc_ok) unbroken.
Proof.
  unfold onInitialize. induction (getSessions sessionSettings) as [|sessionID l IH]; simpl; [by apply triple_ret|].
  eapply triple_bind; [apply add_listener_ok | intros u; exact IH].
Qed.

(** ** Logging out *)

Lemma a_isLoggedOn_ok : triple acc_ok (a_isLoggedOn (S := S)) (fun _ => acc_ok) unbroken.
Proof.
  intros w Hw. unfold a_isLoggedOn, mbind, R_bind, astate, gets.
  assert (forall id, id ∈ ascending_ids (a_sessions (transport w)) -> is_Some (e_sessions (engine w) !! id)) as Hl
    by (intros id; rewrite elem_of_ascending_ids; apply (ao_sessions _ _ _ _ Hw)).
  induction (ascending_ids (a_sessions (transport w))) as [|id l IH]; [done|]. simpl. unfold mbind, R_bind.
  destruct (Hl id) as [x Ex]; [left|]. rewrite (session_Some _ _ _ Ex). destruct (so_isLoggedOn x); [done|]. apply IH. intros id' Hin. apply Hl. by right.
Qed.

Lemma a_log_out_ok fuel drops start : triple acc_ok (a_log_out (S := S) fuel drops start) (fun _ => acc_ok) unbroken.
Proof.
  induction fuel as [|fuel IH]; simpl; [intros w Hw; by eapply acc_unbroken|].
  eapply triple_bind; [apply a_isLoggedOn_ok|]. intros []; [|by apply triple_ret].
  eapply triple_bind; [apply server_block_ok|]. intros b. eapply triple_bind; [apply acc_clock|]. intros now.
  destruct (start <=? now - 5); [by apply triple_ret | exact IH].
Qed.

Lemma a_onPoll_ok drops : triple acc_ok (a_onPoll (S := S) drops) (fun _ => acc_ok) unbroken.
Proof.
  assert (forall b : bool, triple acc_ok (if b then now_seconds else mret 0 : R Z) (fun _ => acc_ok) unbroken) as Hclock
    by (intros []; [apply acc_clock | by apply triple_ret]).
  unfold a_onPoll. eapply triple_bind; [apply acc_read|]. intros server. destruct (negb server); [by apply triple_ret|].
  eapply triple_bind; [apply acc_read|]. intros stopped. eapply triple_bind; [apply Hclock|]. intros start.
  eapply (triple_bind _ _ _ (fun _ => acc_ok)); [destruct stopped; [apply a_isLoggedOn_ok | by apply triple_ret]|]. intros on.
  destruct (negb on); [by apply triple_ret|]. eapply triple_bind; [apply Hclock|]. intros now.
  destruct (stopped && _); [by apply triple_ret|]. eapply triple_bind; [apply server_block_ok|]. intros b.
  eapply triple_bind; [apply expirePendingReads_ok|]. intros u. by apply triple_ret.
Qed.

(** ** The end *)

(** The connections of [l] are left, each with a session of its own. *)
Record left_over (l : list nat) w : Prop := {
  lo_engine : engine_ok None (engine w);
  lo_nodup : NoDup l;
  lo_live p : p ∈ l -> alive p w;
  lo_heap p : is_Some (e_heap (engine w) !! p) -> p ∈ l;
  lo_registered id : id ∈ e_registered (engine w) -> exists p s, p ∈ l /\ live p s (Some id) w;
  lo_one p q s s' id : p ∈ l -> q ∈ l -> live p s (Some id) w -> live q s' (Some id) w -> p = q
}.

(** The disconnection of the session of one of them throws. *)
Definition loud (l : list nat) (e : exn) w : Prop :=
  exists p s id x, p ∈ l /\ live p s (Some id) w /\ e_sessions (engine w) !! id = Some x /\ (so_disconnect x).2 = Throw e.

(** A connection of which nobody is told is deleted. *)
Lemma left_over_delete p l s o w :
  left_over (p :: l) w -> live p s o w -> (forall id, o = Some id -> e_responder (engine w) !! id = None) ->
  exists w', delete_connection p w = (w', Ok ()) /\ left_over l w' /\ e_sessions (engine w') = e_sessions (engine w) /\
    forall q s o, live q s o w' -> live q s o w.
Proof.
  intros [G1 G2 G3 G4 G5 G6] Hl Hr. apply NoDup_cons in G2 as [Hp Hn]. rewrite (delete_connection_live p s o w Hl).
  eexists. split; [reflexivity|]. match goal with |- left_over l ?w2 /\ _ => set (w' := w2) end.
  assert (forall q, q <> p -> e_heap (engine w') !! q = e_heap (engine w) !! q) as Hold by (intros q Hq; unfold w'; simpl; by rewrite lookup_delete_ne).
  assert (forall q s' o', q ∈ l -> live q s' o' w -> live q s' o' w') as Hk.
  { intros q s' o' Hq (c & Ec & ?). exists c. rewrite Hold; [done|]. by intros ->. }
  assert (forall q s' o', q ∈ l -> live q s' o' w' -> live q s' o' w) as Hkb.
  { intros q s' o' Hq (c & Ec & ?). exists c. rewrite <- Hold; [done|]. by intros ->. }
  split_and!; [split|done|].
  - apply engine_ok_free; [by apply engine_ok_registered|]. intros id Hq. change (e_responder (engine w) !! id = Some p) in Hq.
    destruct (eo_responder _ _ G1 id p Hq) as (c & Ec & Eo). destruct Hl as (c' & Ec' & _ & Eo'). rewrite (Hr id) in Hq; congruence.
  - done.
  - intros q Hq. destruct (G3 q) as (s' & o' & Hl'); [by right|]. exists s', o'. by apply Hk.
  - intros q Hq. destruct (decide (q = p)) as [ ->|Hne].
    + exfalso. unfold w' in Hq. simpl in Hq. rewrite lookup_delete_eq in Hq. by destruct Hq.
    + rewrite Hold in Hq by done. specialize (G4 q Hq). by apply elem_of_cons in G4 as [?|?].
  - intros id Hreg. assert (id ∈ e_registered (engine w) /\ o <> Some id) as [Hreg' Hno].
    { unfold w' in Hreg. simpl in Hreg. destruct o as [id0|]; [|done]. apply elem_of_difference in Hreg as [? Hnin]. split; [done|]. intros [= ->]. set_solver. }
    destruct (G5 id Hreg') as (q & s' & Hq & Hl'). apply elem_of_cons in Hq as [ ->|Hq]; [by destruct (live_unique _ _ _ _ _ _ Hl Hl')|].
    exists q, s'. split; [done | by apply Hk].
  - intros q q' s1 s2 id Hq Hq' L1 L2. apply (G6 q q' s1 s2 id); [by right | by right | by apply Hkb | by apply Hkb].
  - intros q s' o' (c & Ec & ?). destruct (decide (q = p)) as [ ->|Hne].
    + unfold w' in Ec. simpl in Ec. by rewrite lookup_delete_eq in Ec.
    + exists c. by rewrite <- Hold.
Qed.

Lemma left_over_evolves l w w' : left_over l w -> evolves w w' -> engine_ok None (engine w') -> left_over l w'.
Proof.
  intros [G1 G2 G3 G4 G5 G6] Hev He. split; try done.
  - intros q Hq. destruct (G3 q Hq) as (s' & o' & Hl'). exists s', o'. by eapply live_stable.
  - intros q [c' Eq]. destruct (ev_heap_back _ _ _ _ Hev Eq) as (c0 & E0 & _). apply G4. by eexists.
  - rewrite (ev_registered _ _ Hev). intros id' Hreg. destruct (G5 id' Hreg) as (q & s' & Hq & Hl'). exists q, s'. split; [done | by eapply live_stable].
  - intros q q' s1 s2 id' Hq Hq' L1 L2. apply (G6 q q' s1 s2 id'); [done | done | by eapply live_back | by eapply live_back].
Qed.

Lemma left_over_end p l w :
  left_over (p :: l) w ->
  match end_connection (S := S) p w with
  | (w', Ok _) => left_over l w' /\ forall e, loud l e w' -> loud (p :: l) e w
  | (w', Throw e) => unbroken w' /\ loud (p :: l) e w
  end.
Proof.
  intros Hw. destruct (lo_live _ _ Hw p) as (s & o & Hl); [left|]. pose proof Hl as (c & Ec & _ & Eo).
  pose proof (lo_nodup _ _ Hw) as [Hp _]%NoDup_cons.
  unfold end_connection, mbind, R_bind. rewrite (deref_Some _ _ _ Ec), Eo. destruct o as [id|].
  - destruct (live_known _ _ _ _ _ (lo_engine _ _ Hw) Hl) as [x Ex].
    pose proof (on_session_result id x w (lo_engine _ _ Hw) Ex) as Hres. destruct (so_disconnect x).2 as [[]|e] eqn:Ed.
    + destruct (on_session_quiet id x w (lo_engine _ _ Hw) Ex Ed) as (w1 & E1 & He & Hev & Hr & Hother).
      rewrite E1. destruct (left_over_delete p l s (Some id) w1) as (w2 & -> & Hw2 & Es & Hback); [by eapply left_over_evolves | by eapply live_stable | by intros ? [= <-]|].
      split; [done|]. intros e (q & s' & id' & x' & Hin & L & Ex' & Ee). apply Hback in L. pose proof (live_back _ _ _ _ _ Hev L) as L0.
      exists q, s', id', x'. rewrite Es, Hother in Ex'; [split_and!; [by right | done..]|]. intros ->. apply Hp.
      by rewrite (lo_one _ _ Hw p q s s' id); [..|by right | exact Hl | exact L0]; [|left].
    + destruct (safe_on_session id so_disconnect law_disconnect w (lo_engine _ _ Hw) ltac:(by exists x)) as (H1 & _).
      destruct (on_session id so_disconnect w) as [w1 r]. simpl in Hres, H1. subst r.
      split; [apply H1|]. exists p, s, id, x. split_and!; [left | done..].
  - unfold mret, R_ret.
    destruct (left_over_delete p l s None w) as (w2 & -> & Hw2 & Es & Hback); [done..|]. split; [done|].
    intros e (q & s' & id' & x' & Hin & L & Ex' & Ee). rewrite Es in Ex'. exists q, s', id', x'. split_and!; [by right | by apply Hback | done..].
Qed.

Lemma left_over_end_all l : forall w, left_over l w ->
  match end_all (S := S) l w with
  | (w', Ok _) => left_over [] w'
  | (w', Throw e) => unbroken w' /\ loud l e w
  end.
Proof.
  induction l as [|p l IH]; intros w Hw; [done|]. pose proof (left_over_end p l w Hw) as H1. simpl. unfold mbind, R_bind.
  destruct (end_connection p w) as [w1 [[]|e]]; [|done]. destruct H1 as [Hw1 Hback]. specialize (IH w1 Hw1).
  destruct (end_all l w1) as [w2 [[]|e]]; [done|]. destruct IH as [? ?]. split; [done | by apply Hback].
Qed.

(** Nothing is left. *)
Definition nothing_left w : Prop :=
  e_heap (engine w) = ∅ /\ e_responder (engine w) = ∅ /\ e_registered (engine w) = ∅ /\ unbroken w.

Lemma left_over_nil w : left_over [] w -> nothing_left w.
Proof.
  intros [G1 _ _ G4 G5 _]. assert (e_heap (engine w) = ∅) as Hh.
  { apply map_eq. intros p. rewrite lookup_empty. apply eq_None_not_Some. intros Hp%G4. by apply elem_of_nil in Hp. }
  split_and!; [done | | | apply G1].
  - apply map_eq. intros id. rewrite lookup_empty. apply eq_None_not_Some. intros [p Hr]. destruct (eo_responder _ _ G1 id p Hr) as (c & Ec & _). by rewrite Hh in Ec.
  - apply set_eq. intros id. split; [|set_solver]. intros Hr. destruct (G5 id Hr) as (p & s & Hp & _). by apply elem_of_nil in Hp.
Qed.

Lemma NoDup_in_order x w : acc_at sg given x w -> NoDup (in_order (conns w)).
Proof.
  intros Hw. unfold in_order. pose proof (NoDup_ascending (dom (conns w))) as Hn. induction Hn as [|s l Hs _ IH]; simpl; [constructor|].
  destruct (conns w !! s) as [p|] eqn:E; [|exact IH]. apply NoDup_cons. split; [|exact IH]. intros (s' & Hin & E')%list_elem_of_omap.
  destruct (acc_live _ _ _ _ _ _ Hw E) as [o L], (acc_live _ _ _ _ _ _ Hw E') as [o' L']. destruct (live_unique _ _ _ _ _ _ L L'). congruence.
Qed.

Lemma acc_left_over w : acc_ok w -> left_over (in_order (conns w)) w.
Proof.
  intros Hw. assert (forall p, p ∈ in_order (conns w) <-> exists s, conns w !! s = Some p) as Hin.
  { intros p. unfold in_order. rewrite list_elem_of_omap. split; [intros (s & _ & E); by exists s|]. intros (s & E). exists s. split; [|done].
    apply elem_of_ascending, elem_of_dom. by exists p. }
  split.
  - apply Hw.
  - by eapply NoDup_in_order.
  - by eapply conns_live.
  - intros p Hp. apply Hin. by apply (ao_heap _ _ _ _ Hw).
  - intros id Hr. destruct (ao_registered _ _ _ _ Hw id Hr) as (s & p & E & L). exists p, s. split; [apply Hin; by exists s | done].
  - intros p q s s' id [s1 E1]%Hin [s2 E2]%Hin L L'. destruct (acc_live _ _ _ _ _ _ Hw E1) as [o L1], (acc_live _ _ _ _ _ _ Hw E2) as [o' L2].
    destruct (live_unique _ _ _ _ _ _ L L1) as [-> _], (live_unique _ _ _ _ _ _ L' L2) as [-> _].
    rewrite (ao_one _ _ _ _ Hw s1 p s2 q id E1 E2 L L') in E1. congruence.
Qed.

Lemma drop_all_ends l : forall w, exists m, drop_all (S := S) l w = (mkWorld m (w_kernel w) (w_client w), Ok ()).
Proof.
  induction l as [|s l IH]; intros w; [exists (w_mon w); by destruct w|]. simpl. unfold mbind, R_bind, drop_socket, on_mon.
  destruct (mon_drop s (w_mon w)) as [b m]. destruct (IH (mkWorld m (w_kernel w) (w_client w))) as [m' E]. exists m'. exact E.
Qed.

(** How the acceptor's thread ends: an exception is that of a session's disconnection. *)
Lemma finish_ends w :
  acc_ok w ->
  match finish (S := S) w with
  | (w', Ok _) =>
      nothing_left w' /\ conns w' = ∅ /\ a_server (transport w') = false /\
      k_closed_twice (w_kernel w') = [] /\ k_open (w_kernel w') = given ∖ {[sg]}
  | (w', Throw e) => unbroken w' /\ k_closed_twice (w_kernel w') = [] /\ loud (in_order (conns w)) e w
  end.
Proof.
  intros Hw. pose proof (left_over_end_all _ w (acc_left_over w Hw)) as Hend.
  pose proof (does_end_all true (in_order (conns w)) w) as Hd. apply (mon_inv_acts sg given) in Hd; [|apply Hw].
  unfold finish, disconnectRemaining, mbind, R_bind, astate, gets. fold (conns w).
  destruct (end_all (in_order (conns w)) w) as [w1 [[]|e]]; simpl in Hd; [|destruct Hend; by split_and!; [|apply Hd|]].
  rename Hend into Hw1.
  set (w2 := (on_transport (S := S) (with_accepted ∅) w1).1). assert (mon_inv sg given w2) as Hm2 by by eapply mon_inv_ext; [..|exact Hd].
  destruct (drop_all_ends (ascending (dom (a_socketToInfo (transport w2)))) w2) as [m E2].
  pose proof (does_drop_all true (ascending (dom (a_socketToInfo (transport w2)))) w2) as Hd2. rewrite E2 in Hd2.
  apply (mon_inv_acts sg given) in Hd2; [|exact Hm2]. simpl in Hd2. destruct (destroy_inv _ _ _ Hd2) as [Ho Hc]. simpl in Ho, Hc.
  change (on_transport (S := S) (with_accepted ∅) w1) with (w2, Ok ()). unfold server_close, mbind, R_bind, astate, gets. rewrite E2.
  simpl. split_and!; [by apply (left_over_nil w1) | done | done | exact Hc | exact Ho].
Qed.
End Steps.

(** ** Runs *)

Section Runs.
Context {S : Type} `{SI : SessionInterface S} `{CL : Clocks} `{AD : Addresses} (sessionSettings : SessionSettings).
Abbreviation W := (World (Engine S * Acceptor)).
Implicit Types (w : W).

(** [SocketServer(1)] has the monitor, with the two ends of its signals. *)
Definition listen_start (sessions : gmap str S) (maxPending ticks sg it : Z) (k : Kernel) : W :=
  start_world 1 ticks sg it k (new_engine sessions, new_acceptor (dom sessions) maxPending).

(** Every step ends; other threads only call what sends. *)
Inductive acc_run (w0 : W) : W -> Prop :=
| acc_new : acc_run w0 w0
| acc_listen w w' : acc_run w0 w -> onInitialize sessionSettings w = (w', Ok ()) -> acc_run w0 w'
| acc_pass w w' drops poll b : acc_run w0 w -> a_pass drops poll w = (w', Ok b) -> acc_run w0 w'
| acc_poll w w' drops b : acc_run w0 w -> a_onPoll drops w = (w', Ok b) -> acc_run w0 w'
| acc_call w id f : acc_run w0 w -> is_Some (e_sessions (engine w) !! id) -> sends_only f -> acc_run w0 (on_session id f w).1
| acc_stop w : acc_run w0 w -> acc_run w0 (on_transport (with_stopped true) w).1
| acc_log_out w w' fuel drops began : acc_run w0 w -> a_log_out fuel drops began w = (w', Ok ()) -> acc_run w0 w'.

Context `{SL : !SessionLaws S}.

Lemma listen_start_ok sessions maxPending ticks sg it k :
  can_start sessions sg it k -> acc_at sg (k_open k ∖ {[it]}) None (listen_start sessions maxPending ticks sg it k).
Proof.
  intros [H1 (H2 & H3 & H4) H5 H6]. unfold listen_start, start_world. split; unfold conns, transport, engine; simpl; try done.
  - split; simpl; try done.
    + intros p [c Hc]. by rewrite lookup_empty in Hc.
    + intros id x _ E. rewrite (H1 id x E). split; [done | by intros [? ?]].
  - by apply start_inv.
  - intros p [c Hc]. by rewrite lookup_empty in Hc.
  - intros id. by rewrite elem_of_dom.
Qed.

Lemma acc_run_ok sg given w0 w : acc_at sg given None w0 -> acc_run w0 w -> acc_at sg given None w.
Proof.
  intros Hw0 Hr. induction Hr as [|w w' _ IH E|w w' drops poll b _ IH E|w w' drops b _ IH E|w id f _ IH Hid [Hf _]|w _ IH|w w' fuel drops began _ IH E]; [done|..].
  - pose proof (onInitialize_ok sg given sessionSettings w IH) as Hs. by rewrite E in Hs.
  - pose proof (a_pass_ok sg given drops poll w IH) as Hs. by rewrite E in Hs.
  - pose proof (a_onPoll_ok sg given drops w IH) as Hs. by rewrite E in Hs.
  - pose proof (acc_keeps sg given None (known id) _ (known_stable id) (safe_on_session id f Hf) (does_on_session true id f) w (conj IH Hid)) as Hs.
    destruct (on_session id f w) as [w' [x|e]]; apply Hs.
  - by apply acc_transport.
  - pose proof (a_log_out_ok sg given fuel drops began w IH) as Hs. by rewrite E in Hs.
Qed.

(** C7 Every run of the acceptor, for any sessions that keep their promises and
    whatever the system answers and peers send, keeps this: a session is given to
    at most one connection, and is registered exactly while a connection has it; the
    connection's socket is watched and it is the session's responder, unless the
    socket was dropped and will be reported; the connections on the heap are those of
    the table; and no pointer that dangles is followed, in the next step either. *)
Theorem acceptor_sound sessions maxPending ticks sg it k w :
  can_start sessions sg it k -> acc_run (listen_start sessions maxPending ticks sg it k) w ->
  acc_at sg (k_open k ∖ {[it]}) None w /\
  forall drops poll, e_broken (engine (a_pass drops poll w).1) = false /\ e_broken (engine (a_onPoll drops w).1) = false.
Proof.
  intros Hs Hr. pose proof (acc_run_ok _ _ _ _ (listen_start_ok sessions maxPending ticks sg it k Hs) Hr) as Hw. split; [done|]. intros drops poll. split.
  - pose proof (a_pass_ok _ _ drops poll w Hw) as Hp. destruct (a_pass drops poll w) as [w' [b|e]]; [by eapply acc_unbroken | exact Hp].
  - pose proof (a_onPoll_ok _ _ drops w Hw) as Hp. destruct (a_onPoll drops w) as [w' [b|e]]; [by eapply acc_unbroken | exact Hp].
Qed.

(** C9 After any run of the acceptor its thread ends: every connection is deleted, no
    session is registered or has a responder, no pointer dangled, and every
    descriptor of the server and of the connections is closed, none twice and no
    other. The only way out before that is an exception of the disconnection of a
    session that is connected (a throwing [onLogout], a store that fails when it is
    reset): then that exception ends the thread, no descriptor has been closed twice
    and no pointer dangled. *)
Theorem acceptor_ends sessions maxPending ticks sg it k w :
  can_start sessions sg it k -> acc_run (listen_start sessions maxPending ticks sg it k) w ->
  match finish w with
  | (w', Ok _) =>
      nothing_left w' /\ conns w' = ∅ /\ a_server (transport w') = false /\
      k_closed_twice (w_kernel w') = [] /\ k_open (w_kernel w') = k_open k ∖ {[it]} ∖ {[sg]}
  | (w', Throw e) => unbroken w' /\ k_closed_twice (w_kernel w') = [] /\ loud (in_order (conns w)) e w
  end.
Proof. intros Hs Hr. exact (finish_ends _ _ w (acc_run_ok _ _ _ _ (listen_start_ok sessions maxPending ticks sg it k Hs) Hr)). Qed.
End Runs.

(** ** A run *)

(** ME listens on a port with descriptor 6. At the first poll YOU connects, with
    descriptor 7; at the second that is writable, and the third brings YOU's Logon. *)
#[local] Instance ex_clocks : Clocks := {
  monotonicMillis n := 1000 * Z.of_nat n;
  time_ n := Z.of_nat n;
  utc_now n := SessionExample.ex_now
}.

#[local] Instance ex_addresses : Addresses := {
  socket_hostport n s := 5001;
  socket_peername n s := lit "10.0.0.1";
  socket_error n := lit "Address already in use"
}.

Definition ex_listener : SessionBox MemoryStore unit :=
  mkSessionBox SessionExample.ex_env
    (Session.mkWorld (SessionState.set_initiate false (Session.w_state SessionExample.ex_start)) [] false tt 0 []) ∅.
Definition ex_listeners : gmap str (SessionBox MemoryStore unit) := {[ex_name := ex_listener]}.
Definition ex_ports : SessionSettings :=
  mkSessionSettings [(SessionExample.ex_id, ex_settings [("SocketAcceptPort", "5001")]%string)] default_Dictionary false.

Definition ex_arrivals : list poll_outcome :=
  [PollReports [no_events; ex_readable]; PollReports [no_events; no_events; ex_writable];
   PollReports [no_events; no_events; ex_readable]].

Definition ex_peer (recvs : list recv_outcome) : Kernel := mkKernel {[3; 4]} [] [6; 7] [] recvs ex_arrivals 0 [].

Definition ex_listening recvs := onInitialize ex_ports (listen_start ex_listeners 0 0 3 4 (ex_peer recvs)).
Definition ex_turn (w : World (Engine (SessionBox MemoryStore unit) * Acceptor)) := a_pass 4 false w.
Definition ex_served recvs := ex_turn (ex_turn (ex_turn (ex_listening recvs).1).1).1.

Definition ex_logged_in := ex_served [RecvData SessionExample.ex_logon].

Lemma ex_can_listen recvs : can_start ex_listeners 3 4 (ex_peer recvs).
Proof.
  split; simpl; [|set_solver|set_solver by lia|done]. intros id x. unfold ex_listeners. rewrite lookup_singleton. case_decide; [|done]. by intros [= <-].
Qed.

Lemma ex_acc_run : acc_run ex_ports (listen_start ex_listeners 0 0 3 4 (ex_peer [RecvData SessionExample.ex_logon])) ex_logged_in.1.
Proof.
  set (peer := [RecvData SessionExample.ex_logon]).
  eapply acc_pass; [|exact (ended ex_logged_in true ltac:(by_vm))].
  eapply acc_pass; [|exact (ended (ex_turn (ex_turn (ex_listening peer).1).1) true ltac:(by_vm))].
  eapply acc_pass; [|exact (ended (ex_turn (ex_listening peer).1) true ltac:(by_vm))].
  eapply acc_listen; [apply acc_new | exact (ended (ex_listening peer) () ltac:(by_vm))].
Qed.

(** The run ends with YOU logged on. *)
Lemma acceptor_sound_witness :
  (a_isLoggedOn ex_logged_in.1).2 = Ok true /\ e_registered (engine ex_logged_in.1) = {[ex_name]} /\
  acc_at 3 ({[3; 4]} ∖ {[4]}) None ex_logged_in.1 /\
  forall drops poll, e_broken (engine (a_pass drops poll ex_logged_in.1).1) = false /\ e_broken (engine (a_onPoll drops ex_logged_in.1).1) = false.
Proof.
  split; [by_vm|]. split; [by_vm|].
  exact (acceptor_sound ex_ports ex_listeners 0 0 3 4 _ _ (ex_can_listen [RecvData SessionExample.ex_logon]) ex_acc_run).
Defined.

(** It then ends: the connection and the listener are closed. *)
Lemma acceptor_ends_witness :
  k_open (w_kernel ex_logged_in.1) = {[3; 4; 6; 7]} /\ (finish ex_logged_in.1).2 = Ok () /\
  let w' := (finish ex_logged_in.1).1 in
  nothing_left w' /\ conns w' = ∅ /\ a_server (transport w') = false /\
  k_closed_twice (w_kernel w') = [] /\ k_open (w_kernel w') = {[3; 4]} ∖ {[4]} ∖ {[3]}.
Proof.
  split; [by_vm|]. assert ((finish ex_logged_in.1).2 = Ok ()) as E by by_vm. split; [exact E|].
  pose proof (acceptor_ends ex_ports ex_listeners 0 0 3 4 _ _ (ex_can_listen [RecvData SessionExample.ex_logon]) ex_acc_run) as H.
  revert H E. generalize (finish ex_logged_in.1). intros [w' [[]|e]] H E; [exact H | discriminate E].
Defined.

(** ** A listener that is lost *)

(** The listener reports an error: it is dropped, and then closed. *)
Definition ex_broken_listener : Kernel :=
  mkKernel {[3; 4]} [] [6] [] [] [PollReports [no_events; mkRevents false false false true false]] 0 [].
Definition ex_lost := ex_turn (ex_turn (onInitialize ex_ports (listen_start ex_listeners 0 0 3 4 ex_broken_listener)).1).1.

(** The server keeps it among its listeners, its number being a valid one, and the
    acceptor goes on without a listener: a connection that is given the number later is
    taken for it. *)
Lemma lost_listener_stays :
  ex_lost.2 = Ok true /\ k_open (w_kernel ex_lost.1) = {[3; 4]} /\ m_readSockets (w_mon ex_lost.1) = {[4]} /\
  dom (a_socketToInfo (transport ex_lost.1)) = {[6]} /\ (isListener 6 ex_lost.1).2 = Ok true.
Proof. do 4 (split; [by_vm|]). by_vm. Qed.
