(* ===== verification/AcceptorLogon.v ===== *)
(** * How a connection gets its session

    A peer that connected has no session until its first message, and only a Logon
    gives it one. *)
From stdpp Require Import sorting relations.
From S2P Require Import Prelude DateTime Convertors Values Field FieldMap Message Settings SocketSettings Parser Sockets Monitor MonitorProps Connection Engine EngineProps Triples Initiator Acceptor AcceptorProps InitiatorRuns AcceptorRuns.
From S2P Require SessionExample.
From S2P Require Import MessageStore SessionBox.

(** ** What a computation that ended did *)

Section Ended.
Context {C : Type}.

Lemma bind_Ok {X Y} (m : R C X) (f : X -> R C Y) w w' y :
  (x ← m; f x) w = (w', Ok y) -> exists w1 x, m w = (w1, Ok x) /\ f x w1 = (w', Ok y).
Proof. unfold mbind, R_bind. destruct (m w) as [w1 [x|e]]; [|done]. intros E. by exists w1, x. Qed.

Lemma try_Ok {X} (m : R C X) handler w w' x :
  try_catch m handler w = (w', Ok x) ->
  m w = (w', Ok x) \/ exists e h w1, handler e = Some h /\ m w = (w1, Throw e) /\ h w1 = (w', Ok x).
Proof.
  unfold try_catch. destruct (m w) as [w1 [y|e]]; [by left|]. destruct (handler e) as [h|] eqn:E; [|done]. intros Eh. right. by exists e, h, w1.
Qed.
End Ended.

Section Logon.
Context {S : Type} `{SI : SessionInterface S} `{CL : Clocks} `{AD : Addresses} `{SL : !SessionLaws S}.
Context (sg : Z) (given : gset Z).
Abbreviation W := (World (Engine S * Acceptor)).
Implicit Types (w : W) (id message : str) (s : Z) (p : nat).
Abbreviation acc_ok := (acc_at sg given None).

(** The message a connection reads: one [recv] of its socket, put behind what its
    parser had, and the first message the parser finds there. *)
Definition takes (c : SocketConnection) w message : Prop :=
  exists data parser parser',
    (socket_recv BUFSIZ (w_kernel w)).1 = RecvData data /\ addToStream data (c_parser c) = Ok parser /\
    readFixMessage parser = (parser', Ok (Some message)).

(** The sessions a connection may be given do not change. *)
Lemma readFromSocket_sessions p c w w' :
  e_heap (engine w) !! p = Some c -> readFromSocket p w = (w', Ok ()) ->
  exists c' data, e_heap (engine w') !! p = Some c' /\ c_sessions c' = c_sessions c /\
    (socket_recv BUFSIZ (w_kernel w)).1 = RecvData data /\ addToStream data (c_parser c) = Ok (c_parser c').
Proof.
  intros Ec. unfold readFromSocket. intros (w1 & c1 & E1 & E)%bind_Ok. rewrite (deref_Some _ _ _ Ec) in E1. injection E1 as <- <-.
  apply bind_Ok in E as (w2 & r & E2 & E).
  assert (engine w2 = engine w /\ (socket_recv BUFSIZ (w_kernel w)).1 = r) as [He Er]
    by (unfold on_kernel in E2; destruct (socket_recv BUFSIZ (w_kernel w)); by injection E2 as <- <-).
  destruct r as [[|ch data]|error]; [done| |done]. apply bind_Ok in E as (w3 & parser & E3 & E). injection E3 as <- Ep. injection E as <-.
  exists (with_parser parser c), (ch :: data). simpl. by rewrite lookup_insert_eq.
Qed.

Lemma readMessage_sessions p c msg r w w' :
  e_heap (engine w) !! p = Some c -> connection_readMessage p msg w = (w', Ok r) ->
  exists c', e_heap (engine w') !! p = Some c' /\ c_sessions c' = c_sessions c /\
    (readMessage (c_parser c) msg).2 = r.
Proof.
  intros Ec. unfold connection_readMessage. intros (w1 & c1 & E1 & E)%bind_Ok. rewrite (deref_Some _ _ _ Ec) in E1. injection E1 as <- <-.
  destruct (readMessage (c_parser c) msg) as [parser r0]. apply bind_Ok in E as (w2 & u & E2 & E). injection E2 as <- _. injection E as <- ->.
  exists (with_parser parser c). simpl. by rewrite lookup_insert_eq.
Qed.

Lemma refuses_false p w w' b : (_ ← drop_connection (S := S) p; mret false) w = (w', Ok b) -> b = false.
Proof. intros (w1 & u & _ & E)%bind_Ok. by injection E. Qed.

(** What [getSession] asks of a message. *)
Definition is_logon message id : Prop :=
  exists m, setStringHeader new_Message message = Ok (true, m) /\ reversed_id (m_header m) = Ok id /\ getField (m_header m) FIELD.MsgType = Ok (lit "A").

Lemma getSession_logon message p id w w' :
  getSession (S := S) message p w = (w', Ok (Some id)) -> is_logon message id /\ id ∈ a_sessions (transport w).
Proof.
  unfold getSession. intros (w1 & [found m] & E1 & E)%bind_Ok. injection E1 as <- Em. destruct found; [|done]. cbn [negb] in E.
  apply try_Ok in E as [E|(e & h & w2 & Eh & _ & E)]; [|destruct e; try done; injection Eh as <-; by injection E].
  apply bind_Ok in E as (w2 & id' & E2 & E). injection E2 as <- Eid. apply bind_Ok in E as (w3 & t & E3 & E). injection E3 as <- Et.
  case_bool_decide as Ht; [|done]. cbn [negb] in E. apply bind_Ok in E as (w4 & known & E4 & E). injection E4 as <- Ek.
  destruct known; [|done]. apply bind_Ok in E as (w5 & u & _ & E). injection E as _ <-. subst t. split; [by exists m|].
  exact (bool_decide_eq_true_1 _ Ek).
Qed.

Lemma no_logon id : ~ is_logon [] id.
Proof. intros (m & E & Er & _). vm_compute in E. injection E as <-. vm_compute in Er. discriminate Er. Qed.

Lemma acceptor_read_first p c w w' :
  e_heap (engine w) !! p = Some c -> c_session c = None -> acceptor_read (S := S) p w = (w', Ok true) -> first_message p w = (w', Ok true).
Proof.
  intros Ec Eo. unfold acceptor_read. intros (w1 & c1 & E1 & E)%bind_Ok. rewrite (deref_Some _ _ _ Ec) in E1. injection E1 as <- <-. rewrite Eo in E.
  apply try_Ok in E as [E|(e & h & w2 & Eh & _ & E)]; [done|]. destruct e; try done; injection Eh as <-; by apply refuses_false in E.
Qed.

(** A step that is safe, of which the invariant, the registered sessions and the
    acceptor are wanted. *)
Lemma ended_safe {X} x P (m : R (Engine S * Acceptor) X) w w' (r : X) :
  stable P -> safe None P any m -> does true m -> acc_at sg given x w -> P w -> m w = (w', Ok r) ->
  acc_at sg given x w' /\ P w' /\ e_registered (engine w') = e_registered (engine w) /\ transport w' = transport w.
Proof.
  intros HP Hs Hd Hw HPw E. pose proof (acc_keeps sg given x P m HP Hs Hd w (conj Hw HPw)) as Hk.
  destruct (Hs w (ao_engine _ _ _ _ Hw) HPw) as (_ & Hev & _). rewrite E in Hk, Hev.
  split_and!; [apply Hk | apply Hk | apply (ev_registered _ _ Hev) | apply (ev_transport _ _ Hev)].
Qed.

(** The part of [first_message] for a session that is free. *)
Lemma bind_logon id s p message w w' id' :
  addressee message = Ok (Some id) -> acc_at sg given (Some s) w -> named id s p w ->
  (bound ← getSession (S := S) message p;
   _ ← set_session p bound;
   match bound with None => _ ← drop_connection p; mret false | Some id => hand_first p id message end) w = (w', Ok true) ->
  live p s (Some id') w' -> id' = id /\ is_logon message id /\ id ∈ a_sessions (transport w).
Proof.
  intros Ha Hw Hn E Hlive. apply bind_Ok in E as (w1 & bound & E1 & E). apply bind_Ok in E as (w2 & u & E2 & E).
  destruct bound as [id1|]; [|by apply refuses_false in E].
  destruct (getSession_logon _ _ _ _ _ E1) as [Hlogon Hin].
  pose proof (getSession_ok sg given id s p message Ha w (conj Hw Hn)) as Hg. rewrite E1 in Hg. destruct Hg as (Hw1 & -> & Hs1).
  destruct (ended_safe (Some s) (served id s p) _ w1 w2 u (served_stable id s p) ltac:(eapply safe_pre; [apply (set_same s p (Some id)) | by intros w3 (_ & ? & _)])
              (does_set_session true p (Some id)) Hw1 Hs1 E2) as (Hw2 & Hs2 & _).
  pose proof (hand_first_ok sg given id s p message w2 (conj Hw2 Hs2)) as Hh. rewrite E in Hh. destruct Hh as [_ Hl].
  destruct (live_unique _ _ _ _ _ _ (Hl eq_refl) Hlive) as [_ [= ->]]. done.
Qed.

Lemma first_logon s p c id w w' :
  acc_ok w -> conns w !! s = Some p -> e_heap (engine w) !! p = Some c -> c_session c = None ->
  first_message (S := S) p w = (w', Ok true) -> live p s (Some id) w' ->
  id ∈ c_sessions c /\ id ∈ a_sessions (transport w) /\ (id ∉ e_registered (engine w)) /\ exists message, takes c w message /\ is_logon message id.
Proof.
  intros Hw HE Ec Eo E Hlive. destruct (acc_live _ _ _ _ _ _ Hw HE) as (o & c0 & Ec0 & Es & Eo0). rewrite Ec in Ec0. injection Ec0 as <-.
  assert (unnamed s p w) as Hu by (split; [done | by exists c]). unfold first_message in E.
  apply bind_Ok in E as (w1 & [] & E1 & E). destruct (readFromSocket_sessions p c w w1 Ec E1) as (c1 & data & Ec1 & Hs1 & Er & Ea).
  destruct (ended_safe None (unnamed s p) _ w w1 () (unnamed_stable s p) ltac:(eapply safe_pre; [apply (safe_readFromSocket p s None) | by intros w3 (_ & ?)])
              (does_readFromSocket true p) Hw Hu E1) as (Hw1 & Hu1 & Hr1 & Ht1).
  apply bind_Ok in E as (w2 & r & E2 & E). destruct (readMessage_sessions p c1 [] r w1 w2 Ec1 E2) as (c2 & Ec2 & Hs2 & Em).
  destruct (ended_safe None (unnamed s p) _ w1 w2 r (unnamed_stable s p) ltac:(eapply safe_pre; [apply (safe_readMessage p s None) | by intros w3 (_ & ?)])
              (does_readMessage true p []) Hw1 Hu1 E2) as (Hw2 & Hu2 & Hr2 & Ht2).
  destruct r as [more message]. destruct more; cbn [negb] in E.
  2: { injection E as <-. destruct Hu2 as [_ Hl]. by destruct (live_unique _ _ _ _ _ _ Hl Hlive). }
  apply bind_Ok in E as (w3 & found & E3 & E). pose proof (lookup_message_ok message (fun w => w = w2) w2 eq_refl) as Hf. rewrite E3 in Hf. destruct Hf as [-> Hf].
  apply bind_Ok in E as (w4 & c4 & E4 & E). rewrite (deref_Some _ _ _ Ec2) in E4. injection E4 as <- <-.
  apply bind_Ok in E as (w5 & b & E5 & E). destruct b.
  2: { apply bind_Ok in E as (w6 & u & _ & E). apply bind_Ok in E as (w7 & bound & E7 & E). injection E7 as <- <-.
       apply bind_Ok in E as (w8 & u' & _ & E). by apply refuses_false in E. }
  destruct found as [id0|]; [|by injection E5]. assert (w5 = w2 /\ free_name id0 w2 /\ id0 ∈ c_sessions c2) as (-> & Hfree & Hin).
  { unfold isValidSession, mbind, R_bind, gets in E5. injection E5 as <- Hb.
    rewrite andb_true_iff, negb_true_iff, bool_decide_eq_false, bool_decide_eq_true in Hb. tauto. }
  destruct (Hf id0 eq_refl) as [Ha Hk]. destruct Hu2 as [HE2 Hl2].
  destruct (set_session_live p s None (Some id0) w2 Hl2) as (c3 & Ec3 & Es3 & Eo3 & Eset). rewrite Ec2 in Ec3. injection Ec3 as <-.
  assert (no_responder p w2) as Hno by (by eapply live_no_responder; [apply acc_weaken|]).
  destruct (rebind_ok sg given s p None (Some id0) c2 w2 (conj (acc_weaken _ _ _ _ Hw2) HE2) Hno Ec2 Es3 Eo3) as ([Hw6 HE6] & Hl6 & Hno6); [done | by intros ? [= <-]|].
  unfold mbind at 1, R_bind at 1 in E. rewrite Eset in E.
  destruct (bind_logon id0 s p message _ w' id Ha Hw6 ltac:(by split_and!) E Hlive) as (-> & Hlogon & Hknown).
  split_and!; [by rewrite <- Hs1, <- Hs2 | | |].
  - change (id0 ∈ a_sessions (transport w2)) in Hknown. by rewrite <- Ht1, <- Ht2.
  - unfold free_name in Hfree. by rewrite <- Hr1, <- Hr2.
  - exists message. split; [|done]. unfold readMessage in Em. destruct (readFixMessage (c_parser c1)) as [parser' [[s'|]|e]] eqn:Ef;
      simpl in Em; injection Em as Em; [subst s' | ..]; try done; [by exists data, (c_parser c1), parser' | subst message; by apply no_logon in Hlogon].
Qed.
End Logon.

(** ** Only a Logon gives a session *)

(** C8 In any run of the acceptor, a connection that had no session and has one when
    its socket was read got it by the message it took from that socket: the first message
    in what [recv] gave, behind what its parser had, is a Logon whose sender and target are
    the session's target and sender. That session is one of the acceptor's and of the port the
    connection was accepted on, no connection served it before, and it is registered now,
    the connection being its responder unless the socket was dropped meanwhile. *)
Theorem only_logon_binds {S} `{SI : SessionInterface S} `{CL : Clocks} `{AD : Addresses} `{SL : !SessionLaws S}
    (sessionSettings : SessionSettings) (sessions : gmap str S) maxPending ticks sg it k w w' s p c id :
  can_start sessions sg it k -> acc_run sessionSettings (listen_start sessions maxPending ticks sg it k) w ->
  conns w !! s = Some p -> e_heap (engine w) !! p = Some c -> c_session c = None ->
  a_onData s w = (w', Ok true) -> live p s (Some id) w' ->
  id ∈ c_sessions c /\ id ∈ a_sessions (transport w) /\ (id ∉ e_registered (engine w)) /\ (exists message, takes c w message /\ is_logon message id) /\
  id ∈ e_registered (engine w') /\ serves s p id w'.
Proof.
  intros Hs Hr HE Ec Eo E Hlive. pose proof (acc_run_ok _ _ _ _ _ (listen_start_ok sessions maxPending ticks sg it k Hs) Hr) as Hw.
  pose proof (a_onData_ok _ _ s w Hw) as Hok. rewrite E in Hok. simpl in Hok.
  unfold a_onData in E. apply bind_Ok in E as (w1 & o & E1 & E). injection E1 as <- <-. fold (conns w) in E. rewrite HE in E.
  pose proof E as Eread. apply (acceptor_read_first p c w w' Ec Eo) in E. destruct (first_logon _ _ s p c id w w' Hw HE Ec Eo E Hlive) as (H1 & H2 & H3 & H4).
  assert (is_Some (e_heap (engine w') !! p)) as Hheap by (destruct Hlive as (c' & Ec' & _); by exists c').
  destruct (ao_heap _ _ _ _ Hok p Hheap) as [s' E']. destruct (ao_conn _ _ _ _ Hok s' p E') as (o & Hl & _ & [?|Hor]); [done|].
  destruct (live_unique _ _ _ _ _ _ Hlive Hl) as [<- <-]. by destruct (Hor id eq_refl).
Qed.

#[local] Existing Instances AcceptorRuns.ex_clocks AcceptorRuns.ex_addresses.

(** YOU is connected, and its Logon arrives. *)
Definition ex_accepted := ex_turn (ex_turn (ex_listening [RecvData SessionExample.ex_logon]).1).1.
Definition ex_bound := a_onData 7 ex_accepted.1.

Definition ends_of (c : SocketConnection) : Z * option str := (c_socket c, c_session c).

Lemma ends_live {S T} `{SessionInterface S} (w : World (Engine S * T)) p s o :
  ends_of <$> (e_heap (engine w) !! p) = Some (s, o) -> live p s o w.
Proof. destruct (e_heap (engine w) !! p) as [c|] eqn:E; [|done]. intros [= <- <-]. by exists c. Qed.

Lemma ex_accepted_run : acc_run ex_ports (listen_start ex_listeners 0 0 3 4 (ex_peer [RecvData SessionExample.ex_logon])) ex_accepted.1.
Proof.
  set (peer := [RecvData SessionExample.ex_logon]).
  eapply acc_pass; [|exact (ended (ex_turn (ex_turn (ex_listening peer).1).1) true ltac:(by_vm))].
  eapply acc_pass; [|exact (ended (ex_turn (ex_listening peer).1) true ltac:(by_vm))].
  eapply acc_listen; [apply acc_new | exact (ended (ex_listening peer) () ltac:(by_vm))].
Qed.

Lemma ex_before : live 0 7 None ex_accepted.1.
Proof. apply ends_live. vm_compute. reflexivity. Qed.
Lemma ex_after : live 0 7 (Some ex_name) ex_bound.1.
Proof. apply ends_live. vm_compute. reflexivity. Qed.
Lemma ex_connection : conns ex_accepted.1 !! 7 = Some 0%nat.
Proof. vm_compute. reflexivity. Qed.

Lemma only_logon_binds_witness :
  exists c, ex_name ∈ c_sessions c /\ ex_name ∈ a_sessions (transport ex_accepted.1) /\ (ex_name ∉ e_registered (engine ex_accepted.1)) /\
    (exists message, takes c ex_accepted.1 message /\ is_logon message ex_name) /\ ex_name ∈ e_registered (engine ex_bound.1) /\ serves 7 0 ex_name ex_bound.1.
Proof.
  destruct ex_before as (c & Ec & _ & Eo). exists c.
  exact (only_logon_binds ex_ports ex_listeners 0 0 3 4 _ ex_accepted.1 ex_bound.1 7 0 c ex_name (ex_can_listen [RecvData SessionExample.ex_logon])
           ex_accepted_run ex_connection Ec Eo (ended ex_bound true ltac:(by_vm)) ex_after).
Defined.
