(* ===== verification/Startup.v ===== *)
(** * Sessions of a transport, from its settings ([src/C++/Initiator.cpp], [Acceptor.cpp])

    [initialize], which the constructor of a transport calls: a session for each
    session of the settings that is of the transport's kind, made by one factory; when
    anything throws, those made before are deleted. *)
From S2P Require Import Prelude Convertors Values DateTime TimeConvertors TimeRange DictData SessionID TextMap Settings SettingsText.
From S2P Require Import Registry MessageStore SessionState Session SessionFactory FactoryProps.
From S2P Require Sockets Engine SessionBox Initiator Acceptor InitiatorRuns.

(** ** [initialize] *)

(** [m_sessionIDs] and [m_sessions], these with the addresses of the objects. *)
Record Transport (S : Type) := mkTransport {
  m_sessionIDs : list (SessionID * unit);
  m_sessions : list (SessionID * (Z * SessionObject S))
}.
Arguments mkTransport {S}.
Arguments m_sessionIDs {S}.
Arguments m_sessions {S}.

Section Initialize.
Context {S : Type} `{MessageStore S}.
Context (read_dictionary : str -> bool -> result DataDictionary).
Context (create_store : DateTime -> SessionID -> result S).
Context (create_log : option (SessionID -> result unit)).
Context (onCreate : SessionID -> result unit).
Context (clock : nat -> DateTime).
Context (localtime : Z -> tm).
(** Where the objects are put that are created. *)
Context (news : nat -> Z).
Abbreviation create := (create read_dictionary create_store create_log onCreate clock localtime).

(** What the loops of the two transports differ in: the kind of their sessions, and
    what they read of a session's settings before they make it. *)
Record Kind := mkKind { kind_name : str; kind_check : Dictionary -> result unit }.

Definition initiator_kind : Kind := mkKind (lit "initiator") (fun d => _ ← Initiator.reconnectInterval d; mret ()).
Definition acceptor_kind : Kind := mkKind (lit "acceptor") (fun _ => mret ()).

(** One turn of the loop. *)
Definition make_session (kind : Kind) (settings : SessionSettings) (i : SessionID) (w : World) (t : Transport S)
    : World * Transport S * result unit :=
  let found :=
    d ← settings_of settings i;
    connectionType ← getString d CONNECTION_TYPE false;
    if negb (bool_decide (connectionType = kind_name kind)) then mret None
    else _ ← kind_check kind d; mret (Some d) in
  match found with
  | Throw e => (w, t, Throw e)
  | Ok None => (w, t, Ok ())
  | Ok (Some d) =>
      let ids := tm_set m_frozenString i () (m_sessionIDs t) in
      let address := news (length (m_sessions t)) in
      match create i d address w with
      | (w, Throw e) => (w, mkTransport ids (m_sessions t), Throw e)
      | (w, Ok o) => (w, mkTransport ids (tm_set m_frozenString i (address, o) (m_sessions t)), Ok ())
      end
  end.

Fixpoint make_sessions (kind : Kind) (settings : SessionSettings) (l : list SessionID) (w : World) (t : Transport S)
    : World * Transport S * result unit :=
  match l with
  | [] => (w, t, Ok ())
  | i :: l =>
      match make_session kind settings i w t with
      | (w, t, Ok _) => make_sessions kind settings l w t
      | r => r
      end
  end.

(** [delete session.second], for each. *)
Definition delete_all (l : list (SessionID * (Z * SessionObject S))) (r : Registry) : Registry :=
  fold_left (fun r p => destroy r p.1 p.2.1) l r.

(** The part in the [try] block; [first] is what is read before the loop. *)
Definition make_transport {X} (kind : Kind) (first : result X) (settings : SessionSettings) (w : World) : World * Transport S * result X :=
  let t := mkTransport [] [] in
  let sessions := getSessions settings in
  match guard_or (negb (bool_decide (sessions = []))) (ConfigError (lit "No sessions defined")) with
  | Throw e => (w, t, Throw e)
  | Ok _ =>
      match first with
      | Throw e => (w, t, Throw e)
      | Ok x =>
          match make_sessions kind settings sessions w t with
          | (w, t, Throw e) => (w, t, Throw e)
          | (w, t, Ok _) =>
              (w, t, if bool_decide (m_sessions t = []) then Throw (ConfigError (lit "No sessions defined for " ++ kind_name kind)) else Ok x)
          end
      end
  end.

(** With the handler of all exceptions. *)
Definition initialize {X} (kind : Kind) (first : result X) (settings : SessionSettings) (w : World) : World * result (Transport S * X) :=
  match make_transport kind first settings w with
  | (w, t, Ok x) => (w, Ok (t, x))
  | (w, t, Throw e) => (mkWorld (w_dictionaries w) (delete_all (m_sessions t) (w_registry w)), Throw e)
  end.

(** The initiator has its sessions disconnected; the acceptor reads the bound on
    connections that have not logged on. *)
Definition initialize_initiator (settings : SessionSettings) : World -> World * result (Transport S * unit) :=
  initialize initiator_kind (mret ()) settings.
Definition initialize_acceptor (settings : SessionSettings) : World -> World * result (Transport S * Z) :=
  initialize acceptor_kind (Acceptor.read_maxPending (m_defaults settings)) settings.

(** The destructor deletes the sessions. *)
Definition destroy_transport (t : Transport S) (r : Registry) : Registry := delete_all (m_sessions t) r.
End Initialize.

(** ** The sessions a transport starts with *)

Section Boxes.
Context {S A : Type}.
Context (application : Application A) (timestamper system_clock : nat -> DateTime) (localtime : Z -> tm) (responder_sends : str -> bool) (a : A).

(** A session that was just made, with the application it calls: it has no responder. *)
Definition box_of (o : SessionObject S) : SessionBox.SessionBox S A :=
  SessionBox.mkSessionBox (mkEnv A (o_config o) application timestamper system_clock localtime responder_sends)
    (Session.mkWorld (o_state o) [] false a 0 []) (list_to_set (map fst (m_allowedRemoteAddresses o))).

Definition boxes (t : Transport S) : gmap str (SessionBox.SessionBox S A) :=
  list_to_map (map (fun q => (m_frozenString q.1, box_of q.2.2)) (m_sessions t)).

(** They are what the runs of [InitiatorRuns] and [AcceptorRuns] start from. *)
Lemma boxes_can_start `{!MessageStore S} t sg it k :
  sg <> it -> sg ∈ Sockets.k_open k -> it ∈ Sockets.k_open k -> (forall s, s ∈ Sockets.k_open k -> 0 <= s) -> Sockets.k_closed_twice k = [] ->
  InitiatorRuns.can_start (H := SessionBox.session_interface) (boxes t) sg it k.
Proof.
  intros H1 H2 H3 H4 H5. split; [|done|done|done]. intros id x Hx%elem_of_list_to_map_2. apply list_elem_of_In, in_map_iff in Hx as (q & [= _ <-] & _). done.
Qed.
End Boxes.

(** ** Deleting what was made *)

Lemma tm_erase_comm {K A} (text : K -> str) k k' (m : list (K * A)) :
  text k <> text k' -> tm_erase text k (tm_erase text k' m) = tm_erase text k' (tm_erase text k m).
Proof.
  intros Hne. induction m as [|[k1 v] m IH]; [done|]. simpl.
  repeat (case_bool_decide; simpl); try congruence.
Qed.

Lemma removeSession_parts r i s :
  removeSession r i s =
    mkRegistry (if bool_decide (tm_find id_text i (s_sessions r) = Some s) then tm_erase id_text i (s_sessions r) else s_sessions r)
      (if bool_decide (tm_find id_text i (s_sessions r) = Some s) then tm_erase id_text i (s_sessionIDs r) else s_sessionIDs r)
      (if bool_decide (tm_find id_text i (s_registered r) = Some s) then tm_erase id_text i (s_registered r) else s_registered r).
Proof.
  unfold removeSession. destruct (bool_decide (tm_find id_text i (s_sessions r) = Some s)); cbn [s_sessions s_sessionIDs s_registered];
    destruct (bool_decide (tm_find id_text i (s_registered r) = Some s)); by destruct r.
Qed.

(** Sessions of different identifiers are deleted in any order. *)
Lemma destroy_comm r i s j u : id_text i <> id_text j -> destroy (destroy r i s) j u = destroy (destroy r j u) i s.
Proof.
  intros Hne. unfold destroy. rewrite !removeSession_parts. cbn [s_sessions s_sessionIDs s_registered].
  assert (forall A (m : list (SessionID * A)) (b : bool), tm_find id_text j (if b then tm_erase id_text i m else m) = tm_find id_text j m) as Ej
    by (intros A m []; [by apply tm_find_erase_ne; congruence | done]).
  assert (forall A (m : list (SessionID * A)) (b : bool), tm_find id_text i (if b then tm_erase id_text j m else m) = tm_find id_text i m) as Ei
    by (intros A m []; [by apply tm_find_erase_ne | done]).
  rewrite !Ej, !Ei. f_equal; repeat case_bool_decide; try done; apply tm_erase_comm; congruence.
Qed.

Section Deleting.
Context {S : Type}.
Implicit Types (l : list (SessionID * (Z * SessionObject S))) (r : Registry).

Lemma delete_all_destroy l r i s :
  Forall (fun p => id_text p.1 <> id_text i) l -> destroy (delete_all l r) i s = delete_all l (destroy r i s).
Proof.
  revert r. induction l as [|[j [u o]] l IH]; intros r Hl; [done|]. apply Forall_cons in Hl as [Hj Hl]. simpl. rewrite IH by done. f_equal. by apply destroy_comm.
Qed.

(** Deleting all after one more was made. *)
Lemma delete_all_snoc l r i s o r0 r1 :
  Forall (fun p => id_text p.1 <> id_text i) l -> destroy r1 i s = r -> delete_all l r = r0 ->
  delete_all (l ++ [(i, (s, o))]) r1 = r0.
Proof. intros Hl Hd <-. unfold delete_all. rewrite fold_left_app. simpl. rewrite <- Hd. by apply delete_all_destroy. Qed.
End Deleting.

(** The sessions of settings come in increasing order. *)
Lemma getSessions_increasing s : exists m : list (SessionID * unit), getSessions s = map fst m /\ tm_ordered m_frozenString m.
Proof.
  unfold getSessions. eexists. split; [reflexivity|]. generalize (m_settings s). intros l.
  assert (forall acc : list (SessionID * unit), tm_ordered m_frozenString acc ->
    tm_ordered m_frozenString (fold_left (fun result p => if tm_has m_frozenString p.1 result then result else tm_set m_frozenString p.1 () result) l acc)) as H; [|by apply H].
  induction l as [|p l IH]; intros acc Hacc; [done|]. simpl. apply IH. destruct (tm_has m_frozenString p.1 acc); [done | by apply tm_ordered_set].
Qed.

(** ** All or nothing *)

Section AllOrNothing.
Context {S : Type} `{MessageStore S}.
Context (read_dictionary : str -> bool -> result DataDictionary).
Context (create_store : DateTime -> SessionID -> result S).
Context (create_log : option (SessionID -> result unit)).
Context (onCreate : SessionID -> result unit).
Context (clock : nat -> DateTime).
Context (localtime : Z -> tm).
Context (news : nat -> Z).
Context (news_inj : forall n m, news n = news m -> n = m).
Context (settings : SessionSettings) (kind : Kind).
Abbreviation create := (create read_dictionary create_store create_log onCreate clock localtime).
Abbreviation make_session := (make_session read_dictionary create_store create_log onCreate clock localtime news kind settings).
Abbreviation make_sessions := (make_sessions read_dictionary create_store create_log onCreate clock localtime news kind settings).
Implicit Types (t : Transport S) (w : World) (l : list SessionID).

(** The sessions of the transport's kind. *)
Definition wanted (i : SessionID) : bool :=
  match settings_of settings i with
  | Ok d => match getString d CONNECTION_TYPE false with Ok c => bool_decide (c = kind_name kind) | Throw _ => false end
  | Throw _ => false
  end.

(** What the loop has made of the front [l] of the sessions, in a process whose
    registry was [r0]. *)
Record made (r0 : Registry) l w t (p : Process) : Prop := {
  md_reachable : reachable onCreate p;
  md_registry : w_registry w = p_registry p;
  md_free n : (length (m_sessions t) <= n)%nat -> p_live p !! news n = None;
  md_delete : delete_all (m_sessions t) (w_registry w) = r0;
  md_keys : map fst (m_sessions t) = List.filter wanted l;
  md_each : Forall (fun q => p_live p !! q.2.1 = Some q.1 /\
    exists d, settings_of settings q.1 = Ok d /\ created read_dictionary q.1 d q.2.1 w q.2.2) (m_sessions t);
  md_table : table_ok read_dictionary (w_dictionaries w)
}.

Lemma created_in i d a w w' (o : SessionObject S) :
  created read_dictionary i d a w o -> Registry.lookupSession (w_registry w') i = Some a -> created read_dictionary i d a w' o.
Proof. intros [] ?. by split. Qed.

Lemma create_constructs i d a w w' o :
  create i d a w = (w', Ok o) -> construct onCreate (w_registry w) i a = (w_registry w', Ok ()).
Proof.
  rewrite create_eq. destruct (create_connectionType d) as [c|]; [|done]. cbv zeta. destruct (prepare i d c _) as [[[[pr v] s] h]|]; [|done].
  destruct (SessionFactory.new_Session _ _ _ _ _ i pr _ h a (w_registry w)) as [r [o1|]] eqn:En; [|done]. apply new_Session_Ok in En as (_ & _ & _ & _ & _ & _ & Hc).
  destruct (finish d s v o1); [|done]. by intros [= <- _].
Qed.

(** One more session. *)
Lemma made_create r0 l w t p i d w' o (a := news (length (m_sessions t))) (ids : list (SessionID * unit)) :
  made r0 l w t p -> Forall (fun j => str_ltb (m_frozenString j) (m_frozenString i) = true) l ->
  settings_of settings i = Ok d -> wanted i = true -> create i d a w = (w', Ok o) ->
  exists p', made r0 (l ++ [i]) w' (mkTransport ids (tm_set m_frozenString i (a, o) (m_sessions t))) p'.
Proof.
  intros [H1 H2 H3 H4 H5 H6 H7] Hl Hd Hw Ec. pose proof (create_constructs _ _ _ _ _ _ Ec) as Hc. assert (p_live p !! a = None) as Ha by (by apply H3).
  pose proof (created_as_configured _ _ _ _ _ _ _ _ _ _ _ _ _ H7 H1 H2 Ha Ec) as Hcr. pose proof (reachable_ok _ _ H1) as Hok.
  assert (Forall (fun q => str_ltb (m_frozenString q.1) (m_frozenString i) = true) (m_sessions t)) as Hlt.
  { apply Forall_forall. intros q Hq. rewrite Forall_forall in Hl. apply Hl. assert (q.1 ∈ map fst (m_sessions t)) as Hin by (apply list_elem_of_In, in_map, list_elem_of_In, Hq).
    rewrite H5 in Hin. apply list_elem_of_In, filter_In in Hin as [? _]. by apply list_elem_of_In. }
  exists (mkProcess (w_registry w') (<[a := i]> (p_live p))). rewrite tm_set_last by done.
  assert (reachable onCreate (mkProcess (w_registry w') (<[a := i]> (p_live p)))) as Hr'
    by (eapply reach_step; [exact H1 | apply step_construct; [done | by rewrite <- H2]]).
  split; cbn [m_sessions p_registry p_live]; try done.
  - intros n Hn. rewrite length_app in Hn. simpl in Hn. rewrite lookup_insert_ne by (intros E%news_inj; lia). apply H3. lia.
  - assert (destroy (w_registry w') i a = w_registry w) as Hdel by (eapply destroy_new; [|exact Ha | exact Hc]; by rewrite H2).
    eapply delete_all_snoc; [|exact Hdel|done]. eapply Forall_impl; [exact Hlt|]. simpl. intros q Hq E. by rewrite E, str_ltb_irrefl in Hq.
  - rewrite map_app, H5, List.filter_app. simpl. by rewrite Hw.
  - apply Forall_app. split; [|by constructor; [|constructor]; split; [apply lookup_insert_eq | exists d]].
    rewrite Forall_forall in H6 |- *. intros q Hq. destruct (H6 q Hq) as (Hq1 & d' & Hd' & Hq2).
    assert (<[a := i]> (p_live p) !! q.2.1 = Some q.1) as Hq3 by (rewrite lookup_insert_ne; [done | intros E; congruence]).
    split; [done|]. exists d'. split; [done|]. eapply created_in; [done|]. apply (reg_live _ _ (reachable_ok _ _ Hr')). by exists q.1.
  - destruct (create_table read_dictionary create_store create_log onCreate clock localtime i d a w H7) as [Ht _]. by rewrite Ec in Ht.
Qed.

Lemma made_step r0 l w t p i :
  made r0 l w t p -> Forall (fun j => str_ltb (m_frozenString j) (m_frozenString i) = true) l ->
  match make_session i w t with
  | (w', t', Ok _) => exists p', made r0 (l ++ [i]) w' t' p'
  | (w', t', Throw _) => delete_all (m_sessions t') (w_registry w') = r0
  end.
Proof.
  intros Hm Hl. pose proof Hm as [H1 H2 H3 H4 H5 H6 H7]. unfold Startup.make_session.
  destruct (settings_of settings i) as [d|e] eqn:Ed; cbn [mbind result_bind]; [|done].
  destruct (getString d CONNECTION_TYPE false) as [c|e] eqn:Ec; cbn [mbind result_bind]; [|done].
  assert (wanted i = bool_decide (c = kind_name kind)) as Hw by (unfold wanted; by rewrite Ed, Ec).
  destruct (bool_decide (c = kind_name kind)) eqn:Eb; cbn [negb].
  - destruct (kind_check kind d) as [u|e]; cbn [mbind result_bind]; [|done].
    change (mret (Some d)) with (@Ok _ (Some d)). cbv iota beta.
    destruct (create i d (news (length (m_sessions t))) w) as [w' [o|e]] eqn:Ecr; [by eapply made_create|]. cbn [m_sessions].
    rewrite <- H4. f_equal. by eapply (create_failure_clean read_dictionary create_store create_log onCreate clock localtime i d _ w w' e p); [..|exact Ecr]; [| |by apply H3].
  - exists p. split; try done. rewrite List.filter_app. simpl. by rewrite Hw, app_nil_r.
Qed.

Lemma made_all r0 m : forall l w t p,
  made r0 l w t p -> tm_ordered m_frozenString (map (fun i => (i, ())) l ++ m) ->
  match make_sessions (map fst m) w t with
  | (w', t', Ok _) => exists p', made r0 (l ++ map fst m) w' t' p'
  | (w', t', Throw _) => delete_all (m_sessions t') (w_registry w') = r0
  end.
Proof.
  induction m as [|[i []] m IH]; intros l w t p Hm Ho; [exists p; simpl; by rewrite app_nil_r|]. simpl.
  assert (Forall (fun j => str_ltb (m_frozenString j) (m_frozenString i) = true) l) as Hl.
  { apply tm_ordered_app in Ho as (_ & _ & Ho). rewrite Forall_map in Ho. eapply Forall_impl; [exact Ho|]. simpl. by intros j [? _]%Forall_cons. }
  pose proof (made_step r0 l w t p i Hm Hl) as Hs. destruct (make_session i w t) as [[w1 t1] [u|e]]; [|done]. destruct Hs as [p1 Hp1].
  assert (tm_ordered m_frozenString (map (fun i => (i, ())) (l ++ [i]) ++ m)) as Ho' by (by rewrite map_app, <- app_assoc).
  pose proof (IH (l ++ [i]) w1 t1 p1 Hp1 Ho') as Hi. by rewrite <- app_assoc in Hi.
Qed.

End AllOrNothing.

(** ** Examples *)

(** Two initiators and an acceptor; the second initiator's heartbeat is [interval]. *)
Definition ex_settings (interval : string) : SessionSettings :=
  let text := text_of (map lit ["[DEFAULT]"; "BeginString=FIX.4.2"; "SenderCompID=ME"; "UseDataDictionary=N"; "StartTime=00:00:00"; "EndTime=00:00:00";
    "[SESSION]"; "ConnectionType=initiator"; "TargetCompID=THEM"; "HeartBtInt=" ++ interval;
    "[SESSION]"; "ConnectionType=acceptor"; "TargetCompID=HIM";
    "[SESSION]"; "ConnectionType=initiator"; "TargetCompID=HER"; "HeartBtInt=30"]%string) in
  match read_SessionSettings no_environment text (new_SessionSettings false) with Ok s => s | Throw _ => new_SessionSettings false end.

Definition ex_news (n : nat) : Z := 100 + Z.of_nat n.

Definition ex_initialize (interval : string) : World * result (Transport MemoryStore * unit) :=
  initialize_initiator ex_read_dictionary ex_kept_store None ex_onCreate (fun _ => ex_today) (fun _ => Build_tm 0 0 0 0 0 0) ex_news
    (ex_settings interval) (mkWorld [] empty_registry).

Example two_initiators :
  match (ex_initialize "60").2 with Ok (t, _) => map (fun q => (m_frozenString q.1, q.2.1)) (m_sessions t) | Throw _ => [] end =
    [(lit "FIX.4.2:ME->HER", 100); (lit "FIX.4.2:ME->THEM", 101)].
Proof. vm_compute. reflexivity. Qed.

