(* ===== verification/Http.v ===== *)
(** * Requests to the status page ([src/C++/HttpMessage.h], [HttpMessage.cpp], [HttpParser.h], [HttpParser.cpp], [HtmlBuilder.h])

    A request's line, the two headers the server looks at and the parameters of its
    target; the parser that cuts requests out of a stream; the text of responses. *)
From S2P Require Import Prelude Convertors Values TextMap SessionID Settings.

(** ** [HttpMessage] *)

Record HttpMessage := mkHttpMessage {
  m_root : str;
  m_parameters : list (str * str);    (* a map from keys to values *)
  m_method : str;
  m_host : str;
  m_origin : str
}.

Definition CRLF : str := ["013"; "010"]%char.
Definition http_npos : Z := 2 ^ 64 - 1.

(** [getParameterString()] *)
Fixpoint joined (first : bool) (l : list (str * str)) : str :=
  match l with
  | [] => []
  | (key, value) :: l => lit (if first then "?" else "&") ++ key ++ lit "=" ++ value ++ joined false l
  end.

Definition getParameterString (m : HttpMessage) : str := joined true (m_parameters m).
Definition toString (m : HttpMessage) : str := m_root m ++ getParameterString m.

Definition hasParameter (m : HttpMessage) (key : str) : bool := tm_has id key (m_parameters m).
Definition getParameter (m : HttpMessage) (key : str) : result str :=
  of_option (std_logic_error (lit "Parameter " ++ key ++ lit " not found")) (tm_find id key (m_parameters m)).

Definition with_parameters (l : list (str * str)) (m : HttpMessage) : HttpMessage := mkHttpMessage (m_root m) l (m_method m) (m_host m) (m_origin m).
Definition addParameter (key value : str) (m : HttpMessage) : HttpMessage := with_parameters (tm_set id key value (m_parameters m)) m.
Definition removeParameter (key : str) (m : HttpMessage) : HttpMessage := with_parameters (tm_erase id key (m_parameters m)) m.

(** [s.rfind(needle)] *)
Fixpoint rfind (needle s : str) : option nat :=
  match s with
  | [] => if prefix_at needle [] then Some 0%nat else None
  | _ :: s' => match rfind needle s' with
               | Some i => Some (S i)
               | None => if prefix_at needle s then Some 0%nat else None
               end
  end.

(** One header line: the host and the origin after it. *)
Definition read_header (header : str) (kept : str * str) : str * str :=
  match find (lit ":") header with
  | None => kept
  | Some colon =>
      let name := string_toLower (substr header 0 colon) in
      let value := string_strip (drop (colon + 1) header) in
      if bool_decide (name = lit "host") then (value, kept.2)
      else if bool_decide (name = lit "origin") then (kept.1, value)
      else kept
  end.

(** The loop over header lines; each takes two characters at least. *)
Fixpoint read_headers (fuel : nat) (string : str) (lineStart : nat) (kept : str * str) : result (str * str) :=
  match fuel with
  | O => Throw OutOfFuel
  | S fuel =>
      if (lineStart <? length string)%nat then
        match find_from CRLF string lineStart with
        | None => Ok kept
        | Some lineEnd =>
            if (lineEnd =? lineStart)%nat then Ok kept
            else read_headers fuel string (lineEnd + 2) (read_header (substr string lineStart (lineEnd - lineStart)) kept)
        end
      else Ok kept
  end.

Definition opt_pos (o : option nat) : Z := match o with Some i => Z.of_nat i | None => http_npos end.

(** The loop over parameters: each starts at a question mark or an ampersand. *)
Fixpoint read_parameters (fuel : nat) (parameters : str) (paramPos : option nat) (l : list (str * str)) : result (list (str * str)) :=
  match fuel with
  | O => Throw OutOfFuel
  | S fuel =>
      match paramPos with
      | None => Ok l
      | Some tempPos =>
          match find_from (lit "=") parameters tempPos with
          | None => Ok l
          | Some sepPos =>
              let paramPos := find_from (lit "&") parameters (tempPos + 1) in
              let key := substr_size parameters (tempPos + 1) (Z.of_nat sepPos - Z.of_nat tempPos - 1) in
              let value := substr_size parameters (sepPos + 1) (opt_pos paramPos - Z.of_nat sepPos - 1) in
              read_parameters fuel parameters paramPos (tm_set id key value l)
          end
      end
  end.

(** The target of the request: its root and its parameters. *)
Definition read_target (target : str) : result (str * list (str * str)) :=
  match find (lit "?") target with
  | None => Ok (target, [])
  | Some paramPos =>
      parameters ← read_parameters (length target + 1) (drop paramPos target) (Some 0%nat) [];
      mret (take paramPos target, parameters)
  end.

(** The first line: the method and the target. *)
Definition read_request_line (line : str) : result (str * str) :=
  methodEnd ← of_option (InvalidMessage []) (find (lit " ") line);
  let method := take methodEnd line in
  _ ← guard_or (bool_decide (method = lit "GET") || bool_decide (method = lit "POST")) (InvalidMessage []);
  httpPos ← of_option (InvalidMessage []) (rfind (lit " HTTP") line);
  _ ← guard_or (methodEnd <? httpPos)%nat (InvalidMessage []);
  mret (method, substr line (methodEnd + 1) (httpPos - methodEnd - 1)).

(** [setString], on a message that was cleared; what throws leaves no message. *)
Definition setString (string : str) : result HttpMessage :=
  eolPos ← of_option (InvalidMessage []) (find CRLF string);
  '(method, target) ← read_request_line (substr string 0 eolPos);
  '(host, origin) ← read_headers (length string + 1) string (eolPos + 2) ([], []);
  '(root, parameters) ← read_target target;
  mret (mkHttpMessage root parameters method host origin).

(** ** [createResponse] *)

Definition error_string (error : Z) : str :=
  lit (match error with
       | 100 => "Continue" | 101 => "Switching Protocols"
       | 200 => "OK" | 201 => "Created" | 202 => "Accepted" | 203 => "Non-Authoritative Information" | 204 => "No Content"
       | 205 => "Reset Content" | 206 => "Partial Content"
       | 300 => "Multiple Choices" | 301 => "Moved Permanently" | 302 => "Found" | 303 => "See Other" | 304 => "Not Modified"
       | 305 => "Use Proxy" | 307 => "Temporary Redirect"
       | 400 => "Bad Request" | 401 => "Unauthorized" | 402 => "Payment Required" | 403 => "Forbidden" | 404 => "Not Found"
       | 405 => "Method Not Allowed" | 406 => "Not Acceptable" | 407 => "Proxy Authentication Required" | 408 => "Request Timeout"
       | 409 => "Conflict" | 410 => "Gone" | 411 => "Length Required" | 412 => "Precondition Failed"
       | 413 => "Request Entity Too Large" | 414 => "Request-URI Too Large" | 415 => "Unsupported Media Type"
       | 416 => "Requested Range Not Satisfiable" | 417 => "Expectation Failed"
       | 500 => "Internal Server Error" | 501 => "Not Implemented" | 502 => "Bad Gateway" | 503 => "Service Unavailable"
       | 504 => "Gateway Timeout" | 505 => "HTTP Version not supported"
       | _ => "Unknown"
       end)%string.

Definition quote_mark : str := ["034"%char].

Definition createResponse (error : Z) (text : str) : str :=
  let status := to_string_int error ++ lit " " ++ error_string error in
  lit "HTTP/1.1 " ++ status ++ CRLF ++ lit "Server: QuickFIX" ++ CRLF ++
  lit "Content-Type: text/html; charset=iso-8859-1" ++ CRLF ++ CRLF ++
  lit "<!DOCTYPE HTML PUBLIC " ++ quote_mark ++ lit "-//IETF//DTD HTML 2.0//EN" ++ quote_mark ++ lit ">" ++
  (if (error <? 200) || (300 <=? error) then
     lit "<HTML><HEAD><TITLE>" ++ status ++ lit "</TITLE></HEAD><BODY><H1>" ++ status ++ lit "</H1>" ++ text ++ lit "</BODY></HTML>"
   else text).

(** ** [HttpParser] *)

(** [readHttpMessage]: the buffer after it, whether there is a request, and it. *)
Definition readHttpMessage (buffer : str) : str * result (option str) :=
  if (length buffer <? 4)%nat then (buffer, Ok None)
  else if (2048 <? length buffer)%nat then (buffer, Throw (MessageParseError []))
  else match find (CRLF ++ CRLF) buffer with
       | None => (buffer, Ok None)
       | Some pos => (drop (pos + 4) buffer, Ok (Some (take (pos + 4) buffer)))
       end.

(** ** [HtmlBuilder] *)

(** An element: its attributes, and what is written before it ends. *)
Definition open_tag (name attributes : str) : str := lit "<" ++ name ++ attributes ++ lit ">".
Definition close_tag (name : str) : str := lit "</" ++ name ++ lit ">".
Definition element (name attributes content : str) : str := open_tag name attributes ++ content ++ close_tag name.

Definition attribute (name value : str) : str := lit " " ++ name ++ lit "='" ++ value ++ lit "'".
Definition html_A (href text : str) : str := element (lit "A") (attribute (lit "href") href) text.
Definition html_CENTER (content : str) : str := element (lit "CENTER") [] content.
Definition html_TR (content : str) : str := element (lit "TR") [] content.
Definition html_TD (content : str) : str := element (lit "TD") [] content.
Definition html_HR : str := element (lit "HR") [] [].
Definition NBSP : str := lit "&nbsp;".
Definition table_attributes : str :=
  attribute (lit "border") (lit "1") ++ attribute (lit "cellspacing") (lit "2") ++ attribute (lit "width") (lit "100%").

Definition escape_char (c : ascii) : str :=
  if bool_decide (c = "&"%char) then lit "&amp;"
  else if bool_decide (c = "'"%char) then lit "&#39;"
  else if bool_decide (c = "034"%char) then lit "&quot;"
  else if bool_decide (c = "<"%char) then lit "&lt;"
  else if bool_decide (c = ">"%char) then lit "&gt;"
  else [c].

(** [escapeAttribute] *)
Definition escapeAttribute (value : str) : str := value ≫= escape_char.

Definition postButton (action text : str) : str :=
  lit "<FORM method='post' action='" ++ escapeAttribute action ++ lit "' style='display:inline'>" ++
  lit "<BUTTON type='submit'>" ++ escapeAttribute text ++ lit "</BUTTON></FORM>".
