(* ===== verification/HttpAdmin.v ===== *)
(** * The status page ([src/C++/HttpConnection.h], [HttpConnection.cpp], [HttpServer.cpp])

    A connection reads one request, checks that it may do what it asks, carries it out
    on the sessions and answers with a page. Sessions are those of [SessionBox], in the
    order of their identifiers; what a page has written in its two streams is state,
    since an exception leaves what was written before it. *)
From S2P Require Import Prelude DateTime Convertors Values TextMap SessionID Sockets Monitor Http.
From S2P Require Session SessionState SessionFactory MessageStore.
From S2P Require Import Engine SessionBox.

(** What [inet_pton] says of a text, for either family. *)
Class InternetAddresses := { inet_pton : str -> bool }.

Record HttpConnection := mkHttpConnection {
  hc_socket : Z;
  hc_buffer : str;      (* [m_parser] *)
  hc_done : bool
}.

(** The connection, the sessions, and the head and the body of the page being written. *)
Record Admin (S A : Type) := mkAdmin {
  ad_connection : HttpConnection;
  ad_sessions : list (SessionID * SessionBox S A);
  ad_h : str;
  ad_b : str
}.
Arguments mkAdmin {S A}.
Arguments ad_connection {S A}.
Arguments ad_sessions {S A}.
Arguments ad_h {S A}.
Arguments ad_b {S A}.

(** ** Which requests may change something *)

Definition state_parameter (sessionPage : bool) (parameter : str * str) : bool :=
  if bool_decide (parameter.1 = lit "confirm") then negb (bool_decide (parameter.2 = lit "0"))
  else sessionPage && negb (bool_decide (parameter.1 ∈ [lit "BeginString"; lit "SenderCompID"; lit "TargetCompID"; lit "SessionQualifier"])).

Definition hasStateParameter (request : HttpMessage) (sessionPage : bool) : bool := existsb (state_parameter sessionPage) (m_parameters request).

(** The name in a Host header, without its port. *)
Definition host_name (hostHeader : str) : option str :=
  match hostHeader with
  | ch :: rest =>
      if bool_decide (ch = "["%char) then close ← find (lit "]") hostHeader; Some (substr hostHeader 1 (close - 1))
      else Some (match find (lit ":") hostHeader with Some colon => take colon hostHeader | None => hostHeader end)
  | [] => Some []
  end.

Section Admin.
Context {S A : Type} `{!MessageStore.MessageStore S} `{Clocks} `{InternetAddresses}.
Abbreviation R := (R (Admin S A)).
Abbreviation Box := (SessionBox S A).

Definition acceptableHost (hostHeader : str) : bool :=
  match host_name hostHeader with
  | None => false
  | Some host => bool_decide (host = lit "localhost") || inet_pton (c_str host)
  end.

(** The error a request is refused with, 0 for none. *)
Definition checkRequest (request : HttpMessage) : Z :=
  if negb (acceptableHost (m_host request)) then 403
  else if negb (hasStateParameter request (bool_decide (m_root request = lit "/session"))) then 0
  else if negb (bool_decide (m_method request = lit "POST")) then 405
  else if negb (bool_decide (m_origin request = [])) && negb (bool_decide (m_origin request = lit "http://" ++ m_host request)) then 403
  else 0.

(** ** State *)

Definition on_admin (f : Admin S A -> Admin S A) : R unit := on_client f.
Definition with_connection (f : HttpConnection -> HttpConnection) : R unit :=
  on_admin (fun a => mkAdmin (f (ad_connection a)) (ad_sessions a) (ad_h a) (ad_b a)).
Definition with_sessions (l : list (SessionID * Box)) : R unit :=
  on_admin (fun a => mkAdmin (ad_connection a) l (ad_h a) (ad_b a)).
Definition write_h (text : str) : R unit :=
  on_admin (fun a => mkAdmin (ad_connection a) (ad_sessions a) (ad_h a ++ text) (ad_b a)).
Definition write_b (text : str) : R unit :=
  on_admin (fun a => mkAdmin (ad_connection a) (ad_sessions a) (ad_h a) (ad_b a ++ text)).
Definition new_page : R unit := on_admin (fun a => mkAdmin (ad_connection a) (ad_sessions a) [] []).

Definition now_of_page : R DateTime := n ← on_kernel tick; mret (utc_now n).

Definition connection {X} (f : HttpConnection -> X) : R X := gets (fun w => f (ad_connection (w_client w))).
Definition sessions : R (list (SessionID * Box)) := gets (fun w => ad_sessions (w_client w)).

(** An element of the body that ends when its scope does, by an exception too. *)
Definition scope {X} (name attributes : str) (m : R X) : R X :=
  _ ← write_b (open_tag name attributes);
  (fun w => let '(w, r) := m w in ((write_b (close_tag name) w).1, r)) : R X.

(** [catch (std::exception &e) { b << e.what(); }] *)
Definition or_what (m : R unit) : R unit := try_catch m (fun e => if is_exception e then Some (write_b (exn_what e)) else None).

(** ** Calls on sessions *)

Definition lookupSession (sessionID : SessionID) : R (option Box) := l ← sessions; mret (tm_find m_frozenString sessionID l).

(** An operation of a session, on the object. *)
Definition on_box {X} (m : Session.Env A -> Session.M S A X) (box : Box) : Box * result X :=
  let '(w, r) := m (bx_env box) (bx_world box) in (SessionBox.with_world w box, r).

Definition set_config (f : Session.Config -> Session.Config) (box : Box) : Box :=
  let env := bx_env box in
  mkSessionBox (Session.mkEnv A (f (@Session.config A env)) (@Session.application A env) (@Session.timestamper A env) (@Session.system_clock A env)
                  (@Session.localtime A env) (@Session.responder_sends A env)) (bx_world box) (bx_allowed box).

Definition at_session {X} (sessionID : SessionID) (f : Box -> Box * result X) : R X :=
  l ← sessions;
  match tm_find m_frozenString sessionID l with
  | None => raise Undefined
  | Some box => let '(box, r) := f box in _ ← with_sessions (tm_set m_frozenString sessionID box l); lift r
  end.

Definition run_on (sessionID : SessionID) (m : Session.Env A -> Session.M S A unit) : R unit := at_session sessionID (on_box m).
Definition configure (sessionID : SessionID) (f : Session.Config -> Session.Config) : R unit :=
  at_session sessionID (fun box => (set_config f box, Ok ())).

(** ** Sending *)

Definition http_send (msg : str) : R bool :=
  s ← connection hc_socket;
  result ← on_kernel (socket_send s msg);
  mret (0 <=? result).

Definition http_disconnect (error : Z) : R unit :=
  _ ← when (0 <? error) (_ ← http_send (createResponse error []); mret ());
  with_connection (fun c => mkHttpConnection (hc_socket c) (hc_buffer c) true).

(** ** Pages *)

Definition page_title : str := lit "QuickFIX Engine Web Interface".

Definition page_head (request : HttpMessage) : str :=
  element (lit "HEAD") []
    (html_CENTER (element (lit "TITLE") [] page_title ++ element (lit "H1") [] page_title) ++
     html_CENTER (html_A (lit "/") (lit "HOME") ++ NBSP ++ html_A (toString request) (lit "RELOAD")) ++
     html_HR).

(** The part of the parameter [confirm]. *)
Definition confirmed (request : HttpMessage) : bool :=
  match tm_find id (lit "confirm") (m_parameters request) with Some value => negb (bool_decide (value = lit "0")) | None => false end.

Definition meta_refresh (seconds : Z) (url : str) : str :=
  lit "<META http-equiv='refresh' content=" ++ to_string_int seconds ++ lit ";URL='" ++ url ++ lit "'>".

Definition html_H2 (content : str) : str := html_CENTER (element (lit "H2") [] content).

Definition choice (yes_action yes no_href no : str) : str :=
  html_CENTER (lit "[" ++ postButton yes_action yes ++ lit "]" ++ NBSP ++ lit "[" ++ html_A no_href no ++ lit "]").

(** An operation on all sessions, in their order, by the identifiers they had. *)
Fixpoint on_all (m : Session.Env A -> Session.M S A unit) (l : list SessionID) : R unit :=
  match l with [] => mret () | sessionID :: l => _ ← run_on sessionID m; on_all m l end.

(** [processResetSessions] and the three like it. *)
Definition process_all (verb participle : str) (m : Session.Env A -> Session.M S A unit) (request : HttpMessage) : R unit :=
  or_what
    (if confirmed request then
       l ← sessions;
       _ ← on_all m (map fst l);
       _ ← write_h (meta_refresh 2 (lit "/"));
       write_b (html_H2 (html_A (lit "/") (lit "Sessions") ++ lit " have been " ++ participle))
     else
       _ ← write_b (html_H2 (lit "Are you sure you want to " ++ verb ++ lit " all sessions ?"));
       write_b (choice (toString request ++ lit "?confirm=1") (lit "YES, " ++ verb ++ lit " sessions")
                  (lit "/") (lit "NO, do not " ++ verb ++ lit " sessions"))).

Definition reset (env : Session.Env A) : Session.M S A unit := @Session.reset S A _ env.
Definition refresh (env : Session.Env A) : Session.M S A unit := @Session.refresh S A _ env.
Definition logon (env : Session.Env A) : Session.M S A unit := @Session.logon S A.
Definition logout (env : Session.Env A) : Session.M S A unit := @Session.logout S A [].

Definition processResetSessions : HttpMessage -> R unit := process_all (lit "reset") (lit "reset") reset.
Definition processRefreshSessions : HttpMessage -> R unit := process_all (lit "refresh") (lit "refreshed") refresh.
Definition processEnableSessions : HttpMessage -> R unit := process_all (lit "enable") (lit "enabled") logon.
Definition processDisableSessions : HttpMessage -> R unit := process_all (lit "disable") (lit "disabled") logout.

(** The session a request names. *)
Definition request_session (request : HttpMessage) : R SessionID :=
  beginString ← lift (getParameter request (lit "BeginString"));
  senderCompID ← lift (getParameter request (lit "SenderCompID"));
  targetCompID ← lift (getParameter request (lit "TargetCompID"));
  let sessionQualifier := default [] (tm_find id (lit "SessionQualifier") (m_parameters request)) in
  let sessionID := new_SessionID beginString senderCompID targetCompID sessionQualifier in
  pSession ← lookupSession sessionID;
  match pSession with None => raise (SessionNotFound []) | Some _ => mret sessionID end.

(** [processResetSession], [processRefreshSession] *)
Definition process_one_session (verb participle : str) (m : Session.Env A -> Session.M S A unit) (request : HttpMessage) : R unit :=
  or_what
    (sessionID ← request_session request;
     let sessionUrl := lit "/session" ++ getParameterString request in
     let name := sid_toString sessionID in
     if confirmed request then
       _ ← run_on sessionID m;
       let url := lit "/session" ++ getParameterString (removeParameter (lit "confirm") request) in
       _ ← write_h (meta_refresh 2 url);
       write_b (html_H2 (html_A url name ++ lit " has been " ++ participle))
     else
       _ ← write_b (html_H2 (lit "Are you sure you want to " ++ verb ++ lit " session " ++
                              html_A (sessionUrl ++ getParameterString request) name ++ lit "?"));
       write_b (choice (toString request ++ lit "&confirm=1") (lit "YES, " ++ verb ++ lit " session")
                  sessionUrl (lit "NO, do not " ++ verb ++ lit " session"))).

Definition processResetSession : HttpMessage -> R unit := process_one_session (lit "reset") (lit "reset") reset.
Definition processRefreshSession : HttpMessage -> R unit := process_one_session (lit "refresh") (lit "refreshed") refresh.

(** *** The page of a session *)

(** A row of the table: its name, its value and, for some, buttons that change it. *)
Definition row_of (name value buttons : str) : str := html_TR (html_TD name ++ html_TD value ++ html_TD (html_CENTER buttons)).

Definition yes_no (b : bool) : str := lit (if b then "yes" else "no").

Definition row_bool (name : str) (value : bool) (url : str) : str :=
  row_of name (yes_no value)
    (match url with [] => [] | _ => postButton (url ++ lit "&" ++ name ++ lit "=" ++ lit (if value then "0" else "1")) (lit "toggle") end).

Definition row_str (name value : str) : str := row_of name value [].

(** The numbers wrap at the ends of [int], where the code does not say. *)
Definition step_button (name url : str) (value : Z) (text : str) : str :=
  postButton (url ++ lit "&" ++ name ++ lit "=" ++ to_string_int (i32 value)) text.

Definition row_int (name : str) (value : Z) (url : str) : str :=
  row_of name (to_string_int value)
    (step_button name url (value - 10) (lit "<<") ++ NBSP ++ step_button name url (value - 1) (lit "<") ++ NBSP ++ lit "|" ++ NBSP ++
     step_button name url (value + 1) (lit ">") ++ NBSP ++ step_button name url (value + 10) (lit ">>")).

(** A parameter of the request, when it is there: what it does, and the request without it. *)
Definition take_parameter (key : str) (f : str -> R unit) (copy : HttpMessage) : R HttpMessage :=
  match tm_find id key (m_parameters copy) with
  | Some value => _ ← f value; mret (removeParameter key copy)
  | None => mret copy
  end.

Definition is_set (value : str) : bool := negb (bool_decide (value = lit "0")).
Definition at_least_one (value : str) : result Z := n ← IntT_of_string int32_t value; mret (if n <=? 0 then 1 else n).

(** What the parameters change, in the order they are looked at. *)
Definition change_session (sessionID : SessionID) (copy : HttpMessage) : R HttpMessage :=
  let flag key f copy := take_parameter key (fun value => configure sessionID (f (is_set value))) copy in
  let number (key : str) (f : Z -> R unit) copy := take_parameter key (fun value => n ← lift (at_least_one value); f n) copy in
  let state (f : SessionState.SessionState S -> SessionState.SessionState S) : R unit :=
    run_on sessionID (fun env => @Session.put_state S A f) in
  copy ← take_parameter (lit "Enabled")
           (fun value => if is_set value then run_on sessionID logon else run_on sessionID logout) copy;
  copy ← number (lit "Next%20Incoming") (fun n => run_on sessionID (fun env => @Session.setNextTargetMsgSeqNum S A _ n)) copy;
  copy ← number (lit "Next%20Outgoing") (fun n => run_on sessionID (fun env => @Session.setNextSenderMsgSeqNum S A _ n)) copy;
  copy ← flag SessionFactory.SEND_REDUNDANT_RESENDREQUESTS SessionFactory.setSendRedundantResendRequests copy;
  copy ← flag SessionFactory.CHECK_COMPID SessionFactory.setCheckCompId copy;
  copy ← flag SessionFactory.CHECK_LATENCY SessionFactory.setCheckLatency copy;
  copy ← number SessionFactory.MAX_LATENCY (fun n => configure sessionID (SessionFactory.setMaxLatency n)) copy;
  copy ← number SessionFactory.LOGON_TIMEOUT (fun n => state (SessionState.set_logonTimeout n)) copy;
  copy ← number SessionFactory.LOGOUT_TIMEOUT (fun n => state (SessionState.set_logoutTimeout n)) copy;
  copy ← flag SessionFactory.RESET_ON_LOGON SessionFactory.setResetOnLogon copy;
  copy ← flag SessionFactory.RESET_ON_LOGOUT SessionFactory.setResetOnLogout copy;
  copy ← flag SessionFactory.RESET_ON_DISCONNECT SessionFactory.setResetOnDisconnect copy;
  copy ← flag SessionFactory.REFRESH_ON_LOGON SessionFactory.setRefreshOnLogon copy;
  copy ← flag SessionFactory.MILLISECONDS_IN_TIMESTAMP SessionFactory.setMillisecondsInTimeStamp copy;
  copy ← flag SessionFactory.PERSIST_MESSAGES SessionFactory.setPersistMessages copy;
  flag SessionFactory.SEND_NEXT_EXPECTED_MSG_SEQ_NUM SessionFactory.setSendNextExpectedMsgSeqNum copy.

(** What a session answers about itself. *)
Definition box_state (box : Box) : SessionState.SessionState S := Session.w_state (bx_world box).
Definition box_config (box : Box) : Session.Config := @Session.config A (bx_env box).
Definition box_initiator (box : Box) : bool := SessionState.m_initiate (box_state box).
Definition box_enabled (box : Box) : bool := SessionState.m_enabled (box_state box).
Definition box_logged_on (box : Box) : bool := SessionState.m_receivedLogon (box_state box) && SessionState.m_sentLogon (box_state box).
Definition box_session_time (now : DateTime) (box : Box) : bool := @Session.isSessionTime A (bx_env box) now.

Definition ask {X} (sessionID : SessionID) (f : Box -> result X) : R X :=
  pSession ← lookupSession sessionID;
  match pSession with None => raise Undefined | Some box => lift (f box) end.

(** One row: its value is asked for before anything of it is written. *)
Definition show_bool (sessionID : SessionID) (name : str) (f : Box -> bool) (url : str) : R unit :=
  value ← ask sessionID (fun box => Ok (f box)); write_b (row_bool name value url).
Definition show_int (sessionID : SessionID) (name : str) (f : Box -> result Z) (url : str) : R unit :=
  value ← ask sessionID f; write_b (row_int name (i32 value) url).

Definition session_rows (sessionID : SessionID) (url : str) : R unit :=
  let config {X} (f : Session.Config -> X) (box : Box) : X := f (box_config box) in
  _ ← show_bool sessionID (lit "Enabled") box_enabled url;
  initiator ← ask sessionID (fun box => Ok (box_initiator box));
  _ ← write_b (row_str (lit "ConnectionType") (lit (if initiator : bool then "initiator" else "acceptor")));
  now ← now_of_page;
  _ ← show_bool sessionID (lit "SessionTime") (box_session_time now) [];
  _ ← show_bool sessionID (lit "Logged On") box_logged_on [];
  _ ← show_int sessionID (lit "Next Incoming") (fun box => SessionState.state_getNextTarget (box_state box)) url;
  _ ← show_int sessionID (lit "Next Outgoing") (fun box => SessionState.state_getNextSender (box_state box)) url;
  _ ← show_bool sessionID SessionFactory.SEND_REDUNDANT_RESENDREQUESTS (config Session.m_sendRedundantResendRequests) url;
  _ ← show_bool sessionID SessionFactory.CHECK_COMPID (config Session.m_checkCompId) url;
  _ ← show_bool sessionID SessionFactory.CHECK_LATENCY (config Session.m_checkLatency) url;
  _ ← show_int sessionID SessionFactory.MAX_LATENCY (fun box => Ok (Session.m_maxLatency (box_config box))) url;
  _ ← show_int sessionID SessionFactory.LOGON_TIMEOUT (fun box => Ok (SessionState.m_logonTimeout (box_state box))) url;
  _ ← show_int sessionID SessionFactory.LOGOUT_TIMEOUT (fun box => Ok (SessionState.m_logoutTimeout (box_state box))) url;
  _ ← show_bool sessionID SessionFactory.RESET_ON_LOGON (config Session.m_resetOnLogon) url;
  _ ← show_bool sessionID SessionFactory.RESET_ON_LOGOUT (config Session.m_resetOnLogout) url;
  _ ← show_bool sessionID SessionFactory.RESET_ON_DISCONNECT (config Session.m_resetOnDisconnect) url;
  _ ← show_bool sessionID SessionFactory.REFRESH_ON_LOGON (config Session.m_refreshOnLogon) url;
  _ ← show_bool sessionID SessionFactory.MILLISECONDS_IN_TIMESTAMP (config (fun c => Session.m_timestampPrecision c =? 3)) url;
  _ ← show_bool sessionID SessionFactory.PERSIST_MESSAGES (config Session.m_persistMessages) url;
  show_bool sessionID SessionFactory.SEND_NEXT_EXPECTED_MSG_SEQ_NUM (config Session.m_sendNextExpectedMsgSeqNum) url.

Definition session_caption (sessionID : SessionID) (copy : HttpMessage) : str :=
  element (lit "CAPTION") []
    (element (lit "EM") []
       (sid_toString sessionID ++ html_HR ++ NBSP ++ html_A (lit "/resetSession" ++ getParameterString copy) (lit "RESET") ++
        NBSP ++ html_A (lit "/refreshSession" ++ getParameterString copy) (lit "REFRESH"))).

Definition processSession (request : HttpMessage) : R unit :=
  or_what
    (let url := toString request in
     sessionID ← request_session request;
     copy ← change_session sessionID request;
     _ ← when (negb (bool_decide (url = toString copy))) (write_h (meta_refresh 0 (toString copy)));
     scope (lit "TABLE") table_attributes
       (_ ← write_b (session_caption sessionID copy); session_rows sessionID url)).

(** *** The first page *)

Definition title_cell (text : str) : str := element (lit "TD") (attribute (lit "align") (lit "center")) text.

Definition root_caption (request : HttpMessage) (n : nat) : str :=
  let link (path : string) (text : string) := NBSP ++ html_A (lit path ++ getParameterString request) (lit text) in
  element (lit "CAPTION") []
    (element (lit "EM") []
       (to_string_int (Z.of_nat n) ++ lit " Sessions managed by QuickFIX" ++ html_HR ++ link "/resetSessions"%string "RESET"%string ++
        link "/refreshSessions"%string "REFRESH"%string ++ link "/enableSessions"%string "ENABLE"%string ++
        link "/disableSessions"%string "DISABLE"%string)).

Definition session_href (sessionID : SessionID) : str :=
  lit "/session?BeginString=" ++ m_beginString sessionID ++ lit "&SenderCompID=" ++ m_senderCompID sessionID ++
  lit "&TargetCompID=" ++ m_targetCompID sessionID ++
  match m_sessionQualifier sessionID with [] => [] | qualifier => lit "&SessionQualifier=" ++ qualifier end.

(** What is written when a number cannot be read is thrown away with the page. *)
Definition session_row (sessionID : SessionID) : R unit :=
  scope (lit "TR") []
    (initiator ← ask sessionID (fun box => Ok (box_initiator box));
     enabled ← ask sessionID (fun box => Ok (box_enabled box));
     now ← now_of_page;
     time ← ask sessionID (fun box => Ok (box_session_time now box));
     on ← ask sessionID (fun box => Ok (box_logged_on box));
     _ ← write_b (html_TD (html_A (session_href sessionID) (sid_toString sessionID)) ++
                  html_TD (lit (if initiator : bool then "initiator" else "acceptor")) ++ html_TD (yes_no enabled) ++
                  html_TD (yes_no time) ++ html_TD (yes_no on));
     target ← ask sessionID (fun box => SessionState.state_getNextTarget (box_state box));
     _ ← write_b (html_TD (SEQNUM_convert target));
     sender ← ask sessionID (fun box => SessionState.state_getNextSender (box_state box));
     write_b (html_TD (SEQNUM_convert sender))).

Fixpoint root_rows (l : list SessionID) : R unit :=
  match l with [] => mret () | sessionID :: l => _ ← session_row sessionID; root_rows l end.

Definition processRoot (request : HttpMessage) : R unit :=
  l ← sessions;
  scope (lit "TABLE") table_attributes
    (_ ← write_b (root_caption request (length l));
     _ ← write_b (html_TR (mjoin (map (fun t => title_cell (lit t))
           ["Session"; "ConnectionType"; "Enabled"; "Session Time"; "Logged On"; "Next Incoming"; "Next Outgoing"]%string)));
     root_rows (map fst l)).

(** ** A request *)

(** The page for a path, with its error. *)
Definition route (request : HttpMessage) : R Z :=
  let root := m_root request in
  let page (m : R unit) : R Z := _ ← m; mret 200 in
  if bool_decide (root = lit "/") then page (processRoot request)
  else if bool_decide (root = lit "/resetSessions") then page (processResetSessions request)
  else if bool_decide (root = lit "/refreshSessions") then page (processRefreshSessions request)
  else if bool_decide (root = lit "/enableSessions") then page (processEnableSessions request)
  else if bool_decide (root = lit "/disableSessions") then page (processDisableSessions request)
  else if bool_decide (root = lit "/session") then page (processSession request)
  else if bool_decide (root = lit "/resetSession") then page (processResetSession request)
  else if bool_decide (root = lit "/refreshSession") then page (processRefreshSession request)
  else mret 404.

(** The element BODY ends after the response was made, so its end is not sent. *)
Definition processRequest (request : HttpMessage) : R unit :=
  let refused := checkRequest request in
  if negb (refused =? 0) then http_disconnect refused
  else
    _ ← new_page;
    _ ← write_h (page_head request);
    _ ← write_b (open_tag (lit "BODY") []);
    error ← try_catch (route request)
              (fun e => if is_exception e then Some (_ ← write_b (exn_what e); mret 400) else None);
    h ← gets (fun w => ad_h (w_client w));
    b ← gets (fun w => ad_b (w_client w));
    let response := lit "<HTML>" ++ h ++ b ++ lit "</HTML>" in
    _ ← http_send (createResponse error (if error =? 200 then response else []));
    http_disconnect 0.

(** [readMessage(msg)]: a request that is too long is answered, and reported as an
    empty one. *)
Definition http_readMessage : R (option str) :=
  c ← connection id;
  let '(buffer, r) := readHttpMessage (hc_buffer c) in
  _ ← with_connection (fun c => mkHttpConnection (hc_socket c) buffer (hc_done c));
  match r with
  | Ok o => mret o
  | Throw (MessageParseError _) => _ ← http_disconnect 400; mret (Some [])
  | Throw e => raise e
  end.

Definition processStream : R unit :=
  try_catch
    (o ← http_readMessage;
     match o with
     | None => mret ()
     | Some msg => request ← lift (setString msg); processRequest request
     end)
    (fun e => match e with InvalidMessage _ => Some (http_disconnect 400) | _ => None end).

(** [HttpConnection::read()]; [poll] waits for two seconds at most. *)
Definition http_read : R bool :=
  done ← connection hc_done;
  if done : bool then mret false
  else
    try_catch
      (answer ← on_kernel socket_poll;
       match answer with
       | PollReports l =>
           if existsb any_event (map (pair 0) l) then
             r ← on_kernel (socket_recv BUFSIZ);
             match r with
             | RecvFailed error => raise (SocketRecvFailed error)
             | RecvData [] => raise (SocketRecvFailed (lit "Connection reset by peer."))
             | RecvData data =>
                 _ ← with_connection (fun c => mkHttpConnection (hc_socket c) (hc_buffer c ++ data) (hc_done c));
                 _ ← processStream;
                 done ← connection hc_done;
                 mret (negb done)
             end
           else _ ← http_disconnect 408; mret false
       | _ => raise (SocketRecvFailed [])
       end)
      (fun e => match e with SocketRecvFailed _ => Some (_ ← http_disconnect 0; mret false) | _ => None end).

(** [while (connection.read())], in [HttpServer::onConnect]. *)
Fixpoint http_read_all (fuel : nat) : R unit :=
  match fuel with
  | O => raise OutOfFuel
  | Datatypes.S fuel => more ← http_read; if more : bool then http_read_all fuel else mret ()
  end.

(** [HttpServer::onConnect]: a connection is served until it is done, and dropped. *)
Definition http_onConnect (fuel : nat) (s : Z) : R unit :=
  if negb (socket_isValid s) then mret ()
  else
    _ ← with_connection (fun _ => mkHttpConnection s [] false);
    _ ← http_read_all fuel;
    _ ← on_mon (mon_drop s);
    mret ().
End Admin.
