(* ===== verification/HttpProps.v ===== *)
(** * What the status page guarantees

    Who may change a session through it, what is written into attributes, and the
    reading of requests. *)
From S2P Require Import Prelude DateTime Convertors Values TextMap SessionID Settings SettingsText Sockets Monitor Http HttpAdmin.
From S2P Require Session SessionState SessionFactory MessageStore SessionExample.
From S2P Require Import Engine SessionBox.

(** ** Only a POST of this site changes a session *)

(** The name in a Host header: what is in brackets, or else what comes before the
    first colon. *)
Inductive named_host : str -> str -> Prop :=
| bracketed name rest : "]"%char ∉ name -> named_host ("["%char :: name ++ "]"%char :: rest) name
| with_port name rest : head name <> Some "["%char -> ":"%char ∉ name -> name ++ rest <> [] -> rest = [] \/ head rest = Some ":"%char -> named_host (name ++ rest) name
| no_host : named_host [] [].

(** This host by its address, or as [localhost]. *)
Definition this_host `{InternetAddresses} (header : str) : Prop :=
  exists name, named_host header name /\ (name = lit "localhost" \/ inet_pton (c_str name) = true).

(** What a request must be to change something. *)
Definition permitted `{InternetAddresses} (request : HttpMessage) : Prop :=
  m_method request = lit "POST" /\ this_host (m_host request) /\
  (m_origin request = [] \/ m_origin request = lit "http://" ++ m_host request).

Lemma find_char_cut c s :
  match find [c] s with
  | Some i => exists a b, s = a ++ (c :: b) /\ (c ∉ a) /\ length a = i
  | None => c ∉ s
  end.
Proof.
  induction s as [|x s IH]; [simpl; apply not_elem_of_nil|]. cbn [find prefix_at]. rewrite andb_true_r. case_bool_decide as Hx.
  - exists [], s. subst x. split_and!; [done | apply not_elem_of_nil | done].
  - destruct (find [c] s) as [i|].
    + destruct IH as (a & b & -> & Ha & <-). exists (x :: a), b. split_and!; [done | by apply not_elem_of_cons | done].
    + by apply not_elem_of_cons.
Qed.

Lemma host_name_named header name : host_name header = Some name -> named_host header name.
Proof.
  unfold host_name. destruct header as [|ch rest]; [intros [= <-]; constructor|]. case_bool_decide as Hc.
  - subst ch. change (lit "]") with ["]"%char]. pose proof (find_char_cut "]" ("["%char :: rest)) as Hf. destruct (find _ _) as [i|]; [|done].
    destruct Hf as ([|b a] & t & E & Ha & <-); [done|]. injection E as <- ->. intros [= <-]. apply not_elem_of_cons in Ha as [_ Ha].
    unfold substr. cbn [app drop].
    rewrite drop_0, Nat.sub_0_r, take_app_length. by constructor.
  - change (lit ":") with [":"%char]. pose proof (find_char_cut ":" (ch :: rest)) as Hf. destruct (find _ _) as [i|].
    + destruct Hf as (a & t & E & Ha & <-). rewrite E, take_app_length. intros [= <-].
      apply with_port; [destruct a; [done | injection E as <- _; by intros [= ->]] | done | by destruct a | by right].
    + intros [= <-]. rewrite <- (app_nil_r (ch :: rest)) at 1. apply with_port; [by intros [= ->] | done | done | by left].
Qed.

Lemma acceptableHost_this `{InternetAddresses} header : acceptableHost header = true -> this_host header.
Proof.
  unfold acceptableHost. destruct (host_name header) as [name|] eqn:E; [|done]. intros Ha. exists name. split; [by apply host_name_named|].
  apply orb_true_iff in Ha as [?%bool_decide_eq_true|?]; auto.
Qed.

Section Safe.
Context {S A : Type} `{MS : !MessageStore.MessageStore S} `{CL : Clocks} `{IA : InternetAddresses}.
Abbreviation R := (R (Admin S A)).
Abbreviation W := (World (Admin S A)).
Implicit Types (w : W) (request : HttpMessage).

Definition held_sessions w : list (SessionID * SessionBox S A) := ad_sessions (w_client w).

(** A computation that leaves the sessions as they are. *)
Definition reads {X} (m : R X) : Prop := forall w, held_sessions (m w).1 = held_sessions w.

Lemma reads_ret {X} (x : X) : reads (mret x).
Proof. done. Qed.
Lemma reads_raise {X} e : reads (raise (X := X) e).
Proof. done. Qed.
Lemma reads_lift {X} (r : result X) : reads (lift r).
Proof. done. Qed.
Lemma reads_gets {X} (f : W -> X) : reads (gets f).
Proof. done. Qed.
Lemma reads_on_kernel {X} (f : Kernel -> X * Kernel) : reads (on_kernel f).
Proof. intros w. unfold on_kernel. by destruct (f (w_kernel w)). Qed.
Lemma reads_on_mon {X} (f : SocketMonitor -> X * SocketMonitor) : reads (on_mon f).
Proof. intros w. unfold on_mon. by destruct (f (w_mon w)). Qed.
Lemma reads_write_h text : reads (write_h text).
Proof. done. Qed.
Lemma reads_write_b text : reads (write_b text).
Proof. done. Qed.
Lemma reads_with_connection f : reads (with_connection f).
Proof. done. Qed.
Lemma reads_new_page : reads new_page.
Proof. done. Qed.

Lemma reads_bind {X Y} (m : R X) (f : X -> R Y) : reads m -> (forall x, reads (f x)) -> reads (x ← m; f x).
Proof. intros Hm Hf w. unfold mbind, R_bind. specialize (Hm w). destruct (m w) as [w' [x|e]]; [|done]. rewrite <- Hm. apply Hf. Qed.

Lemma reads_try {X} (m : R X) handler : reads m -> (forall e h, handler e = Some h -> reads h) -> reads (try_catch m handler).
Proof.
  intros Hm Hh w. unfold try_catch. specialize (Hm w). destruct (m w) as [w' [x|e]]; [done|].
  destruct (handler e) as [h|] eqn:E; [|done]. rewrite <- Hm. by apply (Hh e h).
Qed.

Lemma reads_when b (m : R unit) : reads m -> reads (when b m).
Proof. by destruct b. Qed.

Lemma reads_scope {X} name attributes (m : R X) : reads m -> reads (scope name attributes m).
Proof. intros Hm. apply reads_bind; [done|]. intros u w. specialize (Hm w). by destruct (m w). Qed.
End Safe.

Create HintDb reads.
#[export] Hint Resolve reads_ret reads_raise reads_lift reads_gets reads_on_kernel reads_on_mon reads_write_h reads_write_b reads_with_connection
  reads_new_page : reads.

Ltac reads_step :=
  first
    [ solve [auto with reads]
    | apply reads_scope
    | apply reads_bind; [|intros ?]
    | apply reads_when
    | apply reads_try; [|let e := fresh "e" in let h := fresh "h" in let E := fresh "E" in
                          intros e h E; repeat (first [discriminate E | injection E as <- | destruct e | case_match])]
    | match goal with
      | |- reads (match ?x with _ => _ end) => destruct x
      end ].
Ltac reads_all := repeat reads_step.

Section Pages.
Context {S A : Type} `{MS : !MessageStore.MessageStore S} `{CL : Clocks} `{IA : InternetAddresses}.
Abbreviation R := (R (Admin S A)).
Abbreviation W := (World (Admin S A)).
Implicit Types (w : W) (request : HttpMessage).

Lemma reads_ask {X} sessionID (f : SessionBox S A -> result X) : reads (ask sessionID f).
Proof. unfold ask, lookupSession, sessions. reads_all. Qed.
Hint Resolve reads_ask : reads.

Lemma reads_send msg : reads (S := S) (A := A) (http_send msg).
Proof. unfold http_send, connection. reads_all. Qed.
Hint Resolve reads_send : reads.

Lemma reads_disconnect error : reads (S := S) (A := A) (http_disconnect error).
Proof. unfold http_disconnect. reads_all. Qed.
Hint Resolve reads_disconnect : reads.

Lemma reads_or_what (m : R unit) : reads m -> reads (or_what m).
Proof. intros Hm. unfold or_what. reads_all. Qed.

Lemma reads_request_session request : reads (S := S) (A := A) (request_session request).
Proof. unfold request_session, lookupSession, sessions. reads_all. Qed.
Hint Resolve reads_request_session : reads.

Lemma reads_session_row sessionID : reads (S := S) (A := A) (session_row sessionID).
Proof. unfold session_row, now_of_page. reads_all. Qed.
Hint Resolve reads_session_row : reads.

Lemma reads_processRoot request : reads (S := S) (A := A) (processRoot request).
Proof.
  unfold processRoot, sessions. reads_all. induction (map fst x) as [|sessionID l IH]; simpl; [reads_all|]. apply reads_bind; [reads_all | intros _; exact IH].
Qed.

Lemma reads_session_rows sessionID url : reads (S := S) (A := A) (session_rows sessionID url).
Proof.
  assert (forall name f url, reads (S := S) (A := A) (show_bool sessionID name f url)) as Hb by (intros; unfold show_bool; reads_all).
  assert (forall name f url, reads (S := S) (A := A) (show_int sessionID name f url)) as Hi by (intros; unfold show_int; reads_all).
  unfold session_rows, now_of_page.
  repeat (apply reads_bind; [first [apply Hb | apply Hi | reads_all]|intros ?]). reads_all.
Qed.
Hint Resolve reads_processRoot reads_session_rows : reads.

(** *** Without a parameter that asks for a change *)

Lemma not_confirmed request sessionPage : hasStateParameter request sessionPage = false -> confirmed request = false.
Proof.
  unfold hasStateParameter, confirmed. intros Hs. destruct (tm_find id (lit "confirm") (m_parameters request)) as [value|] eqn:E; [|done].
  apply tm_find_Some in E as (k & Hk & Hin). simpl in Hk. destruct (negb (bool_decide (value = lit "0"))) eqn:Ev; [|done].
  rewrite <- Hs. symmetry. apply existsb_exists. exists (k, value). split; [by apply list_elem_of_In|]. unfold state_parameter. simpl.
  by rewrite bool_decide_eq_true_2.
Qed.

Lemma reads_process_all verb participle m request : confirmed request = false -> reads (S := S) (A := A) (process_all verb participle m request).
Proof. intros Hc. unfold process_all. rewrite Hc. apply reads_or_what. reads_all. Qed.

Lemma reads_process_one verb participle m request : confirmed request = false -> reads (S := S) (A := A) (process_one_session verb participle m request).
Proof. intros Hc. unfold process_one_session. rewrite Hc. apply reads_or_what. reads_all. Qed.

(** No parameter but those that name the session. *)
Lemma no_parameter request key :
  hasStateParameter request true = false -> key ∉ [lit "confirm"; lit "BeginString"; lit "SenderCompID"; lit "TargetCompID"; lit "SessionQualifier"] ->
  tm_find id key (m_parameters request) = None.
Proof.
  intros Hs Hk. destruct (tm_find id key (m_parameters request)) as [value|] eqn:E; [|done]. exfalso.
  apply tm_find_Some in E as (k & Ek & Hin). simpl in Ek. subst k. revert Hs. unfold hasStateParameter. apply not_false_iff_true. apply existsb_exists.
  exists (key, value). split; [by apply list_elem_of_In|]. unfold state_parameter. simpl. apply not_elem_of_cons in Hk as [Hk Hids].
  rewrite bool_decide_eq_false_2 by done. by rewrite bool_decide_eq_false_2.
Qed.

Lemma take_absent key (f : str -> R unit) copy w : tm_find id key (m_parameters copy) = None -> take_parameter key f copy w = (w, Ok copy).
Proof. intros E. unfold take_parameter. by rewrite E. Qed.

Lemma bind_same {X Y} (m : R X) (f : X -> R Y) w x : m w = (w, Ok x) -> (x ← m; f x) w = f x w.
Proof. intros E. unfold mbind, R_bind. by rewrite E. Qed.

Lemma change_nothing sessionID request w : hasStateParameter request true = false -> change_session sessionID request w = (w, Ok request).
Proof.
  intros Hs. assert (forall key, key ∉ [lit "confirm"; lit "BeginString"; lit "SenderCompID"; lit "TargetCompID"; lit "SessionQualifier"] ->
      forall (f : str -> R unit), take_parameter key f request w = (w, Ok request)) as Ht by (intros key Hk f; by apply take_absent, no_parameter).
  unfold change_session. cbv zeta.
  do 15 (etransitivity; [apply (bind_same _ _ w request), Ht, (bool_decide_eq_true_1 _); vm_compute; reflexivity|]).
  apply Ht, (bool_decide_eq_true_1 _). vm_compute. reflexivity.
Qed.

Lemma reads_processSession request : hasStateParameter request true = false -> reads (S := S) (A := A) (processSession request).
Proof.
  intros Hs. unfold processSession. apply reads_or_what. apply reads_bind; [reads_all|]. intros sessionID.
  intros w. rewrite (bind_same _ _ w request) by by apply change_nothing.
  refine ((_ : reads _) w). reads_all.
Qed.

Lemma reads_route request : hasStateParameter request (bool_decide (m_root request = lit "/session")) = false -> reads (S := S) (A := A) (route request).
Proof.
  intros Hs. pose proof (not_confirmed _ _ Hs) as Hc. unfold route. cbv zeta.
  repeat match goal with
         | |- reads (if ?b then _ else _) =>
             destruct b eqn:Eb; [apply reads_bind; [|intros u; reads_all]; first
               [ apply reads_processRoot | by apply reads_process_all | by apply reads_process_one
               | apply reads_processSession; exact Hs ]|clear Eb]
         end.
  reads_all.
Qed.

(** A request changes sessions only if it is permitted to. *)
Lemma processRequest_permitted request w : held_sessions (processRequest request w).1 <> held_sessions w -> permitted request.
Proof.
  intros Hne. unfold permitted. unfold processRequest in Hne. destruct (checkRequest request =? 0) eqn:E; [|by destruct Hne; apply reads_disconnect].
  apply Z.eqb_eq in E. unfold checkRequest in E. destruct (acceptableHost (m_host request)) eqn:Eh; [|done]. cbn [negb] in E.
  destruct (hasStateParameter request (bool_decide (m_root request = lit "/session"))) eqn:Es; cbn [negb] in E.
  - case_bool_decide as Em; [|done]. cbn [negb] in E. split_and!; [done | by apply acceptableHost_this|].
    destruct (bool_decide (m_origin request = [])) eqn:Eo; [left; by apply bool_decide_eq_true in Eo|].
    destruct (bool_decide (m_origin request = lit "http://" ++ m_host request)) eqn:Eo'; [right; by apply bool_decide_eq_true in Eo' | done].
  - exfalso. apply Hne. revert w Hne. refine (fun w _ => (_ : reads _) w). pose proof (reads_route request Es). reads_all.
Qed.

(** *** What a connection reads *)

Lemma held_try {X} (m : R X) handler w :
  (forall e h, handler e = Some h -> reads h) -> held_sessions (try_catch m handler w).1 = held_sessions (m w).1.
Proof. intros Hh. unfold try_catch. destruct (m w) as [w' [x|e]]; [done|]. destruct (handler e) as [h|] eqn:E; [|done]. by apply (Hh e h). Qed.

Lemma held_bind_same {X Y} (m : R X) (f : X -> R Y) w : (forall x, reads (f x)) -> held_sessions ((x ← m; f x) w).1 = held_sessions (m w).1.
Proof. intros Hf. unfold mbind, R_bind. destruct (m w) as [w' [x|e]]; [apply Hf | done]. Qed.

(** The request in a buffer, when it reads as one. *)
Definition asks (buffer : str) (request : HttpMessage) : Prop :=
  exists msg rest, readHttpMessage buffer = (rest, Ok (Some msg)) /\ setString msg = Ok request.

Definition buffered w : str := hc_buffer (ad_connection (w_client w)).

Lemma reads_readMessage : reads (S := S) (A := A) http_readMessage.
Proof. unfold http_readMessage, connection. reads_all. Qed.

(** What is read is what the buffer starts with; a request that is too long is read as
    an empty one. *)
Lemma readMessage_spec w msg :
  (http_readMessage w).2 = Ok (Some msg) -> msg = [] \/ exists rest, readHttpMessage (buffered w) = (rest, Ok (Some msg)).
Proof.
  unfold http_readMessage, connection, mbind, R_bind, gets, with_connection, on_admin, on_client. unfold buffered. cbn [id].
  destruct (readHttpMessage (hc_buffer (ad_connection (w_client w)))) as [rest [o|e]].
  - intros [= ->]. right. by exists rest.
  - destruct e; try discriminate. left. revert H. destruct (http_disconnect (S := S) (A := A) 400 _) as [w1 [u|e]]; [by intros [= <-] | discriminate].
Qed.

Lemma processStream_permitted w :
  held_sessions (processStream w).1 <> held_sessions w -> exists request, asks (buffered w) request /\ permitted request.
Proof.
  intros Hne. unfold processStream in Hne.
  rewrite held_try in Hne by (intros e h E; destruct e; try discriminate E; injection E as <-; apply reads_disconnect).
  pose proof (reads_readMessage w) as Hw. pose proof (readMessage_spec w) as Hm. unfold mbind, R_bind at 1 in Hne.
  destruct (http_readMessage w) as [w1 [[msg|]|e]]; [|done|done]. specialize (Hm msg eq_refl). simpl in Hw. rewrite <- Hw in Hne.
  unfold mbind, R_bind, lift in Hne. destruct (setString msg) as [request|e] eqn:Es; [|done].
  destruct Hm as [-> | [rest Er]]; [discriminate Es|]. exists request. split; [by exists msg, rest|]. by apply (processRequest_permitted request w1).
Qed.

(** C11 The sessions change while a connection reads only when the request its buffer
    then starts with is a POST, sent to this host by its address or as [localhost],
    and not by a page of another site: whatever was in the buffer, whatever the socket
    gave, and also when the page is cut short by an exception. *)
Theorem changes_need_post w :
  held_sessions (http_read w).1 <> held_sessions w ->
  exists data request, (socket_recv BUFSIZ (socket_poll (w_kernel w)).2).1 = RecvData data /\
    asks (buffered w ++ data) request /\ permitted request.
Proof.
  intros Hne. unfold http_read, connection in Hne. unfold mbind at 1, R_bind, gets in Hne.
  destruct (hc_done (ad_connection (w_client w))); [done|].
  rewrite held_try in Hne by (intros e h E; destruct e; try discriminate E; injection E as <-; reads_all).
  unfold mbind, R_bind, on_kernel in Hne. destruct (socket_poll (w_kernel w)) as [answer k] eqn:Ep. destruct answer as [| |l]; try done.
  assert (reads (S := S) (A := A) (_ ← http_disconnect 408; mret false)) as Hd by reads_all.
  destruct (existsb any_event (map (pair 0) l)); [|destruct Hne; exact (Hd (mkWorld (w_mon w) k (w_client w)))].
  cbn [w_kernel] in Hne. cbn [snd]. destruct (socket_recv BUFSIZ k) as [[data|error] k'] eqn:Er; [|done]. destruct data as [|c data]; [done|].
  exists (c :: data). set (w1 := mkWorld (w_mon w) k' (mkAdmin (mkHttpConnection (hc_socket (ad_connection (w_client w))) (buffered w ++ c :: data)
    (hc_done (ad_connection (w_client w)))) (ad_sessions (w_client w)) (ad_h (w_client w)) (ad_b (w_client w)))).
  assert (held_sessions (processStream w1).1 <> held_sessions w1) as Hp.
  { intros Ep'. apply Hne. change (held_sessions w) with (held_sessions w1). rewrite <- Ep'. unfold with_connection, on_admin, on_client. simpl.
    unfold set_client. simpl. change (hc_buffer (ad_connection (w_client w))) with (buffered w). fold w1. by destruct (processStream w1) as [w2 [u|e]]. }
  destruct (processStream_permitted w1 Hp) as (request & Ha & Hq). by exists request.
Qed.

(** *** A connection ends *)

(** A computation that, when it returns, leaves the connection done. *)
Definition finishes {X} (m : R X) : Prop := forall w w' x, m w = (w', Ok x) -> hc_done (ad_connection (w_client w')) = true.

Lemma finishes_bind {X Y} (m : R X) (f : X -> R Y) : (forall x, finishes (f x)) -> finishes (x ← m; f x).
Proof. intros Hf w w' y. unfold mbind, R_bind. destruct (m w) as [w1 [x|e]]; [apply Hf | discriminate]. Qed.

Lemma finishes_disconnect error : finishes (http_disconnect error).
Proof. apply finishes_bind. intros _ w w' x [= <- _]. reflexivity. Qed.

Lemma finishes_processRequest request : finishes (processRequest request).
Proof. unfold processRequest. destruct (negb (checkRequest request =? 0)); repeat first [apply finishes_disconnect | apply finishes_bind; intros ?]. Qed.

Lemma readMessage_none w w' : http_readMessage w = (w', Ok None) -> buffered w' = buffered w /\ (length (buffered w) <= 2048)%nat.
Proof.
  unfold http_readMessage, connection, mbind, R_bind, gets, with_connection, on_admin, on_client. unfold buffered. cbn [id].
  set (buffer := hc_buffer (ad_connection (w_client w))). unfold readHttpMessage.
  destruct (Nat.ltb_spec (length buffer) 4); [intros [= <-]; split; [done | lia]|].
  destruct (Nat.ltb_spec 2048 (length buffer)); [by destruct (http_disconnect (S := S) (A := A) 400 _) as [w1 [u|e]]|].
  destruct (find _ buffer); [done|]. by intros [= <-].
Qed.

(** What goes on reading has not read a request yet, and keeps what it read. *)
Lemma processStream_goes_on w w' u :
  processStream w = (w', Ok u) -> hc_done (ad_connection (w_client w')) = false -> buffered w' = buffered w /\ (length (buffered w) <= 2048)%nat.
Proof.
  intros E Hd. pose proof (readMessage_none w) as Hn. unfold processStream, try_catch in E. unfold mbind at 1, R_bind in E.
  destruct (http_readMessage w) as [w1 [[msg|]|e]].
  - destruct ((request ← lift (setString msg); processRequest request) w1) as [w2 [u2|e]] eqn:Em.
    + injection E as -> _. rewrite (finishes_bind _ _ finishes_processRequest _ _ _ Em) in Hd. discriminate Hd.
    + destruct e; try discriminate E. rewrite (finishes_disconnect _ _ _ _ E) in Hd. discriminate Hd.
  - injection E as <- _. by apply Hn.
  - destruct e; try discriminate E. rewrite (finishes_disconnect _ _ _ _ E) in Hd. discriminate Hd.
Qed.

Lemma refused_stops error w w' : (_ ← http_disconnect (S := S) (A := A) error; mret false) w <> (w', Ok true).
Proof. unfold mbind, R_bind. by destruct (http_disconnect error w) as [w1 [u|e]]. Qed.

Lemma try_same {X} (m : R X) handler w w' x :
  (forall e h w, handler e = Some h -> h w <> (w', Ok x)) -> try_catch m handler w = (w', Ok x) -> m w = (w', Ok x).
Proof. intros Hh. unfold try_catch. destruct (m w) as [w1 [y|e]]; [done|]. destruct (handler e) as [h|] eqn:E; [|done]. intros Eh. by destruct (Hh e h w1 E). Qed.

(** Every read but the last takes a character at least, and keeps the buffer within
    its bound. *)
Lemma http_read_goes_on w w' : http_read w = (w', Ok true) -> (length (buffered w) < length (buffered w') <= 2048)%nat.
Proof.
  unfold http_read, connection. unfold mbind at 1, R_bind, gets. destruct (hc_done (ad_connection (w_client w))); [done|].
  intros E. apply try_same in E; [|intros e h w1 Eh; destruct e; try discriminate Eh; injection Eh as <-; apply refused_stops].
  unfold mbind at 1, R_bind, on_kernel at 1 in E. destruct (socket_poll (w_kernel w)) as [answer k]. destruct answer as [| |l]; try done.
  destruct (existsb any_event (map (pair 0) l)); [|by apply refused_stops in E].
  unfold mbind at 1, R_bind, on_kernel in E. cbn [w_kernel] in E. destruct (socket_recv BUFSIZ k) as [[data|error] k']; [|done]. destruct data as [|c data]; [done|].
  unfold mbind, R_bind, with_connection, on_admin, on_client, gets in E. revert E. set (w1 := set_client _ _). intros E.
  assert (length (buffered w) < length (buffered w1))%nat as Hl by (unfold w1, buffered; simpl; rewrite length_app; simpl; lia).
  destruct (processStream w1) as [w2 [u|e]] eqn:Ep; [|done].
  destruct (hc_done (ad_connection (w_client w2))) eqn:Ed; [done|]. injection E as <-. destruct (processStream_goes_on _ _ _ Ep Ed) as [-> H2]. lia.
Qed.

Lemma http_read_all_enough n : forall fuel w,
  (2049 - length (buffered w) <= n)%nat -> (n <= fuel)%nat -> (0 < n)%nat ->
  http_read_all fuel w = http_read_all n w /\ ((http_read_all fuel w).2 = Throw OutOfFuel -> exists w', (http_read w').2 = Throw OutOfFuel).
Proof.
  induction n as [|n IH]; intros fuel w Hn Hf Hpos; [lia|]. destruct fuel as [|fuel]; [lia|]. cbn [http_read_all]. unfold mbind, R_bind.
  destruct (http_read w) as [w' [[]|e]] eqn:E.
  - apply http_read_goes_on in E as [H1 H2]. apply IH; lia.
  - done.
  - split; [done|]. intros [= ->]. exists w. by rewrite E.
Qed.

(** C35 A connection is served by at most 2049 reads, however little each of them brings
    and however long the client goes on: more are not made, and the page itself aside
    the loop that reads it does not run out. *)
Theorem connection_bounded fuel s w :
  (2049 <= fuel)%nat ->
  http_onConnect fuel s w = http_onConnect 2049 s w /\
  ((http_onConnect fuel s w).2 = Throw OutOfFuel -> exists w', (http_read w').2 = Throw OutOfFuel).
Proof.
  intros Hf. unfold http_onConnect. destruct (negb (socket_isValid s)); [done|]. unfold mbind, R_bind.
  destruct (with_connection _ w) as [w1 [u|e]] eqn:E; [|discriminate E].
  destruct (http_read_all_enough 2049 fuel w1) as [E1 E2]; [lia | done | lia|]. rewrite E1 in E2 |- *. split; [done|].
  destruct (http_read_all 2049 w1) as [w2 [u2|e]]; [|by intros He; apply E2].
  unfold on_mon. by destruct (mon_drop s (w_mon w2)).
Qed.
End Pages.

(** ** Reading what was written *)

Section RoundTrip.
Implicit Types (s : str) (m : HttpMessage).

Lemma find_needle c n s rest : c ∉ s -> find (c :: n) (s ++ (c :: n) ++ rest) = Some (length s).
Proof.
  induction s as [|d s IH]; intros Hc.
  - pose proof (prefix_at_app (c :: n) rest) as Hp. destruct rest; simpl in *; by rewrite Hp.
  - apply not_elem_of_cons in Hc as [Hd Hc]. simpl. rewrite bool_decide_eq_false_2 by done. simpl. simpl in IH. by rewrite IH.
Qed.

Lemma find_from_needle c n (pre s rest : str) : c ∉ s -> find_from (c :: n) (pre ++ s ++ (c :: n) ++ rest) (length pre) = Some (length pre + length s)%nat.
Proof.
  intros Hc. unfold find_from. rewrite (proj2 (Nat.ltb_ge _ _)) by (rewrite length_app; lia). rewrite drop_app_length. by rewrite find_needle.
Qed.

Lemma find_from_none c n (pre s : str) : c ∉ s -> find_from (c :: n) (pre ++ s) (length pre) = None.
Proof.
  intros Hc. unfold find_from. rewrite (proj2 (Nat.ltb_ge _ _)) by (rewrite length_app; lia). rewrite drop_app_length.
  destruct (find (c :: n) s) as [i|] eqn:E; [|done]. exfalso. apply find_Some in E as [Hp _]. apply prefix_at_spec in Hp as [rest Hr]. apply Hc.
  rewrite <- (take_drop i s). apply elem_of_app. right. rewrite Hr. left.
Qed.

Lemma rfind_absent c n s : c ∉ s -> rfind (c :: n) s = None.
Proof.
  induction s as [|d s IH]; [done|]. intros [Hd Hc]%not_elem_of_cons. simpl. rewrite IH by done. by rewrite bool_decide_eq_false_2.
Qed.

Lemma rfind_last c n s rest : c ∉ n ++ rest -> rfind (c :: n) (s ++ (c :: n) ++ rest) = Some (length s).
Proof.
  intros Hc. induction s as [|d s IH].
  - pose proof (prefix_at_app (c :: n) rest) as Hp. simpl in *. rewrite rfind_absent by done. by rewrite Hp.
  - simpl. simpl in IH. by rewrite IH.
Qed.

Lemma substr_size_rest (pre s : str) n : Z.of_nat (length s) <= n < 2 ^ 64 -> substr_size (pre ++ s) (length pre) n = s.
Proof.
  intros Hn. unfold substr_size. rewrite u64_small by lia. rewrite length_app, drop_app_length. apply take_ge. lia.
Qed.

(** A parameter whose text can be told from the others'. *)
Definition plain_parameter (p : str * str) : Prop :=
  ("="%char ∉ p.1) /\ ("&"%char ∉ p.1) /\ ("&"%char ∉ p.2).

Lemma read_step fuel (s : str) pos sepPos acc :
  find_from (lit "=") s pos = Some sepPos ->
  read_parameters (S fuel) s (Some pos) acc =
    read_parameters fuel s (find_from (lit "&") s (pos + 1))
      (tm_set id (substr_size s (pos + 1) (Z.of_nat sepPos - Z.of_nat pos - 1))
         (substr_size s (sepPos + 1) (opt_pos (find_from (lit "&") s (pos + 1)) - Z.of_nat sepPos - 1)) acc).
Proof. intros E. cbn [read_parameters]. by rewrite E. Qed.

(** One parameter, at its question mark or ampersand. *)
Lemma read_one (pre key value tail : str) sep fuel acc (s := pre ++ sep :: key ++ lit "=" ++ value ++ tail) :
  plain_parameter (key, value) -> sep <> "="%char -> head tail = None \/ head tail = Some "&"%char ->
  Z.of_nat (length s) < 2 ^ 64 - 1 ->
  read_parameters (S fuel) s (Some (length pre)) acc =
    read_parameters fuel s (match tail with [] => None | _ => Some (length pre + 1 + length key + 1 + length value)%nat end) (tm_set id key value acc).
Proof.
  intros (Hk1 & Hk2 & Hv) Hsep Htail Hlen. simpl in Hk1, Hk2, Hv.
  assert (s = pre ++ (sep :: key) ++ ["="%char] ++ value ++ tail) as E1 by done.
  assert (s = (pre ++ [sep]) ++ key ++ ["="%char] ++ value ++ tail) as E2 by (unfold s; by rewrite <- app_assoc).
  assert (s = (pre ++ [sep]) ++ (key ++ ["="%char] ++ value) ++ tail) as E3 by (rewrite E2; by rewrite <- !app_assoc).
  assert (s = (pre ++ (sep :: key) ++ ["="%char]) ++ value ++ tail) as E4 by (rewrite E1; by rewrite <- !app_assoc).
  assert (length s = length pre + 1 + length key + 1 + length value + length tail)%nat as El by (rewrite E1, !length_app; simpl; lia).
  assert (length (pre ++ [sep]) = length pre + 1)%nat as Ep by (by rewrite length_app).
  assert (length (pre ++ (sep :: key) ++ ["="%char]) = length pre + 1 + length key + 1)%nat as Eq by (rewrite !length_app; simpl; lia).
  assert ("="%char ∉ sep :: key) as Hsk by (apply not_elem_of_cons; split; [congruence | done]).
  assert ("&"%char ∉ key ++ ["="%char] ++ value) as Hamp
    by (rewrite !not_elem_of_app; split_and!; [done | apply not_elem_of_cons; split; [done | apply not_elem_of_nil] | done]).
  clearbody s.
  assert (find_from (lit "=") s (length pre) = Some (length pre + 1 + length key)%nat) as Ef.
  { rewrite E1. rewrite (find_from_needle "="%char []) by done. f_equal. simpl. lia. }
  assert (find_from (lit "&") s (length pre + 1) = match tail with [] => None | _ => Some (length pre + 1 + length key + 1 + length value)%nat end) as Ea.
  { rewrite E3, <- Ep. destruct tail as [|c tail]; [rewrite app_nil_r; by apply find_from_none|].
    destruct Htail as [|[= ->]]; [done|]. rewrite (find_from_needle "&"%char [] _ _ tail) by done. f_equal. rewrite Ep, !length_app. simpl. lia. }
  rewrite (read_step _ _ _ _ _ Ef), Ea. f_equal. f_equal.
  - rewrite E2, <- Ep. apply substr_size_middle; [rewrite <- E2; lia | lia].
  - rewrite E4, <- Eq. destruct tail as [|c tail].
    + rewrite app_nil_r. apply substr_size_rest. unfold opt_pos, http_npos. simpl in El. lia.
    + apply substr_size_middle; [rewrite <- E4; lia | unfold opt_pos; rewrite ?Nat2Z.inj_add; cbn [length] in El; lia].
Qed.

Lemma read_joined l : forall fuel (pre : str) sep key value acc,
  Forall plain_parameter ((key, value) :: l) -> sep <> "="%char -> (length l + 1 < fuel)%nat ->
  Z.of_nat (length (pre ++ sep :: key ++ lit "=" ++ value ++ joined false l)) < 2 ^ 64 - 1 ->
  read_parameters fuel (pre ++ sep :: key ++ lit "=" ++ value ++ joined false l) (Some (length pre)) acc =
    Ok (fold_left (fun acc p => tm_set id p.1 p.2 acc) ((key, value) :: l) acc).
Proof.
  induction l as [|[k v] l IH]; intros fuel pre sep key value acc [Hp Hall]%Forall_cons Hsep Hfuel Hlen; (destruct fuel as [|fuel]; [lia|]).
  - rewrite read_one; [|done|done|by left|done]. destruct fuel as [|fuel]; [simpl in Hfuel; lia | done].
  - rewrite read_one; [|done|done|by right|done].
    set (P := pre ++ sep :: key ++ lit "=" ++ value).
    assert (pre ++ sep :: key ++ lit "=" ++ value ++ joined false ((k, v) :: l) = P ++ "&"%char :: k ++ lit "=" ++ v ++ joined false l) as E
      by (unfold P; rewrite <- !app_assoc; simpl; by rewrite <- !app_assoc).
    rewrite E in Hlen |- *. replace (length pre + 1 + length key + 1 + length value)%nat with (length P)
      by (unfold P; rewrite !length_app; simpl; rewrite length_app; simpl; lia).
    change (joined false ((k, v) :: l)) with ("&"%char :: k ++ lit "=" ++ v ++ joined false l). cbv iota.
    rewrite (IH fuel P "&"%char k v); [done | done | done | simpl in Hfuel; lia | done].
Qed.

(** *** A request as a client writes it *)

Definition header_line (name value : str) : str := match value with [] => [] | _ => name ++ lit ": " ++ value ++ CRLF end.

Definition request_line (m : HttpMessage) : str := m_method m ++ lit " " ++ toString m ++ lit " HTTP/1.1".

Definition request_text (m : HttpMessage) : str :=
  request_line m ++ CRLF ++ header_line (lit "Host") (m_host m) ++ header_line (lit "Origin") (m_origin m) ++ CRLF.

Definition CR : ascii := "013"%char.

(** Nothing in it is taken for what separates its parts. *)
Record plain_request (m : HttpMessage) : Prop := {
  pr_method : m_method m = lit "GET" \/ m_method m = lit "POST";
  pr_root : "?"%char ∉ m_root m;
  pr_target : (" "%char ∉ toString m) /\ (CR ∉ toString m);
  pr_parameters : Forall plain_parameter (m_parameters m) /\ tm_ordered id (m_parameters m);
  pr_host : (CR ∉ m_host m) /\ tight (m_host m);
  pr_origin : (CR ∉ m_origin m) /\ tight (m_origin m);
  pr_length : Z.of_nat (length (request_text m)) < 2 ^ 64 - 1
}.

Lemma strip_space c value : tight (c :: value) -> string_strip (" "%char :: c :: value) = c :: value.
Proof.
  intros Ht. rewrite <- (string_strip_tight _ Ht) at 2. unfold string_strip.
  assert (drop_blank (" "%char :: c :: value) = drop_blank (c :: value)) as E by reflexivity. rewrite E, drop_blank_tight by apply Ht. done.
Qed.

Lemma read_header_line (pre l rest : str) fuel kept :
  CR ∉ l -> l <> [] ->
  read_headers (S fuel) (pre ++ l ++ CRLF ++ rest) (length pre) kept =
    read_headers fuel (pre ++ l ++ CRLF ++ rest) (length (pre ++ l ++ CRLF)) (read_header l kept).
Proof.
  intros Hc Hl. cbn [read_headers]. rewrite (proj2 (Nat.ltb_lt _ _)) by (destruct l; [done|]; rewrite !length_app; simpl; lia).
  change CRLF with (CR :: ["010"%char]). rewrite (find_from_needle CR ["010"%char]) by done.
  rewrite (proj2 (Nat.eqb_neq _ _)) by (destruct l; [done|]; simpl; lia).
  replace (length pre + length l - length pre)%nat with (length l) by lia. rewrite substr_middle. f_equal. rewrite !length_app. simpl. lia.
Qed.

Lemma read_header_end (pre : str) fuel kept : read_headers (S fuel) (pre ++ CRLF) (length pre) kept = Ok kept.
Proof.
  cbn [read_headers]. rewrite (proj2 (Nat.ltb_lt _ _)) by (rewrite length_app; simpl; lia).
  pose proof (find_from_needle CR ["010"%char] pre [] [] (not_elem_of_nil _)) as E. simpl in E. change (pre ++ CRLF) with (pre ++ [CR; "010"%char]).
  change CRLF with [CR; "010"%char]. rewrite E, Nat.add_0_r, Nat.eqb_refl. done.
Qed.

(** A header that may be there. *)
Lemma read_header_opt (name value : str) (pre rest : str) fuel kept set :
  (CR ∉ name) -> (CR ∉ value) -> name <> [] ->
  (value <> [] -> read_header (name ++ lit ": " ++ value) kept = set) -> (value = [] -> set = kept) ->
  exists fuel', (fuel <= fuel' <= S fuel)%nat /\
  read_headers (S fuel) (pre ++ header_line name value ++ rest) (length pre) kept =
    read_headers fuel' (pre ++ header_line name value ++ rest) (length (pre ++ header_line name value)) set.
Proof.
  intros Hn Hv Hne Hset Hkept. unfold header_line. destruct value as [|c value]; [exists (S fuel); split; [lia|]; by rewrite Hkept, app_nil_r|].
  exists fuel. split; [lia|]. set (l := name ++ lit ": " ++ c :: value).
  replace (name ++ lit ": " ++ (c :: value) ++ CRLF) with (l ++ CRLF) by (unfold l; by rewrite <- !app_assoc).
  rewrite <- app_assoc. change (name ++ lit ": " ++ c :: value) with l in Hset. rewrite read_header_line; [by rewrite Hset| |unfold l; by destruct name].
  unfold l. rewrite !not_elem_of_app. split_and!; [done | | done]. apply (bool_decide_eq_true_1 _). vm_compute. reflexivity.
Qed.

Lemma read_both m (pre : str) fuel :
  plain_request m -> (3 <= fuel)%nat ->
  read_headers fuel (pre ++ header_line (lit "Host") (m_host m) ++ header_line (lit "Origin") (m_origin m) ++ CRLF) (length pre) ([], []) =
    Ok (m_host m, m_origin m).
Proof.
  intros [_ _ _ _ [Hh1 Hh2] [Ho1 Ho2] _] Hfuel. destruct fuel as [|fuel]; [lia|].
  destruct (read_header_opt (lit "Host") (m_host m) pre (header_line (lit "Origin") (m_origin m) ++ CRLF) fuel ([], []) (m_host m, [])) as (f1 & Hf1 & E1);
    [apply (bool_decide_eq_true_1 _); vm_compute; reflexivity | done | done | | by intros -> |].
  { intros Hne. destruct (m_host m) as [|c host]; [done|]. unfold read_header. simpl. by rewrite strip_space. }
  rewrite E1. rewrite (app_assoc pre). destruct f1 as [|f1]; [lia|].
  destruct (read_header_opt (lit "Origin") (m_origin m) (pre ++ header_line (lit "Host") (m_host m)) CRLF f1 (m_host m, []) (m_host m, m_origin m)) as (f2 & Hf2 & E2);
    [apply (bool_decide_eq_true_1 _); vm_compute; reflexivity | done | done | | by intros -> |].
  { intros Hne. destruct (m_origin m) as [|c origin]; [done|]. unfold read_header. simpl. by rewrite strip_space. }
  rewrite E2. rewrite (app_assoc _ (header_line (lit "Origin") _)). destruct f2 as [|f2]; [lia|]. apply read_header_end.
Qed.

Lemma read_line m : plain_request m -> read_request_line (request_line m) = Ok (m_method m, toString m).
Proof.
  intros [Hm _ _ _ _ _ _]. unfold request_line. set (method := m_method m) in *. set (target := toString m). clearbody method target.
  assert (" "%char ∉ method) as Hms by (destruct Hm as [-> | ->]; apply (bool_decide_eq_true_1 _); vm_compute; reflexivity).
  assert (exists line, line = method ++ lit " " ++ target ++ lit " HTTP/1.1") as [line El] by eauto. rewrite <- El.
  assert (find (lit " ") line = Some (length method)) as Ef by (rewrite El; apply (find_needle " "%char []); done).
  assert (rfind (lit " HTTP") line = Some (length (method ++ lit " " ++ target))) as Er.
  { replace line with ((method ++ lit " " ++ target) ++ lit " HTTP" ++ lit "/1.1") by (rewrite El; by rewrite <- !app_assoc).
    apply (rfind_last " "%char (lit "HTTP")). apply (bool_decide_eq_true_1 _). vm_compute. reflexivity. }
  assert (take (length method) line = method) as Et by (rewrite El; apply take_app_length).
  assert (substr line (length method + 1) (length target) = target) as Es.
  { replace line with ((method ++ lit " ") ++ target ++ lit " HTTP/1.1") by (rewrite El; by rewrite <- !app_assoc).
    replace (length method + 1)%nat with (length (method ++ lit " ")) by (rewrite length_app; done). apply substr_middle. }
  unfold read_request_line. rewrite Ef. cbn [of_option mbind result_bind]. rewrite Et.
  assert (bool_decide (method = lit "GET") || bool_decide (method = lit "POST") = true) as Eb by (destruct Hm as [-> | ->]; vm_compute; reflexivity).
  rewrite Eb, Er. cbn [of_option mbind result_bind guard_or]. rewrite !length_app. cbn [length lit].
  rewrite (proj2 (Nat.ltb_lt _ _)) by (simpl; lia).
  replace (length method + (length (lit " ") + length target) - length method - 1)%nat with (length target) by (simpl; lia). by rewrite Es.
Qed.

Lemma joined_length l : (length l <= length (joined false l))%nat.
Proof. induction l as [|[k v] l IH]; [done|]. simpl. rewrite !length_app. simpl. rewrite !length_app. lia. Qed.

Lemma read_target_toString m : plain_request m -> read_target (toString m) = Ok (m_root m, m_parameters m).
Proof.
  intros [_ Hr _ [Hp Ho] _ _ Hl]. assert (Z.of_nat (length (toString m)) < 2 ^ 64 - 1) as Hlen
    by (unfold request_text, request_line in Hl; rewrite !length_app in Hl; lia).
  unfold read_target, toString, getParameterString in *. destruct m as [root parameters method host origin]. cbn [m_root m_parameters] in *.
  destruct parameters as [|[key value] l].
  - simpl joined. rewrite app_nil_r. pose proof (find_from_none "?"%char [] [] root Hr) as E. unfold find_from in E. simpl in E.
    rewrite drop_0 in E. change (lit "?") with ["?"%char]. destruct (find ["?"%char] root); [discriminate E | done].
  - change (joined true ((key, value) :: l)) with ("?"%char :: key ++ lit "=" ++ value ++ joined false l) in *.
    change (lit "?") with ["?"%char]. rewrite find_char by done. rewrite drop_app_length, take_app_length.
    pose proof (read_joined l (length (root ++ "?"%char :: key ++ lit "=" ++ value ++ joined false l) + 1) [] "?"%char key value [] Hp) as E.
    cbn [app length] in E. rewrite E; [|done | | ].
    + cbn [mbind result_bind]. by rewrite (tm_set_all id).
    + pose proof (joined_length l). rewrite length_app. simpl. rewrite !length_app. simpl. rewrite !length_app. lia.
    + rewrite length_app in Hlen. simpl in Hlen. simpl. lia.
Qed.

(** *** Cut out of the stream *)

Lemma find_skip c n s t : c ∉ s -> find (c :: n) (s ++ t) = option_map (fun i => length s + i)%nat (find (c :: n) t).
Proof.
  induction s as [|d s IH]; [intros _; simpl app; by destruct (find (c :: n) t)|]. intros [Hd Hs]%not_elem_of_cons. simpl. rewrite bool_decide_eq_false_2 by done. simpl.
  rewrite IH by done. by destruct (find (c :: n) t).
Qed.

Definition lines (l : list str) : str := mjoin (map (fun line => line ++ CRLF) l).

Lemma lines_cons line l : lines (line :: l) = line ++ CRLF ++ lines l.
Proof. unfold lines. simpl. by rewrite <- app_assoc. Qed.

Lemma find_blank_line line l rest :
  Forall (fun line => line <> [] /\ CR ∉ line) (line :: l) ->
  find (CRLF ++ CRLF) (lines (line :: l) ++ CRLF ++ rest) = Some (length (lines (line :: l)) - 2)%nat.
Proof.
  revert line. induction l as [|line' l IH]; intros line [[Hne Hc] Hall]%Forall_cons.
  - rewrite lines_cons, <- app_assoc. change (CRLF ++ CRLF) with (CR :: ["010"; "013"; "010"]%char). rewrite find_skip by done.
    simpl. f_equal. rewrite length_app. simpl. lia.
  - rewrite lines_cons, <- app_assoc. change (CRLF ++ CRLF) with (CR :: ["010"; "013"; "010"]%char). rewrite find_skip by done.
    pose proof Hall as [[Hne' Hc'] _]%Forall_cons. specialize (IH _ Hall). change (CRLF ++ CRLF) with (CR :: ["010"; "013"; "010"]%char) in IH.
    assert (exists d t, line' = d :: t /\ d <> CR) as (d & t & -> & Hd) by (destruct line' as [|d t]; [done|]; exists d, t; split; [done|]; intros ->; apply Hc'; left).
    assert (2 <= length (lines ((d :: t) :: l)))%nat as Hlen by (rewrite lines_cons; simpl; rewrite !length_app; simpl; lia).
    rewrite <- app_assoc. set (tail := lines ((d :: t) :: l) ++ CRLF ++ rest) in *.
    assert (head tail = Some d) as Hh by (unfold tail; by rewrite lines_cons).
    assert (find (CR :: ["010"; "013"; "010"]%char) (CRLF ++ tail) = option_map (fun i => 2 + i)%nat (find (CR :: ["010"; "013"; "010"]%char) tail)) as E2.
    { clearbody tail. clear -Hd Hh. destruct tail as [|e tail]; [done|]. injection Hh as ->. simpl. rewrite (bool_decide_eq_false_2 (CR = d)) by congruence.
      match goal with |- context [if ?b then ?x else ?e] => by destruct (if b then x else e) end. }
    rewrite E2, IH. unfold option_map. f_equal. rewrite !length_app. cbn [length CRLF]. lia.
Qed.

Lemma readHttpMessage_lines line l rest :
  Forall (fun line => line <> [] /\ CR ∉ line) (line :: l) -> (length (lines (line :: l) ++ CRLF ++ rest) <= 2048)%nat ->
  readHttpMessage (lines (line :: l) ++ CRLF ++ rest) = (rest, Ok (Some (lines (line :: l) ++ CRLF))).
Proof.
  intros Hall Hlen. pose proof (find_blank_line line l rest Hall) as Ef.
  assert (2 < length (lines (line :: l)))%nat as H2.
  { apply Forall_cons in Hall as [[Hne _] _]. rewrite lines_cons. destruct line; [done|]. simpl. rewrite !length_app. simpl. lia. }
  unfold readHttpMessage. rewrite (proj2 (Nat.ltb_ge _ _)) by (rewrite !length_app; simpl; lia). rewrite (proj2 (Nat.ltb_ge _ _)) by done. rewrite Ef.
  replace (length (lines (line :: l)) - 2 + 4)%nat with (length (lines (line :: l) ++ CRLF)) by (rewrite length_app; simpl; lia).
  rewrite app_assoc. by rewrite drop_app_length, take_app_length.
Qed.

Lemma request_lines m :
  plain_request m -> exists l, request_text m = lines (request_line m :: l) ++ CRLF /\ Forall (fun line => line <> [] /\ CR ∉ line) (request_line m :: l).
Proof.
  intros [Hm _ [_ Ht] _ [Hh _] [Ho _] _].
  assert (forall name value, name <> [] -> CR ∉ name -> CR ∉ value ->
    exists l, header_line name value = lines l /\ Forall (fun line => line <> [] /\ CR ∉ line) l) as Hline.
  { intros name value Hne Hn Hv. destruct value as [|c value]; [by exists []|]. exists [name ++ lit ": " ++ c :: value]. split.
    - unfold header_line, lines. simpl. rewrite app_nil_r. by rewrite <- !app_assoc.
    - constructor; [|constructor]. split; [by destruct name|]. rewrite !not_elem_of_app. split_and!; [done | | done].
      apply (bool_decide_eq_true_1 _). vm_compute. reflexivity. }
  destruct (Hline (lit "Host") (m_host m)) as (l1 & E1 & H1); [done | apply (bool_decide_eq_true_1 _); vm_compute; reflexivity | done |].
  destruct (Hline (lit "Origin") (m_origin m)) as (l2 & E2 & H2); [done | apply (bool_decide_eq_true_1 _); vm_compute; reflexivity | done |].
  exists (l1 ++ l2). split.
  - unfold request_text. rewrite E1, E2, lines_cons. unfold lines. rewrite map_app, join_app. by rewrite <- !app_assoc.
  - constructor; [|by apply Forall_app]. split.
    + unfold request_line. by destruct Hm as [-> | ->].
    + unfold request_line. rewrite !not_elem_of_app. split_and!; [ | | done | ]; try (destruct Hm as [-> | ->]); apply (bool_decide_eq_true_1 _); vm_compute; reflexivity.
Qed.

(** C22 A request written with its Host and Origin headers is cut out of a stream that
    goes on after it, when both fit the parser's buffer, and reads as the request it
    was written from: its method, its root, its parameters and the two headers. *)
Theorem request_roundtrip m rest :
  plain_request m ->
  setString (request_text m) = Ok m /\
  ((length (request_text m ++ rest) <= 2048)%nat -> readHttpMessage (request_text m ++ rest) = (rest, Ok (Some (request_text m)))).
Proof.
  intros Hp. split.
  - assert (find CRLF (request_text m) = Some (length (request_line m))) as Ef.
    { destruct (request_lines m Hp) as (l & _ & [[_ Hc] _]%Forall_cons). apply (find_needle CR ["010"%char]). exact Hc. }
    unfold setString. rewrite Ef. cbn [of_option mbind result_bind].
    assert (substr (request_text m) 0 (length (request_line m)) = request_line m) as -> by (unfold substr; rewrite drop_0; apply take_app_length).
    rewrite read_line by done. cbn [mbind result_bind].
    assert (request_text m = (request_line m ++ CRLF) ++ header_line (lit "Host") (m_host m) ++ header_line (lit "Origin") (m_origin m) ++ CRLF) as Er
      by (unfold request_text; by rewrite <- app_assoc).
    replace (length (request_line m) + 2)%nat with (length (request_line m ++ CRLF)) by (rewrite length_app; done).
    rewrite Er at 2. rewrite read_both by (done || (unfold request_text, CRLF; rewrite !length_app; simpl; lia)). cbn [mbind result_bind].
    rewrite read_target_toString by done. by destruct m.
  - destruct (request_lines m Hp) as (l & -> & Hall). intros Hlen. rewrite <- app_assoc in Hlen |- *. by apply readHttpMessage_lines.
Qed.
End RoundTrip.

(** ** What is written into attributes *)

Definition markup : list ascii := ["'"; "034"; "<"; ">"]%char.

(** An escaped text ends no attribute and starts no element. *)
Lemma escapeAttribute_safe (value : str) c : c ∈ markup -> c ∉ escapeAttribute value.
Proof.
  intros Hc. unfold escapeAttribute. induction value as [|d value IH]; [apply not_elem_of_nil|]. cbn [mbind list_bind]. rewrite not_elem_of_app. split; [|exact IH].
  unfold markup in Hc. repeat (apply elem_of_cons in Hc as [->|Hc]; [unfold escape_char; repeat case_bool_decide; try by_compute;
    apply not_elem_of_cons; split; [congruence | apply not_elem_of_nil]|]). by apply elem_of_nil in Hc.
Qed.

(** Links are not escaped: a target that ends the attribute leaves it. *)
Lemma link_leaves_attribute :
  html_A (lit "/?a='><B>=") (lit "RELOAD") = lit "<A href='/?a='><B>='>RELOAD</A>".
Proof. reflexivity. Qed.

(** A parameter without an equals sign runs into the next, and its second half is one
    more parameter. *)
Lemma parameter_without_value :
  read_target (lit "/session?a&b=c") = Ok (lit "/session", [(lit "a&b", lit "c"); (lit "b", lit "c")]).
Proof. vm_compute. reflexivity. Qed.

(** ** A session switched off *)

#[local] Existing Instance MessageStore.MemoryStore_ops.

#[local] Instance ex_clocks : Clocks := {
  monotonicMillis n := 1000 * Z.of_nat n;
  time_ n := Z.of_nat n;
  utc_now n := SessionExample.ex_now
}.

#[local] Instance ex_internet : InternetAddresses := { inet_pton host := bool_decide (host = lit "127.0.0.1") }.

(** The button that switches the session of ME and YOU off. *)
Definition ex_request : HttpMessage :=
  mkHttpMessage (lit "/session")
    [(lit "BeginString", lit "FIX.4.2"); (lit "Enabled", lit "0"); (lit "SenderCompID", lit "ME"); (lit "TargetCompID", lit "YOU")]
    (lit "POST") (lit "127.0.0.1:8080") (lit "http://127.0.0.1:8080").

Lemma ex_request_plain : plain_request ex_request.
Proof.
  split.
  - by right.
  - by_compute.
  - split; by_compute.
  - split; [|simpl; split_and!; repeat constructor; vm_compute; reflexivity].
    repeat (apply Forall_cons; split; [split_and!; by_compute|]). apply Forall_nil. exact I.
  - split; [by_compute | by split; intros c [= <-]].
  - split; [by_compute | by split; intros c [= <-]].
  - apply Z.ltb_lt. vm_compute. reflexivity.
Qed.

Lemma request_roundtrip_witness :
  plain_request ex_request /\ setString (request_text ex_request) = Ok ex_request /\
  readHttpMessage (request_text ex_request ++ lit "GET ") = (lit "GET ", Ok (Some (request_text ex_request))).
Proof.
  destruct (request_roundtrip ex_request (lit "GET ") ex_request_plain) as [E1 E2].
  split; [exact ex_request_plain | split; [exact E1 | apply E2, Nat.leb_le; vm_compute; reflexivity]].
Defined.

(** The request comes in two pieces, on a connection with descriptor 5. *)
Definition ex_admin (sent : list str) : World (Admin MessageStore.MemoryStore unit) :=
  mkWorld (mkMonitor 0 0 3 4 ∅ {[5]} ∅ [] true [])
    (mkKernel {[3; 4; 5]} [] [] [] (map RecvData sent) (map (fun _ => PollReports [mkRevents true false false false false]) sent) 0 [])
    (mkAdmin (mkHttpConnection 5 [] false)
       [(SessionExample.ex_id, mkSessionBox SessionExample.ex_env SessionExample.ex_start ∅)] [] []).

Definition ex_half : World (Admin MessageStore.MemoryStore unit) :=
  (http_read (ex_admin [take 20 (request_text ex_request); drop 20 (request_text ex_request)])).1.

Definition enabled_of (w : World (Admin MessageStore.MemoryStore unit)) : list bool := map (fun p => box_enabled p.2) (held_sessions w).

Lemma changes_need_post_witness :
  enabled_of ex_half = [true] /\ enabled_of (http_read ex_half).1 = [false] /\
  exists data request, asks (buffered ex_half ++ data) request /\ permitted request.
Proof.
  assert (enabled_of ex_half = [true]) as E1 by (vm_compute; reflexivity).
  assert (enabled_of (http_read ex_half).1 = [false]) as E2 by (vm_compute; reflexivity).
  split; [exact E1|]. split; [exact E2|].
  destruct (changes_need_post ex_half) as (data & request & _ & Ha & Hp); [|exists data, request; exact (conj Ha Hp)].
  intros E. unfold enabled_of in E1, E2. rewrite E, E1 in E2. discriminate E2.
Defined.

Lemma connection_bounded_witness :
  http_onConnect 5000 5 (ex_admin [request_text ex_request]) = http_onConnect 2049 5 (ex_admin [request_text ex_request]).
Proof. apply (connection_bounded 5000 5). apply Nat.leb_le. vm_compute. reflexivity. Defined.

(** A request that is too long is answered twice. *)
Lemma long_request_answered_twice :
  k_sent (w_kernel (http_read (ex_admin [replicate 2049 "A"%char])).1) = [(5, createResponse 400 []); (5, createResponse 400 [])].
Proof. vm_compute. reflexivity. Qed.
